(* ===== verification/_CoqProject ===== *)
-Q . S2P
Prelude.v
Slot.v
Opcode.v
Option.v
OptionFacts.v
WriteOp.v
Ledger.v
LedgerFacts.v
LedgerActions.v
Wbuf.v
WbufFacts.v
Rebuild.v
WritePath.v
Overlay.v
OverlayFacts.v
ReadYourWrites.v
Error.v
Io.v
Cmd.v
CmdFacts.v
IoFacts.v
Script.v
ScriptEncode.v
ScriptFacts.v
ScriptSem.v
ScriptEffect.v
TinyServer.v
FlushCluster.v
Flush.v
FlushFacts.v
Commit.v
Connection.v
ConnPool.v
ConnFacts.v
Xact.v
LedgerEdges.v
TableMap.v
TableMapFacts.v
Score.v
Vec.v
Ttl.v
Row.v
ScanCmd.v
RowFacts.v
Val.v
ValFacts.v
Cluster.v
ClusterFacts.v
Scan.v
ScanFacts.v
ScanResults.v
ScanMerge.v
ScanWrites.v
ScanCluster.v
ScanChase.v
ScanMoved.v
Estimate.v
EstimateFacts.v
Analyze.v
Probe.v
Report.v
Filter.v
FilterFacts.v
Knn.v
SearchInfo.v
Search.v
SearchFacts.v
Plan.v
PlanFacts.v
Open.v
OpenFacts.v
Entry.v
EntryFacts.v
ProbeFacts.v
Tls.v
TlsFacts.v
Writable.v
Modify.v
ModifyFacts.v
WritableFacts.v
