(* ===== verification/Prelude.v ===== *)
(** * valkey_fdw: a PostgreSQL foreign data wrapper for Valkey, verified

    valkey_fdw maps Valkey keys to rows of foreign tables.  Reads are scans: pages of
    keys, pipelined fetches, a cluster fan-out, a vector search.  A transaction's
    writes are buffered, shown to its own scans, and sent at pre-commit as one Lua
    program that checks every precondition before it writes anything.

    The parts and how they meet (file names are those of src/):

    - DDL runs the validator over the options (vfdw_option.c, valkey_fdw.c); the plan
      of a query builds the table map from them (vfdw_map.c, vfdw_map_check.c);
    - the planner is offered paths (valkey_fdw.c, vfdw_plan.c, vfdw_plan_param.c,
      vfdw_knn.c, vfdw_filter.c) and asks for estimates (vfdw_estimate.c); the path it
      takes is written in the plan and read back when the scan opens
      (vfdw_scan_open.c);
    - a scan (vfdw_scan.c, vfdw_scan_cmd.c, vfdw_scan_cluster.c, vfdw_search.c,
      vfdw_search_info.c) queues commands on a batch (vfdw_cmd.c) over a connection
      (vfdw_conn.c, vfdw_conn_pool.c, vfdw_tls.c, vfdw_io.c), builds rows from the
      replies (vfdw_row.c, vfdw_ttl.c, vfdw_vec.c, vfdw_score.c) and merges them with
      the transaction's own writes (vfdw_overlay.c, vfdw_scan_overlay.c); ANALYZE
      samples its rows (vfdw_analyze.c);
    - on a cluster the slot map (vfdw_cluster.c, vfdw_slot.c) says which node is asked
      for a key, and a redirect has the key asked for again;
    - a modify callback (vfdw_modify.c, vfdw_copy.c, vfdw_render.c, vfdw_rowid.c,
      vfdw_val.c) renders a row into an operation, refused when the table does not
      take it (vfdw_writable.c, vfdw_refuse.c), appends it to the write buffer
      (vfdw_wbuf.c) and folds it into the ledger (vfdw_ledger.c, vfdw_ledger_fold.c),
      one plan of checks and actions per key;
    - a subtransaction that aborts truncates the buffer and refolds the ledger;
    - at pre-commit (vfdw_xact.c) the flush (vfdw_flush.c, vfdw_flush_cluster.c) takes
      a connection, encodes the ledger (vfdw_script_encode.c) into one EVALSHA of the
      program in vfdw_script.c, and classifies the reply (vfdw_error.c);
    - at the end of the transaction the buffer is reset and the connections are swept
      (vfdw_conn_xact.c).

    ** Files

    Prelude: byte strings, machine integers, PostgreSQL errors, the state and error
    monad [M] with its equations, shared lemmas and tactics.

    Vocabulary. Slot (vfdw_slot.c): CRC-16, hash tags, slots.  Opcode (vfdw_opcode.c):
    the codes shared with the Lua program.  Option, OptionFacts (vfdw_option.c and the
    validator of valkey_fdw.c).  WriteOp (vfdw_wbuf.h): one buffered operation
    and the statics of the overlay.  Error
    (vfdw_error.c): replies and their SQLSTATEs.

    Write buffer. Ledger (vfdw_ledger.c, vfdw_ledger_fold.c), LedgerFacts (its
    invariant), LedgerActions (the closed form of what a log records per key),
    Rebuild, LedgerEdges.  Wbuf (vfdw_wbuf.c): the linked log in a heap of records;
    WbufFacts: the list it represents; WritePath: sessions of rows, savepoints and
    errors as a step relation.  Overlay (vfdw_overlay.c), OverlayFacts,
    ReadYourWrites: scans interleaved with the steps of WritePath.

    Wire. Io (vfdw_io.c): deadlines, waits, partial writes, allocation ceilings,
    against a script of what every wait, write and read meets.  Cmd (vfdw_cmd.c):
    argument vectors and batches over an abstract wire; CmdFacts.  IoFacts: Io
    refines that wire.  Tls, TlsFacts (vfdw_tls.c).

    Commit. Script (vfdw_script.c): the Lua program, statement by statement.
    ScriptEncode (vfdw_script_encode.c).  ScriptFacts, ScriptSem, ScriptEffect: the
    two agree, refusals write nothing, success is the log.  TinyServer: a concrete
    server.  FlushCluster (vfdw_flush_cluster.c), Flush (vfdw_flush.c), FlushFacts,
    Commit: the whole path to the database.  Connection (vfdw_conn.c), ConnPool
    (vfdw_conn_pool.c, vfdw_conn_xact.c), ConnFacts.  Xact (vfdw_xact.c).

    Tables and values. TableMap, TableMapFacts (vfdw_map.c, vfdw_map_check.c, and
    PostgreSQL's types).
    Score (vfdw_score.c), Vec (vfdw_vec.c), Ttl
    (vfdw_ttl.c), Row, RowFacts (vfdw_row.c), Val, ValFacts (vfdw_val.c).

    Scans. ScanCmd, Scan (vfdw_scan.c, vfdw_scan_cmd.c, vfdw_scan_cluster.c,
    vfdw_scan_overlay.c, vfdw_scan_open.c): the producer.  ScanFacts: the invariant of
    a scan between two rows, on one server or one node of a fan-out.  ScanResults: one
    server.  ScanMerge: one server inside a transaction that has written.  ScanWrites: a
    command that writes while it scans.  ScanCluster: a keyspace scan over all
    primaries.  ScanChase: one pass over named keys, some of them redirected.
    ScanMoved: a stale slot map and the pass after it.  Cluster, ClusterFacts
    (vfdw_cluster.c).  Estimate, EstimateFacts (vfdw_estimate.c), Analyze
    (vfdw_analyze.c).

    Planning and search. Filter, FilterFacts (vfdw_filter.c, and planner nodes).
    Knn (vfdw_knn.c), SearchInfo (vfdw_search_info.c), Search, SearchFacts
    (vfdw_search.c).  Plan, PlanFacts (vfdw_plan.c, vfdw_plan_param.c).  Open,
    OpenFacts (vfdw_scan_open.c): from a plan to a running scan on the pool.  Entry,
    EntryFacts (valkey_fdw.c): paths, plans, EXPLAIN, the option listing.

    Writes. Writable, WritableFacts (vfdw_writable.c, vfdw_refuse.c).  Modify,
    ModifyFacts (vfdw_modify.c, vfdw_copy.c, vfdw_render.c, vfdw_rowid.c).

    Diagnostics, the SQL-callable functions an operator or a test asks through.  Probe
    (vfdw_testprobe.c, vfdw_testkeys.c, vfdw_testcluster.c, vfdw_test_common.c,
    vfdw_testfuncs.c): a reply as rows, the dump of a prefix, the slot map as ranges,
    pipelines, pokes and calls by address.  Report (vfdw_testwbuf.c, vfdw_testval.c): the
    buffer, the ledger and the program as rows, one value through the conversions.
    ProbeFacts: what both promise.

    ** What the theorems show

    Commit path: a committed transaction leaves the server as the plans of its ledger
    say, each action executed once, and that is its log executed in statement order
    when tables agree on the type of a key and no key is renamed away or used as a
    keyset under another operation ([commit_applies_the_log],
    [plan_actions_are_the_log]); an error that says nothing was applied is true
    wherever the transport fails, of a server whose refusals are refusals and but for a
    refused SCRIPT LOAD ([flush_reports_truthfully]); the program refuses without
    writing ([refusal_changes_nothing]); encoder and program agree byte for byte
    ([encode_decode_roundtrip], [key_arguments_resolve]); retries stay within their
    budget whatever the server answers ([flush_retry_budget]); on a cluster every key
    but the empty one is in one slot ([cluster_unit_is_one_slot]), and the slot map
    names the primary the reply names ([slot_map_routes_to_claimant]).

    Transaction state: in every reachable session the ledger is the fold of the log
    ([ledger_is_fold_of_log]), savepoints truncate exactly their own operations, a scan
    reads its own transaction's writes and the tail iteration is complete, and a
    pre-commit that succeeds has had the program applied to everything buffered
    ([writes_are_never_dropped]).

    Scans, of servers whose data does not change meanwhile: a scan returns the rows of
    every key and of nothing else, and ends: of the keyspace of one server
    ([keyspace_scan_is_complete]), merged key by key with what the transaction has
    written ([scan_merges_own_writes]) and not with what its own command writes
    meanwhile, rescans included ([command_sees_what_it_found]); of a cluster
    ([cluster_scan_is_complete]); of named keys under a slot map that is stale but
    places them all ([stale_map_scan_is_complete]); on one server from what the planner
    wrote, for a plan without parameters, to the last row
    ([planned_scan_returns_the_rows]); and for ANALYZE.  A row built from the answers of
    a server of hashes has every column from its own source
    ([hash_row_reads_its_own_fields]); what is written reads back, by column and by row,
    for the columns these theorems name.  A nearest-neighbour query returns the first k
    rows that satisfy it ([nearest_rows_of_the_query]), and the text a WHERE clause is
    compiled into means the clause ([filter_query_means_the_clauses]), for bounds that
    can be rendered and tags the index does not split.

    Connections and I/O: no reply crosses a transaction boundary, in any order of
    taking connections, batches that end or are left by an error, savepoints and
    invalidations ([transaction_end_leaves_no_unread_reply]), a slot has one reader, nothing but pre-commit talks on the wire, the socket code is the wire
    ([socket_code_refines_the_wire]), a wait ends by its deadline
    ([deadline_is_kept]), TLS is set up as the options say or not at all.

    Tables: accepted options are read without error, a map that is built is well
    formed, the write mask read from option text agrees with what the map says of a
    write, for the columns the map is built from.

    Diagnostics: the dump of a prefix is its keys with their types, each once
    ([dump_is_the_prefix]); the ranges of the slot map say what routing does
    ([ranges_are_the_routing]); the pipeline test counts every value and removes what it
    wrote ([pipeline_counts_every_value]); the buffer is pushed out depth over
    pipeline_batch times ([flushes_are_depth_over_batch]); a call by address leaves no
    socket behind ([calls_by_address_leave_no_socket]); the report of a ledger shows
    every step of it ([report_is_the_ledger]).

    Theorems that are not about a promise kept show where the code does not do what it
    means to: a refused SCRIPT LOAD ([refused_load_false_claim]), a lease that outlives
    a failed connection, a savepoint that closes an outer scan, renames and packed
    inserts on keys already touched, a chain of renames that loses a row
    ([rename_chain_loses_a_row]), a score lost between two tables on one key
    ([two_types_lose_the_score]), an empty key the cluster check skips
    ([empty_key_crosses_slots]), own writes a scan does not show
    ([renamed_row_stays_under_the_old_key], [members_of_a_key_are_one_row]), writes
    refused for a column nothing reads ([unread_distance_blocks_writes]), a rescan of a cluster that skips nodes
    ([cluster_rescan_loses_nodes]), a key of an unclaimed slot that is returned twice
    ([unplaced_key_is_returned_twice]), a parameterised path that leaves the table, a
    vector field that does not read back, estimates of the wrong database, a diagnostic
    that keeps the connection it asked on ([protocol_call_keeps_its_lease]).

    ** Conventions and bounds

    Bytes are [string] (all 256 values); uint16, uint64, int and int64 are [Z] with
    their wrap written out where the C wraps.  An ereport(ERROR) is [Raise] with the
    state it leaves behind.  Loops without a structural measure carry fuel: list walks
    over the heap use its size plus one; draining a batch uses the number of pending
    replies; growing an argument vector the number needed; the retry loop of the flush
    uses write_retry_count plus two ([flush_retry_budget] proves it never runs out);
    the loops of vfdw_io.c carry the length of the script plus one; the producer of a
    scan carries the weight of what is left (pages, keys and nodes), and every
    completeness theorem gives the fuel that is enough; a search carries one unit per
    row and per request.

    Parameters: the server's command function and its conversion of replies to Lua,
    tonumber, the peer and the faults of a connection, libvalkey's reader and connect,
    OpenSSL, the kernel's answers to waits and writes, the SHA1 digest, PostgreSQL's
    catalog, type input and output, float conversions, expression evaluation, costs and
    reservoir.  What theorems assume of them are documented properties (read commands
    do not write, commands on different keys commute, an EVALSHA that is refused did not
    run), and concrete instances show they can hold.

    ** Not modelled

    Memory contexts beyond the accounting the caps read; the detail and hint lines of
    errors and the names of relations and columns inside messages; the SHA1 of the
    program text; the handler table and the two version functions of valkey_fdw.c; the
    statistics of batch contexts and the diagnostic that shows them; the diagnostic that
    tells a copied value from a borrowed pointer; the version shims of vfdw_compat.h.

    Planned: redirects met by a keyspace scan and by more than one reload; the merge
    with the overlay on a cluster and in a search; a nearest-neighbour query run through
    Open from its plan. *)
From Stdlib Require Export Ascii.
From Stdlib Require Import ZArith DecimalString DecimalZ DecimalFacts.
From stdpp Require Export base numbers strings list gmap option.

(* ---------------------------------------------------------------- *)
(** ** Byte strings *)

(** A C byte string with an explicit length is a [string]: any of the 256
    ascii values may occur in it, NUL included. *)
Abbreviation bytes := string.

(** The unsigned value of one byte. *)
Definition byte_val (c : ascii) : Z := Z.of_N (Ascii.N_of_ascii c).

(** The part of a byte string a NUL-terminated reader sees (what [strlen]
    and [strnlen] measure). *)
Fixpoint until_nul (s : bytes) : bytes :=
  match s with
  | EmptyString => EmptyString
  | String c r => if decide (byte_val c = 0%Z) then EmptyString
                  else String c (until_nul r)
  end.

(** [memcmp(s, p, strlen p) == 0] on a string at least as long as [p]. *)
Fixpoint starts_with (p s : bytes) : bool :=
  match p, s with
  | EmptyString, _ => true
  | String a p', String b s' => bool_decide (a = b) && starts_with p' s'
  | String _ _, EmptyString => false
  end.

(** The bytes after the first [n]. *)
Fixpoint drop_bytes (n : nat) (s : bytes) : bytes :=
  match n, s with
  | O, _ => s
  | S n', String _ r => drop_bytes n' r
  | S _, EmptyString => EmptyString
  end.

(** The first [n] bytes. *)
Fixpoint take_bytes (n : nat) (s : bytes) : bytes :=
  match n, s with
  | O, _ => EmptyString
  | S n', String c r => String c (take_bytes n' r)
  | S _, EmptyString => EmptyString
  end.

(** The byte at position [n], if it is inside the string. *)
Definition byte_at (n : nat) (s : bytes) : option ascii := String.get n s.

(** Case-sensitive length in bytes, as a [Z]. *)
Definition blen (s : bytes) : Z := Z.of_nat (String.length s).

(* ---------------------------------------------------------------- *)
(** ** Decimal numbers as text *)

(** What [snprintf] writes for an integer with [%d] or [INT64_FORMAT]. *)
Definition dec (z : Z) : bytes := NilZero.string_of_int (Z.to_int z).

(** A decimal integer read back: optional minus sign, at least one digit and
    nothing else. *)
Definition undec (s : bytes) : option Z := Z.of_int <$> NilZero.int_of_string s.

(* ---------------------------------------------------------------- *)
(** ** Machine integers *)

(** Wrap-around of an unsigned 64-bit counter. *)
Definition u64 (z : Z) : Z := z mod 2 ^ 64.

(** Wrap-around of an unsigned 16-bit value. *)
Definition u16 (z : Z) : Z := z mod 2 ^ 16.

(** Bounds of a signed 64-bit integer. *)
Definition INT64_MAX : Z := 2 ^ 63 - 1.
Definition INT64_MIN : Z := - 2 ^ 63.
Definition in_int64 (z : Z) : bool := bool_decide (INT64_MIN ≤ z ≤ INT64_MAX)%Z.

(* ---------------------------------------------------------------- *)
(** ** Errors: what ereport and elog raise *)

(** The SQLSTATEs the wrapper reports. *)
Inductive sqlstate :=
  | ERRCODE_CONNECTION_FAILURE | ERRCODE_PROTOCOL_VIOLATION
  | ERRCODE_OUT_OF_MEMORY | ERRCODE_FDW_ERROR | ERRCODE_FDW_INVALID_DATA_TYPE
  | ERRCODE_DATATYPE_MISMATCH | ERRCODE_INVALID_PASSWORD
  | ERRCODE_INVALID_AUTHORIZATION_SPECIFICATION | ERRCODE_INSUFFICIENT_PRIVILEGE
  | ERRCODE_FEATURE_NOT_SUPPORTED | ERRCODE_CANNOT_CONNECT_NOW
  | ERRCODE_LOCK_NOT_AVAILABLE | ERRCODE_READ_ONLY_SQL_TRANSACTION
  | ERRCODE_CONFIG_FILE_ERROR | ERRCODE_TRANSACTION_ROLLBACK
  | ERRCODE_UNIQUE_VIOLATION | ERRCODE_T_R_SERIALIZATION_FAILURE
  | ERRCODE_INTERNAL_ERROR | ERRCODE_TRANSACTION_RESOLUTION_UNKNOWN
  | ERRCODE_PROGRAM_LIMIT_EXCEEDED | ERRCODE_NOT_NULL_VIOLATION
  | ERRCODE_CHECK_VIOLATION | ERRCODE_INVALID_PARAMETER_VALUE
  | ERRCODE_DATETIME_VALUE_OUT_OF_RANGE | ERRCODE_INVALID_TABLE_DEFINITION
  | ERRCODE_DATA_EXCEPTION | ERRCODE_QUERY_CANCELED | ERRCODE_ADMIN_SHUTDOWN
  | ERRCODE_TOO_MANY_CONNECTIONS | ERRCODE_S_R_E_PROHIBITED_SQL_STATEMENT_ATTEMPTED
  | ERRCODE_FDW_INVALID_OPTION_NAME | ERRCODE_SYNTAX_ERROR
  | ERRCODE_NULL_VALUE_NOT_ALLOWED | ERRCODE_UNDEFINED_COLUMN
  | ERRCODE_NUMERIC_VALUE_OUT_OF_RANGE.

#[global] Instance sqlstate_eq_dec : EqDecision sqlstate.
Proof. solve_decision. Defined.

(** An error in flight: its SQLSTATE and its primary message. *)
Record pg_error := PgError { pe_code : sqlstate; pe_msg : string }.

#[global] Instance pg_error_eq_dec : EqDecision pg_error.
Proof. solve_decision. Defined.

(** [elog(ERROR, ...)] is an internal error. *)
Definition elog_error (msg : string) : pg_error := PgError ERRCODE_INTERNAL_ERROR msg.

(** The outcome of code that may raise. *)
Inductive result (A : Type) : Type :=
  | Ok (a : A)
  | Raise (e : pg_error).
Arguments Ok {A} a.
Arguments Raise {A} e.

#[global] Instance result_ret : MRet result := λ A a, Ok a.
#[global] Instance result_bind : MBind result := λ A B f r,
  match r with Ok a => f a | Raise e => Raise e end.
#[global] Instance result_fmap : FMap result := λ A B f r,
  match r with Ok a => Ok (f a) | Raise e => Raise e end.

Definition is_ok {A} (r : result A) : bool :=
  match r with Ok _ => true | Raise _ => false end.

(* ---------------------------------------------------------------- *)
(** ** Stateful code that may raise *)

(** A raise is a longjmp: the globals keep whatever was assigned before it,
    so the state is returned on both outcomes. *)
Definition M (S A : Type) : Type := S → result A * S.

#[global] Instance M_ret {S} : MRet (M S) := λ A a s, (Ok a, s).
#[global] Instance M_bind {S} : MBind (M S) := λ A B f m s,
  match m s with
  | (Ok a, s') => f a s'
  | (Raise e, s') => (Raise e, s')
  end.

Definition raise {S A} (e : pg_error) : M S A := λ s, (Raise e, s).
Definition get {S} : M S S := λ s, (Ok s, s).
Definition gets {S A} (f : S → A) : M S A := λ s, (Ok (f s), s).
Definition modify {S} (f : S → S) : M S unit := λ s, (Ok (), f s).
Definition when {S} (b : bool) (m : M S unit) : M S unit := if b then m else mret ().

(** [for (i = 0; ...)] over a list, stopping at the first raise. *)
Fixpoint miter {S A} (f : A → M S unit) (l : list A) : M S unit :=
  match l with
  | [] => mret ()
  | x :: r => f x ≫= λ _, miter f r
  end.

Declare Scope vfdw_scope.
Delimit Scope vfdw_scope with vfdw.
Notation "m ;;; k" := (mbind (λ _, k) m)
  (at level 100, k at level 200, right associativity) : vfdw_scope.
Open Scope vfdw_scope.

(** [memchr]: the offset of the first occurrence of a byte. *)
Fixpoint memchr (c : ascii) (s : bytes) : option nat :=
  match s with
  | EmptyString => None
  | String a r => if decide (a = c) then Some 0 else S <$> memchr c r
  end.

(** Whether a byte occurs at all. *)
Definition occurs (c : ascii) (s : bytes) : bool :=
  match memchr c s with Some _ => true | None => false end.

(* ---------------------------------------------------------------- *)
(** ** Lemmas shared by the components *)

Create HintDb vfdw.
Create Rewrite HintDb vfdw_norm.

Ltac destr_match :=
  match goal with
  | |- context [match ?x with _ => _ end] => destruct x eqn:?
  end.

(** Split an [if] or a [match] whose scrutinee is decided by a hypothesis. *)
Ltac use_eqs := repeat match goal with H : ?x = _ |- context [?x] => rewrite H end.

Lemma undec_dec z : undec (dec z) = Some z.
Proof.
  unfold undec, dec. rewrite NilZero.isi.
  - simpl. by rewrite DecimalZ.of_to.
  - intros H. apply (f_equal Z.of_int) in H as H'.
    rewrite DecimalZ.of_to in H'. simpl in H'. subst z. discriminate.
  - intros H. apply (f_equal Z.of_int) in H as H'.
    rewrite DecimalZ.of_to in H'. simpl in H'. subst z. discriminate.
Qed.

Lemma dec_inj z1 z2 : dec z1 = dec z2 → z1 = z2.
Proof. intros H. apply (f_equal undec) in H. rewrite !undec_dec in H. congruence. Qed.

Lemma append_cons c (a b : bytes) : String c a +:+ b = String c (a +:+ b).
Proof. done. Qed.

Lemma append_empty (b : bytes) : "" +:+ b = b.
Proof. done. Qed.

(** Normalise concatenations. *)
Ltac simpl_app := rewrite ?append_cons, ?append_empty in *.

Lemma append_nil_r (s : bytes) : s +:+ "" = s.
Proof. induction s as [|c s IH]; [done|]. simpl_app. by rewrite IH. Qed.

Lemma append_assoc (a b c : bytes) : (a +:+ b) +:+ c = a +:+ (b +:+ c).
Proof. induction a as [|x a IH]; [done|]. simpl_app. simpl. by rewrite ?IH. Qed.

Lemma length_append (a b : bytes) :
  String.length (a +:+ b) = String.length a + String.length b.
Proof. induction a as [|x a IH]; [done|]. simpl_app. simpl. by rewrite ?IH. Qed.

Lemma take_bytes_append (a b : bytes) : take_bytes (String.length a) (a +:+ b) = a.
Proof. induction a as [|x a IH]; [by destruct b|]. simpl_app. simpl. by rewrite IH. Qed.

Lemma drop_bytes_append (a b : bytes) : drop_bytes (String.length a) (a +:+ b) = b.
Proof. induction a as [|x a IH]; [by destruct b|]. simpl_app. done. Qed.

Lemma take_drop_bytes n (s : bytes) : take_bytes n s +:+ drop_bytes n s = s.
Proof.
  revert s; induction n as [|n IH]; intros [|c s]; simpl; try done.
  simpl_app. by rewrite IH.
Qed.

Lemma length_take_bytes n (s : bytes) :
  String.length (take_bytes n s) = n `min` String.length s.
Proof. revert s; induction n as [|n IH]; intros [|c s]; simpl; try done. by rewrite IH. Qed.

Lemma length_drop_bytes n (s : bytes) :
  String.length (drop_bytes n s) = String.length s - n.
Proof. revert s; induction n as [|n IH]; intros [|c s]; simpl; try done. Qed.

Lemma starts_with_spec (p s : bytes) :
  starts_with p s = true ↔ ∃ r, s = p +:+ r.
Proof.
  revert s; induction p as [|a p IH]; intros s; simpl.
  - split; [intros _; by exists s|done].
  - destruct s as [|b s]; [split; [done|intros [r Hr]; discriminate]|].
    rewrite andb_true_iff, bool_decide_eq_true, IH. split.
    + intros [-> [r ->]]. by exists r.
    + intros [r Hr]. simpl_app. simplify_eq. split; [done|by exists r].
Qed.

Lemma starts_with_refl (p r : bytes) : starts_with p (p +:+ r) = true.
Proof. apply starts_with_spec. by exists r. Qed.

Lemma memchr_None c (s : bytes) : memchr c s = None ↔ occurs c s = false.
Proof. unfold occurs. destruct (memchr c s); naive_solver. Qed.

Lemma occurs_app c (a b : bytes) : occurs c (a +:+ b) = occurs c a || occurs c b.
Proof.
  unfold occurs. induction a as [|x a IH]; [done|]. simpl_app. simpl.
  case_decide; [done|]. destruct (memchr c (a +:+ b)), (memchr c a), (memchr c b); simpl in *; done.
Qed.

Lemma occurs_head c x (s : bytes) : occurs c (String x s) = bool_decide (x = c) || occurs c s.
Proof. change (String x s) with (String x "" +:+ s). rewrite occurs_app. f_equal. unfold occurs. simpl.
  case_decide; [by rewrite bool_decide_true|by rewrite bool_decide_false]. Qed.

Lemma memchr_app_absent c (a b : bytes) :
  occurs c a = false → memchr c (a +:+ String c b) = Some (String.length a).
Proof.
  induction a as [|x a IH]; intros H; simpl_app; simpl.
  - by rewrite decide_True.
  - unfold occurs in H. simpl in H. case_decide; [done|].
    rewrite IH; [done|]. unfold occurs. destruct (memchr c a); [done|done].
Qed.

Lemma memchr_Some c (s : bytes) n :
  memchr c s = Some n →
  ∃ a b, s = a +:+ String c b ∧ String.length a = n ∧ occurs c a = false.
Proof.
  revert n; induction s as [|x s IH]; intros n; simpl; [done|].
  case_decide as Hd.
  - intros [= <-]. subst x. by exists "", s.
  - destruct (memchr c s) as [m|] eqn:E; simpl; [|done]. intros [= <-].
    destruct (IH m eq_refl) as (a & b & -> & <- & Ho).
    exists (String x a), b. split_and!; [done|done|].
    unfold occurs in *. simpl. rewrite decide_False by done.
    by destruct (memchr c a).
Qed.

(** Loops that raise: a run over a concatenation is the two runs in turn. *)
Lemma miter_app {S A} (f : A → M S unit) (l1 l2 : list A) (s : S) :
  miter f (l1 ++ l2) s =
  match miter f l1 s with
  | (Ok _, s') => miter f l2 s'
  | (Raise e, s') => (Raise e, s')
  end.
Proof.
  revert s; induction l1 as [|x l1 IH]; intros s; simpl; [done|].
  unfold mbind, M_bind. destruct (f x s) as [[u|e] s']; [apply IH|done].
Qed.

Lemma miter_ok_prefix {S A} (f : A → M S unit) (l1 l2 : list A) (s s' : S) :
  miter f (l1 ++ l2) s = (Ok (), s') → ∃ s1, miter f l1 s = (Ok (), s1).
Proof.
  rewrite miter_app. destruct (miter f l1 s) as [[[]|e] s1]; [eauto|done].
Qed.

(** An invariant kept by the body of a loop is kept by the loop, whatever way
    it ends. *)
Lemma miter_inv {S A} (I : S → Prop) (f : A → M S unit) (l : list A) (s : S) :
  (∀ x s0, x ∈ l → I s0 → I (f x s0).2) → I s → I (miter f l s).2.
Proof.
  revert s; induction l as [|x l IH]; intros s Hf HI; simpl; [done|].
  unfold mbind, M_bind. destruct (f x s) as [[u|e] s'] eqn:E.
  - apply IH; [|].
    + intros y s0 Hy. apply Hf. by apply elem_of_cons; right.
    + pose proof (Hf x s (proj2 (elem_of_cons _ _ _) (or_introl eq_refl)) HI) as H.
      by rewrite E in H.
  - pose proof (Hf x s (proj2 (elem_of_cons _ _ _) (or_introl eq_refl)) HI) as H.
    by rewrite E in H.
Qed.

(* ---------------------------------------------------------------- *)
(** ** Reasoning about stateful code *)

(** [wp m Q E s]: started in [s], [m] ends in a state satisfying [Q] when it
    returns and [E] when it raises. *)
Definition wp {S A} (m : M S A) (Q : A → S → Prop) (E : pg_error → S → Prop) (s : S) : Prop :=
  match m s with
  | (Ok a, s') => Q a s'
  | (Raise e, s') => E e s'
  end.

(** [m] keeps [I] whichever way it ends. *)
Definition pres {S A} (I : S → Prop) (m : M S A) : Prop := ∀ s, I s → I (m s).2.

Lemma wp_bind {S A B} (m : M S A) (f : A → M S B) Q E s :
  wp m (λ a, wp (f a) Q E) E s → wp (m ≫= f) Q E s.
Proof. unfold wp, mbind, M_bind. by destruct (m s) as [[a|e] s']. Qed.

Lemma wp_ret {S A} (a : A) Q (E : pg_error → S → Prop) s : Q a s → wp (mret a) Q E s.
Proof. done. Qed.

Lemma wp_mono {S A} (m : M S A) (Q Q' : A → S → Prop) (E E' : pg_error → S → Prop) s :
  wp m Q E s → (∀ a s', Q a s' → Q' a s') → (∀ e s', E e s' → E' e s') → wp m Q' E' s.
Proof. unfold wp. destruct (m s) as [[a|e] s']; eauto. Qed.

Lemma wp_run {S A} (m : M S A) (Q : A → S → Prop) (E : pg_error → S → Prop) s :
  wp m Q E s → ∀ r s', m s = (r, s') → match r with Ok a => Q a s' | Raise e => E e s' end.
Proof. unfold wp. intros H r s' Hr. rewrite Hr in H. by destruct r. Qed.

Lemma wp_pres {S A} (I : S → Prop) (m : M S A) s :
  pres I m → I s → wp m (λ _, I) (λ _, I) s.
Proof. intros H Hs. specialize (H s Hs). unfold wp. by destruct (m s) as [[a|e] s']. Qed.

Lemma pres_wp {S A} (I : S → Prop) (m : M S A) :
  (∀ s, I s → wp m (λ _, I) (λ _, I) s) → pres I m.
Proof. intros H s Hs. specialize (H s Hs). unfold wp in H. by destruct (m s) as [[a|e] s']. Qed.

Lemma pres_bind {S A B} (I : S → Prop) (m : M S A) (f : A → M S B) :
  pres I m → (∀ a, pres I (f a)) → pres I (m ≫= f).
Proof.
  intros Hm Hf s Hs. specialize (Hm s Hs). unfold mbind, M_bind.
  destruct (m s) as [[a|e] s']; [by apply Hf|done].
Qed.

Lemma pres_ret {S A} (I : S → Prop) (a : A) : pres I (mret a).
Proof. by intros s. Qed.

Lemma pres_raise {S A} (I : S → Prop) e : pres I (raise (A := A) e).
Proof. by intros s. Qed.

Lemma pres_gets {S A} (I : S → Prop) (f : S → A) : pres I (gets f).
Proof. by intros s. Qed.

Lemma pres_get {S} (I : S → Prop) : pres I get.
Proof. by intros s. Qed.

Lemma pres_when {S} (I : S → Prop) b m : pres I m → pres I (when b m).
Proof. by destruct b; [|intros _ s]. Qed.

Lemma pres_miter {S A} (I : S → Prop) (f : A → M S unit) l :
  (∀ x, x ∈ l → pres I (f x)) → pres I (miter f l).
Proof. intros Hf s Hs. apply miter_inv; [|done]. intros x s0 Hx. by apply Hf. Qed.

#[export] Hint Resolve pres_ret pres_raise pres_gets pres_get pres_when pres_bind : vfdw.

(** Preservation by case analysis on the code, discharged by the database. *)
Ltac pres_step :=
  match goal with
  | |- pres _ (match ?x with _ => _ end) => destruct x
  | |- pres _ (if ?x then _ else _) => destruct x
  | |- pres _ (let '(_, _) := ?x in _) => destruct x
  | |- pres _ (mbind _ _) => apply pres_bind; [|intros ?]
  | |- pres _ (when _ _) => apply pres_when
  | |- pres _ (miter _ _) => apply pres_miter; intros ? _
  end.
Ltac pres_auto := repeat first [solve [eauto with vfdw] | pres_step].

(** A read runs without changing anything. *)
Lemma gets_bind {S A B} (g : S → A) (f : A → M S B) s : (gets g ≫= f) s = f (g s) s.
Proof. done. Qed.

Lemma ret_bind {S A B} (a : A) (f : A → M S B) s : (mret a ≫= f) s = f a s.
Proof. done. Qed.

Lemma modify_bind {S B} (g : S → S) (f : unit → M S B) s : (modify g ≫= f) s = f () (g s).
Proof. done. Qed.

Lemma bind_ok {S A B} (m : M S A) (f : A → M S B) s b s'' :
  (m ≫= f) s = (Ok b, s'') → ∃ a s', m s = (Ok a, s') ∧ f a s' = (Ok b, s'').
Proof. unfold mbind, M_bind. destruct (m s) as [[a|e] s']; [eauto|done]. Qed.

Lemma fold_left_cons {A B} (f : A → B → A) x l a :
  fold_left f (x :: l) a = fold_left f l (f a x).
Proof. done. Qed.

(** A simulation between two left folds. *)
Lemma fold_left_sim {A B X} (P : A → Prop) (h : A → B) (f : A → X → A) (g : B → X → B) :
  (∀ a x, P a → P (f a x) ∧ h (f a x) = g (h a) x) →
  ∀ l a, P a → h (fold_left f l a) = fold_left g l (h a).
Proof.
  intros H l. induction l as [|x l IH]; intros a Ha; [done|].
  destruct (H a x Ha) as [Hp Heq]. rewrite !fold_left_cons, IH by done. by rewrite Heq.
Qed.

#[export] Hint Rewrite undec_dec append_nil_r append_assoc length_append
  take_bytes_append drop_bytes_append length_take_bytes length_drop_bytes
  @miter_app : vfdw_norm.
#[export] Hint Resolve starts_with_refl : vfdw.
