(* ===== verification/Slot.v ===== *)
(** Hash tags and the CRC-16 cluster slot (src/vfdw_slot.c).

    [vfdw_val_crc16], [vfdw_val_hashtag] and [vfdw_val_slot] are the three C
    functions.  [Long_division] is the reference they are compared with:
    schoolbook division of the message polynomial by x^16+x^12+x^5+1. *)
From S2P Require Import Prelude.
Local Open Scope Z_scope.

(** One iteration of the inner loop: [crc] is a uint16. *)
Definition crc16_bit (crc : Z) : Z :=
  if bool_decide (Z.land crc 0x8000 ≠ 0)
  then u16 (Z.lxor (u16 (Z.shiftl crc 1)) 0x1021)
  else u16 (Z.shiftl crc 1).

(** One iteration of the outer loop. *)
Definition crc16_byte (crc : Z) (c : ascii) : Z :=
  Nat.iter 8 crc16_bit (Z.lxor crc (u16 (Z.shiftl (byte_val c) 8))).

Fixpoint crc16_loop (crc : Z) (buf : bytes) {struct buf} : Z :=
  match buf with
  | EmptyString => crc
  | String c r => crc16_loop (crc16_byte crc c) r
  end.

Definition vfdw_val_crc16 (buf : bytes) : Z := crc16_loop 0 buf.

(** The substring a slot is computed over. *)
Definition vfdw_val_hashtag (key : bytes) : bytes :=
  if decide (String.length key = 0%nat) then key else
  match memchr "{" key with
  | None => key
  | Some open_ =>
      let rest := drop_bytes (S open_) key in
      match memchr "}" rest with
      | None => key
      | Some O => key
      | Some close => take_bytes close rest
      end
  end.

Definition vfdw_val_slot (key : bytes) : Z :=
  Z.land (vfdw_val_crc16 (vfdw_val_hashtag key)) 0x3FFF.

(** Reference: long division over GF(2).  A message is its bits, most
    significant first, followed by sixteen zeros; the register keeps the
    running remainder. *)
Module Long_division.

Definition poly : Z := 0x11021.

Definition push_bit (r : Z) (b : bool) : Z :=
let r' := Z.lor (Z.shiftl r 1) (Z.b2z b) in
if Z.testbit r' 16 then Z.lxor r' poly else r'.

Definition byte_bits (c : ascii) : list bool :=
map (Z.testbit (byte_val c)) [7; 6; 5; 4; 3; 2; 1; 0].

Fixpoint bits (s : bytes) : list bool :=
match s with
| EmptyString => []
| String c r => byte_bits c ++ bits r
end.

Definition remainder (s : bytes) : Z :=
fold_left push_bit (bits s ++ replicate 16 false) 0.

End Long_division.

(* ---------------------------------------------------------------- *)
(** ** The register step is linear *)

Section crc_linear.

Implicit Types r s : Z.

Definition reg16 r := 0 ≤ r < 65536.

Lemma reg16_bits r n : reg16 r → 16 ≤ n → Z.testbit r n = false.
Proof.
intros [H0 H1] Hn. destruct (decide (r = 0)) as [->|Hr]; [apply Z.bits_0|].
apply Z.bits_above_log2; [lia|]. apply Z.log2_lt_pow2; [lia|].
apply Z.lt_le_trans with (2 ^ 16); [lia|]. apply Z.pow_le_mono_r; lia.
Qed.

Lemma reg16_of_bits r : 0 ≤ r → (∀ n, 16 ≤ n → Z.testbit r n = false) → reg16 r.
Proof.
intros H0 H. split; [done|]. destruct (decide (r = 0)) as [->|Hr]; [lia|].
change 65536 with (2 ^ 16). apply Z.log2_lt_pow2; [lia|].
destruct (decide (Z.log2 r < 16)) as [|Hge]; [done|].
assert (Z.testbit r (Z.log2 r) = true) by (apply Z.bit_log2; lia).
rewrite H in *; [done|lia].
Qed.

Lemma reg16_lxor r s : reg16 r → reg16 s → reg16 (Z.lxor r s).
Proof.
intros Hr Hs. apply reg16_of_bits.
- apply Z.lxor_nonneg. destruct Hr, Hs. lia.
- intros n Hn. rewrite Z.lxor_spec, !reg16_bits by done. done.
Qed.

Lemma reg16_u16 z : reg16 (u16 z).
Proof. unfold reg16, u16. change 65536 with (2 ^ 16). apply Z.mod_pos_bound. lia. Qed.

(** The step, written as a shift and a conditional subtraction. *)
Definition crc_T r : Z :=
Z.lxor (u16 (Z.shiftl r 1)) (if Z.testbit r 15 then 0x1021 else 0).

Lemma land_8000 r : 0 ≤ r → bool_decide (Z.land r 0x8000 ≠ 0) = Z.testbit r 15.
Proof.
intros H0. change 0x8000 with (2 ^ 15).
destruct (Z.testbit r 15) eqn:E; case_bool_decide as Hd; try done.
- apply (f_equal (λ z, Z.testbit z 15)) in Hd.
  rewrite Z.land_spec, E, Z.pow2_bits_true, Z.bits_0 in Hd by lia. done.
- exfalso. apply Hd. apply Z.bits_inj'. intros n Hn.
  rewrite Z.land_spec, Z.bits_0. destruct (decide (n = 15)) as [->|Hne].
  + by rewrite E.
  + rewrite Z.pow2_bits_false by lia. by rewrite andb_false_r.
Qed.

Lemma crc16_bit_T r : reg16 r → crc16_bit r = crc_T r.
Proof.
intros Hr. unfold crc16_bit, crc_T. rewrite land_8000 by (destruct Hr; lia).
destruct (Z.testbit r 15).
- unfold u16 at 1. rewrite Z.mod_small; [done|].
  apply (reg16_lxor _ 0x1021); [apply reg16_u16|unfold reg16; lia].
- by rewrite Z.lxor_0_r.
Qed.

Lemma reg16_T r : reg16 (crc_T r).
Proof. apply reg16_lxor; [apply reg16_u16|]. destruct (Z.testbit r 15); unfold reg16; lia. Qed.

Lemma u16_lxor a b : u16 (Z.lxor a b) = Z.lxor (u16 a) (u16 b).
Proof.
unfold u16. rewrite <- !Z.land_ones by lia. apply Z.bits_inj'. intros n Hn.
rewrite Z.land_spec, !Z.lxor_spec, !Z.land_spec.
by destruct (Z.testbit a n), (Z.testbit b n), (Z.testbit (Z.ones 16) n).
Qed.

Lemma crc_T_lxor r s : crc_T (Z.lxor r s) = Z.lxor (crc_T r) (crc_T s).
Proof.
unfold crc_T. rewrite Z.shiftl_lxor, u16_lxor, Z.lxor_spec.
set (a := u16 (Z.shiftl r 1)). set (b := u16 (Z.shiftl s 1)).
apply Z.bits_inj'. intros n Hn.
destruct (Z.testbit r 15), (Z.testbit s 15); simpl xorb; cbv iota;
  rewrite !Z.lxor_spec, ?Z.bits_0;
  destruct (Z.testbit a n), (Z.testbit b n), (Z.testbit 0x1021 n); done.
Qed.

Lemma iter_T_lxor k r s :
Nat.iter k crc_T (Z.lxor r s) = Z.lxor (Nat.iter k crc_T r) (Nat.iter k crc_T s).
Proof. induction k as [|k IH]; simpl; [done|]. by rewrite IH, crc_T_lxor. Qed.

Lemma reg16_iter_T k r : reg16 r → reg16 (Nat.iter k crc_T r).
Proof. destruct k; simpl; [done|intros; apply reg16_T]. Qed.

Lemma iter_bit_T k r : reg16 r → Nat.iter k crc16_bit r = Nat.iter k crc_T r.
Proof.
intros Hr. induction k as [|k IH]; simpl; [done|].
rewrite IH. apply crc16_bit_T. by apply reg16_iter_T.
Qed.

End crc_linear.

(* ---------------------------------------------------------------- *)
(** ** The loop is long division *)

Section crc_division.
Import Long_division.

(** The register after one message bit, in the form the C loop computes. *)
Definition crc_dir (r : Z) (b : bool) : Z := crc_T (Z.lxor r (Z.shiftl (Z.b2z b) 15)).

Lemma shl1_testbit r n : 0 ≤ n → Z.testbit (Z.shiftl r 1) n = Z.testbit r (n - 1).
Proof. intros. by rewrite Z.shiftl_spec. Qed.

Lemma u16_testbit z n : 0 ≤ n →
Z.testbit (u16 z) n = bool_decide (n < 16) && Z.testbit z n.
Proof.
intros Hn. unfold u16. case_bool_decide.
- by rewrite Z.mod_pow2_bits_low.
- by rewrite Z.mod_pow2_bits_high by lia.
Qed.

Lemma b2z_testbit b n : 0 < n → Z.testbit (Z.b2z b) n = false.
Proof. intros. destruct b; simpl; [|apply Z.bits_0]. rewrite Z.bits_above_log2; simpl; lia. Qed.

Lemma push_bit_T r b : reg16 r → push_bit r b = Z.lxor (crc_T r) (Z.b2z b).
Proof.
intros Hr. unfold push_bit, crc_T.
assert (Z.testbit (Z.lor (Z.shiftl r 1) (Z.b2z b)) 16 = Z.testbit r 15) as ->.
{ rewrite Z.lor_spec, shl1_testbit, b2z_testbit, orb_false_r by lia. done. }
change poly with (Z.lxor (2 ^ 16) 0x1021).
apply Z.bits_inj'. intros n Hn.
assert (Hlo : n = 0 → Z.testbit (Z.shiftl r 1) n = false).
{ intros ->. rewrite shl1_testbit by lia. by apply Z.testbit_neg_r. }
assert (Hp : Z.testbit (2 ^ 16) n = bool_decide (n = 16)).
{ case_bool_decide as Hd; [rewrite Hd; by apply Z.pow2_bits_true|].
  apply Z.pow2_bits_false. lia. }
assert (Hh : 16 < n → Z.testbit (Z.shiftl r 1) n = false).
{ intros. rewrite shl1_testbit by lia. apply reg16_bits; [done|lia]. }
assert (H16 : n = 16 → Z.testbit (Z.shiftl r 1) n = Z.testbit r 15).
{ intros ->. by rewrite shl1_testbit by lia. }
assert (Hb : 0 < n → Z.testbit (Z.b2z b) n = false) by (apply b2z_testbit).
assert (Hc : 16 ≤ n → Z.testbit 0x1021 n = false).
{ intros. apply (reg16_bits 0x1021); [unfold reg16; lia|done]. }
destruct (Z.testbit r 15) eqn:E15;
  rewrite !Z.lxor_spec, ?Z.lor_spec, ?u16_testbit, ?Hp, ?Z.bits_0 by lia;
  repeat case_bool_decide;
  destruct (decide (n = 0)), (decide (n = 16)), (decide (16 < n)); try lia;
  rewrite ?Hlo, ?H16, ?Hh, ?Hb, ?Hc by lia; simpl;
  rewrite ?orb_false_r, ?xorb_false_r; try done;
  destruct (Z.testbit (Z.shiftl r 1) n), (Z.testbit (Z.b2z b) n),
    (Z.testbit 0x1021 n); done.
Qed.

Lemma reg16_b2z b : reg16 (Z.b2z b).
Proof. destruct b; unfold reg16; simpl; lia. Qed.

Lemma reg16_push r b : reg16 r → reg16 (push_bit r b).
Proof. intros. rewrite push_bit_T by done. apply reg16_lxor; [apply reg16_T|apply reg16_b2z]. Qed.

Lemma iter_T_comm k r : Nat.iter k crc_T (crc_T r) = crc_T (Nat.iter k crc_T r).
Proof. induction k as [|k IH]; [done|]. rewrite !Nat.iter_succ. by rewrite IH. Qed.

Lemma T16_b2z b : Nat.iter 16 crc_T (Z.b2z b) = crc_T (Z.shiftl (Z.b2z b) 15).
Proof. destruct b; vm_compute; reflexivity. Qed.

Lemma T16_push r b : reg16 r →
Nat.iter 16 crc_T (push_bit r b) = crc_dir (Nat.iter 16 crc_T r) b.
Proof.
intros Hr. rewrite push_bit_T, iter_T_lxor by done. unfold crc_dir.
rewrite crc_T_lxor, iter_T_comm, (T16_b2z b). done.
Qed.

Lemma push_dir bs r : reg16 r →
Nat.iter 16 crc_T (fold_left push_bit bs r) =
fold_left crc_dir bs (Nat.iter 16 crc_T r).
Proof.
apply (fold_left_sim reg16 (Nat.iter 16 crc_T)).
intros a x Ha. split; [by apply reg16_push|exact (T16_push a x Ha)].
Qed.

Lemma push_zeros k r : reg16 r →
fold_left push_bit (replicate k false) r = Nat.iter k crc_T r.
Proof.
revert r; induction k as [|k IH]; intros r Hr; [done|].
cbn [replicate fold_left].
rewrite IH, push_bit_T by first [by apply reg16_push|done].
rewrite Z.lxor_0_r, iter_T_comm. done.
Qed.

Lemma dir_linear bs r :
fold_left crc_dir bs r =
Z.lxor (Nat.iter (length bs) crc_T r) (fold_left crc_dir bs 0).
Proof.
revert r; induction bs as [|b bs IH]; intros r; cbn [fold_left length];
  [by rewrite Z.lxor_0_r|].
rewrite (IH (crc_dir r b)), (IH (crc_dir 0 b)). unfold crc_dir.
rewrite !crc_T_lxor, Nat.iter_succ, !iter_T_lxor, iter_T_comm.
change (crc_T 0) with 0.
assert (∀ k, Nat.iter k crc_T 0 = 0) as ->.
{ intros k. induction k as [|k IHk]; simpl; [done|]. by rewrite IHk. }
rewrite Z.lxor_0_l. by rewrite Z.lxor_assoc.
Qed.

Lemma dir_byte c :
fold_left crc_dir (byte_bits c) 0 = Nat.iter 8 crc_T (u16 (Z.shiftl (byte_val c) 8)).
Proof. by destruct c as [[] [] [] [] [] [] [] []]; vm_compute. Qed.

Lemma crc16_byte_dir r c : reg16 r → crc16_byte r c = fold_left crc_dir (byte_bits c) r.
Proof.
intros Hr. unfold crc16_byte.
rewrite iter_bit_T by (apply reg16_lxor; [done|apply reg16_u16]).
by rewrite iter_T_lxor, dir_linear, dir_byte.
Qed.

Lemma reg16_byte r c : reg16 r → reg16 (crc16_byte r c).
Proof.
intros Hr. unfold crc16_byte.
rewrite iter_bit_T by (apply reg16_lxor; [done|apply reg16_u16]). apply reg16_T.
Qed.

Lemma crc16_loop_dir s r : reg16 r → crc16_loop r s = fold_left crc_dir (bits s) r.
Proof.
revert r; induction s as [|c s IH]; intros r Hr; [done|].
cbn [crc16_loop bits]. rewrite fold_left_app, IH by by apply reg16_byte.
by rewrite crc16_byte_dir.
Qed.

Lemma reg16_loop s r : reg16 r → reg16 (crc16_loop r s).
Proof.
revert r; induction s as [|c s IH]; intros r Hr; cbn [crc16_loop]; [done|].
apply IH. by apply reg16_byte.
Qed.

Lemma reg16_0 : reg16 0.
Proof. unfold reg16; lia. Qed.

End crc_division.

Lemma slot_range key : 0 ≤ vfdw_val_slot key < 16384.
Proof.
  unfold vfdw_val_slot. change 0x3FFF with (Z.ones 14).
  rewrite Z.land_ones by lia. by apply Z.mod_pos_bound.
Qed.

Lemma hashtag_tagged p t s :
  occurs "{" p = false → occurs "}" t = false → t ≠ "" →
  vfdw_val_hashtag (p +:+ "{" +:+ t +:+ "}" +:+ s) = t.
Proof.
  intros Hp Ht Hne. unfold vfdw_val_hashtag.
  rewrite decide_False by (rewrite length_append; simpl_app; simpl; lia).
  simpl_app. rewrite memchr_app_absent by done.
  replace (drop_bytes _ _) with (t +:+ String "}" s).
  2:{ replace (p +:+ String "{" (t +:+ String "}" s))
        with ((p +:+ "{") +:+ (t +:+ String "}" s)) by by rewrite append_assoc.
      replace (S (String.length p)) with (String.length (p +:+ "{"))
        by (rewrite length_append; simpl; lia).
      by rewrite drop_bytes_append. }
  rewrite memchr_app_absent by done.
  destruct (String.length t) eqn:El; [by destruct t|].
  rewrite <- El. apply take_bytes_append.
Qed.

(** C40: the CRC the slot is computed from is the remainder of the message
    polynomial under division by x^16+x^12+x^5+1. *)
Theorem crc16_is_remainder (s : bytes) :
  vfdw_val_crc16 s = Long_division.remainder s.
Proof.
  unfold vfdw_val_crc16, Long_division.remainder.
  rewrite crc16_loop_dir, fold_left_app by apply reg16_0.
  rewrite push_zeros.
  - by rewrite push_dir by apply reg16_0.
  - generalize reg16_0. generalize 0. induction (Long_division.bits s) as [|b l IH];
      intros r Hr; simpl; [done|]. apply IH. by apply reg16_push.
Qed.

(** Keys that carry the same non-empty hash tag share a slot, whatever
    surrounds the tag, and every slot is one of the 16384. *)
Theorem slot_of_tagged_key (p t s : bytes) :
  occurs "{" p = false → occurs "}" t = false → t ≠ "" →
  vfdw_val_slot (p +:+ "{" +:+ t +:+ "}" +:+ s) = Z.land (vfdw_val_crc16 t) 0x3FFF ∧
  0 ≤ vfdw_val_slot (p +:+ "{" +:+ t +:+ "}" +:+ s) < 16384.
Proof.
  intros. split; [|apply slot_range].
  unfold vfdw_val_slot at 1. by rewrite hashtag_tagged.
Qed.

Lemma slot_of_tagged_key_witness :
  vfdw_val_slot "{tenant}:orders" = vfdw_val_slot "{tenant}:items".
Proof.
  transitivity (Z.land (vfdw_val_crc16 "tenant") 0x3FFF).
  - apply (slot_of_tagged_key "" "tenant" ":orders"); done.
  - symmetry. apply (slot_of_tagged_key "" "tenant" ":items"); done.
Defined.

Example crc16_check_value : vfdw_val_crc16 "123456789" = 0x31C3.
Proof. vm_compute. reflexivity. Qed.
