(* ===== verification/Opcode.v ===== *)
(** The vocabulary the ledger and the server-side program share
    (src/vfdw_opcode.h, src/vfdw_opcode.c), and the table types of
    src/vfdw_map.h.  The numbering is on the wire, so every enum comes with
    the integer C gives it. *)
From S2P Require Import Prelude.
Local Open Scope Z_scope.

Inductive VfdwTableType :=
  | VFDW_TABLE_STRING | VFDW_TABLE_HASH | VFDW_TABLE_LIST
  | VFDW_TABLE_SET | VFDW_TABLE_ZSET | VFDW_TABLE_VECTOR.

Inductive VfdwRequire :=
  | VFDW_REQ_ANY | VFDW_REQ_KEY_ABSENT | VFDW_REQ_KEY_PRESENT.

Inductive VfdwCheckOp :=
  | VFDW_CHK_KEY_ABSENT | VFDW_CHK_KEY_PRESENT | VFDW_CHK_TYPE_OK
  | VFDW_CHK_HFIELD_ABSENT | VFDW_CHK_HFIELD_PRESENT
  | VFDW_CHK_SMEMBER_ABSENT | VFDW_CHK_SMEMBER_PRESENT
  | VFDW_CHK_ZMEMBER_ABSENT | VFDW_CHK_ZMEMBER_PRESENT
  | VFDW_CHK_LVALUE_COUNT_GE | VFDW_CHK_KSET_ABSENT | VFDW_CHK_KSET_PRESENT.

Inductive VfdwActionOp :=
  | VFDW_ACT_SET | VFDW_ACT_DEL | VFDW_ACT_HSET | VFDW_ACT_HDEL
  | VFDW_ACT_SADD | VFDW_ACT_SREM | VFDW_ACT_ZADD | VFDW_ACT_ZREM
  | VFDW_ACT_RPUSH | VFDW_ACT_LREM1 | VFDW_ACT_RENAME
  | VFDW_ACT_KSET_ADD | VFDW_ACT_KSET_REM
  | VFDW_ACT_HPEXPIRE | VFDW_ACT_HPERSIST.

#[global] Instance VfdwTableType_eq_dec : EqDecision VfdwTableType.
Proof. solve_decision. Defined.
#[global] Instance VfdwRequire_eq_dec : EqDecision VfdwRequire.
Proof. solve_decision. Defined.
#[global] Instance VfdwCheckOp_eq_dec : EqDecision VfdwCheckOp.
Proof. solve_decision. Defined.
#[global] Instance VfdwActionOp_eq_dec : EqDecision VfdwActionOp.
Proof. solve_decision. Defined.

(** The integer values of the enums. *)
Definition tabletype_code (t : VfdwTableType) : Z :=
  match t with
  | VFDW_TABLE_STRING => 0 | VFDW_TABLE_HASH => 1 | VFDW_TABLE_LIST => 2
  | VFDW_TABLE_SET => 3 | VFDW_TABLE_ZSET => 4 | VFDW_TABLE_VECTOR => 5
  end.

Definition require_code (r : VfdwRequire) : Z :=
  match r with
  | VFDW_REQ_ANY => 0 | VFDW_REQ_KEY_ABSENT => 1 | VFDW_REQ_KEY_PRESENT => 2
  end.

Definition check_code (c : VfdwCheckOp) : Z :=
  match c with
  | VFDW_CHK_KEY_ABSENT => 0 | VFDW_CHK_KEY_PRESENT => 1 | VFDW_CHK_TYPE_OK => 2
  | VFDW_CHK_HFIELD_ABSENT => 3 | VFDW_CHK_HFIELD_PRESENT => 4
  | VFDW_CHK_SMEMBER_ABSENT => 5 | VFDW_CHK_SMEMBER_PRESENT => 6
  | VFDW_CHK_ZMEMBER_ABSENT => 7 | VFDW_CHK_ZMEMBER_PRESENT => 8
  | VFDW_CHK_LVALUE_COUNT_GE => 9 | VFDW_CHK_KSET_ABSENT => 10
  | VFDW_CHK_KSET_PRESENT => 11
  end.

Definition action_code (a : VfdwActionOp) : Z :=
  match a with
  | VFDW_ACT_SET => 0 | VFDW_ACT_DEL => 1 | VFDW_ACT_HSET => 2
  | VFDW_ACT_HDEL => 3 | VFDW_ACT_SADD => 4 | VFDW_ACT_SREM => 5
  | VFDW_ACT_ZADD => 6 | VFDW_ACT_ZREM => 7 | VFDW_ACT_RPUSH => 8
  | VFDW_ACT_LREM1 => 9 | VFDW_ACT_RENAME => 10 | VFDW_ACT_KSET_ADD => 11
  | VFDW_ACT_KSET_REM => 12 | VFDW_ACT_HPEXPIRE => 13 | VFDW_ACT_HPERSIST => 14
  end.

Definition vfdw_check_names : list string :=
  ["KEY_ABSENT"; "KEY_PRESENT"; "TYPE_OK"; "HFIELD_ABSENT"; "HFIELD_PRESENT";
   "SMEMBER_ABSENT"; "SMEMBER_PRESENT"; "ZMEMBER_ABSENT"; "ZMEMBER_PRESENT";
   "LVALUE_COUNT_GE"; "KSET_ABSENT"; "KSET_PRESENT"].

Definition vfdw_action_names : list string :=
  ["SET"; "DEL"; "HSET"; "HDEL"; "SADD"; "SREM"; "ZADD"; "ZREM"; "RPUSH";
   "LREM1"; "RENAME"; "KSET_ADD"; "KSET_REM"; "HPEXPIRE"; "HPERSIST"].

Definition vfdw_check_op_count : Z := Z.of_nat (length vfdw_check_names).

Definition vfdw_action_op_count : Z := Z.of_nat (length vfdw_action_names).

Definition vfdw_ledger_check_name (op : Z) : result string :=
  if bool_decide (op < 0) || bool_decide (vfdw_check_op_count ≤ op)
  then Raise (elog_error "valkey_fdw: check opcode out of range")
  else match vfdw_check_names !! Z.to_nat op with
       | Some n => Ok n
       | None => Raise (elog_error "valkey_fdw: check opcode out of range")
       end.

Definition vfdw_ledger_action_name (op : Z) : result string :=
  if bool_decide (op < 0) || bool_decide (vfdw_action_op_count ≤ op)
  then Raise (elog_error "valkey_fdw: action opcode out of range")
  else match vfdw_action_names !! Z.to_nat op with
       | Some n => Ok n
       | None => Raise (elog_error "valkey_fdw: action opcode out of range")
       end.

Definition vfdw_ledger_require_name (r : VfdwRequire) : string :=
  match r with
  | VFDW_REQ_ANY => "ANY"
  | VFDW_REQ_KEY_ABSENT => "KEY_ABSENT"
  | VFDW_REQ_KEY_PRESENT => "KEY_PRESENT"
  end.

Lemma check_code_inj c1 c2 : check_code c1 = check_code c2 → c1 = c2.
Proof. by destruct c1, c2. Qed.

Lemma action_code_inj a1 a2 : action_code a1 = action_code a2 → a1 = a2.
Proof. by destruct a1, a2. Qed.

Lemma check_code_range c : 0 ≤ check_code c < vfdw_check_op_count.
Proof. destruct c; vm_compute; split; congruence. Qed.

Lemma action_code_range a : 0 ≤ action_code a < vfdw_action_op_count.
Proof. destruct a; vm_compute; split; congruence. Qed.
