(* ===== verification/Option.v ===== *)
(** The option table and its readers (src/vfdw_option.c), and the validator that
    DDL runs over it (valkey_fdw_validator, src/valkey_fdw.c).

    Option text is a catalog string, so it holds no NUL and strcmp is equality.
    parse_bool is PostgreSQL's and a parameter; strtol is modelled. *)
From S2P Require Import Prelude.
Local Open Scope Z_scope.

Inductive VfdwOptKind := VFDW_OPT_STRING | VFDW_OPT_INT | VFDW_OPT_BOOL | VFDW_OPT_ENUM | VFDW_OPT_PATH.
Inductive VfdwOptPriv :=
  | VFDW_OPTPRIV_NONE | VFDW_OPTPRIV_SUPERUSER | VFDW_OPTPRIV_SUPERUSER_TO_DISABLE.

(** The catalog an option may appear on. *)
Inductive OptContext :=
  | ForeignServerRelationId | UserMappingRelationId | ForeignTableRelationId | AttributeRelationId.

#[global] Instance VfdwOptKind_eq_dec : EqDecision VfdwOptKind.
Proof. solve_decision. Defined.
#[global] Instance VfdwOptPriv_eq_dec : EqDecision VfdwOptPriv.
Proof. solve_decision. Defined.
#[global] Instance OptContext_eq_dec : EqDecision OptContext.
Proof. solve_decision. Defined.

Record VfdwOptionDef := OptionDef {
  od_name : bytes;
  od_context : OptContext;
  od_kind : VfdwOptKind;
  od_minval : Z;
  od_maxval : Z;
  od_values : list bytes;
  od_defval : option bytes;
  od_sensitive : bool;
  od_priv : VfdwOptPriv;
  od_summary : bytes;
}.

Definition vfdw_tabletype_values : list bytes :=
  ["string"; "hash"; "list"; "set"; "zset"; "vector"].
Definition vfdw_tlsverify_values : list bytes := ["full"; "ca"; "none"].
Definition vfdw_indextype_values : list bytes := ["tag"; "numeric"; "vector"].

Definition vfdw_options : list VfdwOptionDef :=
  [
   OptionDef "host" ForeignServerRelationId VFDW_OPT_STRING 0 0 []
     (Some "127.0.0.1") false VFDW_OPTPRIV_NONE
     "Valkey host name or address";
   OptionDef "port" ForeignServerRelationId VFDW_OPT_INT 1 65535 []
     (Some "6379") false VFDW_OPTPRIV_NONE
     "Valkey TCP port";
   OptionDef "unix_socket_path" ForeignServerRelationId VFDW_OPT_STRING 0 0 []
     None false VFDW_OPTPRIV_NONE
     "Unix socket path; overrides host and port";
   OptionDef "cluster" ForeignServerRelationId VFDW_OPT_BOOL 0 0 []
     (Some "false") false VFDW_OPTPRIV_NONE
     "Treat the server as a Valkey Cluster";
   OptionDef "prefer_replica" ForeignServerRelationId VFDW_OPT_BOOL 0 0 []
     (Some "false") false VFDW_OPTPRIV_NONE
     "Treat the server as a replica: writes through it are refused";
   OptionDef "tls" ForeignServerRelationId VFDW_OPT_BOOL 0 0 []
     (Some "false") false VFDW_OPTPRIV_NONE
     "Use TLS for the connection";
   OptionDef "tls_ca_file" ForeignServerRelationId VFDW_OPT_PATH 0 0 []
     None false VFDW_OPTPRIV_SUPERUSER
     "Path to the CA certificate bundle";
   OptionDef "tls_cert_file" ForeignServerRelationId VFDW_OPT_PATH 0 0 []
     None false VFDW_OPTPRIV_SUPERUSER
     "Path to the client certificate";
   OptionDef "tls_key_file" ForeignServerRelationId VFDW_OPT_PATH 0 0 []
     None true VFDW_OPTPRIV_SUPERUSER
     "Path to the client private key";
   OptionDef "tls_sni" ForeignServerRelationId VFDW_OPT_STRING 0 0 []
     None false VFDW_OPTPRIV_NONE
     "Server name sent in the TLS SNI extension";
   OptionDef "tls_verify" ForeignServerRelationId VFDW_OPT_ENUM 0 0 vfdw_tlsverify_values
     (Some "full") false VFDW_OPTPRIV_NONE
     "Certificate verification strictness";
   OptionDef "connect_timeout_ms" ForeignServerRelationId VFDW_OPT_INT 1 3600000 []
     (Some "5000") false VFDW_OPTPRIV_NONE
     "Connection establishment timeout";
   OptionDef "command_timeout_ms" ForeignServerRelationId VFDW_OPT_INT 1 3600000 []
     (Some "30000") false VFDW_OPTPRIV_NONE
     "Per-command response timeout";
   OptionDef "pipeline_batch" ForeignServerRelationId VFDW_OPT_INT 1 100000 []
     (Some "256") false VFDW_OPTPRIV_NONE
     "Maximum commands in flight when fetching values";
   OptionDef "scan_count" ForeignServerRelationId VFDW_OPT_INT 1 1000000 []
     (Some "1000") false VFDW_OPTPRIV_NONE
     "COUNT hint passed to SCAN and SSCAN";
   OptionDef "max_reply_elements" ForeignServerRelationId VFDW_OPT_INT 1 1000000000 []
     (Some "8388608") false VFDW_OPTPRIV_NONE
     "Most elements a multi-bulk reply may declare";
   OptionDef "reader_buffer_bytes" ForeignServerRelationId VFDW_OPT_INT 1024 1073741824 []
     (Some "65536") false VFDW_OPTPRIV_NONE
     "Read buffer retained between replies";
   OptionDef "write_max_ops" ForeignServerRelationId VFDW_OPT_INT 1 1000000 []
     (Some "10000") false VFDW_OPTPRIV_NONE
     "Most write operations one transaction may defer";
   OptionDef "write_max_bytes" ForeignServerRelationId VFDW_OPT_INT 65536 1073741824 []
     (Some "67108864") false VFDW_OPTPRIV_NONE
     "Most bytes of deferred write data one transaction may hold";
   OptionDef "write_retry_count" ForeignServerRelationId VFDW_OPT_INT 0 10 []
     (Some "3") false VFDW_OPTPRIV_NONE
     "Retries for a write the server was too busy to run";
   OptionDef "username" UserMappingRelationId VFDW_OPT_STRING 0 0 []
     None false VFDW_OPTPRIV_NONE
     "ACL user name for AUTH";
   OptionDef "password" UserMappingRelationId VFDW_OPT_STRING 0 0 []
     None true VFDW_OPTPRIV_NONE
     "Password for AUTH";
   OptionDef "password_required" UserMappingRelationId VFDW_OPT_BOOL 0 0 []
     (Some "true") false VFDW_OPTPRIV_SUPERUSER_TO_DISABLE
     "Require a password for non-superuser mappings";
   OptionDef "database" ForeignTableRelationId VFDW_OPT_INT 0 15 []
     (Some "0") false VFDW_OPTPRIV_NONE
     "Valkey logical database number; not valid in cluster mode";
   OptionDef "tabletype" ForeignTableRelationId VFDW_OPT_ENUM 0 0 vfdw_tabletype_values
     (Some "string") false VFDW_OPTPRIV_NONE
     "Valkey type the rows of this table are drawn from";
   OptionDef "keyprefix" ForeignTableRelationId VFDW_OPT_STRING 0 0 []
     None false VFDW_OPTPRIV_NONE
     "Literal key prefix scoping the table";
   OptionDef "keyset" ForeignTableRelationId VFDW_OPT_STRING 0 0 []
     None false VFDW_OPTPRIV_NONE
     "Name of a set holding the table's key names";
   OptionDef "singleton_key" ForeignTableRelationId VFDW_OPT_STRING 0 0 []
     None false VFDW_OPTPRIV_NONE
     "Draw all rows from this single key";
   OptionDef "search_index" ForeignTableRelationId VFDW_OPT_STRING 0 0 []
     None false VFDW_OPTPRIV_NONE
     "valkey-search index backing this table";
   OptionDef "legacy_value" ForeignTableRelationId VFDW_OPT_BOOL 0 0 []
     (Some "false") false VFDW_OPTPRIV_NONE
     "Expose the legacy (key, value) shape";
   OptionDef "readonly" ForeignTableRelationId VFDW_OPT_BOOL 0 0 []
     (Some "false") false VFDW_OPTPRIV_NONE
     "Reject all write operations on this table";
   OptionDef "key" AttributeRelationId VFDW_OPT_BOOL 0 0 []
     (Some "false") false VFDW_OPTPRIV_NONE
     "This column holds the Valkey key name";
   OptionDef "field" AttributeRelationId VFDW_OPT_STRING 0 0 []
     None false VFDW_OPTPRIV_NONE
     "Hash field name";
   OptionDef "member" AttributeRelationId VFDW_OPT_BOOL 0 0 []
     (Some "false") false VFDW_OPTPRIV_NONE
     "This column holds the list, set or zset member";
   OptionDef "score" AttributeRelationId VFDW_OPT_BOOL 0 0 []
     (Some "false") false VFDW_OPTPRIV_NONE
     "This column holds the zset score";
   OptionDef "ttl" AttributeRelationId VFDW_OPT_BOOL 0 0 []
     (Some "false") false VFDW_OPTPRIV_NONE
     "This column holds the paired field's time to live";
   OptionDef "position" AttributeRelationId VFDW_OPT_BOOL 0 0 []
     (Some "false") false VFDW_OPTPRIV_NONE
     "This column holds the member's index within its list";
   OptionDef "distance" AttributeRelationId VFDW_OPT_BOOL 0 0 []
     (Some "false") false VFDW_OPTPRIV_NONE
     "This column receives the vector search score";
   OptionDef "index_type" AttributeRelationId VFDW_OPT_ENUM 0 0 vfdw_indextype_values
     None false VFDW_OPTPRIV_NONE
     "How the field is indexed in the search index"
  ].

Definition vfdw_find_option (name : bytes) (context : OptContext) : option VfdwOptionDef :=
  list_find (λ d, od_context d = context ∧ od_name d = name) vfdw_options ≫= λ p, Some p.2.

(** The error every rejected value raises; the detail and the hint, which
    redacts a sensitive value, are not part of [pg_error]. *)
Definition vfdw_reject {A} (d : VfdwOptionDef) : result A :=
  Raise (PgError ERRCODE_INVALID_PARAMETER_VALUE
           ("invalid value for option " +:+ od_name d)).

(* ---------------------------------------------------------------- *)
(** ** strtol *)

(** isspace in the C locale. *)
Definition isspace (c : ascii) : bool :=
  let v := byte_val c in bool_decide (9 ≤ v ≤ 13) || bool_decide (v = 32).

Definition is_digit (c : ascii) : bool := bool_decide (48 ≤ byte_val c ≤ 57).

Fixpoint skip_space (s : bytes) : bytes :=
  match s with
  | String c r => if isspace c then skip_space r else s
  | EmptyString => EmptyString
  end.

(** The value of a run of digits from [acc] on, and what follows it. *)
Fixpoint read_digits (acc : Z) (s : bytes) : Z * bytes :=
  match s with
  | String c r => if is_digit c then read_digits (10 * acc + (byte_val c - 48)) r else (acc, s)
  | EmptyString => (acc, EmptyString)
  end.

Definition sign_of (s : bytes) : Z * bytes :=
  match s with
  | String c r =>
      if bool_decide (byte_val c = 45) then (-1, r)
      else if bool_decide (byte_val c = 43) then (1, r) else (1, s)
  | EmptyString => (1, s)
  end.

Definition starts_digit (s : bytes) : bool :=
  match s with String c _ => is_digit c | EmptyString => false end.

(** strtol(value, &endptr, 10): the number clamped to a long, whether errno is
    ERANGE, and *endptr, which is the whole string when there is no digit. *)
Definition strtol (s : bytes) : Z * bool * bytes :=
  let '(sg, r) := sign_of (skip_space s) in
  if starts_digit r then
    let '(v, rest) := read_digits 0 r in
    let n := sg * v in
    if bool_decide (n < INT64_MIN) then (INT64_MIN, true, rest)
    else if bool_decide (INT64_MAX < n) then (INT64_MAX, true, rest)
    else (n, false, rest)
  else (0, false, s).

(* ---------------------------------------------------------------- *)
(** ** Parsers shared by the validator and the readers *)

Definition vfdw_parse_int (d : VfdwOptionDef) (value : bytes) : result Z :=
  if bool_decide (value = "") then vfdw_reject d else
  let '(n, erange, rest) := strtol value in
  if negb (bool_decide (skip_space rest = "")) then vfdw_reject d
  else if erange || bool_decide (n < od_minval d) || bool_decide (od_maxval d < n)
  then vfdw_reject d
  else Ok n.

Fixpoint index_of (v : bytes) (l : list bytes) : option Z :=
  match l with
  | [] => None
  | x :: r => if bool_decide (x = v) then Some 0 else Z.succ <$> index_of v r
  end.

Definition vfdw_parse_enum (d : VfdwOptionDef) (value : bytes) : result Z :=
  match index_of value (od_values d) with
  | Some i => Ok i
  | None => vfdw_reject d
  end.

(** is_absolute_path on the platforms the wrapper builds on. *)
Definition is_absolute_path (v : bytes) : bool := starts_with "/" v.

Definition vfdw_parse_path (d : VfdwOptionDef) (value : bytes) : result bytes :=
  if bool_decide (value = "") then vfdw_reject d
  else if negb (is_absolute_path value) then vfdw_reject d
  else Ok value.

(* ---------------------------------------------------------------- *)
(** ** Resolved option sets *)

Record VfdwServerOptions := ServerOptions {
  so_host : bytes;
  so_port : Z;
  so_unix_socket_path : option bytes;
  so_cluster : bool;
  so_prefer_replica : bool;
  so_tls : bool;
  so_tls_ca_file : option bytes;
  so_tls_cert_file : option bytes;
  so_tls_key_file : option bytes;
  so_tls_sni : option bytes;
  so_tls_verify : Z;
  so_connect_timeout_ms : Z;
  so_command_timeout_ms : Z;
  so_pipeline_batch : Z;
  so_scan_count : Z;
  so_max_reply_elements : Z;
  so_reader_buffer_bytes : Z;
  so_write_max_ops : Z;
  so_write_max_bytes : Z;
  so_write_retry_count : Z;
}.

Record VfdwUserOptions := UserOptions {
  uo_username : option bytes;
  uo_password : option bytes;
  uo_password_required : bool;
}.

(** A DefElem: the option's name and its text. *)
Definition DefElem : Type := bytes * bytes.

(** Assigning one field of the resolved set, by the name of its option. *)
Inductive ServerField :=
  | F_port | F_connect_timeout_ms | F_command_timeout_ms | F_pipeline_batch | F_scan_count
  | F_max_reply_elements | F_reader_buffer_bytes | F_write_max_ops | F_write_max_bytes
  | F_write_retry_count | F_tls_verify.

Definition set_int (f : ServerField) (n : Z) (o : VfdwServerOptions) : VfdwServerOptions :=
  let g f' old := match f, f' with
    | F_port, F_port | F_connect_timeout_ms, F_connect_timeout_ms
    | F_command_timeout_ms, F_command_timeout_ms | F_pipeline_batch, F_pipeline_batch
    | F_scan_count, F_scan_count | F_max_reply_elements, F_max_reply_elements
    | F_reader_buffer_bytes, F_reader_buffer_bytes | F_write_max_ops, F_write_max_ops
    | F_write_max_bytes, F_write_max_bytes | F_write_retry_count, F_write_retry_count
    | F_tls_verify, F_tls_verify => n
    | _, _ => old end in
  ServerOptions (so_host o) (g F_port (so_port o)) (so_unix_socket_path o) (so_cluster o)
    (so_prefer_replica o) (so_tls o) (so_tls_ca_file o) (so_tls_cert_file o) (so_tls_key_file o)
    (so_tls_sni o) (g F_tls_verify (so_tls_verify o))
    (g F_connect_timeout_ms (so_connect_timeout_ms o))
    (g F_command_timeout_ms (so_command_timeout_ms o))
    (g F_pipeline_batch (so_pipeline_batch o)) (g F_scan_count (so_scan_count o))
    (g F_max_reply_elements (so_max_reply_elements o))
    (g F_reader_buffer_bytes (so_reader_buffer_bytes o))
    (g F_write_max_ops (so_write_max_ops o)) (g F_write_max_bytes (so_write_max_bytes o))
    (g F_write_retry_count (so_write_retry_count o)).

(** The fields that are not integers, assigned together. *)
Definition set_text (host : bytes) (unix : option bytes) (cluster replica tls : bool)
    (ca cert key sni : option bytes) (o : VfdwServerOptions) : VfdwServerOptions :=
  ServerOptions host (so_port o) unix cluster replica tls ca cert key sni (so_tls_verify o)
    (so_connect_timeout_ms o) (so_command_timeout_ms o) (so_pipeline_batch o) (so_scan_count o)
    (so_max_reply_elements o) (so_reader_buffer_bytes o) (so_write_max_ops o)
    (so_write_max_bytes o) (so_write_retry_count o).

(** The integer field an option sets. *)
Definition int_field (name : bytes) : option ServerField :=
  if bool_decide (name = "port") then Some F_port
  else if bool_decide (name = "connect_timeout_ms") then Some F_connect_timeout_ms
  else if bool_decide (name = "command_timeout_ms") then Some F_command_timeout_ms
  else if bool_decide (name = "pipeline_batch") then Some F_pipeline_batch
  else if bool_decide (name = "scan_count") then Some F_scan_count
  else if bool_decide (name = "max_reply_elements") then Some F_max_reply_elements
  else if bool_decide (name = "reader_buffer_bytes") then Some F_reader_buffer_bytes
  else if bool_decide (name = "write_max_ops") then Some F_write_max_ops
  else if bool_decide (name = "write_retry_count") then Some F_write_retry_count
  else if bool_decide (name = "write_max_bytes") then Some F_write_max_bytes
  else None.

Section options.
(** PostgreSQL's parse_bool and defGetBoolean, and whether the current user is
    a superuser. *)
Context (parse_bool : bytes → option bool) (defGetBoolean : bytes → result bool)
  (superuser : bool).

Definition vfdw_parse_bool (d : VfdwOptionDef) (value : bytes) : result bool :=
  match parse_bool value with Some b => Ok b | None => vfdw_reject d end.

Definition vfdw_check_option_priv (d : VfdwOptionDef) (value : bytes) : result unit :=
  match od_priv d with
  | VFDW_OPTPRIV_NONE => Ok ()
  | VFDW_OPTPRIV_SUPERUSER =>
      if superuser then Ok ()
      else Raise (PgError ERRCODE_INSUFFICIENT_PRIVILEGE "permission denied to set option")
  | VFDW_OPTPRIV_SUPERUSER_TO_DISABLE =>
      b ← vfdw_parse_bool d value;
      if negb (negb b) || superuser then Ok ()
      else Raise (PgError ERRCODE_INSUFFICIENT_PRIVILEGE "permission denied to turn off option")
  end.

Definition vfdw_validate_option (d : VfdwOptionDef) (value : bytes) : result unit :=
  _ ← match od_kind d with
      | VFDW_OPT_STRING => Ok ()
      | VFDW_OPT_INT => n ← vfdw_parse_int d value; Ok ()
      | VFDW_OPT_BOOL => b ← vfdw_parse_bool d value; Ok ()
      | VFDW_OPT_ENUM => i ← vfdw_parse_enum d value; Ok ()
      | VFDW_OPT_PATH => v ← vfdw_parse_path d value; Ok ()
      end;
  vfdw_check_option_priv d value.

(** A default read from the table; the assertions say it is there. *)
Definition vfdw_default (name : bytes) (context : OptContext) : option bytes :=
  vfdw_find_option name context ≫= od_defval.

Definition vfdw_default_int (name : bytes) : result Z :=
  match vfdw_find_option name ForeignServerRelationId with
  | None => Raise (elog_error "no such option")
  | Some d => match od_defval d with
              | None => Raise (elog_error "no default")
              | Some v => vfdw_parse_int d v
              end
  end.

Definition vfdw_server_defaults : result VfdwServerOptions :=
  let host := default "" (vfdw_default "host" ForeignServerRelationId) in
  port ← vfdw_default_int "port";
  connect ← vfdw_default_int "connect_timeout_ms";
  command ← vfdw_default_int "command_timeout_ms";
  batch ← vfdw_default_int "pipeline_batch";
  count ← vfdw_default_int "scan_count";
  elements ← vfdw_default_int "max_reply_elements";
  buffer ← vfdw_default_int "reader_buffer_bytes";
  ops ← vfdw_default_int "write_max_ops";
  retry ← vfdw_default_int "write_retry_count";
  bytes ← vfdw_default_int "write_max_bytes";
  Ok (ServerOptions host port None false false false None None None None 0 connect command
        batch count elements buffer ops bytes retry).

Definition vfdw_apply_server_option (d : VfdwOptionDef) (value : bytes) (o : VfdwServerOptions)
    : result VfdwServerOptions :=
  let name := od_name d in
  let text host unix cluster replica tls ca cert key sni :=
    set_text host unix cluster replica tls ca cert key sni o in
  let h := so_host o in let u := so_unix_socket_path o in let c := so_cluster o in
  let r := so_prefer_replica o in let t := so_tls o in let ca := so_tls_ca_file o in
  let ce := so_tls_cert_file o in let k := so_tls_key_file o in let s := so_tls_sni o in
  if bool_decide (name = "host") then Ok (text value u c r t ca ce k s)
  else if bool_decide (name = "unix_socket_path") then Ok (text h (Some value) c r t ca ce k s)
  else if bool_decide (name = "cluster") then
    b ← vfdw_parse_bool d value; Ok (text h u b r t ca ce k s)
  else if bool_decide (name = "prefer_replica") then
    b ← vfdw_parse_bool d value; Ok (text h u c b t ca ce k s)
  else if bool_decide (name = "tls") then
    b ← vfdw_parse_bool d value; Ok (text h u c r b ca ce k s)
  else if bool_decide (name = "tls_ca_file") then
    p ← vfdw_parse_path d value; Ok (text h u c r t (Some p) ce k s)
  else if bool_decide (name = "tls_cert_file") then
    p ← vfdw_parse_path d value; Ok (text h u c r t ca (Some p) k s)
  else if bool_decide (name = "tls_key_file") then
    p ← vfdw_parse_path d value; Ok (text h u c r t ca ce (Some p) s)
  else if bool_decide (name = "tls_sni") then Ok (text h u c r t ca ce k (Some value))
  else if bool_decide (name = "tls_verify") then
    i ← vfdw_parse_enum d value; Ok (set_int F_tls_verify i o)
  else match int_field name with
       | Some f => n ← vfdw_parse_int d value; Ok (set_int f n o)
       | None => Ok o
       end.

Fixpoint apply_server_options (options : list DefElem) (o : VfdwServerOptions)
    : result VfdwServerOptions :=
  match options with
  | [] => Ok o
  | (name, value) :: rest =>
      o ← match vfdw_find_option name ForeignServerRelationId with
          | None => Ok o
          | Some d => vfdw_apply_server_option d value o
          end;
      apply_server_options rest o
  end.

Definition vfdw_read_server_options (options : list DefElem) : result VfdwServerOptions :=
  o ← vfdw_server_defaults; apply_server_options options o.

Definition apply_user_option (d : VfdwOptionDef) (value : bytes) (u : VfdwUserOptions)
    : result VfdwUserOptions :=
  if bool_decide (od_name d = "username") then
    Ok (UserOptions (Some value) (uo_password u) (uo_password_required u))
  else if bool_decide (od_name d = "password") then
    Ok (UserOptions (uo_username u) (Some value) (uo_password_required u))
  else if bool_decide (od_name d = "password_required") then
    b ← vfdw_parse_bool d value; Ok (UserOptions (uo_username u) (uo_password u) b)
  else Ok u.

Fixpoint apply_user_options (options : list DefElem) (u : VfdwUserOptions) : result VfdwUserOptions :=
  match options with
  | [] => Ok u
  | (name, value) :: rest =>
      u ← match vfdw_find_option name UserMappingRelationId with
          | None => Ok u
          | Some d => apply_user_option d value u
          end;
      apply_user_options rest u
  end.

Definition vfdw_read_user_options (options : list DefElem) : result VfdwUserOptions :=
  apply_user_options options (UserOptions None None true).

(* ---------------------------------------------------------------- *)
(** ** The validator *)

Definition vfdw_check_key_options (options : list DefElem) : result unit :=
  let named := filter (λ e : DefElem, e.1 ∈ ["singleton_key"; "keyprefix"; "keyset"]) options in
  if bool_decide (1 < length named)%nat
  then Raise (PgError ERRCODE_INVALID_PARAMETER_VALUE
                "a table may name only one key-discovery option")
  else Ok ().

(** What the walk over the options finds: the last tabletype, whether
    legacy_value is on, whether there is a search_index. *)
Fixpoint shape_options (options : list DefElem) (tabletype : option bytes) (legacy indexed : bool)
    : result (option bytes * bool * bool) :=
  match options with
  | [] => Ok (tabletype, legacy, indexed)
  | (name, value) :: rest =>
      if bool_decide (name = "tabletype") then shape_options rest (Some value) legacy indexed
      else if bool_decide (name = "legacy_value") then
        b ← defGetBoolean value; shape_options rest tabletype b indexed
      else if bool_decide (name = "search_index") then shape_options rest tabletype legacy true
      else shape_options rest tabletype legacy indexed
  end.

Definition vfdw_check_shape_options (options : list DefElem) : result unit :=
  '(tabletype, legacy, indexed) ← shape_options options None false false;
  if bool_decide (tabletype = Some "vector") && negb indexed then
    Raise (PgError ERRCODE_INVALID_PARAMETER_VALUE
             "tabletype vector requires the search_index option")
  else if legacy && bool_decide (tabletype = Some "string") then
    Raise (PgError ERRCODE_INVALID_PARAMETER_VALUE
             "legacy_value cannot be combined with tabletype string")
  else Ok ().

Fixpoint validate_each (context : OptContext) (options : list DefElem) (seen : list bytes)
    : result unit :=
  match options with
  | [] => Ok ()
  | (name, value) :: rest =>
      match vfdw_find_option name context with
      | None => Raise (PgError ERRCODE_FDW_INVALID_OPTION_NAME "invalid option")
      | Some d =>
          if bool_decide (name ∈ seen)
          then Raise (PgError ERRCODE_SYNTAX_ERROR "option specified more than once")
          else
            _ ← vfdw_validate_option d value;
            validate_each context rest (seen ++ [name])
      end
  end.

Definition valkey_fdw_validator (options : list DefElem) (context : OptContext) : result unit :=
  _ ← validate_each context options [];
  if bool_decide (context = ForeignTableRelationId) then
    _ ← vfdw_check_key_options options;
    vfdw_check_shape_options options
  else Ok ().
End options.
