(* ===== verification/OptionFacts.v ===== *)
(** What DDL accepts the readers read: every value the validator lets into the
    catalog is parsed again at run time without an error, and every integer the
    run time uses is inside the bounds of the option table (src/vfdw_option.c). *)
From S2P Require Import Prelude Option.
Local Open Scope Z_scope.

Lemma parse_int_bounds d v n : vfdw_parse_int d v = Ok n → od_minval d ≤ n ≤ od_maxval d.
Proof.
  unfold vfdw_parse_int. case_bool_decide; [done|].
  destruct (strtol v) as [[m er] rest]. case_bool_decide; [|done]. simpl.
  destruct er; [done|]. simpl. repeat case_bool_decide; [done..|]. intros [= ->]. lia.
Qed.

Lemma index_of_bounds v l i : index_of v l = Some i → 0 ≤ i < Z.of_nat (length l).
Proof.
  revert i; induction l as [|x l IH]; intros i; simpl; [done|]. case_bool_decide.
  - intros [= <-]. lia.
  - destruct (index_of v l) as [j|]; simpl; [|done]. intros [= <-]. specialize (IH j eq_refl). lia.
Qed.

Lemma find_option_in name ctx d :
  vfdw_find_option name ctx = Some d → d ∈ vfdw_options ∧ od_context d = ctx ∧ od_name d = name.
Proof.
  unfold vfdw_find_option.
  destruct (list_find _ vfdw_options) as [[i d']|] eqn:E; simpl; [|done]. intros [= <-].
  apply list_find_Some in E as (Hl & [Hc Hn] & _). split_and!; [|done|done].
  by eapply list_elem_of_lookup_2.
Qed.

(** The bounds the option table declares. *)
Record in_bounds (o : VfdwServerOptions) : Prop := {
  ib_port : 1 ≤ so_port o ≤ 65535;
  ib_connect : 1 ≤ so_connect_timeout_ms o ≤ 3600000;
  ib_command : 1 ≤ so_command_timeout_ms o ≤ 3600000;
  ib_batch : 1 ≤ so_pipeline_batch o ≤ 100000;
  ib_count : 1 ≤ so_scan_count o ≤ 1000000;
  ib_elements : 1 ≤ so_max_reply_elements o ≤ 1000000000;
  ib_buffer : 1024 ≤ so_reader_buffer_bytes o ≤ 1073741824;
  ib_ops : 1 ≤ so_write_max_ops o ≤ 1000000;
  ib_bytes : 65536 ≤ so_write_max_bytes o ≤ 1073741824;
  ib_retry : 0 ≤ so_write_retry_count o ≤ 10;
  ib_verify : 0 ≤ so_tls_verify o ≤ 2;
}.

Definition default_options : VfdwServerOptions :=
  ServerOptions "127.0.0.1" 6379 None false false false None None None None 0 5000 30000
    256 1000 8388608 65536 10000 67108864 3.

Lemma server_defaults_eq : vfdw_server_defaults = Ok default_options.
Proof. vm_compute. reflexivity. Qed.

Lemma defaults_in_bounds : in_bounds default_options.
Proof. split; simpl; lia. Qed.

Lemma read_server_eq parse_bool opts :
  vfdw_read_server_options parse_bool opts = apply_server_options parse_bool opts default_options.
Proof.
  exact (f_equal (λ r, r ≫= λ o, apply_server_options parse_bool opts o) server_defaults_eq).
Qed.

(** Compute the comparisons of closed strings. *)
Ltac closed_names :=
  repeat match goal with
  | |- context [bool_decide (?a = ?b)] =>
      let r := eval vm_compute in (bool_decide (a = b)) in
      lazymatch r with true => idtac | false => idtac end;
      change (bool_decide (a = b)) with r; cbv iota
  end.

(** Case analysis on the entries of the option table. *)
Ltac each_option H :=
  unfold vfdw_options in H;
  repeat first [apply elem_of_cons in H as [->|H] | by apply not_elem_of_nil in H].

Section facts.
Context (parse_bool : bytes → option bool) (defGetBoolean : bytes → result bool) (superuser : bool).
Abbreviation validate := (vfdw_validate_option parse_bool superuser).

Lemma validate_int d v :
  validate d v = Ok () → od_kind d = VFDW_OPT_INT → ∃ n, vfdw_parse_int d v = Ok n.
Proof.
  unfold vfdw_validate_option. intros Hv Hk. rewrite Hk in Hv. revert Hv. destruct (vfdw_parse_int d v) as [n|]; [eauto|done].
Qed.

Lemma validate_bool d v :
  validate d v = Ok () → od_kind d = VFDW_OPT_BOOL → ∃ b, vfdw_parse_bool parse_bool d v = Ok b.
Proof.
  unfold vfdw_validate_option. intros Hv Hk. rewrite Hk in Hv. revert Hv.
  destruct (vfdw_parse_bool parse_bool d v) as [b|]; [eauto|done].
Qed.

Lemma validate_enum d v :
  validate d v = Ok () → od_kind d = VFDW_OPT_ENUM → ∃ i, vfdw_parse_enum d v = Ok i ∧ 0 ≤ i < Z.of_nat (length (od_values d)).
Proof.
  unfold vfdw_validate_option, vfdw_parse_enum. intros Hv Hk. rewrite Hk in Hv. revert Hv.
  destruct (index_of v (od_values d)) as [i|] eqn:E; [|done]. intros _.
  exists i. split; [done|]. by eapply index_of_bounds.
Qed.

Lemma validate_path d v :
  validate d v = Ok () → od_kind d = VFDW_OPT_PATH → ∃ p, vfdw_parse_path d v = Ok p.
Proof.
  unfold vfdw_validate_option. intros Hv Hk. rewrite Hk in Hv. revert Hv. destruct (vfdw_parse_path d v) as [p|]; [eauto|done].
Qed.

(** Applying one option whose value parses keeps the bounds. *)
Lemma apply_option_ok d v o :
  d ∈ vfdw_options → od_context d = ForeignServerRelationId → validate d v = Ok () →
  in_bounds o → ∃ o', vfdw_apply_server_option parse_bool d v o = Ok o' ∧ in_bounds o'.
Proof.
  intros Hd Hc Hv [].
  each_option Hd; try (simpl in Hc; discriminate Hc); unfold vfdw_apply_server_option;
    cbn [od_name]; closed_names; try unfold int_field; closed_names;
    try (eexists; split; [reflexivity|split; simpl; assumption]).
  all: first
    [ destruct (validate_int _ _ Hv eq_refl) as [n Hn]; rewrite Hn;
      pose proof (parse_int_bounds _ _ _ Hn) as Hb; simpl in Hb
    | destruct (validate_bool _ _ Hv eq_refl) as [b Hn]; rewrite Hn
    | destruct (validate_enum _ _ Hv eq_refl) as (i & Hn & Hb); rewrite Hn; simpl in Hb
    | destruct (validate_path _ _ Hv eq_refl) as [p Hn]; rewrite Hn ];
    eexists; (split; [reflexivity|split; simpl; (assumption || lia)]).
Qed.

(** The same without the validator: what is read is in bounds or the read raises. *)
Lemma apply_option_bounds d v o o' :
  d ∈ vfdw_options → od_context d = ForeignServerRelationId → in_bounds o →
  vfdw_apply_server_option parse_bool d v o = Ok o' → in_bounds o'.
Proof.
  intros Hd Hc [].
  each_option Hd; try (simpl in Hc; discriminate Hc); unfold vfdw_apply_server_option;
    cbn [od_name]; closed_names; try unfold int_field; closed_names.
  all: repeat match goal with
    | |- context [vfdw_parse_int ?d ?v] =>
        destruct (vfdw_parse_int d v) as [n|] eqn:Hn; simpl; [|done];
        apply parse_int_bounds in Hn; simpl in Hn
    | |- context [vfdw_parse_enum ?d ?v] =>
        unfold vfdw_parse_enum; destruct (index_of v _) as [i|] eqn:Hn; simpl; [|done];
        apply index_of_bounds in Hn; simpl in Hn
    | |- context [vfdw_parse_bool parse_bool ?d ?v] =>
        destruct (vfdw_parse_bool parse_bool d v); simpl; [|done]
    | |- context [vfdw_parse_path ?d ?v] => destruct (vfdw_parse_path d v); simpl; [|done]
    end; intros [= <-]; split; simpl; (assumption || lia).
Qed.

Lemma apply_options_bounds opts o o' :
  in_bounds o → apply_server_options parse_bool opts o = Ok o' → in_bounds o'.
Proof.
  revert o; induction opts as [|[name v] opts IH]; intros o Ho; simpl; [by intros [= <-]|].
  destruct (vfdw_find_option name _) as [d|] eqn:Ef; simpl; [|by apply IH].
  destruct (vfdw_apply_server_option _ d v o) as [o1|] eqn:Ea; simpl; [|done].
  apply find_option_in in Ef as (Hin & Hc & _). apply IH. by eapply apply_option_bounds.
Qed.

Lemma validate_each_read opts seen o :
  validate_each parse_bool superuser ForeignServerRelationId opts seen = Ok () → in_bounds o →
  ∃ o', apply_server_options parse_bool opts o = Ok o' ∧ in_bounds o'.
Proof.
  revert seen o; induction opts as [|[name v] opts IH]; intros seen o; simpl; [by eauto|].
  destruct (vfdw_find_option name _) as [d|] eqn:Ef; [|done]. case_bool_decide; [done|].
  destruct (validate d v) as [[]|] eqn:Ev; simpl; [|done]. intros Hr Ho.
  apply find_option_in in Ef as (Hin & Hc & _).
  destruct (apply_option_ok d v o Hin Hc Ev Ho) as (o1 & -> & Ho1). simpl. by eapply IH.
Qed.

(** Two parts of one interface: the validator guards the catalog, the readers
    trust it. *)
Lemma read_server_bounds opts o :
  vfdw_read_server_options parse_bool opts = Ok o → in_bounds o.
Proof.
  rewrite read_server_eq. apply apply_options_bounds, defaults_in_bounds.
Qed.

(** The user mapping's options are read back too. *)
Lemma validate_each_user opts seen u :
  validate_each parse_bool superuser UserMappingRelationId opts seen = Ok () →
  ∃ u', apply_user_options parse_bool opts u = Ok u'.
Proof.
  revert seen u; induction opts as [|[name v] opts IH]; intros seen u; cbn [validate_each apply_user_options];
    [by exists u|].
  destruct (vfdw_find_option name _) as [d|] eqn:Ef; [|done]. case_bool_decide; [done|].
  destruct (validate d v) as [[]|] eqn:Ev; simpl; [|done]. intros Hr.
  apply find_option_in in Ef as (Hin & Hc & _).
  assert (∃ u1, apply_user_option parse_bool d v u = Ok u1) as (u1 & ->); [|by eapply IH].
  each_option Hin; try (simpl in Hc; discriminate Hc); unfold apply_user_option;
    cbn [od_name]; closed_names; try (by eexists).
  destruct (validate_bool _ _ Ev eq_refl) as [b ->]. by eexists.
Qed.
End facts.

(** A parse_bool with PostgreSQL's spellings in lower case. *)
Definition sample_parse_bool (v : bytes) : option bool :=
  if bool_decide (v ∈ ["true"; "on"; "yes"; "1"; "t"]) then Some true
  else if bool_decide (v ∈ ["false"; "off"; "no"; "0"; "f"]) then Some false else None.

Definition sample_get_boolean (v : bytes) : result bool :=
  if bool_decide (v ∈ ["true"; "on"; "1"]) then Ok true
  else if bool_decide (v ∈ ["false"; "off"; "0"]) then Ok false
  else Raise (PgError ERRCODE_SYNTAX_ERROR "requires a Boolean value").

(** C36: options the validator lets onto a server are read at run time without an
    error, whatever privileges the reader has, and every integer the run time
    then uses is inside the bounds the option table declares for it. *)
Theorem accepted_server_options_read parse_bool defGetBoolean superuser opts :
  valkey_fdw_validator parse_bool defGetBoolean superuser opts ForeignServerRelationId = Ok () →
  ∃ o, vfdw_read_server_options parse_bool opts = Ok o ∧ in_bounds o.
Proof.
  unfold valkey_fdw_validator. rewrite read_server_eq.
  destruct (validate_each _ _ _ opts []) as [[]|] eqn:Ev; simpl; [|done]. intros _.
  eapply validate_each_read; [done|apply defaults_in_bounds].
Qed.

Definition sample_server_options : list DefElem :=
  [("port", " 7000 "); ("tls", "yes"); ("tls_ca_file", "/etc/ca.pem"); ("tls_verify", "ca")].

Lemma accepted_server_options_read_witness :
  valkey_fdw_validator sample_parse_bool sample_get_boolean true sample_server_options
    ForeignServerRelationId = Ok () ∧
  ∃ o, vfdw_read_server_options sample_parse_bool sample_server_options = Ok o ∧ in_bounds o.
Proof.
  split; [vm_compute; reflexivity|].
  apply (accepted_server_options_read sample_parse_bool sample_get_boolean true).
  vm_compute. reflexivity.
Defined.

(** A value of white space only is the integer zero: strtol reads no digit,
    *endptr stays at the start and the white space is skipped as trailing. *)
Lemma blank_integer_is_zero d v :
  v ≠ "" → skip_space v = "" → od_minval d ≤ 0 ≤ od_maxval d → vfdw_parse_int d v = Ok 0.
Proof.
  intros Hv Hs Hb. unfold vfdw_parse_int, strtol. rewrite bool_decide_false by done.
  rewrite Hs. simpl. rewrite Hs, bool_decide_true by done. simpl.
  rewrite !bool_decide_false by lia. done.
Qed.

(** So a table may be put in database zero by a blank. *)
Example blank_database :
  valkey_fdw_validator sample_parse_bool sample_get_boolean false [("database", " ")]
    ForeignTableRelationId = Ok ().
Proof. reflexivity. Qed.

(** legacy_value without a tabletype, which is a string table, is accepted. *)
Example legacy_string_accepted :
  valkey_fdw_validator sample_parse_bool sample_get_boolean false [("legacy_value", "true")]
    ForeignTableRelationId = Ok ().
Proof. reflexivity. Qed.
