(* ===== verification/WriteOp.v ===== *)
(** The record of one buffered write (VfdwWriteOp, src/vfdw_wbuf.h),
    and the statics of src/vfdw_overlay.c the write buffer resets.

    A (pointer, length) pair of C is a [bytes]; a pair guarded by a has_ flag,
    or a pointer that may be NULL, is an [option bytes].  The list pointers
    prev and next are addresses in the heap of Wbuf.  The index of the overlay maps
    (relid, key bytes) to the addresses of the operations on that key, in buffer order;
    [ov_cxt] says whether its memory context, and with it the table, exists. *)
From S2P Require Import Prelude Opcode.

Abbreviation addr := nat (only parsing).

Inductive VfdwOpKind := VFDW_OP_INSERT | VFDW_OP_UPDATE | VFDW_OP_DELETE.

#[global] Instance VfdwOpKind_eq_dec : EqDecision VfdwOpKind.
Proof. solve_decision. Defined.

Record VfdwWriteArg := WriteArg {
  wa_name : bytes;
  wa_isnull : bool;
  wa_data : bytes;
}.

(** A buffered row: one column value or NULL per attribute.  Nothing here
    looks inside it. *)
Definition HeapTuple : Type := list (option bytes).

Record VfdwWriteOp := WriteOp {
  op_prev : option addr;
  op_next : option addr;
  op_kind : VfdwOpKind;
  op_relid : Z;
  op_tabletype : VfdwTableType;
  op_level : Z;
  op_cid : Z;
  op_hashslot : Z;
  op_key : bytes;
  op_oldkey : option bytes;
  op_member : option bytes;
  op_oldmember : option bytes;
  op_value : option bytes;
  op_score : option bytes;
  op_fields : list VfdwWriteArg;
  op_ttls : list VfdwWriteArg;
  op_packed : list bytes;
  op_packed_shape : bool;
  op_newtup : option HeapTuple;
  op_target_attrs : list Z;
  op_keyset : option bytes;
}.

(** The assignments the buffer makes to an operation after it was built. *)
Definition set_links (op : VfdwWriteOp) (prev next : option addr) : VfdwWriteOp :=
  WriteOp prev next (op_kind op) (op_relid op) (op_tabletype op) (op_level op)
    (op_cid op) (op_hashslot op) (op_key op) (op_oldkey op) (op_member op)
    (op_oldmember op) (op_value op) (op_score op) (op_fields op) (op_ttls op)
    (op_packed op) (op_packed_shape op) (op_newtup op) (op_target_attrs op)
    (op_keyset op).

Definition set_level (op : VfdwWriteOp) (level : Z) : VfdwWriteOp :=
  WriteOp (op_prev op) (op_next op) (op_kind op) (op_relid op) (op_tabletype op) level
    (op_cid op) (op_hashslot op) (op_key op) (op_oldkey op) (op_member op)
    (op_oldmember op) (op_value op) (op_score op) (op_fields op) (op_ttls op)
    (op_packed op) (op_packed_shape op) (op_newtup op) (op_target_attrs op)
    (op_keyset op).

Definition set_cid (op : VfdwWriteOp) (cid : Z) : VfdwWriteOp :=
  WriteOp (op_prev op) (op_next op) (op_kind op) (op_relid op) (op_tabletype op)
    (op_level op) cid (op_hashslot op) (op_key op) (op_oldkey op) (op_member op)
    (op_oldmember op) (op_value op) (op_score op) (op_fields op) (op_ttls op)
    (op_packed op) (op_packed_shape op) (op_newtup op) (op_target_attrs op)
    (op_keyset op).

(** What an operation says, apart from the bookkeeping the buffer rewrites:
    two records with the same payload are the same write. *)
Definition op_payload (op : VfdwWriteOp) : VfdwWriteOp := set_links (set_level op 0) None None.

(** An operation with nothing set, for concrete examples. *)
Definition blank_op (kind : VfdwOpKind) (t : VfdwTableType) (key : bytes) : VfdwWriteOp :=
  WriteOp None None kind 1 t 1 1 0 key None None None None None [] [] [] false None [] None.

(* ---------------------------------------------------------------- *)
(** ** The index of the overlay *)

Local Open Scope Z_scope.

Definition VfdwOverlayKey : Type := Z * bytes.

Record Overlay := MkOverlay {
  ov_cxt : bool;
  ov_tab : gmap (Z * bytes) (list nat);
  ov_built_gen : Z;
  ov_built_shrink_gen : Z;
  ov_built_tail : option nat;
  ov_rebuilds : Z;
  ov_extends : Z;
  ov_have : bool;
}.

Definition overlay_empty : Overlay := MkOverlay false ∅ 0 0 None 0 0 false.

(** The table's comparison function; 0 is "equal". *)
Definition vfdw_overlay_match (x y : VfdwOverlayKey) : Z :=
  if negb (bool_decide (x.1 = y.1)) ||
     negb (bool_decide (String.length x.2 = String.length y.2)) then 1
  else if bool_decide (String.length x.2 = 0%nat) then 0
  else if bool_decide (x.2 = y.2) then 0 else 1.

Definition vfdw_overlay_reset (o : Overlay) : Overlay :=
  if ov_cxt o
  then MkOverlay false ∅ 0 0 None (ov_rebuilds o) (ov_extends o) false
  else o.

Lemma overlay_match_eq x y : vfdw_overlay_match x y = 0 ↔ x = y.
Proof.
  destruct x as [r k], y as [r' k']. unfold vfdw_overlay_match; simpl.
  repeat case_bool_decide; simpl; simplify_eq; try (split; [done|congruence]).
  split; [intros _|done]. destruct k; [|done]. by destruct k'.
Qed.
