(* ===== verification/Ledger.v ===== *)
(** Folding the write buffer into one plan per key
    (src/vfdw_ledger.c, src/vfdw_ledger_fold.c).

    The two dynahash tables are finite maps: [vfdw_ledger_match] is their
    comparison function and [ledger_match_eq] says it is equality of the key
    bytes.  A plan pointer is the plan's index in first-touch order.  Code that
    may raise runs in the monad [M Ledger], so the ledger a raise leaves behind
    is part of the result. *)
From S2P Require Import Prelude Opcode WriteOp.
Local Open Scope Z_scope.

Record VfdwLedgerStep := LedgerStep { st_op : Z; st_args : list bytes }.

Inductive VfdwKeyState := VFDW_KEY_CREATED | VFDW_KEY_LIVE | VFDW_KEY_DELETED.

#[global] Instance VfdwKeyState_eq_dec : EqDecision VfdwKeyState.
Proof. solve_decision. Defined.
#[global] Instance VfdwLedgerStep_eq_dec : EqDecision VfdwLedgerStep.
Proof. solve_decision. Defined.

Record VfdwKeyPlan := KeyPlan {
  kp_key : bytes;
  kp_ttype : VfdwTableType;
  kp_require : VfdwRequire;
  kp_state : VfdwKeyState;
  kp_checks : list VfdwLedgerStep;
  kp_actions : list VfdwLedgerStep;
  kp_nchecks : Z;
  kp_nactions : Z;
  kp_relids : list Z;
}.

(** A (key, sub) pair; [None] is the NULL sub of a key entry. *)
Definition VfdwLedgerKey : Type := bytes * option bytes.

Record VfdwMemberEntry := MemberEntry {
  m_present : bool;
  m_touched : bool;
  m_count : Z;
  m_present_removals : Z;
}.

Record Ledger := MkLedger {
  lg_cxt : bool;
  lg_keys : gmap (bytes * option bytes) nat;
  lg_members : gmap (bytes * option bytes) VfdwMemberEntry;
  lg_plans : list VfdwKeyPlan;
  lg_count : Z;
  lg_rebuilding : bool;
}.

Definition ledger_empty : Ledger := MkLedger false ∅ ∅ [] 0 false.

(** The hash tables' match function; 0 is "equal". *)
Definition vfdw_ledger_match (x y : VfdwLedgerKey) : Z :=
  let sublen o := match o with Some b => String.length b | None => 0%nat end in
  if negb (bool_decide (String.length x.1 = String.length y.1)) ||
     negb (bool_decide (sublen x.2 = sublen y.2)) then 1
  else if negb (eqb (bool_decide (x.2 = None)) (bool_decide (y.2 = None))) then 1
  else if bool_decide (0 < blen x.1) && negb (bool_decide (x.1 = y.1)) then 1
  else match x.2, y.2 with
       | Some a, Some b =>
           if bool_decide (0 < blen a) && negb (bool_decide (a = b)) then 1 else 0
       | _, _ => 0
       end.

Definition vfdw_ledger_init : M Ledger unit := modify (λ l,
  if lg_cxt l then l else MkLedger true ∅ ∅ (lg_plans l) (lg_count l) (lg_rebuilding l)).

Definition vfdw_ledger_reset : M Ledger unit := modify (λ l,
  if lg_cxt l then MkLedger false ∅ ∅ [] 0 (lg_rebuilding l) else l).

(* ---------------------------------------------------------------- *)
(** ** Building steps *)

Definition vfdw_ledger_step (op : Z) (nargs : nat) : VfdwLedgerStep :=
  LedgerStep op (replicate nargs "").

Definition vfdw_ledger_set_arg (s : VfdwLedgerStep) (i : nat) (data : bytes) : VfdwLedgerStep :=
  LedgerStep (st_op s) (<[i := data]> (st_args s)).

(** Assignment through a plan pointer. *)
Definition upd_plan (p : nat) (f : VfdwKeyPlan → VfdwKeyPlan) : M Ledger unit :=
  modify (λ l, MkLedger (lg_cxt l) (lg_keys l) (lg_members l)
                 (alter f p (lg_plans l)) (lg_count l) (lg_rebuilding l)).

Definition add_check (s : VfdwLedgerStep) (k : VfdwKeyPlan) : VfdwKeyPlan :=
  KeyPlan (kp_key k) (kp_ttype k) (kp_require k) (kp_state k) (kp_checks k ++ [s])
    (kp_actions k) (kp_nchecks k + 1) (kp_nactions k) (kp_relids k).

Definition add_action (s : VfdwLedgerStep) (k : VfdwKeyPlan) : VfdwKeyPlan :=
  KeyPlan (kp_key k) (kp_ttype k) (kp_require k) (kp_state k) (kp_checks k)
    (kp_actions k ++ [s]) (kp_nchecks k) (kp_nactions k + 1) (kp_relids k).

Definition set_state (st : VfdwKeyState) (k : VfdwKeyPlan) : VfdwKeyPlan :=
  KeyPlan (kp_key k) (kp_ttype k) (kp_require k) st (kp_checks k)
    (kp_actions k) (kp_nchecks k) (kp_nactions k) (kp_relids k).

Definition set_require (r : VfdwRequire) (k : VfdwKeyPlan) : VfdwKeyPlan :=
  KeyPlan (kp_key k) (kp_ttype k) r (kp_state k) (kp_checks k)
    (kp_actions k) (kp_nchecks k) (kp_nactions k) (kp_relids k).

Definition vfdw_ledger_add_check (plan : nat) (s : VfdwLedgerStep) : M Ledger unit :=
  upd_plan plan (add_check s).

Definition vfdw_ledger_add_action (plan : nat) (s : VfdwLedgerStep) : M Ledger unit :=
  upd_plan plan (add_action s).

Definition vfdw_ledger_act0 (plan : nat) (op : VfdwActionOp) : M Ledger unit :=
  vfdw_ledger_add_action plan (vfdw_ledger_step (action_code op) 0).

Definition vfdw_ledger_act1 (plan : nat) (op : VfdwActionOp) (a : bytes) : M Ledger unit :=
  vfdw_ledger_add_action plan
    (vfdw_ledger_set_arg (vfdw_ledger_step (action_code op) 1) 0 a).

Definition vfdw_ledger_act2 (plan : nat) (op : VfdwActionOp) (a b : bytes) : M Ledger unit :=
  vfdw_ledger_add_action plan
    (vfdw_ledger_set_arg
       (vfdw_ledger_set_arg (vfdw_ledger_step (action_code op) 2) 0 a) 1 b).

Definition vfdw_ledger_chk1 (plan : nat) (op : VfdwCheckOp) (a : bytes) : M Ledger unit :=
  vfdw_ledger_add_check plan
    (vfdw_ledger_set_arg (vfdw_ledger_step (check_code op) 1) 0 a).

(* ---------------------------------------------------------------- *)
(** ** Key plans and members *)

Definition add_relid (relid : Z) (k : VfdwKeyPlan) : VfdwKeyPlan :=
  if bool_decide (relid ∈ kp_relids k) then k else
  KeyPlan (kp_key k) (kp_ttype k) (kp_require k) (kp_state k) (kp_checks k)
    (kp_actions k) (kp_nchecks k) (kp_nactions k) (kp_relids k ++ [relid]).

Definition vfdw_ledger_add_relid (plan : nat) (relid : Z) : M Ledger unit :=
  upd_plan plan (add_relid relid).

(** A zeroed plan: its state is the enum's 0, CREATED. *)
Definition fresh_plan (key : bytes) (t : VfdwTableType) : VfdwKeyPlan :=
  KeyPlan key t VFDW_REQ_ANY VFDW_KEY_CREATED [] [] 0 0 [].

(** The plan of a key and whether this call created it. *)
Definition vfdw_ledger_plan_for (key : bytes) (t : VfdwTableType) : M Ledger (nat * bool) :=
  l ← get;
  match lg_keys l !! (key, None) with
  | Some p => mret (p, false)
  | None =>
      let p := length (lg_plans l) in
      modify (λ l, MkLedger (lg_cxt l) (<[(key, None) := p]> (lg_keys l)) (lg_members l)
                     (lg_plans l ++ [fresh_plan key t]) (lg_count l + 1)
                     (lg_rebuilding l));;;
      vfdw_ledger_add_check p (vfdw_ledger_step (check_code VFDW_CHK_TYPE_OK) 0);;;
      mret (p, true)
  end.

Definition fresh_member : VfdwMemberEntry := MemberEntry false false 0 0.

(** Enter (key, sub) into the member table; the entry and whether it is new. *)
Definition vfdw_ledger_member (key sub : bytes) : M Ledger (VfdwMemberEntry * bool) :=
  l ← get;
  match lg_members l !! (key, Some sub) with
  | Some m => mret (m, false)
  | None =>
      modify (λ l, MkLedger (lg_cxt l) (lg_keys l)
                     (<[(key, Some sub) := fresh_member]> (lg_members l))
                     (lg_plans l) (lg_count l) (lg_rebuilding l));;;
      mret (fresh_member, true)
  end.

(** Assignment through a member-entry pointer. *)
Definition upd_member (key sub : bytes) (f : VfdwMemberEntry → VfdwMemberEntry) : M Ledger unit :=
  modify (λ l, MkLedger (lg_cxt l) (lg_keys l) (alter f (key, Some sub) (lg_members l))
                 (lg_plans l) (lg_count l) (lg_rebuilding l)).

Definition set_present (b : bool) (m : VfdwMemberEntry) : VfdwMemberEntry :=
  MemberEntry b (m_touched m) (m_count m) (m_present_removals m).
Definition set_touched (m : VfdwMemberEntry) : VfdwMemberEntry :=
  MemberEntry (m_present m) true (m_count m) (m_present_removals m).
Definition set_count (n : Z) (m : VfdwMemberEntry) : VfdwMemberEntry :=
  MemberEntry (m_present m) (m_touched m) n (m_present_removals m).
Definition set_removals (n : Z) (m : VfdwMemberEntry) : VfdwMemberEntry :=
  MemberEntry (m_present m) (m_touched m) (m_count m) n.

Definition plan_state (p : nat) : M Ledger VfdwKeyState :=
  gets (λ l, match lg_plans l !! p with Some k => kp_state k | None => VFDW_KEY_CREATED end).

Definition plan_ttype (p : nat) : M Ledger VfdwTableType :=
  gets (λ l, match lg_plans l !! p with Some k => kp_ttype k | None => VFDW_TABLE_STRING end).

(* ---------------------------------------------------------------- *)
(** ** Refusals *)

Definition vfdw_refuse_duplicate_key : pg_error :=
  PgError ERRCODE_UNIQUE_VIOLATION "duplicate key value violates the Valkey keyspace".

Definition vfdw_refuse_duplicate_member (what : string) : pg_error :=
  PgError ERRCODE_UNIQUE_VIOLATION
    ("duplicate " +:+ what +:+ " violates the Valkey keyspace").

(* ---------------------------------------------------------------- *)
(** ** The fold, per table shape *)

Definition vfdw_ledger_keyset (plan : nat) (op : VfdwWriteOp) (key : bytes) (add : bool)
    : M Ledger unit :=
  match op_keyset op with
  | None => mret ()
  | Some keyset =>
      vfdw_ledger_act2 plan (if add then VFDW_ACT_KSET_ADD else VFDW_ACT_KSET_REM) keyset key
  end.

Definition vfdw_ledger_precondition (plan : nat) (first : bool) (kind : VfdwOpKind)
    (rename_target : bool) : M Ledger unit :=
  if negb first then mret () else
  if bool_decide (kind = VFDW_OP_INSERT) || rename_target then
    upd_plan plan (set_require VFDW_REQ_KEY_ABSENT);;;
    vfdw_ledger_add_check plan (vfdw_ledger_step (check_code VFDW_CHK_KEY_ABSENT) 0);;;
    upd_plan plan (set_state VFDW_KEY_CREATED)
  else
    upd_plan plan (set_require VFDW_REQ_KEY_PRESENT);;;
    vfdw_ledger_add_check plan (vfdw_ledger_step (check_code VFDW_CHK_KEY_PRESENT) 0);;;
    upd_plan plan (set_state VFDW_KEY_LIVE).

Definition vfdw_ledger_check_duplicate (plan : nat) (op : VfdwWriteOp) (first : bool)
    : M Ledger unit :=
  if negb (bool_decide (op_kind op = VFDW_OP_INSERT)) || first then mret () else
  st ← plan_state plan;
  if bool_decide (st = VFDW_KEY_DELETED) then mret () else
  t ← plan_ttype plan;
  if negb (bool_decide (t = VFDW_TABLE_STRING)) then mret () else
  raise vfdw_refuse_duplicate_key.

Definition vfdw_ledger_is_rename (op : VfdwWriteOp) : bool :=
  bool_decide (op_kind op = VFDW_OP_UPDATE) &&
  match op_oldkey op with
  | Some old => negb (bool_decide (old = op_key op))
  | None => false
  end.

Definition vfdw_ledger_fold_rename (plan : nat) (op : VfdwWriteOp) : M Ledger unit :=
  if negb (vfdw_ledger_is_rename op) then mret () else
  match op_oldkey op with
  | None => mret ()
  | Some oldkey =>
      vfdw_ledger_act1 plan VFDW_ACT_RENAME oldkey;;;
      vfdw_ledger_keyset plan op oldkey false;;;
      vfdw_ledger_keyset plan op (op_key op) true;;;
      '(old, firstold) ← vfdw_ledger_plan_for oldkey (op_tabletype op);
      vfdw_ledger_add_relid old (op_relid op);;;
      (if firstold : bool then vfdw_ledger_precondition old true VFDW_OP_UPDATE false
       else mret ())
  end.

Definition fold_ttl (plan : nat) (t : VfdwWriteArg) : M Ledger unit :=
  if wa_isnull t then vfdw_ledger_act1 plan VFDW_ACT_HPERSIST (wa_name t)
  else vfdw_ledger_act2 plan VFDW_ACT_HPEXPIRE (wa_name t) (wa_data t).

Definition vfdw_ledger_fold_ttls (plan : nat) (op : VfdwWriteOp) : M Ledger unit :=
  miter (fold_ttl plan) (op_ttls op).

Definition fold_field (plan : nat) (op : VfdwWriteOp) (f : VfdwWriteArg) : M Ledger unit :=
  '(m, firstf) ← vfdw_ledger_member (op_key op) (wa_name f);
  (if firstf : bool then
     upd_member (op_key op) (wa_name f) set_touched;;;
     (st ← plan_state plan;
      if bool_decide (st = VFDW_KEY_CREATED) then mret ()
      else if bool_decide (op_kind op = VFDW_OP_INSERT)
      then vfdw_ledger_chk1 plan VFDW_CHK_HFIELD_ABSENT (wa_name f)
      else vfdw_ledger_chk1 plan VFDW_CHK_HFIELD_PRESENT (wa_name f))
   else if bool_decide (op_kind op = VFDW_OP_INSERT) && m_present m
   then raise (vfdw_refuse_duplicate_member "field")
   else mret ());;;
  if wa_isnull f then
    vfdw_ledger_act1 plan VFDW_ACT_HDEL (wa_name f);;;
    upd_member (op_key op) (wa_name f) (set_present false)
  else
    vfdw_ledger_act2 plan VFDW_ACT_HSET (wa_name f) (wa_data f);;;
    upd_member (op_key op) (wa_name f) (set_present true).

Definition vfdw_ledger_fold_fields (plan : nat) (op : VfdwWriteOp) : M Ledger unit :=
  miter (fold_field plan op) (op_fields op).

Definition vfdw_ledger_fold_hash (plan : nat) (op : VfdwWriteOp) : M Ledger unit :=
  vfdw_ledger_fold_fields plan op;;;
  vfdw_ledger_fold_ttls plan op.

(** The member a row had: oldmember on a rename, member otherwise. *)
Definition row_member (op : VfdwWriteOp) (member : bytes) : bytes :=
  match op_oldmember op with Some old => old | None => member end.

Definition vfdw_ledger_member_precondition (plan : nat) (op : VfdwWriteOp)
    (member : bytes) (is_zset : bool) : M Ledger unit :=
  let idm := row_member op member in
  '(m, firstm) ← vfdw_ledger_member (op_key op) idm;
  if firstm : bool then
    upd_member (op_key op) idm set_touched;;;
    (st ← plan_state plan;
     if bool_decide (st = VFDW_KEY_CREATED) then mret ()
     else if bool_decide (op_kind op = VFDW_OP_INSERT)
     then vfdw_ledger_chk1 plan
            (if is_zset then VFDW_CHK_ZMEMBER_ABSENT else VFDW_CHK_SMEMBER_ABSENT) idm
     else vfdw_ledger_chk1 plan
            (if is_zset then VFDW_CHK_ZMEMBER_PRESENT else VFDW_CHK_SMEMBER_PRESENT) idm)
  else if bool_decide (op_kind op = VFDW_OP_INSERT) && m_present m
  then raise (vfdw_refuse_duplicate_member "member")
  else mret ().

Definition is_member_rename (op : VfdwWriteOp) (member : bytes) : bool :=
  bool_decide (op_kind op = VFDW_OP_UPDATE) &&
  match op_oldmember op with
  | Some old => negb (bool_decide (old = member))
  | None => false
  end.

Definition vfdw_ledger_fold_member (plan : nat) (op : VfdwWriteOp) : M Ledger unit :=
  t ← plan_ttype plan;
  let is_zset := bool_decide (t = VFDW_TABLE_ZSET) in
  match op_member op with
  | None => mret ()
  | Some member =>
      let rem := if is_zset then VFDW_ACT_ZREM else VFDW_ACT_SREM in
      let idm := row_member op member in
      vfdw_ledger_member_precondition plan op member is_zset;;;
      if bool_decide (op_kind op = VFDW_OP_DELETE) then
        vfdw_ledger_act1 plan rem member;;;
        upd_member (op_key op) idm (set_present false)
      else
        (if is_member_rename op member then
           vfdw_ledger_act1 plan rem idm;;;
           upd_member (op_key op) idm (set_present false);;;
           (_ ← vfdw_ledger_member (op_key op) member;
            upd_member (op_key op) member set_touched)
         else mret ());;;
        (if is_zset then
           vfdw_ledger_act2 plan VFDW_ACT_ZADD (default "0" (op_score op)) member
         else vfdw_ledger_act1 plan VFDW_ACT_SADD member);;;
        upd_member (op_key op) (if is_member_rename op member then member else idm)
          (set_present true)
  end.

Definition vfdw_ledger_fold_list (plan : nat) (op : VfdwWriteOp) : M Ledger unit :=
  match op_member op with
  | None => mret ()
  | Some member =>
      '(m, _) ← vfdw_ledger_member (op_key op) member;
      upd_member (op_key op) member set_touched;;;
      if bool_decide (op_kind op = VFDW_OP_DELETE) then
        (if bool_decide (0 < m_count m) then
           upd_member (op_key op) member (set_count (m_count m - 1))
         else
           upd_member (op_key op) member (set_removals (m_present_removals m + 1));;;
           vfdw_ledger_add_check plan
             (vfdw_ledger_set_arg
                (vfdw_ledger_set_arg
                   (vfdw_ledger_step (check_code VFDW_CHK_LVALUE_COUNT_GE) 2) 0 member)
                1 (dec (m_present_removals m + 1))));;;
        vfdw_ledger_act1 plan VFDW_ACT_LREM1 member
      else
        vfdw_ledger_act1 plan VFDW_ACT_RPUSH member;;;
        upd_member (op_key op) member (set_count (m_count m + 1))
  end.

Definition vfdw_ledger_pack_pair (plan : nat) (op : VfdwWriteOp) (i : nat) : M Ledger unit :=
  if negb (bool_decide (i mod 2 = 0)%nat) ||
     bool_decide (length (op_packed op) ≤ i + 1)%nat then mret ()
  else match op_packed op !! i, op_packed op !! (i + 1)%nat with
       | Some f, Some v => vfdw_ledger_act2 plan VFDW_ACT_HSET f v
       | _, _ => mret ()
       end.

Definition pack_element (plan : nat) (op : VfdwWriteOp) (i : nat) : M Ledger unit :=
  match op_packed op !! i with
  | None => mret ()
  | Some e =>
      match op_tabletype op with
      | VFDW_TABLE_LIST => vfdw_ledger_act1 plan VFDW_ACT_RPUSH e
      | VFDW_TABLE_SET => vfdw_ledger_act1 plan VFDW_ACT_SADD e
      | VFDW_TABLE_HASH => vfdw_ledger_pack_pair plan op i
      | VFDW_TABLE_ZSET | VFDW_TABLE_STRING | VFDW_TABLE_VECTOR =>
          raise (elog_error "valkey_fdw: packed write for table type")
      end
  end.

Definition vfdw_ledger_fold_packed (plan : nat) (op : VfdwWriteOp) : M Ledger unit :=
  vfdw_ledger_act0 plan VFDW_ACT_DEL;;;
  miter (pack_element plan op) (seq 0 (length (op_packed op))).

(** [if (plan->state == VFDW_KEY_DELETED) plan->state = VFDW_KEY_LIVE]. *)
Definition revive_plan (plan : nat) : M Ledger unit :=
  st ← plan_state plan;
  if bool_decide (st = VFDW_KEY_DELETED) then upd_plan plan (set_state VFDW_KEY_LIVE)
  else mret ().

Definition vfdw_ledger_fold_packed_op (plan : nat) (op : VfdwWriteOp) : M Ledger unit :=
  vfdw_ledger_fold_packed plan op;;;
  when (bool_decide (op_kind op = VFDW_OP_INSERT))
    (vfdw_ledger_keyset plan op (op_key op) true);;;
  revive_plan plan.

Definition vfdw_ledger_fold_key_delete (plan : nat) (op : VfdwWriteOp) : M Ledger bool :=
  if negb (bool_decide (op_kind op = VFDW_OP_DELETE)) then mret false
  else if negb (bool_decide (op_tabletype op = VFDW_TABLE_STRING)) &&
          negb (bool_decide (op_tabletype op = VFDW_TABLE_HASH)) &&
          negb (op_packed_shape op) then mret false
  else
    vfdw_ledger_act0 plan VFDW_ACT_DEL;;;
    vfdw_ledger_keyset plan op (op_key op) false;;;
    upd_plan plan (set_state VFDW_KEY_DELETED);;;
    mret true.

Definition vfdw_ledger_no_vector_writes : pg_error :=
  elog_error "valkey_fdw: a vector table reached the write fold".

(** The switch on the table type at the heart of [vfdw_ledger_note]. *)
Definition fold_by_type (plan : nat) (op : VfdwWriteOp) : M Ledger unit :=
  match op_tabletype op with
  | VFDW_TABLE_STRING =>
      match op_value op with
      | Some v => vfdw_ledger_act1 plan VFDW_ACT_SET v
      | None => mret ()
      end
  | VFDW_TABLE_HASH => vfdw_ledger_fold_hash plan op
  | VFDW_TABLE_SET | VFDW_TABLE_ZSET => vfdw_ledger_fold_member plan op
  | VFDW_TABLE_LIST => vfdw_ledger_fold_list plan op
  | VFDW_TABLE_VECTOR => raise vfdw_ledger_no_vector_writes
  end.

Definition vfdw_ledger_note (op : VfdwWriteOp) : M Ledger unit :=
  vfdw_ledger_init;;;
  '(plan, first) ← vfdw_ledger_plan_for (op_key op) (op_tabletype op);
  vfdw_ledger_add_relid plan (op_relid op);;;
  vfdw_ledger_check_duplicate plan op first;;;
  vfdw_ledger_precondition plan first (op_kind op) (vfdw_ledger_is_rename op);;;
  vfdw_ledger_fold_rename plan op;;;
  done ← vfdw_ledger_fold_key_delete plan op;
  if done : bool then mret () else
  if op_packed_shape op then vfdw_ledger_fold_packed_op plan op else
  fold_by_type plan op;;;
  when (bool_decide (op_kind op = VFDW_OP_INSERT))
    (vfdw_ledger_keyset plan op (op_key op) true);;;
  revive_plan plan.

(** Discard and re-fold the surviving log; PG_FINALLY clears the guard on
    both ways out. *)
Definition vfdw_ledger_rebuild_from_buffer (ops : list VfdwWriteOp) : M Ledger unit := λ l,
  if lg_rebuilding l then (Ok (), l) else
  let l := (vfdw_ledger_reset l).2 in
  match ops with
  | [] => (Ok (), l)
  | _ =>
      let guard b l := MkLedger (lg_cxt l) (lg_keys l) (lg_members l) (lg_plans l)
                         (lg_count l) b in
      let '(r, l') := miter vfdw_ledger_note ops (guard true l) in
      (r, guard false l')
  end.

Definition vfdw_ledger_nplans (l : Ledger) : Z := lg_count l.

Definition vfdw_ledger_state_name (s : VfdwKeyState) : string :=
  match s with
  | VFDW_KEY_CREATED => "CREATED"
  | VFDW_KEY_LIVE => "LIVE"
  | VFDW_KEY_DELETED => "DELETED"
  end.

