(* ===== verification/LedgerFacts.v ===== *)
(** The invariant of the ledger (src/vfdw_ledger.c, src/vfdw_ledger_fold.c) and
    what the fold of a log produces. *)
From S2P Require Import Prelude Opcode WriteOp Ledger.
Local Open Scope Z_scope.

(* ---------------------------------------------------------------- *)
(** ** The hash tables' comparison is equality of bytes *)

Lemma ledger_match_eq x y : vfdw_ledger_match x y = 0 ↔ x = y.
Proof.
  destruct x as [k s], y as [k' s']. unfold vfdw_ledger_match; simpl.
  split; [|intros [= <- <-]].
  - repeat case_bool_decide; simpl; try done; destruct s, s';
      repeat case_bool_decide; simpl in *; subst; try done; intros _;
      unfold blen in *; repeat match goal with
      | b : bytes, H : ¬ (0 < Z.of_nat (String.length ?b)) |- _ =>
          destruct b; [clear H|exfalso; simpl in H; lia] end;
      repeat match goal with
      | H : String.length "" = String.length ?b |- _ => destruct b; [clear H|done]
      | H : String.length ?b = String.length "" |- _ => destruct b; [clear H|done]
      end; done.
  - rewrite (bool_decide_true (k = k)) by done.
    rewrite eqb_reflx, andb_false_r. simpl.
    destruct s as [s|]; simpl; rewrite !(bool_decide_true (_ = _ :> nat)) by done; simpl; [|done].
    by rewrite (bool_decide_true (s = s)), andb_false_r.
Qed.

(* ---------------------------------------------------------------- *)
(** ** Well-formedness *)

(** How many arguments each opcode carries. *)
Definition check_arity (c : VfdwCheckOp) : nat :=
  match c with
  | VFDW_CHK_KEY_ABSENT | VFDW_CHK_KEY_PRESENT | VFDW_CHK_TYPE_OK => 0
  | VFDW_CHK_LVALUE_COUNT_GE | VFDW_CHK_KSET_ABSENT | VFDW_CHK_KSET_PRESENT => 2
  | _ => 1
  end.

Definition action_arity (a : VfdwActionOp) : nat :=
  match a with
  | VFDW_ACT_DEL => 0
  | VFDW_ACT_HSET | VFDW_ACT_ZADD | VFDW_ACT_KSET_ADD | VFDW_ACT_KSET_REM
  | VFDW_ACT_HPEXPIRE => 2
  | _ => 1
  end.

Definition check_ok (s : VfdwLedgerStep) : Prop :=
  ∃ c, st_op s = check_code c ∧ length (st_args s) = check_arity c.

Definition action_ok (s : VfdwLedgerStep) : Prop :=
  ∃ a, st_op s = action_code a ∧ length (st_args s) = action_arity a.

(** A check about something inside the key. *)
Definition member_check (s : VfdwLedgerStep) : Prop :=
  check_ok s ∧ 3 ≤ st_op s ≤ 9.

Definition type_check : VfdwLedgerStep := LedgerStep (check_code VFDW_CHK_TYPE_OK) [].

Definition key_check (r : VfdwRequire) : list VfdwLedgerStep :=
  match r with
  | VFDW_REQ_ANY => []
  | VFDW_REQ_KEY_ABSENT => [LedgerStep (check_code VFDW_CHK_KEY_ABSENT) []]
  | VFDW_REQ_KEY_PRESENT => [LedgerStep (check_code VFDW_CHK_KEY_PRESENT) []]
  end.

(** A plan's checks are TYPE_OK, the one key check its [require] names, and
    then checks about members; its counters are the lengths of its lists. *)
Definition plan_shape (k : VfdwKeyPlan) : Prop :=
  (∃ rest, kp_checks k = type_check :: key_check (kp_require k) ++ rest ∧
           Forall member_check rest) ∧
  Forall action_ok (kp_actions k) ∧
  kp_nchecks k = Z.of_nat (length (kp_checks k)) ∧
  kp_nactions k = Z.of_nat (length (kp_actions k)) ∧
  NoDup (kp_relids k).

(** The table of keys exists, and it and the list of plans are inverse to each
    other. *)
Definition index_ok (l : Ledger) : Prop :=
  (∀ k p, lg_keys l !! (k, None) = Some p ↔
          kp_key <$> lg_plans l !! p = Some k) ∧
  (∀ k s, lg_keys l !! (k, Some s) = None) ∧
  lg_cxt l = true.

Definition member_ok (m : VfdwMemberEntry) : Prop :=
  0 ≤ m_count m ∧ 0 ≤ m_present_removals m.

(** The invariant; [X] is the plan a call has created and not yet given its
    precondition, if there is one. *)
Definition wf_ex (X : option nat) (l : Ledger) : Prop :=
  index_ok l ∧
  lg_count l = Z.of_nat (length (lg_plans l)) ∧
  map_Forall (λ _, member_ok) (lg_members l) ∧
  (∀ p k, lg_plans l !! p = Some k → plan_shape k ∧
     if decide (X = Some p)
     then kp_checks k = [type_check] ∧ kp_require k = VFDW_REQ_ANY
     else kp_require k ≠ VFDW_REQ_ANY).

(** A ledger whose memory context exists. *)
Definition ledger_wf : Ledger → Prop := wf_ex None.

(** A ledger that was never started, or was reset: nothing is in it. *)
Definition ledger_off (l : Ledger) : Prop :=
  lg_cxt l = false ∧ lg_keys l = ∅ ∧ lg_members l = ∅ ∧ lg_plans l = [] ∧ lg_count l = 0.

Definition ledger_ok (l : Ledger) : Prop := ledger_off l ∨ ledger_wf l.

(** Assigning through a plan pointer keeps the invariant when the new contents
    of the plan do. *)
Definition upd_ok (f : VfdwKeyPlan → VfdwKeyPlan) : Prop :=
  ∀ k, kp_key (f k) = kp_key k ∧ kp_require (f k) = kp_require k ∧
       (plan_shape k → plan_shape (f k)).

Lemma index_alter f p l :
  (∀ k, kp_key (f k) = kp_key k) → index_ok l →
  index_ok (MkLedger (lg_cxt l) (lg_keys l) (lg_members l) (alter f p (lg_plans l))
              (lg_count l) (lg_rebuilding l)).
Proof.
  intros Hf [Hi Hs]. split; [|done]. simpl. intros k q. rewrite Hi.
  destruct (decide (p = q)) as [->|Hne].
  - rewrite list_lookup_alter_eq. destruct (lg_plans l !! q); simpl; [by rewrite Hf|tauto].
  - by rewrite list_lookup_alter_ne.
Qed.

Lemma pres_upd_plan X p f :
  upd_ok f → (X = Some p → ∀ k, kp_checks (f k) = kp_checks k) →
  pres (wf_ex X) (upd_plan p f).
Proof.
  intros Hf HX l (Hi & Hc & Hm & Hp). split_and!; simpl; try done.
  - apply index_alter; [|done]. intros k. apply Hf.
  - by rewrite length_alter.
  - intros q k. rewrite list_lookup_alter. case_decide as Hd; [subst q|by apply Hp].
    intros [k0 [Hk0 ->]]%fmap_Some. destruct (Hp _ _ Hk0) as [Hsh Hr].
    destruct (Hf k0) as (_ & Hreq & Hshape). split; [by apply Hshape|]. rewrite Hreq.
    case_decide as Hx; [|done]. by rewrite HX.
Qed.

Lemma add_action_ok s : action_ok s → upd_ok (add_action s).
Proof.
  intros Hs k. split_and!; [done|done|].
  intros (Hc & Ha & Hn & Hm & Hr). unfold plan_shape. simpl. split_and!; try done.
  - apply Forall_app. by split; [|constructor].
  - rewrite length_app. simpl. lia.
Qed.

Lemma add_check_ok s : member_check s → upd_ok (add_check s).
Proof.
  intros Hs k. split_and!; [done|done|].
  intros ((rest & Hc & Hf) & Ha & Hn & Hm & Hr). unfold plan_shape. simpl. split_and!; try done.
  - exists (rest ++ [s]). rewrite Hc. simpl. rewrite app_assoc. split; [done|].
    apply Forall_app. by split; [|constructor].
  - rewrite length_app. simpl. lia.
Qed.

Lemma set_state_ok st : upd_ok (set_state st).
Proof. intros k. split_and!; [done..|]. by intros H. Qed.

Lemma add_relid_ok r : upd_ok (add_relid r).
Proof.
  intros k. unfold add_relid. case_bool_decide as Hin; [by split_and!|].
  split_and!; [done..|]. intros (Hc & Ha & Hn & Hm & Hr). split_and!; try done.
  simpl. apply list.NoDup_app. split_and!; [done| |apply NoDup_singleton].
  intros x Hx ->%list_elem_of_singleton. done.
Qed.

#[local] Hint Resolve add_action_ok add_check_ok set_state_ok add_relid_ok : vfdw.

Lemma pres_action X p s : action_ok s → pres (wf_ex X) (vfdw_ledger_add_action p s).
Proof. intros Hs. apply pres_upd_plan; [by apply add_action_ok|done]. Qed.

Lemma pres_check p s : member_check s → pres ledger_wf (vfdw_ledger_add_check p s).
Proof. intros Hs. apply pres_upd_plan; [by apply add_check_ok|done]. Qed.

Lemma pres_state X p st : pres (wf_ex X) (upd_plan p (set_state st)).
Proof. apply pres_upd_plan; [apply set_state_ok|done]. Qed.

Lemma pres_relid X p r : pres (wf_ex X) (vfdw_ledger_add_relid p r).
Proof.
  apply pres_upd_plan; [apply add_relid_ok|]. intros _ k. unfold add_relid. by case_bool_decide.
Qed.

Lemma pres_act0 X p a : action_arity a = 0%nat → pres (wf_ex X) (vfdw_ledger_act0 p a).
Proof. intros Ha. apply pres_action. by exists a. Qed.

Lemma pres_act1 X p a b : action_arity a = 1%nat → pres (wf_ex X) (vfdw_ledger_act1 p a b).
Proof. intros Ha. apply pres_action. by exists a. Qed.

Lemma pres_act2 X p a b c : action_arity a = 2%nat → pres (wf_ex X) (vfdw_ledger_act2 p a b c).
Proof. intros Ha. apply pres_action. by exists a. Qed.

Lemma pres_chk1 p c b :
  check_arity c = 1%nat → pres ledger_wf (vfdw_ledger_chk1 p c b).
Proof.
  intros Hc. apply pres_check. split; [by exists c|]. by destruct c; simpl in *; try lia.
Qed.

Lemma pres_upd_member X k s f :
  (∀ m, member_ok m → member_ok (f m)) → pres (wf_ex X) (upd_member k s f).
Proof.
  intros Hf l (Hi & Hc & Hm & Hp). split_and!; simpl; try done.
  intros i m. rewrite lookup_alter_Some. intros [(_ & m0 & Hm0 & ->)|[_ H]].
  - apply Hf. by apply (Hm _ _ Hm0).
  - by apply (Hm _ _ H).
Qed.

Lemma pres_flag X k s f :
  f = set_touched ∨ (∃ b, f = set_present b) → pres (wf_ex X) (upd_member k s f).
Proof. intros Hf. apply pres_upd_member. intros m. by destruct Hf as [->|[b ->]]. Qed.

Lemma pres_member X k s : pres (wf_ex X) (vfdw_ledger_member k s).
Proof.
  intros l (Hi & Hc & Hm & Hp). unfold vfdw_ledger_member, mbind, M_bind, get. simpl.
  destruct (lg_members l !! (k, Some s)); [done|]. split_and!; simpl; try done.
  by apply map_Forall_insert_2.
Qed.

#[local] Hint Resolve pres_act0 pres_act1 pres_act2 pres_chk1 pres_member pres_relid
  pres_state pres_flag : vfdw.
#[local] Hint Extern 4 (_ ∨ _) => solve [left; reflexivity | right; eexists; reflexivity] : vfdw.
#[local] Hint Unfold plan_state plan_ttype : vfdw.

Lemma pres_keyset X p op k b : pres (wf_ex X) (vfdw_ledger_keyset p op k b).
Proof. unfold vfdw_ledger_keyset. destruct b; pres_auto. Qed.

#[local] Hint Resolve pres_keyset : vfdw.

(** Creating a plan leaves it as the one waiting for its precondition. *)
Lemma plan_for_wf k t l :
  ledger_wf l →
  wp (vfdw_ledger_plan_for k t)
     (λ '(p, first) l', wf_ex (if first : bool then Some p else None) l') (λ _ _, False) l.
Proof.
  intros (Hi & Hc & Hm & Hp). unfold wp, vfdw_ledger_plan_for, mbind, M_bind, get. simpl.
  destruct (lg_keys l !! (k, None)) as [p|] eqn:E; simpl; [by split_and!|].
  assert (Hlen : length (lg_plans l ++ [fresh_plan k t]) = S (length (lg_plans l)))
    by (rewrite length_app; simpl; lia).
  refine (conj _ (conj _ (conj _ _))); simpl.
  - destruct Hi as [Hi Hs].
    refine (index_alter (add_check (vfdw_ledger_step 2 0)) (length (lg_plans l)) (MkLedger (lg_cxt l) (<[(k, None) := length (lg_plans l)]> (lg_keys l))
      (lg_members l) (lg_plans l ++ [fresh_plan k t]) (lg_count l + 1) (lg_rebuilding l)) _ _); [done|].
    split; simpl; [|split; [intros k' s; rewrite lookup_insert_ne; [apply Hs|done]|apply Hs]].
    intros k' q. destruct (decide (k' = k)) as [->|Hne].
    + rewrite lookup_insert_eq. split.
      * intros [= <-]. by rewrite lookup_app_r, Nat.sub_diag.
      * intros [pl [Hq Hk]]%fmap_Some. f_equal.
        destruct (decide (q < length (lg_plans l))%nat) as [Hlt|Hge].
        { rewrite lookup_app_l in Hq by done.
          assert (lg_keys l !! (k, None) = Some q) as Hq' by (apply Hi; by rewrite Hq, Hk).
          congruence. }
        apply lookup_lt_Some in Hq. lia.
    + rewrite lookup_insert_ne by congruence. rewrite Hi.
      destruct (decide (q < length (lg_plans l))%nat) as [Hlt|Hge].
      * by rewrite lookup_app_l.
      * rewrite lookup_app_r, (lookup_ge_None_2 (lg_plans l)) by lia. simpl.
        split; [done|]. destruct (q - _)%nat; simpl; [|done]. intros [= ->]. done.
  - rewrite length_alter, Hlen. lia.
  - done.
  - intros q pl. rewrite list_lookup_alter. case_decide as Hq.
    + subst q. rewrite lookup_app_r, Nat.sub_diag by lia. simpl. intros [= <-].
      rewrite decide_True by done. split; [|done]. split_and!; simpl; try done.
      * by exists [].
      * constructor.
    + rewrite decide_False by congruence.
      destruct (decide (q < length (lg_plans l))%nat) as [Hlt|Hge].
      * rewrite lookup_app_l by done. intros H. destruct (Hp _ _ H) as [H1 H2].
        by rewrite decide_False in H2.
      * rewrite lookup_app_r by lia. destruct (q - _)%nat eqn:Eq; simpl; [lia|done].
Qed.

(** The precondition is what a new plan was waiting for. *)
Lemma precondition_wf p kind rt l :
  wf_ex (Some p) l → ledger_wf (vfdw_ledger_precondition p true kind rt l).2.
Proof.
  intros (Hi & Hc & Hm & Hp).
  assert (Hgen : ∀ r st, r ≠ VFDW_REQ_ANY →
    ledger_wf (MkLedger (lg_cxt l) (lg_keys l) (lg_members l)
      (alter (set_state st) p (alter (add_check (hd type_check (key_check r))) p
        (alter (set_require r) p (lg_plans l)))) (lg_count l) (lg_rebuilding l))).
  { intros r st Hr. refine (conj _ (conj _ (conj _ _))); simpl.
    - exact (index_alter (set_state st) p _ (λ _, eq_refl)
              (index_alter (add_check _) p _ (λ _, eq_refl)
                (index_alter (set_require r) p _ (λ _, eq_refl) Hi))).
    - by rewrite !length_alter.
    - done.
    - intros q k.
      destruct (decide (p = q)) as [Hq|Hq].
      + subst q. rewrite !list_lookup_alter_eq. intros H.
        destruct (lg_plans l !! p) as [k0|] eqn:E; simplify_eq/=.
        destruct (Hp _ _ E) as [(Hch & Ha & Hn & Hna & Hrel) Hx].
        rewrite decide_True in Hx by done. destruct Hx as [Hx1 Hx2].
        rewrite Hx1 in *. split; [|done]. split_and!; simpl; try done.
        * exists []. rewrite Hx1. by destruct r.
        * rewrite Hx1. simpl in *. lia.
      + rewrite !list_lookup_alter_ne by done. intros H. destruct (Hp _ _ H) as [H1 H2].
        rewrite decide_False in H2 by congruence. done. }
  unfold vfdw_ledger_precondition. simpl.
  destruct (_ || rt).
  - exact (Hgen VFDW_REQ_KEY_ABSENT VFDW_KEY_CREATED ltac:(done)).
  - exact (Hgen VFDW_REQ_KEY_PRESENT VFDW_KEY_LIVE ltac:(done)).
Qed.

Lemma precondition_pres p first kind rt l :
  wf_ex (if first : bool then Some p else None) l →
  wp (vfdw_ledger_precondition p first kind rt) (λ _, ledger_wf) (λ _, ledger_wf) l.
Proof.
  intros Hl. destruct first; [|done].
  pose proof (precondition_wf p kind rt l Hl) as H. unfold wp.
  by destruct (vfdw_ledger_precondition p true kind rt l) as [[u|e] l'].
Qed.

(** [plan_for] and [add_relid] as every caller uses them. *)
Lemma touch_wf k t r l :
  ledger_wf l →
  wp ('(p, first) ← vfdw_ledger_plan_for k t;
      vfdw_ledger_add_relid p r;;; mret (p, first))
     (λ '(p, first) l', wf_ex (if first : bool then Some p else None) l') (λ _ _, False) l.
Proof.
  intros Hl. apply wp_bind. eapply wp_mono; [by apply plan_for_wf| |done].
  intros [p first] l' Hl'. exact (pres_relid _ p r l' Hl').
Qed.

Lemma pres_fold_rename p op : pres ledger_wf (vfdw_ledger_fold_rename p op).
Proof.
  unfold vfdw_ledger_fold_rename. destruct (negb _); [apply pres_ret|].
  destruct (op_oldkey op) as [old|]; [|apply pres_ret].
  repeat (apply pres_bind; [solve [unfold ledger_wf; eauto with vfdw]|intros _]).
  apply pres_wp. intros l Hl. apply wp_bind.
  eapply wp_mono; [by apply plan_for_wf| |done].
  intros [q first] l' Hl'. apply wp_bind.
  assert (Hl2 := pres_relid _ q (op_relid op) l' Hl').
  destruct first; [by apply precondition_pres|done].
Qed.

Lemma pres_fold_field p op f : pres ledger_wf (fold_field p op f).
Proof. unfold fold_field, ledger_wf. pres_auto. Qed.

Lemma pres_fold_hash p op : pres ledger_wf (vfdw_ledger_fold_hash p op).
Proof.
  unfold vfdw_ledger_fold_hash, vfdw_ledger_fold_fields, vfdw_ledger_fold_ttls, fold_ttl.
  apply pres_bind; [|intros _]; apply pres_miter; intros x _.
  - apply pres_fold_field.
  - unfold ledger_wf. pres_auto.
Qed.

Lemma pres_fold_member p op : pres ledger_wf (vfdw_ledger_fold_member p op).
Proof.
  unfold vfdw_ledger_fold_member, vfdw_ledger_member_precondition, ledger_wf.
  apply pres_bind; [apply pres_gets|intros t].
  destruct (bool_decide (t = _)); pres_auto.
Qed.

Lemma member_entry_ok k s l :
  ledger_wf l →
  wp (vfdw_ledger_member k s) (λ '(m, _) l', ledger_wf l' ∧ member_ok m) (λ _ _, False) l.
Proof.
  intros Hl. pose proof (pres_member None k s l Hl) as Hp. unfold wp.
  unfold vfdw_ledger_member, mbind, M_bind, get in *. simpl in *.
  destruct (lg_members l !! (k, Some s)) as [m|] eqn:E; simpl in *.
  - split; [done|]. destruct Hl as (_ & _ & Hm & _). by apply (Hm _ _ E).
  - by split.
Qed.

Lemma pres_fold_list p op : pres ledger_wf (vfdw_ledger_fold_list p op).
Proof.
  unfold vfdw_ledger_fold_list. destruct (op_member op) as [x|]; [|apply pres_ret].
  apply pres_wp. intros l Hl. apply wp_bind.
  eapply wp_mono; [by apply member_entry_ok| |done].
  intros [m first] l' [Hl' [Hc Hr]]. apply wp_pres; [|done].
  apply pres_bind; [by unfold ledger_wf; auto with vfdw|intros _].
  destruct (bool_decide (op_kind op = VFDW_OP_DELETE)).
  - apply pres_bind; [|intros _; by apply pres_act1].
    case_bool_decide; [apply pres_upd_member|apply pres_bind; [apply pres_upd_member|intros _]].
    + intros m0 [_ H0]. split; simpl; [lia|done].
    + intros m0 [H0 _]. split; simpl; [done|lia].
    + apply pres_check. split; [by exists VFDW_CHK_LVALUE_COUNT_GE|simpl; lia].
  - apply pres_bind; [by apply pres_act1|intros _]. apply pres_upd_member.
    intros m0 [_ H0]. split; simpl; [lia|done].
Qed.

Lemma pres_pack_element p op i : pres ledger_wf (pack_element p op i).
Proof. unfold pack_element, vfdw_ledger_pack_pair, ledger_wf. pres_auto. Qed.

Lemma pres_revive p : pres ledger_wf (revive_plan p).
Proof. unfold revive_plan, ledger_wf. pres_auto. Qed.

Lemma pres_fold_packed_op p op : pres ledger_wf (vfdw_ledger_fold_packed_op p op).
Proof.
  unfold vfdw_ledger_fold_packed_op, vfdw_ledger_fold_packed.
  repeat (apply pres_bind; [|intros _]).
  - by apply pres_act0.
  - apply pres_miter. intros i _. apply pres_pack_element.
  - apply pres_when, pres_keyset.
  - apply pres_revive.
Qed.

Lemma pres_key_delete p op : pres ledger_wf (vfdw_ledger_fold_key_delete p op).
Proof. unfold vfdw_ledger_fold_key_delete, ledger_wf. pres_auto. Qed.

Lemma pres_fold_by_type p op : pres ledger_wf (fold_by_type p op).
Proof.
  unfold fold_by_type.
  destruct (op_tabletype op); auto using pres_fold_hash, pres_fold_list, pres_fold_member, pres_raise.
  destruct (op_value op); [by apply pres_act1|apply pres_ret].
Qed.

(** What [vfdw_ledger_note] does once the key's plan has its precondition. *)
Definition note_body (plan : nat) (op : VfdwWriteOp) : M Ledger unit :=
  vfdw_ledger_fold_rename plan op;;;
  done ← vfdw_ledger_fold_key_delete plan op;
  if done : bool then mret () else
  if op_packed_shape op then vfdw_ledger_fold_packed_op plan op else
  fold_by_type plan op;;;
  when (bool_decide (op_kind op = VFDW_OP_INSERT))
    (vfdw_ledger_keyset plan op (op_key op) true);;;
  revive_plan plan.

Lemma pres_note_body p op : pres ledger_wf (note_body p op).
Proof.
  unfold note_body.
  apply pres_bind; [apply pres_fold_rename|intros _].
  apply pres_bind; [apply pres_key_delete|intros []]; [apply pres_ret|].
  destruct (op_packed_shape op); [apply pres_fold_packed_op|].
  apply pres_bind; [apply pres_fold_by_type|intros _].
  apply pres_bind; [apply pres_when, pres_keyset|intros _]. apply pres_revive.
Qed.

Lemma init_wf l : ledger_ok l → ledger_wf (vfdw_ledger_init l).2.
Proof.
  unfold vfdw_ledger_init, modify. simpl.
  intros [(Hc & _ & _ & Hp & Hn)|Hl].
  - rewrite Hc, Hp, Hn. by split_and!.
  - assert (lg_cxt l = true) as -> by apply Hl. done.
Qed.

Lemma note_live op l :
  ledger_wf l →
  ledger_wf (('(plan, first) ← vfdw_ledger_plan_for (op_key op) (op_tabletype op);
    vfdw_ledger_add_relid plan (op_relid op);;;
    vfdw_ledger_check_duplicate plan op first;;;
    vfdw_ledger_precondition plan first (op_kind op) (vfdw_ledger_is_rename op);;;
    note_body plan op) l).2.
Proof.
  revert l. change (pres ledger_wf ('(plan, first) ← vfdw_ledger_plan_for (op_key op) (op_tabletype op);
    vfdw_ledger_add_relid plan (op_relid op);;;
    vfdw_ledger_check_duplicate plan op first;;;
    vfdw_ledger_precondition plan first (op_kind op) (vfdw_ledger_is_rename op);;;
    note_body plan op)).
  apply pres_wp. intros l Hl. apply wp_bind.
  eapply wp_mono; [by apply plan_for_wf| |done].
  intros [p first] l1 Hl1. apply wp_bind.
  assert (Hl2 := pres_relid _ p (op_relid op) l1 Hl1).
  unfold wp at 1. destruct (vfdw_ledger_add_relid _ _ l1) as [[u|e] l2] eqn:E; [|done].
  simpl in Hl2. clear E u. apply wp_bind.
  assert (Hd : wp (vfdw_ledger_check_duplicate p op first)
    (λ _, wf_ex (if first then Some p else None)) (λ _, ledger_wf) l2).
  { unfold vfdw_ledger_check_duplicate. destruct first.
    - rewrite orb_true_r. exact Hl2.
    - apply (wp_pres ledger_wf); [|done]. pres_auto. }
  eapply wp_mono; [exact Hd| |done]. intros ? l3 Hl3. apply wp_bind.
  eapply wp_mono; [by apply precondition_pres| |done].
  intros ? l4 Hl4. apply wp_pres; [apply pres_note_body|done].
Qed.

Lemma pres_note op : pres ledger_ok (vfdw_ledger_note op).
Proof. intros l Hl. right. apply (note_live op _ (init_wf l Hl)). Qed.

Lemma pres_reset : pres ledger_ok vfdw_ledger_reset.
Proof.
  intros l [Hl|Hl]; left; unfold vfdw_ledger_reset, modify; simpl.
  - destruct Hl as (Hc & H). rewrite Hc. by split.
  - assert (lg_cxt l = true) as -> by apply Hl. done.
Qed.

Lemma pres_rebuild ops : pres ledger_ok (vfdw_ledger_rebuild_from_buffer ops).
Proof.
  intros l Hl. unfold vfdw_ledger_rebuild_from_buffer. destruct (lg_rebuilding l); [done|].
  pose proof (pres_reset l Hl) as Hr. destruct (vfdw_ledger_reset l) as [r l1]. simpl in *.
  destruct ops as [|op ops]; [done|].
  set (l2 := MkLedger _ _ _ _ _ true).
  assert (H2 : ledger_ok l2) by (destruct Hr as [Hr|Hr]; [by left|by right]).
  pose proof (pres_miter ledger_ok vfdw_ledger_note (op :: ops) (λ x _, pres_note x) l2 H2) as H3.
  destruct (miter _ _ l2) as [r3 l3]. simpl in *.
  destruct H3 as [H3|H3]; [by left|by right].
Qed.

(* ---------------------------------------------------------------- *)
(** ** Property *)

(** C14: folding an operation keeps the ledger well formed whether it is accepted
    or refused: the key table and the plan list are inverse to each other, the
    counters are the lengths of the step lists, every step has the number of
    arguments its opcode takes, and every plan starts with TYPE_OK followed by
    exactly the key check its requirement names. *)
Theorem note_keeps_ledger_ok (op : VfdwWriteOp) (l : Ledger) :
  ledger_ok l → ledger_ok (vfdw_ledger_note op l).2.
Proof. exact (pres_note op l). Qed.

Lemma note_keeps_ledger_ok_witness :
  ledger_ok (vfdw_ledger_note (blank_op VFDW_OP_INSERT VFDW_TABLE_STRING "k") ledger_empty).2.
Proof. apply note_keeps_ledger_ok. left. repeat split; reflexivity. Defined.
