(* ===== verification/LedgerActions.v ===== *)
(** What the fold of src/vfdw_ledger.c records to be done: a closed form of the
    actions one operation adds, and of the actions a whole log adds per key. *)
From S2P Require Import Prelude Opcode WriteOp Ledger LedgerFacts.
Local Open Scope Z_scope.

(* ---------------------------------------------------------------- *)
(** ** The actions of one operation *)

Definition act (a : VfdwActionOp) (args : list bytes) : VfdwLedgerStep :=
  LedgerStep (action_code a) args.

Definition keyset_actions (op : VfdwWriteOp) (key : bytes) (add : bool) : list VfdwLedgerStep :=
  match op_keyset op with
  | None => []
  | Some ks => [act (if add then VFDW_ACT_KSET_ADD else VFDW_ACT_KSET_REM) [ks; key]]
  end.

Definition rename_actions (op : VfdwWriteOp) : list VfdwLedgerStep :=
  match op_oldkey op with
  | Some old =>
      if vfdw_ledger_is_rename op
      then [act VFDW_ACT_RENAME [old]] ++ keyset_actions op old false
             ++ keyset_actions op (op_key op) true
      else []
  | None => []
  end.

Definition field_action (f : VfdwWriteArg) : VfdwLedgerStep :=
  if wa_isnull f then act VFDW_ACT_HDEL [wa_name f]
  else act VFDW_ACT_HSET [wa_name f; wa_data f].

Definition ttl_action (t : VfdwWriteArg) : VfdwLedgerStep :=
  if wa_isnull t then act VFDW_ACT_HPERSIST [wa_name t]
  else act VFDW_ACT_HPEXPIRE [wa_name t; wa_data t].

Definition member_actions (z : bool) (op : VfdwWriteOp) : list VfdwLedgerStep :=
  let rem := if z then VFDW_ACT_ZREM else VFDW_ACT_SREM in
  match op_member op with
  | None => []
  | Some m =>
      if bool_decide (op_kind op = VFDW_OP_DELETE) then [act rem [m]]
      else (if is_member_rename op m then [act rem [row_member op m]] else []) ++
           [if z then act VFDW_ACT_ZADD [default "0" (op_score op); m] else act VFDW_ACT_SADD [m]]
  end.

Definition list_actions (op : VfdwWriteOp) : list VfdwLedgerStep :=
  match op_member op with
  | None => []
  | Some m => [if bool_decide (op_kind op = VFDW_OP_DELETE)
               then act VFDW_ACT_LREM1 [m] else act VFDW_ACT_RPUSH [m]]
  end.

(** Field and value alternate; a last field without a value is not written. *)
Fixpoint pair_actions (l : list bytes) : list VfdwLedgerStep :=
  match l with
  | f :: v :: r => act VFDW_ACT_HSET [f; v] :: pair_actions r
  | _ => []
  end.

Definition packed_actions (op : VfdwWriteOp) : list VfdwLedgerStep :=
  act VFDW_ACT_DEL [] ::
  match op_tabletype op with
  | VFDW_TABLE_LIST => (λ e, act VFDW_ACT_RPUSH [e]) <$> op_packed op
  | VFDW_TABLE_SET => (λ e, act VFDW_ACT_SADD [e]) <$> op_packed op
  | VFDW_TABLE_HASH => pair_actions (op_packed op)
  | _ => []
  end.

Definition type_actions (t : VfdwTableType) (op : VfdwWriteOp) : list VfdwLedgerStep :=
  match op_tabletype op with
  | VFDW_TABLE_STRING => match op_value op with Some v => [act VFDW_ACT_SET [v]] | None => [] end
  | VFDW_TABLE_HASH => (field_action <$> op_fields op) ++ (ttl_action <$> op_ttls op)
  | VFDW_TABLE_SET | VFDW_TABLE_ZSET => member_actions (bool_decide (t = VFDW_TABLE_ZSET)) op
  | VFDW_TABLE_LIST => list_actions op
  | VFDW_TABLE_VECTOR => []
  end.

(** A DELETE whose row is the whole key. *)
Definition deletes_key (op : VfdwWriteOp) : bool :=
  bool_decide (op_kind op = VFDW_OP_DELETE) &&
  (bool_decide (op_tabletype op = VFDW_TABLE_STRING) ||
   bool_decide (op_tabletype op = VFDW_TABLE_HASH) || op_packed_shape op).

(** Everything operation [op] adds to its key's plan, whose table type is [t]. *)
Definition op_actions (t : VfdwTableType) (op : VfdwWriteOp) : list VfdwLedgerStep :=
  rename_actions op ++
  if deletes_key op then [act VFDW_ACT_DEL []] ++ keyset_actions op (op_key op) false
  else (if op_packed_shape op then packed_actions op else type_actions t op) ++
       (if bool_decide (op_kind op = VFDW_OP_INSERT)
        then keyset_actions op (op_key op) true else []).

(* ---------------------------------------------------------------- *)
(** ** How an operation changes the plans *)

(** From [l] to [l'] plan [p] gained the actions [L]; the other plans kept
    theirs, and a plan that is new has none. *)
Definition grow (p : nat) (L : list VfdwLedgerStep) (l l' : Ledger) : Prop :=
  (∀ key q, lg_keys l !! key = Some q → lg_keys l' !! key = Some q) ∧
  (∀ q k, lg_plans l !! q = Some k → ∃ k', lg_plans l' !! q = Some k' ∧
     kp_key k' = kp_key k ∧ kp_ttype k' = kp_ttype k ∧
     kp_actions k' = kp_actions k ++ (if decide (q = p) then L else [])) ∧
  (∀ q k', lg_plans l' !! q = Some k' → (length (lg_plans l) ≤ q)%nat → kp_actions k' = []).

Definition emits {A} (p : nat) (L : list VfdwLedgerStep) (m : M Ledger A) : Prop :=
  ∀ l a l', (p < length (lg_plans l))%nat → m l = (Ok a, l') → grow p L l l'.

Lemma grow_length p L l l' : grow p L l l' → (length (lg_plans l) ≤ length (lg_plans l'))%nat.
Proof.
  intros (_ & H & _). destruct (decide (length (lg_plans l) ≤ length (lg_plans l'))%nat); [done|].
  destruct (lookup_lt_is_Some_2 (lg_plans l) (length (lg_plans l'))) as [k Hk]; [lia|].
  destruct (H _ _ Hk) as (k' & Hk' & _). apply lookup_lt_Some in Hk'. lia.
Qed.

Lemma grow_refl p l : grow p [] l l.
Proof.
  split_and!; [done| |].
  - intros q k Hk. exists k. split_and!; try done. case_decide; by rewrite app_nil_r.
  - intros q k Hk Hq. apply lookup_lt_Some in Hk. lia.
Qed.

Lemma grow_trans p L1 L2 l l1 l2 :
  (p < length (lg_plans l))%nat → grow p L1 l l1 → grow p L2 l1 l2 → grow p (L1 ++ L2) l l2.
Proof.
  intros Hp Hg1 (Hk2 & Ho2 & Hn2). pose proof (grow_length _ _ _ _ Hg1) as Hlen.
  destruct Hg1 as (Hk1 & Ho1 & Hn1). split_and!.
  - eauto.
  - intros q k Hk. destruct (Ho1 _ _ Hk) as (k1 & H1 & He1 & Ht1 & Ha1).
    destruct (Ho2 _ _ H1) as (k2 & H2 & He2 & Ht2 & Ha2).
    exists k2. split_and!; [done|congruence|congruence|]. rewrite Ha2, Ha1, <- app_assoc.
    by case_decide.
  - intros q k Hk Hq. destruct (decide (q < length (lg_plans l1))%nat) as [Hlt|Hge].
    + apply lookup_lt_is_Some_2 in Hlt as [k1 H1].
      destruct (Ho2 _ _ H1) as (k2 & H2 & _ & _ & Ha). simplify_eq.
      rewrite Ha, (Hn1 _ _ H1), decide_False by lia. done.
    + apply (Hn2 q); [done|lia].
Qed.

Lemma emits_ret {A} p (a : A) : emits p [] (mret a).
Proof. intros l b l' _ [= <- <-]. apply grow_refl. Qed.

Lemma emits_raise {A} p L e : emits p L (raise (A := A) e).
Proof. by intros l b l' _ H. Qed.

Lemma emits_bind {A B} p L1 L2 (m : M Ledger A) (f : A → M Ledger B) :
  emits p L1 m → (∀ a, emits p L2 (f a)) → emits p (L1 ++ L2) (m ≫= f).
Proof.
  intros Hm Hf l b l2 Hp (a & l1 & H1 & H2)%bind_ok.
  pose proof (Hm _ _ _ Hp H1) as Hg. eapply grow_trans; [done|done|].
  eapply (Hf a); [|done]. pose proof (grow_length _ _ _ _ Hg). lia.
Qed.

(** A step that emits nothing, before or after one that does. *)
Lemma emits_seq {A B} p L (m : M Ledger A) (f : A → M Ledger B) :
  emits p [] m → (∀ a, emits p L (f a)) → emits p L (m ≫= f).
Proof. exact (emits_bind p [] L m f). Qed.

Lemma emits_seq_r {A B} p L (m : M Ledger A) (f : A → M Ledger B) :
  emits p L m → (∀ a, emits p [] (f a)) → emits p L (m ≫= f).
Proof. intros H1 H2. rewrite <- (app_nil_r L). by apply emits_bind. Qed.

Lemma emits_gets {A} p (g : Ledger → A) : emits p [] (gets g).
Proof. intros l b l' _ [= <- <-]. apply grow_refl. Qed.

Lemma emits_upd q p L f :
  (q = p ∨ L = []) →
  (∀ k, kp_key (f k) = kp_key k ∧ kp_ttype (f k) = kp_ttype k ∧
        kp_actions (f k) = kp_actions k ++ L) →
  emits p L (upd_plan q f).
Proof.
  intros HL Hf l a l' Hp [= <- <-]. split_and!; simpl; [done| |].
  - intros r k Hk. destruct (decide (q = r)) as [<-|Hne].
    + rewrite list_lookup_alter_eq, Hk. exists (f k). destruct (Hf k) as (? & ? & ->).
      split_and!; [done..|]. case_decide; [done|]. destruct HL as [->| ->]; done.
    + rewrite list_lookup_alter_ne by done. exists k. split_and!; try done.
      case_decide; [|by rewrite app_nil_r]. destruct HL as [->| ->]; [done|by rewrite app_nil_r].
  - intros r k Hk Hr. apply lookup_lt_Some in Hk. rewrite length_alter in Hk. lia.
Qed.

Lemma emits_action p s : emits p [s] (vfdw_ledger_add_action p s).
Proof. by apply emits_upd; [left|]. Qed.

Lemma emits_quiet q p f :
  (∀ k, kp_key (f k) = kp_key k ∧ kp_ttype (f k) = kp_ttype k ∧ kp_actions (f k) = kp_actions k) →
  emits p [] (upd_plan q f).
Proof. intros Hf. apply emits_upd; [by right|]. intros k. rewrite app_nil_r. apply Hf. Qed.

Lemma emits_check q p s : emits p [] (vfdw_ledger_add_check q s).
Proof. by apply emits_quiet. Qed.

Lemma emits_relid q p r : emits p [] (vfdw_ledger_add_relid q r).
Proof. apply emits_quiet. intros k. unfold add_relid. by case_bool_decide. Qed.

Lemma emits_same {A} p (m : M Ledger A) :
  (∀ l, lg_keys (m l).2 = lg_keys l ∧ lg_plans (m l).2 = lg_plans l) → emits p [] m.
Proof.
  intros Hm l a l' Hp E. destruct (Hm l) as [H1 H2]. rewrite E in H1, H2. simpl in *.
  destruct (grow_refl p l) as (Ha & Hb & Hc). unfold grow. rewrite H1, H2. by split_and!.
Qed.

Lemma emits_upd_member p k s f : emits p [] (upd_member k s f).
Proof. by apply emits_same. Qed.

Lemma emits_member p k s : emits p [] (vfdw_ledger_member k s).
Proof.
  apply emits_same. intros l. unfold vfdw_ledger_member, mbind, M_bind, get. simpl.
  by destruct (lg_members l !! _).
Qed.

Lemma emits_act0 p a : emits p [act a []] (vfdw_ledger_act0 p a).
Proof. apply emits_action. Qed.
Lemma emits_act1 p a x : emits p [act a [x]] (vfdw_ledger_act1 p a x).
Proof. apply emits_action. Qed.
Lemma emits_act2 p a x y : emits p [act a [x; y]] (vfdw_ledger_act2 p a x y).
Proof. apply emits_action. Qed.
Lemma emits_chk1 q p c x : emits p [] (vfdw_ledger_chk1 q c x).
Proof. apply emits_check. Qed.
Lemma emits_state q p st : emits p [] (upd_plan q (set_state st)).
Proof. by apply emits_quiet. Qed.
Lemma emits_require q p r : emits p [] (upd_plan q (set_require r)).
Proof. by apply emits_quiet. Qed.

#[local] Hint Resolve emits_ret emits_raise emits_gets emits_check emits_relid
  emits_upd_member emits_member emits_act0 emits_act1 emits_act2 emits_chk1 emits_state
  emits_require : vfdw.

(** Code that emits nothing, by case analysis. *)
Ltac emits_step :=
  match goal with
  | |- emits _ _ (match ?x with _ => _ end) => destruct x
  | |- emits _ [] (mbind _ _) => apply emits_seq; [|intros ?]
  end.
Ltac emits_auto := repeat first [solve [eauto with vfdw] | emits_step].

Lemma emits_keyset p op k b : emits p (keyset_actions op k b) (vfdw_ledger_keyset p op k b).
Proof. unfold keyset_actions, vfdw_ledger_keyset. destruct (op_keyset op); auto with vfdw. Qed.

Lemma emits_precondition q p first kind rt :
  emits p [] (vfdw_ledger_precondition q first kind rt).
Proof. unfold vfdw_ledger_precondition. emits_auto. Qed.

Lemma emits_plan_for p k t : emits p [] (vfdw_ledger_plan_for k t).
Proof.
  intros l a l' Hp E. unfold vfdw_ledger_plan_for, mbind, M_bind, get in E. simpl in E.
  destruct (lg_keys l !! (k, None)) eqn:Ek.
  { injection E as <- <-. apply grow_refl. }
  injection E as <- <-.
  split_and!; simpl.
  - intros key q Hq. destruct (decide (key = (k, None))) as [->|]; [congruence|].
    by rewrite lookup_insert_ne.
  - intros q pl Hq. exists pl. assert (q < length (lg_plans l))%nat by by eapply lookup_lt_Some.
    rewrite list_lookup_alter_ne, lookup_app_l by lia. split_and!; try done.
    case_decide; by rewrite app_nil_r.
  - intros q pl. rewrite list_lookup_alter. case_decide as Hd; intros Hq Hle.
    + subst q. rewrite lookup_app_r, Nat.sub_diag in Hq by lia. by simplify_eq/=.
    + rewrite lookup_app_r in Hq by lia. apply list_lookup_singleton_Some in Hq as [_ <-]. done.
Qed.

#[local] Hint Resolve emits_keyset emits_precondition emits_plan_for : vfdw.

Lemma emits_rename p op : emits p (rename_actions op) (vfdw_ledger_fold_rename p op).
Proof.
  unfold rename_actions, vfdw_ledger_fold_rename.
  destruct (op_oldkey op) as [old|] eqn:Eo; [|destruct (negb _); auto with vfdw].
  destruct (vfdw_ledger_is_rename op); simpl negb; cbv iota; [|auto with vfdw].
  apply emits_bind; [auto with vfdw|intros _].
  apply emits_bind; [auto with vfdw|intros _].
  apply emits_seq_r; [auto with vfdw|intros _].
  emits_auto.
Qed.

Lemma emits_miter {A} p (g : A → list VfdwLedgerStep) (f : A → M Ledger unit) xs :
  (∀ x, x ∈ xs → emits p (g x) (f x)) → emits p (concat (g <$> xs)) (miter f xs).
Proof.
  induction xs as [|x xs IH]; intros Hf; simpl; [auto with vfdw|].
  apply emits_bind; [apply Hf; set_solver|intros _]. apply IH. set_solver.
Qed.

Lemma concat_singletons {A B} (f : A → B) xs : concat ((λ x, [f x]) <$> xs) = f <$> xs.
Proof. induction xs as [|x xs IH]; [done|]. csimpl. by rewrite IH. Qed.

Lemma emits_fold_field p op f : emits p [field_action f] (fold_field p op f).
Proof.
  unfold fold_field, field_action. apply emits_seq; [auto with vfdw|intros [m first]].
  apply emits_seq; [|intros _]; [emits_auto|].
  destruct (wa_isnull f); apply emits_seq_r; auto with vfdw.
Qed.

Lemma emits_fold_hash p op :
  emits p ((field_action <$> op_fields op) ++ (ttl_action <$> op_ttls op))
    (vfdw_ledger_fold_hash p op).
Proof.
  unfold vfdw_ledger_fold_hash. rewrite <- (concat_singletons field_action), <- (concat_singletons ttl_action).
  apply emits_bind; [|intros _]; apply emits_miter; intros x _; [apply emits_fold_field|].
  unfold fold_ttl, ttl_action. destruct (wa_isnull x); auto with vfdw.
Qed.

Lemma emits_fold_list p op : emits p (list_actions op) (vfdw_ledger_fold_list p op).
Proof.
  unfold list_actions, vfdw_ledger_fold_list. destruct (op_member op) as [x|]; [|auto with vfdw].
  apply emits_seq; [auto with vfdw|intros [m first]].
  apply emits_seq; [auto with vfdw|intros _].
  case_bool_decide; [apply emits_seq; [emits_auto|auto with vfdw]|].
  apply emits_seq_r; auto with vfdw.
Qed.

(** [vfdw_ledger_fold_member] once the table type has been read. *)
Definition fold_member_as (is_zset : bool) (plan : nat) (op : VfdwWriteOp) : M Ledger unit :=
  match op_member op with
  | None => mret ()
  | Some member =>
      let rem := if is_zset then VFDW_ACT_ZREM else VFDW_ACT_SREM in
      let idm := row_member op member in
      vfdw_ledger_member_precondition plan op member is_zset;;;
      if bool_decide (op_kind op = VFDW_OP_DELETE) then
        vfdw_ledger_act1 plan rem member;;;
        upd_member (op_key op) idm (set_present false)
      else
        (if is_member_rename op member then
           vfdw_ledger_act1 plan rem idm;;;
           upd_member (op_key op) idm (set_present false);;;
           (_ ← vfdw_ledger_member (op_key op) member;
            upd_member (op_key op) member set_touched)
         else mret ());;;
        (if is_zset then
           vfdw_ledger_act2 plan VFDW_ACT_ZADD (default "0" (op_score op)) member
         else vfdw_ledger_act1 plan VFDW_ACT_SADD member);;;
        upd_member (op_key op) (if is_member_rename op member then member else idm)
          (set_present true)
  end.

Lemma emits_member_precondition p q op m z :
  emits p [] (vfdw_ledger_member_precondition q op m z).
Proof. unfold vfdw_ledger_member_precondition. emits_auto. Qed.

Lemma emits_fold_member_as z p op : emits p (member_actions z op) (fold_member_as z p op).
Proof.
  unfold member_actions, fold_member_as. destruct (op_member op) as [x|]; [|auto with vfdw].
  apply emits_seq; [apply emits_member_precondition|intros _].
  case_bool_decide; [apply emits_seq_r; destruct z; auto with vfdw|].
  apply emits_bind; [|intros _; apply emits_seq_r; destruct z; auto with vfdw].
  destruct (is_member_rename op x); [|auto with vfdw].
  apply emits_seq_r; [destruct z; auto with vfdw|intros _]. emits_auto.
Qed.

Lemma pair_actions_at l i :
  pair_actions (drop i l) =
  match l !! i, l !! (i + 1)%nat with
  | Some f, Some v => act VFDW_ACT_HSET [f; v] :: pair_actions (drop (i + 2) l)
  | _, _ => []
  end.
Proof.
  destruct (l !! i) as [f|] eqn:Ef; [|by rewrite drop_ge by by apply lookup_ge_None].
  rewrite (drop_S _ _ _ Ef). replace (i + 1)%nat with (S i) by lia.
  destruct (l !! S i) as [v|] eqn:Ev.
  - rewrite (drop_S _ _ _ Ev). by replace (i + 2)%nat with (S (S i)) by lia.
  - by rewrite drop_ge by by apply lookup_ge_None.
Qed.

(** What position [i] of a packed array contributes. *)
Definition packed_at (op : VfdwWriteOp) (i : nat) : list VfdwLedgerStep :=
  match op_packed op !! i with
  | None => []
  | Some e =>
      match op_tabletype op with
      | VFDW_TABLE_LIST => [act VFDW_ACT_RPUSH [e]]
      | VFDW_TABLE_SET => [act VFDW_ACT_SADD [e]]
      | VFDW_TABLE_HASH =>
          if bool_decide (i mod 2 = 0)%nat then
            match op_packed op !! (i + 1)%nat with
            | Some v => [act VFDW_ACT_HSET [e; v]]
            | None => []
            end
          else []
      | _ => []
      end
  end.

Lemma emits_pack_element p op i : emits p (packed_at op i) (pack_element p op i).
Proof.
  unfold packed_at, pack_element, vfdw_ledger_pack_pair.
  destruct (op_packed op !! i) as [e|] eqn:Ee; [|auto with vfdw].
  destruct (op_tabletype op); auto with vfdw.
  case_bool_decide; simpl; [|auto with vfdw].
  destruct (op_packed op !! (i + 1)%nat) as [v|] eqn:Ev; case_bool_decide as Hlt; auto with vfdw.
  apply lookup_lt_Some in Ev. lia.
Qed.

Lemma pairs_from op n i :
  op_tabletype op = VFDW_TABLE_HASH → (i mod 2 = 0)%nat →
  (n = length (op_packed op) - i)%nat →
  concat (packed_at op <$> seq i n) = pair_actions (drop i (op_packed op)).
Proof.
  intros Ht. revert i. induction (lt_wf n) as [n _ IH]. intros i Hi ->.
  rewrite pair_actions_at.
  destruct (length (op_packed op) - i)%nat as [|[|n]] eqn:En; csimpl.
  - rewrite lookup_ge_None_2 by lia. done.
  - unfold packed_at. rewrite Ht, (lookup_ge_None_2 (op_packed op) (i + 1)) by lia.
    destruct (op_packed op !! i); [by destruct (bool_decide _)|done].
  - destruct (lookup_lt_is_Some_2 (op_packed op) i) as [f Hf]; [lia|].
    destruct (lookup_lt_is_Some_2 (op_packed op) (i + 1)) as [v Hv]; [lia|].
    rewrite Hf, Hv.
    assert (packed_at op i = [act VFDW_ACT_HSET [f; v]]) as ->.
    { unfold packed_at. by rewrite Hf, Ht, Hv, bool_decide_true. }
    assert (packed_at op (S i) = []) as ->.
    { unfold packed_at. replace (S i) with (i + 1)%nat by lia. rewrite Hv, Ht.
      rewrite bool_decide_false; [done|]. rewrite <- Nat.Div0.add_mod_idemp_l, Hi. done. }
    simpl. f_equal. replace (S (S i)) with (i + 2)%nat by lia. apply IH; [lia| |lia].
    rewrite <- Nat.Div0.add_mod_idemp_l, Hi. done.
Qed.

Lemma packed_positions {A} (g : bytes → A) (f : nat → list A) (l : list bytes) :
  (∀ i e, l !! i = Some e → f i = [g e]) →
  concat (f <$> seq 0 (length l)) = g <$> l.
Proof.
  revert f. induction l as [|e l IH]; intros f Hf; [done|]. csimpl.
  rewrite (Hf 0%nat e) by done. simpl. f_equal.
  rewrite <- (IH (λ i, f (S i))); [|intros i x Hx; by apply Hf].
  rewrite <- fmap_S_seq, <- list_fmap_compose. done.
Qed.

Lemma concat_nils {A B} (f : A → list B) xs : (∀ x, f x = []) → concat (f <$> xs) = [].
Proof. intros Hf. induction xs as [|x xs IH]; csimpl; [done|]. by rewrite Hf, IH. Qed.

Lemma emits_fold_packed p op : emits p (packed_actions op) (vfdw_ledger_fold_packed p op).
Proof.
  unfold packed_actions, vfdw_ledger_fold_packed.
  apply (emits_bind p [act VFDW_ACT_DEL []]); [auto with vfdw|intros _].
  set (L := match op_tabletype op with VFDW_TABLE_LIST => _ | _ => _ end).
  assert (concat (packed_at op <$> seq 0 (length (op_packed op))) = L) as <-.
  { subst L. destruct (op_tabletype op) eqn:Et.
    1, 5, 6 : apply concat_nils; intros i; unfold packed_at; rewrite Et;
      by destruct (op_packed op !! i).
    - rewrite (pairs_from op _ 0); [by rewrite drop_0|done..|lia].
    - apply packed_positions. intros i e He. unfold packed_at. by rewrite He, Et.
    - apply packed_positions. intros i e He. unfold packed_at. by rewrite He, Et. }
  apply emits_miter. intros i _. apply emits_pack_element.
Qed.

Lemma key_delete_eq p op :
  vfdw_ledger_fold_key_delete p op =
  if deletes_key op then
    vfdw_ledger_act0 p VFDW_ACT_DEL;;;
    vfdw_ledger_keyset p op (op_key op) false;;;
    upd_plan p (set_state VFDW_KEY_DELETED);;;
    mret true
  else mret false.
Proof.
  unfold vfdw_ledger_fold_key_delete, deletes_key.
  by repeat case_bool_decide; destruct (op_packed_shape op).
Qed.

Lemma emits_revive p q : emits p [] (revive_plan q).
Proof. unfold revive_plan. emits_auto. Qed.

Lemma emits_insert_keyset p op :
  emits p (if bool_decide (op_kind op = VFDW_OP_INSERT) then keyset_actions op (op_key op) true else [])
    (when (bool_decide (op_kind op = VFDW_OP_INSERT)) (vfdw_ledger_keyset p op (op_key op) true)).
Proof. case_bool_decide; simpl; auto with vfdw. Qed.

#[local] Hint Resolve emits_revive emits_insert_keyset emits_fold_packed emits_fold_list
  emits_fold_hash emits_fold_member_as : vfdw.

(** What follows the rename, once the plan's table type [t] is known. *)
Definition fold_by_type_as (t : VfdwTableType) (plan : nat) (op : VfdwWriteOp) : M Ledger unit :=
  match op_tabletype op with
  | VFDW_TABLE_SET | VFDW_TABLE_ZSET => fold_member_as (bool_decide (t = VFDW_TABLE_ZSET)) plan op
  | _ => fold_by_type plan op
  end.

Lemma fold_by_type_typed t p op l k :
  lg_plans l !! p = Some k → kp_ttype k = t → fold_by_type p op l = fold_by_type_as t p op l.
Proof.
  intros Hk Ht. unfold fold_by_type_as, fold_by_type.
  destruct (op_tabletype op); try done;
    unfold vfdw_ledger_fold_member, plan_ttype; rewrite gets_bind, Hk, Ht; done.
Qed.

Lemma emits_by_type t p op : emits p (type_actions t op) (fold_by_type_as t p op).
Proof.
  unfold type_actions, fold_by_type_as, fold_by_type.
  destruct (op_tabletype op); auto with vfdw. destruct (op_value op); auto with vfdw.
Qed.

Lemma grow_plan p q L l l' k :
  grow p L l l' → lg_plans l !! q = Some k →
  ∃ k', lg_plans l' !! q = Some k' ∧ kp_key k' = kp_key k ∧ kp_ttype k' = kp_ttype k.
Proof. intros (_ & H & _) Hk. destruct (H _ _ Hk) as (k' & ? & ? & ? & _). eauto. Qed.

Definition note_rest (t : VfdwTableType) (p : nat) (op : VfdwWriteOp) : M Ledger unit :=
  if deletes_key op then
    vfdw_ledger_act0 p VFDW_ACT_DEL;;;
    vfdw_ledger_keyset p op (op_key op) false;;;
    upd_plan p (set_state VFDW_KEY_DELETED)
  else
    (if op_packed_shape op then vfdw_ledger_fold_packed p op else fold_by_type_as t p op);;;
    when (bool_decide (op_kind op = VFDW_OP_INSERT))
      (vfdw_ledger_keyset p op (op_key op) true);;;
    revive_plan p.

Lemma note_body_rest p op l1 l k :
  vfdw_ledger_fold_rename p op l = (Ok (), l1) → lg_plans l1 !! p = Some k →
  note_body p op l = note_rest (kp_ttype k) p op l1.
Proof.
  intros H1 Hk. unfold note_body, note_rest. rewrite key_delete_eq.
  unfold mbind at 1, M_bind at 1. rewrite H1. destruct (deletes_key op).
  - unfold vfdw_ledger_keyset. by destruct (op_keyset op).
  - unfold mbind at 1, M_bind at 1. simpl. destruct (op_packed_shape op); [done|].
    unfold mbind at 1, M_bind at 1. by erewrite fold_by_type_typed.
Qed.

Lemma emits_rest t p op :
  emits p (if deletes_key op then [act VFDW_ACT_DEL []] ++ keyset_actions op (op_key op) false
           else (if op_packed_shape op then packed_actions op else type_actions t op) ++
                (if bool_decide (op_kind op = VFDW_OP_INSERT)
                 then keyset_actions op (op_key op) true else []))
    (note_rest t p op).
Proof.
  unfold note_rest. destruct (deletes_key op).
  - apply emits_bind; [auto with vfdw|intros _]. apply emits_seq_r; auto with vfdw.
  - apply emits_bind; [|intros _; apply emits_seq_r; auto with vfdw].
    destruct (op_packed_shape op); [auto with vfdw|apply emits_by_type].
Qed.

Lemma note_body_grow p op l l' k :
  lg_plans l !! p = Some k → note_body p op l = (Ok (), l') →
  grow p (op_actions (kp_ttype k) op) l l'.
Proof.
  intros Hk H. destruct (bind_ok _ _ _ _ _ H) as ([] & l1 & H1 & _).
  assert (Hp : (p < length (lg_plans l))%nat) by by eapply lookup_lt_Some.
  pose proof (emits_rename p op _ _ _ Hp H1) as G1.
  destruct (grow_plan _ _ _ _ _ _ G1 Hk) as (k1 & Hk1 & _ & Ht1).
  rewrite (note_body_rest _ _ _ _ _ H1 Hk1), Ht1 in H.
  eapply grow_trans; [done|done|]. eapply emits_rest; [|done]. by eapply lookup_lt_Some.
Qed.

(* ---------------------------------------------------------------- *)
(** ** The actions recorded for a key *)

Definition plan_at (l : Ledger) (k : bytes) : option VfdwKeyPlan :=
  lg_keys l !! (k, None) ≫= λ p, lg_plans l !! p.

Definition acts_at (l : Ledger) (k : bytes) : list VfdwLedgerStep :=
  match plan_at l k with Some pl => kp_actions pl | None => [] end.

Definition type_at (l : Ledger) (k : bytes) : option VfdwTableType := kp_ttype <$> plan_at l k.

Lemma plan_at_index l k p pl :
  index_ok l → lg_plans l !! p = Some pl → kp_key pl = k → plan_at l k = Some pl.
Proof.
  intros [Hi _] Hp Hk. unfold plan_at. assert (lg_keys l !! (k, None) = Some p) as ->; [|done].
  apply Hi. by rewrite Hp, <- Hk.
Qed.

Lemma plan_at_inv l k pl :
  index_ok l → plan_at l k = Some pl → ∃ p, lg_plans l !! p = Some pl ∧ kp_key pl = k.
Proof.
  intros [Hi _] (p & Hp & Hpl)%bind_Some. exists p. split; [done|].
  apply Hi in Hp. rewrite Hpl in Hp. by simplify_eq/=.
Qed.

Lemma grow_at p L l l' pl k :
  index_ok l → index_ok l' → grow p L l l' → lg_plans l !! p = Some pl →
  acts_at l' k = acts_at l k ++ (if decide (k = kp_key pl) then L else []) ∧
  (∀ t, type_at l k = Some t → type_at l' k = Some t).
Proof.
  intros Hi Hi' (Hk & Ho & Hn) Hp. unfold acts_at, type_at.
  destruct (plan_at l k) as [pk|] eqn:Ek.
  - destruct (plan_at_inv _ _ _ Hi Ek) as (q & Hq & Hqk).
    destruct (Ho _ _ Hq) as (pk' & Hq' & He & Ht & Ha).
    rewrite (plan_at_index l' k q pk' Hi' Hq') by congruence. simpl.
    split; [|by rewrite Ht]. rewrite Ha. f_equal.
    destruct (decide (q = p)) as [->|Hne]; [rewrite decide_True by congruence; done|].
    rewrite decide_False; [done|]. intros ->. apply Hne.
    destruct Hi as [Hi _].
    assert (lg_keys l !! (kp_key pl, None) = Some q) by (apply Hi; rewrite Hq; simpl; congruence).
    assert (lg_keys l !! (kp_key pl, None) = Some p) by (apply Hi; by rewrite Hp). congruence.
  - split; [|done]. rewrite decide_False.
    2:{ intros ->. by rewrite (plan_at_index l _ p pl Hi Hp eq_refl) in Ek. }
    destruct (plan_at l' k) as [pk'|] eqn:Ek'; [|done]. simpl.
    destruct (plan_at_inv _ _ _ Hi' Ek') as (q & Hq & Hqk). apply (Hn q); [done|].
    destruct (decide (length (lg_plans l) ≤ q)%nat) as [|Hlt]; [done|]. exfalso.
    destruct (lookup_lt_is_Some_2 (lg_plans l) q) as [pq Hpq]; [lia|].
    destruct (Ho _ _ Hpq) as (x & Hx & Hxk & _). simplify_eq.
    by rewrite (plan_at_index l _ q pq Hi Hpq (eq_sym Hxk)) in Ek.
Qed.

Lemma plan_for_at k t l p first l1 :
  ledger_wf l → vfdw_ledger_plan_for k t l = (Ok (p, first), l1) →
  index_ok l1 ∧ first = bool_decide (plan_at l k = None) ∧
  (∃ pl, lg_plans l1 !! p = Some pl ∧ kp_key pl = k ∧
         kp_ttype pl = default t (type_at l k)) ∧
  (∀ k', acts_at l1 k' = acts_at l k') ∧
  (∀ k', k' ≠ k → plan_at l1 k' = plan_at l k') ∧
  (first = false → l1 = l).
Proof.
  intros Hl E. pose proof (plan_for_wf k t l Hl) as Hw. unfold wp in Hw. rewrite E in Hw.
  pose proof Hl as [Hi _]. assert (Hi1 : index_ok l1) by (destruct first; apply Hw).
  unfold vfdw_ledger_plan_for, mbind, M_bind, get in E. simpl in E.
  destruct (lg_keys l !! (k, None)) as [q|] eqn:Ek.
  - injection E as <- <- <-. destruct (proj1 (proj1 Hi k q) Ek) as [].
    assert (∃ pl, lg_plans l !! q = Some pl ∧ kp_key pl = k) as (pl & Hq & Hk).
    { destruct (lg_plans l !! q) as [pl|] eqn:Eq;
        pose proof (proj1 (proj1 Hi k q) Ek) as H; rewrite Eq in H; simplify_eq/=. eauto. }
    pose proof (plan_at_index l k q pl Hi Hq Hk) as Hat.
    split_and!; try done.
    + rewrite bool_decide_false; [done|by rewrite Hat].
    + exists pl. unfold type_at. by rewrite Hat.
  - injection E as <- <- <-.
    assert (Hat : plan_at l k = None) by (unfold plan_at; by rewrite Ek).
    assert (Hne : ∀ k', k' ≠ k → plan_at
      (MkLedger (lg_cxt l) (<[(k, None):=length (lg_plans l)]> (lg_keys l)) (lg_members l)
        (alter (add_check (vfdw_ledger_step (check_code VFDW_CHK_TYPE_OK) 0)) (length (lg_plans l))
           (lg_plans l ++ [fresh_plan k t])) (lg_count l + 1) (lg_rebuilding l)) k' = plan_at l k').
    { intros k' Hk'. unfold plan_at. simpl. rewrite lookup_insert_ne by congruence.
      destruct (lg_keys l !! (k', None)) as [q|] eqn:Eq; simpl; [|done].
      destruct (lg_plans l !! q) as [pl|] eqn:Epl.
      - assert (q < length (lg_plans l))%nat by by eapply lookup_lt_Some.
        by rewrite list_lookup_alter_ne, lookup_app_l, Epl by lia.
      - pose proof (proj1 (proj1 Hi k' q) Eq) as H. by rewrite Epl in H. }
    split_and!; try done.
    + by rewrite bool_decide_true.
    + eexists. simpl. rewrite list_lookup_alter_eq, lookup_app_r, Nat.sub_diag by lia. simpl.
      split_and!; [done..|]. unfold type_at. by rewrite Hat.
    + intros k'. destruct (decide (k' = k)) as [->|Hk'].
      * unfold acts_at, plan_at. simpl. rewrite lookup_insert_eq. simpl.
        rewrite list_lookup_alter_eq, lookup_app_r, Nat.sub_diag by lia. simpl. by rewrite Ek.
      * unfold acts_at. by rewrite Hne.
Qed.

(** [vfdw_ledger_note] in two halves: finding the plan and its precondition, and
    the body. *)
Definition note_head (op : VfdwWriteOp) : M Ledger nat :=
  '(plan, first) ← vfdw_ledger_plan_for (op_key op) (op_tabletype op);
  vfdw_ledger_add_relid plan (op_relid op);;;
  vfdw_ledger_check_duplicate plan op first;;;
  vfdw_ledger_precondition plan first (op_kind op) (vfdw_ledger_is_rename op);;;
  mret plan.

Lemma note_split op l :
  vfdw_ledger_note op l = (p ← note_head op; note_body p op) (vfdw_ledger_init l).2.
Proof.
  unfold vfdw_ledger_note, note_head. unfold mbind at 1, M_bind at 1. simpl.
  set (l0 := if lg_cxt l then _ else _). unfold mbind, M_bind.
  destruct (vfdw_ledger_plan_for _ _ l0) as [[[p first]|e] l1]; [|done].
  destruct (vfdw_ledger_add_relid _ _ l1) as [[?|e] l2]; [|done].
  destruct (vfdw_ledger_check_duplicate _ _ _ l2) as [[?|e] l3]; [|done].
  by destruct (vfdw_ledger_precondition _ _ _ _ l3) as [[?|e] l4].
Qed.

Lemma check_duplicate_same p op first l : (vfdw_ledger_check_duplicate p op first l).2 = l.
Proof.
  unfold vfdw_ledger_check_duplicate. destruct (_ || first); [done|].
  unfold plan_state, plan_ttype, mbind, M_bind, gets. simpl. by repeat case_bool_decide.
Qed.

Lemma emits_check_duplicate p q op first : emits p [] (vfdw_ledger_check_duplicate q op first).
Proof. apply emits_same. intros l. by rewrite check_duplicate_same. Qed.

Lemma note_head_at op l p l4 :
  ledger_wf l → note_head op l = (Ok p, l4) →
  ledger_wf l4 ∧
  (∃ pl, lg_plans l4 !! p = Some pl ∧ kp_key pl = op_key op ∧
         kp_ttype pl = default (op_tabletype op) (type_at l (op_key op))) ∧
  (∀ k', acts_at l4 k' = acts_at l k') ∧
  (∀ k' t, type_at l k' = Some t → type_at l4 k' = Some t).
Proof.
  intros Hl ([q first] & l1 & H1 & H2)%bind_ok.
  destruct (plan_for_at _ _ _ _ _ _ Hl H1) as (Hi1 & Hf & (pl & Hpl & Hk & Ht) & Ha & Hoth & _).
  pose proof (plan_for_wf (op_key op) (op_tabletype op) l Hl) as Hw1. unfold wp in Hw1.
  rewrite H1 in Hw1.
  assert (Hq : (q < length (lg_plans l1))%nat) by by eapply lookup_lt_Some.
  assert (Hw4 : ledger_wf l4).
  { destruct (bind_ok _ _ _ _ _ H2) as ([] & l2 & E2 & H3).
    destruct (bind_ok _ _ _ _ _ H3) as ([] & l3 & E3 & H4).
    destruct (bind_ok _ _ _ _ _ H4) as ([] & l5 & E5 & H5). injection H5 as <- <-.
    pose proof (pres_relid _ q (op_relid op) l1 Hw1) as Hw2. rewrite E2 in Hw2.
    pose proof (check_duplicate_same q op first l2) as Hs. rewrite E3 in Hs. simpl in *. subst l3.
    pose proof (precondition_pres q first (op_kind op) (vfdw_ledger_is_rename op) l2) as Hp.
    destruct first; specialize (Hp Hw2); unfold wp in Hp; by rewrite E5 in Hp. }
  assert (Hg : grow q [] l1 l4 ∧ q = p).
  { assert (emits q [] (vfdw_ledger_add_relid q (op_relid op);;;
       vfdw_ledger_check_duplicate q op first;;;
       vfdw_ledger_precondition q first (op_kind op) (vfdw_ledger_is_rename op);;; mret q)) as He.
    { repeat (apply emits_seq; [auto using emits_check_duplicate with vfdw|intros _]).
      auto with vfdw. }
    split; [by eapply He|].
    by apply bind_ok in H2 as (? & ? & _ & H2); apply bind_ok in H2 as (? & ? & _ & H2);
      apply bind_ok in H2 as (? & ? & _ & H2); injection H2 as -> _. }
  destruct Hg as [Hg <-].
  destruct (grow_plan _ _ _ _ _ _ Hg Hpl) as (pl4 & Hpl4 & Hk4 & Ht4).
  split_and!; [done| | |].
  - exists pl4. split_and!; congruence.
  - intros k'. destruct (grow_at _ _ _ _ _ k' Hi1 (proj1 Hw4) Hg Hpl) as [-> _].
    rewrite Ha. case_decide; by rewrite app_nil_r.
  - intros k' t Hk'. apply (grow_at _ _ _ _ _ k' Hi1 (proj1 Hw4) Hg Hpl).
    destruct (decide (k' = op_key op)) as [->|Hne].
    + unfold type_at at 1. rewrite (plan_at_index l1 _ q pl Hi1 Hpl Hk). simpl. by rewrite Ht, Hk'.
    + unfold type_at. by rewrite Hoth.
Qed.

(** The closed form, for one operation: the actions of its key grow by the
    operation's own, under the type the key's plan has, and no plan changes its
    type. *)
Lemma note_at op l l' :
  ledger_ok l → vfdw_ledger_note op l = (Ok (), l') →
  ∀ k, (acts_at l' k = acts_at l k ++
    (if decide (k = op_key op)
     then op_actions (default (op_tabletype op) (type_at l k)) op else [])) ∧
  (∀ t, type_at l k = Some t → type_at l' k = Some t) ∧
  (k = op_key op → type_at l' k = Some (default (op_tabletype op) (type_at l k))).
Proof.
  intros Hl H k. pose proof (pres_note op l Hl) as Hl'. rewrite H in Hl'. simpl in Hl'.
  rewrite note_split in H. pose proof (init_wf l Hl) as Hw.
  assert (Hsame : ∀ k', plan_at (vfdw_ledger_init l).2 k' = plan_at l k').
  { intros k'. unfold vfdw_ledger_init, modify, plan_at. simpl. destruct (lg_cxt l) eqn:Ec; [done|].
    destruct Hl as [(_ & -> & _)|Hl]; [done|]. destruct Hl as [(_ & _ & Hc) _]. congruence. }
  destruct (bind_ok _ _ _ _ _ H) as (p & l4 & H1 & H2).
  destruct (note_head_at _ _ _ _ Hw H1) as (Hw4 & (pl & Hpl & Hk & Ht) & Ha & Hst).
  pose proof (note_body_grow _ _ _ _ _ Hpl H2) as Hg.
  assert (Hi' : index_ok l').
  { pose proof (pres_note_body p op l4 Hw4) as Hw'. rewrite H2 in Hw'. apply Hw'. }
  assert (Htype : type_at (vfdw_ledger_init l).2 k = type_at l k) by (unfold type_at; by rewrite Hsame).
  destruct (grow_at _ _ _ _ _ k (proj1 Hw4) Hi' Hg Hpl) as [-> Hst'].
  rewrite Ha, Hk, Ht. split_and!.
  - unfold acts_at, type_at. rewrite !Hsame. destruct (decide (k = op_key op)) as [->|]; done.
  - intros t Hkt. by apply Hst', Hst; rewrite Htype.
  - intros ->. apply Hst'. unfold type_at at 1.
    rewrite (plan_at_index l4 _ p pl (proj1 Hw4) Hpl Hk). simpl. by rewrite Ht, Htype.
Qed.

Lemma note_acts_at op l l' :
  ledger_ok l → vfdw_ledger_note op l = (Ok (), l') →
  ∀ k, acts_at l' k = acts_at l k ++
    (if decide (k = op_key op)
     then op_actions (default (op_tabletype op) (type_at l k)) op else []).
Proof. intros Hl H k. by apply note_at. Qed.

(* ---------------------------------------------------------------- *)
(** ** The actions of a log *)

(** A relation between keys and table types that every operation satisfies for
    the keys it plans is one the plans satisfy. *)
Definition op_within (R : bytes → VfdwTableType → Prop) (op : VfdwWriteOp) : Prop :=
  R (op_key op) (op_tabletype op) ∧ ∀ old, op_oldkey op = Some old → R old (op_tabletype op).

Definition plans_within (R : bytes → VfdwTableType → Prop) (l : Ledger) : Prop :=
  Forall (λ pl, R (kp_key pl) (kp_ttype pl)) (lg_plans l).

Section types.
Context (R : bytes → VfdwTableType → Prop).

Lemma types_upd p f :
  (∀ k, kp_key (f k) = kp_key k ∧ kp_ttype (f k) = kp_ttype k) → pres (plans_within R) (upd_plan p f).
Proof.
  intros Hf l Hl. unfold plans_within in *. simpl. rewrite Forall_lookup in *.
  intros q k. rewrite list_lookup_alter. case_decide; [|apply Hl].
  intros [k0 [Hk0 ->]]%fmap_Some. destruct (Hf k0) as [-> ->]. by apply (Hl p).
Qed.

Lemma types_plan_for k t : R k t → pres (plans_within R) (vfdw_ledger_plan_for k t).
Proof.
  intros Ht. unfold vfdw_ledger_plan_for. apply pres_bind; [apply pres_get|intros l0].
  destruct (lg_keys l0 !! (k, None)); [apply pres_ret|].
  apply pres_bind; [|intros _; apply pres_bind; [by apply types_upd|intros _; apply pres_ret]].
  intros l Hl. apply Forall_app. split; [done|]. by constructor.
Qed.

Lemma types_same {A} (m : M Ledger A) : (∀ l, lg_plans (m l).2 = lg_plans l) → pres (plans_within R) m.
Proof. intros H l Hl. unfold plans_within. by rewrite H. Qed.

Lemma types_member k s : pres (plans_within R) (vfdw_ledger_member k s).
Proof.
  apply types_same. intros l. unfold vfdw_ledger_member, mbind, M_bind, get. simpl.
  by destruct (lg_members l !! _).
Qed.

Lemma types_upd_member k s f : pres (plans_within R) (upd_member k s f).
Proof. by apply types_same. Qed.

Lemma types_action p s : pres (plans_within R) (vfdw_ledger_add_action p s).
Proof. by apply types_upd. Qed.
Lemma types_check p s : pres (plans_within R) (vfdw_ledger_add_check p s).
Proof. by apply types_upd. Qed.
Lemma types_state p s : pres (plans_within R) (upd_plan p (set_state s)).
Proof. by apply types_upd. Qed.
Lemma types_require p s : pres (plans_within R) (upd_plan p (set_require s)).
Proof. by apply types_upd. Qed.
Lemma types_relid p s : pres (plans_within R) (vfdw_ledger_add_relid p s).
Proof. apply types_upd. intros k. unfold add_relid. by case_bool_decide. Qed.

#[local] Hint Resolve types_member types_upd_member types_action types_check types_state
  types_require types_relid types_plan_for : vfdw.
#[local] Hint Unfold vfdw_ledger_act0 vfdw_ledger_act1 vfdw_ledger_act2 vfdw_ledger_chk1
  plan_state plan_ttype : vfdw.

Lemma types_keyset p op k b : pres (plans_within R) (vfdw_ledger_keyset p op k b).
Proof. unfold vfdw_ledger_keyset. pres_auto. Qed.
#[local] Hint Resolve types_keyset : vfdw.

Lemma types_rename p op :
  op_within R op → pres (plans_within R) (vfdw_ledger_fold_rename p op).
Proof.
  intros [_ Ho]. unfold vfdw_ledger_fold_rename, vfdw_ledger_precondition.
  destruct (negb _); [apply pres_ret|].
  destruct (op_oldkey op) as [old|] eqn:Eo; [|apply pres_ret].
  pose proof (Ho old eq_refl). pres_auto.
Qed.

Lemma types_by_type p op : pres (plans_within R) (fold_by_type p op).
Proof.
  unfold fold_by_type, vfdw_ledger_fold_hash, vfdw_ledger_fold_fields,
    vfdw_ledger_fold_ttls, fold_ttl, fold_field, vfdw_ledger_fold_list,
    vfdw_ledger_fold_member, vfdw_ledger_member_precondition.
  pres_auto.
Qed.
#[local] Hint Resolve types_rename types_by_type : vfdw.

Lemma types_note op : op_within R op → pres (plans_within R) (vfdw_ledger_note op).
Proof.
  intros Hop. unfold vfdw_ledger_note, vfdw_ledger_check_duplicate, vfdw_ledger_precondition,
    vfdw_ledger_fold_key_delete, vfdw_ledger_fold_packed_op, vfdw_ledger_fold_packed,
    pack_element, vfdw_ledger_pack_pair, revive_plan.
  apply pres_bind; [apply types_same; intros l; simpl; by destruct (lg_cxt l)|intros _].
  apply pres_bind; [exact (types_plan_for _ _ (proj1 Hop))|intros [p first]]. pres_auto.
Qed.
End types.

(** Every table that writes a key gives it the same type. *)
Definition op_typed (ty : bytes → VfdwTableType) (op : VfdwWriteOp) : Prop :=
  op_tabletype op = ty (op_key op) ∧ ∀ old, op_oldkey op = Some old → op_tabletype op = ty old.

Definition types_ok (ty : bytes → VfdwTableType) : Ledger → Prop :=
  plans_within (λ k t, t = ty k).

Lemma typed_default ty l op :
  ledger_ok l → types_ok ty l → op_typed ty op →
  default (op_tabletype op) (type_at l (op_key op)) = op_tabletype op.
Proof.
  intros Hl Hty [Ht _]. unfold type_at. destruct (plan_at l (op_key op)) as [pl|] eqn:E; [|done].
  destruct Hl as [(_ & Hk & _)|[Hi _]]; [unfold plan_at in E; by rewrite Hk in E|].
  destruct (plan_at_inv _ _ _ Hi E) as (p & Hp & Hkey). simpl.
  rewrite Ht, <- Hkey. by apply (Forall_lookup_1 _ _ _ _ Hty Hp).
Qed.

(** The actions a log asks for on key [k], in the order the log has them: what
    each operation sends under its own table's type, and under one type [t] for
    all of them. *)
Definition log_actions (ops : list VfdwWriteOp) (k : bytes) : list VfdwLedgerStep :=
  concat ((λ op, op_actions (op_tabletype op) op) <$> filter (λ op, op_key op = k) ops).

Definition log_actions_as (t : VfdwTableType) (ops : list VfdwWriteOp) (k : bytes)
    : list VfdwLedgerStep :=
  concat (op_actions t <$> filter (λ op, op_key op = k) ops).

Lemma log_actions_agree t ops k :
  (∀ op, op ∈ ops → op_key op = k → op_tabletype op = t) →
  log_actions_as t ops k = log_actions ops k.
Proof.
  intros H. unfold log_actions, log_actions_as. f_equal. apply list_fmap_ext.
  intros i op Hop%list_elem_of_lookup_2. apply list_elem_of_filter in Hop as [Hk Hop].
  by rewrite (H op Hop Hk).
Qed.

(** The closed form, for a log. *)
Lemma log_at ops l l' k :
  ledger_ok l → miter vfdw_ledger_note ops l = (Ok (), l') →
  (∀ t, type_at l k = Some t → type_at l' k = Some t) ∧
  ∀ t, type_at l' k = Some t → acts_at l' k = acts_at l k ++ log_actions_as t ops k.
Proof.
  revert l. induction ops as [|op ops IH]; intros l Hl H; simpl in H.
  { injection H as <-. split; [done|]. intros t _. by rewrite app_nil_r. }
  destruct (bind_ok _ _ _ _ _ H) as ([] & l1 & H1 & H2).
  pose proof (pres_note op l Hl) as Hl1. rewrite H1 in Hl1.
  destruct (IH l1 Hl1 H2) as [Hs Ha]. destruct (note_at op l l1 Hl H1 k) as (Hact & Hst & Hk).
  split; [by intros t Ht; apply Hs, Hst|]. intros t Ht. rewrite (Ha t Ht), Hact.
  unfold log_actions_as. rewrite filter_cons. case_decide as Hd.
  - rewrite decide_True by done. csimpl. rewrite <- app_assoc.
    assert (Heq : default (op_tabletype op) (type_at l k) = t); [|by rewrite Heq].
    specialize (Hs _ (Hk Hd)). congruence.
  - rewrite decide_False by done. by rewrite app_nil_r.
Qed.

(** A key without a plan at the end has none of the operations. *)
Lemma untouched ops l l' k :
  ledger_ok l → miter vfdw_ledger_note ops l = (Ok (), l') → type_at l' k = None →
  acts_at l' k = acts_at l k ∧ log_actions ops k = [].
Proof.
  revert l. induction ops as [|op ops IH]; intros l Hl H Hn; simpl in H; [by injection H as <-|].
  destruct (bind_ok _ _ _ _ _ H) as ([] & l1 & H1 & H2).
  pose proof (pres_note op l Hl) as Hl1. rewrite H1 in Hl1.
  destruct (IH l1 Hl1 H2 Hn) as [Ha Hact]. destruct (note_at op l l1 Hl H1 k) as (Hac & _ & Hk).
  destruct (decide (k = op_key op)) as [Hd|Hd].
  - apply (log_at ops l1 l' k Hl1 H2) in Hk; [congruence|done].
  - rewrite Ha, Hac, app_nil_r. split; [done|]. unfold log_actions. by rewrite filter_cons, decide_False by done.
Qed.

Lemma log_acts_at ty ops l l' :
  ledger_ok l → types_ok ty l → Forall (op_typed ty) ops →
  miter vfdw_ledger_note ops l = (Ok (), l') →
  ∀ k, acts_at l' k = acts_at l k ++ log_actions ops k.
Proof.
  intros Hl Hty Hops H k.
  assert (Hty' : types_ok ty l').
  { pose proof (pres_miter (types_ok ty) vfdw_ledger_note ops
      (λ op Hop, types_note _ op (proj1 (list.Forall_forall _ _) Hops op Hop)) l Hty) as Hm.
    by rewrite H in Hm. }
  pose proof (pres_miter ledger_ok vfdw_ledger_note ops (λ x _, pres_note x) l Hl) as Hl'.
  rewrite H in Hl'. simpl in Hl'. destruct (log_at ops l l' k Hl H) as [_ Ha].
  assert (Hag : log_actions_as (ty k) ops k = log_actions ops k).
  { apply log_actions_agree. intros op Hop <-. exact (proj1 (proj1 (list.Forall_forall _ _) Hops op Hop)). }
  destruct (type_at l' k) as [t|] eqn:Et.
  - rewrite (Ha t eq_refl), <- Hag. f_equal. f_equal.
    apply fmap_Some in Et as (pl & Hpl & ->).
    destruct Hl' as [(_ & Hk & _)|[Hi _]]; [unfold plan_at in Hpl; by rewrite Hk in Hpl|].
    destruct (plan_at_inv _ _ _ Hi Hpl) as (q & Hq & <-). exact (Forall_lookup_1 _ _ _ _ Hty' Hq).
  - destruct (untouched ops l l' k Hl H Et) as [-> ->]. by rewrite app_nil_r.
Qed.

(** The actions of a plan are those of the log, under the plan's type. *)
Lemma plan_log_actions ops l plan :
  miter vfdw_ledger_note ops ledger_empty = (Ok (), l) → plan ∈ lg_plans l →
  kp_actions plan = log_actions_as (kp_ttype plan) ops (kp_key plan).
Proof.
  intros H [p Hp]%list_elem_of_lookup. assert (He0 : ledger_ok ledger_empty) by by left.
  pose proof (pres_miter ledger_ok vfdw_ledger_note ops (λ x _, pres_note x) ledger_empty He0) as Hok.
  rewrite H in Hok. simpl in Hok.
  destruct Hok as [(_ & _ & _ & He & _)|[Hi _]]; [by rewrite He in Hp|].
  destruct (log_at ops ledger_empty l (kp_key plan) He0 H) as [_ Ha].
  specialize (Ha (kp_ttype plan)). unfold type_at, acts_at in Ha.
  rewrite (plan_at_index l _ p plan Hi Hp eq_refl) in Ha. exact (Ha eq_refl).
Qed.

(* ---------------------------------------------------------------- *)
(** ** Property *)

(** C8: when a whole log folds without a conflict, the actions recorded in the
    plan of each key are exactly those the log's operations on that key ask for,
    in log order: nothing is lost, duplicated, reordered within a key or moved to
    another key.  They are the actions under the plan's own type, which is the
    type of a table that touched the key; when every table that writes the key
    has that type, they are what each operation asks for under its own.  Where
    the tables disagree the plan keeps the type of the first
    (two_types_lose_the_score). *)
Theorem plan_actions_are_the_log (ops : list VfdwWriteOp) (l : Ledger) (p : nat)
    (plan : VfdwKeyPlan) :
  miter vfdw_ledger_note ops ledger_empty = (Ok (), l) →
  lg_plans l !! p = Some plan →
  kp_actions plan = log_actions_as (kp_ttype plan) ops (kp_key plan) ∧
  (∃ op, op ∈ ops ∧ (op_key op = kp_key plan ∨ op_oldkey op = Some (kp_key plan)) ∧
     op_tabletype op = kp_ttype plan) ∧
  ((∀ op, op ∈ ops → op_key op = kp_key plan → op_tabletype op = kp_ttype plan) →
   kp_actions plan = log_actions ops (kp_key plan)).
Proof.
  intros H Hp. pose proof (plan_log_actions ops l plan H (list_elem_of_lookup_2 _ p _ Hp)) as Ha.
  split; [done|]. split.
  - set (R := λ k t, ∃ op, op ∈ ops ∧ (op_key op = k ∨ op_oldkey op = Some k) ∧ op_tabletype op = t).
    assert (HR : ∀ op, op ∈ ops → pres (plans_within R) (vfdw_ledger_note op)).
    { intros op Hop. apply types_note. split; [|intros old Ho]; exists op; auto. }
    pose proof (pres_miter (plans_within R) vfdw_ledger_note ops HR ledger_empty) as Hm.
    rewrite H in Hm. exact (Forall_lookup_1 _ _ _ _ (Hm ltac:(by constructor)) Hp).
  - intros Hag. rewrite Ha. by apply log_actions_agree.
Qed.

Definition sample_log : list VfdwWriteOp :=
  [blank_op VFDW_OP_DELETE VFDW_TABLE_STRING "a";
   blank_op VFDW_OP_UPDATE VFDW_TABLE_STRING "b";
   WriteOp None None VFDW_OP_INSERT 1 VFDW_TABLE_STRING 1 1 0 "a" None None None (Some "v")
     None [] [] [] false None [] (Some "idx")].

Lemma plan_actions_are_the_log_witness :
  ∃ l plan, lg_plans l !! 0%nat = Some plan ∧
    kp_actions plan = log_actions sample_log (kp_key plan) ∧
    kp_actions plan = [act VFDW_ACT_DEL []; act VFDW_ACT_SET ["v"];
                       act VFDW_ACT_KSET_ADD ["idx"; "a"]].
Proof.
  set (l := (miter vfdw_ledger_note sample_log ledger_empty).2).
  destruct (lg_plans l !! 0%nat) as [plan|] eqn:E; [|by vm_compute in E].
  exists l, plan. split; [done|].
  assert (E' := E). vm_compute in E'. injection E' as Hplan. split.
  - apply (plan_actions_are_the_log sample_log l 0 plan).
    + vm_compute. reflexivity.
    + exact E.
    + intros op Hop _. rewrite <- Hplan. unfold sample_log in Hop.
      rewrite !elem_of_cons, elem_of_nil in Hop. by destruct Hop as [->|[->|[->|[]]]].
  - by rewrite <- Hplan.
Defined.

(** Two tables of different types on one key: the plan keeps the type of the
    first.  A row is inserted through a set table and then one through a sorted
    set table; both are accepted, and what is sent for the second is an SADD, in
    which its score is lost. *)
Definition member_ins (t : VfdwTableType) (member : bytes) (score : option bytes) : VfdwWriteOp :=
  WriteOp None None VFDW_OP_INSERT 1 t 1 1 0 "k" None (Some member) None None score
    [] [] [] false None [] None.

Theorem two_types_lose_the_score :
  let ops := [member_ins VFDW_TABLE_SET "m" None; member_ins VFDW_TABLE_ZSET "n" (Some "2.5")] in
  (miter vfdw_ledger_note ops ledger_empty).1 = Ok () ∧
  log_actions ops "k" = [act VFDW_ACT_SADD ["m"]; act VFDW_ACT_ZADD ["2.5"; "n"]] ∧
  acts_at (miter vfdw_ledger_note ops ledger_empty).2 "k" =
    [act VFDW_ACT_SADD ["m"]; act VFDW_ACT_SADD ["n"]].
Proof. split_and!; vm_compute; reflexivity. Qed.
