(* ===== verification/Wbuf.v ===== *)
(** The transaction-scoped deferred write buffer (src/vfdw_wbuf.c).

    Operations live in a heap of records linked through prev and next, as in
    the C: [wb_heap] holds every record allocated since the memory context was
    last reset, [wb_head] and [wb_tail] are the list's ends.  The nest level,
    the command id and the number of bytes the allocator accounts for are
    PostgreSQL's and come in as arguments; the two 64-bit generations wrap. *)
From S2P Require Import Prelude Opcode WriteOp Ledger.
Local Open Scope Z_scope.

Record VfdwWriteUnit := WriteUnit {
  u_bound : bool;
  u_serverid : Z;
  u_umid : Z;
  u_userid : Z;
  u_database : Z;
  u_max_ops : Z;
  u_max_bytes : Z;
  u_level : Z;
}.

Definition unit_zero : VfdwWriteUnit := WriteUnit false 0 0 0 0 0 0 0.

Record Wbuf := MkWbuf {
  wb_cxt : bool;
  wb_mem : Z;
  wb_baseline : Z;
  wb_heap : gmap nat VfdwWriteOp;
  wb_fresh : nat;
  wb_head : option nat;
  wb_tail : option nat;
  wb_nlive : Z;
  wb_gen : Z;
  wb_shrink_gen : Z;
  wb_unit : VfdwWriteUnit;
  wb_ledger : Ledger;
  wb_overlay : Overlay;
  wb_registered : bool;
}.

Inductive SubXactEvent :=
  | SUBXACT_EVENT_START_SUB | SUBXACT_EVENT_COMMIT_SUB
  | SUBXACT_EVENT_ABORT_SUB | SUBXACT_EVENT_PRE_COMMIT_SUB.

(* ---------------------------------------------------------------- *)
(** ** Assignments to the statics *)

Definition set_mem (cxt : bool) (mem base : Z) (w : Wbuf) : Wbuf :=
  MkWbuf cxt mem base (wb_heap w) (wb_fresh w) (wb_head w) (wb_tail w) (wb_nlive w)
    (wb_gen w) (wb_shrink_gen w) (wb_unit w) (wb_ledger w) (wb_overlay w) (wb_registered w).

Definition set_heap (h : gmap nat VfdwWriteOp) (fresh : nat) (w : Wbuf) : Wbuf :=
  MkWbuf (wb_cxt w) (wb_mem w) (wb_baseline w) h fresh (wb_head w) (wb_tail w) (wb_nlive w)
    (wb_gen w) (wb_shrink_gen w) (wb_unit w) (wb_ledger w) (wb_overlay w) (wb_registered w).

Definition set_list (head tail : option nat) (nlive : Z) (w : Wbuf) : Wbuf :=
  MkWbuf (wb_cxt w) (wb_mem w) (wb_baseline w) (wb_heap w) (wb_fresh w) head tail nlive
    (wb_gen w) (wb_shrink_gen w) (wb_unit w) (wb_ledger w) (wb_overlay w) (wb_registered w).

Definition set_gens (gen shrink : Z) (w : Wbuf) : Wbuf :=
  MkWbuf (wb_cxt w) (wb_mem w) (wb_baseline w) (wb_heap w) (wb_fresh w) (wb_head w) (wb_tail w)
    (wb_nlive w) gen shrink (wb_unit w) (wb_ledger w) (wb_overlay w) (wb_registered w).

Definition set_unit (u : VfdwWriteUnit) (w : Wbuf) : Wbuf :=
  MkWbuf (wb_cxt w) (wb_mem w) (wb_baseline w) (wb_heap w) (wb_fresh w) (wb_head w) (wb_tail w)
    (wb_nlive w) (wb_gen w) (wb_shrink_gen w) u (wb_ledger w) (wb_overlay w) (wb_registered w).

Definition set_ledger (l : Ledger) (w : Wbuf) : Wbuf :=
  MkWbuf (wb_cxt w) (wb_mem w) (wb_baseline w) (wb_heap w) (wb_fresh w) (wb_head w) (wb_tail w)
    (wb_nlive w) (wb_gen w) (wb_shrink_gen w) (wb_unit w) l (wb_overlay w) (wb_registered w).

Definition set_overlay (o : Overlay) (w : Wbuf) : Wbuf :=
  MkWbuf (wb_cxt w) (wb_mem w) (wb_baseline w) (wb_heap w) (wb_fresh w) (wb_head w) (wb_tail w)
    (wb_nlive w) (wb_gen w) (wb_shrink_gen w) (wb_unit w) (wb_ledger w) o (wb_registered w).

Definition set_registered (w : Wbuf) : Wbuf :=
  MkWbuf (wb_cxt w) (wb_mem w) (wb_baseline w) (wb_heap w) (wb_fresh w) (wb_head w) (wb_tail w)
    (wb_nlive w) (wb_gen w) (wb_shrink_gen w) (wb_unit w) (wb_ledger w) (wb_overlay w) true.

Definition wbuf_empty : Wbuf :=
  MkWbuf false 0 0 ∅ 0 None None 0 0 0 unit_zero ledger_empty overlay_empty false.

(** Running the ledger's code on the ledger of the backend. *)
Definition on_ledger {A} (m : M Ledger A) : M Wbuf A := λ w,
  let '(r, l) := m (wb_ledger w) in (r, set_ledger l w).

(* ---------------------------------------------------------------- *)
(** ** Walking the list *)

(** The addresses reached from [a] through [next], at most [fuel] of them. *)
Fixpoint chain (h : gmap nat VfdwWriteOp) (fuel : nat) (a : option nat) : list nat :=
  match fuel, a with
  | S n, Some x =>
      match h !! x with
      | Some op => x :: chain h n (op_next op)
      | None => []
      end
  | _, _ => []
  end.

Definition vfdw_wbuf_first (w : Wbuf) : option nat := wb_head w.
Definition vfdw_wbuf_last (w : Wbuf) : option nat := wb_tail w.

(** [for (op = vfdw_wbuf_first(); op != NULL; op = op->next)]: no list is
    longer than the heap it is in. *)
Definition live_from (w : Wbuf) (a : option nat) : list nat := chain (wb_heap w) (size (wb_heap w)) a.
Definition live_addrs (w : Wbuf) : list nat := live_from w (vfdw_wbuf_first w).
Definition live_ops (w : Wbuf) : list VfdwWriteOp :=
  omap (λ a, wb_heap w !! a) (live_addrs w).

(* ---------------------------------------------------------------- *)
(** ** Memory context and the byte counter *)

Definition vfdw_wbuf_alloc_bytes_internal (w : Wbuf) : Z :=
  if negb (wb_cxt w) then 0 else
  if bool_decide (wb_mem w ≤ wb_baseline w) then 0 else wb_mem w - wb_baseline w.

Definition vfdw_xact_ensure_registered : M Wbuf unit := modify set_registered.

Section context.
(** What the allocator accounts for in a context that holds nothing. *)
Variable keeper : Z.

Definition vfdw_wbuf_context : M Wbuf unit :=
  w ← get;
  if wb_cxt w then mret () else
  modify (set_mem true keeper keeper);;;
  vfdw_xact_ensure_registered.

(** Memory taken from the context while a row is rendered. *)
Definition wbuf_alloc (bytes : Z) : M Wbuf unit :=
  modify (λ w, set_mem (wb_cxt w) (wb_mem w + bytes) (wb_baseline w) w).

(* ---------------------------------------------------------------- *)
(** ** Unit binding *)

Definition vfdw_wbuf_error_server : pg_error :=
  PgError ERRCODE_FEATURE_NOT_SUPPORTED
    "cannot write to more than one Valkey server in one transaction".

Definition vfdw_wbuf_error_umid : pg_error :=
  PgError ERRCODE_FEATURE_NOT_SUPPORTED
    "cannot write through more than one Valkey user mapping in one transaction".

Definition vfdw_wbuf_error_database : pg_error :=
  PgError ERRCODE_FEATURE_NOT_SUPPORTED
    "cannot write to more than one Valkey database in one transaction".

Definition vfdw_wbuf_bind (serverid umid userid database max_ops max_bytes nest : Z)
    : M Wbuf unit :=
  vfdw_wbuf_context;;;
  (u ← gets wb_unit;
   if negb (u_bound u) then
     modify (set_unit (WriteUnit true serverid umid userid database max_ops max_bytes nest))
   else
     when (negb (bool_decide (u_serverid u = serverid))) (raise vfdw_wbuf_error_server);;;
     when (negb (bool_decide (u_umid u = umid))) (raise vfdw_wbuf_error_umid);;;
     when (negb (bool_decide (u_database u = database))) (raise vfdw_wbuf_error_database)).
End context.

(* ---------------------------------------------------------------- *)
(** ** Append, and the two caps *)

Definition vfdw_wbuf_error_op_cap : pg_error :=
  PgError ERRCODE_PROGRAM_LIMIT_EXCEEDED "deferred write buffer would exceed write_max_ops".

Definition vfdw_wbuf_error_byte_cap : pg_error :=
  PgError ERRCODE_PROGRAM_LIMIT_EXCEEDED "deferred write buffer would exceed write_max_bytes".

Definition over_byte_cap (w : Wbuf) : bool :=
  bool_decide (u64 (u_max_bytes (wb_unit w)) < vfdw_wbuf_alloc_bytes_internal w).

(** [MemoryContextAllocZero]: a zeroed record at an address not in use. *)
Definition zeroed_op : VfdwWriteOp :=
  WriteOp None None VFDW_OP_INSERT 0 VFDW_TABLE_STRING 0 0 0 "" None None None None None
    [] [] [] false None [] None.

Definition vfdw_wbuf_op_new (bytes : Z) : M Wbuf nat :=
  w ← get;
  if negb (u_bound (wb_unit w)) then
    raise (elog_error "valkey_fdw: write buffer unit is not bound")
  else if over_byte_cap w then raise vfdw_wbuf_error_byte_cap
  else
    wbuf_alloc bytes;;;
    modify (λ w, set_heap (<[wb_fresh w := zeroed_op]> (wb_heap w)) (S (wb_fresh w)) w);;;
    mret (wb_fresh w).

(** Filling in the record between [op_new] and [append]. *)
Definition op_fill (a : nat) (op : VfdwWriteOp) : M Wbuf unit :=
  modify (λ w, set_heap (<[a := set_links op None None]> (wb_heap w)) (wb_fresh w) w).

(** Assignment through an operation pointer. *)
Definition upd_op (a : nat) (f : VfdwWriteOp → VfdwWriteOp) : M Wbuf unit :=
  modify (λ w, set_heap (alter f a (wb_heap w)) (wb_fresh w) w).

Definition set_prev (p : option nat) (op : VfdwWriteOp) : VfdwWriteOp := set_links op p (op_next op).
Definition set_next (n : option nat) (op : VfdwWriteOp) : VfdwWriteOp := set_links op (op_prev op) n.

Definition vfdw_wbuf_append (op : nat) (nest cid : Z) : M Wbuf unit :=
  upd_op op (λ o, set_level o nest);;;
  upd_op op (λ o, set_cid o cid);;;
  (w ← get;
   when (bool_decide (u_max_ops (wb_unit w) < wb_nlive w + 1)) (raise vfdw_wbuf_error_op_cap));;;
  (w ← get;
   when (over_byte_cap w) (raise vfdw_wbuf_error_byte_cap));;;
  (w ← get;
   upd_op op (set_prev (wb_tail w));;;
   upd_op op (set_next None);;;
   (match wb_tail w with
    | Some t => upd_op t (set_next (Some op))
    | None => modify (λ w, set_list (Some op) (wb_tail w) (wb_nlive w) w)
    end);;;
   modify (λ w, set_list (wb_head w) (Some op) (wb_nlive w + 1) w);;;
   modify (λ w, set_gens (u64 (wb_gen w + 1)) (wb_shrink_gen w) w)).

(* ---------------------------------------------------------------- *)
(** ** Subtransactions *)

Definition vfdw_wbuf_unlink_tail : M Wbuf unit :=
  w ← get;
  match wb_tail w with
  | None => mret ()
  | Some op =>
      match wb_heap w !! op with
      | None => mret ()
      | Some o =>
          modify (λ w, set_list (wb_head w) (op_prev o) (wb_nlive w) w);;;
          (match op_prev o with
           | Some t => upd_op t (set_next None)
           | None => modify (λ w, set_list None (wb_tail w) (wb_nlive w) w)
           end);;;
          upd_op op (set_prev None);;;
          upd_op op (set_next None);;;
          modify (λ w, set_list (wb_head w) (wb_tail w) (wb_nlive w - 1) w)
      end
  end.

(** Whether the operation at [a] belongs to level [curlevel] or below it. *)
Definition at_or_below (w : Wbuf) (a : option nat) (curlevel : Z) : bool :=
  match a ≫= λ x, wb_heap w !! x with
  | Some o => bool_decide (curlevel ≤ op_level o)
  | None => false
  end.

(** The truncation loop of ABORT_SUB; whether it dropped anything. *)
Fixpoint truncate_loop (fuel : nat) (curlevel : Z) (dropped : bool) : M Wbuf bool :=
  match fuel with
  | O => mret dropped
  | S n =>
      w ← get;
      if at_or_below w (wb_tail w) curlevel then
        vfdw_wbuf_unlink_tail;;; truncate_loop n curlevel true
      else mret dropped
  end.

(** The promotion loop of PRE_COMMIT_SUB. *)
Fixpoint promote_loop (fuel : nat) (curlevel : Z) (p : option nat) : M Wbuf unit :=
  match fuel, p with
  | S n, Some a =>
      w ← get;
      if at_or_below w p curlevel then
        upd_op a (λ o, set_level o (curlevel - 1));;;
        promote_loop n curlevel (wb_heap w !! a ≫= op_prev)
      else mret ()
  | _, _ => mret ()
  end.

Definition unit_unbind (u : VfdwWriteUnit) : VfdwWriteUnit :=
  WriteUnit false (u_serverid u) (u_umid u) (u_userid u) (u_database u)
    (u_max_ops u) (u_max_bytes u) (u_level u).

Definition unit_relevel (level : Z) (u : VfdwWriteUnit) : VfdwWriteUnit :=
  WriteUnit (u_bound u) (u_serverid u) (u_umid u) (u_userid u) (u_database u)
    (u_max_ops u) (u_max_bytes u) level.

Definition vfdw_wbuf_rebind_after_truncate (curlevel : Z) : M Wbuf unit :=
  w ← get;
  when (bool_decide (wb_nlive w = 0) && bool_decide (curlevel ≤ u_level (wb_unit w)))
    (modify (λ w, set_unit (unit_unbind (wb_unit w)) w)).

Definition vfdw_ledger_rebuild : M Wbuf unit :=
  w ← get; on_ledger (vfdw_ledger_rebuild_from_buffer (live_ops w)).

Definition vfdw_overlay_rebuild : M Wbuf unit :=
  modify (λ w, set_overlay (vfdw_overlay_reset (wb_overlay w)) w).

Definition vfdw_wbuf_subxact (event : SubXactEvent) (curlevel : Z) : M Wbuf unit :=
  match event with
  | SUBXACT_EVENT_ABORT_SUB =>
      w ← get;
      dropped ← truncate_loop (S (size (wb_heap w))) curlevel false;
      when dropped (modify (λ w, set_gens (u64 (wb_gen w + 1)) (u64 (wb_shrink_gen w + 1)) w));;;
      vfdw_wbuf_rebind_after_truncate curlevel;;;
      vfdw_ledger_rebuild;;;
      vfdw_overlay_rebuild
  | SUBXACT_EVENT_PRE_COMMIT_SUB =>
      w ← get;
      promote_loop (S (size (wb_heap w))) curlevel (wb_tail w);;;
      (w ← get;
       when (u_bound (wb_unit w) && bool_decide (curlevel ≤ u_level (wb_unit w)))
         (modify (λ w, set_unit (unit_relevel (curlevel - 1) (wb_unit w)) w)))
  | SUBXACT_EVENT_COMMIT_SUB => mret ()
  | SUBXACT_EVENT_START_SUB => mret ()
  end.

(* ---------------------------------------------------------------- *)
(** ** Reset and diagnostics *)

Definition vfdw_wbuf_reset (keeper : Z) : M Wbuf unit :=
  modify (set_list None None 0);;;
  modify (λ w, set_unit (unit_relevel 0 (unit_unbind (wb_unit w))) w);;;
  modify (λ w, set_gens (u64 (wb_gen w + 1)) (u64 (wb_shrink_gen w + 1)) w);;;
  on_ledger vfdw_ledger_reset;;;
  vfdw_overlay_rebuild;;;
  modify (λ w, if wb_cxt w
               then set_heap ∅ (wb_fresh w) (set_mem true keeper keeper w) else w).

Definition vfdw_wbuf_is_empty (w : Wbuf) : bool := bool_decide (wb_nlive w = 0).
Definition vfdw_wbuf_live_ops (w : Wbuf) : Z := wb_nlive w.
Definition vfdw_wbuf_alloc_bytes (w : Wbuf) : Z := vfdw_wbuf_alloc_bytes_internal w.
Definition vfdw_wbuf_generation (w : Wbuf) : Z := wb_gen w.
Definition vfdw_wbuf_shrink_generation (w : Wbuf) : Z := wb_shrink_gen w.
Definition vfdw_wbuf_get_unit (w : Wbuf) : VfdwWriteUnit := wb_unit w.
