(* ===== verification/WbufFacts.v ===== *)
(** The linked list of src/vfdw_wbuf.c represents a list of operations: the
    representation relation, and what each buffer operation does to the list. *)
From S2P Require Import Prelude Opcode WriteOp Ledger Wbuf.
From stdpp Require Import sorting.
Local Open Scope Z_scope.

(* ---------------------------------------------------------------- *)
(** ** Representation *)

Definition pred_at (xs : list nat) (i : nat) : option nat :=
  match i with O => None | S j => xs !! j end.

(** The records at [xs] are linked in that order. *)
Definition linked (h : gmap nat VfdwWriteOp) (xs : list nat) : Prop :=
  ∀ i a, xs !! i = Some a →
    ∃ o, h !! a = Some o ∧ op_prev o = pred_at xs i ∧ op_next o = xs !! S i.

(** An operation without its links. *)
Definition bare (o : VfdwWriteOp) : VfdwWriteOp := set_links o None None.

(** The operations at [xs], as a reader of the log sees them. *)
Definition view_of (h : gmap nat VfdwWriteOp) (xs : list nat) : list VfdwWriteOp :=
  omap (λ a, bare <$> h !! a) xs.

Record rep (w : Wbuf) (xs : list nat) : Prop := {
  rep_nodup : NoDup xs;
  rep_linked : linked (wb_heap w) xs;
  rep_head : wb_head w = head xs;
  rep_tail : wb_tail w = last xs;
  rep_nlive : wb_nlive w = Z.of_nat (length xs);
  rep_fresh : ∀ a, is_Some (wb_heap w !! a) → (a < wb_fresh w)%nat;
}.

(** Everything but the list itself. *)
Definition same_rest (w w' : Wbuf) : Prop :=
  wb_cxt w' = wb_cxt w ∧ wb_mem w' = wb_mem w ∧ wb_baseline w' = wb_baseline w ∧
  wb_fresh w' = wb_fresh w ∧ wb_gen w' = wb_gen w ∧ wb_shrink_gen w' = wb_shrink_gen w ∧
  wb_unit w' = wb_unit w ∧ wb_ledger w' = wb_ledger w ∧ wb_overlay w' = wb_overlay w ∧
  wb_registered w' = wb_registered w ∧ dom (wb_heap w') = dom (wb_heap w).

Lemma same_rest_refl w : same_rest w w.
Proof. by split_and!. Qed.

Lemma same_rest_trans w1 w2 w3 : same_rest w1 w2 → same_rest w2 w3 → same_rest w1 w3.
Proof. unfold same_rest. intros; destruct_and!; split_and!; congruence. Qed.

Lemma linked_in h xs a : linked h xs → a ∈ xs → is_Some (h !! a).
Proof. intros Hl [i Hi]%list_elem_of_lookup. destruct (Hl _ _ Hi) as (o & Ho & _). eauto. Qed.

Lemma linked_alter_out h xs a f : a ∉ xs → linked h xs → linked (alter f a h) xs.
Proof.
  intros Ha Hl i x Hi. destruct (Hl _ _ Hi) as (o & Ho & Hp).
  exists o. rewrite lookup_alter_ne; [done|]. intros ->.
  apply Ha. by apply list_elem_of_lookup_2 in Hi.
Qed.

(** Changing what a record says, and not its links. *)
Lemma linked_alter_data h xs a f :
  (∀ o, op_prev (f o) = op_prev o ∧ op_next (f o) = op_next o) →
  linked h xs → linked (alter f a h) xs.
Proof.
  intros Hf Hl i x Hi. destruct (Hl _ _ Hi) as (o & Ho & Hp & Hn).
  destruct (decide (x = a)) as [->|Hne].
  - exists (f o). rewrite lookup_alter_eq, Ho. destruct (Hf o) as [-> ->]. done.
  - exists o. by rewrite lookup_alter_ne.
Qed.

Lemma view_alter_out h xs a f : a ∉ xs → view_of (alter f a h) xs = view_of h xs.
Proof.
  intros Ha. unfold view_of. induction xs as [|x xs IH]; [done|]. csimpl.
  rewrite lookup_alter_ne by set_solver. rewrite IH by set_solver. done.
Qed.

(** Relinking a record leaves what it says alone. *)
Lemma view_alter_links h xs a f :
  (∀ o, bare (f o) = bare o) → view_of (alter f a h) xs = view_of h xs.
Proof.
  intros Hf. unfold view_of. induction xs as [|x xs IH]; [done|]. csimpl. rewrite IH.
  destruct (decide (x = a)) as [->|Hne]; [|by rewrite lookup_alter_ne].
  rewrite lookup_alter_eq. by destruct (h !! a); simpl; rewrite ?Hf.
Qed.

Lemma view_app h xs ys : view_of h (xs ++ ys) = view_of h xs ++ view_of h ys.
Proof. apply omap_app. Qed.

Lemma view_length h xs : linked h xs → length (view_of h xs) = length xs.
Proof.
  intros Hl. assert (Forall (λ a, is_Some (h !! a)) xs) as HF.
  { apply Forall_forall. intros a Ha. by eapply linked_in. }
  clear Hl. unfold view_of. induction HF as [|x xs [o Ho] _ IH]; [done|]. csimpl. rewrite Ho.
  simpl. by rewrite IH.
Qed.

Lemma last_lookup' {A} (l : list A) : last l = match length l with O => None | S n => l !! n end.
Proof.
  rewrite last_lookup. by destruct l.
Qed.

(** The next pointer that links [last xs] to what follows. *)
Definition relink (h : gmap nat VfdwWriteOp) (t : option nat) (n : option nat)
    : gmap nat VfdwWriteOp :=
  match t with Some t => alter (set_next n) t h | None => h end.

Lemma relink_view h t n xs : view_of (relink h t n) xs = view_of h xs.
Proof. destruct t; simpl; [by apply view_alter_links|done]. Qed.

Lemma relink_dom h t n : dom (relink h t n) = dom h.
Proof. destruct t; simpl; [apply dom_alter_L|done]. Qed.

Lemma linked_relink h xs n :
  NoDup xs → linked h xs →
  ∀ i a, xs !! i = Some a → ∃ o, relink h (last xs) n !! a = Some o ∧
    op_prev o = pred_at xs i ∧
    op_next o = (if decide (S i = length xs) then n else xs !! S i).
Proof.
  intros Hnd Hl i a Hi. destruct (Hl _ _ Hi) as (o & Ho & Hp & Hn).
  pose proof (lookup_lt_Some _ _ _ Hi) as Hlt.
  rewrite last_lookup'. destruct (length xs) as [|m] eqn:El; [lia|].
  destruct (lookup_lt_is_Some_2 xs m) as [t Ht]; [lia|]. rewrite Ht. simpl.
  destruct (decide (S i = S m)) as [Heq|Hne].
  - injection Heq as ->. assert (a = t) as -> by congruence.
    exists (set_next n o). rewrite lookup_alter_eq, Ho. done.
  - exists o. rewrite lookup_alter_ne; [done|].
    intros ->. apply Hne. f_equal. by eapply NoDup_lookup.
Qed.

Lemma linked_unlink h xs a :
  NoDup (xs ++ [a]) → linked h (xs ++ [a]) → linked (relink h (last xs) None) xs.
Proof.
  intros Hnd Hl i x Hi. pose proof (lookup_lt_Some _ _ _ Hi) as Hlt.
  destruct (Hl i x) as (o & Ho & Hp & Hn); [by rewrite lookup_app_l|].
  assert (Hp' : pred_at (xs ++ [a]) i = pred_at xs i).
  { destruct i; simpl; [done|]. by rewrite lookup_app_l by lia. }
  rewrite Hp' in Hp. rewrite last_lookup'. destruct (length xs) as [|m] eqn:El; [lia|].
  destruct (lookup_lt_is_Some_2 xs m) as [t Ht]; [lia|]. rewrite Ht. simpl.
  destruct (decide (i = m)) as [->|Hne].
  - assert (x = t) as -> by congruence. exists (set_next None o).
    rewrite lookup_alter_eq, Ho. split_and!; [done|done|]. by rewrite lookup_ge_None_2 by lia.
  - exists o. rewrite lookup_alter_ne.
    2:{ intros ->. apply Hne. apply NoDup_app in Hnd as [Hnd _]. by eapply NoDup_lookup. }
    split_and!; [done..|]. by rewrite Hn, lookup_app_l by lia.
Qed.

Lemma linked_snoc h xs a o :
  NoDup (xs ++ [a]) → linked h xs → h !! a = Some o →
  op_prev o = last xs → op_next o = None →
  linked (relink h (last xs) (Some a)) (xs ++ [a]).
Proof.
  intros Hnd Hl Ha Hp Hn i x Hi. pose proof (proj1 (list.NoDup_app _ _) Hnd) as (Hxs & Hni & _).
  destruct (decide (i < length xs)%nat) as [Hlt|Hge].
  - rewrite lookup_app_l in Hi by done.
    destruct (linked_relink h xs (Some a) Hxs Hl i x Hi) as (o' & Ho' & Hp' & Hn').
    exists o'. split_and!; [done| |].
    + rewrite Hp'. destruct i; simpl; [done|]. by rewrite lookup_app_l by lia.
    + rewrite Hn'. case_decide as Hd; [|by rewrite lookup_app_l by lia].
      by rewrite lookup_app_r, Hd, Nat.sub_diag by lia.
  - rewrite lookup_app_r in Hi by lia. apply list_lookup_singleton_Some in Hi as [Hi <-].
    assert (i = length xs) as -> by lia. exists o. split_and!.
    + destruct (last xs) as [t|] eqn:Et; simpl; [|done].
      rewrite lookup_alter_ne; [done|]. intros ->. apply last_Some_elem_of in Et. set_solver.
    + rewrite Hp, last_lookup'. destruct (length xs) as [|m] eqn:El; simpl; [done|].
      by rewrite lookup_app_l by lia.
    + rewrite Hn. by rewrite lookup_ge_None_2 by (rewrite length_app; simpl; lia).
Qed.

(* ---------------------------------------------------------------- *)
(** ** Walking *)

Lemma chain_linked h xs n i :
  linked h xs → (length xs - i ≤ n)%nat → chain h n (xs !! i) = drop i xs.
Proof.
  intros Hl. revert i. induction n as [|n IH]; intros i Hn; simpl.
  - by rewrite drop_ge by lia.
  - destruct (xs !! i) as [a|] eqn:Ei; [|by rewrite drop_ge by by apply lookup_ge_None].
    destruct (Hl _ _ Ei) as (o & -> & _ & ->). rewrite (drop_S _ _ _ Ei), IH; [done|lia].
Qed.

(** A list without repetition is no longer than the heap that holds it. *)
Lemma linked_size h xs : NoDup xs → linked h xs → (length xs ≤ size h)%nat.
Proof.
  intros Hnd Hl. rewrite <- size_dom, <- (size_list_to_set (C := gset nat) xs) by done.
  apply subseteq_size. intros a Ha%elem_of_list_to_set. apply elem_of_dom. by eapply linked_in.
Qed.

Lemma head_lookup {A} (l : list A) : head l = l !! 0%nat.
Proof. by destruct l. Qed.

Lemma live_addrs_rep w xs : rep w xs → live_addrs w = xs.
Proof.
  intros H. unfold live_addrs, live_from, vfdw_wbuf_first.
  rewrite (rep_head _ _ H), head_lookup, (chain_linked _ xs); [done|apply H|].
  pose proof (linked_size _ _ (rep_nodup _ _ H) (rep_linked _ _ H)). lia.
Qed.

Lemma rep_unique w xs ys : rep w xs → rep w ys → xs = ys.
Proof. intros Hx Hy. by rewrite <- (live_addrs_rep w xs), <- (live_addrs_rep w ys). Qed.

Lemma omap_bare h xs : bare <$> omap (λ a, h !! a) xs = view_of h xs.
Proof.
  unfold view_of. induction xs as [|x xs IH]; [done|]. csimpl.
  destruct (h !! x); csimpl; by rewrite IH.
Qed.

(** The log as the reader of the buffer sees it. *)
Definition wview (w : Wbuf) : list VfdwWriteOp := bare <$> live_ops w.

Lemma wview_rep w xs : rep w xs → wview w = view_of (wb_heap w) xs.
Proof. intros H. unfold wview, live_ops. by rewrite (live_addrs_rep _ _ H), omap_bare. Qed.

(* ---------------------------------------------------------------- *)
(** ** Unlinking and truncation *)

Lemma NoDup_snoc {A} (xs : list A) a : NoDup (xs ++ [a]) ↔ NoDup xs ∧ a ∉ xs.
Proof.
  rewrite list.NoDup_app. split.
  - intros (H1 & H2 & _). split; [done|]. set_solver.
  - intros [H1 H2]. split_and!; [done| |apply NoDup_singleton].
    intros x Hx ->%list_elem_of_singleton. done.
Qed.

Lemma unlink_tail_spec w xs a :
  rep w (xs ++ [a]) →
  ∃ w', vfdw_wbuf_unlink_tail w = (Ok (), w') ∧ rep w' xs ∧ same_rest w w' ∧
        view_of (wb_heap w') xs = view_of (wb_heap w) xs.
Proof.
  intros H. destruct (rep_linked _ _ H (length xs) a) as (o & Ho & Hp & Hn).
  { by rewrite lookup_app_r, Nat.sub_diag by lia. }
  assert (Hprev : op_prev o = last xs).
  { rewrite Hp, last_lookup'. destruct (length xs) eqn:E; simpl; [done|].
    by rewrite lookup_app_l by lia. }
  pose proof (proj1 (NoDup_snoc xs a) (rep_nodup _ _ H)) as [Hnd Hout].
  set (h' := alter (set_next None) a (alter (set_prev None) a (relink (wb_heap w) (last xs) None))).
  exists (set_heap h' (wb_fresh w) (set_list (head xs) (last xs) (Z.of_nat (length xs)) w)).
  split_and!.
  - unfold vfdw_wbuf_unlink_tail, mbind, M_bind, get. simpl.
    rewrite (rep_tail _ _ H), last_snoc, Ho, Hprev.
    unfold h', relink. rewrite (rep_head _ _ H), (rep_nlive _ _ H), length_app. simpl.
    destruct xs as [|x xs IH] using rev_ind; [done|clear IH].
    rewrite last_snoc. unfold modify, set_heap, set_list; simpl. f_equal.
    f_equal; first [lia | by destruct xs].
  - assert (Hl : linked h' xs).
    { apply linked_alter_out; [done|]. apply linked_alter_out; [done|].
      eapply linked_unlink; apply H. }
    constructor; simpl; [done|done|done|done|done|].
    intros x Hx. apply (rep_fresh _ _ H). apply elem_of_dom. apply elem_of_dom in Hx.
    unfold h' in Hx. by rewrite !dom_alter_L, relink_dom in Hx.
  - unfold same_rest; simpl. split_and!; try done. unfold h'. by rewrite !dom_alter_L, relink_dom.
  - simpl. unfold h'. by rewrite !view_alter_out, relink_view.
Qed.

(** The levels along the log never go down. *)
Definition levels_up (ops : list VfdwWriteOp) : Prop := StronglySorted Z.le (op_level <$> ops).

Lemma levels_up_snoc ops o :
  levels_up (ops ++ [o]) ↔ levels_up ops ∧ Forall (λ x, op_level x ≤ op_level o) ops.
Proof.
  unfold levels_up. rewrite fmap_app. simpl. induction ops as [|x ops IH]; csimpl.
  - split; intros _; repeat constructor.
  - split.
    + intros Hs. apply StronglySorted_inv in Hs as [H1 H2]. apply IH in H1 as [H1 H3].
      apply Forall_app in H2 as [H2 H4]. inversion H4; subst.
      by split; constructor.
    + intros [Hs Hf]. apply StronglySorted_inv in Hs as [H1 H2].
      apply Forall_cons in Hf as [Hx Hf]. constructor; [by apply IH|].
      apply Forall_app. split; [done|]. by constructor.
Qed.

(** What an abort at nest level [c] keeps. *)
Definition survivors (c : Z) (ops : list VfdwWriteOp) : list VfdwWriteOp :=
  filter (λ o, op_level o < c) ops.

Lemma view_snoc h xs a o :
  h !! a = Some o → view_of h (xs ++ [a]) = view_of h xs ++ [bare o].
Proof. intros Ha. rewrite view_app. f_equal. unfold view_of. csimpl. by rewrite Ha. Qed.

Lemma view_cons h xs a o :
  h !! a = Some o → view_of h (a :: xs) = bare o :: view_of h xs.
Proof. intros Ha. unfold view_of. csimpl. by rewrite Ha. Qed.

Lemma filter_keeps_all {A} (P : A → Prop) `{!∀ x, Decision (P x)} (l : list A) :
  Forall P l → filter P l = l.
Proof.
  induction 1 as [|x l Hx _ IH]; [done|]. rewrite filter_cons, decide_True by done. by rewrite IH.
Qed.

Lemma truncate_spec c xs w fuel dropped :
  rep w xs → levels_up (view_of (wb_heap w) xs) → (length xs < fuel)%nat →
  ∃ w' ys, truncate_loop fuel c dropped w =
             (Ok (dropped || bool_decide (length ys < length xs)%nat), w') ∧
           rep w' ys ∧ same_rest w w' ∧ ys `prefix_of` xs ∧
           view_of (wb_heap w') ys = survivors c (view_of (wb_heap w) xs).
Proof.
  revert w fuel dropped. induction xs as [|a xs IH] using rev_ind; intros w fuel dropped H Hup Hf.
  - destruct fuel as [|fuel]; [simpl in Hf; lia|].
    exists w, []. simpl. unfold mbind, M_bind, get. simpl.
    unfold at_or_below. rewrite (rep_tail _ _ H). simpl. rewrite orb_false_r.
    by split_and!.
  - destruct fuel as [|fuel]; [rewrite length_app in Hf; simpl in Hf; lia|].
    destruct (rep_linked _ _ H (length xs) a) as (o & Ho & _).
    { by rewrite lookup_app_r, Nat.sub_diag by lia. }
    rewrite (view_snoc _ _ _ _ Ho) in *. apply levels_up_snoc in Hup as [Hup Hle].
    simpl. unfold mbind, M_bind, get. simpl.
    unfold at_or_below. rewrite (rep_tail _ _ H), last_snoc. simpl. rewrite Ho.
    unfold survivors. rewrite filter_app, filter_cons. simpl (filter _ []).
    case_bool_decide as Hc.
    + destruct (unlink_tail_spec _ _ _ H) as (w1 & Hw1 & Hr1 & Hs1 & Hv1). rewrite Hw1.
      destruct (IH w1 fuel true) as (w2 & ys & E2 & Hr2 & Hs2 & Hpre & Hv2);
        [done|by rewrite Hv1|rewrite length_app in Hf; simpl in Hf; lia|].
      exists w2, ys. rewrite E2. split_and!.
      * rewrite (bool_decide_true (length ys < length (xs ++ [a]))%nat); [by rewrite orb_true_r|].
        rewrite length_app. apply prefix_length in Hpre. simpl. lia.
      * done.
      * by eapply same_rest_trans.
      * by apply prefix_app_r.
      * rewrite Hv2, Hv1, decide_False; [by rewrite app_nil_r|]. simpl. lia.
    + exists w, (xs ++ [a]). rewrite bool_decide_false by lia. rewrite orb_false_r.
      split_and!; [done|done|apply same_rest_refl|done|].
      rewrite (view_snoc _ _ _ _ Ho), decide_True by (simpl; lia). f_equal.
      symmetry. apply filter_keeps_all. eapply Forall_impl; [exact Hle|]. simpl. intros; lia.
Qed.

(* ---------------------------------------------------------------- *)
(** ** Promotion *)

(** What a committed savepoint at nest level [c] does to one operation. *)
Definition promote (c : Z) (o : VfdwWriteOp) : VfdwWriteOp :=
  if bool_decide (c ≤ op_level o) then set_level o (c - 1) else o.

Lemma rep_alter_data w xs a f :
  (∀ o, op_prev (f o) = op_prev o ∧ op_next (f o) = op_next o) →
  rep w xs → rep (set_heap (alter f a (wb_heap w)) (wb_fresh w) w) xs.
Proof.
  intros Hf H. constructor; simpl; try apply H.
  - by apply linked_alter_data, H.
  - intros x. rewrite <- elem_of_dom, dom_alter_L, elem_of_dom. apply H.
Qed.

Lemma promote_low c ops : Forall (λ o, op_level o < c) ops → promote c <$> ops = ops.
Proof.
  induction 1 as [|o ops Ho _ IH]; [done|]. csimpl. rewrite IH. unfold promote.
  by rewrite bool_decide_false by lia.
Qed.

Lemma promote_spec c xs rest w fuel :
  rep w (xs ++ rest) → levels_up (view_of (wb_heap w) xs) → (length xs < fuel)%nat →
  ∃ w', promote_loop fuel c (last xs) w = (Ok (), w') ∧ rep w' (xs ++ rest) ∧ same_rest w w' ∧
        view_of (wb_heap w') xs = promote c <$> view_of (wb_heap w) xs ∧
        view_of (wb_heap w') rest = view_of (wb_heap w) rest.
Proof.
  revert rest w fuel. induction xs as [|a xs IH] using rev_ind; intros rest w fuel H Hup Hf.
  - exists w. destruct fuel; by split_and!.
  - destruct fuel as [|fuel]; [rewrite length_app in Hf; simpl in Hf; lia|].
    rewrite last_snoc. rewrite <- app_assoc in H.
    destruct (rep_linked _ _ H (length xs) a) as (o & Ho & Hp & _).
    { by rewrite lookup_app_r, Nat.sub_diag by lia. }
    assert (Hprev : op_prev o = last xs).
    { rewrite Hp, last_lookup'. destruct (length xs) eqn:E; simpl; [done|].
      by rewrite lookup_app_l by lia. }
    assert ((a ∉ xs) ∧ (a ∉ rest)) as [Hout Hrest].
    { pose proof (rep_nodup _ _ H) as Hnd. apply list.NoDup_app in Hnd as (_ & H1 & H2).
      apply list.NoDup_cons in H2 as [H2 _]. split; [|done]. intros Hin.
      apply (H1 a Hin). left. }
    rewrite (view_snoc _ _ _ _ Ho) in Hup. apply levels_up_snoc in Hup as [Hup Hle].
    simpl. unfold mbind, M_bind, get. simpl. rewrite Ho. simpl.
    rewrite (view_snoc _ _ _ _ Ho), fmap_app. csimpl.
    unfold at_or_below. simpl. rewrite Ho. unfold promote at 2. simpl (op_level (bare o)).
    case_bool_decide as Hc.
    + set (w1 := set_heap (alter (λ o, set_level o (c - 1)) a (wb_heap w)) (wb_fresh w) w).
      assert (H1 : rep w1 (xs ++ a :: rest)) by by apply rep_alter_data.
      destruct (IH (a :: rest) w1 fuel) as (w2 & E2 & Hr2 & Hs2 & Hv2 & Hvr).
      { done. }
      { subst w1. simpl. by rewrite view_alter_out. }
      { rewrite length_app in Hf. simpl in Hf. lia. }
      rewrite Hprev. exists w2. rewrite <- app_assoc. simpl.
      assert (Hh1 : view_of (wb_heap w1) xs = view_of (wb_heap w) xs) by by apply view_alter_out.
      assert (Hh2 : view_of (wb_heap w1) rest = view_of (wb_heap w) rest) by by apply view_alter_out.
      assert (Ha1 : wb_heap w1 !! a = Some (set_level o (c - 1)))
        by (subst w1; simpl; by rewrite lookup_alter_eq, Ho).
      destruct (linked_in _ _ a (rep_linked _ _ Hr2)) as [o2 Ho2]; [set_solver|].
      rewrite (view_cons _ _ _ _ Ha1), (view_cons _ _ _ _ Ho2) in Hvr.
      pose proof (f_equal (hd o) Hvr) as Hvo. pose proof (f_equal tail Hvr) as Hvt. simpl in Hvo, Hvt.
      split_and!; [exact E2|done| | |].
      * eapply same_rest_trans; [|exact Hs2]. subst w1. unfold same_rest; simpl.
        split_and!; try done. apply dom_alter_L.
      * rewrite (view_snoc _ _ _ _ Ho2), Hv2, Hh1. f_equal. f_equal. exact Hvo.
      * rewrite Hvt. exact Hh2.
    + exists w. split_and!; [done|by rewrite <- app_assoc|apply same_rest_refl| |done].
      rewrite (view_snoc _ _ _ _ Ho). f_equal. symmetry. apply promote_low.
      eapply Forall_impl; [exact Hle|]. simpl. intros; lia.
Qed.

(* ---------------------------------------------------------------- *)
(** ** Append *)

(** The record [vfdw_wbuf_append] puts at the end of the log. *)
Definition stamped (o : VfdwWriteOp) (nest cid : Z) : VfdwWriteOp := set_cid (set_level o nest) cid.

(** The links [vfdw_wbuf_append] sets, and the counters. *)
Definition append_heap (w : Wbuf) (a : nat) (nest cid : Z) : gmap nat VfdwWriteOp :=
  relink (alter (set_next None) a (alter (set_prev (wb_tail w)) a
           (alter (λ o, set_cid o cid) a (alter (λ o, set_level o nest) a (wb_heap w)))))
         (wb_tail w) (Some a).

Definition appended (w : Wbuf) (a : nat) (nest cid : Z) : Wbuf :=
  set_gens (u64 (wb_gen w + 1)) (wb_shrink_gen w)
    (set_list (match wb_tail w with Some _ => wb_head w | None => Some a end) (Some a)
       (wb_nlive w + 1) (set_heap (append_heap w a nest cid) (wb_fresh w) w)).

Lemma get_bind {S B} (f : S → M S B) s : (get ≫= f) s = f s s.
Proof. done. Qed.

(** The record is stamped before the caps are looked at. *)
Definition stamp_only (w : Wbuf) (a : nat) (nest cid : Z) : Wbuf :=
  set_heap (alter (λ o, set_cid o cid) a (alter (λ o, set_level o nest) a (wb_heap w)))
    (wb_fresh w) w.

Lemma append_eq w a nest cid :
  vfdw_wbuf_append a nest cid w =
  if bool_decide (u_max_ops (wb_unit w) < wb_nlive w + 1)
  then (Raise vfdw_wbuf_error_op_cap, stamp_only w a nest cid)
  else if over_byte_cap w then (Raise vfdw_wbuf_error_byte_cap, stamp_only w a nest cid)
  else (Ok (), appended w a nest cid).
Proof.
  unfold vfdw_wbuf_append, upd_op. rewrite !modify_bind.
  destruct w as [cxt mem base h fresh hd tl n gen sg u l o reg]. simpl in *.
  unfold mbind at 1, M_bind at 1. rewrite get_bind. simpl. case_bool_decide as Hc; [done|].
  simpl. unfold mbind at 1, M_bind at 1. rewrite get_bind.
  unfold over_byte_cap, vfdw_wbuf_alloc_bytes_internal. simpl.
  case_bool_decide; [done|]. simpl.
  rewrite get_bind. simpl. rewrite !modify_bind. by destruct tl.
Qed.

Lemma appended_rep w xs a o nest cid :
  rep w xs → wb_heap w !! a = Some o → a ∉ xs →
  rep (appended w a nest cid) (xs ++ [a]) ∧
  view_of (wb_heap (appended w a nest cid)) (xs ++ [a]) =
    view_of (wb_heap w) xs ++ [bare (stamped o nest cid)] ∧
  dom (wb_heap (appended w a nest cid)) = dom (wb_heap w).
Proof.
  intros H Ha Hout.
  change (wb_heap (appended w a nest cid)) with (append_heap w a nest cid).
  set (h1 := alter (set_next None) a (alter (set_prev (wb_tail w)) a
               (alter (λ o, set_cid o cid) a (alter (λ o, set_level o nest) a (wb_heap w))))).
  assert (Hh : append_heap w a nest cid = relink h1 (last xs) (Some a)).
  { unfold append_heap. fold h1. by rewrite (rep_tail _ _ H). }
  assert (Ha1 : h1 !! a = Some (set_links (stamped o nest cid) (last xs) None)).
  { unfold h1. rewrite !lookup_alter_eq, Ha, (rep_tail _ _ H). done. }
  assert (Hnd : NoDup (xs ++ [a])) by (apply NoDup_snoc; split; [apply H|done]).
  assert (Hl1 : linked h1 xs).
  { unfold h1. repeat (apply linked_alter_out; [done|]). apply H. }
  assert (Hdom : dom (append_heap w a nest cid) = dom (wb_heap w)).
  { rewrite Hh. unfold h1. by rewrite relink_dom, !dom_alter_L. }
  split_and!; [|  |done].
  - constructor.
    + done.
    + change (linked (append_heap w a nest cid) (xs ++ [a])). rewrite Hh.
      eapply linked_snoc; [done|done|exact Ha1|done|done].
    + change (match wb_tail w with Some _ => wb_head w | None => Some a end = head (xs ++ [a])).
      rewrite (rep_tail _ _ H), (rep_head _ _ H), last_lookup'. destruct xs as [|x xs]; [done|].
      simpl length. by destruct (lookup_lt_is_Some_2 (x :: xs) (length xs)) as [t ->]; [simpl; lia|].
    + by rewrite last_snoc.
    + change (wb_nlive w + 1 = Z.of_nat (length (xs ++ [a]))).
      rewrite length_app, (rep_nlive _ _ H). simpl. lia.
    + intros x Hx. apply (rep_fresh _ _ H). apply elem_of_dom. rewrite <- Hdom. by apply elem_of_dom.
  - rewrite Hh, relink_view, (view_snoc _ _ _ _ Ha1). f_equal.
    unfold h1. by rewrite !view_alter_out.
Qed.

Lemma stamp_only_rep w xs a nest cid :
  rep w xs → a ∉ xs →
  rep (stamp_only w a nest cid) xs ∧ same_rest w (stamp_only w a nest cid) ∧
  view_of (wb_heap (stamp_only w a nest cid)) xs = view_of (wb_heap w) xs.
Proof.
  intros H Hout. split_and!; simpl.
  - pose proof (rep_alter_data w xs a (λ o, set_level o nest) ltac:(done) H) as H1.
    pose proof (rep_alter_data _ xs a (λ o, set_cid o cid) ltac:(done) H1) as H2.
    by destruct w.
  - unfold same_rest; simpl. by rewrite !dom_alter_L.
  - by rewrite !view_alter_out.
Qed.

(* ---------------------------------------------------------------- *)
(** ** Subtransaction events on the log *)

Lemma live_ops_view w xs : rep w xs → bare <$> live_ops w = view_of (wb_heap w) xs.
Proof. exact (wview_rep w xs). Qed.

(** ABORT_SUB up to the point where the derived state is rebuilt. *)
Definition abort_truncate (c : Z) : M Wbuf unit :=
  w ← get;
  dropped ← truncate_loop (S (size (wb_heap w))) c false;
  when dropped (modify (λ w, set_gens (u64 (wb_gen w + 1)) (u64 (wb_shrink_gen w + 1)) w));;;
  vfdw_wbuf_rebind_after_truncate c.

Lemma abort_split c w :
  vfdw_wbuf_subxact SUBXACT_EVENT_ABORT_SUB c w =
  (abort_truncate c;;; vfdw_ledger_rebuild;;; vfdw_overlay_rebuild) w.
Proof.
  unfold vfdw_wbuf_subxact, abort_truncate. unfold mbind, M_bind, get.
  destruct (truncate_loop _ c false w) as [[d|e] w1]; [|done].
  destruct (when d _ w1) as [[?|e] w2]; [|done].
  by destruct (vfdw_wbuf_rebind_after_truncate c w2) as [[?|e] w3].
Qed.

Lemma rep_frame w w' xs :
  wb_heap w' = wb_heap w → wb_fresh w' = wb_fresh w → wb_head w' = wb_head w →
  wb_tail w' = wb_tail w → wb_nlive w' = wb_nlive w → rep w xs → rep w' xs.
Proof.
  intros E1 E2 E3 E4 E5 H. constructor; rewrite ?E1, ?E2, ?E3, ?E4, ?E5; apply H.
Qed.

Lemma abort_truncate_spec c w xs :
  rep w xs → levels_up (view_of (wb_heap w) xs) →
  ∃ w' ys, abort_truncate c w = (Ok (), w') ∧ rep w' ys ∧ ys `prefix_of` xs ∧
    view_of (wb_heap w') ys = survivors c (view_of (wb_heap w) xs) ∧
    wb_ledger w' = wb_ledger w ∧ wb_overlay w' = wb_overlay w ∧ wb_cxt w' = wb_cxt w ∧
    dom (wb_heap w') = dom (wb_heap w) ∧ wb_fresh w' = wb_fresh w ∧
    (wb_gen w', wb_shrink_gen w') =
      (if bool_decide (length ys < length xs)%nat
       then (u64 (wb_gen w + 1), u64 (wb_shrink_gen w + 1)) else (wb_gen w, wb_shrink_gen w)) ∧
    wb_unit w' = (if bool_decide (length ys = 0%nat) && bool_decide (c ≤ u_level (wb_unit w))
                  then unit_unbind (wb_unit w) else wb_unit w).
Proof.
  intros H Hup.
  destruct (truncate_spec c xs w (S (size (wb_heap w))) false H Hup)
    as (w1 & ys & E1 & Hr1 & Hs1 & Hpre & Hv1).
  { pose proof (linked_size _ _ (rep_nodup _ _ H) (rep_linked _ _ H)). lia. }
  destruct Hs1 as (Hc & Hmem & Hb & Hfr & Hg & Hsg & Hu & Hl & Ho & Hreg & Hdom).
  set (d := bool_decide (length ys < length xs)%nat) in *.
  set (w2 := if d then set_gens (u64 (wb_gen w1 + 1)) (u64 (wb_shrink_gen w1 + 1)) w1 else w1).
  set (un := bool_decide (length ys = 0%nat) && bool_decide (c ≤ u_level (wb_unit w))).
  set (w3 := if un then set_unit (unit_unbind (wb_unit w2)) w2 else w2).
  exists w3, ys.
  assert (Hn2 : wb_nlive w2 = Z.of_nat (length ys)) by (subst w2; destruct d; apply Hr1).
  assert (Hu2 : wb_unit w2 = wb_unit w) by (subst w2; by destruct d).
  assert (E : abort_truncate c w = (Ok (), w3)).
  { unfold abort_truncate. rewrite get_bind. unfold mbind at 1, M_bind at 1. rewrite E1. simpl.
    fold d. unfold mbind at 1, M_bind at 1.
    assert (when d (modify (λ w, set_gens (u64 (wb_gen w + 1)) (u64 (wb_shrink_gen w + 1)) w)) w1
            = (Ok (), w2)) as -> by (subst w2; by destruct d).
    unfold vfdw_wbuf_rebind_after_truncate. rewrite get_bind, Hn2, Hu2.
    replace (bool_decide (Z.of_nat (length ys) = 0)) with (bool_decide (length ys = 0%nat))
      by (apply bool_decide_ext; lia).
    fold un. subst w3. by destruct un. }
  assert (Hh3 : wb_heap w3 = wb_heap w1) by (subst w3 w2; by destruct un, d).
  split_and!; [done| |done| | | | | | | |].
  - eapply (rep_frame w1); [done| | | | |done]; subst w3 w2; by destruct un, d.
  - by rewrite Hh3.
  - subst w3 w2. by destruct un, d.
  - subst w3 w2. by destruct un, d.
  - subst w3 w2. by destruct un, d.
  - by rewrite Hh3.
  - subst w3 w2. by destruct un, d.
  - fold d. subst w3 w2. rewrite <- Hg, <- Hsg. by destruct un, d.
  - fold un. subst w3. by destruct un; simpl; rewrite Hu2.
Qed.

Lemma precommit_spec c w xs :
  rep w xs → levels_up (view_of (wb_heap w) xs) →
  ∃ w', vfdw_wbuf_subxact SUBXACT_EVENT_PRE_COMMIT_SUB c w = (Ok (), w') ∧ rep w' xs ∧
    view_of (wb_heap w') xs = promote c <$> view_of (wb_heap w) xs ∧
    wb_ledger w' = wb_ledger w ∧ wb_overlay w' = wb_overlay w ∧ wb_cxt w' = wb_cxt w ∧
    dom (wb_heap w') = dom (wb_heap w) ∧ wb_fresh w' = wb_fresh w ∧
    wb_gen w' = wb_gen w ∧ wb_shrink_gen w' = wb_shrink_gen w ∧
    wb_unit w' = (if u_bound (wb_unit w) && bool_decide (c ≤ u_level (wb_unit w))
                  then unit_relevel (c - 1) (wb_unit w) else wb_unit w).
Proof.
  intros H Hup. rewrite <- (app_nil_r xs) in H.
  destruct (promote_spec c xs [] w (S (size (wb_heap w))) H Hup)
    as (w1 & E1 & Hr1 & Hs1 & Hv1 & _).
  { rewrite app_nil_r in H.
    pose proof (linked_size _ _ (rep_nodup _ _ H) (rep_linked _ _ H)). lia. }
  rewrite app_nil_r in *.
  destruct Hs1 as (Hc & Hmem & Hb & Hfr & Hg & Hsg & Hu & Hl & Ho & Hreg & Hdom).
  set (un := u_bound (wb_unit w) && bool_decide (c ≤ u_level (wb_unit w))).
  set (w3 := if un then set_unit (unit_relevel (c - 1) (wb_unit w1)) w1 else w1).
  assert (E : vfdw_wbuf_subxact SUBXACT_EVENT_PRE_COMMIT_SUB c w = (Ok (), w3)).
  { unfold vfdw_wbuf_subxact. rewrite get_bind. unfold mbind at 1, M_bind at 1.
    rewrite (rep_tail _ _ H), E1, get_bind, Hu. fold un. subst w3. by destruct un. }
  exists w3. split_and!; [done| | | | | | | | | |].
  1: eapply (rep_frame w1); [..|done].
  all: subst w3; by destruct un; simpl; rewrite ?Hu.
Qed.
