(* ===== verification/Rebuild.v ===== *)
(** Re-folding a log (vfdw_ledger_rebuild_from_buffer, src/vfdw_ledger.c): the
    re-entry guard does not influence the fold, so re-folding an accepted log
    succeeds and gives the ledger the incremental fold gave. *)
From S2P Require Import Prelude Opcode WriteOp Ledger LedgerFacts Wbuf WbufFacts.
Local Open Scope Z_scope.

(** The ledger with the re-entry guard set to [b]. *)
Definition flagged (b : bool) (l : Ledger) : Ledger :=
  MkLedger (lg_cxt l) (lg_keys l) (lg_members l) (lg_plans l) (lg_count l) b.

(** Code that neither reads nor writes the guard. *)
Definition blind {A} (m : M Ledger A) : Prop :=
  ∀ b l, m (flagged b l) = ((m l).1, flagged b (m l).2).

Lemma blind_ret {A} (a : A) : blind (mret a).
Proof. done. Qed.

Lemma blind_raise {A} e : blind (raise (A := A) e).
Proof. done. Qed.

Lemma blind_bind {A B} (m : M Ledger A) (f : A → M Ledger B) :
  blind m → (∀ a, blind (f a)) → blind (m ≫= f).
Proof.
  intros Hm Hf b l. unfold mbind, M_bind. rewrite Hm.
  destruct (m l) as [[a|e] l']; simpl; [apply Hf|done].
Qed.

Lemma blind_miter {A} (f : A → M Ledger unit) xs : (∀ x, blind (f x)) → blind (miter f xs).
Proof.
  intros Hf. induction xs as [|x xs IH]; [done|]. simpl. by apply blind_bind.
Qed.

Lemma blind_upd_plan p f : blind (upd_plan p f).
Proof. done. Qed.

Lemma blind_plan_state p : blind (plan_state p).
Proof. done. Qed.

Lemma blind_plan_ttype p : blind (plan_ttype p).
Proof. done. Qed.

Lemma blind_upd_member k s f : blind (upd_member k s f).
Proof. done. Qed.

Lemma blind_plan_for k t : blind (vfdw_ledger_plan_for k t).
Proof.
  intros b l. unfold vfdw_ledger_plan_for. rewrite !get_bind. simpl.
  by destruct (lg_keys l !! (k, None)).
Qed.

Lemma blind_member k s : blind (vfdw_ledger_member k s).
Proof.
  intros b l. unfold vfdw_ledger_member. rewrite !get_bind. simpl.
  by destruct (lg_members l !! (k, Some s)).
Qed.

Lemma blind_init : blind vfdw_ledger_init.
Proof. intros b l. unfold vfdw_ledger_init, modify. simpl. by destruct (lg_cxt l). Qed.

Lemma blind_when b m : blind m → blind (when b m).
Proof. by destruct b. Qed.

#[local] Hint Resolve blind_ret blind_raise blind_upd_plan blind_plan_state blind_plan_ttype
  blind_upd_member blind_plan_for blind_member blind_init blind_when : vfdw.

Ltac blind_step :=
  match goal with
  | |- blind (match ?x with _ => _ end) => destruct x
  | |- blind (mbind _ _) => apply blind_bind; [|intros ?]
  | |- blind (when _ _) => apply blind_when
  | |- blind (miter _ _) => apply blind_miter; intros ?
  end.
Ltac blind_auto := repeat first [solve [eauto with vfdw] | blind_step].

Lemma blind_action p s : blind (vfdw_ledger_add_action p s).
Proof. done. Qed.
Lemma blind_check p s : blind (vfdw_ledger_add_check p s).
Proof. done. Qed.
Lemma blind_relid p r : blind (vfdw_ledger_add_relid p r).
Proof. done. Qed.
#[local] Hint Resolve blind_action blind_check blind_relid : vfdw.
#[local] Hint Unfold vfdw_ledger_act0 vfdw_ledger_act1 vfdw_ledger_act2 vfdw_ledger_chk1 : vfdw.

Lemma blind_keyset p op k b : blind (vfdw_ledger_keyset p op k b).
Proof. unfold vfdw_ledger_keyset. blind_auto. Qed.
#[local] Hint Resolve blind_keyset : vfdw.

Lemma blind_precondition p first kind rt : blind (vfdw_ledger_precondition p first kind rt).
Proof. unfold vfdw_ledger_precondition. blind_auto. Qed.
#[local] Hint Resolve blind_precondition : vfdw.

Lemma blind_by_type p op : blind (fold_by_type p op).
Proof.
  unfold fold_by_type, vfdw_ledger_fold_hash, vfdw_ledger_fold_fields, vfdw_ledger_fold_ttls,
    fold_ttl, fold_field, vfdw_ledger_fold_list, vfdw_ledger_fold_member,
    vfdw_ledger_member_precondition.
  blind_auto.
Qed.
#[local] Hint Resolve blind_by_type : vfdw.

Lemma blind_note op : blind (vfdw_ledger_note op).
Proof.
  unfold vfdw_ledger_note, vfdw_ledger_check_duplicate, vfdw_ledger_fold_rename,
    vfdw_ledger_fold_key_delete, vfdw_ledger_fold_packed_op, vfdw_ledger_fold_packed,
    pack_element, vfdw_ledger_pack_pair, revive_plan.
  blind_auto.
Qed.

(* ---------------------------------------------------------------- *)
(** ** Bookkeeping the fold does not look at *)

Lemma note_bare op : vfdw_ledger_note (bare op) = vfdw_ledger_note op.
Proof. done. Qed.

Lemma note_level op c : vfdw_ledger_note (set_level op c) = vfdw_ledger_note op.
Proof. done. Qed.

Lemma note_promote op c : vfdw_ledger_note (promote c op) = vfdw_ledger_note op.
Proof. unfold promote. by case_bool_decide. Qed.

Lemma miter_fmap {S A} (f : A → M S unit) (g : A → A) xs s :
  (∀ x, f (g x) = f x) → miter f (g <$> xs) s = miter f xs s.
Proof.
  intros Hg. revert s. induction xs as [|x xs IH]; intros s; [done|]. csimpl.
  rewrite Hg. unfold mbind, M_bind. destruct (f x s) as [[?|e] s']; [apply IH|done].
Qed.

(** [ops] folds without a conflict, into [l]. *)
Definition folds (ops : list VfdwWriteOp) (l : Ledger) : Prop :=
  miter vfdw_ledger_note ops ledger_empty = (Ok (), l).

Lemma folds_bare ops l : folds (bare <$> ops) l ↔ folds ops l.
Proof. unfold folds. by rewrite miter_fmap by apply note_bare. Qed.

Lemma folds_promote c ops l : folds (promote c <$> ops) l ↔ folds ops l.
Proof. unfold folds. by rewrite miter_fmap by (intros; apply note_promote). Qed.

Lemma folds_prefix ops1 ops2 l : folds (ops1 ++ ops2) l → ∃ l1, folds ops1 l1.
Proof. apply miter_ok_prefix. Qed.

Lemma folds_snoc ops op l l' :
  folds ops l → vfdw_ledger_note op l = (Ok (), l') → folds (ops ++ [op]) l'.
Proof.
  unfold folds. rewrite miter_app. intros -> H. simpl. unfold mbind, M_bind. by rewrite H.
Qed.

Lemma folds_unflagged ops l : folds ops l → lg_rebuilding l = false.
Proof.
  intros H. pose proof (blind_miter vfdw_ledger_note ops blind_note false ledger_empty) as Hb.
  change (flagged false ledger_empty) with ledger_empty in Hb. rewrite H in Hb.
  simpl in Hb. injection Hb as Hb. by rewrite Hb.
Qed.

Lemma folds_ok ops l : folds ops l → ledger_ok l.
Proof.
  intros H. pose proof (pres_miter ledger_ok vfdw_ledger_note ops (λ x _, pres_note x) ledger_empty) as Hp.
  rewrite H in Hp. apply Hp. by left.
Qed.

(** Re-folding an accepted log succeeds, from any ledger that is not itself
    being rebuilt, and gives the incremental result. *)
Lemma rebuild_folds ops l0 l :
  lg_rebuilding l0 = false → ledger_ok l0 → folds ops l →
  vfdw_ledger_rebuild_from_buffer ops l0 = (Ok (), l).
Proof.
  intros Hf Hok H. unfold vfdw_ledger_rebuild_from_buffer. rewrite Hf.
  assert ((vfdw_ledger_reset l0).2 = ledger_empty) as ->.
  { unfold vfdw_ledger_reset, modify. simpl. destruct (lg_cxt l0) eqn:Ec.
    - by rewrite Hf.
    - destruct Hok as [(_ & H1 & H2 & H3 & H4)|[(_ & _ & Hc) _]]; [|congruence].
      destruct l0; simpl in *; by subst. }
  destruct ops as [|op ops]; [by injection H as <-|].
  pose proof (blind_miter vfdw_ledger_note (op :: ops) blind_note true ledger_empty) as Hb.
  unfold flagged in Hb. rewrite Hb, H. simpl. f_equal.
  pose proof (folds_unflagged _ _ H) as Hl. destruct l; simpl in *; by subst.
Qed.

(** The raise of a fold leaves the guard alone, and the ledger well formed. *)
Lemma note_raise_ok op l r l' :
  ledger_ok l → vfdw_ledger_note op l = (r, l') →
  ledger_ok l' ∧ lg_rebuilding l' = lg_rebuilding l.
Proof.
  intros Hl H. split.
  - pose proof (pres_note op l Hl) as Hp. by rewrite H in Hp.
  - pose proof (blind_note op (lg_rebuilding l) l) as Hb.
    assert (flagged (lg_rebuilding l) l = l) as E by by destruct l.
    rewrite E, H in Hb. injection Hb as Hb. by rewrite Hb.
Qed.
