(* ===== verification/WritePath.v ===== *)
(** One transaction on the write path: rows buffered by the modify callbacks
    (src/vfdw_modify.c), savepoints, statement errors and the end of the
    transaction, as a step relation over the buffer of Wbuf and its ledger. *)
From S2P Require Import Prelude Slot Opcode WriteOp Ledger LedgerFacts Wbuf.
From S2P Require Import WbufFacts Rebuild.
From stdpp Require Import relations sorting.
Local Open Scope Z_scope.

Definition set_hashslot (op : VfdwWriteOp) (slot : Z) : VfdwWriteOp :=
  WriteOp (op_prev op) (op_next op) (op_kind op) (op_relid op) (op_tabletype op)
    (op_level op) (op_cid op) slot (op_key op) (op_oldkey op) (op_member op)
    (op_oldmember op) (op_value op) (op_score op) (op_fields op) (op_ttls op)
    (op_packed op) (op_packed_shape op) (op_newtup op) (op_target_attrs op)
    (op_keyset op).

(** The body the three modify callbacks share.  [rendered] is what rendering the
    row gives, an operation or a refusal; [bytes] and [rbytes] are what the
    allocator charges for the record and for the rendered row. *)
Definition vfdw_modify_row (rendered : result VfdwWriteOp) (bytes rbytes nest cid : Z)
    : M Wbuf unit :=
  a ← vfdw_wbuf_op_new bytes;
  wbuf_alloc rbytes;;;
  match rendered with
  | Raise e => raise e
  | Ok op =>
      op_fill a (set_hashslot op (vfdw_val_slot (op_key op)));;;
      vfdw_wbuf_append a nest cid;;;
      (w ← get;
       match wb_heap w !! a with
       | Some o => on_ledger (vfdw_ledger_note o)
       | None => mret ()
       end)
  end.

(** A session: the buffer, the transaction nest level, and whether the current
    (sub)transaction has failed and only an abort may follow. *)
Record Session := MkSession { s_w : Wbuf; s_nest : Z; s_failed : bool }.

Definition failed {A} (r : result A) : bool := negb (is_ok r).

Section steps.
Context (keeper : Z).

Inductive tstep : Session → Session → Prop :=
| ts_bind sid um uid db mo mb w n r w' :
    vfdw_wbuf_bind keeper sid um uid db mo mb n w = (r, w') →
    tstep (MkSession w n false) (MkSession w' n (failed r))
| ts_row rendered bytes rbytes cid w n r w' :
    vfdw_modify_row rendered bytes rbytes n cid w = (r, w') →
    tstep (MkSession w n false) (MkSession w' n (failed r))
| ts_statement_error w n : tstep (MkSession w n false) (MkSession w n true)
| ts_start_sub w n r w' :
    vfdw_wbuf_subxact SUBXACT_EVENT_START_SUB (n + 1) w = (r, w') →
    tstep (MkSession w n false) (MkSession w' (n + 1) (failed r))
| ts_commit_sub w n r1 w1 r2 w2 :
    1 < n →
    vfdw_wbuf_subxact SUBXACT_EVENT_PRE_COMMIT_SUB n w = (r1, w1) →
    vfdw_wbuf_subxact SUBXACT_EVENT_COMMIT_SUB n w1 = (r2, w2) →
    tstep (MkSession w n false) (MkSession w2 (n - 1) (failed r1 || failed r2))
| ts_abort_sub w n f r w' :
    1 < n →
    vfdw_wbuf_subxact SUBXACT_EVENT_ABORT_SUB n w = (r, w') →
    tstep (MkSession w n f) (MkSession w' (n - 1) (failed r))
| ts_end w n f r w' :
    vfdw_wbuf_reset keeper w = (r, w') →
    tstep (MkSession w n f) (MkSession w' 1 (failed r)).

Definition session_start : Session := MkSession wbuf_empty 1 false.

(** The invariant.  While no statement has failed the ledger is the fold of
    the log; once one has, the part of the log that an abort would leave
    still folds. *)
Record txn_inv (s : Session) : Prop := {
  ti_rep : ∃ xs, rep (s_w s) xs;
  ti_up : levels_up (wview (s_w s));
  ti_levels : Forall (λ o, 1 ≤ op_level o ≤ s_nest s) (wview (s_w s));
  ti_nest : 1 ≤ s_nest s;
  ti_ledger : ledger_ok (wb_ledger (s_w s));
  ti_flag : lg_rebuilding (wb_ledger (s_w s)) = false;
  ti_folds : ∃ l, folds (survivors (s_nest s) (wview (s_w s))) l;
  ti_fold : s_failed s = false → folds (wview (s_w s)) (wb_ledger (s_w s));
}.

Lemma txn_inv_start : txn_inv session_start.
Proof.
  assert (rep wbuf_empty []) as Hr.
  { constructor; try done; [constructor|]. by intros a [o Ho]. }
  assert (wview wbuf_empty = []) as Hv by done.
  constructor; simpl; rewrite ?Hv; try done; eauto.
  - constructor.
  - by left.
  - by exists ledger_empty.
Qed.

(** A change to the rest of the backend leaves the invariant alone. *)
Lemma txn_inv_frame w w' n f :
  wb_heap w' = wb_heap w → wb_fresh w' = wb_fresh w → wb_head w' = wb_head w →
  wb_tail w' = wb_tail w → wb_nlive w' = wb_nlive w → wb_ledger w' = wb_ledger w →
  txn_inv (MkSession w n f) → txn_inv (MkSession w' n f).
Proof.
  intros E1 E2 E3 E4 E5 E6 H. destruct (ti_rep _ H) as [xs Hr]. simpl in Hr.
  assert (Hr' : rep w' xs) by by eapply (rep_frame w).
  assert (Hv : wview w' = wview w) by by rewrite (wview_rep _ _ Hr), (wview_rep _ _ Hr'), E1.
  constructor; simpl; rewrite ?Hv, ?E6; try apply H. eauto.
Qed.

(** Failing: what an abort would leave is a prefix of an accepted log. *)
Lemma survivors_prefix c ops : levels_up ops → survivors c ops `prefix_of` ops.
Proof.
  intros Hs. unfold levels_up in Hs. unfold survivors.
  induction ops as [|o ops IH]; [done|]. csimpl in Hs.
  apply StronglySorted_inv in Hs as [Hs Hf]. rewrite filter_cons. case_decide as Hd.
  - by apply prefix_cons, IH.
  - assert (filter (λ o, op_level o < c) ops = []) as ->; [|apply prefix_nil].
    clear IH Hs. induction ops as [|x ops IH]; [done|]. csimpl in Hf.
    apply Forall_cons in Hf as [Hx Hf]. rewrite filter_cons, decide_False by lia. by apply IH.
Qed.

Lemma survivors_levels c ops : Forall (λ o, op_level o < c) (survivors c ops).
Proof. unfold survivors. apply Forall_forall. intros o [Ho _]%list_elem_of_filter. done. Qed.

Lemma survivors_idem c ops : survivors c (survivors c ops) = survivors c ops.
Proof. apply filter_keeps_all, survivors_levels. Qed.

Lemma folds_survivors c ops l : levels_up ops → folds ops l → ∃ l', folds (survivors c ops) l'.
Proof.
  intros Hs Hf. destruct (survivors_prefix c ops Hs) as [rest Hr]. rewrite Hr in Hf.
  by apply folds_prefix in Hf.
Qed.

Lemma txn_inv_fail w n f : txn_inv (MkSession w n f) → txn_inv (MkSession w n true).
Proof. intros H. constructor; try apply H. done. Qed.

Lemma levels_up_app_l ops1 ops2 : levels_up (ops1 ++ ops2) → levels_up ops1.
Proof.
  induction ops2 as [|o ops2 IH] using rev_ind; [by rewrite app_nil_r|].
  rewrite app_assoc. intros [H _]%levels_up_snoc. auto.
Qed.

(** A record that is allocated and not linked. *)
Definition spare (w : Wbuf) (a : nat) : Prop :=
  is_Some (wb_heap w !! a) ∧ ∀ xs, rep w xs → a ∉ xs.

Lemma rep_insert_out w xs a o fresh :
  rep w xs → a ∉ xs → (a < fresh)%nat → (wb_fresh w ≤ fresh)%nat →
  rep (set_heap (<[a := o]> (wb_heap w)) fresh w) xs ∧
  view_of (<[a := o]> (wb_heap w)) xs = view_of (wb_heap w) xs.
Proof.
  intros H Ha Hlt Hle. split.
  - constructor; simpl; try apply H.
    + intros i x Hi. destruct (rep_linked _ _ H i x Hi) as (o' & Ho' & Hl). exists o'.
      rewrite lookup_insert_ne; [done|]. intros ->. apply Ha. by eapply list_elem_of_lookup_2.
    + intros x [o' Ho']. destruct (decide (x = a)) as [->|Hne]; [done|].
      rewrite lookup_insert_ne in Ho' by done.
      pose proof (rep_fresh _ _ H x (mk_is_Some _ _ Ho')). lia.
  - unfold view_of. clear H. induction xs as [|x xs IH]; [done|]. csimpl.
    rewrite lookup_insert_ne by set_solver. by rewrite IH by set_solver.
Qed.

(** Writing to a record that is not linked leaves the invariant alone. *)
Lemma txn_inv_write w n f a o fresh :
  txn_inv (MkSession w n f) → (∀ xs, rep w xs → a ∉ xs) → (a < fresh)%nat →
  (wb_fresh w ≤ fresh)%nat →
  txn_inv (MkSession (set_heap (<[a := o]> (wb_heap w)) fresh w) n f) ∧
  spare (set_heap (<[a := o]> (wb_heap w)) fresh w) a.
Proof.
  intros H Ha Hlt Hle. destruct (ti_rep _ H) as [xs Hr]. simpl in Hr.
  destruct (rep_insert_out w xs a o fresh Hr (Ha _ Hr) Hlt Hle) as [Hr' Hv].
  assert (Hw : wview (set_heap (<[a := o]> (wb_heap w)) fresh w) = wview w)
    by by rewrite (wview_rep _ _ Hr'), (wview_rep _ _ Hr).
  split.
  - constructor; simpl; rewrite ?Hw; try apply H. eauto.
  - split; [simpl; rewrite lookup_insert_eq; eauto|].
    intros ys Hy. rewrite (rep_unique _ _ _ Hy Hr'). eauto.
Qed.

Lemma fresh_spare w : ∀ xs, rep w xs → wb_fresh w ∉ xs.
Proof.
  intros xs Hr Hin. pose proof (rep_fresh _ _ Hr (wb_fresh w) (linked_in _ _ _ (rep_linked _ _ Hr) Hin)).
  lia.
Qed.

Lemma op_new_inv bytes w n :
  txn_inv (MkSession w n false) →
  wp (vfdw_wbuf_op_new bytes)
    (λ a w', txn_inv (MkSession w' n false) ∧ spare w' a ∧ (a < wb_fresh w')%nat)
    (λ _ w', txn_inv (MkSession w' n true)) w.
Proof.
  intros H. unfold wp, vfdw_wbuf_op_new. rewrite get_bind.
  destruct (u_bound (wb_unit w)); simpl; [|by apply txn_inv_fail in H].
  destruct (over_byte_cap w); [by apply txn_inv_fail in H|].
  unfold wbuf_alloc. rewrite !modify_bind.
  set (w1 := set_mem _ _ _ w).
  assert (H1 : txn_inv (MkSession w1 n false)) by by apply (txn_inv_frame w).
  destruct (txn_inv_write w1 n false (wb_fresh w1) zeroed_op (S (wb_fresh w1)) H1) as [H2 H3];
    [apply fresh_spare|lia|lia|].
  split_and!; [exact H2|exact H3|]. simpl. lia.
Qed.

(** The append of a spare record, whether it is refused or not. *)
Lemma append_inv w n a cid :
  txn_inv (MkSession w n false) → spare w a →
  wp (vfdw_wbuf_append a n cid)
    (λ _ w', ∃ xs o, rep w' xs ∧ wb_heap w' !! a = Some o ∧
       wview w' = wview w ++ [bare o] ∧ op_level o = n ∧ wb_ledger w' = wb_ledger w)
    (λ _ w', txn_inv (MkSession w' n true)) w.
Proof.
  intros H [[o Ho] Hout]. destruct (ti_rep _ H) as [xs Hr]. simpl in Hr.
  specialize (Hout xs Hr). unfold wp. rewrite append_eq.
  destruct (stamp_only_rep w xs a n cid Hr Hout) as (Hr' & Hs & Hv).
  assert (Hw : wview (stamp_only w a n cid) = wview w)
    by by rewrite (wview_rep _ _ Hr'), (wview_rep _ _ Hr).
  assert (Hst : txn_inv (MkSession (stamp_only w a n cid) n true)).
  { constructor; simpl; rewrite ?Hw; try apply H; [by eauto|done]. }
  case_bool_decide; [done|]. destruct (over_byte_cap w); [done|]. clear Hst Hw Hv Hs Hr'.
  destruct (appended_rep w xs a o n cid Hr Ho Hout) as (Hr' & Hv & Hd).
  destruct (rep_linked _ _ Hr' (length xs) a) as (o' & Ho' & _).
  { by rewrite lookup_app_r, Nat.sub_diag by lia. }
  exists (xs ++ [a]), o'. rewrite (view_snoc _ _ _ _ Ho') in Hv.
  apply (f_equal (λ v, last v)) in Hv as Hb. rewrite !last_snoc in Hb.
  assert (Hl : op_level o' = n).
  { apply (f_equal (option_map op_level)) in Hb. simpl in Hb. congruence. }
  split_and!; [done|done| |done|done].
  rewrite (wview_rep _ _ Hr'), (wview_rep _ _ Hr), (view_snoc _ _ _ _ Ho'), Hv. congruence.
Qed.

(** After the append the fold decides; either way the invariant holds. *)
Lemma note_inv w0 w n a xs o :
  txn_inv (MkSession w0 n false) → rep w xs → wb_heap w !! a = Some o →
  wview w = wview w0 ++ [bare o] → op_level o = n → wb_ledger w = wb_ledger w0 →
  wp (on_ledger (vfdw_ledger_note o)) (λ _ w', txn_inv (MkSession w' n false))
    (λ _ w', txn_inv (MkSession w' n true)) w.
Proof.
  intros H Hr Ho Hv Hl Hled.
  pose proof (ti_fold _ H eq_refl) as Hf. pose proof (ti_ledger _ H) as Hok.
  pose proof (ti_flag _ H) as Hfl. simpl in *. rewrite <- Hled in Hf, Hok, Hfl.
  assert (Hup : levels_up (wview w)).
  { rewrite Hv. apply levels_up_snoc. split; [apply H|].
    eapply Forall_impl; [apply (ti_levels _ H)|]. simpl. intros; lia. }
  assert (Hlv : Forall (λ o, 1 ≤ op_level o ≤ n) (wview w)).
  { rewrite Hv. apply Forall_app. split; [apply (ti_levels _ H)|].
    constructor; [|done]. simpl. pose proof (ti_nest _ H). simpl in *. lia. }
  unfold wp, on_ledger. destruct (vfdw_ledger_note o (wb_ledger w)) as [r l'] eqn:En.
  destruct (note_raise_ok _ _ _ _ Hok En) as [Hok' Hfl'].
  assert (Hr' : rep (set_ledger l' w) xs) by by eapply (rep_frame w).
  assert (Hv' : wview (set_ledger l' w) = wview w)
    by by rewrite (wview_rep _ _ Hr'), (wview_rep _ _ Hr).
  assert (Hsv : ∃ l, folds (survivors n (wview w)) l).
  { rewrite Hv. unfold survivors. rewrite filter_app, filter_cons, decide_False by (simpl; lia).
    rewrite app_nil_r. apply (ti_folds _ H). }
  assert (Hgen : ∀ f, (f = false → folds (wview w) l') →
    txn_inv (MkSession (set_ledger l' w) n f)).
  { intros f Hff. constructor; simpl; rewrite ?Hv'; try done; [eauto|apply H|congruence]. }
  destruct r as [[]|e]; apply Hgen; [intros _|done].
  rewrite Hv. by eapply folds_snoc.
Qed.

Lemma row_inv rendered bytes rbytes n cid w :
  txn_inv (MkSession w n false) →
  wp (vfdw_modify_row rendered bytes rbytes n cid) (λ _ w', txn_inv (MkSession w' n false))
    (λ _ w', txn_inv (MkSession w' n true)) w.
Proof.
  intros H. unfold vfdw_modify_row. apply wp_bind.
  eapply wp_mono; [by apply op_new_inv| |done]. simpl. intros a w1 (H1 & Hsp & Hlt).
  unfold wbuf_alloc. unfold wp at 1. rewrite modify_bind.
  set (w2 := set_mem _ _ _ w1).
  assert (H2 : txn_inv (MkSession w2 n false)) by by apply (txn_inv_frame w1).
  assert (Hsp2 : ∀ xs, rep w2 xs → a ∉ xs).
  { intros xs Hx. apply Hsp. by apply (rep_frame w2). }
  fold (wp (match rendered with
    | Ok op => op_fill a (set_hashslot op (vfdw_val_slot (op_key op)));;;
        vfdw_wbuf_append a n cid;;;
        (w ← get; match wb_heap w !! a with
                  | Some o => on_ledger (vfdw_ledger_note o) | None => mret () end)
    | Raise e => raise e end) (λ _ w', txn_inv (MkSession w' n false))
    (λ _ w', txn_inv (MkSession w' n true)) w2).
  destruct rendered as [op|e]; [|by apply txn_inv_fail in H2].
  apply wp_bind. unfold wp at 1, op_fill, modify.
  destruct (txn_inv_write w2 n false a
    (set_links (set_hashslot op (vfdw_val_slot (op_key op))) None None) (wb_fresh w2) H2 Hsp2)
    as [H3 Hsp3]; [done|done|].
  apply wp_bind. eapply wp_mono; [by apply append_inv| |done].
  simpl. intros [] w4 (xs & o & Hr4 & Ho4 & Hv4 & Hl4 & Hled4).
  unfold wp at 1. rewrite get_bind, Ho4. by eapply note_inv.
Qed.

Lemma bind_inv sid um uid db mo mb n w :
  txn_inv (MkSession w n false) →
  wp (vfdw_wbuf_bind keeper sid um uid db mo mb n) (λ _ w', txn_inv (MkSession w' n false))
    (λ _ w', txn_inv (MkSession w' n true)) w.
Proof.
  intros H. unfold vfdw_wbuf_bind. apply wp_bind.
  assert (Hc : wp (vfdw_wbuf_context keeper) (λ _ w', txn_inv (MkSession w' n false))
    (λ _ _, False) w).
  { unfold wp, vfdw_wbuf_context. rewrite get_bind. destruct (wb_cxt w); [done|].
    by apply (txn_inv_frame w). }
  eapply wp_mono; [exact Hc| |done]. simpl. intros _ w1 H1.
  unfold wp at 1. rewrite gets_bind.
  destruct (u_bound (wb_unit w1)); simpl; [|by apply (txn_inv_frame w1)].
  unfold mbind, M_bind, when.
  repeat (case_bool_decide; simpl; [|by apply txn_inv_fail in H1]). done.
Qed.

Lemma abort_inv w n f :
  txn_inv (MkSession w n f) → 1 < n →
  ∃ w', vfdw_wbuf_subxact SUBXACT_EVENT_ABORT_SUB n w = (Ok (), w') ∧
        wview w' = survivors n (wview w) ∧ txn_inv (MkSession w' (n - 1) false).
Proof.
  intros H Hn. destruct (ti_rep _ H) as [xs Hr]. simpl in Hr.
  pose proof (ti_up _ H) as Hup. simpl in Hup. rewrite (wview_rep _ _ Hr) in Hup.
  destruct (abort_truncate_spec n w xs Hr Hup)
    as (w1 & ys & E1 & Hr1 & Hpre & Hv1 & Hl1 & Ho1 & _).
  rewrite <- (wview_rep _ _ Hr), <- (wview_rep _ _ Hr1) in Hv1.
  destruct (ti_folds _ H) as [l Hl]. simpl in Hl. rewrite <- Hv1 in Hl.
  pose proof (proj1 (folds_bare (live_ops w1) l) Hl) as Hl'.
  set (w2 := set_ledger l w1).
  set (w3 := set_overlay (vfdw_overlay_reset (wb_overlay w2)) w2).
  assert (E : vfdw_wbuf_subxact SUBXACT_EVENT_ABORT_SUB n w = (Ok (), w3)).
  { rewrite abort_split. unfold mbind at 1, M_bind at 1. rewrite E1.
    unfold mbind at 1, M_bind at 1, vfdw_ledger_rebuild at 1. rewrite get_bind. unfold on_ledger.
    rewrite (rebuild_folds (live_ops w1) (wb_ledger w1) l); [done|rewrite Hl1; apply H..|done]. }
  assert (Hr3 : rep w3 ys) by by eapply (rep_frame w1).
  assert (Hv3 : wview w3 = wview w1) by by rewrite (wview_rep _ _ Hr3), (wview_rep _ _ Hr1).
  exists w3. split_and!; [done|congruence|].
  assert (Hup1 : levels_up (wview w1)).
  { rewrite Hv1. destruct (survivors_prefix n _ (ti_up _ H)) as [rest Hrest]. simpl in Hrest.
    apply (levels_up_app_l _ rest). rewrite <- Hrest. apply H. }
  constructor; simpl; rewrite ?Hv3.
  - eauto.
  - done.
  - rewrite Hv1. apply Forall_forall. intros o Ho.
    pose proof (proj1 (Forall_forall _ _) (survivors_levels n (wview w)) o Ho) as H1.
    unfold survivors in Ho. apply list_elem_of_filter in Ho as [_ Ho].
    pose proof (proj1 (Forall_forall _ _) (ti_levels _ H) o Ho). simpl in *. lia.
  - lia.
  - by eapply folds_ok.
  - by eapply folds_unflagged.
  - by eapply folds_survivors.
  - done.
Qed.

Lemma promote_levels c ops :
  levels_up ops → levels_up (promote c <$> ops).
Proof.
  unfold levels_up. induction ops as [|o ops IH]; [done|]. csimpl.
  intros [Hs Hf]%StronglySorted_inv. constructor; [by apply IH|].
  rewrite !Forall_fmap in *. eapply Forall_impl; [exact Hf|]. simpl. intros x Hx.
  unfold promote. repeat case_bool_decide; simpl; lia.
Qed.

Lemma commit_inv w n :
  txn_inv (MkSession w n false) → 1 < n →
  ∃ w', vfdw_wbuf_subxact SUBXACT_EVENT_PRE_COMMIT_SUB n w = (Ok (), w') ∧
        wview w' = promote n <$> wview w ∧ txn_inv (MkSession w' (n - 1) false).
Proof.
  intros H Hn. destruct (ti_rep _ H) as [xs Hr]. simpl in Hr.
  pose proof (ti_up _ H) as Hup. simpl in Hup. rewrite (wview_rep _ _ Hr) in Hup.
  destruct (precommit_spec n w xs Hr Hup) as (w' & E & Hr' & Hv & Hl & _).
  rewrite <- (wview_rep _ _ Hr), <- (wview_rep _ _ Hr') in Hv.
  exists w'. split_and!; [done|done|].
  assert (Hf : folds (wview w') (wb_ledger w')).
  { rewrite Hv, Hl. apply folds_promote. by apply H. }
  assert (Hup' : levels_up (wview w')) by (rewrite Hv; apply promote_levels, H).
  constructor; simpl; try done.
  - eauto.
  - rewrite Hv, Forall_fmap. eapply Forall_impl; [apply (ti_levels _ H)|]. simpl.
    intros o Ho. unfold promote. case_bool_decide; simpl; lia.
  - lia.
  - by eapply folds_ok.
  - by eapply folds_unflagged.
  - by eapply folds_survivors.
Qed.

Lemma ledger_reset_empty l :
  ledger_ok l → lg_rebuilding l = false → vfdw_ledger_reset l = (Ok (), ledger_empty).
Proof.
  intros Hok Hf. unfold vfdw_ledger_reset, modify. f_equal. destruct (lg_cxt l) eqn:Ec.
  - by rewrite Hf.
  - destruct Hok as [(_ & H1 & H2 & H3 & H4)|[(_ & _ & Hc) _]]; [|congruence].
    destruct l; simpl in *; by subst.
Qed.

Lemma reset_inv w n f :
  txn_inv (MkSession w n f) →
  ∃ w', vfdw_wbuf_reset keeper w = (Ok (), w') ∧ wview w' = [] ∧
        u_bound (wb_unit w') = false ∧ txn_inv (MkSession w' 1 false).
Proof.
  intros H. destruct (ti_rep _ H) as [xs Hr]. simpl in Hr.
  destruct (vfdw_wbuf_reset keeper w) as [r w'] eqn:E.
  pose proof (ledger_reset_empty _ (ti_ledger _ H) (ti_flag _ H)) as Hlr. simpl in Hlr.
  unfold vfdw_wbuf_reset in E. rewrite !modify_bind in E.
  unfold mbind at 1, M_bind at 1, on_ledger in E.
  change (wb_ledger _) with (wb_ledger w) in E at 1. rewrite Hlr in E.
  unfold vfdw_overlay_rebuild in E. rewrite modify_bind in E. unfold modify in E.
  assert (Hfields : r = Ok () ∧ wb_head w' = None ∧ wb_tail w' = None ∧ wb_nlive w' = 0 ∧
    wb_fresh w' = wb_fresh w ∧ wb_ledger w' = ledger_empty ∧ u_bound (wb_unit w') = false ∧
    wb_heap w' = if wb_cxt w then ∅ else wb_heap w).
  { injection E as <- <-. by destruct w as [[] ]. }
  destruct Hfields as (-> & Hh & Ht & Hn & Hfr & Hl & Hu & Hhp).
  assert (Hr' : rep w' []).
  { constructor; try done; [constructor|]. rewrite Hhp, Hfr. destruct (wb_cxt w).
    - by intros a [o Ho].
    - apply Hr. }
  assert (Hv : wview w' = []) by by rewrite (wview_rep _ _ Hr').
  exists w'. split_and!; try done.
  constructor; simpl; rewrite ?Hv, ?Hl; try done; eauto.
  - constructor.
  - by left.
  - by exists ledger_empty.
Qed.

Lemma tstep_inv s s' : tstep s s' → txn_inv s → txn_inv s'.
Proof.
  intros Hst H. destruct Hst as [sid um uid db mo mb w n r w' E|rd b rb cid w n r w' E|w n
    |w n r w' E|w n r1 w1 r2 w2 Hn E1 E2|w n f r w' Hn E|w n f r w' E].
  - pose proof (bind_inv sid um uid db mo mb n w H) as Hw. unfold wp in Hw. rewrite E in Hw.
    by destruct r.
  - pose proof (row_inv rd b rb n cid w H) as Hw. unfold wp in Hw. rewrite E in Hw. by destruct r.
  - by apply txn_inv_fail in H.
  - injection E as <- <-. pose proof (ti_nest _ H) as Hn. simpl in Hn.
    constructor; simpl; try apply H; [|lia|].
    + eapply Forall_impl; [apply (ti_levels _ H)|]. simpl. intros; lia.
    + eapply folds_survivors; [apply H|by apply H].
  - destruct (commit_inv w n H Hn) as (w' & E & _ & H'). rewrite E in E1.
    injection E1 as <- <-. injection E2 as <- <-. done.
  - destruct (abort_inv w n f H Hn) as (w1 & E1 & _ & H'). rewrite E1 in E.
    by injection E as <- <-.
  - destruct (reset_inv w n f H) as (w1 & E1 & _ & _ & H'). rewrite E1 in E.
    by injection E as <- <-.
Qed.

Lemma reachable_inv s : rtc tstep session_start s → txn_inv s.
Proof.
  assert (Hgen : ∀ s0, rtc tstep s0 s → txn_inv s0 → txn_inv s).
  { intros s0 Hr. induction Hr as [s|s1 s2 s3 H12 _ IH]; [done|].
    intros H1. apply IH. by eapply tstep_inv. }
  intros Hr. apply (Hgen _ Hr), txn_inv_start.
Qed.
End steps.

(* ---------------------------------------------------------------- *)
(** ** Properties *)

(** C5: in every session the wrapper can be driven into, as long as no statement
    of the current (sub)transaction has failed, the ledger is the fold of the
    operations in the buffer, in order: the incremental fold, truncation,
    promotion and re-folding never drift apart. *)
Theorem ledger_is_fold_of_log (keeper : Z) (s : Session) :
  rtc (tstep keeper) session_start s → s_failed s = false →
  miter vfdw_ledger_note (wview (s_w s)) ledger_empty = (Ok (), wb_ledger (s_w s)).
Proof. intros Hr. apply (reachable_inv keeper s Hr). Qed.

(** C6: ROLLBACK TO SAVEPOINT never raises, wherever in the session it comes and
    even after a refused row: exactly the operations of enclosing levels remain
    in the buffer, in order, and the rebuilt ledger is their fold. *)
Theorem abort_sub_restores_the_log (keeper : Z) (s : Session) :
  rtc (tstep keeper) session_start s → 1 < s_nest s →
  ∃ w', vfdw_wbuf_subxact SUBXACT_EVENT_ABORT_SUB (s_nest s) (s_w s) = (Ok (), w') ∧
        wview w' = filter (λ o, op_level o < s_nest s) (wview (s_w s)) ∧
        miter vfdw_ledger_note (wview w') ledger_empty = (Ok (), wb_ledger w').
Proof.
  intros Hr Hn. pose proof (reachable_inv keeper s Hr) as Hi. destruct s as [w n f]. simpl in *.
  destruct (abort_inv w n f Hi Hn) as (w' & E & Hv & Hi'). exists w'.
  split_and!; [done|done|by apply (ti_fold _ Hi')].
Qed.

(** RELEASE SAVEPOINT keeps every operation and hands those of the released
    level to its parent; the ledger is untouched. *)
Theorem commit_sub_promotes_the_log (keeper : Z) (s : Session) :
  rtc (tstep keeper) session_start s → s_failed s = false → 1 < s_nest s →
  ∃ w', vfdw_wbuf_subxact SUBXACT_EVENT_PRE_COMMIT_SUB (s_nest s) (s_w s) = (Ok (), w') ∧
        wview w' = (λ o, if bool_decide (s_nest s ≤ op_level o)
                         then set_level o (s_nest s - 1) else o) <$> wview (s_w s) ∧
        miter vfdw_ledger_note (wview w') ledger_empty = (Ok (), wb_ledger w').
Proof.
  intros Hr Hf Hn. pose proof (reachable_inv keeper s Hr) as Hi. destruct s as [w n f]. simpl in *.
  subst f. destruct (commit_inv w n Hi Hn) as (w' & E & Hv & Hi'). exists w'.
  split_and!; [done|done|by apply (ti_fold _ Hi')].
Qed.

(** A session that binds, writes a row, opens a savepoint and writes another. *)
Module Sample.
Definition w1 : Wbuf := (vfdw_wbuf_bind 1024 10 20 30 0 100 65536 1 wbuf_empty).2.
Definition row (k : bytes) : VfdwWriteOp := blank_op VFDW_OP_INSERT VFDW_TABLE_STRING k.
Definition w2 : Wbuf := (vfdw_modify_row (Ok (row "a")) 200 100 1 1 w1).2.
Definition w3 : Wbuf := (vfdw_modify_row (Ok (row "b")) 200 100 2 2 w2).2.

Lemma reach1 : rtc (tstep 1024) session_start (MkSession w1 1 false).
Proof. eapply rtc_l; [|apply rtc_refl]. by apply (ts_bind 1024 10 20 30 0 100 65536 _ _ (Ok ())). Qed.

Definition s3 : Session := MkSession w3 2 false.

Lemma reach3 : rtc (tstep 1024) session_start s3.
Proof.
  eapply rtc_r; [eapply rtc_r; [eapply rtc_r; [apply reach1|]|]|].
  - apply (ts_row 1024 (Ok (row "a")) 200 100 1 w1 1 (Ok ()) w2). vm_compute. reflexivity.
  - by apply (ts_start_sub 1024 w2 1 (Ok ())).
  - apply (ts_row 1024 (Ok (row "b")) 200 100 2 w2 2 (Ok ()) w3). vm_compute. reflexivity.
Qed.
End Sample.

Lemma ledger_is_fold_of_log_witness :
  length (wview (s_w Sample.s3)) = 2%nat ∧
  miter vfdw_ledger_note (wview (s_w Sample.s3)) ledger_empty = (Ok (), wb_ledger (s_w Sample.s3)).
Proof.
  split; [vm_compute; reflexivity|].
  exact (ledger_is_fold_of_log 1024 Sample.s3 Sample.reach3 eq_refl).
Defined.

Lemma abort_sub_restores_the_log_witness :
  ∃ w', vfdw_wbuf_subxact SUBXACT_EVENT_ABORT_SUB (s_nest Sample.s3) (s_w Sample.s3) = (Ok (), w') ∧
        wview w' = filter (λ o, op_level o < s_nest Sample.s3) (wview (s_w Sample.s3)) ∧
        miter vfdw_ledger_note (wview w') ledger_empty = (Ok (), wb_ledger w').
Proof. exact (abort_sub_restores_the_log 1024 Sample.s3 Sample.reach3 eq_refl). Defined.

Lemma commit_sub_promotes_the_log_witness :
  ∃ w', vfdw_wbuf_subxact SUBXACT_EVENT_PRE_COMMIT_SUB (s_nest Sample.s3) (s_w Sample.s3)
          = (Ok (), w') ∧
        wview w' = (λ o, if bool_decide (s_nest Sample.s3 ≤ op_level o)
                         then set_level o (s_nest Sample.s3 - 1) else o) <$> wview (s_w Sample.s3) ∧
        miter vfdw_ledger_note (wview w') ledger_empty = (Ok (), wb_ledger w').
Proof. exact (commit_sub_promotes_the_log 1024 Sample.s3 Sample.reach3 eq_refl eq_refl). Defined.
