(* ===== verification/Overlay.v ===== *)
(** Read your own writes: the index of the buffered operations by (relid, key)
    and the visibility rule (src/vfdw_overlay.c). *)
From S2P Require Import Prelude Opcode WriteOp Ledger Wbuf.
Local Open Scope Z_scope.

Inductive VfdwOverlayVerdict := VFDW_OVL_PASS | VFDW_OVL_HIDE | VFDW_OVL_REPLACE.

#[global] Instance VfdwOverlayVerdict_eq_dec : EqDecision VfdwOverlayVerdict.
Proof. solve_decision. Defined.

(* ---------------------------------------------------------------- *)
(** ** The index *)

(** Append the operation at [a] to its key's list. *)
Definition vfdw_overlay_record (h : gmap nat VfdwWriteOp)
    (tab : gmap (Z * bytes) (list nat)) (a : nat) : gmap (Z * bytes) (list nat) :=
  match h !! a with
  | None => tab
  | Some op =>
      let k := (op_relid op, op_key op) in
      match tab !! k with
      | None => <[k := [a]]> tab
      | Some l => <[k := l ++ [a]]> tab
      end
  end.

(** The successor of the last operation an earlier build recorded, or the head
    of the list when that build recorded none. *)
Definition extend_from (w : Wbuf) : option nat :=
  match ov_built_tail (wb_overlay w) with
  | Some t => wb_heap w !! t ≫= op_next
  | None => vfdw_wbuf_first w
  end.

Definition vfdw_overlay_build (w : Wbuf) : Wbuf :=
  let o := wb_overlay w in
  if ov_have o && bool_decide (ov_built_gen o = vfdw_wbuf_generation w) then w
  else if ov_have o && bool_decide (ov_built_shrink_gen o = vfdw_wbuf_shrink_generation w) then
    let tab := fold_left (vfdw_overlay_record (wb_heap w))
                 (live_from w (extend_from w)) (ov_tab o) in
    set_overlay (MkOverlay (ov_cxt o) tab (vfdw_wbuf_generation w) (ov_built_shrink_gen o)
                   (vfdw_wbuf_last w) (ov_rebuilds o) (u64 (ov_extends o + 1)) (ov_have o)) w
  else
    let o := vfdw_overlay_reset o in
    let tab := fold_left (vfdw_overlay_record (wb_heap w)) (live_addrs w) ∅ in
    set_overlay (MkOverlay true tab (vfdw_wbuf_generation w) (vfdw_wbuf_shrink_generation w)
                   (vfdw_wbuf_last w) (u64 (ov_rebuilds o + 1)) (ov_extends o) true) w.

Definition vfdw_overlay_index_stats (w : Wbuf) : Z * Z :=
  (ov_rebuilds (wb_overlay w), ov_extends (wb_overlay w)).

Definition vfdw_overlay_active (w : Wbuf) : bool := negb (vfdw_wbuf_is_empty w).

(* ---------------------------------------------------------------- *)
(** ** What this transaction has done to one key *)

(** The backwards loop over an entry's operations; [ops] is the array from its
    last element to its first. *)
Fixpoint newest_visible (h : gmap nat VfdwWriteOp) (curcid : Z) (ops : list nat)
    : VfdwOverlayVerdict * option HeapTuple :=
  match ops with
  | [] => (VFDW_OVL_PASS, None)
  | a :: rest =>
      match h !! a with
      | None => newest_visible h curcid rest
      | Some op =>
          if bool_decide (curcid ≤ op_cid op) then newest_visible h curcid rest
          else if bool_decide (op_kind op = VFDW_OP_DELETE) then (VFDW_OVL_HIDE, None)
          else match op_newtup op with
               | None => (VFDW_OVL_PASS, None)
               | Some tup => (VFDW_OVL_REPLACE, Some tup)
               end
      end
  end.

Definition vfdw_overlay_check (relid : Z) (key : bytes) (curcid : Z) (w : Wbuf)
    : (VfdwOverlayVerdict * option HeapTuple) * Wbuf :=
  if vfdw_wbuf_is_empty w then ((VFDW_OVL_PASS, None), w) else
  let w := vfdw_overlay_build w in
  match ov_tab (wb_overlay w) !! (relid, key) with
  | None => ((VFDW_OVL_PASS, None), w)
  | Some ops => (newest_visible (wb_heap w) curcid (reverse ops), w)
  end.

(* ---------------------------------------------------------------- *)
(** ** Tail iteration *)

Record VfdwOverlayIter := OverlayIter {
  it_relid : Z;
  it_curcid : Z;
  it_generation : Z;
  it_next : option nat;
}.

Definition vfdw_overlay_iter_init (relid curcid : Z) (w : Wbuf) : VfdwOverlayIter :=
  OverlayIter relid curcid (vfdw_wbuf_generation w) (vfdw_wbuf_first w).

(** The loop of [vfdw_overlay_iter_next]: the row and the key it was found
    under, the iterator, and the backend. *)
Fixpoint iter_loop (fuel : nat) (it : VfdwOverlayIter) (w : Wbuf)
    : option (HeapTuple * bytes) * VfdwOverlayIter * Wbuf :=
  match fuel, it_next it ≫= λ a, wb_heap w !! a with
  | S n, Some op =>
      let it := OverlayIter (it_relid it) (it_curcid it) (it_generation it) (op_next op) in
      if negb (bool_decide (op_relid op = it_relid it)) ||
         negb (bool_decide (op_kind op = VFDW_OP_INSERT)) then iter_loop n it w
      else
        let '((verdict, tup), w) :=
          vfdw_overlay_check (op_relid op) (op_key op) (it_curcid it) w in
        match verdict, tup with
        | VFDW_OVL_REPLACE, Some t => (Some (t, op_key op), it, w)
        | _, _ => iter_loop n it w
        end
  | _, _ => (None, it, w)
  end.

Definition vfdw_overlay_iter_next (it : VfdwOverlayIter) (w : Wbuf)
    : option (HeapTuple * bytes) * VfdwOverlayIter * Wbuf :=
  let it := if bool_decide (it_generation it = vfdw_wbuf_generation w) then it
            else vfdw_overlay_iter_init (it_relid it) (it_curcid it) w in
  iter_loop (S (size (wb_heap w))) it w.
