(* ===== verification/OverlayFacts.v ===== *)
(** The overlay's index is never stale: whatever it was built against, and
    however it was brought up to date, the answer it gives is the answer a scan
    of the log gives (src/vfdw_overlay.c). *)
From S2P Require Import Prelude Opcode WriteOp Ledger Wbuf WbufFacts Overlay.
From stdpp Require Import list.
Local Open Scope Z_scope.

(* ---------------------------------------------------------------- *)
(** ** Specification *)

(** The answer read off the log: the newest operation of this relation on this
    key that command [curcid] may see decides. *)
Definition visible (relid : Z) (key : bytes) (curcid : Z) (o : VfdwWriteOp) : Prop :=
  op_relid o = relid ∧ op_key o = key ∧ op_cid o < curcid.

#[global] Instance visible_dec relid key curcid o : Decision (visible relid key curcid o).
Proof. unfold visible. apply _. Defined.

Definition log_verdict (relid : Z) (key : bytes) (curcid : Z) (log : list VfdwWriteOp)
    : VfdwOverlayVerdict * option HeapTuple :=
  match last (filter (visible relid key curcid) log) with
  | None => (VFDW_OVL_PASS, None)
  | Some o =>
      match op_kind o, op_newtup o with
      | VFDW_OP_DELETE, _ => (VFDW_OVL_HIDE, None)
      | _, None => (VFDW_OVL_PASS, None)
      | _, Some t => (VFDW_OVL_REPLACE, Some t)
      end
  end.

(* ---------------------------------------------------------------- *)
(** ** The index of a list of addresses *)

Definition key_of (h : gmap nat VfdwWriteOp) (a : nat) : option (Z * bytes) :=
  (λ o, (op_relid o, op_key o)) <$> h !! a.

Definition entry_of (h : gmap nat VfdwWriteOp) (xs : list nat) (k : Z * bytes) : list nat :=
  filter (λ a, key_of h a = Some k) xs.

Definition indexes (h : gmap nat VfdwWriteOp) (xs : list nat)
    (tab : gmap (Z * bytes) (list nat)) : Prop :=
  ∀ k, default [] (tab !! k) = entry_of h xs k.

Lemma indexes_nil h : indexes h [] ∅.
Proof. intros k. by rewrite lookup_empty. Qed.

Lemma indexes_record h xs tab a :
  indexes h xs tab → indexes h (xs ++ [a]) (vfdw_overlay_record h tab a).
Proof.
  intros H k. unfold entry_of. rewrite filter_app, filter_cons, filter_nil.
  fold (entry_of h xs k). rewrite <- H. unfold vfdw_overlay_record, key_of.
  destruct (h !! a) as [op|]; simpl; [|by rewrite app_nil_r].
  set (k0 := (op_relid op, op_key op)). destruct (decide (k0 = k)) as [->|Hne].
  - rewrite decide_True by done. destruct (tab !! k) eqn:E; by rewrite lookup_insert_eq.
  - rewrite decide_False by congruence. rewrite app_nil_r.
    destruct (tab !! k0) eqn:E; by rewrite lookup_insert_ne.
Qed.

Lemma indexes_fold h xs ys tab :
  indexes h xs tab → indexes h (xs ++ ys) (fold_left (vfdw_overlay_record h) ys tab).
Proof.
  revert xs tab. induction ys as [|y ys IH]; intros xs tab H; simpl; [by rewrite app_nil_r|].
  replace (xs ++ y :: ys) with ((xs ++ [y]) ++ ys) by by rewrite <- app_assoc.
  by apply IH, indexes_record.
Qed.

(** Relinking, stamping and promoting do not move an operation to another
    entry. *)
Lemma indexes_ext h h' xs tab :
  (∀ a, a ∈ xs → key_of h' a = key_of h a) → indexes h xs tab → indexes h' xs tab.
Proof.
  intros Hk H k. rewrite H. unfold entry_of. clear H. induction xs as [|x xs IH]; [done|].
  rewrite !filter_cons, Hk by set_solver.
  rewrite IH by (intros; apply Hk; set_solver). done.
Qed.

(* ---------------------------------------------------------------- *)
(** ** The backwards loop *)

Lemma newest_visible_log h relid key curcid xs :
  Forall (λ a, is_Some (h !! a)) xs →
  newest_visible h curcid (reverse (entry_of h xs (relid, key))) =
  log_verdict relid key curcid (view_of h xs).
Proof.
  intros Hall. unfold log_verdict.
  induction xs as [|a xs IH] using rev_ind; [done|].
  apply Forall_app in Hall as [Hall Ha]. inversion Ha as [|? ? [o Ho] _]; subst.
  specialize (IH Hall). rewrite (view_snoc _ _ _ _ Ho).
  unfold entry_of. rewrite !filter_app, !filter_cons, !filter_nil.
  fold (entry_of h xs (relid, key)). unfold key_of. rewrite Ho. simpl.
  destruct (decide (Some (op_relid o, op_key o) = Some (relid, key))) as [Hk|Hk].
  - injection Hk as Hr Hkey. rewrite reverse_app. simpl. rewrite Ho.
    case_bool_decide as Hc.
    + rewrite IH, decide_False; [by rewrite app_nil_r|]. unfold visible; simpl. lia.
    + rewrite decide_True by (unfold visible; simpl; split_and!; [done|done|lia]).
      rewrite last_snoc. simpl. case_bool_decide as Hd; [by rewrite Hd|].
      by destruct (op_kind o), (op_newtup o).
  - rewrite app_nil_r, IH, decide_False; [by rewrite app_nil_r|].
    unfold visible; simpl. intros (? & ? & _). by subst.
Qed.

(* ---------------------------------------------------------------- *)
(** ** Coherence *)

(** If there is an index, it is the index of a prefix of the log, of all of it
    when the generations agree, and its resume point is the end of that prefix. *)
Definition coherent (w : Wbuf) (xs : list nat) : Prop :=
  0 ≤ wb_shrink_gen w ∧ 0 ≤ wb_gen w < 2 ^ 64 ∧
  (ov_have (wb_overlay w) = true →
   ov_cxt (wb_overlay w) = true ∧ 0 ≤ ov_built_gen (wb_overlay w) ≤ wb_gen w ∧
   ∃ ys, ys `prefix_of` xs ∧ indexes (wb_heap w) ys (ov_tab (wb_overlay w)) ∧
         ov_built_tail (wb_overlay w) = last ys ∧
         (ov_built_gen (wb_overlay w) = wb_gen w → ys = xs)).

Lemma resume_after w xs ys :
  rep w xs → ys `prefix_of` xs → ov_built_tail (wb_overlay w) = last ys →
  live_from w (extend_from w) = drop (length ys) xs.
Proof.
  intros H [zs ->] Ht. unfold live_from, extend_from. rewrite Ht.
  assert (Hsz : (length (ys ++ zs) ≤ size (wb_heap w))%nat)
    by (apply linked_size; apply H).
  rewrite last_lookup'. destruct (length ys) as [|m] eqn:El.
  - unfold vfdw_wbuf_first. rewrite (rep_head _ _ H), head_lookup.
    apply chain_linked; [apply H|]. lia.
  - destruct (lookup_lt_is_Some_2 ys m) as [t Hm]; [lia|]. rewrite Hm.
    destruct (rep_linked _ _ H m t) as (o & Ho & _ & Hn); [by rewrite lookup_app_l by lia|].
    simpl. rewrite Ho. simpl. rewrite Hn. apply chain_linked; [apply H|]. lia.
Qed.

(** An index made from the whole log. *)
Lemma rebuilt_coherent w xs tab rb ex :
  rep w xs → 0 ≤ wb_shrink_gen w → 0 ≤ wb_gen w < 2 ^ 64 → indexes (wb_heap w) xs tab →
  let w' := set_overlay (MkOverlay true tab (vfdw_wbuf_generation w)
              (vfdw_wbuf_shrink_generation w) (vfdw_wbuf_last w) rb ex true) w in
  rep w' xs ∧ wb_heap w' = wb_heap w ∧ indexes (wb_heap w) xs (ov_tab (wb_overlay w')) ∧
  coherent w' xs.
Proof.
  intros H Hs0 Hg0 Hi w'.
  split; [by apply (rep_frame w)|]. do 2 (split; [done|]). split; [done|]. split; [done|].
  intros _. split; [done|]. split; simpl.
  - unfold vfdw_wbuf_generation. lia.
  - exists xs. split_and!; [done|done|apply H|done].
Qed.

Lemma build_indexes w xs :
  rep w xs → coherent w xs →
  rep (vfdw_overlay_build w) xs ∧ wb_heap (vfdw_overlay_build w) = wb_heap w ∧
  indexes (wb_heap w) xs (ov_tab (wb_overlay (vfdw_overlay_build w))) ∧
  coherent (vfdw_overlay_build w) xs.
Proof.
  intros H (Hs0 & Hg0 & Hc). unfold vfdw_overlay_build.
  destruct (ov_have (wb_overlay w)) eqn:Eh; simpl.
  - destruct (Hc eq_refl) as (Hcx & Hbg & ys & Hpre & Hidx & Htl & Hfull).
    case_bool_decide as Hg.
    { split; [done|]. split; [done|]. split; [by rewrite Hfull in Hidx by done|].
      split; [done|]. split; [done|]. intros _. eauto 10. }
    case_bool_decide as Hs.
    + rewrite (resume_after w xs ys) by done.
      destruct Hpre as [zs ->]. rewrite drop_app_length.
      pose proof (indexes_fold _ _ zs _ Hidx) as Hi.
      split; [by apply (rep_frame w)|]. do 2 (split; [done|]). split; [done|]. split; [done|].
      intros _. split; [done|]. split; simpl.
      * unfold vfdw_wbuf_generation. lia.
      * exists (ys ++ zs). split_and!; [done|done|apply H|done].
    + rewrite (live_addrs_rep _ _ H).
      pose proof (indexes_fold (wb_heap w) [] xs ∅ (indexes_nil _)) as Hi. simpl in Hi.
      exact (rebuilt_coherent w xs _ _ _ H Hs0 Hg0 Hi).
  - rewrite (live_addrs_rep _ _ H).
    pose proof (indexes_fold (wb_heap w) [] xs ∅ (indexes_nil _)) as Hi. simpl in Hi.
    exact (rebuilt_coherent w xs _ _ _ H Hs0 Hg0 Hi).
Qed.

Lemma check_log relid key curcid w xs :
  rep w xs → coherent w xs →
  (vfdw_overlay_check relid key curcid w).1 = log_verdict relid key curcid (wview w) ∧
  rep (vfdw_overlay_check relid key curcid w).2 xs ∧
  wb_heap (vfdw_overlay_check relid key curcid w).2 = wb_heap w ∧
  coherent (vfdw_overlay_check relid key curcid w).2 xs.
Proof.
  intros H Hco. rewrite (wview_rep _ _ H). unfold vfdw_overlay_check, vfdw_wbuf_is_empty.
  rewrite (rep_nlive _ _ H). case_bool_decide as Hn.
  - destruct xs; [|done]. do 3 (split; [done|]). done.
  - destruct (build_indexes w xs H Hco) as (Hr & Hh & Hi & Hc).
    specialize (Hi (relid, key)).
    assert (Hall : Forall (λ a, is_Some (wb_heap w !! a)) xs).
    { apply Forall_forall. intros a Ha. eapply linked_in; [apply H|done]. }
    pose proof (newest_visible_log (wb_heap w) relid key curcid xs Hall) as Hv.
    destruct (ov_tab (wb_overlay (vfdw_overlay_build w)) !! (relid, key)) as [ops|]; simpl in *.
    + rewrite Hh. subst ops. do 3 (split; [done|]). done.
    + rewrite <- Hi in Hv. simpl in Hv. do 3 (split; [done|]). done.
Qed.
