(* ===== verification/ReadYourWrites.v ===== *)
(** Scans and writes interleaved in one session: the overlay's index stays
    coherent with the log through every step of the write path, so a scan
    always reads its own transaction's writes (src/vfdw_overlay.c against
    src/vfdw_wbuf.c and src/vfdw_modify.c). *)
From S2P Require Import Prelude Slot Opcode WriteOp Ledger LedgerFacts Wbuf.
From S2P Require Import WbufFacts Rebuild WritePath Overlay OverlayFacts.
From stdpp Require Import relations list.
Local Open Scope Z_scope.

(** Coherence at generation [g]. *)
Definition coh (g : Z) (w : Wbuf) : Prop := wb_gen w = g ∧ ∃ xs, rep w xs ∧ coherent w xs.

Lemma coherent_grow w w' xs xs' :
  xs `prefix_of` xs' → (∀ a, a ∈ xs → key_of (wb_heap w') a = key_of (wb_heap w) a) →
  wb_overlay w' = wb_overlay w → wb_shrink_gen w' = wb_shrink_gen w →
  (wb_gen w' = wb_gen w ∧ xs' = xs ∨ wb_gen w < wb_gen w' < 2 ^ 64) →
  coherent w xs → coherent w' xs'.
Proof.
  intros Hpre Hk Ho Hs Hg (Hs0 & Hg0 & Hc). unfold coherent. rewrite Ho, Hs.
  split; [done|]. split; [lia|]. intros Hh. destruct (Hc Hh) as (Hcx & Hb & ys & Hp & Hi & Ht & Hf).
  split; [done|]. split; [lia|]. exists ys. split_and!; [by etrans| |done|].
  - eapply indexes_ext; [|done]. intros a Ha. apply Hk. destruct Hp as [zs ->]. apply elem_of_app. by left.
  - destruct Hg as [[Hg ->]|Hg]; [rewrite Hg; done|lia].
Qed.

(** The overlay of a reset or aborted buffer holds nothing. *)
Lemma coherent_dropped w w' xs xs' :
  coherent w xs → wb_overlay w' = vfdw_overlay_reset (wb_overlay w) →
  0 ≤ wb_shrink_gen w' → 0 ≤ wb_gen w' < 2 ^ 64 → coherent w' xs'.
Proof.
  intros (_ & _ & Hc) Ho Hs Hg. split; [done|]. split; [done|]. rewrite Ho. intros Hh. exfalso.
  unfold vfdw_overlay_reset in Hh. destruct (ov_cxt (wb_overlay w)) eqn:E; [done|].
  destruct (Hc Hh) as [H _]. congruence.
Qed.

Lemma coh_frame g w w' :
  wb_heap w' = wb_heap w → wb_fresh w' = wb_fresh w → wb_head w' = wb_head w →
  wb_tail w' = wb_tail w → wb_nlive w' = wb_nlive w → wb_overlay w' = wb_overlay w →
  wb_gen w' = wb_gen w → wb_shrink_gen w' = wb_shrink_gen w → coh g w → coh g w'.
Proof.
  intros E1 E2 E3 E4 E5 E6 E7 E8 [Hg (xs & Hr & Hc)]. split; [congruence|].
  exists xs. split; [by apply (rep_frame w)|]. eapply (coherent_grow w); [done|by rewrite E1|done|done| |done].
  by left.
Qed.

Lemma coh_write g w a o fresh :
  coh g w → (∀ xs, rep w xs → a ∉ xs) → (a < fresh)%nat → (wb_fresh w ≤ fresh)%nat →
  coh g (set_heap (<[a := o]> (wb_heap w)) fresh w) ∧
  spare (set_heap (<[a := o]> (wb_heap w)) fresh w) a.
Proof.
  intros [Hg (xs & Hr & Hc)] Ha Hlt Hle.
  destruct (rep_insert_out w xs a o fresh Hr (Ha _ Hr) Hlt Hle) as [Hr' Hv]. split.
  - split; [done|]. exists xs. split; [done|].
    eapply (coherent_grow w); [done| |done|done|by left|done].
    intros x Hx. unfold key_of. simpl. rewrite lookup_insert_ne; [done|].
    intros ->. by apply (Ha _ Hr).
  - split; [simpl; rewrite lookup_insert_eq; eauto|].
    intros ys Hy. rewrite (rep_unique _ _ _ Hy Hr'). eauto.
Qed.

Lemma op_new_coh g bytes w :
  coh g w →
  wp (vfdw_wbuf_op_new bytes)
    (λ a w', coh g w' ∧ spare w' a ∧ (a < wb_fresh w')%nat) (λ _ w', coh g w') w.
Proof.
  intros H. unfold wp, vfdw_wbuf_op_new. rewrite get_bind.
  destruct (u_bound (wb_unit w)); simpl; [|done].
  destruct (over_byte_cap w); [done|]. unfold wbuf_alloc. rewrite !modify_bind.
  set (w1 := set_mem _ _ _ w).
  assert (H1 : coh g w1) by by apply (coh_frame g w).
  destruct (coh_write g w1 (wb_fresh w1) zeroed_op (S (wb_fresh w1)) H1) as [H2 H3];
    [apply fresh_spare|lia|lia|].
  split_and!; [exact H2|exact H3|]. simpl. lia.
Qed.

Lemma append_key_of w a nest cid x :
  x ≠ a → key_of (append_heap w a nest cid) x = key_of (wb_heap w) x.
Proof.
  intros Hx. unfold append_heap, relink.
  set (h1 := alter (set_next None) a _).
  assert (H1 : h1 !! x = wb_heap w !! x) by (unfold h1; by rewrite !lookup_alter_ne).
  unfold key_of. destruct (wb_tail w) as [t|]; [|by rewrite H1].
  destruct (decide (x = t)) as [->|Hne]; [|by rewrite lookup_alter_ne, H1].
  rewrite lookup_alter_eq, H1. by destruct (wb_heap w !! t).
Qed.

Lemma append_coh g w a n cid :
  coh g w → spare w a → g + 1 < 2 ^ 64 →
  wp (vfdw_wbuf_append a n cid) (λ _ w', coh (g + 1) w') (λ _ w', coh g w') w.
Proof.
  intros [Hg (xs & Hr & Hc)] [[o Ho] Hout] Hlt. specialize (Hout xs Hr).
  unfold wp. rewrite append_eq.
  assert (Hst : coh g (stamp_only w a n cid)).
  { destruct (stamp_only_rep w xs a n cid Hr Hout) as (Hr' & _). split; [done|].
    exists xs. split; [done|]. eapply (coherent_grow w); [done| |done|done|by left|done].
    intros x Hx. unfold key_of, stamp_only. simpl. by rewrite !lookup_alter_ne by congruence. }
  case_bool_decide; [done|]. destruct (over_byte_cap w); [done|].
  destruct (appended_rep w xs a o n cid Hr Ho Hout) as (Hr' & _).
  assert (Hgen : wb_gen (appended w a n cid) = g + 1).
  { change (wb_gen (appended w a n cid)) with (u64 (wb_gen w + 1)). unfold u64.
    destruct Hc as (_ & Hg0 & _). rewrite Z.mod_small; lia. }
  split; [done|]. exists (xs ++ [a]). split; [done|].
  eapply (coherent_grow w); [by apply prefix_app_r| |done|done| |done].
  - intros x Hx. apply append_key_of. congruence.
  - right. rewrite Hgen. lia.
Qed.

Lemma row_coh g rendered bytes rbytes n cid w :
  coh g w → g + 1 < 2 ^ 64 →
  wp (vfdw_modify_row rendered bytes rbytes n cid) (λ _ w', coh (g + 1) w')
    (λ _ w', ∃ g', g ≤ g' ≤ g + 1 ∧ coh g' w') w.
Proof.
  intros H Hlt. unfold vfdw_modify_row. apply wp_bind.
  eapply wp_mono; [by apply op_new_coh| |intros e w' Hw; exists g; split; [lia|done]].
  simpl. intros a w1 (H1 & Hsp & Hfr). apply wp_bind. unfold wp at 1, wbuf_alloc, modify.
  set (w2 := set_mem _ _ _ w1).
  assert (H2 : coh g w2) by by apply (coh_frame g w1).
  destruct rendered as [op|e]; [|exists g; split; [lia|done]].
  apply wp_bind. unfold wp at 1, op_fill, modify.
  destruct (coh_write g w2 a (set_links (set_hashslot op (vfdw_val_slot (op_key op))) None None)
    (wb_fresh w2) H2) as [H3 Hsp3]; [|done|done|].
  { intros xs Hx. apply Hsp. by apply (rep_frame w2). }
  apply wp_bind. eapply wp_mono; [by apply append_coh| |intros e w' Hw; exists g; split; [lia|done]].
  intros ? w4 H4. unfold wp. rewrite get_bind.
  destruct (wb_heap w4 !! a) as [o|]; [|done]. unfold on_ledger.
  destruct (vfdw_ledger_note o (wb_ledger w4)) as [r l]. 
  assert (coh (g + 1) (set_ledger l w4)) by by apply (coh_frame (g + 1) w4).
  destruct r; [done|]. exists (g + 1). split; [lia|done].
Qed.

(** The view determines which entry an operation is in. *)
Lemma view_lookup h xs i a :
  linked h xs → xs !! i = Some a → view_of h xs !! i = bare <$> h !! a.
Proof.
  intros Hl Hi. rewrite <- (take_drop i xs). rewrite view_app.
  assert (Hlen : length (view_of h (take i xs)) = i).
  { transitivity (length (take i xs)).
    - assert (HF : Forall (λ a, is_Some (h !! a)) (take i xs)).
      { apply Forall_forall. intros x Hx. eapply linked_in; [done|].
        rewrite <- (take_drop i xs). apply elem_of_app. by left. }
      unfold view_of. clear Hi Hl. induction HF as [|x l [o Ho] _ IH]; [done|].
      csimpl. rewrite Ho. simpl. by rewrite IH.
    - rewrite length_take. apply lookup_lt_Some in Hi. lia. }
  rewrite lookup_app_r by lia. rewrite Hlen, Nat.sub_diag, (drop_S _ _ _ Hi).
  destruct (Hl _ _ Hi) as (o & Ho & _). by rewrite (view_cons _ _ _ _ Ho), Ho.
Qed.

Lemma key_of_promoted h h' xs c a :
  linked h xs → linked h' xs → view_of h' xs = promote c <$> view_of h xs → a ∈ xs →
  key_of h' a = key_of h a.
Proof.
  intros Hl Hl' Hv [i Hi]%list_elem_of_lookup.
  pose proof (view_lookup _ _ _ _ Hl' Hi) as H'. rewrite Hv, list_lookup_fmap in H'.
  rewrite (view_lookup _ _ _ _ Hl Hi) in H'. unfold key_of.
  destruct (Hl _ _ Hi) as (o & Ho & _), (Hl' _ _ Hi) as (o' & Ho' & _).
  rewrite Ho, Ho' in *. simpl in *. injection H' as H'. f_equal.
  assert (op_relid (bare o') = op_relid o ∧ op_key (bare o') = op_key o) as [E1 E2].
  { rewrite <- H'. unfold promote. by case_bool_decide. }
  simpl in E1, E2. congruence.
Qed.

Lemma bind_coh g keeper sid um uid db mo mb n w :
  coh g w → coh g (vfdw_wbuf_bind keeper sid um uid db mo mb n w).2.
Proof.
  revert w. change (pres (coh g) (vfdw_wbuf_bind keeper sid um uid db mo mb n)).
  unfold vfdw_wbuf_bind, vfdw_wbuf_context, vfdw_xact_ensure_registered.
  assert (Hm : ∀ f : Wbuf → Wbuf, (∀ w, coh g w → coh g (f w)) → pres (coh g) (modify f)) by auto.
  apply pres_bind; [|intros _; apply pres_bind; [apply pres_gets|intros u]].
  - apply pres_bind; [apply pres_get|intros w0]. destruct (wb_cxt w0); [apply pres_ret|].
    apply pres_bind; [|intros _]; apply Hm; intros w; by apply (coh_frame g w).
  - destruct (negb (u_bound u)); [apply Hm; intros w; by apply (coh_frame g w)|].
    repeat (apply pres_bind; [apply pres_when, pres_raise|intros _]). apply pres_when, pres_raise.
Qed.

Lemma commit_coh g w n r w' :
  txn_inv (MkSession w n false) → 1 < n → coh g w →
  vfdw_wbuf_subxact SUBXACT_EVENT_PRE_COMMIT_SUB n w = (r, w') → coh g w'.
Proof.
  intros Hi Hn [Hg (xs & Hr & Hc)] E.
  pose proof (ti_up _ Hi) as Hup. simpl in Hup. rewrite (wview_rep _ _ Hr) in Hup.
  destruct (precommit_spec n w xs Hr Hup)
    as (w1 & E1 & Hr1 & Hv & Hl & Ho & _ & _ & _ & Hg1 & Hs1 & _).
  rewrite E1 in E. injection E as <- <-. split; [congruence|]. exists xs. split; [done|].
  eapply (coherent_grow w); [done| |done|done|by left|done].
  intros a Ha. eapply key_of_promoted; [apply Hr|apply Hr1|exact Hv|done].
Qed.

Lemma u64_bounds z : 0 ≤ u64 z < 2 ^ 64.
Proof. unfold u64. apply Z.mod_pos_bound. lia. Qed.

Lemma u64_small z : 0 ≤ z < 2 ^ 64 → u64 z = z.
Proof. apply Z.mod_small. Qed.

Lemma abort_coh g w n f r w' :
  txn_inv (MkSession w n f) → 1 < n → coh g w → g + 1 < 2 ^ 64 →
  vfdw_wbuf_subxact SUBXACT_EVENT_ABORT_SUB n w = (r, w') →
  ∃ g', g ≤ g' ≤ g + 1 ∧ coh g' w'.
Proof.
  intros Hi Hn [Hg (xs & Hr & Hc)] Hlt E.
  pose proof (ti_up _ Hi) as Hup. simpl in Hup. rewrite (wview_rep _ _ Hr) in Hup.
  destruct (abort_truncate_spec n w xs Hr Hup)
    as (w1 & ys & E1 & Hr1 & _ & _ & Hl1 & Ho1 & _ & _ & _ & Hgs & _).
  destruct (abort_inv w n f Hi Hn) as (w2 & E2 & _ & _). rewrite E2 in E. injection E as <- <-.
  rewrite abort_split in E2. unfold mbind at 1, M_bind at 1 in E2. rewrite E1 in E2.
  unfold mbind at 1, M_bind at 1, vfdw_ledger_rebuild at 1 in E2. rewrite get_bind in E2.
  unfold on_ledger in E2.
  destruct (vfdw_ledger_rebuild_from_buffer _ _) as [[?|e] l]; [|done].
  unfold vfdw_overlay_rebuild, modify in E2. injection E2 as <-.
  destruct Hc as (Hs0 & Hg0 & Hc).
  assert (Hg1 : wb_gen w ≤ wb_gen w1 ≤ wb_gen w + 1 ∧ 0 ≤ wb_shrink_gen w1).
  { destruct (bool_decide _); injection Hgs as Hga Hgb; rewrite Hga, Hgb; [|lia].
    rewrite (u64_small (wb_gen w + 1)) by lia. pose proof (u64_bounds (wb_shrink_gen w + 1)). lia. }
  exists (wb_gen w1). split; [lia|]. split; [done|]. exists ys.
  split; [by apply (rep_frame w1)|].
  apply (coherent_dropped w _ xs); [done|by rewrite <- Ho1|simpl; lia|simpl; lia].
Qed.

Lemma reset_coh g keeper w n f r w' :
  txn_inv (MkSession w n f) → coh g w → g + 1 < 2 ^ 64 →
  vfdw_wbuf_reset keeper w = (r, w') → coh (g + 1) w'.
Proof.
  intros Hi [Hg (xs & Hr & Hc)] Hlt E.
  destruct (reset_inv keeper w n f Hi) as (w1 & E1 & Hv & _ & Hi1).
  rewrite E1 in E. injection E as <- <-. destruct (ti_rep _ Hi1) as [ys Hy]. simpl in Hy.
  pose proof (ledger_reset_empty _ (ti_ledger _ Hi) (ti_flag _ Hi)) as Hlr. simpl in Hlr.
  assert (Hf : wb_gen w1 = u64 (wb_gen w + 1) ∧ wb_shrink_gen w1 = u64 (wb_shrink_gen w + 1) ∧
               wb_overlay w1 = vfdw_overlay_reset (wb_overlay w)).
  { unfold vfdw_wbuf_reset in E1. rewrite !modify_bind in E1.
    unfold mbind at 1, M_bind at 1, on_ledger in E1.
    change (wb_ledger _) with (wb_ledger w) in E1 at 1. rewrite Hlr in E1.
    unfold vfdw_overlay_rebuild in E1. rewrite modify_bind in E1. unfold modify in E1.
    injection E1 as <-. by destruct w as [[] ]. }
  destruct Hf as (Hg1 & Hs1 & Ho1). pose proof Hc as (Hs0 & Hg0 & _).
  rewrite u64_small in Hg1 by lia. pose proof (u64_bounds (wb_shrink_gen w + 1)).
  split; [lia|]. exists ys. split; [done|].
  apply (coherent_dropped w _ xs); [done|done|lia|lia].
Qed.

(* ---------------------------------------------------------------- *)
(** ** Tail iteration *)

(** The rows the iteration owes: one per INSERT of the relation whose key the
    asking command sees as replaced, with the newest tuple of that key. *)
Definition owed (relid curcid : Z) (log : list VfdwWriteOp) (o : VfdwWriteOp)
    : option (HeapTuple * bytes) :=
  if bool_decide (op_relid o = relid) && bool_decide (op_kind o = VFDW_OP_INSERT) then
    match log_verdict relid (op_key o) curcid log with
    | (VFDW_OVL_REPLACE, Some t) => Some (t, op_key o)
    | _ => None
    end
  else None.

Lemma owed_bare relid curcid log o :
  owed relid curcid log (bare o) =
  if bool_decide (op_relid o = relid) && bool_decide (op_kind o = VFDW_OP_INSERT) then
    match log_verdict relid (op_key o) curcid log with
    | (VFDW_OVL_REPLACE, Some t) => Some (t, op_key o)
    | _ => None
    end
  else None.
Proof. done. Qed.

(** Calling [vfdw_overlay_iter_next] until it answers NULL. *)
Fixpoint drain (fuel : nat) (it : VfdwOverlayIter) (w : Wbuf) : list (HeapTuple * bytes) :=
  match fuel with
  | O => []
  | S n =>
      match vfdw_overlay_iter_next it w with
      | (Some row, it', w') => row :: drain n it' w'
      | (None, _, _) => []
      end
  end.

Lemma check_gen relid key curcid w :
  wb_gen (vfdw_overlay_check relid key curcid w).2 = wb_gen w.
Proof.
  unfold vfdw_overlay_check. destruct (vfdw_wbuf_is_empty w); [done|].
  assert (wb_gen (vfdw_overlay_build w) = wb_gen w).
  { unfold vfdw_overlay_build. by repeat case_match. }
  by destruct (ov_tab _ !! _).
Qed.

(** Where the iterator is after one call, and what the call returned. *)
Lemma iter_loop_spec fuel w xs i relid curcid g :
  rep w xs → coherent w xs → (length xs - i < fuel)%nat →
  ∃ w', rep w' xs ∧ coherent w' xs ∧ wb_heap w' = wb_heap w ∧ wb_gen w' = wb_gen w ∧
    ((∃ row j, iter_loop fuel (OverlayIter relid curcid g (xs !! i)) w =
        (Some row, OverlayIter relid curcid g (xs !! j), w') ∧ (i < j ≤ length xs)%nat ∧
        omap (owed relid curcid (wview w)) (drop i (wview w)) =
          row :: omap (owed relid curcid (wview w)) (drop j (wview w))) ∨
     (iter_loop fuel (OverlayIter relid curcid g (xs !! i)) w =
        (None, OverlayIter relid curcid g None, w') ∧
        omap (owed relid curcid (wview w)) (drop i (wview w)) = [])).
Proof.
  revert w i. induction fuel as [|fuel IH]; intros w i H Hc Hf; [lia|]. simpl.
  pose proof (wview_rep _ _ H) as Hv.
  destruct (xs !! i) as [a|] eqn:Ei; simpl.
  2:{ exists w. split_and!; try done; try apply Hc. right. split; [done|].
      rewrite Hv, drop_ge; [done|]. rewrite view_length by apply H. by apply lookup_ge_None. }
  destruct (rep_linked _ _ H i a Ei) as (o & Ho & _ & Hn). rewrite Ho, Hn.
  assert (Hlt : (i < length xs)%nat) by by eapply lookup_lt_Some.
  assert (Hd : drop i (wview w) = bare o :: drop (S i) (wview w)).
  { apply drop_S. rewrite Hv, (view_lookup _ _ _ _ (rep_linked _ _ H) Ei), Ho. done. }
  rewrite Hd. csimpl. rewrite owed_bare.
  assert (Hskip : ∀ w1, rep w1 xs → coherent w1 xs → wb_heap w1 = wb_heap w → wb_gen w1 = wb_gen w →
    ∃ w', rep w' xs ∧ coherent w' xs ∧ wb_heap w' = wb_heap w ∧ wb_gen w' = wb_gen w ∧
    ((∃ row j, iter_loop fuel (OverlayIter relid curcid g (xs !! S i)) w1 =
        (Some row, OverlayIter relid curcid g (xs !! j), w') ∧ (i < j ≤ length xs)%nat ∧
        omap (owed relid curcid (wview w)) (drop (S i) (wview w)) =
          row :: omap (owed relid curcid (wview w)) (drop j (wview w))) ∨
     (iter_loop fuel (OverlayIter relid curcid g (xs !! S i)) w1 =
        (None, OverlayIter relid curcid g None, w') ∧
        omap (owed relid curcid (wview w)) (drop (S i) (wview w)) = []))).
  { intros w1 H1 Hc1 Hh1 Hg1. assert (Hv1 : wview w1 = wview w).
    { by rewrite (wview_rep _ _ H1), Hv, Hh1. }
    destruct (IH w1 (S i) H1 Hc1) as (w' & Hr' & Hc' & Hh' & Hg' & Hcase); [lia|].
    rewrite Hv1 in Hcase. exists w'. split; [done|]. split; [done|].
    split; [congruence|]. split; [congruence|].
    destruct Hcase as [(row & j & E & Hj & Ho')|[E Ho']]; [left|right]; [|done].
    exists row, j. split_and!; [done|lia|lia|done]. }
  destruct (bool_decide (op_relid o = relid)) eqn:Er; simpl; [|by apply Hskip].
  destruct (bool_decide (op_kind o = VFDW_OP_INSERT)) eqn:Ek; simpl; [|by apply Hskip].
  apply bool_decide_eq_true in Er. subst relid.
  destruct (check_log (op_relid o) (op_key o) curcid w xs H Hc) as (Hans & Hr1 & Hh1 & Hc1).
  pose proof (check_gen (op_relid o) (op_key o) curcid w) as Hg1.
  destruct (vfdw_overlay_check (op_relid o) (op_key o) curcid w) as [[v t] w1]. simpl in *.
  rewrite <- Hans.
  destruct v; [by apply Hskip..|]. destruct t as [t|]; [|by apply Hskip].
  exists w1. split; [done|]. split; [done|]. split; [done|]. split; [done|]. left.
  exists (t, op_key o), (S i). split_and!; [done|lia|lia|done].
Qed.

Lemma drain_spec n w xs i relid curcid :
  rep w xs → coherent w xs → (length xs - i < n)%nat →
  drain n (OverlayIter relid curcid (wb_gen w) (xs !! i)) w =
  omap (owed relid curcid (wview w)) (drop i (wview w)).
Proof.
  revert w i. induction n as [|n IH]; intros w i H Hc Hn; [lia|].
  cbn [drain]. unfold vfdw_overlay_iter_next, vfdw_wbuf_generation. cbn [it_generation].
  rewrite bool_decide_true by done.
  destruct (iter_loop_spec (S (size (wb_heap w))) w xs i relid curcid (wb_gen w) H Hc)
    as (w' & Hr' & Hc' & Hh' & Hg' & Hcase).
  { pose proof (linked_size _ _ (rep_nodup _ _ H) (rep_linked _ _ H)). lia. }
  assert (Hv : wview w' = wview w) by by rewrite (wview_rep _ _ Hr'), (wview_rep _ _ H), Hh'.
  destruct Hcase as [(row & j & E & Hj & Ho)|[E Ho]]; rewrite E, Ho; [|done].
  f_equal. rewrite <- Hg', IH by (done || lia). by rewrite Hv.
Qed.

(* ---------------------------------------------------------------- *)
(** ** Writes, savepoints and scans interleaved *)

Section interleaved.
Context (keeper : Z).

Inductive rstep : Session → Session → Prop :=
| rs_write s s' :
    wb_gen (s_w s) + 1 < 2 ^ 64 → tstep keeper s s' → rstep s s'
| rs_check relid key curcid w n :
    rstep (MkSession w n false)
          (MkSession (vfdw_overlay_check relid key curcid w).2 n false)
| rs_iter it w n :
    rstep (MkSession w n false) (MkSession (vfdw_overlay_iter_next it w).2 n false).

Definition rinv (s : Session) : Prop := txn_inv s ∧ coh (wb_gen (s_w s)) (s_w s).

(** A scan only touches the overlay. *)
Lemma scan_inv w w' n xs :
  txn_inv (MkSession w n false) → rep w xs → rep w' xs → wb_heap w' = wb_heap w →
  wb_ledger w' = wb_ledger w → txn_inv (MkSession w' n false).
Proof.
  intros H Hr Hr' Hh Hl.
  assert (Hv : wview w' = wview w) by by rewrite (wview_rep _ _ Hr'), (wview_rep _ _ Hr), Hh.
  constructor; simpl; rewrite ?Hv, ?Hl; try apply H. eauto.
Qed.

Lemma build_ledger w : wb_ledger (vfdw_overlay_build w) = wb_ledger w.
Proof. unfold vfdw_overlay_build. by repeat case_match. Qed.

Lemma check_ledger relid key curcid w :
  wb_ledger (vfdw_overlay_check relid key curcid w).2 = wb_ledger w.
Proof.
  unfold vfdw_overlay_check. destruct (vfdw_wbuf_is_empty w); [done|].
  destruct (ov_tab _ !! _); apply build_ledger.
Qed.

Lemma iter_ledger fuel it w : wb_ledger (iter_loop fuel it w).2 = wb_ledger w.
Proof.
  revert it w. induction fuel as [|fuel IH]; intros it w; simpl; [done|].
  destruct (it_next it ≫= _) as [op|]; [|done].
  destruct (negb _ || negb _); [apply IH|].
  pose proof (check_ledger (op_relid op) (op_key op) (it_curcid it) w) as Hl.
  destruct (vfdw_overlay_check _ _ _ w) as [[v t] w1]. simpl in Hl. rewrite <- Hl.
  destruct v; [apply IH..|]. destruct t; [done|apply IH].
Qed.

(** An iterator started elsewhere still leaves the buffer as it found it. *)
Lemma iter_any fuel it w xs :
  rep w xs → coherent w xs →
  rep (iter_loop fuel it w).2 xs ∧ coherent (iter_loop fuel it w).2 xs ∧
  wb_heap (iter_loop fuel it w).2 = wb_heap w ∧ wb_gen (iter_loop fuel it w).2 = wb_gen w.
Proof.
  revert it w. induction fuel as [|fuel IH]; intros it w H Hc; simpl; [by repeat split; try apply H; try apply Hc|].
  destruct (it_next it ≫= _) as [op|]; [|by repeat split; try apply H; try apply Hc].
  destruct (negb _ || negb _); [by apply IH|].
  destruct (check_log (op_relid op) (op_key op) (it_curcid it) w xs H Hc) as (_ & Hr1 & Hh1 & Hc1).
  pose proof (check_gen (op_relid op) (op_key op) (it_curcid it) w) as Hg1.
  destruct (vfdw_overlay_check _ _ _ w) as [[v t] w1]. simpl in *.
  assert (Hrec : ∀ it', rep (iter_loop fuel it' w1).2 xs ∧ coherent (iter_loop fuel it' w1).2 xs ∧
    wb_heap (iter_loop fuel it' w1).2 = wb_heap w ∧ wb_gen (iter_loop fuel it' w1).2 = wb_gen w).
  { intros it'. rewrite <- Hh1, <- Hg1. by apply IH. }
  destruct v; [apply Hrec..|]. destruct t; [|apply Hrec]. done.
Qed.

Lemma rstep_inv s s' : rstep s s' → rinv s → rinv s'.
Proof.
  intros Hst [Hi Hc]. destruct Hst as [s s' Hlt Hts|relid key curcid w n|it w n].
  - split; [by eapply tstep_inv|].
    assert (∃ g, coh g (s_w s')) as [g [Hg Hx]]; [|by split].
    destruct Hts as [sid um uid db mo mb w n r w' E|rd b rb cid w n r w' E|w n
      |w n r w' E|w n r1 w1 r2 w2 Hn E1 E2|w n f r w' Hn E|w n f r w' E]; simpl in *.
    + pose proof (bind_coh _ keeper sid um uid db mo mb n w Hc) as Hw. rewrite E in Hw. eauto.
    + pose proof (row_coh _ rd b rb n cid w Hc Hlt) as Hw. unfold wp in Hw. rewrite E in Hw.
      destruct r; [eauto|]. destruct Hw as (g' & _ & Hw). eauto.
    + eauto.
    + injection E as <- <-. eauto.
    + injection E2 as <- <-. pose proof (commit_coh _ w n r1 w1 Hi Hn Hc E1). eauto.
    + destruct (abort_coh _ w n f r w' Hi Hn Hc Hlt E) as (g' & _ & Hw). eauto.
    + pose proof (reset_coh _ keeper w n f r w' Hi Hc Hlt E). eauto.
  - simpl in *. destruct Hc as [_ (xs & Hr & Hc)].
    destruct (check_log relid key curcid w xs Hr Hc) as (_ & Hr1 & Hh1 & Hc1). split.
    + eapply scan_inv; [done|done|done|done|apply check_ledger].
    + split; [done|]. eauto.
  - simpl in *. destruct Hc as [_ (xs & Hr & Hc)]. unfold vfdw_overlay_iter_next.
    set (it' := if bool_decide _ then _ else _).
    destruct (iter_any (S (size (wb_heap w))) it' w xs Hr Hc) as (Hr1 & Hc1 & Hh1 & Hg1). split.
    + eapply scan_inv; [done|done|done|done|apply iter_ledger].
    + split; [done|]. eauto.
Qed.

Lemma rinv_start : rinv session_start.
Proof.
  split; [apply txn_inv_start|]. split; [done|].
  destruct (ti_rep _ txn_inv_start) as [xs Hr]. exists xs. split; [done|].
  split; [done|]. split; [done|]. done.
Qed.

Lemma rreachable_inv s : rtc rstep session_start s → rinv s.
Proof.
  assert (Hgen : ∀ s0, rtc rstep s0 s → rinv s0 → rinv s).
  { intros s0 Hr. induction Hr as [s|s1 s2 s3 H12 _ IH]; [done|].
    intros H1. apply IH. by eapply rstep_inv. }
  intros Hr. apply (Hgen _ Hr), rinv_start.
Qed.
End interleaved.

(* ---------------------------------------------------------------- *)
(** ** Properties *)

(** C7: a scan reads its own transaction's writes: in every session in which
    writes, savepoints, rollbacks and scans interleave, the answer of the
    overlay for a key is decided by the newest buffered operation of that
    relation on that key that the asking command may see, however often the
    cached index was extended, dropped or rebuilt in between. *)
Theorem scan_reads_own_writes (keeper : Z) (s : Session) (relid : Z) (key : bytes) (curcid : Z) :
  rtc (rstep keeper) session_start s →
  (vfdw_overlay_check relid key curcid (s_w s)).1 =
  log_verdict relid key curcid (wview (s_w s)).
Proof.
  intros Hr. destruct (rreachable_inv keeper s Hr) as [_ [_ (xs & Hx & Hc)]].
  apply (check_log relid key curcid (s_w s) xs Hx Hc).
Qed.

(** C18: the tail iteration is complete and ends: calling it until it answers NULL
    returns, for every buffered INSERT of the relation whose key the command
    sees as replaced, the newest row of that key, and takes at most one call
    per live operation and one more. *)
Theorem tail_iteration_complete (keeper : Z) (s : Session) (relid curcid : Z) :
  rtc (rstep keeper) session_start s →
  drain (S (length (wview (s_w s)))) (vfdw_overlay_iter_init relid curcid (s_w s)) (s_w s) =
  omap (owed relid curcid (wview (s_w s))) (wview (s_w s)).
Proof.
  intros Hr. destruct (rreachable_inv keeper s Hr) as [_ [_ (xs & Hx & Hc)]].
  unfold vfdw_overlay_iter_init, vfdw_wbuf_generation, vfdw_wbuf_first.
  rewrite (rep_head _ _ Hx), head_lookup. apply drain_spec; [done|done|].
  rewrite (wview_rep _ _ Hx), view_length by apply Hx. lia.
Qed.

(** A row inserted, deleted and inserted again, read in between. *)
Module SampleScan.
Definition row (kind : VfdwOpKind) (t : option HeapTuple) : VfdwWriteOp :=
  WriteOp None None kind 1 VFDW_TABLE_STRING 1 1 0 "a" None None None (Some "v")
   None [] [] [] false t [] None.
Definition w1 : Wbuf := (vfdw_wbuf_bind 1024 10 20 30 0 100 65536 1 wbuf_empty).2.
Definition w2 : Wbuf :=
  (vfdw_modify_row (Ok (row VFDW_OP_INSERT (Some [Some "a"; Some "1"]))) 200 100 1 1 w1).2.
Definition w3 : Wbuf := (vfdw_overlay_check 1 "a" 2 w2).2.
Definition w4 : Wbuf := (vfdw_modify_row (Ok (row VFDW_OP_DELETE None)) 200 100 1 2 w3).2.

Definition s4 : Session := MkSession w4 1 false.

Lemma reach : rtc (rstep 1024) session_start s4.
Proof.
  apply (rtc_r _ (MkSession w3 1 false)); [|apply rs_write; [vm_compute; reflexivity|]].
  - apply (rtc_r _ (MkSession w2 1 false)); [|exact (rs_check 1024 1 "a" 2 w2 1)].
    apply (rtc_r _ (MkSession w1 1 false)).
    + apply (rtc_r _ session_start); [apply rtc_refl|].
      apply rs_write; [vm_compute; reflexivity|].
      exact (ts_bind 1024 10 20 30 0 100 65536 wbuf_empty 1 (Ok ()) w1 eq_refl).
    + apply rs_write; [vm_compute; reflexivity|].
      refine (ts_row 1024 (Ok (row VFDW_OP_INSERT (Some [Some "a"; Some "1"]))) 200 100 1 w1 1
                (Ok ()) w2 _). vm_compute. reflexivity.
  - refine (ts_row 1024 (Ok (row VFDW_OP_DELETE None)) 200 100 2 w3 1 (Ok ()) w4 _).
    vm_compute. reflexivity.
Qed.
End SampleScan.

Lemma scan_reads_own_writes_witness :
  (vfdw_overlay_check 1 "a" 3 (s_w SampleScan.s4)).1 = log_verdict 1 "a" 3 (wview (s_w SampleScan.s4)) ∧
  (vfdw_overlay_check 1 "a" 3 (s_w SampleScan.s4)).1 = (VFDW_OVL_HIDE, None) ∧
  (vfdw_overlay_check 1 "a" 2 (s_w SampleScan.s4)).1 = (VFDW_OVL_REPLACE, Some [Some "a"; Some "1"]).
Proof.
  split; [|vm_compute; done].
  exact (scan_reads_own_writes 1024 SampleScan.s4 1 "a" 3 SampleScan.reach).
Defined.

Lemma tail_iteration_complete_witness :
  drain (S (length (wview (s_w SampleScan.s4)))) (vfdw_overlay_iter_init 1 2 (s_w SampleScan.s4)) (s_w SampleScan.s4) =
  omap (owed 1 2 (wview (s_w SampleScan.s4))) (wview (s_w SampleScan.s4)) ∧
  omap (owed 1 2 (wview (s_w SampleScan.s4))) (wview (s_w SampleScan.s4)) = [([Some "a"; Some "1"], "a")].
Proof.
  split; [|vm_compute; done].
  exact (tail_iteration_complete 1024 SampleScan.s4 1 2 SampleScan.reach).
Defined.
