(* ===== verification/Error.v ===== *)
(** Replies and how an error reply is classified (src/vfdw_error.c).

    A valkeyReply is libvalkey's struct: a type code, an integer, a
    length-counted string that may be NULL and an array of pointers that may be
    NULL. *)
From S2P Require Import Prelude.
Local Open Scope Z_scope.

Inductive Reply :=
  | MkReply (rtype : Z) (integer : Z) (str : option bytes)
            (element : option (list (option Reply))).

Definition r_type (r : Reply) : Z := let '(MkReply t _ _ _) := r in t.
Definition r_integer (r : Reply) : Z := let '(MkReply _ i _ _) := r in i.
Definition r_str (r : Reply) : option bytes := let '(MkReply _ _ s _) := r in s.
Definition r_element (r : Reply) : option (list (option Reply)) := let '(MkReply _ _ _ e) := r in e.

(** libvalkey's type codes. *)
Definition VALKEY_REPLY_STRING : Z := 1.
Definition VALKEY_REPLY_ARRAY : Z := 2.
Definition VALKEY_REPLY_INTEGER : Z := 3.
Definition VALKEY_REPLY_NIL : Z := 4.
Definition VALKEY_REPLY_STATUS : Z := 5.
Definition VALKEY_REPLY_ERROR : Z := 6.
Definition VALKEY_REPLY_DOUBLE : Z := 7.
Definition VALKEY_REPLY_BOOL : Z := 8.
Definition VALKEY_REPLY_MAP : Z := 9.
Definition VALKEY_REPLY_SET : Z := 10.
Definition VALKEY_REPLY_ATTR : Z := 11.
Definition VALKEY_REPLY_PUSH : Z := 12.
Definition VALKEY_REPLY_BIGNUM : Z := 13.
Definition VALKEY_REPLY_VERB : Z := 14.

Definition status_reply (s : bytes) : Reply := MkReply VALKEY_REPLY_STATUS 0 (Some s) None.
Definition error_reply (s : bytes) : Reply := MkReply VALKEY_REPLY_ERROR 0 (Some s) None.

(** The error state of a connection context. *)
Inductive context_error :=
  | VALKEY_ERR_IO | VALKEY_ERR_OTHER | VALKEY_ERR_EOF | VALKEY_ERR_PROTOCOL
  | VALKEY_ERR_OOM | VALKEY_ERR_TIMEOUT.

Definition vfdw_errcode_for_context (err : context_error) : sqlstate :=
  match err with
  | VALKEY_ERR_IO | VALKEY_ERR_EOF => ERRCODE_CONNECTION_FAILURE
  | VALKEY_ERR_PROTOCOL => ERRCODE_PROTOCOL_VIOLATION
  | VALKEY_ERR_TIMEOUT => ERRCODE_CONNECTION_FAILURE
  | VALKEY_ERR_OOM => ERRCODE_OUT_OF_MEMORY
  | VALKEY_ERR_OTHER => ERRCODE_FDW_ERROR
  end.

Definition vfdw_reply_errors : list (bytes * sqlstate) :=
  [("WRONGTYPE", ERRCODE_DATATYPE_MISMATCH);
   ("WRONGPASS", ERRCODE_INVALID_PASSWORD);
   ("NOAUTH", ERRCODE_INVALID_AUTHORIZATION_SPECIFICATION);
   ("NOPERM", ERRCODE_INSUFFICIENT_PRIVILEGE);
   ("NOPROTO", ERRCODE_FEATURE_NOT_SUPPORTED);
   ("LOADING", ERRCODE_CANNOT_CONNECT_NOW);
   ("MASTERDOWN", ERRCODE_CANNOT_CONNECT_NOW);
   ("CLUSTERDOWN", ERRCODE_CANNOT_CONNECT_NOW);
   ("BUSY", ERRCODE_LOCK_NOT_AVAILABLE);
   ("OOM", ERRCODE_OUT_OF_MEMORY);
   ("READONLY", ERRCODE_READ_ONLY_SQL_TRANSACTION);
   ("MISCONF", ERRCODE_CONFIG_FILE_ERROR);
   ("CROSSSLOT", ERRCODE_FEATURE_NOT_SUPPORTED);
   ("EXECABORT", ERRCODE_TRANSACTION_ROLLBACK)].

(** [strncmp(s, w, strlen(w)) == 0] and the next byte is a space or the end, on
    a NUL-terminated string. *)
Definition cstr_word (w s : bytes) : bool :=
  starts_with w s &&
  match drop_bytes (String.length w) s with
  | EmptyString => true
  | String c _ => bool_decide (c = " "%char)
  end.

Definition vfdw_errcode_for_reply (errstr : option bytes) : sqlstate :=
  match errstr with
  | None => ERRCODE_FDW_ERROR
  | Some s =>
      match find (λ e, cstr_word e.1 (until_nul s)) vfdw_reply_errors with
      | Some e => e.2
      | None => ERRCODE_FDW_ERROR
      end
  end.

Definition vfdw_reply_is_error (reply : option Reply) : bool :=
  match reply with
  | Some r => bool_decide (r_type r = VALKEY_REPLY_ERROR)
  | None => false
  end.

(** [prefix] is one of our NUL-free literals, so strncmp of its length reads no
    further than a NUL of the reply could stop it. *)
Definition vfdw_reply_has_prefix (reply : option Reply) (prefix : bytes) : bool :=
  if negb (vfdw_reply_is_error reply) then false else
  match reply ≫= r_str with
  | None => false
  | Some s =>
      let len := String.length prefix in
      if bool_decide (String.length s < len)%nat then false
      else if negb (starts_with prefix s) then false
      else bool_decide (String.length s = len) || bool_decide (byte_at len s = Some " "%char)
  end.

(** A double quote. *)
Definition dquote : bytes := String "034"%char EmptyString.

Section text.
(** pg_verify_mbstr for the database encoding, and the encoding's name. *)
Context (verify_mbstr : bytes → bool) (encoding : string).

Definition vfdw_safe_text (b : option bytes) : bytes :=
  match b with
  | None | Some "" => ""
  | Some s =>
      if verify_mbstr s then until_nul s
      else "a " +:+ dec (blen s) +:+ "-byte value that is not valid in encoding " +:+ dquote +:+
           encoding +:+ dquote
  end.

Definition vfdw_error_reply_text (reply : option Reply) : bytes * sqlstate :=
  match reply ≫= r_str with
  | None | Some "" => ("(no message)", ERRCODE_FDW_ERROR)
  | Some s => (vfdw_safe_text (Some s), vfdw_errcode_for_reply (Some s))
  end.

(** The detail line is not part of [pg_error]; the code and message are. *)
Definition vfdw_error_from_context (err : context_error) (what : string) : pg_error :=
  PgError (vfdw_errcode_for_context err) what.

Definition vfdw_error_from_reply (reply : option Reply) (what : string) : pg_error :=
  PgError (vfdw_error_reply_text reply).2 what.
End text.

(* ---------------------------------------------------------------- *)
(** ** Facts *)

(** Matching on a word boundary: the code is followed by a space or by nothing. *)
Lemma has_prefix_word s p :
  vfdw_reply_has_prefix (Some (error_reply s)) p = true ↔
  s = p ∨ ∃ r, s = p +:+ String " " r.
Proof.
  unfold vfdw_reply_has_prefix, error_reply, vfdw_reply_is_error. simpl.
  case_bool_decide as Hl; [split; [done|]|].
  { intros [->|[r ->]]; [lia|]. rewrite length_append in Hl. lia. }
  destruct (starts_with p s) eqn:E; simpl.
  - apply starts_with_spec in E as [r ->]. rewrite length_append.
    rewrite orb_true_iff, !bool_decide_eq_true. split.
    + intros [H|H]; [left|right].
      * destruct r; [apply append_nil_r|simpl in H; lia].
      * assert (Hr : byte_at (String.length p) (p +:+ r) = byte_at 0 r).
        { clear. unfold byte_at. induction p as [|c p IH]; simpl_app; simpl; [done|apply IH]. }
        rewrite Hr in H. destruct r as [|c r]; [done|]. injection H as ->. by exists r.
    + intros [H|[r' H]].
      * left. apply (f_equal String.length) in H. rewrite length_append in H. lia.
      * right. rewrite H. clear. unfold byte_at.
        induction p as [|c p IH]; simpl_app; simpl; [done|apply IH].
  - split; [done|]. intros Hs. exfalso.
    assert (starts_with p s = true) as E'; [|congruence].
    apply starts_with_spec. destruct Hs as [->|[r ->]]; [exists ""; by rewrite append_nil_r|eauto].
Qed.
