(* ===== verification/Io.v ===== *)
(** Interruptible I/O (src/vfdw_io.c): deadlines, waiting on the socket, the loops
    that drain the output buffer and take a reply, opening a connection, and the
    ceiling on one allocation.

    The environment is a script: what each wait, write and read meets, in order.
    libvalkey's reader is the parameter [valkeyGetReply] on the bytes it holds, and
    its connect the parameter [valkeyConnectWithOptions].  Times are in
    microseconds.  A computation that never returns is None; the loops carry
    fuel. *)
From S2P Require Import Prelude Error.
Local Open Scope Z_scope.

(** What ends a wait, how long it takes, and a cancel or terminate request that
    arrives meanwhile. *)
Record Wake := MkWake { wk_elapsed : Z; wk_interrupt : option pg_error }.
Inductive WriteEvent := WroteBytes (n : nat) | WriteFailed (e : context_error).
Inductive ReadEvent := ReadBytes (b : bytes) | ReadFailed (e : context_error).
Inductive ParseResult := Incomplete | Complete (r : Reply) (rest : bytes) | Malformed (e : context_error).

Record IoState := MkIo {
  io_now : Z;
  io_interrupt : option pg_error;
  io_wakes : list Wake;
  io_writes : list WriteEvent;
  io_reads : list ReadEvent;
  (* the output buffer, what has left it, and the reader's buffer *)
  io_out : bytes;
  io_sent : bytes;
  io_in : bytes;
  (* contexts allocated and not freed *)
  io_live : nat;
}.

Definition Io (A : Type) : Type := IoState → option (result A * IoState).

#[global] Instance Io_ret : MRet Io := λ A a s, Some (Ok a, s).
#[global] Instance Io_bind : MBind Io := λ A B f m s,
  match m s with
  | Some (Ok a, s') => f a s'
  | Some (Raise e, s') => Some (Raise e, s')
  | None => None
  end.
Definition io_raise {A} (e : pg_error) : Io A := λ s, Some (Raise e, s).
Definition io_gets {A} (f : IoState → A) : Io A := λ s, Some (Ok (f s), s).
Definition io_modify (f : IoState → IoState) : Io unit := λ s, Some (Ok (), f s).

Definition set_clock (now : Z) (i : option pg_error) (ws : list Wake) (s : IoState) : IoState :=
  MkIo now i ws (io_writes s) (io_reads s) (io_out s) (io_sent s) (io_in s) (io_live s).
Definition set_output (ws : list WriteEvent) (out sent : bytes) (s : IoState) : IoState :=
  MkIo (io_now s) (io_interrupt s) (io_wakes s) ws (io_reads s) out sent (io_in s) (io_live s).
Definition set_input (rs : list ReadEvent) (inp : bytes) (s : IoState) : IoState :=
  MkIo (io_now s) (io_interrupt s) (io_wakes s) (io_writes s) rs (io_out s) (io_sent s) inp (io_live s).
Definition set_live (n : nat) (s : IoState) : IoState :=
  MkIo (io_now s) (io_interrupt s) (io_wakes s) (io_writes s) (io_reads s) (io_out s) (io_sent s) (io_in s) n.

(* ---------------------------------------------------------------- *)
(** ** PostgreSQL and the socket *)

Definition CHECK_FOR_INTERRUPTS : Io unit := λ s,
  match io_interrupt s with
  | Some e => Some (Raise e, set_clock (io_now s) None (io_wakes s) s)
  | None => Some (Ok (), s)
  end.

(** Whether WL_TIMEOUT is among the events; a negative timeout is none. *)
Definition WaitLatchOrSocket (timeout_ms : Z) : Io bool := λ s,
  let expires := io_now s + timeout_ms * 1000 in
  match io_wakes s with
  | [] =>
      if bool_decide (timeout_ms < 0) then None
      else Some (Ok true, set_clock expires (io_interrupt s) [] s)
  | w :: ws =>
      if bool_decide (0 ≤ timeout_ms) && bool_decide (timeout_ms * 1000 ≤ wk_elapsed w)
      then Some (Ok true, set_clock expires (io_interrupt s) (MkWake (wk_elapsed w - timeout_ms * 1000) (wk_interrupt w) :: ws) s)
      else Some (Ok false, set_clock (io_now s + Z.max 0 (wk_elapsed w))
                             (match wk_interrupt w with Some e => Some e | None => io_interrupt s end) ws s)
  end.

(** Whether the buffer is empty now; writing may accept any number of bytes.  A
    context that has failed stays failed. *)
Definition valkeyBufferWrite : Io (context_error + bool) := λ s,
  if bool_decide (io_out s = "") then Some (Ok (inr true), s)
  else match io_writes s with
       | [] => Some (Ok (inr false), s)
       | WriteFailed e :: _ => Some (Ok (inl e), s)
       | WroteBytes n :: ws =>
           let rest := drop_bytes n (io_out s) in
           Some (Ok (inr (bool_decide (rest = ""))), set_output ws rest (io_sent s +:+ take_bytes n (io_out s)) s)
       end.

Definition valkeyBufferRead : Io (option context_error) := λ s,
  match io_reads s with
  | [] => Some (Ok None, s)
  | ReadFailed e :: _ => Some (Ok (Some e), s)
  | ReadBytes b :: rs => Some (Ok None, set_input rs (io_in s +:+ b) s)
  end.

Section io.
Context (valkeyGetReply : bytes → ParseResult).

Definition valkeyGetReplyFromReader : Io (context_error + option Reply) := λ s,
  match valkeyGetReply (io_in s) with
  | Incomplete => Some (Ok (inr None), s)
  | Complete r rest => Some (Ok (inr (Some r)), set_input (io_reads s) rest s)
  | Malformed e => Some (Ok (inl e), s)
  end.

(* ---------------------------------------------------------------- *)
(** ** The data path *)

(** 0 is no deadline. *)
Definition vfdw_io_deadline (timeout_ms now : Z) : Z :=
  if bool_decide (timeout_ms ≤ 0) then 0 else now + timeout_ms * 1000.

Definition timed_out : pg_error := PgError ERRCODE_CONNECTION_FAILURE "timed out communicating with Valkey".

Definition vfdw_io_wait (deadline : Z) : Io unit :=
  CHECK_FOR_INTERRUPTS;;;
  (now ← io_gets io_now;
   let remaining := Z.quot (deadline - now) 1000 in
   if bool_decide (deadline ≠ 0) && bool_decide (remaining ≤ 0) then io_raise timed_out
   else
     rc ← WaitLatchOrSocket (if bool_decide (deadline ≠ 0) then remaining else -1);
     CHECK_FOR_INTERRUPTS;;;
     if (rc : bool) then io_raise timed_out else mret ()).

Fixpoint vfdw_io_flush (fuel : nat) (deadline : Z) : Io unit :=
  match fuel with
  | O => λ _, None
  | S n =>
      r ← valkeyBufferWrite;
      match r with
      | inl e => io_raise (vfdw_error_from_context e "could not send command to Valkey")
      | inr true => mret ()
      | inr false => vfdw_io_wait deadline;;; vfdw_io_flush n deadline
      end
  end.

Fixpoint vfdw_io_get_reply (fuel : nat) (deadline : Z) : Io Reply :=
  match fuel with
  | O => λ _, None
  | S n =>
      r ← valkeyGetReplyFromReader;
      match r with
      | inl e => io_raise (vfdw_error_from_context e "could not parse reply from Valkey")
      | inr (Some reply) => mret reply
      | inr None =>
          vfdw_io_wait deadline;;;
          (e ← valkeyBufferRead;
           match e with
           | Some e => io_raise (vfdw_error_from_context e "could not read reply from Valkey")
           | None => vfdw_io_get_reply n deadline
           end)
      end
  end.
End io.

(* ---------------------------------------------------------------- *)
(** ** Opening a connection *)

(** A connect in progress: the error of the context, whether it has a socket, and
    what SO_ERROR will say, if it can be read. *)
Record Started := MkStarted { st_err : option context_error; st_fd_valid : bool; st_so_error : option Z }.
Inductive Address := Unix (path : bytes) | Tcp (host : bytes) (port : Z).

Section connect.
Context (valkeyConnectWithOptions : Address → Z * Z → option Started).

Definition valkeyFree : Io unit := io_modify (λ s, set_live (io_live s - 1) s).

Definition vfdw_io_fail_and_close {A} (err : option context_error) (what : string) : Io A :=
  let e := PgError (vfdw_errcode_for_context (default VALKEY_ERR_OTHER err)) what in
  valkeyFree;;; io_raise e.

(** PG_TRY around the wait. *)
Definition io_catch_free (m : Io unit) : Io unit := λ s,
  match m s with
  | Some (Raise e, s') => (valkeyFree;;; io_raise e) s'
  | r => r
  end.

(** The error left in the context. *)
Definition vfdw_io_complete_connect (c : Started) (deadline : Z) : Io (option context_error) :=
  io_catch_free (vfdw_io_wait deadline);;;
  match st_so_error c with
  | None => vfdw_io_fail_and_close (st_err c) "could not read connection status"
  | Some soerr =>
      if bool_decide (soerr ≠ 0)
      then valkeyFree;;; io_raise (PgError ERRCODE_CONNECTION_FAILURE "could not connect to Valkey")
      else mret None
  end.

Definition vfdw_io_connect (host : bytes) (port : Z) (unix_path : option bytes) (connect_timeout_ms : Z)
    : Io (option context_error) :=
  let address := match unix_path with Some p => Unix p | None => Tcp host port end in
  let timeval := (Z.quot connect_timeout_ms 1000, Z.rem connect_timeout_ms 1000 * 1000) in
  match valkeyConnectWithOptions address timeval with
  | None => io_raise (PgError ERRCODE_OUT_OF_MEMORY "out of memory allocating a Valkey connection")
  | Some c =>
      io_modify (λ s, set_live (S (io_live s)) s);;;
      if bool_decide (is_Some (st_err c)) && negb (st_fd_valid c)
      then vfdw_io_fail_and_close (st_err c) "could not connect to Valkey"
      else
        now ← io_gets io_now;
        vfdw_io_complete_connect c (vfdw_io_deadline connect_timeout_ms now)
  end.
End connect.

(* ---------------------------------------------------------------- *)
(** ** The ceiling on one allocation *)

Definition SIZE_MAX : Z := 2 ^ 64 - 1.
Definition VFDW_MAX_REPLY_BYTES : Z := 268435456.

Section alloc.
Context (vfdw_alloc_ceiling : Z).

Definition vfdw_alloc_refused (size : Z) : bool := bool_decide (vfdw_alloc_ceiling < size).

(** The bytes asked of the C library; None is a NULL without asking. *)
Definition vfdw_alloc_malloc (size : Z) : option Z := if vfdw_alloc_refused size then None else Some size.
Definition vfdw_alloc_realloc (size : Z) : option Z := if vfdw_alloc_refused size then None else Some size.
Definition vfdw_alloc_strdup (str : bytes) : option Z := vfdw_alloc_malloc (u64 (blen (until_nul str) + 1)).
Definition vfdw_alloc_calloc (nmemb size : Z) : option (Z * Z) :=
  if negb (bool_decide (size = 0)) && bool_decide (SIZE_MAX / size < nmemb) then None
  else if vfdw_alloc_refused (u64 (nmemb * size)) then None
  else Some (nmemb, size).
End alloc.

(** The process-wide allocator: whether it is installed, and its ceiling. *)
Record AllocState := MkAlloc { al_installed : bool; al_ceiling : Z }.
Definition alloc_initial : AllocState := MkAlloc false VFDW_MAX_REPLY_BYTES.
Definition vfdw_io_install_alloc_ceiling (a : AllocState) : AllocState := MkAlloc true (al_ceiling a).
Definition vfdw_io_set_alloc_ceiling_for_test (bytes : Z) (a : AllocState) : AllocState :=
  let a := vfdw_io_install_alloc_ceiling a in
  MkAlloc (al_installed a) (if bool_decide (0 < bytes) then u64 bytes else VFDW_MAX_REPLY_BYTES).

(** The reader's limits, when the context has a reader. *)
Definition vfdw_io_set_limits (reader : option (Z * Z)) (maxbuf maxelements : Z) : option (Z * Z) :=
  (λ _, (maxbuf, maxelements)) <$> reader.
