(* ===== verification/Cmd.v ===== *)
(** Command vectors, the pipelined batch and the shape of replies
    (src/vfdw_cmd.c), over a connection whose peer and whose I/O failures are
    parameters (src/vfdw_io.c, libvalkey). *)
From S2P Require Import Prelude Error.
Local Open Scope Z_scope.

(* ---------------------------------------------------------------- *)
(** ** Command construction *)

(** argv and arglens together are [cmd_args]; argc is their length. *)
Record VfdwCmd := MkCmd { cmd_args : list bytes; cmd_capacity : Z }.

Definition cmd_argc (c : VfdwCmd) : Z := Z.of_nat (length (cmd_args c)).

Definition vfdw_cmd_init (capacity : Z) : VfdwCmd := MkCmd [] capacity.

Definition vfdw_cmd_reset (c : VfdwCmd) : VfdwCmd := MkCmd [] (cmd_capacity c).

(** [while (newcap < needed) newcap *= 2]. *)
Fixpoint grow_loop (fuel : nat) (newcap needed : Z) : Z :=
  match fuel with
  | O => newcap
  | S n => if bool_decide (newcap < needed) then grow_loop n (newcap * 2) needed else newcap
  end.

Definition vfdw_cmd_ensure (c : VfdwCmd) (needed : Z) : VfdwCmd :=
  if bool_decide (needed ≤ cmd_capacity c) then c
  else MkCmd (cmd_args c) (grow_loop (Z.to_nat needed) (cmd_capacity c * 2) needed).

Definition vfdw_cmd_add_bytes (c : VfdwCmd) (value : bytes) : VfdwCmd :=
  let c := vfdw_cmd_ensure c (cmd_argc c + 1) in
  MkCmd (cmd_args c ++ [value]) (cmd_capacity c).

Definition vfdw_cmd_add_cstr (c : VfdwCmd) (value : bytes) : VfdwCmd :=
  vfdw_cmd_add_bytes c (until_nul value).

Definition vfdw_cmd_add_int (c : VfdwCmd) (value : Z) : VfdwCmd :=
  vfdw_cmd_add_bytes c (dec value).

(* ---------------------------------------------------------------- *)
(** ** The connection *)

(** One I/O failure: how many of the buffered commands reached the peer before
    it, and the error raised. *)
Record Fault := MkFault { f_delivered : nat; f_error : pg_error }.

Section batch.
(** The peer's state, and how it answers one command. *)
Context {P : Type} (serve : list bytes → P → Reply * P).

Record Conn := MkConn {
  cn_peer : P;
  cn_out : list (list bytes);
  cn_in : list Reply;
  cn_in_conversation : bool;
  cn_script_loaded : bool;
  cn_faults : list (option Fault);
}.

(** The peer answers commands in the order they arrive. *)
Fixpoint deliver (cmds : list (list bytes)) (p : P) : list Reply * P :=
  match cmds with
  | [] => ([], p)
  | c :: rest =>
      let '(r, p) := serve c p in
      let '(rs, p) := deliver rest p in (r :: rs, p)
  end.

Definition set_wire (p : P) (out : list (list bytes)) (inp : list Reply)
    (faults : list (option Fault)) (c : Conn) : Conn :=
  MkConn p out inp (cn_in_conversation c) (cn_script_loaded c) faults.

Definition set_conversation (b : bool) (c : Conn) : Conn :=
  MkConn (cn_peer c) (cn_out c) (cn_in c) b (cn_script_loaded c) (cn_faults c).

(** [valkeyAppendCommandArgv]: format one command into the output buffer; a
    failure leaves the buffer as it was. *)
Definition wire_append (cmd : list bytes) : M Conn unit := λ c,
  let faults := tail (cn_faults c) in
  match head (cn_faults c) with
  | Some (Some f) => (Raise (f_error f), set_wire (cn_peer c) (cn_out c) (cn_in c) faults c)
  | _ => (Ok (), set_wire (cn_peer c) (cn_out c ++ [cmd]) (cn_in c) faults c)
  end.

(** What [vfdw_io_flush] amounts to once libvalkey's partial writes are left
    out: push the output buffer; what a fault has not delivered is lost with
    the connection. *)
Definition wire_flush : M Conn unit := λ c,
  let faults := tail (cn_faults c) in
  match head (cn_faults c) with
  | Some (Some f) =>
      let n := (f_delivered f `min` (length (cn_out c) - 1))%nat in
      let '(rs, p) := deliver (take n (cn_out c)) (cn_peer c) in
      (Raise (f_error f), set_wire p [] (cn_in c ++ rs) faults c)
  | _ =>
      let '(rs, p) := deliver (cn_out c) (cn_peer c) in
      (Ok (), set_wire p [] (cn_in c ++ rs) faults c)
  end.

(** What [vfdw_io_get_reply] amounts to: take one reply from the stream; a
    stream with nothing in it times out. *)
Definition wire_take : M Conn (option Reply) := λ c,
  let faults := tail (cn_faults c) in
  match head (cn_faults c), cn_in c with
  | Some (Some f), _ => (Raise (f_error f), set_wire (cn_peer c) (cn_out c) (cn_in c) faults c)
  | _, r :: rest => (Ok (Some r), set_wire (cn_peer c) (cn_out c) rest faults c)
  | _, [] => (Raise (PgError ERRCODE_CONNECTION_FAILURE "timed out communicating with Valkey"),
              set_wire (cn_peer c) (cn_out c) [] faults c)
  end.

(* ---------------------------------------------------------------- *)
(** ** Batching *)

Record VfdwBatch := MkBatch {
  b_max_inflight : Z;
  b_queued : Z;
  b_outstanding : Z;
  b_flushes : Z;
  b_current : option Reply;
}.

(** A batch in use on its connection. *)
Record BatchState := MkBS { bs_batch : VfdwBatch; bs_conn : Conn }.

Definition on_conn {A} (m : M Conn A) : M BatchState A := λ s,
  let '(r, c) := m (bs_conn s) in (r, MkBS (bs_batch s) c).

Definition set_batch (f : VfdwBatch → VfdwBatch) : M BatchState unit :=
  modify (λ s, MkBS (f (bs_batch s)) (bs_conn s)).

Definition vfdw_batch_begin (pipeline_batch : Z) (c : Conn) : BatchState :=
  MkBS (MkBatch pipeline_batch 0 0 0 None) (set_conversation true c).

Definition vfdw_batch_flush : M BatchState unit :=
  b ← gets bs_batch;
  if bool_decide (b_queued b = 0) then mret () else
  on_conn wire_flush;;;
  set_batch (λ b, MkBatch (b_max_inflight b) 0 (b_outstanding b + b_queued b)
                    (b_flushes b + 1) (b_current b)).

Definition vfdw_batch_flushes (s : BatchState) : Z := b_flushes (bs_batch s).

Definition vfdw_batch_add (cmd : VfdwCmd) : M BatchState unit :=
  on_conn (wire_append (cmd_args cmd));;;
  set_batch (λ b, MkBatch (b_max_inflight b) (b_queued b + 1) (b_outstanding b)
                    (b_flushes b) (b_current b));;;
  (b ← gets bs_batch;
   when (bool_decide (b_max_inflight b ≤ b_queued b)) vfdw_batch_flush).

Definition vfdw_batch_pending (s : BatchState) : Z :=
  b_queued (bs_batch s) + b_outstanding (bs_batch s).

Definition set_current (r : option Reply) (b : VfdwBatch) : VfdwBatch :=
  MkBatch (b_max_inflight b) (b_queued b) (b_outstanding b) (b_flushes b) r.

Definition vfdw_batch_next : M BatchState (option Reply) :=
  set_batch (set_current None);;;
  vfdw_batch_flush;;;
  (b ← gets bs_batch;
   if bool_decide (b_outstanding b = 0) then mret None else
   r ← on_conn wire_take;
   set_batch (λ b, MkBatch (b_max_inflight b) (b_queued b) (b_outstanding b - 1)
                     (b_flushes b) r);;;
   mret r).

(** [while (vfdw_batch_pending(batch) > 0) (void) vfdw_batch_next(batch)]. *)
Fixpoint drain_loop (fuel : nat) : M BatchState unit :=
  match fuel with
  | O => mret ()
  | S n =>
      s ← get;
      if bool_decide (0 < vfdw_batch_pending s)
      then vfdw_batch_next;;; drain_loop n else mret ()
  end.

Definition vfdw_batch_end : M BatchState unit :=
  s ← get;
  drain_loop (Z.to_nat (vfdw_batch_pending s));;;
  set_batch (set_current None);;;
  modify (λ s, MkBS (bs_batch s) (set_conversation false (bs_conn s))).
End batch.

(* ---------------------------------------------------------------- *)
(** ** Reply shape *)

Definition vfdw_reply_type_name (t : Z) : string :=
  if bool_decide (t = VALKEY_REPLY_STRING) then "string"
  else if bool_decide (t = VALKEY_REPLY_ARRAY) then "array"
  else if bool_decide (t = VALKEY_REPLY_INTEGER) then "integer"
  else if bool_decide (t = VALKEY_REPLY_NIL) then "nil"
  else if bool_decide (t = VALKEY_REPLY_STATUS) then "status"
  else if bool_decide (t = VALKEY_REPLY_ERROR) then "error"
  else if bool_decide (t = VALKEY_REPLY_DOUBLE) then "double"
  else if bool_decide (t = VALKEY_REPLY_BOOL) then "boolean"
  else if bool_decide (t = VALKEY_REPLY_MAP) then "map"
  else if bool_decide (t = VALKEY_REPLY_SET) then "set"
  else if bool_decide (t = VALKEY_REPLY_PUSH) then "push"
  else if bool_decide (t = VALKEY_REPLY_VERB) then "verbatim"
  else if bool_decide (t = VALKEY_REPLY_BIGNUM) then "bignum"
  else if bool_decide (t = VALKEY_REPLY_ATTR) then "attribute"
  else "unknown".

Definition vfdw_reply_child (reply : Reply) (i : nat) : result Reply :=
  match r_element reply ≫= λ l, l !! i with
  | Some (Some r) => Ok r
  | _ => Raise (PgError ERRCODE_FDW_ERROR
           "a Valkey aggregate reply is missing an element it declared")
  end.

Definition VFDW_RTYPE (t : Z) : Z := Z.shiftl 1 t.

Definition vfdw_reply_expect (reply : option Reply) (allowed : Z) (what : string)
    : result unit :=
  match reply with
  | None => Raise (PgError ERRCODE_FDW_ERROR what)
  | Some r =>
      if vfdw_reply_is_error reply
      then Raise (PgError (match r_str r with
                           | None | Some "" => ERRCODE_FDW_ERROR
                           | s => vfdw_errcode_for_reply s
                           end) what)
      else if bool_decide (Z.land allowed (VFDW_RTYPE (r_type r)) = 0)
      then Raise (PgError ERRCODE_FDW_INVALID_DATA_TYPE what)
      else Ok ()
  end.
