(* ===== verification/CmdFacts.v ===== *)
(** Command vectors grow without losing an argument, and a pipelined batch
    hands back the replies in the order the commands were queued
    (src/vfdw_cmd.c). *)
From S2P Require Import Prelude Error Cmd.
Local Open Scope Z_scope.

(* ---------------------------------------------------------------- *)
(** ** Command vectors *)

Lemma grow_loop_enough fuel newcap needed :
  0 < newcap → needed ≤ newcap * 2 ^ Z.of_nat fuel →
  needed ≤ grow_loop fuel newcap needed ∧ newcap ≤ grow_loop fuel newcap needed.
Proof.
  revert newcap. induction fuel as [|fuel IH]; intros newcap Hpos Hn; simpl.
  - rewrite Z.mul_1_r in Hn. lia.
  - case_bool_decide as Hlt; [|lia].
    destruct (IH (newcap * 2)) as [H1 H2]; [lia| |lia].
    rewrite Nat2Z.inj_succ, Z.pow_succ_r in Hn by lia. lia.
Qed.

Lemma two_pow_ge n : Z.of_nat n < 2 ^ Z.of_nat n.
Proof.
  induction n as [|n IH]; [done|]. rewrite Nat2Z.inj_succ, Z.pow_succ_r by lia. lia.
Qed.

Lemma add_bytes_spec c v :
  0 < cmd_capacity c → cmd_argc c ≤ cmd_capacity c →
  cmd_args (vfdw_cmd_add_bytes c v) = cmd_args c ++ [v] ∧
  cmd_argc (vfdw_cmd_add_bytes c v) ≤ cmd_capacity (vfdw_cmd_add_bytes c v) ∧
  0 < cmd_capacity (vfdw_cmd_add_bytes c v).
Proof.
  intros Hpos Hle. unfold vfdw_cmd_add_bytes, vfdw_cmd_ensure, cmd_argc in *.
  case_bool_decide as Hc; simpl; rewrite length_app; simpl.
  - split_and!; [done|lia|lia].
  - set (n := Z.of_nat (length (cmd_args c)) + 1) in *.
    destruct (grow_loop_enough (Z.to_nat n) (cmd_capacity c * 2) n) as [H1 H2]; [lia| |].
    + pose proof (two_pow_ge (Z.to_nat n)). rewrite Z2Nat.id in * by lia. nia.
    + split_and!; [done|lia|lia].
Qed.

(* ---------------------------------------------------------------- *)
(** ** The batch *)

Section batch.
Context {P : Type} (serve : list bytes → P → Reply * P).

(** The counters are the lengths of what they count. *)
Definition counted (s : BatchState (P := P)) : Prop :=
  b_queued (bs_batch s) = Z.of_nat (length (cn_out (bs_conn s))) ∧
  b_outstanding (bs_batch s) = Z.of_nat (length (cn_in (bs_conn s))).

(** Every reply the batch still owes, taken or to be produced, in order, and
    the peer once everything buffered has been sent. *)
Definition owing (s : BatchState (P := P)) : list Reply * P :=
  let '(rs, p) := deliver serve (cn_out (bs_conn s)) (cn_peer (bs_conn s)) in
  (cn_in (bs_conn s) ++ rs, p).

Lemma deliver_app cs1 cs2 p :
  deliver serve (cs1 ++ cs2) p =
  let '(r1, p1) := deliver serve cs1 p in
  let '(r2, p2) := deliver serve cs2 p1 in (r1 ++ r2, p2).
Proof.
  revert p. induction cs1 as [|c cs1 IH]; intros p; simpl.
  - by destruct (deliver serve cs2 p).
  - destruct (serve c p) as [r p']. rewrite IH.
    destruct (deliver serve cs1 p') as [r1 p1]. by destruct (deliver serve cs2 p1).
Qed.

Lemma deliver_length cs p : length (deliver serve cs p).1 = length cs.
Proof.
  revert p. induction cs as [|c cs IH]; intros p; simpl; [done|].
  destruct (serve c p) as [r p']. specialize (IH p'). destruct (deliver serve cs p') as [rs p2].
  simpl in *. by rewrite IH.
Qed.

Lemma flush_spec s s' :
  counted s → vfdw_batch_flush serve s = (Ok (), s') →
  counted s' ∧ owing s' = owing s ∧ cn_out (bs_conn s') = [] ∧
  b_max_inflight (bs_batch s') = b_max_inflight (bs_batch s) ∧
  vfdw_batch_pending s' = vfdw_batch_pending s.
Proof.
  intros [Hq Ho] H. unfold vfdw_batch_flush in H. rewrite gets_bind in H.
  case_bool_decide as Hz.
  - injection H as <-. assert (cn_out (bs_conn s) = []) as E.
    { apply nil_length_inv. lia. }
    done.
  - destruct (bind_ok _ _ _ _ _ H) as ([] & s1 & H1 & H2). injection H2 as <-.
    unfold on_conn in H1. destruct (wire_flush serve (bs_conn s)) as [r c] eqn:Ef.
    injection H1 as -> <-. unfold wire_flush in Ef.
    assert (Hd : (let '(rs, p) := deliver serve (cn_out (bs_conn s)) (cn_peer (bs_conn s)) in
      (Ok (), set_wire p [] (cn_in (bs_conn s) ++ rs) (tail (cn_faults (bs_conn s))) (bs_conn s)))
      = (Ok (), c)).
    { destruct (head (cn_faults (bs_conn s))) as [[f|]|]; [|done|done].
      by destruct (deliver serve (take _ _) _). }
    clear Ef. pose proof (deliver_length (cn_out (bs_conn s)) (cn_peer (bs_conn s))) as Hlen.
    unfold counted, owing, vfdw_batch_pending. simpl.
    destruct (deliver serve (cn_out (bs_conn s)) (cn_peer (bs_conn s))) as [rs p].
    injection Hd as <-. simpl in *. rewrite length_app, Hlen, app_nil_r.
    split_and!; try done; lia.
Qed.

Lemma add_spec cmd s s' :
  counted s → vfdw_batch_add serve cmd s = (Ok (), s') →
  counted s' ∧
  owing s' = (let '(rs, p) := owing s in let '(r, p) := serve (cmd_args cmd) p in (rs ++ [r], p)) ∧
  b_max_inflight (bs_batch s') = b_max_inflight (bs_batch s) ∧
  vfdw_batch_pending s' = vfdw_batch_pending s + 1 ∧
  (0 < b_max_inflight (bs_batch s) → b_queued (bs_batch s') < b_max_inflight (bs_batch s')).
Proof.
  intros [Hq Ho] H. unfold vfdw_batch_add in H.
  destruct (bind_ok _ _ _ _ _ H) as ([] & s0 & H0 & H'). clear H. rename H' into H.
  assert (s0 = MkBS (bs_batch s) (set_wire (cn_peer (bs_conn s))
    (cn_out (bs_conn s) ++ [cmd_args cmd]) (cn_in (bs_conn s)) (tail (cn_faults (bs_conn s)))
    (bs_conn s))) as ->.
  { unfold on_conn, wire_append in H0. by destruct (head (cn_faults (bs_conn s))) as [[f|]|];
      simplify_eq. }
  unfold set_batch in H. rewrite modify_bind, gets_bind in H. simpl in H.
  set (s1 := MkBS _ _) in H.
  assert (Hc1 : counted s1).
  { split; simpl; [|done]. rewrite length_app. simpl. lia. }
  assert (Ho1 : owing s1 = (let '(rs, p) := owing s in
    let '(r, p) := serve (cmd_args cmd) p in (rs ++ [r], p))).
  { unfold owing, s1. simpl. rewrite deliver_app.
    destruct (deliver serve (cn_out (bs_conn s)) (cn_peer (bs_conn s))) as [rs p]. simpl.
    destruct (serve (cmd_args cmd) p) as [r p']. by rewrite app_assoc. }
  assert (Hp1 : vfdw_batch_pending s1 = vfdw_batch_pending s + 1).
  { unfold vfdw_batch_pending, s1. simpl. lia. }
  case_bool_decide as Hf.
  - destruct (flush_spec s1 s' Hc1 H) as ([Hq' Ho'] & Hown & Hout & Hmax & Hpend).
    rewrite Hown, Hpend. split_and!; try done.
    intros Hpos. rewrite Hq', Hmax, Hout. simpl. done.
  - injection H as <-. split_and!; try done; try apply Hc1. simpl. lia.
Qed.

Lemma next_spec s r s' :
  counted s → vfdw_batch_next serve s = (Ok r, s') →
  counted s' ∧ r = head (owing s).1 ∧ (owing s').1 = tail (owing s).1 ∧
  (owing s').2 = (owing s).2 ∧
  (0 < vfdw_batch_pending s → vfdw_batch_pending s' = vfdw_batch_pending s - 1).
Proof.
  intros Hc H. unfold vfdw_batch_next, set_batch in H. rewrite modify_bind in H.
  set (s0 := MkBS _ _) in H.
  assert (Hc0 : counted s0) by done.
  destruct (bind_ok _ _ _ _ _ H) as ([] & s1 & H1 & H2).
  destruct (flush_spec s0 s1 Hc0 H1) as ([Hq1 Ho1] & Hown & Hout & Hmax & Hpend).
  assert (Hown' : owing s1 = owing s) by exact Hown.
  assert (Hpend' : vfdw_batch_pending s1 = vfdw_batch_pending s) by exact Hpend.
  assert (Ha : owing s1 = (cn_in (bs_conn s1), cn_peer (bs_conn s1))).
  { unfold owing. rewrite Hout. simpl. by rewrite app_nil_r. }
  rewrite <- Hown', <- Hpend', Ha. clear H H1 Hc0 Hown Hpend Hmax Hown' Hpend' Ha Hc.
  rewrite gets_bind in H2. unfold vfdw_batch_pending. rewrite Hq1, Ho1, Hout.
  case_bool_decide as Hz.
  - injection H2 as <- <-. assert (E : cn_in (bs_conn s1) = []) by (apply nil_length_inv; lia).
    unfold owing. rewrite Hout, E. simpl. split_and!; try done; lia.
  - destruct (bind_ok _ _ _ _ _ H2) as (r1 & s2 & H3 & H4). injection H4 as -> <-.
    unfold on_conn in H3. destruct (wire_take (bs_conn s1)) as [rr c] eqn:Et.
    injection H3 as -> <-. unfold wire_take in Et.
    destruct (cn_in (bs_conn s1)) as [|x xs] eqn:Ein; [simpl in Ho1; lia|].
    assert (Hx : Some x = r ∧ c = set_wire (cn_peer (bs_conn s1)) (cn_out (bs_conn s1)) xs
      (tail (cn_faults (bs_conn s1))) (bs_conn s1)).
    { by destruct (head (cn_faults (bs_conn s1))) as [[f|]|]; simplify_eq. }
    destruct Hx as [<- ->]. unfold owing, counted. simpl. rewrite Hout. simpl.
    rewrite app_nil_r. rewrite Hout in Hq1. simpl in Ho1, Hq1. split_and!; try done; lia.
Qed.

(** Taking [n] replies. *)
Fixpoint take_replies (n : nat) (s : BatchState (P := P))
    : result (list (option Reply)) * BatchState :=
  match n with
  | O => (Ok [], s)
  | S n =>
      match vfdw_batch_next serve s with
      | (Raise e, s) => (Raise e, s)
      | (Ok r, s) =>
          match take_replies n s with
          | (Raise e, s) => (Raise e, s)
          | (Ok rs, s) => (Ok (r :: rs), s)
          end
      end
  end.

Lemma take_replies_spec n s rs s' :
  counted s → (n ≤ length (owing s).1)%nat → take_replies n s = (Ok rs, s') →
  rs = Some <$> take n (owing s).1 ∧ counted s' ∧ (owing s').1 = drop n (owing s).1.
Proof.
  revert s rs. induction n as [|n IH]; intros s rs Hc Hn H; simpl in H.
  { injection H as <- <-. by rewrite take_0, drop_0. }
  destruct (vfdw_batch_next serve s) as [[r|e] s1] eqn:E1; [|done].
  destruct (next_spec _ _ _ Hc E1) as (Hc1 & Hr & Ho1 & _ & _).
  destruct (take_replies n s1) as [[rs1|e] s2] eqn:E2; [|done].
  injection H as <- <-.
  destruct ((owing s).1) as [|x xs] eqn:Ex; [simpl in Hn; lia|].
  destruct (IH s1 rs1 Hc1) as (Hrs & Hc2 & Ho2); [rewrite Ho1; simpl in *; lia|done|].
  rewrite Ho1 in Hrs, Ho2. simpl in *. subst. done.
Qed.

Lemma adds_spec cmds s s' :
  counted s → miter (vfdw_batch_add serve) cmds s = (Ok (), s') →
  counted s' ∧ (owing s').1 = (owing s).1 ++ (deliver serve (cmd_args <$> cmds) (owing s).2).1 ∧
  (owing s').2 = (deliver serve (cmd_args <$> cmds) (owing s).2).2.
Proof.
  revert s. induction cmds as [|c cmds IH]; intros s Hc H; simpl in H.
  { injection H as <-. simpl. by rewrite app_nil_r. }
  destruct (bind_ok _ _ _ _ _ H) as ([] & s1 & H1 & H2).
  destruct (add_spec _ _ _ Hc H1) as (Hc1 & Ho1 & _).
  destruct (IH s1 Hc1 H2) as (Hc2 & Ha & Hb).
  destruct (owing s) as [rs p]. rewrite fmap_cons. simpl in *.
  destruct (serve (cmd_args c) p) as [r p1]. rewrite Ho1 in Ha, Hb. simpl in *.
  destruct (deliver serve (cmd_args <$> cmds) p1) as [rs2 p2]. simpl in *.
  rewrite Ha, <- app_assoc. done.
Qed.

Lemma drain_loop_spec n s s' :
  counted s → vfdw_batch_pending s ≤ Z.of_nat n → drain_loop serve n s = (Ok (), s') →
  counted s' ∧ vfdw_batch_pending s' ≤ 0.
Proof.
  revert s. induction n as [|n IH]; intros s Hc Hp H; simpl in H.
  { injection H as <-. split; [done|lia]. }
  unfold get, mbind, M_bind in H. case_bool_decide as Hz.
  - destruct (vfdw_batch_next serve s) as [[r|e] s1] eqn:E; [|done].
    destruct (next_spec _ _ _ Hc E) as (Hc1 & _ & _ & _ & Hp1). apply (IH s1); [done| |done]. lia.
  - injection H as <-. split; [done|lia].
Qed.

(** ** A connection without faults and a peer that does not move *)

Definition faultless (s : BatchState (P := P)) : Prop := cn_faults (bs_conn s) = [].

Lemma flush_faultless s :
  faultless s → ∃ s', vfdw_batch_flush serve s = (Ok (), s') ∧ faultless s'.
Proof.
  unfold faultless. intros Hf. unfold vfdw_batch_flush. rewrite gets_bind. case_bool_decide; [by exists s|].
  unfold mbind, M_bind, on_conn, wire_flush. rewrite Hf. simpl.
  destruct (deliver serve (cn_out (bs_conn s)) (cn_peer (bs_conn s))) as [rs p]. simpl. by eexists (MkBS _ _).
Qed.

Lemma add_faultless cmd s :
  faultless s → ∃ s', vfdw_batch_add serve cmd s = (Ok (), s') ∧ faultless s'.
Proof.
  unfold faultless. intros Hf. unfold vfdw_batch_add, set_batch.
  unfold mbind at 1. unfold M_bind at 1, on_conn, wire_append. rewrite Hf. simpl.
  rewrite modify_bind, gets_bind. simpl. case_bool_decide; [by apply flush_faultless|by eexists (MkBS _ _)].
Qed.

Lemma next_faultless s :
  counted s → faultless s → ∃ r s', vfdw_batch_next serve s = (Ok r, s') ∧ faultless s'.
Proof.
  intros Hc Hf. unfold vfdw_batch_next, set_batch. rewrite modify_bind.
  set (s0 := MkBS _ _). destruct (flush_faultless s0 Hf) as (s1 & E & Hf1).
  destruct (flush_spec s0 s1 Hc E) as ([_ Ho] & _). unfold mbind at 1. unfold M_bind at 1. rewrite E.
  rewrite gets_bind. case_bool_decide as Hz; [by exists None, s1|].
  unfold mbind, M_bind, on_conn, wire_take. unfold faultless in Hf1. rewrite Hf1. simpl.
  destruct (cn_in (bs_conn s1)); [simpl in Ho; lia|]. by eexists _, (MkBS _ _).
Qed.

(** A batch that has nothing pending has nothing buffered in either direction. *)
Lemma counted_pending s :
  counted s → vfdw_batch_pending s ≤ 0 → cn_out (bs_conn s) = [] ∧ cn_in (bs_conn s) = [].
Proof.
  unfold vfdw_batch_pending. intros [Hq Ho] Hp. split; apply nil_length_inv; lia.
Qed.

(** Ending a batch leaves the connection quiet: out of the conversation and
    with nothing buffered in either direction. *)
Lemma end_quiet s s' :
  counted s → vfdw_batch_end serve s = (Ok (), s') →
  cn_in_conversation (bs_conn s') = false ∧ cn_out (bs_conn s') = [] ∧ cn_in (bs_conn s') = [].
Proof.
  intros Hc H. unfold vfdw_batch_end in H. unfold mbind at 1, M_bind at 1, get in H.
  destruct (bind_ok _ _ _ _ _ H) as ([] & s1 & H1 & H2). injection H2 as <-.
  assert (Hn : vfdw_batch_pending s ≤ Z.of_nat (Z.to_nat (vfdw_batch_pending s))) by lia.
  destruct (drain_loop_spec _ _ _ Hc Hn H1) as [Hc1 Hp1]. split; [done|]. by apply counted_pending.
Qed.

(** Only the end of a batch touches the conversation flag. *)
Definition keeps_flag {A} (m : M (BatchState (P := P)) A) : Prop :=
  ∀ s, cn_in_conversation (bs_conn (m s).2) = cn_in_conversation (bs_conn s).

Lemma keeps_flag_bind {A B} (m : M (BatchState (P := P)) A) (f : A → M BatchState B) :
  keeps_flag m → (∀ a, keeps_flag (f a)) → keeps_flag (m ≫= f).
Proof.
  intros Hm Hf s. specialize (Hm s). unfold mbind, M_bind.
  destruct (m s) as [[a|e] s1]; [|done]. rewrite <- Hm. apply Hf.
Qed.

Lemma flush_keeps_flag : keeps_flag (vfdw_batch_flush serve).
Proof.
  apply keeps_flag_bind; [done|]. intros b. case_bool_decide; [done|].
  apply keeps_flag_bind; [|done]. intros s. unfold on_conn, wire_flush.
  destruct (head _) as [[f|]|]; by destruct (deliver serve _ _).
Qed.

Lemma add_keeps_flag cmd : keeps_flag (vfdw_batch_add serve cmd).
Proof.
  apply keeps_flag_bind; [intros s; unfold on_conn, wire_append; by destruct (head _) as [[f|]|]|].
  intros _. apply keeps_flag_bind; [done|]. intros _. apply keeps_flag_bind; [done|].
  intros b. unfold when. destruct (bool_decide _); [apply flush_keeps_flag|done].
Qed.

Lemma next_keeps_flag : keeps_flag (vfdw_batch_next serve).
Proof.
  apply keeps_flag_bind; [done|]. intros _. apply keeps_flag_bind; [apply flush_keeps_flag|].
  intros _. apply keeps_flag_bind; [done|]. intros b. case_bool_decide; [done|].
  apply keeps_flag_bind; [|done]. intros s. unfold on_conn, wire_take.
  destruct (head _) as [[f|]|]; [done|..]; by destruct (cn_in _).
Qed.

Lemma drain_keeps_flag n : keeps_flag (drain_loop serve n).
Proof.
  induction n as [|n IH]; [done|]. apply keeps_flag_bind; [done|]. intros s.
  case_bool_decide; [|done]. by apply keeps_flag_bind; [apply next_keeps_flag|].
Qed.

(** An end that fails has not left the conversation. *)
Lemma end_raise_flag s e s' :
  vfdw_batch_end serve s = (Raise e, s') →
  cn_in_conversation (bs_conn s') = cn_in_conversation (bs_conn s).
Proof.
  intros H. unfold vfdw_batch_end in H. unfold mbind at 1, M_bind at 1, get in H.
  pose proof (drain_keeps_flag (Z.to_nat (vfdw_batch_pending s)) s) as Hk.
  unfold mbind at 1, M_bind at 1 in H.
  destruct (drain_loop serve _ s) as [[[]|e'] s1]; [done|]. by injection H as <- <-.
Qed.

Context (peer : P).
Hypothesis unmoved : ∀ c, (serve c peer).2 = peer.

(** The batch owes the replies [rs] and nothing can go wrong in taking them. *)
Definition owes (s : BatchState (P := P)) (rs : list Reply) : Prop :=
  counted s ∧ owing s = (rs, peer) ∧ faultless s.

Lemma add_owes cmd s rs :
  owes s rs → ∃ s', vfdw_batch_add serve cmd s = (Ok (), s') ∧ owes s' (rs ++ [(serve (cmd_args cmd) peer).1]).
Proof using unmoved.
  intros (Hc & Ho & Hf). destruct (add_faultless cmd s Hf) as (s' & E & Hf').
  destruct (add_spec cmd s s' Hc E) as (Hc' & Ho' & _). exists s'. split; [done|]. split; [done|]. split; [|done].
  rewrite Ho', Ho. pose proof (unmoved (cmd_args cmd)) as Hu. destruct (serve (cmd_args cmd) peer). simpl in *.
  by subst.
Qed.

Lemma next_owes s r rs :
  owes s (r :: rs) → ∃ s', vfdw_batch_next serve s = (Ok (Some r), s') ∧ owes s' rs.
Proof.
  intros (Hc & Ho & Hf). destruct (next_faultless s Hc Hf) as (r' & s' & E & Hf').
  destruct (next_spec s r' s' Hc E) as (Hc' & Hr & H1 & H2 & _). rewrite Ho in *. simpl in *. subst r'.
  exists s'. split; [done|]. split; [done|]. split; [|done]. destruct (owing s'). simpl in *. by subst.
Qed.

Lemma begin_owes n c :
  cn_out c = [] → cn_in c = [] → cn_faults c = [] → cn_peer c = peer → owes (vfdw_batch_begin n c) [].
Proof.
  intros Ho Hi Hf Hp. unfold owes, counted, owing, faultless. simpl. by rewrite Ho, Hi, Hf, Hp.
Qed.

(** Nothing owed: the connection is quiet, and the batch counts nothing. *)
Lemma owes_nothing s :
  owes s [] ↔ b_queued (bs_batch s) = 0 ∧ b_outstanding (bs_batch s) = 0 ∧
    cn_peer (bs_conn s) = peer ∧ cn_out (bs_conn s) = [] ∧ cn_in (bs_conn s) = [] ∧ cn_faults (bs_conn s) = [].
Proof using Type.
  clear unmoved. unfold owes, counted, owing, faultless.
  pose proof (deliver_length (cn_out (bs_conn s)) (cn_peer (bs_conn s))) as Hl. split.
  - intros ([Hq Ho] & Hown & Hf). destruct (deliver serve _ _) as [rs q] eqn:Ed. injection Hown as Hi Hpeer. subst q.
    apply app_eq_nil in Hi as [Hi ->]. destruct (cn_out (bs_conn s)); [|done]. injection Ed as <-.
    rewrite Hi in Ho. by split_and!.
  - intros (Hq & Ho & Hp & Hout & Hin & Hf). rewrite Hout, Hin, Hq, Ho, Hp. by split_and!.
Qed.

Lemma owes_pending s rs : owes s rs → vfdw_batch_pending s = Z.of_nat (length rs).
Proof.
  intros ([Hq Ho] & Hown & _). unfold vfdw_batch_pending, owing in *.
  pose proof (deliver_length (cn_out (bs_conn s)) (cn_peer (bs_conn s))) as Hl.
  destruct (deliver serve (cn_out (bs_conn s)) (cn_peer (bs_conn s))) as [rs' p']. simpl in Hl.
  injection Hown as <- _. rewrite length_app, Hq, Ho, Hl. lia.
Qed.

Lemma drain_owes n s rs :
  owes s rs → (length rs ≤ n)%nat → ∃ s', drain_loop serve n s = (Ok (), s') ∧ owes s' [].
Proof.
  revert s rs. induction n as [|n IH]; intros s rs Ho Hn.
  { exists s. split; [done|]. by destruct rs; [|simpl in Hn; lia]. }
  cbn [drain_loop]. unfold mbind at 1, M_bind at 1, get. rewrite (owes_pending _ _ Ho).
  destruct rs as [|r rs]; [by exists s|]. rewrite bool_decide_eq_true_2 by (simpl; lia).
  destruct (next_owes s r rs Ho) as (s1 & E1 & Ho1). unfold mbind, M_bind. rewrite E1.
  apply (IH s1 rs Ho1). simpl in Hn. lia.
Qed.

(** Ending a batch takes what is owed; a new one on the same connection owes
    nothing. *)
Lemma end_owes s rs : owes s rs → ∃ s', vfdw_batch_end serve s = (Ok (), s') ∧ owes s' [].
Proof.
  intros Ho. unfold vfdw_batch_end. unfold mbind at 1, M_bind at 1, get. rewrite (owes_pending _ _ Ho), Nat2Z.id.
  destruct (drain_owes (length rs) s rs Ho (Nat.le_refl _)) as (s1 & E1 & Ho1).
  unfold mbind, M_bind. rewrite E1. by eexists (MkBS _ _).
Qed.

Lemma rebegin_owes n s : owes s [] → owes (vfdw_batch_begin n (bs_conn s)) [].
Proof using Type. intros (_ & _ & ? & ? & ? & ?)%owes_nothing. by apply begin_owes. Qed.
End batch.

(* ---------------------------------------------------------------- *)
(** ** Properties *)

(** C15: replies come back in the order the commands were queued, one for one,
    whatever the pipeline depth splits the batch into: queueing commands on a
    clean connection and taking as many replies gives exactly the peer's
    answers to those commands in sequence. *)
Theorem batch_replies_in_order {P : Type} (serve : list bytes → P → Reply * P)
    (pipeline_batch : Z) (c : Conn (P := P)) (cmds : list VfdwCmd)
    (rs : list (option Reply)) (s1 s2 : BatchState (P := P)) :
  cn_out c = [] → cn_in c = [] →
  miter (vfdw_batch_add serve) cmds (vfdw_batch_begin pipeline_batch c) = (Ok (), s1) →
  take_replies serve (length cmds) s1 = (Ok rs, s2) →
  rs = Some <$> (deliver serve (cmd_args <$> cmds) (cn_peer c)).1.
Proof.
  intros Ho Hi H1 H2.
  set (s0 := vfdw_batch_begin pipeline_batch c) in *.
  assert (Hc0 : counted s0) by (split; simpl; by rewrite ?Ho, ?Hi).
  assert (Hown : owing serve s0 = ([], cn_peer c)).
  { unfold owing, s0. simpl. by rewrite Ho, Hi. }
  destruct (adds_spec serve cmds s0 s1 Hc0 H1) as (Hc1 & Ha & _).
  rewrite Hown in Ha. simpl in Ha.
  pose proof (deliver_length serve (cmd_args <$> cmds) (cn_peer c)) as Hl.
  rewrite length_fmap in Hl.
  destruct (take_replies_spec serve (length cmds) s1 rs s2 Hc1) as (Hrs & _ & _);
    [rewrite Ha, Hl; done|done|].
  by rewrite Hrs, Ha, take_ge by lia.
Qed.

(** An echo server: it answers with the command's first word and counts. *)
Definition echo (cmd : list bytes) (n : nat) : Reply * nat :=
  (status_reply (default "" (head cmd) +:+ dec (Z.of_nat n)), S n).

Definition echo_conn : Conn (P := nat) := MkConn 0%nat [] [] false false [].

Definition echo_cmds : list VfdwCmd := [MkCmd ["A"] 4; MkCmd ["B"] 4; MkCmd ["C"] 4].

Definition echo_queued : BatchState (P := nat) :=
  (miter (vfdw_batch_add echo) echo_cmds (vfdw_batch_begin 2 echo_conn)).2.

Definition echo_replies : list (option Reply) :=
  [Some (status_reply "A0"); Some (status_reply "B1"); Some (status_reply "C2")].

Lemma batch_replies_in_order_witness :
  b_flushes (bs_batch echo_queued) = 1 ∧
  echo_replies = Some <$> (deliver echo (cmd_args <$> echo_cmds) 0%nat).1.
Proof.
  split; [vm_compute; reflexivity|].
  exact (batch_replies_in_order echo 2 echo_conn echo_cmds echo_replies echo_queued
    (take_replies echo 3 echo_queued).2 eq_refl eq_refl
    ltac:(vm_compute; reflexivity) ltac:(vm_compute; reflexivity)).
Defined.
