(* ===== verification/IoFacts.v ===== *)
(** The socket code is the wire (src/vfdw_io.c under src/vfdw_cmd.c): whatever the
    chunks the bytes travel in and whatever interrupts or fails, draining the output
    buffer and taking a reply do what the wire operations of Cmd do with one fault.
    A deadline is kept. *)
From S2P Require Import Prelude Error Cmd CmdFacts Io.
Local Open Scope Z_scope.

(* ---------------------------------------------------------------- *)
(** ** Running socket code *)

Lemma io_bind_some {A B} (m : Io A) (f : A → Io B) s r s' :
  (m ≫= f) s = Some (r, s') → ∃ r0 s0, m s = Some (r0, s0) ∧
    match r0 with Ok a => f a s0 = Some (r, s') | Raise e => r = Raise e ∧ s' = s0 end.
Proof.
  unfold mbind, Io_bind. destruct (m s) as [[[a|e] s0]|]; intros E; [| |done]; eexists _, _; (split; [done|]); [done|].
  by injection E as <- <-.
Qed.

(** What a wait leaves alone. *)
Definition same_buffers (s s' : IoState) : Prop :=
  io_writes s' = io_writes s ∧ io_reads s' = io_reads s ∧ io_out s' = io_out s ∧ io_sent s' = io_sent s ∧
  io_in s' = io_in s ∧ io_live s' = io_live s.

Lemma same_buffers_refl s : same_buffers s s.
Proof. by repeat split. Qed.

Lemma same_buffers_trans s1 s2 s3 : same_buffers s1 s2 → same_buffers s2 s3 → same_buffers s1 s3.
Proof. unfold same_buffers. intros (?&?&?&?&?&?) (?&?&?&?&?&?). by repeat split; congruence. Qed.

Lemma interrupts_spec s r s' :
  CHECK_FOR_INTERRUPTS s = Some (r, s') → same_buffers s s' ∧ io_now s' = io_now s ∧ io_wakes s' = io_wakes s ∧
    (r = Ok () → s' = s ∧ io_interrupt s = None).
Proof.
  unfold CHECK_FOR_INTERRUPTS. destruct (io_interrupt s); intros [= <- <-]; by repeat split.
Qed.

Lemma latch_spec t s r s' :
  WaitLatchOrSocket t s = Some (r, s') → same_buffers s s' ∧ ∃ rc, r = Ok rc ∧
    (rc = false → length (io_wakes s) = S (length (io_wakes s'))) ∧
    (0 ≤ t → io_now s' ≤ io_now s + t * 1000) ∧ (rc = true → 0 ≤ t).
Proof.
  unfold WaitLatchOrSocket. destruct (io_wakes s) as [|w ws] eqn:Ew.
  { case_bool_decide; [done|]. intros [= <- <-]. split; [done|]. exists true. repeat split; simpl; lia. }
  case_bool_decide as Hp; cbn [andb].
  - case_bool_decide as Ht; intros [= <- <-]; (split; [done|]); eexists; (split; [done|]); simpl; repeat split; try done; lia.
  - intros [= <- <-]. split; [done|]. exists false. simpl. repeat split; try done; lia.
Qed.

(** A wait that returns has not passed the deadline and used up one event; whatever
    it does, the buffers stay as they are. *)
Lemma wait_spec deadline s r s' :
  vfdw_io_wait deadline s = Some (r, s') → same_buffers s s' ∧
    (deadline ≠ 0 → io_now s' ≤ Z.max (io_now s) deadline) ∧
    (r = Ok () → length (io_wakes s) = S (length (io_wakes s'))).
Proof.
  unfold vfdw_io_wait. intros E. apply io_bind_some in E as (r0 & s0 & E0 & E).
  apply interrupts_spec in E0 as (Hb0 & Hn0 & Hw0 & H0). destruct r0 as [[]|e]; [|destruct E as [-> ->]].
  2:{ split; [done|]. split; [lia|done]. }
  destruct (H0 eq_refl) as [-> Hi]. clear H0. apply io_bind_some in E as (r1 & s1 & E1 & E). injection E1 as <- <-.
  destruct (bool_decide (deadline ≠ 0) && _) eqn:Hx.
  { injection E as <- <-. split; [done|]. split; [lia|done]. }
  apply io_bind_some in E as (r2 & s2 & E2 & E). apply latch_spec in E2 as (Hb2 & rc & -> & Hrc & Ht & Hpos).
  apply io_bind_some in E as (r3 & s3 & E3 & E). apply interrupts_spec in E3 as (Hb3 & Hn3 & Hw3 & H3).
  pose proof (same_buffers_trans _ _ _ Hb2 Hb3) as Hb.
  assert (Hnow : deadline ≠ 0 → io_now s3 ≤ Z.max (io_now s) deadline).
  { intros Hd. rewrite bool_decide_true in Hx, Ht by done. cbn [andb] in Hx. apply bool_decide_eq_false in Hx.
    rewrite Hn3. specialize (Ht ltac:(lia)). 
    Z.to_euclidean_division_equations. lia. }
  destruct r3 as [[]|e]; [|destruct E as [-> ->]; by split].
  destruct rc; injection E as <- <-; (split; [done|]); (split; [done|]); [done|]. intros _. rewrite Hrc, Hw3; done.
Qed.

(* ---------------------------------------------------------------- *)
(** ** Both loops come to an end *)

(** What a computation may have changed but the clock. *)
Definition kept_deadline {A} (deadline : Z) (s : IoState) (o : option (result A * IoState)) : Prop :=
  ∃ r s', o = Some (r, s') ∧ io_now s' ≤ Z.max (io_now s) deadline.

Lemma wait_returns deadline s : deadline ≠ 0 → ∃ r s', vfdw_io_wait deadline s = Some (r, s').
Proof.
  intros Hd. unfold vfdw_io_wait, mbind, Io_bind, CHECK_FOR_INTERRUPTS, io_gets, io_raise, WaitLatchOrSocket.
  destruct (io_interrupt s); [by eauto|]. destruct (bool_decide (deadline ≠ 0) && _) eqn:Hx; [by eauto|].
  rewrite (bool_decide_true (deadline ≠ 0)) in Hx |- * by done. cbn [andb] in Hx. apply bool_decide_eq_false in Hx.
  destruct (io_wakes s) as [|w ws].
  - rewrite bool_decide_false by lia. cbn [io_interrupt set_clock]. destruct (io_interrupt s); by eauto.
  - destruct (bool_decide (0 ≤ _) && _); cbn [io_interrupt set_clock]; [|destruct (wk_interrupt w)];
      try destruct (io_interrupt s); by eauto.
Qed.

Section ends.
Context (parse : bytes → ParseResult) (deadline : Z).
Hypothesis Hd : deadline ≠ 0.

Lemma kept_step {A} s s1 (o : option (result A * IoState)) :
  io_now s1 ≤ Z.max (io_now s) deadline → kept_deadline deadline s1 o → kept_deadline deadline s o.
Proof using. intros Hn (r & s' & E & Hs). exists r, s'. split; [done|]. lia. Qed.

Lemma flush_ends fuel s : (length (io_wakes s) < fuel)%nat → kept_deadline deadline s (vfdw_io_flush fuel deadline s).
Proof using Hd.
  revert s. induction fuel as [|n IH]; intros s Hn; [lia|]. cbn [vfdw_io_flush]. unfold mbind at 1, Io_bind at 1.
  assert (Hw : ∃ x s1, valkeyBufferWrite s = Some (Ok x, s1) ∧ io_now s1 = io_now s ∧ io_wakes s1 = io_wakes s).
  { unfold valkeyBufferWrite. case_bool_decide; [by eauto|]. destruct (io_writes s) as [|[]]; by eauto 6. }
  destruct Hw as (x & s1 & -> & Hn1 & Hw1). destruct x as [e|[|]]; [exists (Raise (vfdw_error_from_context e "could not send command to Valkey")), s1; split; [done|lia]|exists (Ok ()), s1; split; [done|lia]|].
  destruct (wait_returns deadline s1 Hd) as (r & s2 & E2). destruct (wait_spec _ _ _ _ E2) as (_ & Hn2 & Hw2).
  unfold mbind, Io_bind. rewrite E2. destruct r as [[]|e].
  - apply (kept_step s s2); [specialize (Hn2 Hd); lia|]. apply IH. specialize (Hw2 eq_refl). rewrite Hw1 in Hw2. lia.
  - exists (Raise e), s2. split; [done|]. specialize (Hn2 Hd). lia.
Qed.

Lemma get_reply_ends fuel s : (length (io_wakes s) < fuel)%nat → kept_deadline deadline s (vfdw_io_get_reply parse fuel deadline s).
Proof using Hd.
  revert s. induction fuel as [|n IH]; intros s Hn; [lia|]. cbn [vfdw_io_get_reply].
  unfold mbind at 1, Io_bind at 1, valkeyGetReplyFromReader. destruct (parse (io_in s)) as [|r rest|e].
  2:{ exists (Ok r), (set_input (io_reads s) rest s). split; [done|]. simpl. lia. }
  2:{ eexists (Raise _), s. split; [done|]. lia. }
  destruct (wait_returns deadline s Hd) as (r & s2 & E2). destruct (wait_spec _ _ _ _ E2) as (_ & Hn2 & Hw2).
  unfold mbind at 1, Io_bind at 1. rewrite E2. destruct r as [[]|e].
  2:{ exists (Raise e), s2. split; [done|]. specialize (Hn2 Hd). lia. }
  assert (Hr : ∃ x s3, valkeyBufferRead s2 = Some (Ok x, s3) ∧ io_now s3 = io_now s2 ∧ io_wakes s3 = io_wakes s2).
  { unfold valkeyBufferRead. destruct (io_reads s2) as [|[]]; by eauto 6. }
  destruct Hr as (x & s3 & E3 & Hn3 & Hw3). unfold mbind at 1, Io_bind at 1. rewrite E3.
  specialize (Hn2 Hd). specialize (Hw2 eq_refl). destruct x as [e|].
  - eexists (Raise _), s3. split; [done|]. lia.
  - apply (kept_step s s3); [lia|]. apply IH. rewrite Hw3. lia.
Qed.
End ends.

(* ---------------------------------------------------------------- *)
(** ** What arrives *)

(** The reader decides on a reply when it has all its bytes, and on a malformed one
    for good: more bytes do not change its mind. *)
Class ReaderLaws (parse : bytes → ParseResult) := {
  complete_stable b r rest c : parse b = Complete r rest → parse (b +:+ c) = Complete r (rest +:+ c);
  malformed_stable b e c : parse b = Malformed e → parse (b +:+ c) = Malformed e;
}.

(** The bytes still to be read. *)
Fixpoint arriving (rs : list ReadEvent) : bytes :=
  match rs with ReadBytes b :: rs => b +:+ arriving rs | _ => "" end.
Definition unread (s : IoState) : bytes := io_in s +:+ arriving (io_reads s).

(** The replies a stream of bytes holds. *)
Inductive Replies (parse : bytes → ParseResult) : bytes → list Reply → Prop :=
  | replies_nil b : (∀ r rest, parse b ≠ Complete r rest) → Replies parse b []
  | replies_cons b r rest rs : parse b = Complete r rest → Replies parse rest rs → Replies parse b (r :: rs).

Lemma same_unread s s' : same_buffers s s' → unread s' = unread s.
Proof. intros (_ & Hr & _ & _ & Hi & _). unfold unread. by rewrite Hr, Hi. Qed.

Section input.
Context (parse : bytes → ParseResult) `{!ReaderLaws parse}.

(** Taking a reply takes the first of the stream; raising takes nothing. *)
Lemma get_reply_spec fuel deadline s r s' :
  vfdw_io_get_reply parse fuel deadline s = Some (r, s') →
  io_out s' = io_out s ∧ io_sent s' = io_sent s ∧ io_writes s' = io_writes s ∧
  match r with Ok reply => parse (unread s) = Complete reply (unread s') | Raise _ => unread s' = unread s end.
Proof.
  revert s. induction fuel as [|n IH]; intros s E; [done|]. cbn [vfdw_io_get_reply] in E.
  apply io_bind_some in E as (r0 & s0 & E0 & E). unfold valkeyGetReplyFromReader in E0.
  destruct (parse (io_in s)) as [|reply rest|e] eqn:Ep; injection E0 as <- <-.
  2:{ injection E as <- <-. repeat split. by apply complete_stable. }
  2:{ by injection E as <- <-. }
  apply io_bind_some in E as (r1 & s1 & E1 & E). destruct (wait_spec _ _ _ _ E1) as (Hb & _).
  pose proof (same_unread _ _ Hb) as Hu. destruct Hb as (Hw & Hr & Ho & Hs & Hi & _).
  destruct r1 as [[]|e]; [|by destruct E as [-> ->]].
  apply io_bind_some in E as (r2 & s2 & E2 & E). unfold valkeyBufferRead in E2.
  destruct (io_reads s1) as [|[b|e] rs] eqn:Er; injection E2 as <- <-.
  - destruct (IH _ E) as (-> & -> & -> & Hm). repeat split; try done. destruct r; congruence.
  - destruct (IH _ E) as (-> & -> & -> & Hm). repeat split; try done.
    assert (Hu2 : unread (set_input rs (io_in s1 +:+ b) s1) = unread s).
    { rewrite <- Hu. unfold unread. cbn [io_in io_reads set_input]. rewrite Er. cbn [arriving]. by rewrite append_assoc. }
    rewrite Hu2 in Hm. destruct r; congruence.
  - by injection E as <- <-.
Qed.

(** Nothing fails and nothing interrupts. *)
Definition quiet (s : IoState) : Prop :=
  io_interrupt s = None ∧ Forall (λ w, wk_interrupt w = None) (io_wakes s) ∧
  Forall (λ e, match e with ReadBytes _ => True | ReadFailed _ => False end) (io_reads s).

Definition waits (s : IoState) : Z := foldr (λ w t, Z.max 0 (wk_elapsed w) + t) 0 (io_wakes s).

Lemma wait_quiet deadline s w ws :
  io_interrupt s = None → io_wakes s = w :: ws → wk_interrupt w = None →
  deadline = 0 ∨ io_now s + Z.max 0 (wk_elapsed w) + 1000 ≤ deadline →
  vfdw_io_wait deadline s = Some (Ok (), set_clock (io_now s + Z.max 0 (wk_elapsed w)) None ws s).
Proof using.
  intros Hi Hw Hwi Hd. unfold vfdw_io_wait, mbind, Io_bind, CHECK_FOR_INTERRUPTS. rewrite Hi. cbn [io_gets].
  assert (Hrem : deadline ≠ 0 → 0 < Z.quot (deadline - io_now s) 1000 ∧ wk_elapsed w < Z.quot (deadline - io_now s) 1000 * 1000).
  { intros Hn. destruct Hd as [Hd|Hd]; [done|]. Z.to_euclidean_division_equations. lia. }
  unfold io_gets. case_bool_decide as Hz; cbn [andb].
  - destruct (Hrem Hz) as [H1 H2]. rewrite bool_decide_false by lia. unfold WaitLatchOrSocket. rewrite Hw.
    rewrite (bool_decide_false (_ ≤ wk_elapsed w)), andb_false_r by lia. by rewrite Hwi, Hi.
  - unfold WaitLatchOrSocket. rewrite Hw. rewrite bool_decide_false by lia. cbn [andb]. by rewrite Hwi, Hi.
Qed.

Lemma get_reply_quiet fuel deadline s reply rest :
  quiet s → parse (unread s) = Complete reply rest → (length (io_reads s) ≤ length (io_wakes s))%nat →
  deadline = 0 ∨ io_now s + waits s + 1000 ≤ deadline → (length (io_reads s) < fuel)%nat →
  ∃ s', vfdw_io_get_reply parse fuel deadline s = Some (Ok reply, s') ∧ unread s' = rest.
Proof.
  revert s. induction fuel as [|n IH]; intros s (Hi & Hq & Hr) Hp Hl Hd Hf; [lia|]. cbn [vfdw_io_get_reply].
  unfold mbind at 1, Io_bind at 1, valkeyGetReplyFromReader. destruct (parse (io_in s)) as [|r0 rest0|e] eqn:Ep.
  - destruct (io_reads s) as [|[b|e] rs] eqn:Er.
    { unfold unread in Hp. rewrite Er in Hp. cbn [arriving] in Hp. rewrite append_nil_r in Hp. congruence. }
    2:{ by inversion Hr. }
    destruct (io_wakes s) as [|w ws] eqn:Ew; [simpl in Hl; lia|]. apply Forall_cons_iff in Hq as [Hw Hq]. apply Forall_cons_iff in Hr as [_ Hr].
    unfold waits in Hd. rewrite Ew in Hd. cbn [foldr] in Hd.
    assert (Hws : 0 ≤ foldr (λ w t, Z.max 0 (wk_elapsed w) + t) 0 ws) by (clear; induction ws; simpl; lia).
    unfold mbind at 1, Io_bind at 1. rewrite (wait_quiet deadline s w ws) by (done || lia).
    unfold mbind, Io_bind, valkeyBufferRead. cbn [io_reads set_clock]. rewrite Er. apply IH.
    + by split.
    + unfold unread in Hp |- *. cbn [io_in io_reads set_input set_clock]. rewrite Er in Hp. cbn [arriving] in Hp. by rewrite append_assoc.
    + simpl in *. lia.
    + unfold waits. simpl. lia.
    + simpl in *. lia.
  - pose proof (complete_stable _ _ _ (arriving (io_reads s)) Ep) as Hc. unfold unread in Hp. rewrite Hp in Hc.
    injection Hc as -> ->. by eexists.
  - pose proof (malformed_stable _ _ (arriving (io_reads s)) Ep) as Hc. unfold unread in Hp. congruence.
Qed.
End input.

(* ---------------------------------------------------------------- *)
(** ** What leaves *)

Lemma append_split (a b c d : bytes) :
  a +:+ b = c +:+ d → (∃ m, m ≠ "" ∧ c = a +:+ m) ∨ (∃ a', a = c +:+ a' ∧ a' +:+ b = d).
Proof.
  revert a. induction c as [|x c IH]; intros a E.
  { right. by exists a. }
  destruct a as [|y a]; [left; by exists (String x c)|]. simpl_app. injection E as -> E.
  destruct (IH a E) as [(m & Hm & ->)|(a' & -> & E')]; [left; by exists m|right; by exists a'].
Qed.

Lemma write_spec s x s1 :
  valkeyBufferWrite s = Some (Ok x, s1) → io_in s1 = io_in s ∧ io_reads s1 = io_reads s ∧
    (∃ p, io_out s = p +:+ io_out s1 ∧ io_sent s1 = io_sent s +:+ p) ∧ (x = inr true ↔ io_out s1 = "").
Proof.
  unfold valkeyBufferWrite. case_bool_decide as He.
  { intros [= <- <-]. do 2 (split; [done|]). split; [exists ""; by rewrite append_nil_r|done]. }
  destruct (io_writes s) as [|[n|e] ws]; intros [= <- <-]; (do 2 (split; [done|])).
  - split; [exists ""; by rewrite append_nil_r|]. naive_solver.
  - cbn [io_out io_sent set_output]. split; [exists (take_bytes n (io_out s)); by rewrite take_drop_bytes|].
    case_bool_decide; naive_solver.
  - split; [exists ""; by rewrite append_nil_r|]. naive_solver.
Qed.

(** What flushing has sent, and what it has left unsent when it raises. *)
Lemma flush_io_spec fuel deadline s r s' :
  vfdw_io_flush fuel deadline s = Some (r, s') → unread s' = unread s ∧
    (∃ p, io_out s = p +:+ io_out s' ∧ io_sent s' = io_sent s +:+ p) ∧ (r = Ok () ↔ io_out s' = "").
Proof.
  revert s. induction fuel as [|n IH]; intros s E; [done|]. cbn [vfdw_io_flush] in E.
  apply io_bind_some in E as (r0 & s0 & E0 & E).
  assert (Hx : ∃ x, r0 = Ok x).
  { unfold valkeyBufferWrite in E0. case_bool_decide; [by simplify_eq; eauto|]. destruct (io_writes s) as [|[]]; simplify_eq; eauto. }
  destruct Hx as (x & ->). apply write_spec in E0 as (Hi & Hr & (p & Hp & Hs) & Hdone).
  assert (Hu : unread s0 = unread s) by (unfold unread; by rewrite Hi, Hr).
  destruct x as [e|[|]].
  - injection E as <- <-. split; [done|]. split; [by exists p|]. naive_solver.
  - injection E as <- <-. split; [done|]. split; [by exists p|]. naive_solver.
  - apply io_bind_some in E as (r1 & s1 & E1 & E). destruct (wait_spec _ _ _ _ E1) as (Hb & _).
    pose proof (same_unread _ _ Hb) as Hu1. destruct Hb as (_ & _ & Ho & Hs1 & _).
    destruct r1 as [[]|e].
    + destruct (IH _ E) as (Hu2 & (p2 & Hp2 & Hs2) & Hd2). split; [congruence|]. split; [|done]. exists (p +:+ p2).
      rewrite Hp, <- Ho, Hp2, Hs2, Hs1, Hs, !append_assoc. done.
    + destruct E as [-> ->]. split; [congruence|]. rewrite Ho, Hs1. split; [by exists p|]. naive_solver.
Qed.

Section output.
Context (format : list bytes → bytes).

Definition formatted (cmds : list (list bytes)) : bytes := foldr (λ c b, format c +:+ b) "" cmds.

(** Part of a stream of commands is some whole commands and part of the next. *)
Lemma split_commands cmds p rest :
  p +:+ rest = formatted cmds → rest ≠ "" →
  ∃ n c partial more, cmds !! n = Some c ∧ p = formatted (take n cmds) +:+ partial ∧ format c = partial +:+ more ∧ more ≠ "".
Proof.
  revert p. induction cmds as [|c cmds IH]; intros p E Hr.
  { simpl in E. by destruct p, rest. }
  simpl in E. apply append_split in E as [(m & Hm & Ec)|(p' & -> & E)].
  - exists 0%nat, c, p, m. by repeat split.
  - destruct (IH p' E Hr) as (n & c' & partial & more & Hn & -> & Hc & Hm). exists (S n), c', partial, more.
    split; [done|]. split; [|done]. simpl. by rewrite append_assoc.
Qed.
End output.

(* ---------------------------------------------------------------- *)
(** ** The wire *)

Section wire.
Context {P : Type} (serve : list bytes → P → Reply * P).

(** The connection before a call that will meet [f], if anything. *)
Definition under_fault (f : option Fault) (c : Conn (P := P)) : Conn := set_wire (cn_peer c) (cn_out c) (cn_in c) [f] c.

(** The state of the stream and the connection it is modelled by: the commands not
    sent yet, and the replies still to come. *)
Definition carries (format : list bytes → bytes) (parse : bytes → ParseResult) (s : IoState) (c : Conn (P := P)) : Prop :=
  io_out s = formatted format (cn_out c) ∧ Replies parse (unread s) (cn_in c).

(** The peer has got [n] whole commands of the buffer and part of another. *)
Definition reached (format : list bytes → bytes) (n : nat) (cmds : list (list bytes)) (sent sent' : bytes) : Prop :=
  ∃ partial, sent' = sent +:+ formatted format (take n cmds) +:+ partial ∧
    match cmds !! n with
    | Some c => ∃ more, format c = partial +:+ more ∧ more ≠ ""
    | None => partial = ""
    end.

Lemma flush_is_wire_flush format fuel deadline s c r s' :
  io_out s = formatted format (cn_out c) → vfdw_io_flush fuel deadline s = Some (r, s') →
  ∃ f n, reached format n (cn_out c) (io_sent s) (io_sent s') ∧ unread s' = unread s ∧
    (r = Ok () ↔ n = length (cn_out c)) ∧
    let '(rs, p) := deliver serve (take n (cn_out c)) (cn_peer c) in
    wire_flush serve (under_fault f c) = (r, set_wire p [] (cn_in c ++ rs) [] c).
Proof.
  intros Ho E. destruct (flush_io_spec _ _ _ _ _ E) as (Hu & (p & Hp & Hs) & Hd). destruct r as [[]|e].
  - exists None, (length (cn_out c)). split; [|split; [done|split; [done|]]].
    + exists "". rewrite firstn_all, append_nil_r. destruct Hd as [Hd _]. rewrite (Hd eq_refl), append_nil_r, Ho in Hp.
      split; [by rewrite Hs, Hp|]. by rewrite lookup_ge_None_2.
    + rewrite firstn_all. unfold wire_flush, under_fault. simpl. by destruct (deliver _ _ _).
  - assert (Hne : io_out s' ≠ "") by naive_solver. rewrite Ho in Hp. symmetry in Hp.
    destruct (split_commands _ _ _ _ Hp Hne) as (n & cmd & partial & more & Hn & -> & Hc & Hm).
    exists (Some (MkFault n e)), n. apply lookup_lt_Some in Hn as Hlt. split; [|split; [done|split; [split; [done|lia]|]]].
    + exists partial. split; [done|]. rewrite Hn. by exists more.
    + unfold wire_flush, under_fault. simpl.
      replace (n `min` (length (cn_out c) - 1))%nat with n by lia. by destruct (deliver _ _ _).
Qed.

Lemma get_reply_is_wire_take parse `{!ReaderLaws parse} fuel deadline s c r s' :
  Replies parse (unread s) (cn_in c) → vfdw_io_get_reply parse fuel deadline s = Some (r, s') →
  ∃ f c', wire_take (under_fault f c) = (match r with Ok reply => Ok (Some reply) | Raise e => Raise e end, c') ∧
    Replies parse (unread s') (cn_in c') ∧ cn_peer c' = cn_peer c ∧ cn_out c' = cn_out c.
Proof.
  intros Hr E. destruct (get_reply_spec _ _ _ _ _ _ E) as (_ & _ & _ & Hres). destruct r as [reply|e].
  - inversion Hr as [b Hno Eb El|b r0 rest rs Hc Hrs Eb El]; [by destruct (Hno _ _ Hres)|].
    rewrite Hc in Hres. injection Hres as -> ->. exists None.
    unfold wire_take, under_fault. simpl. rewrite <- El. eexists. split; [done|]. by repeat split.
  - exists (Some (MkFault 0 e)), (set_wire (cn_peer c) (cn_out c) (cn_in c) [] c). split; [done|]. by rewrite Hres.
Qed.
End wire.

(** C16: the socket code does what the wire operations do.  However the bytes are cut
    into writes and reads, and whatever times out, fails or interrupts: draining the
    output buffer ends as [wire_flush] does with one fault, whose commands delivered
    are the ones whose bytes have all left (all of them when it returns, never all
    when it raises); and taking a reply ends as [wire_take] does, with the next reply
    of the stream or with none taken. *)
Theorem socket_code_refines_the_wire {P : Type} (serve : list bytes → P → Reply * P)
    (format : list bytes → bytes) (parse : bytes → ParseResult) `{!ReaderLaws parse}
    (fuel : nat) (deadline : Z) (s s' : IoState) (c : Conn (P := P)) :
  carries format parse s c →
  (∀ r, vfdw_io_flush fuel deadline s = Some (r, s') →
     ∃ f n c', reached format n (cn_out c) (io_sent s) (io_sent s') ∧ unread s' = unread s ∧
       wire_flush serve (under_fault f c) = (r, c') ∧
       (cn_in c', cn_peer c') = (let '(rs, p) := deliver serve (take n (cn_out c)) (cn_peer c) in (cn_in c ++ rs, p)) ∧
       (r = Ok () ↔ n = length (cn_out c)) ∧ cn_out c' = []) ∧
  (∀ r, vfdw_io_get_reply parse fuel deadline s = Some (r, s') →
     ∃ f c', wire_take (under_fault f c) = (match r with Ok reply => Ok (Some reply) | Raise e => Raise e end, c') ∧
       cn_peer c' = cn_peer c ∧ carries format parse s' c').
Proof.
  intros [Ho Hr]. split; intros r E.
  - destruct (flush_is_wire_flush serve format _ _ _ c _ _ Ho E) as (f & n & Hn & Hu & Hall & Hw). exists f, n.
    destruct (deliver serve (take n (cn_out c)) (cn_peer c)) as [rs p]. eexists. split; [done|]. split; [done|]. split; [exact Hw|]. done.
  - destruct (get_reply_is_wire_take parse _ _ _ c _ _ Hr E) as (f & c' & Hw & Hr' & Hp & Hout). exists f, c'. split; [done|].
    split; [done|]. split; [|done]. destruct (get_reply_spec _ _ _ _ _ _ E) as (-> & _). by rewrite Hout.
Qed.

(** C17: a deadline is kept.  Under one, draining and taking a reply come to an end,
    no later than at the deadline; and when nothing fails or interrupts and what the
    socket waits for arrives in time, the reply whose bytes are on their way is the
    one returned, in however many pieces they come. *)
Theorem deadline_is_kept (parse : bytes → ParseResult) `{!ReaderLaws parse} (fuel : nat) (deadline : Z) (s : IoState) :
  deadline ≠ 0 → (length (io_wakes s) < fuel)%nat → (length (io_reads s) < fuel)%nat →
  kept_deadline deadline s (vfdw_io_flush fuel deadline s) ∧
  kept_deadline deadline s (vfdw_io_get_reply parse fuel deadline s) ∧
  ∀ reply rest, quiet s → parse (unread s) = Complete reply rest → (length (io_reads s) ≤ length (io_wakes s))%nat →
    io_now s + waits s + 1000 ≤ deadline →
    ∃ s', vfdw_io_get_reply parse fuel deadline s = Some (Ok reply, s') ∧ unread s' = rest.
Proof.
  intros Hd Hf Hf2. split; [by apply flush_ends|]. split; [by apply get_reply_ends|].
  intros reply rest Hq Hp Hl Ht. apply get_reply_quiet; try done. by right.
Qed.

(* ---------------------------------------------------------------- *)
(** ** A line protocol to run it with *)

(** A reply is a line. *)
Definition newline : ascii := ascii_of_nat 10.
Definition parse_line (b : bytes) : ParseResult :=
  match memchr newline b with
  | Some n => Complete (status_reply (take_bytes n b)) (drop_bytes (S n) b)
  | None => Incomplete
  end.

Lemma memchr_app c (a b : bytes) n : memchr c a = Some n → memchr c (a +:+ b) = Some n.
Proof.
  revert n. induction a as [|x a IH]; intros n; [done|]. simpl_app. simpl. case_decide; [done|].
  destruct (memchr c a) as [m|]; [|done]. intros [= <-]. by rewrite (IH m).
Qed.

#[local] Instance line_laws : ReaderLaws parse_line.
Proof.
  split; unfold parse_line.
  - intros b r rest c. destruct (memchr newline b) as [n|] eqn:E; [|done]. intros [= <- <-].
    rewrite (memchr_app _ _ c _ E). apply memchr_Some in E as (x & y & -> & <- & _).
    rewrite !append_assoc, !take_bytes_append. 
    assert (Hd : ∀ z, drop_bytes (S (String.length x)) (x +:+ String newline z) = z).
    { intros z. clear. induction x as [|w x IH]; [done|]. simpl_app. exact IH. }
    f_equal. rewrite append_cons, Hd. pose proof (Hd y) as Hy. cbn [drop_bytes] in Hy. by rewrite Hy.
  - intros b e c. by destruct (memchr newline b).
Qed.

Definition line_format (c : list bytes) : bytes := foldr (λ w b, w +:+ " " +:+ b) (String newline "") c.
Definition nl : bytes := String newline "".

(** Two commands to send, one in three pieces; the answers arrive split inside the
    first and the second. *)
Definition line_state : IoState :=
  MkIo 0 None [MkWake 200 None; MkWake 300 None; MkWake 100 None; MkWake 50 None]
    [WroteBytes 4; WroteBytes 0; WroteBytes 100] [ReadBytes "O"; ReadBytes ("K" +:+ nl +:+ "PO"); ReadBytes ("NG" +:+ nl)]
    (line_format ["GET"; "a"] +:+ line_format ["PING"]) "" "" 1.
Definition line_conn : Conn (P := unit) :=
  MkConn () [["GET"; "a"]; ["PING"]] [status_reply "OK"; status_reply "PONG"] false false [].

Lemma line_carries : carries line_format parse_line line_state line_conn.
Proof.
  split; [reflexivity|]. cbn [cn_in line_conn].
  apply replies_cons with ("PONG" +:+ nl); [reflexivity|]. apply replies_cons with ""; [reflexivity|].
  apply replies_nil. intros r rest. discriminate.
Qed.

Lemma socket_code_refines_the_wire_witness :
  ∃ s' f c', vfdw_io_get_reply parse_line 9 60000 line_state = Some (Ok (status_reply "OK"), s') ∧ io_now s' = 500 ∧
    wire_take (under_fault f line_conn) = (Ok (Some (status_reply "OK")), c') ∧
    cn_peer c' = cn_peer line_conn ∧ carries line_format parse_line s' c'.
Proof.
  destruct (vfdw_io_get_reply parse_line 9 60000 line_state) as [[r s']|] eqn:E; [|by vm_compute in E].
  destruct (proj2 (socket_code_refines_the_wire (λ _ p, (status_reply "", p)) line_format parse_line 9 60000 line_state s'
    line_conn line_carries) r E) as (f & c' & Hw). vm_compute in E. injection E as <- <-.
  eexists _, f, c'. split; [reflexivity|]. split; [reflexivity|]. exact Hw.
Defined.

Lemma deadline_is_kept_witness :
  ∃ s', vfdw_io_get_reply parse_line 9 60000 line_state = Some (Ok (status_reply "OK"), s') ∧ unread s' = "PONG" +:+ nl.
Proof.
  apply (deadline_is_kept parse_line 9 60000 line_state).
  - discriminate.
  - simpl. lia.
  - simpl. lia.
  - split; [reflexivity|]. split; repeat constructor.
  - reflexivity.
  - simpl. lia.
  - vm_compute. discriminate.
Defined.

(* ---------------------------------------------------------------- *)
(** ** Opening *)

Lemma free_raises {A} e s : (valkeyFree;;; io_raise (A := A) e) s = Some (Raise e, set_live (io_live s - 1) s).
Proof. done. Qed.

(** A connect that fails frees its context, on every path and once; one that
    returns hands over exactly one, with no error left in it. *)
Theorem connect_owns_or_frees (connect : Address → Z * Z → option Started) host port path timeout_ms s r s' :
  vfdw_io_connect connect host port path timeout_ms s = Some (r, s') →
  match r with
  | Ok err => err = None ∧ io_live s' = S (io_live s)
  | Raise _ => io_live s' = io_live s
  end.
Proof.
  unfold vfdw_io_connect. destruct (connect _ _) as [c|]; [|by intros [= <- <-]].
  intros E. apply io_bind_some in E as (r0 & s0 & E0 & E). injection E0 as <- <-.
  destruct (bool_decide _ && _).
  { unfold vfdw_io_fail_and_close in E. rewrite free_raises in E. injection E as <- <-. simpl. lia. }
  apply io_bind_some in E as (r1 & s1 & E1 & E). injection E1 as <- <-. unfold vfdw_io_complete_connect in E.
  apply io_bind_some in E as (r2 & s2 & E2 & E). unfold io_catch_free in E2.
  destruct (vfdw_io_wait _ _) as [[[[]|e] s3]|] eqn:Ew; [| |done]; apply wait_spec in Ew as (Hb & _);
    destruct Hb as (_ & _ & _ & _ & _ & Hl); simpl in Hl.
  - injection E2 as <- <-. destruct (st_so_error c) as [soerr|].
    + case_bool_decide; [rewrite free_raises in E|]; injection E as <- <-; simpl; [lia|by split].
    + unfold vfdw_io_fail_and_close in E. rewrite free_raises in E. injection E as <- <-. simpl. lia.
  - rewrite free_raises in E2. injection E2 as <- <-. destruct E as [-> ->]. simpl. lia.
Qed.

Definition refused_start (a : Address) (tv : Z * Z) : option Started := Some (MkStarted None true (Some 111)).

Lemma connect_owns_or_frees_witness :
  ∃ s', vfdw_io_connect refused_start "db" 6379 None 5000 line_state
      = Some (Raise (PgError ERRCODE_CONNECTION_FAILURE "could not connect to Valkey"), s') ∧ io_live s' = 1%nat.
Proof.
  eexists. split; [vm_compute; reflexivity|].
  exact (connect_owns_or_frees refused_start "db" 6379 None 5000 line_state _ _ ltac:(vm_compute; reflexivity)).
Defined.

(** No allocation larger than the ceiling is asked of the C library, whatever
    the product of a calloc wraps to, and none up to it is refused. *)
Theorem calloc_respects_the_ceiling (ceiling nmemb size : Z) :
  0 ≤ ceiling ≤ SIZE_MAX → 0 ≤ nmemb ≤ SIZE_MAX → 0 ≤ size ≤ SIZE_MAX →
  vfdw_alloc_calloc ceiling nmemb size = if bool_decide (nmemb * size ≤ ceiling) then Some (nmemb, size) else None.
Proof.
  unfold SIZE_MAX. intros Hc Hn Hs. unfold vfdw_alloc_calloc, vfdw_alloc_refused, SIZE_MAX.
  case_bool_decide as Hz; cbn [negb andb].
  - subst size. rewrite Z.mul_0_r. change (u64 0) with 0. by rewrite bool_decide_false, bool_decide_true by lia.
  - pose proof (Z.div_mod (2 ^ 64 - 1) size Hz) as Hdm. pose proof (Z.mod_pos_bound (2 ^ 64 - 1) size ltac:(lia)).
    case_bool_decide as Hov.
    + rewrite bool_decide_false; [done|]. nia.
    + assert (nmemb * size ≤ 2 ^ 64 - 1) by nia. unfold u64. rewrite Z.mod_small by nia.
      by do 2 case_bool_decide; try lia.
Qed.

Lemma calloc_respects_the_ceiling_witness :
  vfdw_alloc_calloc VFDW_MAX_REPLY_BYTES (2 ^ 63) 2 = None ∧ vfdw_alloc_calloc VFDW_MAX_REPLY_BYTES (2 ^ 20) 256 = Some (2 ^ 20, 256).
Proof.
  split.
  - rewrite calloc_respects_the_ceiling; [reflexivity|unfold VFDW_MAX_REPLY_BYTES, SIZE_MAX; lia..].
  - rewrite calloc_respects_the_ceiling; [reflexivity|unfold VFDW_MAX_REPLY_BYTES, SIZE_MAX; lia..].
Defined.
