(* ===== verification/Script.v ===== *)
(** The server-side program and how its replies are read (src/vfdw_script.c).

    The Lua text is translated statement by statement: decoding of ARGV, the
    check-only phase and the write phase, each stopping where the text returns.
    What [server.call] and [server.pcall] do to the database, and [tonumber],
    are parameters.  [return fail(...)] and a raised Lua error are the two ways
    a program ends early. *)
From S2P Require Import Prelude Opcode Error.
Local Open Scope Z_scope.

(** What a command gives the program: the server's conversion of its reply. *)
Inductive Lua :=
  | LNum (n : Z) | LStr (s : bytes) | LFalse | LOk (s : bytes) | LErr (s : bytes)
  | LArr (l : list Lua).

(** How the program ends: a status reply, an error reply it made itself, or an
    error raised by the interpreter or by server.call. *)
Inductive Outcome := Status (s : bytes) | Fail (s : bytes) | Raised (s : bytes).

Record LStep := MkLStep { ls_op : Z; ls_a : list (option bytes) }.

Record LPlan := MkLPlan {
  lp_k : bytes; lp_ttype : Z; lp_req : Z; lp_checks : list LStep; lp_actions : list LStep
}.

(** [fail(code, plan, key, detail)]. *)
Definition script_fail (code : bytes) (plan : Z) (key : option bytes) (detail : option bytes)
    : Outcome :=
  let m := "VFDW1 " +:+ code +:+ " " +:+ dec plan +:+ " " +:+ default "-" key in
  Fail (match detail with Some d => m +:+ " " +:+ d | None => m end).

(** [TYPENAME]. *)
Definition TYPENAME (t : Z) : option bytes :=
  match t with
  | 0 => Some "string" | 1 => Some "hash" | 2 => Some "list"
  | 3 => Some "set" | 4 => Some "zset" | 5 => Some "string"
  | _ => None
  end.

Section program.
Context {Db : Type} (exec : list bytes → Db → Lua * Db) (tonumber : bytes → option Z).

(* ---------------------------------------------------------------- *)
(** ** Decoding *)

(** [tonumber(nextarg())], at position [i] of ARGV counted from 0. *)
Definition num_at (argv : list bytes) (i : nat) : option Z := argv !! i ≫= tonumber.

(** [for x = 1, n do a[x] = nextarg() end]. *)
Definition read_args (argv : list bytes) (n : Z) (i : nat) : list (option bytes) :=
  (λ j, argv !! (i + j)%nat) <$> seq 0 (Z.to_nat n).

(** The loop over the checks, or the actions, of one plan. *)
Fixpoint read_steps (argv : list bytes) (fuel : nat) (bad : Outcome) (i : nat)
    : (list LStep * nat) + Outcome :=
  match fuel with
  | O => inl ([], i)
  | S m =>
      match num_at argv i, num_at argv (S i) with
      | Some op, Some n =>
          match read_steps argv m bad (S (S i) + Z.to_nat n)%nat with
          | inl (rest, j) => inl (MkLStep op (read_args argv n (S (S i))) :: rest, j)
          | inr o => inr o
          end
      | _, _ => inr bad
      end
  end.

Definition read_plan (keys argv : list bytes) (p : Z) (i : nat) : (LPlan * nat) + Outcome :=
  match num_at argv i, num_at argv (i + 1), num_at argv (i + 2),
        num_at argv (i + 3), num_at argv (i + 4) with
  | Some kx, Some ttype, Some req, Some nchecks, Some nactions =>
      if bool_decide (kx < 1) || bool_decide (Z.of_nat (length keys) < kx)
      then inr (script_fail "BADPROTO" p (Some "-") (Some "keyidx"))
      else
        match keys !! Z.to_nat (kx - 1) with
        | None => inr (script_fail "BADPROTO" p (Some "-") (Some "keyidx"))
        | Some k =>
            match read_steps argv (Z.to_nat nchecks)
                    (script_fail "BADPROTO" p (Some k) (Some "check")) (i + 5) with
            | inr o => inr o
            | inl (checks, j) =>
                match read_steps argv (Z.to_nat nactions)
                        (script_fail "BADPROTO" p (Some k) (Some "action")) j with
                | inr o => inr o
                | inl (actions, j) => inl (MkLPlan k ttype req checks actions, j)
                end
            end
        end
  | _, _, _, _, _ => inr (script_fail "BADPROTO" p (Some "-") (Some "plan header"))
  end.

Fixpoint read_plans (keys argv : list bytes) (fuel : nat) (p : Z) (i : nat)
    : (list LPlan * nat) + Outcome :=
  match fuel with
  | O => inl ([], i)
  | S m =>
      match read_plan keys argv p i with
      | inr o => inr o
      | inl (pl, j) =>
          match read_plans keys argv m (p + 1) j with
          | inl (rest, j) => inl (pl :: rest, j)
          | inr o => inr o
          end
      end
  end.

(** Everything before phase 1: the plans and their declared number. *)
Definition decode (keys argv : list bytes) : (list LPlan * Z) + Outcome :=
  if negb (bool_decide (argv !! 0%nat = Some "V1"))
  then inr (script_fail "BADPROTO" 0 (Some "-") (Some "version"))
  else
    match num_at argv 1 with
    | None => inr (script_fail "BADPROTO" 0 (Some "-") (Some "nplans"))
    | Some nplans =>
        match read_plans keys argv (Z.to_nat nplans) 1 2 with
        | inr o => inr o
        | inl (plans, j) =>
            if negb (bool_decide (j = length argv))
            then inr (script_fail "BADPROTO" 0 (Some "-") (Some "trailing"))
            else inl (plans, nplans)
        end
    end.

(* ---------------------------------------------------------------- *)
(** ** Calls *)

(** Arguments that are nil are refused before anything runs. *)
Definition nil_arg : bytes := "Lua lib command arguments must be strings or integers".

Definition args_of (l : list (option bytes)) : option (list bytes) := mapM id l.

(** [server.call]: an error reply is raised. *)
Definition server_call (l : list (option bytes)) (db : Db) : (Lua + Outcome) * Db :=
  match args_of l with
  | None => (inr (Raised nil_arg), db)
  | Some args =>
      match exec args db with
      | (LErr e, db) => (inr (Raised e), db)
      | (v, db) => (inl v, db)
      end
  end.

(** [server.pcall]: an error reply is returned. *)
Definition server_pcall (l : list (option bytes)) (db : Db) : Lua * Db :=
  match args_of l with
  | None => (LErr nil_arg, db)
  | Some args => exec args db
  end.

(** [KEYS[tonumber(v)]]. *)
Definition key_index (keys : list bytes) (v : option bytes) : option bytes :=
  match v ≫= tonumber with
  | Some n => if bool_decide (1 ≤ n) then keys !! Z.to_nat (n - 1) else None
  | None => None
  end.

Definition arg (a : list (option bytes)) (i : nat) : option bytes := mjoin (a !! i).

(* ---------------------------------------------------------------- *)
(** ** Phase 1 *)

Definition lua_is (n : Z) (v : Lua) : bool :=
  match v with LNum m => bool_decide (m = n) | _ => false end.

Definition truthy (v : Lua) : bool := match v with LFalse => false | _ => true end.

(** A check that calls [l] and says [bad] when [hit] holds of the answer. *)
Definition check_call (l : list (option bytes)) (hit : Lua → bool) (bad : bytes) (db : Db)
    : (option bytes + Outcome) * Db :=
  match server_call l db with
  | (inr o, db) => (inr o, db)
  | (inl v, db) => (inl (if hit v then Some bad else None), db)
  end.

Definition count_equal (v : bytes) (l : list Lua) : Z :=
  Z.of_nat (length (List.filter (λ x, match x with LStr s => bool_decide (s = v) | _ => false end) l)).

(** The CHECK table; [None] where it has no entry. *)
Definition CHECK (op : Z) (keys : list bytes) (k : bytes) (a : list (option bytes))
    : option (Db → (option bytes + Outcome) * Db) :=
  match op with
  | 0 => Some (check_call [Some "EXISTS"; Some k] (lua_is 1) "CONFLICT")
  | 1 => Some (check_call [Some "EXISTS"; Some k] (lua_is 0) "MISSING")
  | 3 => Some (check_call [Some "HEXISTS"; Some k; arg a 0] (lua_is 1) "CONFLICT")
  | 4 => Some (check_call [Some "HEXISTS"; Some k; arg a 0] (lua_is 0) "MISSING")
  | 5 => Some (check_call [Some "SISMEMBER"; Some k; arg a 0] (lua_is 1) "CONFLICT")
  | 6 => Some (check_call [Some "SISMEMBER"; Some k; arg a 0] (lua_is 0) "MISSING")
  | 7 => Some (check_call [Some "ZSCORE"; Some k; arg a 0] truthy "CONFLICT")
  | 8 => Some (check_call [Some "ZSCORE"; Some k; arg a 0] (λ v, negb (truthy v)) "MISSING")
  | 9 => Some (λ db,
      match server_call [Some "LRANGE"; Some k; Some "0"; Some "-1"] db with
      | (inr o, db) => (inr o, db)
      | (inl (LArr l), db) =>
          match arg a 1 ≫= tonumber with
          | None => (inr (Raised "attempt to compare number with nil"), db)
          | Some want =>
              let n := match arg a 0 with Some v => count_equal v l | None => 0 end in
              (inl (if bool_decide (n < want) then Some "MISSING" else None), db)
          end
      | (inl _, db) => (inr (Raised "bad argument to ipairs"), db)
      end)
  | 10 => Some (check_call [Some "SISMEMBER"; key_index keys (arg a 0); arg a 1]
                  (lua_is 1) "CONFLICT")
  | 11 => Some (check_call [Some "SISMEMBER"; key_index keys (arg a 0); arg a 1]
                  (lua_is 0) "MISSING")
  | _ => None
  end.

(** The loop over one plan's checks, from number [c] on; [None] is "all
    passed". *)
Fixpoint run_checks (keys : list bytes) (p : Z) (k : bytes) (c : Z) (checks : list LStep)
    (db : Db) : option Outcome * Db :=
  match checks with
  | [] => (None, db)
  | ch :: rest =>
      if bool_decide (ls_op ch = 2) then run_checks keys p k (c + 1) rest db else
      match CHECK (ls_op ch) keys k (ls_a ch) with
      | None => (Some (script_fail "BADPROTO" p (Some k)
                         (Some ("checkop " +:+ dec (ls_op ch)))), db)
      | Some fn =>
          match fn db with
          | (inr o, db) => (Some o, db)
          | (inl (Some bad), db) =>
              (Some (script_fail bad p (Some k) (Some ("check " +:+ dec c))), db)
          | (inl None, db) => run_checks keys p k (c + 1) rest db
          end
      end
  end.

Definition check_type (p : Z) (pl : LPlan) (db : Db) : option Outcome * Db :=
  match server_call [Some "TYPE"; Some (lp_k pl)] db with
  | (inr o, db) => (Some o, db)
  | (inl (LOk t), db) =>
      if negb (bool_decide (t = "none")) && negb (bool_decide (TYPENAME (lp_ttype pl) = Some t))
      then (Some (script_fail "WRONGTYPE" p (Some (lp_k pl)) (Some t)), db)
      else (None, db)
  | (inl _, db) => (Some (Raised "attempt to index a non-status reply"), db)
  end.

Fixpoint phase1 (keys : list bytes) (p : Z) (plans : list LPlan) (db : Db)
    : option Outcome * Db :=
  match plans with
  | [] => (None, db)
  | pl :: rest =>
      match check_type p pl db with
      | (Some o, db) => (Some o, db)
      | (None, db) =>
          match run_checks keys p (lp_k pl) 1 (lp_checks pl) db with
          | (Some o, db) => (Some o, db)
          | (None, db) => phase1 keys (p + 1) rest db
          end
      end
  end.

(* ---------------------------------------------------------------- *)
(** ** Phase 2 *)

(** The ACTION table: the command each opcode sends. *)
Definition ACTION (op : Z) (keys : list bytes) (k : bytes) (a : list (option bytes))
    : option (list (option bytes)) :=
  match op with
  | 0 => Some [Some "SET"; Some k; arg a 0]
  | 1 => Some [Some "DEL"; Some k]
  | 2 => Some [Some "HSET"; Some k; arg a 0; arg a 1]
  | 3 => Some [Some "HDEL"; Some k; arg a 0]
  | 4 => Some [Some "SADD"; Some k; arg a 0]
  | 5 => Some [Some "SREM"; Some k; arg a 0]
  | 6 => Some [Some "ZADD"; Some k; arg a 0; arg a 1]
  | 7 => Some [Some "ZREM"; Some k; arg a 0]
  | 8 => Some [Some "RPUSH"; Some k; arg a 0]
  | 9 => Some [Some "LREM"; Some k; Some "1"; arg a 0]
  | 10 => Some [Some "RENAME"; key_index keys (arg a 0); Some k]
  | 11 => Some [Some "SADD"; key_index keys (arg a 0); arg a 1]
  | 12 => Some [Some "SREM"; key_index keys (arg a 0); arg a 1]
  | 13 => Some [Some "HPEXPIRE"; Some k; arg a 1; Some "FIELDS"; Some "1"; arg a 0]
  | 14 => Some [Some "HPERSIST"; Some k; Some "FIELDS"; Some "1"; arg a 0]
  | _ => None
  end.

Fixpoint run_actions (keys : list bytes) (p : Z) (k : bytes) (c : Z) (actions : list LStep)
    (db : Db) : option Outcome * Db :=
  match actions with
  | [] => (None, db)
  | ac :: rest =>
      match ACTION (ls_op ac) keys k (ls_a ac) with
      | None => (Some (script_fail "INTERNAL" p (Some k)
                         (Some ("actionop " +:+ dec (ls_op ac)))), db)
      | Some cmd =>
          match server_pcall cmd db with
          | (LErr e, db) =>
              (Some (script_fail "INTERNAL" p (Some k) (Some (dec c +:+ " " +:+ e))), db)
          | (_, db) => run_actions keys p k (c + 1) rest db
          end
      end
  end.

Fixpoint phase2 (keys : list bytes) (p : Z) (plans : list LPlan) (db : Db)
    : option Outcome * Db :=
  match plans with
  | [] => (None, db)
  | pl :: rest =>
      match run_actions keys p (lp_k pl) 1 (lp_actions pl) db with
      | (Some o, db) => (Some o, db)
      | (None, db) => phase2 keys (p + 1) rest db
      end
  end.

(** The whole program. *)
Definition vfdw_script_src (keys argv : list bytes) (db : Db) : Outcome * Db :=
  match decode keys argv with
  | inr o => (o, db)
  | inl (plans, nplans) =>
      match phase1 keys 1 plans db with
      | (Some o, db) => (o, db)
      | (None, db) =>
          match phase2 keys 1 plans db with
          | (Some o, db) => (o, db)
          | (None, db) => (Status ("VFDW1 OK " +:+ dec nplans), db)
          end
      end
  end.
End program.

(* ---------------------------------------------------------------- *)
(** ** Reply classification *)

Inductive VfdwScriptVerdict :=
  | VFDW_SCRIPT_UNKNOWN | VFDW_SCRIPT_OK | VFDW_SCRIPT_CONFLICT | VFDW_SCRIPT_MISSING
  | VFDW_SCRIPT_WRONGTYPE | VFDW_SCRIPT_BADPROTO | VFDW_SCRIPT_INTERNAL.

#[global] Instance VfdwScriptVerdict_eq_dec : EqDecision VfdwScriptVerdict.
Proof. solve_decision. Defined.

Definition vfdw_script_codes : list (bytes * VfdwScriptVerdict) :=
  [("OK", VFDW_SCRIPT_OK); ("CONFLICT", VFDW_SCRIPT_CONFLICT); ("MISSING", VFDW_SCRIPT_MISSING);
   ("WRONGTYPE", VFDW_SCRIPT_WRONGTYPE); ("BADPROTO", VFDW_SCRIPT_BADPROTO);
   ("INTERNAL", VFDW_SCRIPT_INTERNAL)].

Definition vfdw_script_word_at (str : bytes) (pos : nat) (word : bytes) : bool :=
  let wordlen := String.length word in
  if bool_decide (String.length str < pos + wordlen)%nat then false
  else if negb (starts_with word (drop_bytes pos str)) then false
  else if bool_decide (pos + wordlen = String.length str)%nat then true
  else bool_decide (byte_at (pos + wordlen) str = Some " "%char).

(** pnstrdup of the bytes from [pos] on. *)
Definition tail_from (pos : nat) (str : bytes) : bytes := until_nul (drop_bytes pos str).

(** The loop over the codes: the verdict, and the detail if there is any. *)
Fixpoint classify_codes (codes : list (bytes * VfdwScriptVerdict)) (str : bytes) (pos : nat)
    : option (VfdwScriptVerdict * option bytes) :=
  match codes with
  | [] => None
  | (code, v) :: rest =>
      if vfdw_script_word_at str pos code then
        let d := (pos + String.length code + 1)%nat in
        Some (v, if bool_decide (d < String.length str)%nat
                 then Some (tail_from d str) else None)
      else classify_codes rest str pos
  end.

Definition vfdw_script_classify (str : option bytes) : VfdwScriptVerdict * option bytes :=
  match str with
  | None => (VFDW_SCRIPT_UNKNOWN, None)
  | Some str =>
      if negb (vfdw_script_word_at str 0 "VFDW1") then (VFDW_SCRIPT_UNKNOWN, None) else
      if bool_decide (String.length str ≤ 5)%nat ||
         negb (bool_decide (byte_at 5 str = Some " "%char)) then (VFDW_SCRIPT_UNKNOWN, None) else
      match classify_codes vfdw_script_codes str 6 with
      | Some r => r
      | None => (VFDW_SCRIPT_BADPROTO,
                 if bool_decide (6 < String.length str)%nat then Some (tail_from 6 str) else None)
      end
  end.

Definition vfdw_script_verdict_name (v : VfdwScriptVerdict) : string :=
  match v with
  | VFDW_SCRIPT_UNKNOWN => "UNKNOWN" | VFDW_SCRIPT_OK => "OK"
  | VFDW_SCRIPT_CONFLICT => "CONFLICT" | VFDW_SCRIPT_MISSING => "MISSING"
  | VFDW_SCRIPT_WRONGTYPE => "WRONGTYPE" | VFDW_SCRIPT_BADPROTO => "BADPROTO"
  | VFDW_SCRIPT_INTERNAL => "INTERNAL"
  end.
