(* ===== verification/ScriptEncode.v ===== *)
(** Turning the folded ledger into one EVALSHA (src/vfdw_script_encode.c). *)
From S2P Require Import Prelude Opcode WriteOp Ledger Error Cmd.
Local Open Scope Z_scope.

(* ---------------------------------------------------------------- *)
(** ** The key table *)

(** Bytes to a 1-based index into KEYS, and the keys in index order; the array's
    capacity is the C's. *)
Record VfdwKeyTable := MkKeyTable {
  kt_bybytes : gmap bytes Z;
  kt_keys : list bytes;
  kt_capacity : Z;
}.

Definition kt_nkeys (t : VfdwKeyTable) : Z := Z.of_nat (length (kt_keys t)).

Definition vfdw_keyidx_match (x y : bytes) : Z :=
  if negb (bool_decide (String.length x = String.length y)) then 1
  else if bool_decide (String.length x = 0%nat) then 0
  else if bool_decide (x = y) then 0 else 1.

Definition vfdw_keytable_init (hint : Z) : VfdwKeyTable := MkKeyTable ∅ [] (hint `max` 16).

(** The index of a key, declaring it if this is its first mention. *)
Definition vfdw_keytable_intern (t : VfdwKeyTable) (key : bytes) : Z * VfdwKeyTable :=
  match kt_bybytes t !! key with
  | Some idx => (idx, t)
  | None =>
      let cap := if bool_decide (kt_nkeys t = kt_capacity t)
                 then kt_capacity t * 2 else kt_capacity t in
      let idx := kt_nkeys t + 1 in
      (idx, MkKeyTable (<[key := idx]> (kt_bybytes t)) (kt_keys t ++ [key]) cap)
  end.

(** Which argument of a step is a key; -1 is none. *)
Definition vfdw_check_key_arg (op : Z) : Z :=
  if bool_decide (op = check_code VFDW_CHK_KSET_ABSENT) ||
     bool_decide (op = check_code VFDW_CHK_KSET_PRESENT) then 0 else -1.

Definition vfdw_action_key_arg (op : Z) : Z :=
  if bool_decide (op = action_code VFDW_ACT_RENAME) ||
     bool_decide (op = action_code VFDW_ACT_KSET_ADD) ||
     bool_decide (op = action_code VFDW_ACT_KSET_REM) then 0 else -1.

Definition declare_step (key_arg : Z → Z) (t : VfdwKeyTable) (s : VfdwLedgerStep) : VfdwKeyTable :=
  let ka := key_arg (st_op s) in
  if bool_decide (0 ≤ ka) && bool_decide (ka < Z.of_nat (length (st_args s))) then
    match st_args s !! Z.to_nat ka with
    | Some a => (vfdw_keytable_intern t a).2
    | None => t
    end
  else t.

Definition vfdw_script_declare_keys (t : VfdwKeyTable) (plan : VfdwKeyPlan) : VfdwKeyTable :=
  let t := fold_left (declare_step vfdw_check_key_arg) (kp_checks plan) t in
  fold_left (declare_step vfdw_action_key_arg) (kp_actions plan) t.

(* ---------------------------------------------------------------- *)
(** ** Emission *)

(** One argument: an index for the key argument, the bytes otherwise. *)
Definition emit_arg (t : VfdwKeyTable) (op ka i : Z) (a : bytes) (cmd : VfdwCmd)
    : result VfdwCmd :=
  if bool_decide (i = ka) then
    match kt_bybytes t !! a with
    | Some idx =>
        if bool_decide (idx < 1) || bool_decide (kt_nkeys t < idx)
        then Raise (elog_error "valkey_fdw: key argument of opcode is not a declared key")
        else Ok (vfdw_cmd_add_int cmd idx)
    | None => Raise (elog_error "valkey_fdw: key argument of opcode is not a declared key")
    end
  else Ok (vfdw_cmd_add_bytes cmd a).

Fixpoint emit_args (t : VfdwKeyTable) (op ka i : Z) (args : list bytes) (cmd : VfdwCmd)
    : result VfdwCmd :=
  match args with
  | [] => Ok cmd
  | a :: rest => cmd ← emit_arg t op ka i a cmd; emit_args t op ka (i + 1) rest cmd
  end.

Fixpoint vfdw_script_emit_steps (cmd : VfdwCmd) (t : VfdwKeyTable) (steps : list VfdwLedgerStep)
    (is_action : bool) : result VfdwCmd :=
  match steps with
  | [] => Ok cmd
  | s :: rest =>
      let ka := if is_action then vfdw_action_key_arg (st_op s) else vfdw_check_key_arg (st_op s) in
      let cmd := vfdw_cmd_add_int cmd (st_op s) in
      let cmd := vfdw_cmd_add_int cmd (Z.of_nat (length (st_args s))) in
      cmd ← emit_args t (st_op s) ka 0 (st_args s) cmd;
      vfdw_script_emit_steps cmd t rest is_action
  end.

(** The loop over the plans, from ordinal [i]. *)
Fixpoint emit_plans (cmd : VfdwCmd) (t : VfdwKeyTable) (i : Z) (plans : list VfdwKeyPlan)
    : result VfdwCmd :=
  match plans with
  | [] => Ok cmd
  | plan :: rest =>
      if bool_decide (i < 1) || bool_decide (kt_nkeys t < i)
      then Raise (elog_error "valkey_fdw: plan has no declared key")
      else
        let cmd := vfdw_cmd_add_int cmd i in
        let cmd := vfdw_cmd_add_int cmd (tabletype_code (kp_ttype plan)) in
        let cmd := vfdw_cmd_add_int cmd (require_code (kp_require plan)) in
        let cmd := vfdw_cmd_add_int cmd (kp_nchecks plan) in
        let cmd := vfdw_cmd_add_int cmd (kp_nactions plan) in
        cmd ← vfdw_script_emit_steps cmd t (kp_checks plan) false;
        cmd ← vfdw_script_emit_steps cmd t (kp_actions plan) true;
        emit_plans cmd t (i + 1) rest
  end.

(** The key table both passes build. *)
Definition declared (l : Ledger) : VfdwKeyTable :=
  let t := vfdw_keytable_init (vfdw_ledger_nplans l + 8) in
  let t := fold_left (λ t plan, (vfdw_keytable_intern t (kp_key plan)).2) (lg_plans l) t in
  fold_left vfdw_script_declare_keys (lg_plans l) t.

Definition vfdw_script_encode (sha1 : bytes) (l : Ledger) (cmd : VfdwCmd) : result VfdwCmd :=
  let t := declared l in
  let cmd := vfdw_cmd_add_cstr cmd "EVALSHA" in
  let cmd := vfdw_cmd_add_cstr cmd sha1 in
  let cmd := vfdw_cmd_add_int cmd (kt_nkeys t) in
  let cmd := fold_left vfdw_cmd_add_bytes (kt_keys t) cmd in
  let cmd := vfdw_cmd_add_cstr cmd "V1" in
  let cmd := vfdw_cmd_add_int cmd (vfdw_ledger_nplans l) in
  emit_plans cmd t 1 (lg_plans l).
