(* ===== verification/ScriptFacts.v ===== *)
(** The encoder and the program agree: what src/vfdw_script_encode.c writes is
    what the Lua of src/vfdw_script.c decodes, key indices included. *)
From S2P Require Import Prelude Opcode WriteOp Ledger LedgerFacts Error Cmd Script ScriptEncode.
From stdpp Require Import list.
Local Open Scope Z_scope.

(* ---------------------------------------------------------------- *)
(** ** The key table *)

Lemma keyidx_match_eq x y : vfdw_keyidx_match x y = 0 ↔ x = y.
Proof.
  unfold vfdw_keyidx_match. repeat case_bool_decide; simpl; try (split; congruence).
  split; [intros _|done]. destruct x; [|done]. by destruct y.
Qed.

(** The table and the array of keys are inverse to each other. *)
Definition kt_ok (t : VfdwKeyTable) : Prop :=
  ∀ key idx, kt_bybytes t !! key = Some idx ↔ 1 ≤ idx ∧ kt_keys t !! Z.to_nat (idx - 1) = Some key.

Lemma kt_ok_init hint : kt_ok (vfdw_keytable_init hint).
Proof. intros key idx. simpl. rewrite lookup_empty. split; [done|]. by intros [_ H]. Qed.

Lemma kt_ok_range t key idx : kt_ok t → kt_bybytes t !! key = Some idx → 1 ≤ idx ≤ kt_nkeys t.
Proof.
  intros H [H1 H2]%H. apply lookup_lt_Some in H2. unfold kt_nkeys. lia.
Qed.

Lemma intern_ok t key :
  kt_ok t →
  kt_ok (vfdw_keytable_intern t key).2 ∧
  kt_bybytes (vfdw_keytable_intern t key).2 !! key = Some (vfdw_keytable_intern t key).1 ∧
  kt_keys (vfdw_keytable_intern t key).2 =
    kt_keys t ++ (if bool_decide (key ∈ kt_keys t) then [] else [key]).
Proof.
  intros H. unfold vfdw_keytable_intern. destruct (kt_bybytes t !! key) as [i|] eqn:E; simpl.
  - pose proof (proj1 (H key i) E) as [_ E']. apply list_elem_of_lookup_2 in E'.
    rewrite (bool_decide_true (key ∈ kt_keys t) E'). by rewrite app_nil_r.
  - assert (Hn : key ∉ kt_keys t).
    { intros [j Hj]%list_elem_of_lookup.
      assert (kt_bybytes t !! key = Some (Z.of_nat j + 1)) as Hk; [|congruence].
      apply H. split; [lia|]. by replace (Z.to_nat (Z.of_nat j + 1 - 1)) with j by lia. }
    rewrite (bool_decide_false (key ∈ kt_keys t) Hn).
    split; [|split; [by rewrite lookup_insert_eq|done]]. intros key' idx. simpl. unfold kt_nkeys. destruct (decide (key' = key)) as [->|Hne].
    + rewrite lookup_insert_eq. split.
      * intros [= <-]. split; [lia|].
        replace (Z.to_nat _) with (length (kt_keys t)) by lia.
        by rewrite lookup_app_r, Nat.sub_diag by lia.
      * intros [H1 H2]. apply lookup_app_Some in H2 as [H2|[H2 H3]].
        { by apply list_elem_of_lookup_2 in H2. }
        apply list_lookup_singleton_Some in H3 as [H3 _]. f_equal. lia.
    + rewrite lookup_insert_ne by done. rewrite (H key' idx). split; intros [H1 H2]; split; try done.
      * by rewrite lookup_app_l by by eapply lookup_lt_Some.
      * apply lookup_app_Some in H2 as [H2|[H2 H3]]; [done|].
        by apply list_lookup_singleton_Some in H3 as [_ ?].
Qed.

(** Later tables keep the indices of earlier ones. *)
Definition kt_ext (t t' : VfdwKeyTable) : Prop := kt_ok t' ∧ kt_keys t `prefix_of` kt_keys t'.

Lemma kt_ext_lookup t t' key idx :
  kt_ok t → kt_ext t t' → kt_bybytes t !! key = Some idx → kt_bybytes t' !! key = Some idx.
Proof.
  intros H [H' [zs Hz]] [H1 H2]%H. apply H'. split; [done|]. rewrite Hz.
  by rewrite lookup_app_l by by eapply lookup_lt_Some.
Qed.

Lemma kt_ext_trans t1 t2 t3 : kt_ext t1 t2 → kt_ext t2 t3 → kt_ext t1 t3.
Proof. intros [_ H1] [H2 H3]. split; [done|]. by etrans. Qed.

Lemma intern_ext t key : kt_ok t → kt_ext t (vfdw_keytable_intern t key).2.
Proof.
  intros H. destruct (intern_ok t key H) as (H1 & _ & H2). split; [done|].
  rewrite H2. by eexists.
Qed.

Lemma declare_step_ext ka t s : kt_ok t → kt_ext t (declare_step ka t s).
Proof.
  intros H. unfold declare_step. destruct (_ && _); [|by split].
  destruct (st_args s !! _); [by apply intern_ext|by split].
Qed.

Lemma fold_ext {A} (f : VfdwKeyTable → A → VfdwKeyTable) xs t :
  (∀ t x, kt_ok t → kt_ext t (f t x)) → kt_ok t → kt_ext t (fold_left f xs t).
Proof.
  intros Hf. revert t. induction xs as [|x xs IH]; intros t H; simpl; [by split|].
  pose proof (Hf t x H) as H1. eapply kt_ext_trans; [exact H1|]. apply IH. apply H1.
Qed.

Lemma declare_ext t plan : kt_ok t → kt_ext t (vfdw_script_declare_keys t plan).
Proof.
  intros H. unfold vfdw_script_declare_keys.
  assert (H1 := fold_ext (declare_step vfdw_check_key_arg) (kp_checks plan) t
                  (λ t x, declare_step_ext _ t x) H).
  eapply kt_ext_trans; [exact H1|]. apply fold_ext; [intros; by apply declare_step_ext|apply H1].
Qed.

(** Every step of the folded list has its key argument in the final table. *)
Lemma declare_step_has ka t s a :
  kt_ok t → ka (st_op s) = 0 → st_args s !! 0%nat = Some a →
  is_Some (kt_bybytes (declare_step ka t s) !! a).
Proof.
  intros H Hk Ha. unfold declare_step. rewrite Hk. change (Z.to_nat 0) with 0%nat. rewrite Ha.
  apply lookup_lt_Some in Ha. rewrite !bool_decide_true by lia. simpl.
  destruct (intern_ok t a H) as (_ & Hi & _). eauto.
Qed.

Lemma fold_declare_has ka xs t s a :
  kt_ok t → s ∈ xs → ka (st_op s) = 0 → st_args s !! 0%nat = Some a →
  is_Some (kt_bybytes (fold_left (declare_step ka) xs t) !! a).
Proof.
  intros H Hs Hk Ha. revert t H Hs. induction xs as [|x xs IH]; intros t H Hs; simpl;
    [by apply not_elem_of_nil in Hs|]. apply elem_of_cons in Hs as [<-|Hs].
  - destruct (declare_step_has ka t s a H Hk Ha) as [i Hi]. exists i.
    eapply kt_ext_lookup; [apply (declare_step_ext ka t s H)| |exact Hi].
    apply fold_ext; [intros; by apply declare_step_ext|]. apply (declare_step_ext ka t s H).
  - apply IH; [|done]. apply (declare_step_ext ka t x H).
Qed.

(** Where each key argument of the ledger ended up. *)
Definition arg_declared (t : VfdwKeyTable) (ka : Z → Z) (s : VfdwLedgerStep) : Prop :=
  ka (st_op s) = 0 → ∀ a, st_args s !! 0%nat = Some a → is_Some (kt_bybytes t !! a).

Lemma arg_declared_ext t t' ka s : kt_ok t → kt_ext t t' → arg_declared t ka s → arg_declared t' ka s.
Proof.
  intros H He Hd Hk a Ha. destruct (Hd Hk a Ha) as [i Hi]. exists i. by eapply kt_ext_lookup.
Qed.

Definition plan_declared (t : VfdwKeyTable) (plan : VfdwKeyPlan) : Prop :=
  Forall (arg_declared t vfdw_check_key_arg) (kp_checks plan) ∧
  Forall (arg_declared t vfdw_action_key_arg) (kp_actions plan).

Lemma plan_declared_ext t t' plan : kt_ok t → kt_ext t t' → plan_declared t plan → plan_declared t' plan.
Proof.
  intros H He [H1 H2]. split; (eapply Forall_impl; [eassumption|]);
    intros s Hs; by eapply arg_declared_ext.
Qed.

Lemma declare_plan_declared t plan : kt_ok t → plan_declared (vfdw_script_declare_keys t plan) plan.
Proof.
  intros H. unfold vfdw_script_declare_keys.
  set (t1 := fold_left (declare_step vfdw_check_key_arg) (kp_checks plan) t).
  assert (H1 : kt_ext t t1) by (apply fold_ext; [intros; by apply declare_step_ext|done]).
  split; apply Forall_forall; intros s Hs Hk a Ha.
  - destruct (fold_declare_has _ _ t s a H Hs Hk Ha) as [i Hi]. exists i.
    eapply kt_ext_lookup; [apply H1| |exact Hi].
    apply fold_ext; [intros; by apply declare_step_ext|apply H1].
  - apply fold_declare_has with s; [apply H1|done..].
Qed.

Lemma fold_plans_declared plans t :
  kt_ok t → Forall (plan_declared (fold_left vfdw_script_declare_keys plans t)) plans.
Proof.
  revert t. induction plans as [|p plans IH]; intros t H; simpl; [constructor|].
  assert (H1 := declare_ext t p H). constructor; [|apply IH, H1].
  eapply plan_declared_ext; [apply H1| |by apply declare_plan_declared].
  apply fold_ext; [intros; by apply declare_ext|apply H1].
Qed.

(** The first pass declares exactly the plan keys, in plan order. *)
Lemma intern_plans plans t :
  kt_ok t → NoDup (kp_key <$> plans) → (∀ p, p ∈ plans → kp_key p ∉ kt_keys t) →
  kt_keys (fold_left (λ t plan, (vfdw_keytable_intern t (kp_key plan)).2) plans t) =
  kt_keys t ++ (kp_key <$> plans).
Proof.
  revert t. induction plans as [|p plans IH]; intros t H Hnd Hnew; csimpl; [by rewrite app_nil_r|].
  csimpl in Hnd. apply list.NoDup_cons in Hnd as [Hp Hnd].
  destruct (intern_ok t (kp_key p) H) as (H1 & _ & Hk).
  rewrite bool_decide_false in Hk by (apply Hnew; left).
  rewrite IH; [by rewrite Hk, <- app_assoc|done|done|].
  intros q Hq Hin. rewrite Hk in Hin. apply elem_of_app in Hin as [Hin|Hin].
  - apply (Hnew q); [by right|done].
  - apply list_elem_of_singleton in Hin. apply Hp. rewrite <- Hin. by apply list_elem_of_fmap_2.
Qed.

(* ---------------------------------------------------------------- *)
(** ** The wire format *)

Definition key_arg_of (is_action : bool) : Z → Z :=
  if is_action then vfdw_action_key_arg else vfdw_check_key_arg.

Definition wire_args (t : VfdwKeyTable) (ka : Z) (args : list bytes) : list bytes :=
  match args with
  | a :: rest => (if bool_decide (0 = ka) then dec (default 0 (kt_bybytes t !! a)) else a) :: rest
  | [] => []
  end.

Definition wire_step (t : VfdwKeyTable) (b : bool) (s : VfdwLedgerStep) : list bytes :=
  dec (st_op s) :: dec (Z.of_nat (length (st_args s))) ::
  wire_args t (key_arg_of b (st_op s)) (st_args s).

Definition wire_plan (t : VfdwKeyTable) (i : Z) (plan : VfdwKeyPlan) : list bytes :=
  [dec i; dec (tabletype_code (kp_ttype plan)); dec (require_code (kp_require plan));
   dec (kp_nchecks plan); dec (kp_nactions plan)] ++
  concat (wire_step t false <$> kp_checks plan) ++
  concat (wire_step t true <$> kp_actions plan).

Fixpoint wire_plans (t : VfdwKeyTable) (i : Z) (plans : list VfdwKeyPlan) : list bytes :=
  match plans with
  | [] => []
  | p :: rest => wire_plan t i p ++ wire_plans t (i + 1) rest
  end.

Lemma add_bytes_args c v : cmd_args (vfdw_cmd_add_bytes c v) = cmd_args c ++ [v].
Proof. unfold vfdw_cmd_add_bytes, vfdw_cmd_ensure. by case_bool_decide. Qed.

Lemma add_int_args c z : cmd_args (vfdw_cmd_add_int c z) = cmd_args c ++ [dec z].
Proof. apply add_bytes_args. Qed.

Lemma key_arg_cases b op : key_arg_of b op = 0 ∨ key_arg_of b op = -1.
Proof.
  destruct b; simpl; unfold vfdw_action_key_arg, vfdw_check_key_arg; destruct (_ || _); auto.
Qed.

Lemma emit_rest t op ka i args cmd :
  0 < i → ka ≤ 0 → ∃ cmd', emit_args t op ka i args cmd = Ok cmd' ∧
    cmd_args cmd' = cmd_args cmd ++ args.
Proof.
  revert i cmd. induction args as [|a args IH]; intros i cmd Hi Hk; simpl.
  - exists cmd. by rewrite app_nil_r.
  - unfold emit_arg. rewrite bool_decide_false by lia. simpl.
    destruct (IH (i + 1) (vfdw_cmd_add_bytes cmd a)) as (cmd' & E & Ha); [lia|done|].
    exists cmd'. split; [exact E|]. by rewrite Ha, add_bytes_args, <- app_assoc.
Qed.

Lemma emit_args_wire t b s cmd :
  kt_ok t → arg_declared t (key_arg_of b) s →
  ∃ cmd', emit_args t (st_op s) (key_arg_of b (st_op s)) 0 (st_args s) cmd = Ok cmd' ∧
    cmd_args cmd' = cmd_args cmd ++ wire_args t (key_arg_of b (st_op s)) (st_args s).
Proof.
  intros Hok Hd. destruct (st_args s) as [|a args] eqn:Ea; simpl.
  { exists cmd. by rewrite app_nil_r. }
  unfold emit_arg. destruct (key_arg_cases b (st_op s)) as [Hk|Hk]; rewrite Hk; simpl.
  - destruct (Hd Hk a) as [idx Hidx]; [by rewrite Ea|]. rewrite Hidx. simpl.
    pose proof (kt_ok_range t a idx Hok Hidx). rewrite !bool_decide_false by lia. simpl.
    destruct (emit_rest t (st_op s) 0 1 args (vfdw_cmd_add_int cmd idx)) as (c & E & Hc); [lia..|].
    exists c. split; [exact E|]. by rewrite Hc, add_int_args, <- app_assoc.
  - destruct (emit_rest t (st_op s) (-1) 1 args (vfdw_cmd_add_bytes cmd a)) as (c & E & Hc); [lia..|].
    exists c. split; [exact E|]. by rewrite Hc, add_bytes_args, <- app_assoc.
Qed.

Lemma emit_steps_wire t b steps cmd :
  kt_ok t → Forall (arg_declared t (key_arg_of b)) steps →
  ∃ cmd', vfdw_script_emit_steps cmd t steps b = Ok cmd' ∧
    cmd_args cmd' = cmd_args cmd ++ concat (wire_step t b <$> steps).
Proof.
  intros Hok HF. revert cmd. induction HF as [|s steps Hs _ IH]; intros cmd; csimpl.
  { exists cmd. by rewrite app_nil_r. }
  set (c2 := vfdw_cmd_add_int (vfdw_cmd_add_int cmd (st_op s)) (Z.of_nat (length (st_args s)))).
  destruct (emit_args_wire t b s c2 Hok Hs) as (c3 & E3 & H3).
  destruct (IH c3) as (c4 & E4 & H4). exists c4.
  replace (if b then vfdw_action_key_arg (st_op s) else vfdw_check_key_arg (st_op s))
    with (key_arg_of b (st_op s)) by by destruct b.
  rewrite E3. simpl. split; [exact E4|]. rewrite H4, H3. unfold c2.
  rewrite !add_int_args, <- !app_assoc. done.
Qed.

Lemma emit_plans_wire t plans i cmd :
  kt_ok t → Forall (plan_declared t) plans → 1 ≤ i → i + Z.of_nat (length plans) - 1 ≤ kt_nkeys t →
  ∃ cmd', emit_plans cmd t i plans = Ok cmd' ∧
    cmd_args cmd' = cmd_args cmd ++ wire_plans t i plans.
Proof.
  intros Hok HF. revert i cmd. induction HF as [|p plans [Hc Ha] _ IH]; intros i cmd Hi Hn; simpl.
  { exists cmd. by rewrite app_nil_r. }
  simpl in Hn. rewrite !bool_decide_false by lia. simpl.
  set (c5 := vfdw_cmd_add_int _ (kp_nactions p)).
  destruct (emit_steps_wire t false (kp_checks p) c5 Hok Hc) as (c6 & E6 & H6). rewrite E6. simpl.
  destruct (emit_steps_wire t true (kp_actions p) c6 Hok Ha) as (c7 & E7 & H7). rewrite E7. simpl.
  destruct (IH (i + 1) c7) as (c8 & E8 & H8); [lia..|]. exists c8. split; [exact E8|].
  rewrite H8, H7, H6. unfold c5, wire_plan. rewrite !add_int_args, <- !app_assoc. done.
Qed.

Lemma fold_add_bytes keys cmd : cmd_args (fold_left vfdw_cmd_add_bytes keys cmd) = cmd_args cmd ++ keys.
Proof.
  revert cmd. induction keys as [|k keys IH]; intros cmd; simpl; [by rewrite app_nil_r|].
  by rewrite IH, add_bytes_args, <- app_assoc.
Qed.

(** What is true of the table the encoder builds for a well-formed ledger. *)
Lemma index_nodup l : index_ok l → NoDup (kp_key <$> lg_plans l).
Proof.
  intros [Hi _]. apply NoDup_alt. intros i j k H1 H2.
  rewrite list_lookup_fmap in H1, H2. apply Hi in H1, H2. congruence.
Qed.

Lemma ledger_ok_nodup l : ledger_ok l → NoDup (kp_key <$> lg_plans l).
Proof.
  intros [(_ & _ & _ & -> & _)|[Hi _]]; [constructor|by apply index_nodup].
Qed.

Lemma declared_ok l :
  ledger_ok l →
  kt_ok (declared l) ∧ Forall (plan_declared (declared l)) (lg_plans l) ∧
  (kp_key <$> lg_plans l) `prefix_of` kt_keys (declared l).
Proof.
  intros Hl. unfold declared. set (t0 := vfdw_keytable_init _).
  assert (H0 : kt_ok t0) by apply kt_ok_init.
  set (t1 := fold_left (λ t plan, (vfdw_keytable_intern t (kp_key plan)).2) (lg_plans l) t0).
  assert (H1 : kt_ext t0 t1) by (apply fold_ext; [intros; by apply intern_ext|done]).
  assert (H2 : kt_ext t1 (fold_left vfdw_script_declare_keys (lg_plans l) t1))
    by (apply fold_ext; [intros; by apply declare_ext|apply H1]).
  split; [apply H2|]. split; [apply fold_plans_declared, H1|].
  destruct H2 as [_ H2]. etrans; [|exact H2]. unfold t1.
  rewrite intern_plans; [done|done|by apply ledger_ok_nodup|]. intros p _. apply not_elem_of_nil.
Qed.

Definition wire_argv (l : Ledger) : list bytes :=
  ["V1"; dec (vfdw_ledger_nplans l)] ++ wire_plans (declared l) 1 (lg_plans l).

(** The encoder never raises on a well-formed ledger, and this is what it emits. *)
Lemma encode_wire sha1 l cmd :
  ledger_ok l →
  ∃ cmd', vfdw_script_encode sha1 l cmd = Ok cmd' ∧
    cmd_args cmd' = cmd_args cmd ++
      ["EVALSHA"; until_nul sha1; dec (kt_nkeys (declared l))] ++
      kt_keys (declared l) ++ wire_argv l.
Proof.
  intros Hl. destruct (declared_ok l Hl) as (Hok & Hd & Hpre).
  unfold vfdw_script_encode. set (c6 := vfdw_cmd_add_int _ (vfdw_ledger_nplans l)).
  destruct (emit_plans_wire (declared l) (lg_plans l) 1 c6 Hok Hd) as (c & E & Hc); [lia| |].
  { apply prefix_length in Hpre. rewrite length_fmap in Hpre. unfold kt_nkeys. lia. }
  exists c. split; [exact E|]. rewrite Hc. unfold c6, wire_argv, vfdw_cmd_add_cstr.
  rewrite add_int_args, add_bytes_args, fold_add_bytes, add_int_args, !add_bytes_args.
  rewrite <- !app_assoc. simpl. done.
Qed.

(* ---------------------------------------------------------------- *)
(** ** Decoding the wire format *)

Section decode.
Context (tonumber : bytes → option Z).
(** Lua numbers are doubles: decimal text of an integer below 2^53 is read
    back exactly. *)
Hypothesis tonumber_int : ∀ z, 0 ≤ z < 2 ^ 53 → tonumber (dec z) = Some z.

Definition wire_lstep (t : VfdwKeyTable) (b : bool) (s : VfdwLedgerStep) : LStep :=
  MkLStep (st_op s) (Some <$> wire_args t (key_arg_of b (st_op s)) (st_args s)).

Definition wire_lplan (t : VfdwKeyTable) (plan : VfdwKeyPlan) : LPlan :=
  MkLPlan (kp_key plan) (tabletype_code (kp_ttype plan)) (require_code (kp_require plan))
    (wire_lstep t false <$> kp_checks plan) (wire_lstep t true <$> kp_actions plan).

Lemma num_at_mid pre x post z :
  tonumber x = Some z → num_at tonumber (pre ++ x :: post) (length pre) = Some z.
Proof. intros H. unfold num_at. by rewrite list_lookup_middle by done. Qed.

Lemma wire_args_length t ka args : length (wire_args t ka args) = length args.
Proof. by destruct args. Qed.

Lemma read_args_mid pre args post :
  read_args (pre ++ args ++ post) (Z.of_nat (length args)) (length pre) = Some <$> args.
Proof.
  unfold read_args. rewrite Nat2Z.id. apply list_eq. intros j.
  rewrite !list_lookup_fmap. destruct (decide (j < length args)%nat) as [Hj|Hj].
  - rewrite lookup_seq_lt by done. simpl.
    rewrite lookup_app_r by lia. replace (length pre + j - length pre)%nat with j by lia.
    rewrite lookup_app_l by done. destruct (lookup_lt_is_Some_2 args j Hj) as [x ->]. done.
  - rewrite lookup_seq_ge, (lookup_ge_None_2 args) by lia. done.
Qed.

Definition step_small (s : VfdwLedgerStep) : Prop :=
  0 ≤ st_op s < 2 ^ 31 ∧ Z.of_nat (length (st_args s)) < 2 ^ 31.

Lemma read_steps_wire t b steps bad pre post :
  Forall step_small steps →
  read_steps tonumber (pre ++ concat (wire_step t b <$> steps) ++ post) (length steps) bad
    (length pre) =
  inl (wire_lstep t b <$> steps,
       (length pre + length (concat (wire_step t b <$> steps)))%nat).
Proof.
  intros HF. revert pre. induction HF as [|s steps [H1 H2] _ IH]; intros pre.
  { simpl. by rewrite Nat.add_0_r. }
  rewrite !fmap_cons. cbn [concat length read_steps].
  set (flat := concat (wire_step t b <$> steps)) in *.
  set (wa := wire_args t (key_arg_of b (st_op s)) (st_args s)).
  assert (Hl : length wa = length (st_args s)) by apply wire_args_length.
  set (argv := pre ++ (wire_step t b s ++ flat) ++ post).
  assert (E0 : argv = pre ++ dec (st_op s) :: (dec (Z.of_nat (length (st_args s))) :: wa) ++ flat ++ post).
  { unfold argv, wire_step. fold wa. by rewrite <- app_assoc. }
  assert (E1 : argv = (pre ++ [dec (st_op s)]) ++ dec (Z.of_nat (length (st_args s))) :: wa ++ flat ++ post).
  { by rewrite E0, <- app_assoc. }
  set (pre2 := pre ++ [dec (st_op s); dec (Z.of_nat (length (st_args s)))]).
  assert (E2 : argv = pre2 ++ wa ++ flat ++ post).
  { unfold pre2. by rewrite E0, <- app_assoc. }
  assert (E3 : argv = (pre2 ++ wa) ++ flat ++ post) by by rewrite E2, <- app_assoc.
  assert (L2 : length pre2 = S (S (length pre))).
  { unfold pre2. rewrite length_app. simpl. lia. }
  rewrite E0 at 1. rewrite (num_at_mid _ _ _ (st_op s)) by (apply tonumber_int; lia).
  assert (N : num_at tonumber argv (S (length pre)) = Some (Z.of_nat (length (st_args s)))).
  { rewrite E1. replace (S (length pre)) with (length (pre ++ [dec (st_op s)]))
      by (rewrite length_app; simpl; lia). apply num_at_mid, tonumber_int. lia. }
  rewrite N, <- L2, Nat2Z.id.
  replace (length pre2 + length (st_args s))%nat with (length (pre2 ++ wa))
    by (rewrite length_app; lia).
  rewrite E3 at 1. rewrite IH. f_equal. f_equal.
  - f_equal. unfold wire_lstep. fold wa. f_equal. rewrite <- Hl, E2. apply read_args_mid.
  - rewrite !length_app, L2. unfold wire_step. fold wa. simpl. lia.
Qed.

Definition plan_small (plan : VfdwKeyPlan) : Prop :=
  Forall step_small (kp_checks plan) ∧ Forall step_small (kp_actions plan) ∧
  kp_nchecks plan = Z.of_nat (length (kp_checks plan)) ∧ kp_nchecks plan < 2 ^ 31 ∧
  kp_nactions plan = Z.of_nat (length (kp_actions plan)) ∧ kp_nactions plan < 2 ^ 31.

Lemma num_at_app pre xs n :
  num_at tonumber (pre ++ xs) (length pre + n) = xs !! n ≫= tonumber.
Proof.
  unfold num_at. rewrite lookup_app_r by lia. by replace (length pre + n - length pre)%nat with n by lia.
Qed.

Lemma read_plan_wire t keys plan p i pre post :
  plan_small plan → keys !! Z.to_nat (i - 1) = Some (kp_key plan) → 1 ≤ i < 2 ^ 31 →
  i ≤ Z.of_nat (length keys) →
  read_plan tonumber keys (pre ++ wire_plan t i plan ++ post) p (length pre) =
  inl (wire_lplan t plan, (length pre + length (wire_plan t i plan))%nat).
Proof.
  intros (Hc & Ha & Hnc & Hnc' & Hna & Hna') Hk Hi Hlen. unfold read_plan, wire_plan.
  set (fc := concat (wire_step t false <$> kp_checks plan)).
  set (fa := concat (wire_step t true <$> kp_actions plan)).
  rewrite <- !app_assoc. simpl.
  set (ti := dec i). set (tt := dec (tabletype_code (kp_ttype plan))).
  set (tr := dec (require_code (kp_require plan))).
  set (tc := dec (kp_nchecks plan)). set (ta := dec (kp_nactions plan)).
  rewrite (num_at_mid pre ti _ i) by (apply tonumber_int; lia).
  rewrite !num_at_app. simpl. unfold tt, tr, tc, ta.
  rewrite !tonumber_int by (destruct (kp_ttype plan), (kp_require plan); simpl; lia).
  fold tt tr tc ta.
  rewrite !bool_decide_false by lia. simpl. rewrite Hk.
  set (pre5 := pre ++ [ti; tt; tr; tc; ta]).
  assert (L5 : length pre5 = (length pre + 5)%nat) by (unfold pre5; rewrite length_app; done).
  rewrite Hnc, Hna, !Nat2Z.id, <- L5.
  assert (E5 : pre ++ ti :: tt :: tr :: tc :: ta :: fc ++ fa ++ post = pre5 ++ fc ++ fa ++ post).
  { unfold pre5. by rewrite <- app_assoc. }
  rewrite E5. unfold fc at 1. rewrite (read_steps_wire t false) by done. fold fc.
  rewrite app_assoc, <- length_app. unfold fa at 1. rewrite (read_steps_wire t true) by done.
  fold fa. f_equal. f_equal. rewrite !length_app, L5. simpl. lia.
Qed.

Lemma read_plans_wire t keys plans p i pre post :
  Forall plan_small plans →
  (∀ j plan, plans !! j = Some plan → keys !! Z.to_nat (i - 1 + Z.of_nat j) = Some (kp_key plan)) →
  1 ≤ i → i + Z.of_nat (length plans) < 2 ^ 31 →
  i - 1 + Z.of_nat (length plans) ≤ Z.of_nat (length keys) →
  read_plans tonumber keys (pre ++ wire_plans t i plans ++ post) (length plans) p (length pre) =
  inl (wire_lplan t <$> plans, (length pre + length (wire_plans t i plans))%nat).
Proof.
  intros HF. revert p i pre.
  induction HF as [|plan plans Hp _ IH]; intros p i pre Hk Hi Hsz Hlen.
  { simpl. by rewrite Nat.add_0_r. }
  rewrite fmap_cons. cbn [wire_plans read_plans length].
  simpl in Hsz, Hlen. rewrite <- app_assoc.
  rewrite (read_plan_wire t keys plan p i); [|done| |lia|lia].
  2:{ rewrite <- (Hk 0%nat plan) by done. f_equal. lia. }
  rewrite app_assoc, <- length_app.
  rewrite IH; [|intros j pl Hj; rewrite <- (Hk (S j) pl) by done; f_equal; lia|lia|lia|lia].
  f_equal. f_equal. rewrite !length_app. lia.
Qed.

Lemma decode_wire l :
  ledger_ok l → Forall plan_small (lg_plans l) →
  kt_nkeys (declared l) < 2 ^ 30 →
  decode tonumber (kt_keys (declared l)) (wire_argv l) =
  inl (wire_lplan (declared l) <$> lg_plans l, vfdw_ledger_nplans l).
Proof.
  intros Hl Hs Hsz. destruct (declared_ok l Hl) as (Hok & _ & [extra Hpre]).
  assert (Hn : vfdw_ledger_nplans l = Z.of_nat (length (lg_plans l))).
  { destruct Hl as [(_ & _ & _ & Hp & Hc)|(_ & Hc & _)]; unfold vfdw_ledger_nplans;
      [by rewrite Hp|done]. }
  assert (Hle : Z.of_nat (length (lg_plans l)) ≤ kt_nkeys (declared l)).
  { unfold kt_nkeys. rewrite Hpre, length_app, length_fmap. lia. }
  unfold decode, wire_argv. simpl.
  change ("V1" :: dec (vfdw_ledger_nplans l) :: wire_plans (declared l) 1 (lg_plans l))
    with (["V1"] ++ dec (vfdw_ledger_nplans l) :: wire_plans (declared l) 1 (lg_plans l)).
  rewrite (num_at_mid ["V1"] _ _ (vfdw_ledger_nplans l)) by (apply tonumber_int; lia).
  rewrite Hn, Nat2Z.id.
  pose proof (read_plans_wire (declared l) (kt_keys (declared l)) (lg_plans l) 1 1
    ["V1"; dec (Z.of_nat (length (lg_plans l)))] []) as Hr.
  rewrite app_nil_r in Hr. cbn [app length] in Hr. cbn [app length]. rewrite Hr; clear Hr.
  - rewrite bool_decide_true by done. done.
  - done.
  - intros j plan Hj. replace (Z.to_nat (1 - 1 + Z.of_nat j)) with j by lia.
    rewrite Hpre, lookup_app_l, list_lookup_fmap, Hj; [done|].
    rewrite length_fmap. by eapply lookup_lt_Some.
  - lia.
  - lia.
  - unfold kt_nkeys in Hle. lia.
Qed.

(** An index on the wire names the key it stands for. *)
Lemma key_index_wire t a idx :
  kt_ok t → kt_bybytes t !! a = Some idx → idx < 2 ^ 31 →
  key_index tonumber (kt_keys t) (Some (dec idx)) = Some a.
Proof.
  intros Hok H Hi. pose proof (kt_ok_range _ _ _ Hok H) as Hr. apply Hok in H as [_ H].
  unfold key_index. simpl. rewrite tonumber_int by lia. by rewrite bool_decide_true by lia.
Qed.
End decode.

(** Steps of a well-formed ledger are small. *)
Lemma check_ok_small s : check_ok s → step_small s.
Proof.
  intros (c & Ho & Ha). unfold step_small. rewrite Ho, Ha. destruct c; simpl; lia.
Qed.

Lemma action_ok_small s : action_ok s → step_small s.
Proof.
  intros (c & Ho & Ha). unfold step_small. rewrite Ho, Ha. destruct c; simpl; lia.
Qed.

Lemma shape_checks k : plan_shape k → Forall check_ok (kp_checks k).
Proof.
  intros ((rest & -> & Hr) & _). constructor; [by exists VFDW_CHK_TYPE_OK|].
  apply Forall_app. split.
  - destruct (kp_require k); simpl; repeat constructor;
      [by exists VFDW_CHK_KEY_ABSENT|by exists VFDW_CHK_KEY_PRESENT].
  - eapply Forall_impl; [exact Hr|]. by intros s [Hs _].
Qed.

(** A ledger whose plans fit in a C int. *)
Definition ledger_fits (l : Ledger) : Prop :=
  Forall (λ p, kp_nchecks p < 2 ^ 31 ∧ kp_nactions p < 2 ^ 31) (lg_plans l) ∧
  kt_nkeys (declared l) < 2 ^ 30.

Lemma ledger_fits_dec l :
  forallb (λ p, (kp_nchecks p <? 2 ^ 31) && (kp_nactions p <? 2 ^ 31)) (lg_plans l) &&
    (kt_nkeys (declared l) <? 2 ^ 30) = true → ledger_fits l.
Proof.
  intros [H1 H2]%andb_prop. split; [|by apply Z.ltb_lt].
  eapply Forall_impl; [apply forallb_True, Is_true_true, H1|].
  intros p [Ha Hb]%andb_prop_elim. by split; apply Z.ltb_lt, Is_true_true.
Qed.

Lemma ledger_small l : ledger_ok l → ledger_fits l → Forall plan_small (lg_plans l).
Proof.
  intros Hl [Hf _]. apply Forall_forall. intros p Hp.
  assert (Hs : plan_shape p).
  { destruct Hl as [(_ & _ & _ & He & _)|(_ & _ & _ & Hw)];
      [rewrite He in Hp; by apply not_elem_of_nil in Hp|].
    apply list_elem_of_lookup in Hp as [i Hi]. apply (Hw _ _ Hi). }
  destruct (proj1 (Forall_forall _ _) Hf p Hp) as [H1 H2].
  pose proof (shape_checks p Hs) as Hc. destruct Hs as (_ & Ha & Hn & Hm & _).
  split_and!; try done.
  - eapply Forall_impl; [exact Hc|]. apply check_ok_small.
  - eapply Forall_impl; [exact Ha|]. apply action_ok_small.
Qed.

(* ---------------------------------------------------------------- *)
(** ** Properties *)

(** C4: what the encoder writes is what the program reads. For a well-formed
    ledger the encoder never raises, the command it builds carries every
    declared key once, and the program's decoder applied to that KEYS and ARGV
    returns exactly the ledger's plans in order, each with its own key, type,
    requirement and steps; it never answers BADPROTO. *)
Theorem encode_decode_roundtrip (tonumber : bytes → option Z) (sha1 : bytes) (l : Ledger) :
  (∀ z, 0 ≤ z < 2 ^ 53 → tonumber (dec z) = Some z) →
  ledger_ok l → ledger_fits l →
  ∃ cmd keys argv,
    vfdw_script_encode sha1 l (vfdw_cmd_init 32) = Ok cmd ∧
    cmd_args cmd = ["EVALSHA"; until_nul sha1; dec (Z.of_nat (length keys))] ++ keys ++ argv ∧
    NoDup keys ∧
    decode tonumber keys argv =
      inl (wire_lplan (declared l) <$> lg_plans l, Z.of_nat (length (lg_plans l))).
Proof.
  intros Ht Hl Hf. destruct (encode_wire sha1 l (vfdw_cmd_init 32) Hl) as (cmd & E & Hc).
  exists cmd, (kt_keys (declared l)), (wire_argv l). split_and!; [done|done| |].
  - destruct (declared_ok l Hl) as (Hok & _). apply NoDup_alt. intros i j k Hi Hj.
    assert (H1 : kt_bybytes (declared l) !! k = Some (Z.of_nat i + 1)).
    { apply Hok. split; [lia|]. by replace (Z.to_nat (Z.of_nat i + 1 - 1)) with i by lia. }
    assert (H2 : kt_bybytes (declared l) !! k = Some (Z.of_nat j + 1)).
    { apply Hok. split; [lia|]. by replace (Z.to_nat (Z.of_nat j + 1 - 1)) with j by lia. }
    rewrite H1 in H2. injection H2. lia.
  - rewrite (decode_wire tonumber Ht l Hl (ledger_small l Hl Hf) (proj2 Hf)).
    f_equal. f_equal. destruct Hl as [(_ & _ & _ & Hp & Hn)|(_ & Hn & _)];
      unfold vfdw_ledger_nplans; [by rewrite Hp|done].
Qed.

(** C38 (invariant W2): every key argument of every step travels as an index that
    the program resolves back to the very key the ledger named, so no index on
    the wire can reach a command as nil or as another key. *)
Theorem key_arguments_resolve (tonumber : bytes → option Z) (l : Ledger) (plan : VfdwKeyPlan)
    (s : VfdwLedgerStep) (a : bytes) (b : bool) :
  (∀ z, 0 ≤ z < 2 ^ 53 → tonumber (dec z) = Some z) →
  ledger_ok l → ledger_fits l → plan ∈ lg_plans l →
  s ∈ (if b then kp_actions plan else kp_checks plan) →
  key_arg_of b (st_op s) = 0 → st_args s !! 0%nat = Some a →
  key_index tonumber (kt_keys (declared l)) (arg (ls_a (wire_lstep (declared l) b s)) 0) = Some a.
Proof.
  intros Ht Hl Hf Hp Hs Hk Ha. destruct (declared_ok l Hl) as (Hok & Hd & _).
  destruct (proj1 (Forall_forall _ _) Hd plan Hp) as [Hdc Hda].
  assert (Hds : arg_declared (declared l) (key_arg_of b) s).
  { destruct b; [by apply (proj1 (Forall_forall _ _) Hda)|by apply (proj1 (Forall_forall _ _) Hdc)]. }
  destruct (Hds Hk a Ha) as [idx Hidx]. pose proof (kt_ok_range _ _ _ Hok Hidx) as Hr.
  destruct Hf as [_ Hf]. unfold wire_lstep, arg. simpl. rewrite Hk.
  destruct (st_args s) as [|x rest]; [done|]. injection Ha as ->. simpl. rewrite Hidx. simpl.
  apply (key_index_wire tonumber Ht); [done|done|lia].
Qed.

(** A log with a rename, a keyset and two tables, folded. *)
Definition sample_ops : list VfdwWriteOp :=
    [WriteOp None None VFDW_OP_UPDATE 1 VFDW_TABLE_STRING 1 1 0 "new" (Some "old") None None
       (Some "v") None [] [] [] false None [] (Some "idx");
     WriteOp None None VFDW_OP_INSERT 2 VFDW_TABLE_LIST 1 1 0 "lst" None (Some "x") None
       None None [] [] [] false None [] None].

Definition sample_ledger : Ledger := (miter vfdw_ledger_note sample_ops ledger_empty).2.

Lemma ledger_ok_empty : ledger_ok ledger_empty.
Proof. by left. Qed.

Lemma sample_ledger_ok : ledger_ok sample_ledger.
Proof.
  exact (pres_miter ledger_ok vfdw_ledger_note sample_ops (λ x _, pres_note x) ledger_empty
           ledger_ok_empty).
Qed.

Lemma sample_ledger_fits : ledger_fits sample_ledger.
Proof. apply ledger_fits_dec. vm_compute. reflexivity. Qed.

Lemma encode_decode_roundtrip_witness :
  ∃ cmd keys argv,
    vfdw_script_encode "5f3a" sample_ledger (vfdw_cmd_init 32) = Ok cmd ∧
    cmd_args cmd = ["EVALSHA"; until_nul "5f3a"; dec (Z.of_nat (length keys))] ++ keys ++ argv ∧
    NoDup keys ∧
    decode undec keys argv =
      inl (wire_lplan (declared sample_ledger) <$> lg_plans sample_ledger,
           Z.of_nat (length (lg_plans sample_ledger))).
Proof.
  apply (encode_decode_roundtrip undec "5f3a" sample_ledger).
  - intros z _. apply undec_dec.
  - apply sample_ledger_ok.
  - apply sample_ledger_fits.
Defined.

Lemma key_arguments_resolve_witness :
  kt_keys (declared sample_ledger) = ["new"; "old"; "lst"; "idx"] ∧
  key_index undec (kt_keys (declared sample_ledger))
    (arg (ls_a (wire_lstep (declared sample_ledger) true
                  (LedgerStep (action_code VFDW_ACT_RENAME) ["old"]))) 0) = Some "old".
Proof.
  split; [vm_compute; reflexivity|].
  apply (key_arguments_resolve undec sample_ledger
           (default (fresh_plan "" VFDW_TABLE_STRING) (lg_plans sample_ledger !! 0%nat))
           (LedgerStep (action_code VFDW_ACT_RENAME) ["old"]) "old" true).
  - intros z _. apply undec_dec.
  - apply sample_ledger_ok.
  - apply sample_ledger_fits.
  - apply (list_elem_of_lookup_2 _ 0%nat). vm_compute. reflexivity.
  - vm_compute. left.
  - reflexivity.
  - reflexivity.
Defined.
