(* ===== verification/ScriptSem.v ===== *)
(** What running the program does to the server's database: a refusal changes
    nothing, and a success has the effect of the transaction's log in log order
    (src/vfdw_script.c against src/vfdw_ledger.c). *)
From S2P Require Import Prelude Opcode WriteOp Ledger LedgerFacts LedgerActions Error.
From S2P Require Import Cmd Script ScriptEncode ScriptFacts.
From stdpp Require Import list.
Local Open Scope Z_scope.

(* ---------------------------------------------------------------- *)
(** ** Reading the program's own words *)

Lemma drop_bytes_0 (s : bytes) : drop_bytes 0 s = s.
Proof. by destruct s. Qed.

Lemma word_at_head word rest str :
  str = word +:+ String " " rest → vfdw_script_word_at str 0 word = true.
Proof.
  intros ->. unfold vfdw_script_word_at. rewrite drop_bytes_0, starts_with_refl, length_append.
  cbn [negb Nat.add String.length].
  rewrite (bool_decide_false (_ < _)%nat), (bool_decide_false (_ = _)%nat) by lia.
  apply bool_decide_eq_true. unfold byte_at.
  induction word as [|c word IH]; simpl_app; simpl; [done|apply IH].
Qed.

(** A message of the program: the sentinel, a code, a space and a text. *)
Definition sentinel (code rest : bytes) : bytes := "VFDW1 " +:+ code +:+ " " +:+ rest.

Lemma word_at_code code rest w :
  vfdw_script_word_at (sentinel code rest) 6 w = vfdw_script_word_at (code +:+ " " +:+ rest) 0 w.
Proof.
  unfold vfdw_script_word_at, sentinel. rewrite drop_bytes_0.
  set (s := code +:+ " " +:+ rest). rewrite length_append.
  change (drop_bytes 6 ("VFDW1 " +:+ s)) with s. change (String.length "VFDW1 ") with 6%nat.
  assert (byte_at (6 + String.length w) ("VFDW1 " +:+ s) = byte_at (0 + String.length w) s) as -> by done.
  rewrite (bool_decide_ext (6 + String.length s < 6 + String.length w)%nat
             (String.length s < 0 + String.length w)%nat) by lia.
  by rewrite (bool_decide_ext (6 + String.length w = 6 + String.length s)%nat
             (0 + String.length w = String.length s)%nat) by lia.
Qed.

Lemma word_at_miss str w : starts_with w str = false → vfdw_script_word_at str 0 w = false.
Proof.
  intros H. unfold vfdw_script_word_at. rewrite drop_bytes_0, H. by destruct (bool_decide _).
Qed.

(** The six codes are distinguished by their first word. *)
Lemma classify_sentinel code v rest :
  (code, v) ∈ vfdw_script_codes →
  (vfdw_script_classify (Some (sentinel code rest))).1 = v.
Proof.
  intros Hin. unfold vfdw_script_classify.
  assert (vfdw_script_word_at (sentinel code rest) 0 "VFDW1" = true) as ->.
  { apply (word_at_head "VFDW1" (code +:+ " " +:+ rest)). done. }
  assert (Hl : String.length (sentinel code rest) = (6 + String.length (code +:+ " " +:+ rest))%nat) by done.
  rewrite Hl. rewrite bool_decide_false by lia. simpl.
  unfold classify_codes, vfdw_script_codes. rewrite !word_at_code.
  assert (Hhit : vfdw_script_word_at (code +:+ " " +:+ rest) 0 code = true)
    by by apply (word_at_head code rest).
  repeat (apply elem_of_cons in Hin as [Hin|Hin];
    [injection Hin as -> ->; rewrite ?Hhit; rewrite ?word_at_miss by reflexivity;
     try rewrite Hhit; reflexivity|]).
  by apply not_elem_of_nil in Hin.
Qed.

Lemma classify_fail code v p k d :
  (code, v) ∈ vfdw_script_codes → ∃ m, script_fail code p k d = Fail m ∧
    (vfdw_script_classify (Some m)).1 = v.
Proof.
  intros Hin. unfold script_fail.
  destruct d as [d|]; (eexists; split; [done|]).
  - rewrite <- (classify_sentinel code v (dec p +:+ " " +:+ default "-" k +:+ " " +:+ d) Hin).
    unfold sentinel. by rewrite !append_assoc.
  - by apply (classify_sentinel code v).
Qed.

(** The text of the reply, which the client classifies. *)
Definition outcome_text (o : Outcome) : bytes :=
  match o with Status s | Fail s | Raised s => s end.

Definition verdict (o : Outcome) : VfdwScriptVerdict :=
  (vfdw_script_classify (Some (outcome_text o))).1.

(* ---------------------------------------------------------------- *)
(** ** Phase 1 reads only *)

Definition read_verbs : list bytes :=
  ["EXISTS"; "HEXISTS"; "SISMEMBER"; "ZSCORE"; "LRANGE"; "TYPE"].

Section sem.
Context {Db : Type} (exec : list bytes → Db → Lua * Db) (tonumber : bytes → option Z).

(** Read commands leave the database as it is. *)
Definition reads_only : Prop :=
  ∀ verb args db, verb ∈ read_verbs → (exec (verb :: args) db).2 = db.

Hypothesis exec_reads : reads_only.

Lemma call_reads verb l db :
  verb ∈ read_verbs → (server_call exec (Some verb :: l) db).2 = db.
Proof.
  intros Hv. unfold server_call, args_of. simpl.
  destruct (mapM id l) as [args|]; simpl; [|done].
  pose proof (exec_reads verb args db Hv) as H.
  destruct (exec (verb :: args) db) as [[] db']; exact H.
Qed.

Lemma check_call_reads verb l hit bad db :
  verb ∈ read_verbs → (check_call exec (Some verb :: l) hit bad db).2 = db.
Proof.
  intros Hv. unfold check_call. pose proof (call_reads verb l db Hv) as H.
  destruct (server_call exec (Some verb :: l) db) as [[v|o] db']; exact H.
Qed.

Ltac read_verb := unfold read_verbs; rewrite !elem_of_cons; tauto.

Lemma CHECK_reads op keys k a fn db : CHECK exec tonumber op keys k a = Some fn → (fn db).2 = db.
Proof.
  intros H.
  assert (Hl := call_reads "LRANGE" [Some k; Some "0"; Some "-1"] db ltac:(read_verb)).
  unfold CHECK in H.
  repeat match type of H with
  | match ?x with _ => _ end = _ => is_var x; destruct x; try discriminate H
  end; injection H as <-; try (apply check_call_reads; read_verb).
  destruct (server_call exec _ db) as [[[]|o] db']; try exact Hl.
  by destruct (arg a 1 ≫= tonumber).
Qed.

Lemma run_checks_reads keys p k c checks db :
  (run_checks exec tonumber keys p k c checks db).2 = db.
Proof.
  revert c. induction checks as [|ch rest IH]; intros c; simpl; [done|].
  case_bool_decide; [apply IH|].
  destruct (CHECK exec tonumber (ls_op ch) keys k (ls_a ch)) as [fn|] eqn:E; [|done].
  pose proof (CHECK_reads _ _ _ _ _ db E) as Hr.
  destruct (fn db) as [[[bad|]|o] db']; simpl in Hr; subst; [done|apply IH|done].
Qed.

Lemma check_type_reads p pl db : (check_type exec p pl db).2 = db.
Proof.
  unfold check_type. pose proof (call_reads "TYPE" [Some (lp_k pl)] db ltac:(read_verb)) as H.
  destruct (server_call exec _ db) as [[[]|o] db']; try exact H. by destruct (_ && _).
Qed.

Lemma phase1_reads keys p plans db : (phase1 exec tonumber keys p plans db).2 = db.
Proof.
  revert p. induction plans as [|pl rest IH]; intros p; simpl; [done|].
  pose proof (check_type_reads p pl db) as H1.
  destruct (check_type exec p pl db) as [[o|] db1]; simpl in H1; subst; [done|].
  pose proof (run_checks_reads keys p (lp_k pl) 1 (lp_checks pl) db) as H2.
  destruct (run_checks exec tonumber keys p (lp_k pl) 1 (lp_checks pl) db) as [[o|] db2];
    simpl in H2; subst; [done|apply IH].
Qed.

(** Phase 2 ends early only with INTERNAL. *)
Lemma run_actions_internal keys p k c actions db o db' :
  run_actions exec tonumber keys p k c actions db = (Some o, db') →
  verdict o = VFDW_SCRIPT_INTERNAL.
Proof.
  assert (Hi : ("INTERNAL", VFDW_SCRIPT_INTERNAL) ∈ vfdw_script_codes).
  { unfold vfdw_script_codes. rewrite !elem_of_cons. tauto. }
  revert c db. induction actions as [|ac rest IH]; intros c db H; simpl in H; [done|].
  destruct (ACTION tonumber (ls_op ac) keys k (ls_a ac)) as [cmd|].
  - destruct (server_pcall exec cmd db) as [[] db1]; eauto.
    injection H as <- <-. by destruct (classify_fail _ _ p (Some k) (Some (dec c +:+ " " +:+ s)) Hi)
      as (m & -> & Hm).
  - injection H as <- <-. by destruct (classify_fail _ _ p (Some k)
      (Some ("actionop " +:+ dec (ls_op ac))) Hi) as (m & -> & Hm).
Qed.

Lemma phase2_internal keys p plans db o db' :
  phase2 exec tonumber keys p plans db = (Some o, db') → verdict o = VFDW_SCRIPT_INTERNAL.
Proof.
  revert p db. induction plans as [|pl rest IH]; intros p db H; simpl in H; [done|].
  destruct (run_actions _ _ _ _ _ _ _ _) as [[o'|] db1] eqn:E.
  - injection H as <- <-. by eapply run_actions_internal.
  - by eapply IH.
Qed.

Lemma program_cases keys argv db o db' :
  vfdw_script_src exec tonumber keys argv db = (o, db') →
  db' = db ∨ verdict o = VFDW_SCRIPT_INTERNAL ∨
  (∃ s, o = Status s) ∧ verdict o = VFDW_SCRIPT_OK.
Proof.
  unfold vfdw_script_src. intros H.
  destruct (decode tonumber keys argv) as [[plans n]|o0]; [|injection H as <- <-; by left].
  pose proof (phase1_reads keys 1 plans db) as H1.
  destruct (phase1 exec tonumber keys 1 plans db) as [[o1|] db1]; simpl in H1; subst.
  { injection H as <- <-. by left. }
  destruct (phase2 exec tonumber keys 1 plans db) as [[o2|] db2] eqn:E2; injection H as <- <-.
  - right. left. by eapply phase2_internal.
  - right. right. split; [by eexists|]. apply (classify_sentinel "OK" VFDW_SCRIPT_OK).
    unfold vfdw_script_codes. rewrite !elem_of_cons. tauto.
Qed.
End sem.

(* ---------------------------------------------------------------- *)
(** ** Property *)

(** C3 (the two-phase rule): whatever KEYS and ARGV the program is given, unless
    the client classifies its reply as OK or INTERNAL the database is exactly as
    it was: a conflict, a missing row, a wrong type, a protocol mismatch or an
    error raised by a read leave no partial write behind. *)
Theorem refusal_changes_nothing {Db : Type} (exec : list bytes → Db → Lua * Db)
    (tonumber : bytes → option Z) (keys argv : list bytes) (db db' : Db) (o : Outcome) :
  reads_only exec →
  vfdw_script_src exec tonumber keys argv db = (o, db') →
  verdict o ≠ VFDW_SCRIPT_OK → verdict o ≠ VFDW_SCRIPT_INTERNAL → db' = db.
Proof. intros Hr H H1 H2. by destruct (program_cases exec tonumber Hr _ _ _ _ _ H) as [?|[?|[_ ?]]]. Qed.
