(* ===== verification/ScriptEffect.v ===== *)
(** What a successful run of the program does: it has the effect of the
    transaction's log executed in log order, although the ledger groups the
    writes by key (src/vfdw_ledger.c, src/vfdw_script_encode.c and
    src/vfdw_script.c together). *)
From S2P Require Import Prelude Opcode WriteOp Ledger LedgerFacts LedgerActions Error.
From S2P Require Import Cmd Script ScriptEncode ScriptFacts ScriptSem.
From stdpp Require Import list.
Local Open Scope Z_scope.

(* ---------------------------------------------------------------- *)
(** ** Commands and footprints *)

(** The command of one action on key [k], its key argument being the key itself. *)
Definition step_cmd (k : bytes) (s : VfdwLedgerStep) : option (list bytes) :=
  ACTION (λ _, Some 1) (st_op s) (st_args s) k (Some <$> st_args s) ≫= args_of.

(** What a step can touch: a whole key, or one member of a set. *)
Definition loc : Type := bytes * option bytes.

Definition foot (x : bytes * VfdwLedgerStep) : list loc :=
  let a i := default "" (st_args x.2 !! i) in
  if bool_decide (st_op x.2 = action_code VFDW_ACT_RENAME)
  then [(x.1, None); (a 0%nat, None)]
  else if bool_decide (st_op x.2 = action_code VFDW_ACT_KSET_ADD) ||
          bool_decide (st_op x.2 = action_code VFDW_ACT_KSET_REM)
  then [(a 0%nat, Some (a 1%nat))]
  else [(x.1, None)].

Definition loc_clash (x y : loc) : bool :=
  bool_decide (x.1 = y.1) &&
  match x.2, y.2 with Some a, Some b => bool_decide (a = b) | _, _ => true end.

Definition apart (x y : bytes * VfdwLedgerStep) : bool :=
  forallb (λ a, forallb (λ b, negb (loc_clash a b)) (foot y)) (foot x).

(** The steps of a log, in log order, each with the key it is for. *)
Definition log_steps (ops : list VfdwWriteOp) : list (bytes * VfdwLedgerStep) :=
  concat ((λ op, (op_key op,.) <$> op_actions (op_tabletype op) op) <$> ops).

(** Steps for different keys touch different things: no key of the log is
    renamed away under another operation or used as another's keyset. *)
Definition log_separated (ops : list VfdwWriteOp) : bool :=
  forallb (λ x, forallb (λ y, bool_decide (x.1 = y.1) || apart x y) (log_steps ops)) (log_steps ops).

Definition of_key (k : bytes) (log : list (bytes * VfdwLedgerStep)) :=
  filter (λ x, x.1 = k) log.

Lemma of_key_other k x log : x.1 ≠ k → of_key k (x :: log) = of_key k log.
Proof. intros H. unfold of_key. by rewrite filter_cons_False. Qed.

Lemma groups_other keys x log :
  x.1 ∉ keys → concat ((λ k, of_key k (x :: log)) <$> keys) = concat ((λ k, of_key k log) <$> keys).
Proof.
  induction keys as [|k keys IH]; intros Hx; [done|]. rewrite !fmap_cons. cbn [concat].
  apply not_elem_of_cons in Hx as [H1 H2]. by rewrite of_key_other, IH.
Qed.

Lemma of_group k log y : y ∈ of_key k log → y ∈ log ∧ y.1 = k.
Proof. unfold of_key. rewrite list_elem_of_filter. tauto. Qed.

Lemma in_groups keys log y :
  y ∈ concat ((λ k, of_key k log) <$> keys) → y ∈ log ∧ y.1 ∈ keys.
Proof.
  induction keys as [|k keys IH]; [by intros ?%not_elem_of_nil|].
  rewrite fmap_cons. cbn [concat]. rewrite elem_of_app, elem_of_cons.
  intros [[H1 H2]%of_group|H]; [by auto|]. destruct (IH H). auto.
Qed.

Definition plan_steps (plans : list VfdwKeyPlan) : list (bytes * VfdwLedgerStep) :=
  concat ((λ pl, (kp_key pl,.) <$> kp_actions pl) <$> plans).

Section effect.
Context {Db : Type} (exec : list bytes → Db → Lua * Db) (tonumber : bytes → option Z).

Definition do_step (db : Db) (x : bytes * VfdwLedgerStep) : Db :=
  match step_cmd x.1 x.2 with Some c => (exec c db).2 | None => db end.

Definition run_steps (l : list (bytes * VfdwLedgerStep)) (db : Db) : Db := fold_left do_step l db.

Definition steps_commute (x y : bytes * VfdwLedgerStep) : Prop :=
  ∀ db, do_step (do_step db x) y = do_step (do_step db y) x.

(** Commands that touch different things are independent of each other. *)
Definition server_frames : Prop := ∀ x y, apart x y = true → steps_commute x y.

Lemma run_steps_app l1 l2 db : run_steps (l1 ++ l2) db = run_steps l2 (run_steps l1 db).
Proof. apply fold_left_app. Qed.

(** A step moves in front of steps it commutes with. *)
Lemma run_steps_front x l db :
  (∀ y, y ∈ l → steps_commute x y) → run_steps (l ++ [x]) db = run_steps (x :: l) db.
Proof.
  revert db. induction l as [|y l IH]; intros db H; [done|].
  change (run_steps (l ++ [x]) (do_step db y) = run_steps l (do_step (do_step db x) y)).
  rewrite IH by (intros z Hz; apply H; by right). simpl.
  f_equal. symmetry. apply H. by left.
Qed.

(** Grouping a log by key does not change its effect. *)
Lemma regroup keys log db :
  NoDup keys → (∀ x, x ∈ log → x.1 ∈ keys) →
  (∀ x y, x ∈ log → y ∈ log → x.1 ≠ y.1 → steps_commute x y) →
  run_steps (concat ((λ k, of_key k log) <$> keys)) db = run_steps log db.
Proof.
  intros Hnd. revert db. induction log as [|x log IH]; intros db Hk Hc.
  { assert (concat ((λ k, of_key k []) <$> keys) = []) as ->; [|done].
    clear. induction keys; [done|]. rewrite fmap_cons. cbn [concat]. done. }
  destruct (list_elem_of_split keys x.1) as (k1 & k2 & ->); [apply Hk; by left|].
  apply NoDup_app in Hnd as Hnd'. destruct Hnd' as (_ & Hd & H2). apply NoDup_cons in H2 as [H2 _].
  assert (Hx1 : x.1 ∉ k1) by (intros ?; by apply (Hd x.1); [|left]).
  rewrite fmap_app, fmap_cons, concat_app. cbn [concat].
  rewrite (groups_other k1), (groups_other k2) by done.
  unfold of_key at 2. rewrite filter_cons_True by done. fold (of_key x.1 log).
  cbn [app]. rewrite (cons_middle x), app_assoc, run_steps_app, run_steps_front.
  - change (run_steps (x :: log) db) with (run_steps log (do_step db x)).
    rewrite <- (IH (do_step db x));
      [|intros y Hy; apply Hk; by right|intros y z Hy Hz; apply Hc; by right].
    rewrite fmap_app, fmap_cons, concat_app. cbn [concat]. by rewrite (run_steps_app (concat ((λ k, of_key k log) <$> k1))).
  - intros y [Hy Hyk]%in_groups. apply Hc; [by left|by right|]. intros E. by rewrite E in Hx1.
Qed.

(** The program's commands are the steps' commands. *)
Hypothesis tonumber_int : ∀ z, 0 ≤ z < 2 ^ 53 → tonumber (dec z) = Some z.

Lemma wire_cmd t k s :
  kt_ok t → kt_nkeys t < 2 ^ 30 → action_ok s → arg_declared t vfdw_action_key_arg s →
  ∃ cmd c, ACTION tonumber (st_op s) (kt_keys t) k (ls_a (wire_lstep t true s)) = Some cmd ∧
    args_of cmd = Some c ∧ step_cmd k s = Some c.
Proof.
  intros Ht Hn (a & Ho & Hl) Hd. destruct s as [op args]. simpl in Ho, Hl. subst op.
  unfold arg_declared in Hd. cbn [st_op st_args] in Hd.
  destruct a, args as [|x [|y [|]]]; try discriminate Hl;
    try (do 2 eexists; split; [reflexivity|split; reflexivity]);
    destruct (Hd eq_refl x eq_refl) as [idx Hi];
    pose proof (kt_ok_range _ _ _ Ht Hi) as Hr;
    pose proof (key_index_wire tonumber tonumber_int t x idx Ht Hi ltac:(lia)) as Hk;
    unfold ACTION, wire_lstep, wire_args, arg; cbn -[key_index dec]; rewrite Hi; cbn -[key_index dec];
    rewrite bool_decide_true by reflexivity; rewrite Hk; do 2 eexists; (split; [reflexivity|split; reflexivity]).
Qed.

Lemma run_actions_ok t p k c actions db db' :
  kt_ok t → kt_nkeys t < 2 ^ 30 → Forall action_ok actions →
  Forall (arg_declared t vfdw_action_key_arg) actions →
  run_actions exec tonumber (kt_keys t) p k c (wire_lstep t true <$> actions) db = (None, db') →
  db' = run_steps ((k,.) <$> actions) db.
Proof.
  intros Ht Hn. revert c db. induction actions as [|s rest IH]; intros c db Ha Hd H.
  { by injection H as <-. }
  apply Forall_cons in Ha as [Ha1 Ha2]. apply Forall_cons in Hd as [Hd1 Hd2].
  destruct (wire_cmd t k s Ht Hn Ha1 Hd1) as (cmd & args & H1 & H2 & H3).
  rewrite fmap_cons in H. cbn [run_actions] in H.
  change (ls_op (wire_lstep t true s)) with (st_op s) in H. rewrite H1 in H.
  unfold server_pcall in H. rewrite H2 in H.
  rewrite fmap_cons. unfold run_steps. cbn [fold_left]. fold (run_steps ((k,.) <$> rest)).
  assert (Hdo : do_step db (k, s) = (exec args db).2) by (unfold do_step; simpl; by rewrite H3).
  rewrite Hdo. destruct (exec args db) as [[] db1]; try discriminate H; exact (IH _ _ Ha2 Hd2 H).
Qed.

Lemma phase2_ok t p plans db db' :
  kt_ok t → kt_nkeys t < 2 ^ 30 → Forall plan_shape plans → Forall (plan_declared t) plans →
  phase2 exec tonumber (kt_keys t) p (wire_lplan t <$> plans) db = (None, db') →
  db' = run_steps (plan_steps plans) db.
Proof.
  intros Ht Hn. revert p db. induction plans as [|pl rest IH]; intros p db Hs Hd H.
  { by injection H as <-. }
  apply Forall_cons in Hs as [Hs1 Hs2]. apply Forall_cons in Hd as [Hd1 Hd2].
  rewrite fmap_cons in H. cbn [phase2] in H.
  change (lp_k (wire_lplan t pl)) with (kp_key pl) in H.
  change (lp_actions (wire_lplan t pl)) with (wire_lstep t true <$> kp_actions pl) in H.
  destruct (run_actions _ _ _ _ _ _ _ _) as [[o|] db1] eqn:E; [done|].
  apply run_actions_ok in E; [|done|done|apply Hs1|apply Hd1].
  unfold plan_steps. rewrite fmap_cons. cbn [concat]. rewrite run_steps_app, <- E.
  exact (IH _ _ Hs2 Hd2 H).
Qed.
End effect.

(** Only the end of the program answers a status. *)
Lemma check_no_status {Db} (exec : list bytes → Db → Lua * Db) tonumber op keys k a fn db s db' :
  CHECK exec tonumber op keys k a = Some fn → fn db ≠ (inr (Status s), db').
Proof.
  assert (Hc : ∀ l, server_call exec l db ≠ (inr (Status s), db')).
  { intros l. unfold server_call. destruct (args_of l) as [args|]; [|done].
    by destruct (exec args db) as [[] ?]. }
  assert (Hcc : ∀ l hit bad, check_call exec l hit bad db ≠ (inr (Status s), db')).
  { intros l hit bad H. unfold check_call in H. specialize (Hc l).
    destruct (server_call exec l db) as [[v|o] db1]; simplify_eq. }
  intros H. unfold CHECK in H.
  repeat match type of H with
  | match ?x with _ => _ end = _ => is_var x; destruct x; try discriminate H
  end; injection H as <-; try apply Hcc.
  intros H. specialize (Hc [Some "LRANGE"; Some k; Some "0"; Some "-1"]).
  destruct (server_call exec _ db) as [[[]|o] db1]; simplify_eq.
  destruct (arg a 1 ≫= tonumber); simplify_eq.
Qed.

Lemma checks_no_status {Db} (exec : list bytes → Db → Lua * Db) tonumber keys p k c checks db s db' :
  run_checks exec tonumber keys p k c checks db ≠ (Some (Status s), db').
Proof.
  revert c db. induction checks as [|ch rest IH]; intros c db; simpl; [done|].
  case_bool_decide; [apply IH|].
  destruct (CHECK exec tonumber (ls_op ch) keys k (ls_a ch)) as [fn|] eqn:E; [|done].
  pose proof (λ s db', check_no_status _ _ _ _ _ _ _ db s db' E) as Hn.
  destruct (fn db) as [[[bad|]|o] db1]; [done|apply IH|]. intros [= -> ->]. by eapply Hn.
Qed.

Lemma phase1_no_status {Db} (exec : list bytes → Db → Lua * Db) tonumber keys p plans db s db' :
  phase1 exec tonumber keys p plans db ≠ (Some (Status s), db').
Proof.
  revert p db. induction plans as [|pl rest IH]; intros p db; simpl; [done|].
  destruct (check_type exec p pl db) as [[o|] db1] eqn:E.
  - intros [= -> ->]. revert E. unfold check_type, server_call. simpl.
    destruct (exec _ db) as [[] ?]; try done. by destruct (_ && _).
  - destruct (run_checks _ _ _ _ _ _ _ _) as [[o|] db2] eqn:E2; [|apply IH].
    intros [= -> ->]. by eapply checks_no_status.
Qed.

Lemma phase2_no_status {Db} (exec : list bytes → Db → Lua * Db) tonumber keys p plans db s db' :
  phase2 exec tonumber keys p plans db ≠ (Some (Status s), db').
Proof.
  revert p db. induction plans as [|pl rest IH]; intros p db; simpl; [done|].
  destruct (run_actions _ _ _ _ _ _ _ _) as [[o|] db1] eqn:E; [|apply IH].
  intros [= -> ->]. revert E. generalize 1. generalize (lp_actions pl). intros actions.
  revert db. induction actions as [|ac r IHr]; intros db c; simpl; [done|].
  destruct (ACTION _ _ _ _ _) as [cmd|]; [|done].
  destruct (server_pcall exec cmd db) as [[] ?]; try done; apply IHr.
Qed.

(** The server's EVALSHA: the number of keys, the keys, the rest. *)
Definition evalsha {Db} (exec : list bytes → Db → Lua * Db) (tonumber : bytes → option Z)
    (args : list bytes) (db : Db) : option (Outcome * Db) :=
  match args with
  | verb :: _ :: n :: rest =>
      if bool_decide (verb = "EVALSHA") then
        n ← undec n;
        Some (vfdw_script_src exec tonumber (take (Z.to_nat n) rest) (drop (Z.to_nat n) rest) db)
      else None
  | _ => None
  end.

(** The steps of the plans are the steps of the log, grouped by key. *)
Lemma log_steps_of_key ops k :
  of_key k (log_steps ops) = (k,.) <$> log_actions ops k.
Proof.
  unfold of_key, log_steps, log_actions. induction ops as [|op ops IH]; [done|].
  rewrite fmap_cons. cbn [concat]. rewrite filter_app, IH, filter_cons. case_decide as Hk.
  - rewrite fmap_cons. cbn [concat]. rewrite fmap_app. f_equal. subst k.
    induction (op_actions _ _) as [|s r IHs]; [done|]. rewrite !fmap_cons, filter_cons_True by done.
    by rewrite IHs.
  - enough (filter (λ x : bytes * VfdwLedgerStep, x.1 = k)
              ((op_key op,.) <$> op_actions (op_tabletype op) op) = []) as -> by done.
    induction (op_actions _ _) as [|s r IHs]; [done|]. by rewrite fmap_cons, filter_cons_False.
Qed.

Lemma in_log_steps ops x : x ∈ log_steps ops → x.2 ∈ log_actions ops x.1.
Proof.
  intros Hx. assert (Hk : x ∈ of_key x.1 (log_steps ops)).
  { unfold of_key. by apply list_elem_of_filter. }
  rewrite log_steps_of_key in Hk. apply list_elem_of_fmap in Hk as (s & -> & Hs). done.
Qed.

Lemma fold_plan_steps ty ops l :
  Forall (op_typed ty) ops → miter vfdw_ledger_note ops ledger_empty = (Ok (), l) →
  plan_steps (lg_plans l) = concat ((λ k, of_key k (log_steps ops)) <$> (kp_key <$> lg_plans l)) ∧
  (∀ x, x ∈ log_steps ops → x.1 ∈ kp_key <$> lg_plans l).
Proof.
  intros Hty H.
  assert (Hok : ledger_ok l).
  { pose proof (pres_miter ledger_ok vfdw_ledger_note ops (λ x _, pres_note x) ledger_empty
      ledger_ok_empty) as Hm. by rewrite H in Hm. }
  assert (Hat : ∀ k, acts_at l k = log_actions ops k).
  { intros k. rewrite (log_acts_at ty ops ledger_empty l ledger_ok_empty ltac:(by constructor) Hty H k).
    done. }
  destruct Hok as [(_ & Hk & _ & Hp & _)|[Hi _]].
  { rewrite Hp. split; [done|]. intros x Hx%in_log_steps. rewrite <- Hat in Hx.
    unfold acts_at, plan_at in Hx. rewrite Hk in Hx. by apply not_elem_of_nil in Hx. }
  split.
  - unfold plan_steps. rewrite <- list_fmap_compose. f_equal. apply list_fmap_ext.
    intros i pl Hpl. unfold compose. rewrite log_steps_of_key, <- Hat.
    unfold acts_at. by rewrite (plan_at_index l _ i pl Hi Hpl eq_refl).
  - intros x Hx%in_log_steps. rewrite <- Hat in Hx. unfold acts_at in Hx.
    destruct (plan_at l x.1) as [pl|] eqn:E; [|by apply not_elem_of_nil in Hx].
    destruct (plan_at_inv _ _ _ Hi E) as (p & Hp & <-).
    apply list_elem_of_fmap_2, (list_elem_of_lookup_2 _ p). done.
Qed.

Lemma note_all_ok ops l : miter vfdw_ledger_note ops ledger_empty = (Ok (), l) → ledger_ok l.
Proof.
  intros H. pose proof (pres_miter ledger_ok vfdw_ledger_note ops (λ x _, pres_note x) ledger_empty
    ledger_ok_empty) as Hm. by rewrite H in Hm.
Qed.

Lemma ledger_ok_shapes l : ledger_ok l → Forall plan_shape (lg_plans l).
Proof.
  intros [(_ & _ & _ & -> & _)|(_ & _ & _ & Hw)]; [by constructor|].
  apply Forall_lookup. intros i p Hi. apply (Hw _ _ Hi).
Qed.

Lemma separated_commute {Db} (exec : list bytes → Db → Lua * Db) ops x y :
  server_frames exec → log_separated ops = true → x ∈ log_steps ops → y ∈ log_steps ops →
  x.1 ≠ y.1 → steps_commute exec x y.
Proof.
  intros Hf Hs Hx Hy Hne. apply Hf. unfold log_separated in Hs. rewrite forallb_forall in Hs.
  specialize (Hs x (proj1 (list_elem_of_In _ _) Hx)). rewrite forallb_forall in Hs.
  specialize (Hs y (proj1 (list_elem_of_In _ _) Hy)). by rewrite bool_decide_false in Hs.
Qed.

(** The program that the flush sends, run by a server that answers a status,
    has executed exactly the actions of the plans, plan by plan. *)
Lemma applied_is_the_plans {Db : Type} (exec : list bytes → Db → Lua * Db)
    (tonumber : bytes → option Z) (sha1 : bytes) (l : Ledger) (cmd : VfdwCmd) (db db' : Db) (s : bytes) :
  (∀ z, 0 ≤ z < 2 ^ 53 → tonumber (dec z) = Some z) →
  reads_only exec → ledger_ok l → ledger_fits l →
  vfdw_script_encode sha1 l (vfdw_cmd_init 32) = Ok cmd →
  evalsha exec tonumber (cmd_args cmd) db = Some (Status s, db') →
  db' = run_steps exec (plan_steps (lg_plans l)) db.
Proof.
  intros Ht Hr Hok Hfit Henc Hrun. destruct (declared_ok l Hok) as (Hkt & Hd & _).
  destruct (encode_wire sha1 l (vfdw_cmd_init 32) Hok) as (cmd' & E & Hargs).
  rewrite Henc in E. injection E as <-. rewrite Hargs in Hrun. clear Hargs Henc cmd.
  set (keys := kt_keys (declared l)) in *. set (argv := wire_argv l) in *.
  unfold evalsha in Hrun. cbn [app vfdw_cmd_init cmd_args] in Hrun.
  rewrite bool_decide_true, undec_dec in Hrun by done. unfold kt_nkeys in Hrun. fold keys in Hrun.
  cbn [mbind option_bind] in Hrun.
  rewrite Nat2Z.id, take_app_length, drop_app_length in Hrun. injection Hrun as Hrun.
  unfold vfdw_script_src in Hrun. subst keys argv.
  rewrite (decode_wire tonumber Ht l Hok (ledger_small l Hok Hfit) (proj2 Hfit)) in Hrun.
  destruct (phase1 _ _ _ _ _ _) as [[o|] db1] eqn:E1; [injection Hrun as -> ->|].
  { exfalso. clear -E1. by eapply phase1_no_status. }
  pose proof (phase1_reads exec tonumber Hr (kt_keys (declared l)) 1
    (wire_lplan (declared l) <$> lg_plans l) db) as Hdb. rewrite E1 in Hdb. simpl in Hdb. subst db1.
  destruct (phase2 _ _ _ _ _ _) as [[o|] db2] eqn:E2; injection Hrun as Ho <-.
  { exfalso. subst o. by eapply phase2_no_status. }
  by apply (phase2_ok exec tonumber Ht) in E2; [|done|apply Hfit|apply ledger_ok_shapes|].
Qed.

(** What the plans of a ledger leave is what the log leaves, run one operation by
    one in statement order, where the operations of different keys do not touch
    each other and the tables of a key have one type. *)
Lemma plans_are_the_log {Db : Type} (exec : list bytes → Db → Lua * Db)
    (ty : bytes → VfdwTableType) (ops : list VfdwWriteOp) (l : Ledger) (db : Db) :
  server_frames exec → Forall (op_typed ty) ops → log_separated ops = true →
  miter vfdw_ledger_note ops ledger_empty = (Ok (), l) →
  run_steps exec (plan_steps (lg_plans l)) db = run_steps exec (log_steps ops) db.
Proof.
  intros Hfr Hty Hsep Hops. destruct (fold_plan_steps ty ops l Hty Hops) as [Hsteps Hin]. rewrite Hsteps.
  apply (regroup exec); [by eapply ledger_ok_nodup, note_all_ok|done|].
  intros x y Hx Hy Hne. by apply (separated_commute exec ops).
Qed.
