(* ===== verification/TinyServer.v ===== *)
(** A small concrete key-value server: strings and sets, with the commands the
    program uses on them.  It is an instance of the parameter [exec] of the
    program, and satisfies what the theorems assume of a server. *)
From S2P Require Import Prelude Opcode WriteOp Ledger LedgerFacts LedgerActions Error.
From S2P Require Import Cmd Script ScriptEncode ScriptFacts ScriptSem ScriptEffect.
From stdpp Require Import list gmap.
Local Open Scope Z_scope.

Inductive Val := VStr (s : bytes) | VSet (X : gset bytes).

#[global] Instance Val_eq_dec : EqDecision Val.
Proof. solve_decision. Defined.

Abbreviation Db := (gmap bytes Val).

Definition sadd (m : bytes) (o : option Val) : option Val :=
  match o with
  | None => Some (VSet {[m]})
  | Some (VSet X) => Some (VSet ({[m]} ∪ X))
  | Some (VStr s) => Some (VStr s)
  end.

(** A set whose last member is removed is gone. *)
Definition srem (m : bytes) (o : option Val) : option Val :=
  match o with
  | Some (VSet X) => if decide (X ∖ {[m]} = ∅) then None else Some (VSet (X ∖ {[m]}))
  | o => o
  end.

Definition wrongtype : bytes := "WRONGTYPE Operation against a key holding the wrong kind of value".

Definition set_op (k : bytes) (f : option Val → option Val) (db : Db) : Lua * Db :=
  match db !! k with
  | Some (VStr _) => (LErr wrongtype, db)
  | _ => (LNum 1, partial_alter f k db)
  end.

Definition tiny (args : list bytes) (db : Db) : Lua * Db :=
  match args with
  | verb :: k :: rest =>
      if bool_decide (verb = "SET") then
        match rest with [v] => (LOk "OK", <[k := VStr v]> db) | _ => (LErr "ERR syntax", db) end
      else if bool_decide (verb = "DEL") then (LNum 1, delete k db)
      else if bool_decide (verb = "SADD") then
        match rest with [m] => set_op k (sadd m) db | _ => (LErr "ERR syntax", db) end
      else if bool_decide (verb = "SREM") then
        match rest with [m] => set_op k (srem m) db | _ => (LErr "ERR syntax", db) end
      else if bool_decide (verb = "EXISTS") then
        (LNum (match db !! k with Some _ => 1 | None => 0 end), db)
      else if bool_decide (verb = "TYPE") then
        (LOk (match db !! k with None => "none" | Some (VStr _) => "string"
              | Some (VSet _) => "set" end), db)
      else if bool_decide (verb = "SISMEMBER") then
        match db !! k, rest with
        | Some (VStr _), _ => (LErr wrongtype, db)
        | Some (VSet X), [m] => (LNum (if decide (m ∈ X) then 1 else 0), db)
        | _, _ => (LNum 0, db)
        end
      else (LErr "ERR unknown command", db)
  | _ => (LErr "ERR unknown command", db)
  end.

Lemma tiny_reads_only : reads_only tiny.
Proof.
  intros verb args db Hv. unfold tiny. destruct args as [|k rest]; [done|].
  unfold read_verbs in Hv. rewrite !elem_of_cons in Hv.
  destruct Hv as [->|[->|[->|[->|[->|[->|Hv]]]]]]; try reflexivity;
    [|by apply not_elem_of_nil in Hv].
  simpl. destruct (db !! k) as [[]|], rest as [|m []]; reflexivity.
Qed.

(** What a step does: nothing, or a change of one key. *)
Definition steps_as (x : bytes * VfdwLedgerStep) (k : bytes) (f : option Val → option Val) : Prop :=
  ∀ db, do_step tiny db x = partial_alter f k db.

Lemma sadd_as k m db : (set_op k (sadd m) db).2 = partial_alter (sadd m) k db.
Proof.
  unfold set_op. destruct (db !! k) as [[]|] eqn:E; try done. simpl.
  symmetry. apply partial_alter_id. exact (eq_trans (f_equal _ E) (eq_sym E)).
Qed.

Lemma srem_as k m db : (set_op k (srem m) db).2 = partial_alter (srem m) k db.
Proof.
  unfold set_op. destruct (db !! k) as [[]|] eqn:E; try done. simpl.
  symmetry. apply partial_alter_id. exact (eq_trans (f_equal _ E) (eq_sym E)).
Qed.

Inductive step_view (x : bytes * VfdwLedgerStep) : Prop :=
  | view_none : (∀ db, do_step tiny db x = db) → step_view x
  | view_key f : steps_as x x.1 f → (x.1, None) ∈ foot x → step_view x
  | view_add ks m : steps_as x ks (sadd m) → (ks, Some m) ∈ foot x → step_view x
  | view_rem ks m : steps_as x ks (srem m) → (ks, Some m) ∈ foot x → step_view x.

Lemma step_view_all x : step_view x.
Proof.
  destruct x as [k [op args]].
  destruct (decide (op = 0)) as [->|]; [|destruct (decide (op = 1)) as [->|];
    [|destruct (decide (op = 4)) as [->|]; [|destruct (decide (op = 5)) as [->|];
    [|destruct (decide (op = 11)) as [->|]; [|destruct (decide (op = 12)) as [->|]]]]]].
  - destruct args as [|v r]; [by apply view_none|].
    by apply (view_key _ (λ _, Some (VStr v))); [|left].
  - by apply (view_key _ (λ _, None)); [|left].
  - destruct args as [|v r]; [by apply view_none|].
    apply (view_key _ (sadd v)); [|left]. intros db. apply (sadd_as k v db).
  - destruct args as [|v r]; [by apply view_none|].
    apply (view_key _ (srem v)); [|left]. intros db. apply (srem_as k v db).
  - destruct args as [|ks [|m r]]; [by apply view_none..|].
    apply (view_add _ ks m); [|left]. intros db. apply (sadd_as ks m db).
  - destruct args as [|ks [|m r]]; [by apply view_none..|].
    apply (view_rem _ ks m); [|left]. intros db. apply (srem_as ks m db).
  - apply view_none. intros db. unfold do_step, step_cmd, ACTION. cbn [st_op st_args fst snd].
    repeat match goal with
    | |- context [match ?z with _ => _ end] => is_var z; destruct z; try done
    end; destruct args as [|a [|b r]]; done.
Qed.

Lemma add_rem_comm m1 m2 o : m1 ≠ m2 → sadd m1 (srem m2 o) = srem m2 (sadd m1 o).
Proof.
  intros Hne. destruct o as [[s|X]|]; [done| |]; simpl.
  - rewrite (decide_False (P := ({[m1]} ∪ X) ∖ {[m2]} = ∅)) by set_solver.
    case_decide; simpl; do 2 f_equal; set_solver.
  - rewrite decide_False by set_solver. do 2 f_equal. set_solver.
Qed.

Lemma add_add_comm m1 m2 o : sadd m1 (sadd m2 o) = sadd m2 (sadd m1 o).
Proof. destruct o as [[s|X]|]; [done| |]; simpl; do 2 f_equal; set_solver. Qed.

Lemma rem_rem_comm m1 m2 o : srem m1 (srem m2 o) = srem m2 (srem m1 o).
Proof.
  destruct o as [[s|X]|]; [done| |done]; simpl.
  assert (E : X ∖ {[m1]} ∖ {[m2]} = X ∖ {[m2]} ∖ {[m1]}) by set_solver.
  destruct (decide (X ∖ {[m2]} = ∅)) as [H2|H2], (decide (X ∖ {[m1]} = ∅)) as [H1|H1]; simpl; [done| | |].
  - rewrite decide_True; [done|]. rewrite E, H2. set_solver.
  - rewrite decide_True; [done|]. rewrite <- E, H1. set_solver.
  - by rewrite E.
Qed.

Lemma key_commute x y kx ky f g :
  steps_as x kx f → steps_as y ky g → (kx = ky → ∀ o, f (g o) = g (f o)) →
  steps_commute tiny x y.
Proof.
  intros Hx Hy Hc db. rewrite !Hy, !Hx. destruct (decide (kx = ky)) as [->|Hne].
  - rewrite !partial_alter_partial_alter_eq. apply partial_alter_ext. intros o _. symmetry. by apply Hc.
  - by rewrite partial_alter_partial_alter_ne.
Qed.

Lemma apart_foot x y a b : apart x y = true → a ∈ foot x → b ∈ foot y → loc_clash a b = false.
Proof.
  unfold apart. rewrite forallb_forall. intros H Ha Hb.
  apply list_elem_of_In in Ha, Hb. specialize (H a Ha). rewrite forallb_forall in H.
  specialize (H b Hb). by destruct (loc_clash a b).
Qed.

Lemma clash_false (k1 k2 : bytes) (o1 o2 : option bytes) :
  loc_clash (k1, o1) (k2, o2) = false →
  k1 ≠ k2 ∨ ∃ a b, o1 = Some a ∧ o2 = Some b ∧ a ≠ b.
Proof.
  unfold loc_clash. simpl. destruct (bool_decide_reflect (k1 = k2)); [|by left]. simpl.
  destruct o1 as [a|], o2 as [b|]; try done. intros H%bool_decide_eq_false. right. eauto.
Qed.

(** The small server meets the independence assumption. *)
Lemma tiny_frames : server_frames tiny.
Proof.
  intros x y Hap.
  destruct (step_view_all x) as [Hx|f Hx Fx|kx m Hx Fx|kx m Hx Fx];
    try (by intros db; rewrite !Hx);
    destruct (step_view_all y) as [Hy|g Hy Fy|ky m' Hy Fy|ky m' Hy Fy];
    try (by intros db; rewrite !Hy);
    apply (key_commute _ _ _ _ _ _ Hx Hy); intros E o;
    (destruct (clash_false _ _ _ _ (apart_foot x y _ _ Hap Fx Fy)) as [?|(a & b & Ha & Hb & Hne)];
     [done|simplify_eq]).
  - apply add_add_comm.
  - by apply add_rem_comm.
  - symmetry. by apply add_rem_comm.
  - apply rem_rem_comm.
Qed.

(** A two-table log: a set of rows with its keyset, then a string. *)
Definition two_ops : list VfdwWriteOp :=
  [WriteOp None None VFDW_OP_INSERT 1 VFDW_TABLE_STRING 1 1 0 "a" None None None (Some "v1")
     None [] [] [] false None [] (Some "idx");
   WriteOp None None VFDW_OP_INSERT 2 VFDW_TABLE_SET 1 1 0 "s" None (Some "x") None
     None None [] [] [] false None [] None;
   WriteOp None None VFDW_OP_UPDATE 1 VFDW_TABLE_STRING 1 1 0 "a" None None None (Some "v2")
     None [] [] [] false None [] (Some "idx")].

Definition two_type (k : bytes) : VfdwTableType :=
  if bool_decide (k = "s") then VFDW_TABLE_SET else VFDW_TABLE_STRING.

Definition two_ledger : Ledger := (miter vfdw_ledger_note two_ops ledger_empty).2.

Definition two_cmd : VfdwCmd :=
  match vfdw_script_encode "5f3a" two_ledger (vfdw_cmd_init 32) with
  | Ok c => c | Raise _ => vfdw_cmd_init 32
  end.

Definition two_db : Db := default ∅ (snd <$> evalsha tiny undec (cmd_args two_cmd) ∅).

Lemma two_fits : ledger_fits two_ledger.
Proof. apply ledger_fits_dec. vm_compute. reflexivity. Qed.

Lemma two_typed : Forall (op_typed two_type) two_ops.
Proof. repeat constructor; intros old Ho; discriminate Ho. Qed.

(** The same command sent again: the key exists now, and nothing changes. *)
Lemma refusal_changes_nothing_witness :
  ∃ keys argv, keys ++ argv = drop 3 (cmd_args two_cmd) ∧
    (vfdw_script_src tiny undec keys argv two_db).2 = two_db.
Proof.
  exists (take 3 (drop 3 (cmd_args two_cmd))), (drop 6 (cmd_args two_cmd)).
  split; [vm_compute; reflexivity|].
  apply (refusal_changes_nothing tiny undec (take 3 (drop 3 (cmd_args two_cmd)))
           (drop 6 (cmd_args two_cmd)) two_db _
           (vfdw_script_src tiny undec (take 3 (drop 3 (cmd_args two_cmd)))
              (drop 6 (cmd_args two_cmd)) two_db).1).
  - exact tiny_reads_only.
  - apply surjective_pairing.
  - vm_compute. discriminate.
  - vm_compute. discriminate.
Defined.
