(* ===== verification/FlushCluster.v ===== *)
(** The one hash slot a transaction may write on a cluster
    (src/vfdw_flush_cluster.c), and what it guarantees of the command the
    encoder builds. *)
From S2P Require Import Prelude Slot Opcode WriteOp Ledger LedgerFacts LedgerActions Error.
From S2P Require Import Cmd Script ScriptEncode ScriptFacts ScriptSem ScriptEffect.
From stdpp Require Import list.
Local Open Scope Z_scope.

(** *slot and *firstkey. *)
Record SlotSeen := MkSeen { ss_slot : Z; ss_firstkey : bytes }.

Definition cross_slot : pg_error :=
  PgError ERRCODE_FEATURE_NOT_SUPPORTED
    "a transaction writing this Valkey Cluster spans more than one hash slot".

Definition vfdw_flush_slot_of (key : option bytes) (st : SlotSeen) : result SlotSeen :=
  match key with
  | None | Some "" => Ok st
  | Some k =>
      let this_slot := vfdw_val_slot k in
      if bool_decide (ss_slot st < 0) then Ok (MkSeen this_slot k)
      else if bool_decide (this_slot = ss_slot st) then Ok st
      else Raise cross_slot
  end.

Fixpoint cluster_loop (ops : list VfdwWriteOp) (st : SlotSeen) : result SlotSeen :=
  match ops with
  | [] => Ok st
  | op :: rest =>
      st ← vfdw_flush_slot_of (Some (op_key op)) st;
      st ← vfdw_flush_slot_of (op_oldkey op) st;
      st ← vfdw_flush_slot_of (op_keyset op) st;
      cluster_loop rest st
  end.

(** The slot the unit writes, or -1 when it writes nothing. *)
Definition vfdw_flush_cluster_slot (ops : list VfdwWriteOp) : result Z :=
  ss_slot <$> cluster_loop ops (MkSeen (-1) "").

(* ---------------------------------------------------------------- *)
(** ** Specification *)

Definition nonempty (o : option bytes) : list bytes :=
  match o with None | Some "" => [] | Some k => [k] end.

(** Every key an operation touches: its row's, the one it is renamed from, and
    its table's index. *)
Definition touched (op : VfdwWriteOp) : list bytes :=
  nonempty (Some (op_key op)) ++ nonempty (op_oldkey op) ++ nonempty (op_keyset op).

Definition touched_all (ops : list VfdwWriteOp) : list bytes := concat (touched <$> ops).

Definition one_slot (keys : list bytes) (st : SlotSeen) : result SlotSeen :=
  fold_left (λ r k, st ← r; vfdw_flush_slot_of (Some k) st) keys (Ok st).

Lemma fold_raise keys e :
  fold_left (λ r k, st ← r; vfdw_flush_slot_of (Some k) st) keys (Raise e) = Raise e.
Proof. by induction keys. Qed.

Lemma one_slot_app k1 k2 st : one_slot (k1 ++ k2) st = (st ← one_slot k1 st; one_slot k2 st).
Proof.
  unfold one_slot. rewrite fold_left_app.
  destruct (fold_left _ k1 (Ok st)) as [st'|e]; simpl; [done|apply fold_raise].
Qed.

Lemma slot_of_nonempty o st : vfdw_flush_slot_of o st = one_slot (nonempty o) st.
Proof. by destruct o as [[|c k]|]. Qed.

Lemma cluster_loop_one_slot ops st : cluster_loop ops st = one_slot (touched_all ops) st.
Proof.
  revert st. induction ops as [|op ops IH]; intros st; [done|].
  unfold touched_all. rewrite fmap_cons. cbn [concat cluster_loop]. fold (touched_all ops).
  unfold touched. rewrite <- !app_assoc.
  rewrite slot_of_nonempty, one_slot_app.
  destruct (one_slot (nonempty (Some (op_key op))) st) as [s1|e]; [|done]. cbn [mbind result_bind].
  rewrite slot_of_nonempty, one_slot_app.
  destruct (one_slot (nonempty (op_oldkey op)) s1) as [s2|e]; [|done]. cbn [mbind result_bind].
  rewrite slot_of_nonempty, one_slot_app.
  destruct (one_slot (nonempty (op_keyset op)) s2) as [s3|e]; [|done]. apply IH.
Qed.

Lemma slot_nonneg k : 0 ≤ vfdw_val_slot k.
Proof. unfold vfdw_val_slot. apply Z.land_nonneg. right. lia. Qed.

Lemma one_slot_seen keys st :
  0 ≤ ss_slot st → "" ∉ keys →
  one_slot keys st =
  (if forallb (λ k, bool_decide (vfdw_val_slot k = ss_slot st)) keys then Ok st else Raise cross_slot).
Proof.
  intros Hs. induction keys as [|k keys IH]; intros Hne; [done|].
  apply not_elem_of_cons in Hne as [Hk Hne].
  change (k :: keys) with ([k] ++ keys). rewrite one_slot_app.
  change (one_slot [k] st) with (vfdw_flush_slot_of (Some k) st).
  destruct k as [|c k]; [done|]. unfold vfdw_flush_slot_of.
  rewrite (bool_decide_false (ss_slot st < 0)) by lia. cbn [forallb app].
  case_bool_decide; simpl; [by apply IH|done].
Qed.

Lemma touched_nonempty ops : "" ∉ touched_all ops.
Proof.
  unfold touched_all. induction ops as [|op ops IH]; [apply not_elem_of_nil|].
  rewrite fmap_cons. cbn [concat]. rewrite not_elem_of_app. split; [|done].
  unfold touched. rewrite !not_elem_of_app.
  assert (Hn : ∀ o, "" ∉ nonempty o).
  { intros [[|c k]|]; simpl; [apply not_elem_of_nil| |apply not_elem_of_nil].
    rewrite not_elem_of_cons. split; [done|apply not_elem_of_nil]. }
  split_and!; apply Hn.
Qed.

(** The closed form of the check. *)
Lemma cluster_slot_eq ops :
  vfdw_flush_cluster_slot ops =
  match touched_all ops with
  | [] => Ok (-1)
  | k :: rest =>
      if forallb (λ k', bool_decide (vfdw_val_slot k' = vfdw_val_slot k)) rest
      then Ok (vfdw_val_slot k) else Raise cross_slot
  end.
Proof.
  unfold vfdw_flush_cluster_slot. rewrite cluster_loop_one_slot.
  pose proof (touched_nonempty ops) as Hne. destruct (touched_all ops) as [|k rest]; [done|].
  apply not_elem_of_cons in Hne as [Hk Hne].
  change (k :: rest) with ([k] ++ rest). rewrite one_slot_app.
  change (one_slot [k] (MkSeen (-1) "")) with (vfdw_flush_slot_of (Some k) (MkSeen (-1) "")).
  destruct k as [|c k]; [done|]. unfold vfdw_flush_slot_of. cbn [ss_slot].
  rewrite bool_decide_true by done. cbn [mbind result_bind].
  rewrite one_slot_seen by (done || apply slot_nonneg). simpl. by destruct (forallb _ rest).
Qed.

(* ---------------------------------------------------------------- *)
(** ** What the command declares *)

(** The key argument of a step is one of the operation's keys. *)
Definition key_arg_in (K : list bytes) (s : VfdwLedgerStep) : Prop :=
  vfdw_action_key_arg (st_op s) = 0 → ∀ a, st_args s !! 0%nat = Some a → a = "" ∨ a ∈ K.

Lemma key_arg_none K a args : vfdw_action_key_arg (action_code a) = -1 → key_arg_in K (act a args).
Proof. intros H. unfold key_arg_in. simpl. by rewrite H. Qed.

Lemma key_arg_some K a x args : x = "" ∨ x ∈ K → key_arg_in K (act a (x :: args)).
Proof. intros H _ b [= <-]. done. Qed.

Lemma in_nonempty k : k = "" ∨ k ∈ nonempty (Some k).
Proof. destruct k; [by left|]. right. by left. Qed.

Lemma keyset_args op k b : Forall (key_arg_in (touched op)) (keyset_actions op k b).
Proof.
  unfold keyset_actions. destruct (op_keyset op) as [ks|] eqn:E; [|by constructor].
  constructor; [|by constructor]. destruct b; apply key_arg_some; unfold touched; rewrite E;
    destruct (in_nonempty ks); auto; right; rewrite !elem_of_app; auto.
Qed.

Lemma rename_args op : Forall (key_arg_in (touched op)) (rename_actions op).
Proof.
  unfold rename_actions. destruct (op_oldkey op) as [old|] eqn:E; [|by constructor].
  destruct (vfdw_ledger_is_rename op); [|by constructor].
  apply Forall_app. split; [|apply Forall_app; split; apply keyset_args].
  constructor; [|by constructor]. apply key_arg_some. unfold touched. rewrite E.
  destruct (in_nonempty old); auto. right. rewrite !elem_of_app. auto.
Qed.

Lemma pair_args K l : Forall (key_arg_in K) (pair_actions l).
Proof.
  induction l as [l IH] using (induction_ltof1 _ (@length bytes)). unfold ltof in IH.
  destruct l as [|f [|v r]]; simpl; [by constructor..|].
  constructor; [by apply key_arg_none|]. apply IH. simpl. lia.
Qed.

Lemma op_args t op : Forall (key_arg_in (touched op)) (op_actions t op).
Proof.
  unfold op_actions. apply Forall_app. split; [apply rename_args|].
  destruct (deletes_key op).
  { constructor; [by apply key_arg_none|apply keyset_args]. }
  apply Forall_app. split; [|case_bool_decide; [apply keyset_args|by constructor]].
  destruct (op_packed_shape op).
  - unfold packed_actions. constructor; [by apply key_arg_none|].
    destruct (op_tabletype op); first [by constructor | apply pair_args |
      apply Forall_fmap, Forall_true; intros x; by apply key_arg_none].
  - unfold type_actions, member_actions, list_actions, field_action, ttl_action.
    destruct (op_tabletype op), (op_value op), (op_member op); rewrite ?Forall_app, ?Forall_fmap;
      repeat first [by constructor | by apply key_arg_none | case_bool_decide
                   | split; apply Forall_true; intros x; unfold compose; destruct (wa_isnull x)
                   | apply Forall_app; split | apply Forall_cons; split
                   | destruct (is_member_rename op _)].
Qed.

Lemma in_log_actions t ops k s :
  s ∈ log_actions_as t ops k → ∃ op, op ∈ ops ∧ s ∈ op_actions t op.
Proof.
  unfold log_actions_as. intros H. apply list_elem_of_In, in_concat in H as (acts & Ha & Hs).
  apply list_elem_of_In, list_elem_of_fmap in Ha as (op & -> & Hop).
  apply list_elem_of_filter in Hop as [_ Hop]. exists op. split; [done|by apply list_elem_of_In].
Qed.

Lemma touched_in op ops k : op ∈ ops → k ∈ touched op → k ∈ touched_all ops.
Proof.
  unfold touched_all. induction ops as [|o ops IH]; [by intros ?%not_elem_of_nil|].
  rewrite fmap_cons. cbn [concat]. rewrite elem_of_app, elem_of_cons. intros [->|Ho] Hk; auto.
Qed.

Lemma touched_within ops op :
  op ∈ ops → op_within (λ k _, k = "" ∨ k ∈ touched_all ops) op.
Proof.
  intros Hop. split.
  - destruct (in_nonempty (op_key op)) as [?|Hk]; [by left|right].
    apply (touched_in op ops); [done|]. unfold touched. rewrite !elem_of_app. auto.
  - intros old Ho. destruct (in_nonempty old) as [?|Hk]; [by left|right].
    apply (touched_in op ops); [done|]. unfold touched. rewrite Ho, !elem_of_app. auto.
Qed.

(** Everything a key table ends up with was declared by a plan or a step. *)
Lemma intern_keys t key x : x ∈ kt_keys (vfdw_keytable_intern t key).2 → x ∈ kt_keys t ∨ x = key.
Proof.
  unfold vfdw_keytable_intern. destruct (kt_bybytes t !! key); [by left|]. simpl.
  rewrite elem_of_app, list_elem_of_singleton. tauto.
Qed.

Lemma fold_keys {A} (P : bytes → Prop) (f : VfdwKeyTable → A → VfdwKeyTable) xs t :
  (∀ t a, a ∈ xs → (∀ x, x ∈ kt_keys t → P x) → ∀ x, x ∈ kt_keys (f t a) → P x) →
  (∀ x, x ∈ kt_keys t → P x) → ∀ x, x ∈ kt_keys (fold_left f xs t) → P x.
Proof.
  revert t. induction xs as [|a xs IH]; intros t Hf Ht x Hx; [by apply Ht|].
  apply (IH (f t a)); [intros t' b Hb; apply Hf; by right| |done].
  apply Hf; [by left|done].
Qed.

Lemma declare_step_keys (P : bytes → Prop) ka t s :
  (ka (st_op s) = 0 ∨ ka (st_op s) = -1) →
  (ka (st_op s) = 0 → ∀ a, st_args s !! 0%nat = Some a → P a) →
  (∀ x, x ∈ kt_keys t → P x) → ∀ x, x ∈ kt_keys (declare_step ka t s) → P x.
Proof.
  intros Hka Hs Ht x. unfold declare_step. destruct Hka as [E|E]; rewrite E; simpl; [|apply Ht].
  case_bool_decide; simpl; [|apply Ht]. change (Z.to_nat 0) with 0%nat.
  destruct (st_args s !! 0%nat) as [a|] eqn:Ea; [|apply Ht].
  intros [Hx| ->]%intern_keys; [by apply Ht|by apply Hs].
Qed.

Lemma declared_keys (P : bytes → Prop) l :
  (∀ pl, pl ∈ lg_plans l → P (kp_key pl) ∧
     (∀ s, s ∈ kp_checks pl → vfdw_check_key_arg (st_op s) = -1) ∧
     (∀ s, s ∈ kp_actions pl → vfdw_action_key_arg (st_op s) = 0 →
        ∀ a, st_args s !! 0%nat = Some a → P a)) →
  ∀ x, x ∈ kt_keys (declared l) → P x.
Proof.
  intros Hp. unfold declared. apply fold_keys.
  - intros t pl Hpl Ht. destruct (Hp pl Hpl) as (_ & Hc & Ha). unfold vfdw_script_declare_keys.
    apply fold_keys; [|apply fold_keys; [|done]].
    + intros t' s Hs. apply declare_step_keys; [apply (key_arg_cases true)|by apply Ha].
    + intros t' s Hs. apply declare_step_keys; [right; by apply Hc|].
      intros E. by rewrite Hc in E.
  - apply fold_keys; [|by intros x ?%not_elem_of_nil].
    intros t pl Hpl Ht x [Hx| ->]%intern_keys; [by apply Ht|by apply Hp].
Qed.

Lemma shape_no_key_checks pl s :
  plan_shape pl → s ∈ kp_checks pl → vfdw_check_key_arg (st_op s) = -1.
Proof.
  intros ((rest & -> & Hr) & _) Hs. rewrite elem_of_cons, elem_of_app in Hs.
  destruct Hs as [->|[Hs|Hs]]; [done| |].
  - destruct (kp_require pl); simpl in Hs; [by apply not_elem_of_nil in Hs|..];
      apply list_elem_of_singleton in Hs as ->; done.
  - destruct (proj1 (Forall_forall _ _) Hr s Hs) as [_ [H1 H2]]. unfold vfdw_check_key_arg.
    by rewrite !bool_decide_false by (simpl; lia).
Qed.

(** Every key the encoder declares is a key of the log. *)
Lemma declared_touched ops l k :
  miter vfdw_ledger_note ops ledger_empty = (Ok (), l) →
  k ∈ kt_keys (declared l) → k = "" ∨ k ∈ touched_all ops.
Proof.
  intros Hops. revert k. apply declared_keys. intros pl Hpl. pose proof (note_all_ok _ _ Hops) as Hok.
  pose proof (ledger_ok_shapes l Hok) as Hsh. rewrite Forall_forall in Hsh.
  split; [|split; [intros s; by apply shape_no_key_checks, Hsh|]].
  - set (R := λ (k : bytes) (t : VfdwTableType), k = "" ∨ k ∈ touched_all ops).
    assert (HR : plans_within R l).
    { pose proof (pres_miter (plans_within R) vfdw_ledger_note ops) as Hm.
      specialize (Hm (λ op Hop, types_note R op (touched_within ops op Hop))).
      specialize (Hm ledger_empty). rewrite Hops in Hm. apply Hm. by constructor. }
    exact (proj1 (Forall_forall _ _) HR pl Hpl).
  - intros s Hs Hk a Hargs. rewrite (plan_log_actions ops l pl Hops Hpl) in Hs.
    apply in_log_actions in Hs as (op & Hop & Ha).
    destruct (proj1 (Forall_forall _ _) (op_args _ op) s Ha Hk a Hargs); [by left|].
    right. by eapply touched_in.
Qed.

(* ---------------------------------------------------------------- *)
(** ** Property *)

(** C13: on a cluster the write is one command for one node.  When the check
    accepts a transaction and answers slot [s], every non-empty key of every
    operation - the row's, the one it is renamed from and the table's index -
    hashes to [s], and so does every non-empty key the encoder declares for the
    program, so the server cannot answer CROSSSLOT for them; when it refuses, two
    of them do hash differently.  The check skips an empty key, which is a key
    like any other to the server (empty_key_crosses_slots). *)
Theorem cluster_unit_is_one_slot (ops : list VfdwWriteOp) (l : Ledger) :
  miter vfdw_ledger_note ops ledger_empty = (Ok (), l) →
  match vfdw_flush_cluster_slot ops with
  | Ok s =>
      (∀ op k, op ∈ ops → k ∈ touched op → vfdw_val_slot k = s) ∧
      (∀ k, k ∈ kt_keys (declared l) → k ≠ "" → vfdw_val_slot k = s)
  | Raise e =>
      e = cross_slot ∧
      ∃ k1 k2, k1 ∈ touched_all ops ∧ k2 ∈ touched_all ops ∧ vfdw_val_slot k1 ≠ vfdw_val_slot k2
  end.
Proof.
  intros Hops. rewrite cluster_slot_eq.
  pose proof (declared_touched ops l) as Hd. pose proof touched_in as Hin.
  assert (Hall : ∀ s, (∀ k, k ∈ touched_all ops → vfdw_val_slot k = s) →
    (∀ op k, op ∈ ops → k ∈ touched op → vfdw_val_slot k = s) ∧
    (∀ k, k ∈ kt_keys (declared l) → k ≠ "" → vfdw_val_slot k = s)).
  { intros s Hs. split; [intros op k Ho Hk; apply Hs; by eapply Hin|].
    intros k Hk Hne. destruct (Hd k Hops Hk); [done|by apply Hs]. }
  destruct (touched_all ops) as [|k rest]; [apply Hall; by intros k ?%not_elem_of_nil|].
  destruct (forallb _ rest) eqn:E.
  - apply Hall. intros k' [->|Hk']%elem_of_cons; [done|]. rewrite forallb_forall in E.
    apply list_elem_of_In in Hk'. by apply E, bool_decide_eq_true in Hk'.
  - split; [done|]. apply not_true_iff_false in E. rewrite forallb_forall in E.
    assert (Hex : ¬ Forall (λ x, vfdw_val_slot x = vfdw_val_slot k) rest).
    { intros HF. apply E. intros x Hx. apply bool_decide_eq_true.
      by apply (proj1 (Forall_forall _ _) HF), list_elem_of_In. }
    apply not_Forall_Exists in Hex; [|intros x; apply _]. apply Exists_exists in Hex as (x & Hx & Hne).
    exists x, k. split_and!; [by right|by left|done].
Qed.

(** Two rows and an index under one tag; then the same without the tag. *)
Definition tagged_ops : list VfdwWriteOp :=
  [WriteOp None None VFDW_OP_INSERT 1 VFDW_TABLE_STRING 1 1 0 "{t}:a" None None None (Some "v")
     None [] [] [] false None [] (Some "{t}:idx");
   WriteOp None None VFDW_OP_UPDATE 1 VFDW_TABLE_STRING 1 1 0 "{t}:b" (Some "{t}:c") None None
     (Some "v") None [] [] [] false None [] (Some "{t}:idx")].

Definition tagged_ledger : Ledger := (miter vfdw_ledger_note tagged_ops ledger_empty).2.

Lemma cluster_unit_is_one_slot_witness :
  vfdw_flush_cluster_slot tagged_ops = Ok 15891 ∧
  kt_keys (declared tagged_ledger) = ["{t}:a"; "{t}:b"; "{t}:c"; "{t}:idx"] ∧
  (∀ k, k ∈ kt_keys (declared tagged_ledger) → k ≠ "" → vfdw_val_slot k = 15891).
Proof.
  split; [vm_compute; reflexivity|]. split; [vm_compute; reflexivity|].
  pose proof (cluster_unit_is_one_slot tagged_ops tagged_ledger ltac:(vm_compute; reflexivity)) as H.
  assert (E : vfdw_flush_cluster_slot tagged_ops = Ok 15891) by (vm_compute; reflexivity).
  rewrite E in H. exact (proj2 H).
Defined.

(** A row whose key is empty is not looked at: two rows whose keys hash to
    different slots, of which one is the empty key, pass the check, and both keys
    are declared for the one command. *)
Definition empty_key_ops : list VfdwWriteOp :=
  (λ k, WriteOp None None VFDW_OP_INSERT 1 VFDW_TABLE_STRING 1 1 0 k None None None (Some "v")
     None [] [] [] false None [] None) <$> [""; "b"].

Theorem empty_key_crosses_slots :
  vfdw_flush_cluster_slot empty_key_ops = Ok 3300 ∧
  kt_keys (declared (miter vfdw_ledger_note empty_key_ops ledger_empty).2) = [""; "b"] ∧
  vfdw_val_slot "b" = 3300 ∧ vfdw_val_slot "" = 0.
Proof. split_and!; vm_compute; reflexivity. Qed.
