(* ===== verification/Flush.v ===== *)
(** Applying a transaction's writes at pre-commit (src/vfdw_flush.c).

    The file's statics are [FlushVars]; the connection the unit runs on, with
    the batch in use, is the other half of the state.  The detail and hint lines
    of an error are not part of [pg_error]; its context line is a function of the
    phase the error leaves behind. *)
From S2P Require Import Prelude Slot Opcode WriteOp Ledger Error Cmd Script ScriptEncode.
From S2P Require Import FlushCluster.
Local Open Scope Z_scope.

Inductive VfdwFlushPhase := VFDW_FLUSH_BEFORE_SEND | VFDW_FLUSH_SENT | VFDW_FLUSH_PROVEN_CLEAN.

#[global] Instance VfdwFlushPhase_eq_dec : EqDecision VfdwFlushPhase.
Proof. solve_decision. Defined.

Record FlushVars := MkFlushVars {
  fv_flushed : bool;
  fv_ncalls : Z;
  fv_nempty : Z;
  fv_nflushes : Z;
  fv_nretries : Z;
  fv_batches_begun : Z;
  fv_batches_ended : Z;
  fv_phase : VfdwFlushPhase;
}.

Definition flush_vars_init : FlushVars := MkFlushVars false 0 0 0 0 0 0 VFDW_FLUSH_BEFORE_SEND.

Definition set_flushed (b : bool) (v : FlushVars) : FlushVars :=
  MkFlushVars b (fv_ncalls v) (fv_nempty v) (fv_nflushes v) (fv_nretries v)
    (fv_batches_begun v) (fv_batches_ended v) (fv_phase v).
Definition set_phase (p : VfdwFlushPhase) (v : FlushVars) : FlushVars :=
  MkFlushVars (fv_flushed v) (fv_ncalls v) (fv_nempty v) (fv_nflushes v) (fv_nretries v)
    (fv_batches_begun v) (fv_batches_ended v) p.
Definition inc_ncalls (v : FlushVars) : FlushVars :=
  MkFlushVars (fv_flushed v) (u64 (fv_ncalls v + 1)) (fv_nempty v) (fv_nflushes v) (fv_nretries v)
    (fv_batches_begun v) (fv_batches_ended v) (fv_phase v).
Definition inc_nempty (v : FlushVars) : FlushVars :=
  MkFlushVars (fv_flushed v) (fv_ncalls v) (u64 (fv_nempty v + 1)) (fv_nflushes v) (fv_nretries v)
    (fv_batches_begun v) (fv_batches_ended v) (fv_phase v).
Definition inc_nflushes (v : FlushVars) : FlushVars :=
  MkFlushVars (fv_flushed v) (fv_ncalls v) (fv_nempty v) (u64 (fv_nflushes v + 1)) (fv_nretries v)
    (fv_batches_begun v) (fv_batches_ended v) (fv_phase v).
Definition inc_nretries (v : FlushVars) : FlushVars :=
  MkFlushVars (fv_flushed v) (fv_ncalls v) (fv_nempty v) (fv_nflushes v) (u64 (fv_nretries v + 1))
    (fv_batches_begun v) (fv_batches_ended v) (fv_phase v).
Definition inc_begun (v : FlushVars) : FlushVars :=
  MkFlushVars (fv_flushed v) (fv_ncalls v) (fv_nempty v) (fv_nflushes v) (fv_nretries v)
    (u64 (fv_batches_begun v + 1)) (fv_batches_ended v) (fv_phase v).
Definition inc_ended (v : FlushVars) : FlushVars :=
  MkFlushVars (fv_flushed v) (fv_ncalls v) (fv_nempty v) (fv_nflushes v) (fv_nretries v)
    (fv_batches_begun v) (u64 (fv_batches_ended v + 1)) (fv_phase v).

(** The context line every error of the region carries. *)
Definition vfdw_flush_errcontext (p : VfdwFlushPhase) : string :=
  if bool_decide (p = VFDW_FLUSH_SENT)
  then "valkey_fdw pre-commit flush; the Valkey write may or may not have been applied."
  else "valkey_fdw pre-commit flush; no changes were applied in Valkey.".

Inductive VfdwFlushOutcome := VFDW_FLUSH_APPLIED | VFDW_FLUSH_RETRY_NOSCRIPT | VFDW_FLUSH_RETRY_BUSY.

#[global] Instance VfdwFlushOutcome_eq_dec : EqDecision VfdwFlushOutcome.
Proof. solve_decision. Defined.

(* ---------------------------------------------------------------- *)
(** ** Reading the reply *)

Definition vfdw_flush_proofs : list bytes :=
  ["NOSCRIPT"; "MOVED"; "ASK"; "CROSSSLOT"; "NOPERM"; "OOM"; "TRYAGAIN";
   "LOADING"; "BUSYGROUP"; "READONLY"; "MASTERDOWN"; "NOREPLICAS"].

Definition vfdw_flush_proves_not_applied (reply : Reply) : bool :=
  existsb (λ p, vfdw_reply_has_prefix (Some reply) p) vfdw_flush_proofs.

Definition vfdw_flush_is_retryable (reply : Reply) : bool :=
  vfdw_reply_has_prefix (Some reply) "TRYAGAIN" || vfdw_reply_has_prefix (Some reply) "LOADING".

Definition indeterminate : pg_error :=
  PgError ERRCODE_TRANSACTION_RESOLUTION_UNKNOWN "the outcome of the Valkey write is unknown".

Section flush.
Context (verify_mbstr : bytes → bool) (encoding : string).
Context {P : Type} (serve : list bytes → P → Reply * P).

Record FlushState := MkFS { fs_vars : FlushVars; fs_bs : BatchState (P := P) }.

Definition on_vars (f : FlushVars → FlushVars) : M FlushState unit :=
  modify (λ s, MkFS (f (fs_vars s)) (fs_bs s)).

Definition on_batch {A} (m : M (BatchState (P := P)) A) : M FlushState A := λ s,
  let '(r, b) := m (fs_bs s) in (r, MkFS (fs_vars s) b).

Definition on_result {A} (r : result A) : M FlushState A := λ s, (r, s).

Definition vfdw_flush_error_indeterminate {A} (cause : bytes) : M FlushState A :=
  raise indeterminate.

Definition vfdw_flush_error_sentinel {A} (verdict : VfdwScriptVerdict) : M FlushState A :=
  on_vars (set_phase VFDW_FLUSH_PROVEN_CLEAN);;;
  raise
    match verdict with
    | VFDW_SCRIPT_CONFLICT => PgError ERRCODE_UNIQUE_VIOLATION
        "a key this transaction creates already exists in Valkey"
    | VFDW_SCRIPT_MISSING => PgError ERRCODE_T_R_SERIALIZATION_FAILURE
        "a key this transaction updates was removed concurrently"
    | VFDW_SCRIPT_WRONGTYPE => PgError ERRCODE_DATATYPE_MISMATCH
        "a key holds a different Valkey type than its table declares"
    | _ => PgError ERRCODE_INTERNAL_ERROR
        "the Valkey write program rejected its own arguments"
    end.

Definition vfdw_flush_error_internal {A} : M FlushState A :=
  raise (PgError ERRCODE_INTERNAL_ERROR "the Valkey write was only partially applied").

Definition vfdw_flush_classify_error (reply : Reply) : M FlushState VfdwFlushOutcome :=
  if vfdw_reply_has_prefix (Some reply) "NOSCRIPT" then mret VFDW_FLUSH_RETRY_NOSCRIPT else
  if vfdw_flush_is_retryable reply then mret VFDW_FLUSH_RETRY_BUSY else
  let verdict := (vfdw_script_classify (r_str reply)).1 in
  if bool_decide (verdict = VFDW_SCRIPT_INTERNAL) then vfdw_flush_error_internal else
  if negb (bool_decide (verdict = VFDW_SCRIPT_UNKNOWN)) then vfdw_flush_error_sentinel verdict else
  if vfdw_flush_proves_not_applied reply then
    on_vars (set_phase VFDW_FLUSH_PROVEN_CLEAN);;;
    raise (vfdw_error_from_reply verify_mbstr encoding (Some reply) "the Valkey write was refused")
  else
    vfdw_flush_error_indeterminate (vfdw_error_reply_text verify_mbstr encoding (Some reply)).1.

Definition vfdw_flush_classify (reply : option Reply) (nplans : Z)
    : M FlushState VfdwFlushOutcome :=
  match reply with
  | None => vfdw_flush_error_indeterminate "no reply was received for the write program"
  | Some r =>
      if bool_decide (r_type r = VALKEY_REPLY_ERROR) then vfdw_flush_classify_error r else
      on_result (vfdw_reply_expect reply (VFDW_RTYPE VALKEY_REPLY_STATUS) "Valkey write failed");;;
      let '(verdict, detail) := vfdw_script_classify (r_str r) in
      if negb (bool_decide (verdict = VFDW_SCRIPT_OK)) then
        vfdw_flush_error_indeterminate
          "the write program returned a status this build does not recognise"
      else if negb (bool_decide (detail = Some (dec nplans))) then
        vfdw_flush_error_indeterminate
          "the write program applied a different number of plans than were sent"
      else mret VFDW_FLUSH_APPLIED
  end.

(* ---------------------------------------------------------------- *)
(** ** One attempt *)

(** The program's text and digest (src/vfdw_script.c). *)
Context (script_text sha1 : bytes) (pipeline_batch : Z) (l : Ledger).

Definition load_cmd : VfdwCmd :=
  vfdw_cmd_add_cstr (vfdw_cmd_add_cstr (vfdw_cmd_add_cstr (vfdw_cmd_init 3) "SCRIPT") "LOAD")
    script_text.

Definition vfdw_conn_script_loaded (s : FlushState) : bool := cn_script_loaded (bs_conn (fs_bs s)).

Definition vfdw_conn_set_script_loaded (b : bool) : M FlushState unit :=
  modify (λ s, MkFS (fs_vars s) (MkBS (bs_batch (fs_bs s))
    (let c := bs_conn (fs_bs s) in
     MkConn (cn_peer c) (cn_out c) (cn_in c) (cn_in_conversation c) b (cn_faults c)))).

Definition check_loaded (loaded : option Reply) : M FlushState unit :=
  match loaded with
  | Some r =>
      when (bool_decide (r_type r = VALKEY_REPLY_ERROR))
        (on_vars (set_phase VFDW_FLUSH_PROVEN_CLEAN);;;
         raise (vfdw_error_from_reply verify_mbstr encoding loaded
                  "could not load the Valkey write program"))
  | None => mret ()
  end.

Definition vfdw_flush_attempt (nplans : Z) (force_load : bool) : M FlushState VfdwFlushOutcome :=
  s ← get;
  let load := force_load || negb (vfdw_conn_script_loaded s) in
  modify (λ s, MkFS (fs_vars s) (vfdw_batch_begin pipeline_batch (bs_conn (fs_bs s))));;;
  on_vars inc_begun;;;
  when load (on_batch (vfdw_batch_add serve load_cmd));;;
  (cmd ← on_result (vfdw_script_encode sha1 l (vfdw_cmd_init 32));
   on_batch (vfdw_batch_add serve cmd);;;
   on_vars (set_phase VFDW_FLUSH_SENT);;;
   when load (loaded ← on_batch (vfdw_batch_next serve); check_loaded loaded);;;
   (reply ← on_batch (vfdw_batch_next serve);
    outcome ← vfdw_flush_classify reply nplans;
    when (bool_decide (outcome = VFDW_FLUSH_APPLIED) && load) (vfdw_conn_set_script_loaded true);;;
    on_batch (vfdw_batch_end serve);;;
    on_vars inc_ended;;;
    mret outcome)).

(* ---------------------------------------------------------------- *)
(** ** The retry loop *)

Definition noscript_again : pg_error :=
  PgError ERRCODE_INTERNAL_ERROR "Valkey does not have the write program after loading it".

Definition too_busy : pg_error :=
  PgError ERRCODE_T_R_SERIALIZATION_FAILURE "Valkey was too busy to apply the write".

(** [for (;;)]; [false] is running out of fuel, which the loop's own budget
    excludes. *)
Fixpoint run_loop (fuel : nat) (nplans max_retries busy_retries : Z) (force_load : bool)
    : M FlushState bool :=
  match fuel with
  | O => mret false
  | S n =>
      outcome ← vfdw_flush_attempt nplans force_load;
      if bool_decide (outcome = VFDW_FLUSH_APPLIED) then mret true else
      on_vars inc_nretries;;;
      on_vars (set_phase VFDW_FLUSH_BEFORE_SEND);;;
      if bool_decide (outcome = VFDW_FLUSH_RETRY_NOSCRIPT) then
        if force_load then raise noscript_again
        else vfdw_conn_set_script_loaded false;;; run_loop n nplans max_retries busy_retries true
      else
        if bool_decide (max_retries ≤ busy_retries) then raise too_busy
        else run_loop n nplans max_retries (busy_retries + 1) force_load
  end.

Definition run_fuel (max_retries : Z) : nat := (Z.to_nat max_retries + 2)%nat.

Definition vfdw_flush_run (nplans max_retries : Z) : M FlushState bool :=
  run_loop (run_fuel max_retries) nplans max_retries 0 false.

(* ---------------------------------------------------------------- *)
(** ** The flush *)

(** elevel >= FATAL, and the backend's pending interrupts. *)
Context (fatal : pg_error → bool) (QueryCancelPending ProcDiePending : bool).

Definition vfdw_flush_rethrow_indeterminate (e : pg_error) (phase : VfdwFlushPhase) : pg_error :=
  let code := pe_code e in
  if negb (bool_decide (phase = VFDW_FLUSH_SENT)) || fatal e ||
     bool_decide (code = ERRCODE_QUERY_CANCELED) ||
     bool_decide (code = ERRCODE_ADMIN_SHUTDOWN) ||
     bool_decide (code = ERRCODE_TRANSACTION_RESOLUTION_UNKNOWN) ||
     bool_decide (code = ERRCODE_UNIQUE_VIOLATION) ||
     bool_decide (code = ERRCODE_T_R_SERIALIZATION_FAILURE) ||
     bool_decide (code = ERRCODE_DATATYPE_MISMATCH) ||
     bool_decide (code = ERRCODE_INTERNAL_ERROR) ||
     QueryCancelPending || ProcDiePending
  then e else indeterminate.

(** PG_TRY around the loop. *)
Definition try_run (nplans max_retries : Z) : M FlushState bool := λ s,
  match vfdw_flush_run nplans max_retries s with
  | (Ok b, s) => (Ok b, s)
  | (Raise e, s) => (Raise (vfdw_flush_rethrow_indeterminate e (fv_phase (fs_vars s))), s)
  end.

(** [acquire] is [vfdw_flush_acquire]: it hands over the connection the unit
    runs on, or raises. *)
Definition vfdw_flush_pre_commit (empty : bool) (acquire : result (Conn (P := P)))
    (write_retry_count : Z) : M FlushState unit :=
  on_vars inc_ncalls;;;
  if empty then on_vars inc_nempty;;; on_vars (set_flushed true) else
  on_vars (set_phase VFDW_FLUSH_BEFORE_SEND);;;
  (vconn ← on_result acquire;
   modify (λ s, MkFS (fs_vars s) (MkBS (bs_batch (fs_bs s)) vconn));;;
   try_run (vfdw_ledger_nplans l) write_retry_count;;;
   on_vars (set_flushed true);;;
   on_vars inc_nflushes).
End flush.

Definition vfdw_flush_done (v : FlushVars) : bool := fv_flushed v.
Definition vfdw_flush_reset (v : FlushVars) : FlushVars :=
  set_phase VFDW_FLUSH_BEFORE_SEND (set_flushed false v).
Definition vfdw_flush_calls (v : FlushVars) : Z := fv_ncalls v.
Definition vfdw_flush_empty_returns (v : FlushVars) : Z := fv_nempty v.
Definition vfdw_flush_flushes (v : FlushVars) : Z := fv_nflushes v.
Definition vfdw_flush_retries (v : FlushVars) : Z := fv_nretries v.
Definition vfdw_flush_batches_opened (v : FlushVars) : Z := fv_batches_begun v.
Definition vfdw_flush_batches_closed (v : FlushVars) : Z := fv_batches_ended v.

(* ---------------------------------------------------------------- *)
(** ** Where the unit runs *)

(** The slot map of src/vfdw_cluster.c as far as the flush reads it. *)
Record NodeAddr := MkNode { nd_host : bytes; nd_port : Z }.
Record OwnerMap := MkOwnerMap { om_nodes : list NodeAddr; om_owner : Z → Z }.

(** What the connection cache offers the flush; [W] is its state and [C] a
    connection. *)
Class ConnCache (W C : Type) := {
  vfdw_conn_peek : W → option C;
  vfdw_get_connection : M W C;
  vfdw_get_connection_cluster : M W C;
  vfdw_get_connection_node : bytes → Z → M W C;
  vfdw_release_connection : C → M W unit;
  vfdw_cluster_map : C → M W OwnerMap;
  vfdw_conn_select_db : C → Z → M W unit;
}.

Section connect.
Context {W C : Type} `{!ConnCache W C}.

Definition vfdw_flush_connect (cluster : bool) (ops : list VfdwWriteOp) : M W C :=
  if negb cluster then vfdw_get_connection else
  λ w,
  match vfdw_flush_cluster_slot ops with
  | Raise e => (Raise e, w)
  | Ok slot =>
      (vconn ← vfdw_get_connection_cluster;
       if bool_decide (slot < 0) then mret vconn else
       map ← vfdw_cluster_map vconn;
       match (if bool_decide (om_owner map slot < 0) then None
              else om_nodes map !! Z.to_nat (om_owner map slot)) with
       | None => mret vconn
       | Some node =>
           vfdw_release_connection vconn;;;
           vfdw_get_connection_node (nd_host node) (nd_port node)
       end) w
  end.

Definition vfdw_flush_acquire (cluster : bool) (database : Z) (ops : list VfdwWriteOp) : M W C :=
  w ← get;
  match vfdw_conn_peek w with
  | Some _ => raise (elog_error "valkey_fdw: connection left in conversation at pre-commit")
  | None =>
      vconn ← vfdw_flush_connect cluster ops;
      vfdw_conn_select_db vconn database;;;
      mret vconn
  end.
End connect.
