(* ===== verification/FlushFacts.v ===== *)
(** What the flush may say about the database: an error that claims "no changes
    were applied" leaves it as it was, and a flush that returns applied the unit
    exactly once (src/vfdw_flush.c over src/vfdw_cmd.c). *)
From S2P Require Import Prelude Slot Opcode WriteOp Ledger LedgerFacts Error Cmd CmdFacts.
From S2P Require Import Script ScriptEncode ScriptFacts FlushCluster Flush.
From stdpp Require Import list.
Local Open Scope Z_scope.

(** An error reply the flush takes as proof that the program wrote nothing. *)
Definition refusal (r : Reply) : bool :=
  bool_decide (r_type r = VALKEY_REPLY_ERROR) &&
  (vfdw_flush_proves_not_applied r ||
   match (vfdw_script_classify (r_str r)).1 with
   | VFDW_SCRIPT_UNKNOWN | VFDW_SCRIPT_INTERNAL => false
   | _ => true
   end).

(** What the flush relies on of the server: loading a program writes nothing,
    and neither does an EVALSHA that is answered with a refusal. *)
Class TruthfulServer {P Db : Type} (serve : list bytes → P → Reply * P) (db_of : P → Db)
    (script_text : bytes) : Prop := {
  ts_load : ∀ p, db_of (serve (cmd_args (load_cmd script_text)) p).2 = db_of p;
  ts_refused : ∀ args p, refusal (serve ("EVALSHA" :: args) p).1 = true →
    db_of (serve ("EVALSHA" :: args) p).2 = db_of p;
}.

(** What reporting a failed load as "nothing applied" takes for granted: that a
    server which refuses to load the program does not have it either.  It is the
    hypothesis of that one error, not of the flush. *)
Definition load_refused_means_absent {P Db : Type} (serve : list bytes → P → Reply * P)
    (db_of : P → Db) (script_text : bytes) : Prop :=
  ∀ p args, r_type (serve (cmd_args (load_cmd script_text)) p).1 = VALKEY_REPLY_ERROR →
    db_of (serve ("EVALSHA" :: args) (serve (cmd_args (load_cmd script_text)) p).2).2 = db_of p.

Section facts.
Context {P Db : Type} (serve : list bytes → P → Reply * P) (db_of : P → Db).

(* ---------------------------------------------------------------- *)
(** ** Batches whose commands write nothing *)

Definition harmless (cmd : list bytes) : Prop := ∀ p, db_of (serve cmd p).2 = db_of p.

Definition peer_db (s : BatchState (P := P)) : Db := db_of (cn_peer (bs_conn s)).
Definition out (s : BatchState (P := P)) : list (list bytes) := cn_out (bs_conn s).

Lemma deliver_harmless cmds p : Forall harmless cmds → db_of (deliver serve cmds p).2 = db_of p.
Proof.
  revert p. induction cmds as [|c cmds IH]; intros p H; [done|].
  apply Forall_cons in H as [H1 H2]. simpl. specialize (H1 p).
  destruct (serve c p) as [r p1]. specialize (IH p1 H2).
  destruct (deliver serve cmds p1) as [rs p2]. simpl in *. congruence.
Qed.

(** A flush that fails fails before the last command is out. *)
Lemma flush_raise s e s' :
  vfdw_batch_flush serve s = (Raise e, s') →
  ∃ n, (n ≤ length (out s) - 1)%nat ∧
    cn_peer (bs_conn s') = (deliver serve (take n (out s)) (cn_peer (bs_conn s))).2.
Proof.
  unfold vfdw_batch_flush. rewrite gets_bind. case_bool_decide; [done|].
  unfold mbind, M_bind, on_conn. destruct (wire_flush serve (bs_conn s)) as [[[]|e'] c] eqn:E; [done|].
  intros [= <- <-]. unfold wire_flush in E.
  destruct (head (cn_faults (bs_conn s))) as [[f|]|];
    [|by destruct (deliver serve (cn_out (bs_conn s)) _)..].
  exists (f_delivered f `min` (length (out s) - 1))%nat. split; [lia|]. unfold out.
  destruct (deliver serve (take _ (cn_out (bs_conn s))) _) as [rs p]. by injection E as <- <-.
Qed.

Lemma append_cases cmd s :
  (∃ f, on_conn (wire_append cmd) s = (Ok (), MkBS (bs_batch s) (set_wire (cn_peer (bs_conn s))
     (out s ++ [cmd]) (cn_in (bs_conn s)) f (bs_conn s)))) ∨
  (∃ e s', on_conn (wire_append cmd) s = (Raise e, s') ∧ cn_peer (bs_conn s') = cn_peer (bs_conn s)).
Proof.
  unfold on_conn, wire_append.
  destruct (head (cn_faults (bs_conn s))) as [[f|]|]; [right|left|left]; eauto.
Qed.

(** Queueing a command fails only before that command is out. *)
Lemma add_raise cmd s e s' :
  Forall harmless (out s) → vfdw_batch_add serve cmd s = (Raise e, s') → peer_db s' = peer_db s.
Proof.
  intros Ho. unfold vfdw_batch_add, mbind at 1, M_bind at 1.
  destruct (append_cases (cmd_args cmd) s) as [[f ->]|(e1 & s1 & -> & Hp)].
  - unfold set_batch. rewrite modify_bind, gets_bind. unfold when.
    case_bool_decide; [|done]. intros H1. apply flush_raise in H1 as (n & Hn & Hp).
    unfold peer_db. rewrite Hp. unfold out in *. simpl in *. rewrite length_app in Hn. simpl in Hn.
    rewrite take_app_le by lia. apply deliver_harmless. by apply Forall_take.
  - intros [= <- <-]. unfold peer_db. by rewrite Hp.
Qed.

Lemma add_harmless cmd s s' :
  counted s → Forall harmless (out s) → harmless (cmd_args cmd) →
  vfdw_batch_add serve cmd s = (Ok (), s') →
  Forall harmless (out s') ∧ peer_db s' = peer_db s.
Proof.
  intros Hc Ho Hh H. unfold vfdw_batch_add, mbind at 1, M_bind at 1 in H.
  destruct (append_cases (cmd_args cmd) s) as [[f E]|(e1 & s1 & E & Hp)]; rewrite E in H; [|done].
  unfold set_batch in H. rewrite modify_bind, gets_bind in H. unfold when in H.
  assert (Ho' : Forall harmless (out s ++ [cmd_args cmd])).
  { apply Forall_app. split; [done|]. by constructor. }
  case_bool_decide; [|by injection H as <-].
  match type of H with vfdw_batch_flush _ ?x = _ => set (s1 := x) in * end.
  assert (Hc1 : counted s1).
  { destruct Hc as [Hq Hi]. split; simpl; [|done]. unfold out. rewrite length_app. simpl. lia. }
  destruct (flush_spec serve s1 s' Hc1 H) as (_ & Hown & Hout & _).
  split; [unfold out; rewrite Hout; by constructor|]. unfold peer_db.
  assert (Hp : cn_peer (bs_conn s') = (deliver serve (out s ++ [cmd_args cmd])
    (cn_peer (bs_conn s))).2).
  { apply (f_equal snd) in Hown. unfold owing in Hown. rewrite Hout in Hown. simpl in Hown.
    rewrite Hown. unfold s1. simpl. by destruct (deliver serve (out s ++ _) _). }
  rewrite Hp. by apply deliver_harmless.
Qed.

(** After a reply has been taken nothing is buffered. *)
Lemma next_out s r s' :
  counted s → vfdw_batch_next serve s = (Ok r, s') →
  out s' = [] ∧ cn_peer (bs_conn s') = (owing serve s).2.
Proof.
  intros Hc H. destruct (next_spec serve s r s' Hc H) as (_ & _ & _ & Hown & _).
  assert (Ho : out s' = []).
  { unfold vfdw_batch_next, set_batch in H. rewrite modify_bind in H.
    destruct (bind_ok _ _ _ _ _ H) as ([] & s1 & H1 & H2).
    destruct (flush_spec serve (MkBS (set_current None (bs_batch s)) (bs_conn s)) s1 Hc H1) as (_ & _ & Hout & _).
    rewrite gets_bind in H2. case_bool_decide; [by injection H2 as <- <-|].
    destruct (bind_ok _ _ _ _ _ H2) as (r1 & s2 & H3 & H4). injection H4 as <- <-.
    unfold on_conn, wire_take in H3.
    destruct (head (cn_faults (bs_conn s1))) as [[f|]|], (cn_in (bs_conn s1)); simplify_eq; exact Hout. }
  split; [done|]. rewrite <- Hown. unfold owing. unfold out in Ho. rewrite Ho. done.
Qed.

(** Ending a batch that owes nothing touches nothing but the flag. *)
Lemma end_clean s :
  vfdw_batch_pending s = 0 →
  vfdw_batch_end serve s = (Ok (), MkBS (set_current None (bs_batch s))
    (set_conversation false (bs_conn s))).
Proof. intros H. unfold vfdw_batch_end. unfold get, mbind, M_bind. by rewrite H. Qed.
End facts.

(** A mask of one type admits that type only. *)
Lemma rtype_mask a t : 0 ≤ a → Z.land (VFDW_RTYPE a) (VFDW_RTYPE t) ≠ 0 → t = a.
Proof.
  intros Ha Hm. destruct (decide (t = a)) as [|Hne]; [done|]. destruct Hm. unfold VFDW_RTYPE.
  destruct (decide (0 ≤ t)) as [Ht|Ht].
  - rewrite !Z.shiftl_1_l. apply Z.bits_inj'. intros n Hn.
    rewrite Z.land_spec, Z.bits_0, !Z.pow2_bits_eqb by done.
    destruct (Z.eqb_spec a n), (Z.eqb_spec t n); try done. congruence.
  - rewrite (Z.shiftl_div_pow2 1 t) by lia. rewrite Z.div_small, Z.land_0_r; [done|].
    split; [lia|]. apply Z.pow_gt_1; lia.
Qed.

(* ---------------------------------------------------------------- *)
(** ** One attempt *)

Section wp.
Context {P : Type}.

Lemma wp_on_batch {A} (m : M (BatchState (P := P)) A) Q E (s : FlushState (P := P)) :
  wp m (λ a b, Q a (MkFS (fs_vars s) b)) (λ e b, E e (MkFS (fs_vars s) b)) (fs_bs s) →
  wp (on_batch m) Q E s.
Proof. unfold wp, on_batch. by destruct (m (fs_bs s)) as [[a|e] b]. Qed.

Lemma wp_on_vars f Q (E : pg_error → FlushState (P := P) → Prop) s :
  Q () (MkFS (f (fs_vars s)) (fs_bs s)) → wp (on_vars f) Q E s.
Proof. done. Qed.

Lemma wp_on_result {A} (r : result A) Q (E : pg_error → FlushState (P := P) → Prop) s :
  (∀ a, r = Ok a → Q a s) → (∀ e, r = Raise e → E e s) → wp (on_result r) Q E s.
Proof. unfold wp, on_result. destruct r; auto. Qed.

Lemma wp_get {S} Q (E : pg_error → S → Prop) s : Q s s → wp get Q E s.
Proof. done. Qed.

Lemma wp_modify {S} (f : S → S) Q (E : pg_error → S → Prop) s : Q () (f s) → wp (modify f) Q E s.
Proof. done. Qed.

Lemma wp_intro {S A} (m : M S A) (Q : A → S → Prop) (E : pg_error → S → Prop) s :
  (∀ a s', m s = (Ok a, s') → Q a s') → (∀ e s', m s = (Raise e, s') → E e s') → wp m Q E s.
Proof. unfold wp. destruct (m s) as [[a|e] s']; auto. Qed.
End wp.

Section attempt.
Context (verify_mbstr : bytes → bool) (encoding : string).
Context {P Db : Type} (serve : list bytes → P → Reply * P) (db_of : P → Db).
Context (script_text sha1 : bytes) (pipeline_batch : Z) (l : Ledger).
Context `{!TruthfulServer serve db_of script_text}.
Hypothesis Hl : ledger_ok l.

(** What holds of the database where the flush raises: the program is on its way,
    or nothing was written - the latter, for the error of a refused load, only on
    a server that has no program it refuses to load. *)
Definition load_failed : string := "could not load the Valkey write program".

Definition unwritten (e : pg_error) (p : P) (s : FlushState (P := P)) : Prop :=
  fv_phase (fs_vars s) = VFDW_FLUSH_SENT ∨
  ((pe_msg e = load_failed → load_refused_means_absent serve db_of script_text) →
   db_of (cn_peer (bs_conn (fs_bs s))) = db_of p).

Lemma unwritten_same e p s : peer_db db_of (fs_bs s) = db_of p → unwritten e p s.
Proof. intros H. by right. Qed.

Lemma proves_prefix r p :
  p ∈ vfdw_flush_proofs → vfdw_reply_has_prefix (Some r) p = true → refusal r = true.
Proof.
  intros Hp Hr. unfold refusal.
  assert (Ht : vfdw_reply_is_error (Some r) = true).
  { unfold vfdw_reply_has_prefix in Hr. by destruct (vfdw_reply_is_error (Some r)). }
  simpl in Ht. rewrite Ht. simpl. apply orb_true_iff. left.
  apply existsb_exists. exists p. split; [by apply list_elem_of_In|done].
Qed.

Lemma classify_error_wp r s :
  r_type r = VALKEY_REPLY_ERROR →
  wp (vfdw_flush_classify_error verify_mbstr encoding (P := P) r)
    (λ o s', s' = s ∧ o ≠ VFDW_FLUSH_APPLIED ∧ refusal r = true)
    (λ e s', fs_bs s' = fs_bs s ∧
       (fv_phase (fs_vars s') = fv_phase (fs_vars s) ∨ refusal r = true)) s.
Proof.
  intros Ht. unfold vfdw_flush_classify_error.
  destruct (vfdw_reply_has_prefix (Some r) "NOSCRIPT") eqn:E1.
  { apply wp_ret. split_and!; [done|done|]. eapply proves_prefix; [|done]. by left. }
  destruct (vfdw_flush_is_retryable r) eqn:E2.
  { apply wp_ret. split_and!; [done|done|]. apply orb_true_iff in E2 as [E2|E2];
      (eapply proves_prefix; [|exact E2]); unfold vfdw_flush_proofs; rewrite !elem_of_cons; tauto. }
  assert (Hv : ∀ v, (vfdw_script_classify (r_str r)).1 = v → v ≠ VFDW_SCRIPT_INTERNAL →
    v ≠ VFDW_SCRIPT_UNKNOWN → refusal r = true).
  { intros v <- H1 H2. unfold refusal. rewrite bool_decide_true by done. simpl.
    apply orb_true_iff. right. by destruct (vfdw_script_classify (r_str r)).1. }
  case_bool_decide as Hi; [by split; [|left]|].
  case_bool_decide as Hu; simpl.
  - destruct (vfdw_flush_proves_not_applied r) eqn:Ep; [|by split; [|left]].
    split; [done|]. right. unfold refusal. by rewrite bool_decide_true, Ep.
  - split; [done|]. right. by eapply Hv.
Qed.

Lemma classify_wp reply nplans s :
  wp (vfdw_flush_classify verify_mbstr encoding (P := P) reply nplans)
    (λ o s', s' = s ∧ ∃ r, reply = Some r ∧
       match o with
       | VFDW_FLUSH_APPLIED => r_type r = VALKEY_REPLY_STATUS ∧
           vfdw_script_classify (r_str r) = (VFDW_SCRIPT_OK, Some (dec nplans))
       | _ => refusal r = true
       end)
    (λ e s', fs_bs s' = fs_bs s ∧
       (fv_phase (fs_vars s') = fv_phase (fs_vars s) ∨
        ∃ r, reply = Some r ∧ refusal r = true)) s.
Proof.
  unfold vfdw_flush_classify. destruct reply as [r|]; [|by split; [|left]].
  case_bool_decide as Ht.
  - eapply wp_mono; [by apply classify_error_wp| |].
    + intros o s' (-> & Ho & Hr). split; [done|]. exists r. by destruct o.
    + intros e s' [Hb [Hp|Hr]]; (split; [done|]); [by left|]. right. by exists r.
  - apply wp_bind, wp_on_result; [|by split; [|left]]. intros [] Hx.
    destruct (vfdw_script_classify (r_str r)) as [v d] eqn:Ec.
    case_bool_decide as Hv; simpl; [|by split; [|left]].
    case_bool_decide as Hd; simpl; [|by split; [|left]].
    apply wp_ret. split; [done|]. exists r. subst. split_and!; try done.
    unfold vfdw_reply_expect in Hx. simpl in Hx. rewrite bool_decide_false in Hx by done.
    case_bool_decide as Hm; [done|]. apply (rtype_mask VALKEY_REPLY_STATUS); [done|exact Hm].
Qed.

(** Nothing is buffered in either direction. *)
Definition clean (c : Conn (P := P)) : Prop := cn_out c = [] ∧ cn_in c = [].

(** The program ran once, from a peer whose database was that of [p], and
    answered OK for [nplans] plans. *)
Definition applied (nplans : Z) (p p' : P) : Prop :=
  ∃ cmd p1 r, vfdw_script_encode sha1 l (vfdw_cmd_init 32) = Ok cmd ∧
    db_of p1 = db_of p ∧ serve (cmd_args cmd) p1 = (r, p') ∧
    r_type r = VALKEY_REPLY_STATUS ∧
    vfdw_script_classify (r_str r) = (VFDW_SCRIPT_OK, Some (dec nplans)).

Lemma pending_owing (s : BatchState (P := P)) :
  counted s → vfdw_batch_pending s = Z.of_nat (length (owing serve s).1).
Proof.
  intros [Hq Ho]. unfold vfdw_batch_pending, owing. rewrite Hq, Ho.
  pose proof (deliver_length serve (cn_out (bs_conn s)) (cn_peer (bs_conn s))) as H.
  destruct (deliver serve _ _) as [rs p]. simpl in *. rewrite length_app. lia.
Qed.

Lemma eval_head cmd :
  vfdw_script_encode sha1 l (vfdw_cmd_init 32) = Ok cmd → ∃ args, cmd_args cmd = "EVALSHA" :: args.
Proof.
  intros H. destruct (encode_wire sha1 l (vfdw_cmd_init 32) Hl) as (cmd' & E & Hc).
  rewrite H in E. injection E as <-. rewrite Hc. eexists. reflexivity.
Qed.

(** Before the program is queued: what the batch may hold, and what the peer
    will have answered by then. *)
Definition ready (load : bool) (p : P) (b : BatchState (P := P)) : Prop :=
  counted b ∧ Forall (harmless serve db_of) (out b) ∧ peer_db db_of b = db_of p ∧
  owing serve b =
    if load then ([(serve (cmd_args (load_cmd script_text)) p).1],
                  (serve (cmd_args (load_cmd script_text)) p).2) else ([], p).

Lemma begin_ready c : clean c → ready false (cn_peer c) (vfdw_batch_begin pipeline_batch c).
Proof.
  intros [Ho Hi]. unfold ready, counted, peer_db, out, owing. simpl. rewrite Ho, Hi.
  by split_and!.
Qed.

Lemma load_wp p b :
  ready false p b →
  wp (vfdw_batch_add serve (load_cmd script_text)) (λ _, ready true p)
    (λ _ b', peer_db db_of b' = db_of p) b.
Proof.
  intros (Hc & Hh & Hd & Ho). apply wp_intro.
  - intros [] b' E. destruct (add_spec serve _ _ _ Hc E) as (Hc' & Ho' & _).
    destruct (add_harmless serve db_of _ _ _ Hc Hh (λ q, ts_load q) E) as [Hh' Hd'].
    split_and!; [done|done|congruence|]. rewrite Ho', Ho.
    by destruct (serve (cmd_args (load_cmd script_text)) p).
  - intros e b' E. rewrite (add_raise serve db_of _ _ _ _ Hh E). done.
Qed.

(** After it: the replies the batch owes are the load's, if any, and the
    program's. *)
Definition owes (load : bool) (p : P) (cmd : list bytes) (b : BatchState (P := P)) : Prop :=
  let p0 := if load then (serve (cmd_args (load_cmd script_text)) p).2 else p in
  counted b ∧
  (owing serve b).1 =
    (if load then [(serve (cmd_args (load_cmd script_text)) p).1] else []) ++ [(serve cmd p0).1] ∧
  (owing serve b).2 = (serve cmd p0).2.

Lemma eval_wp load p cmd b :
  ready load p b →
  wp (vfdw_batch_add serve cmd) (λ _, owes load p (cmd_args cmd))
    (λ _ b', peer_db db_of b' = db_of p) b.
Proof.
  intros (Hc & Hh & Hd & Ho). apply wp_intro.
  - intros [] b' E. destruct (add_spec serve _ _ _ Hc E) as (Hc' & Ho' & _).
    split; [done|]. rewrite Ho', Ho. destruct load; by destruct (serve (cmd_args cmd) _).
  - intros e b' E. rewrite (add_raise serve db_of _ _ _ _ Hh E). done.
Qed.

(** The reply to the load is read, and a refusal is reported as clean. *)
Lemma loaded_wp p cmd (s : FlushState (P := P)) :
  fv_phase (fs_vars s) = VFDW_FLUSH_SENT → (∃ args, cmd = "EVALSHA" :: args) →
  owes true p cmd (fs_bs s) →
  wp (loaded ← on_batch (vfdw_batch_next serve); check_loaded verify_mbstr encoding loaded)
    (λ _ s', fs_vars s' = fs_vars s ∧ counted (fs_bs s') ∧
       (owing serve (fs_bs s')).1 =
         [(serve cmd (serve (cmd_args (load_cmd script_text)) p).2).1] ∧
       (owing serve (fs_bs s')).2 =
         (serve cmd (serve (cmd_args (load_cmd script_text)) p).2).2)
    (λ e s', unwritten e p s') s.
Proof.
  intros Hph (args & ->) (Hc & Ho1 & Ho2). apply wp_bind, wp_on_batch, wp_intro; [|by left].
  intros r b E. destruct (next_spec serve _ _ _ Hc E) as (Hc' & Hr & Hn1 & Hn2 & _).
  destruct (next_out serve _ _ _ Hc E) as [_ Hp].
  rewrite Ho1 in Hr, Hn1. rewrite Ho2 in Hn2, Hp. simpl in Hr, Hn1. subst r. simpl.
  unfold when. case_bool_decide as Ht; [|by split_and!].
  right. simpl. rewrite Hp. intros Habsent. by apply Habsent.
Qed.

(** The program's own reply decides. *)
Lemma reply_wp nplans load p p0 cmd (s : FlushState (P := P)) :
  fv_phase (fs_vars s) = VFDW_FLUSH_SENT → db_of p0 = db_of p →
  vfdw_script_encode sha1 l (vfdw_cmd_init 32) = Ok cmd →
  counted (fs_bs s) → (owing serve (fs_bs s)).1 = [(serve (cmd_args cmd) p0).1] →
  (owing serve (fs_bs s)).2 = (serve (cmd_args cmd) p0).2 →
  wp (reply ← on_batch (vfdw_batch_next serve);
      outcome ← vfdw_flush_classify verify_mbstr encoding reply nplans;
      when (bool_decide (outcome = VFDW_FLUSH_APPLIED) && load) (vfdw_conn_set_script_loaded true);;;
      on_batch (vfdw_batch_end serve);;;
      on_vars inc_ended;;;
      mret outcome)
    (λ o s', clean (bs_conn (fs_bs s')) ∧ fs_vars s' = inc_ended (fs_vars s) ∧
       match o with
       | VFDW_FLUSH_APPLIED => applied nplans p (cn_peer (bs_conn (fs_bs s')))
       | _ => peer_db db_of (fs_bs s') = db_of p
       end)
    (λ e s', unwritten e p s') s.
Proof.
  intros Hph Hdb Henc Hc Ho1 Ho2. destruct (eval_head cmd Henc) as [args Hargs].
  assert (Hrej : refusal (serve (cmd_args cmd) p0).1 = true → db_of (serve (cmd_args cmd) p0).2 = db_of p).
  { rewrite Hargs. intros Hr. rewrite (ts_refused args p0 Hr). done. }
  apply wp_bind, wp_on_batch, wp_intro; [|by left].
  intros reply b E. destruct (next_spec serve _ _ _ Hc E) as (Hc' & Hr & Hn1 & _ & _).
  destruct (next_out serve _ _ _ Hc E) as [Hout Hp].
  rewrite Ho1 in Hr, Hn1. rewrite Ho2 in Hp. simpl in Hr, Hn1. subst reply.
  assert (Hpend : vfdw_batch_pending b = 0) by (rewrite pending_owing, Hn1; done).
  assert (Hin : cn_in (bs_conn b) = []).
  { unfold owing in Hn1. unfold out in Hout. rewrite Hout in Hn1. simpl in Hn1.
    by rewrite app_nil_r in Hn1. }
  apply wp_bind. eapply wp_mono; [apply classify_wp| |].
  - intros o s1 (-> & r & [= <-] & Hm). apply wp_bind.
    assert (Hend : ∀ lo, wp (on_batch (vfdw_batch_end serve);;; on_vars inc_ended;;; mret o)
      (λ o0 s', clean (bs_conn (fs_bs s')) ∧ fs_vars s' = inc_ended (fs_vars s) ∧
         match o0 with
         | VFDW_FLUSH_APPLIED => applied nplans p (cn_peer (bs_conn (fs_bs s')))
         | _ => peer_db db_of (fs_bs s') = db_of p
         end)
      (λ e s', unwritten e p s')
      (MkFS (fs_vars s) (MkBS (bs_batch b) (MkConn (cn_peer (bs_conn b)) (cn_out (bs_conn b))
         (cn_in (bs_conn b)) (cn_in_conversation (bs_conn b)) lo (cn_faults (bs_conn b)))))).
    { intros lo. apply wp_bind, wp_on_batch. unfold wp at 1. rewrite end_clean by exact Hpend.
      split; [by split|]. split; [done|]. unfold peer_db. simpl. rewrite Hp. destruct o.
      - exists cmd, p0, (serve (cmd_args cmd) p0).1. destruct Hm.
        split_and!; try done. apply surjective_pairing.
      - by apply Hrej.
      - by apply Hrej. }
    unfold when. destruct (bool_decide (o = VFDW_FLUSH_APPLIED) && load).
    + apply (Hend true).
    + specialize (Hend (cn_script_loaded (bs_conn b))). by destruct b as [bb []].
  - intros e s1 [Hb [Hs|(r & [= <-] & Hr)]]; [left; by rewrite Hs|].
    right. intros _. rewrite Hb. simpl. rewrite Hp. by apply Hrej.
Qed.

Lemma attempt_wp nplans force (s : FlushState (P := P)) :
  clean (bs_conn (fs_bs s)) →
  wp (vfdw_flush_attempt verify_mbstr encoding serve script_text sha1 pipeline_batch l nplans force)
    (λ o s', clean (bs_conn (fs_bs s')) ∧
       fs_vars s' = inc_ended (set_phase VFDW_FLUSH_SENT (inc_begun (fs_vars s))) ∧
       match o with
       | VFDW_FLUSH_APPLIED =>
           applied nplans (cn_peer (bs_conn (fs_bs s))) (cn_peer (bs_conn (fs_bs s')))
       | _ => peer_db db_of (fs_bs s') = peer_db db_of (fs_bs s)
       end)
    (λ e s', unwritten e (cn_peer (bs_conn (fs_bs s))) s') s.
Proof.
  intros Hclean. pose proof (begin_ready _ Hclean) as Hready.
  set (p := cn_peer (bs_conn (fs_bs s))) in *.
  change (peer_db db_of (fs_bs s)) with (db_of p). unfold vfdw_flush_attempt.
  apply wp_bind, wp_get. set (load := force || negb (vfdw_conn_script_loaded s)).
  apply wp_bind, wp_modify, wp_bind, wp_on_vars, wp_bind. simpl.
  eapply (wp_mono _ (λ _ s', ready load p (fs_bs s') ∧ fs_vars s' = inc_begun (fs_vars s)) _
    (λ _ s', peer_db db_of (fs_bs s') = db_of p)); [| |intros e s' Hs; by apply unwritten_same].
  { unfold when. destruct load; [|by split].
    apply wp_on_batch. eapply wp_mono; [by apply load_wp|by split|done]. }
  intros [] s1 [Hr Hv]. apply wp_bind, wp_on_result.
  2:{ intros e _. apply unwritten_same, Hr. }
  intros cmd Henc. apply wp_bind, wp_on_batch.
  eapply wp_mono; [by apply eval_wp| |].
  2:{ intros e b' Hb. by apply unwritten_same. }
  intros [] b Ho. apply wp_bind, wp_on_vars, wp_bind. simpl.
  rewrite Hv. destruct (eval_head cmd Henc) as [args Hargs]. destruct load.
  - eapply wp_mono; [eapply (loaded_wp p (cmd_args cmd)); [done|by exists args|exact Ho]| |done].
    intros [] s2 (Hv2 & Hc2 & H1 & H2).
    eapply wp_mono; [eapply (reply_wp nplans true p); [by rewrite Hv2| |done|done|done|done]| |done].
    + apply ts_load.
    + intros o s3 (Hcl & Hv3 & Hm). split; [done|]. split; [by rewrite Hv3, Hv2|done].
  - destruct Ho as (Hc2 & H1 & H2). apply (wp_ret ()).
    eapply wp_mono; [eapply (reply_wp nplans false p p); done| |done].
    intros o s3 (Hcl & Hv3 & Hm). by split; [|split].
Qed.

(* ---------------------------------------------------------------- *)
(** ** The retry loop *)

Lemma u64_succ (a b n : Z) : u64 a = u64 (b + n) → u64 (u64 (a + 1)) = u64 (b + (n + 1)).
Proof.
  unfold u64. intros H. rewrite Z.mod_mod by done.
  rewrite <- (Zplus_mod_idemp_l a), H, Zplus_mod_idemp_l. f_equal. lia.
Qed.

(** From [v] to [v'], [a] batches were opened, as many closed, and [r] of the
    attempts were to be retried; the counters wrap. *)
Definition counts (a r : Z) (v v' : FlushVars) : Prop :=
  u64 (fv_batches_begun v') = u64 (fv_batches_begun v + a) ∧
  u64 (fv_batches_ended v') = u64 (fv_batches_ended v + a) ∧
  u64 (fv_nretries v') = u64 (fv_nretries v + r).

Lemma counts_attempt a r v v' :
  counts a r v v' →
  counts (a + 1) r v (inc_ended (set_phase VFDW_FLUSH_SENT (inc_begun v'))).
Proof. intros (H1 & H2 & H3). split_and!; [by apply u64_succ|by apply u64_succ|done]. Qed.

Lemma counts_retry a r v v' p :
  counts a r v v' → counts a (r + 1) v (set_phase p (inc_nretries v')).
Proof. intros (H1 & H2 & H3). split_and!; [done|done|by apply u64_succ]. Qed.

Lemma run_loop_wp (fuel : nat) (nplans max busy : Z) (force : bool) (s0 s : FlushState (P := P)) (k : Z) :
  clean (bs_conn (fs_bs s)) → busy ≤ max →
  peer_db db_of (fs_bs s) = peer_db db_of (fs_bs s0) →
  counts k k (fs_vars s0) (fs_vars s) →
  (Z.to_nat (max - busy) + (if force then 1 else 2) ≤ fuel)%nat →
  wp (run_loop verify_mbstr encoding serve script_text sha1 pipeline_batch l fuel nplans max busy force)
    (λ b s', b = true ∧ clean (bs_conn (fs_bs s')) ∧
       applied nplans (cn_peer (bs_conn (fs_bs s0))) (cn_peer (bs_conn (fs_bs s'))) ∧
       ∃ n, k < n ≤ k + Z.of_nat fuel ∧ counts n (n - 1) (fs_vars s0) (fs_vars s'))
    (λ e s', unwritten e (cn_peer (bs_conn (fs_bs s0))) s') s.
Proof.
  revert busy force s k. induction fuel as [|fuel IH]; intros busy force s k Hc Hb Hd Hk Hf.
  { destruct force; lia. }
  cbn [run_loop]. apply wp_bind. eapply wp_mono; [by apply attempt_wp| |].
  2:{ intros e s' [H|H]; [by left|right]. unfold peer_db in Hd. by rewrite <- Hd. }
  intros o s1 (Hc1 & Hv1 & Hm). pose proof (counts_attempt _ _ _ _ Hk) as Hk1.
  rewrite <- Hv1 in Hk1. case_bool_decide as Ho; [|apply wp_bind, wp_on_vars, wp_bind, wp_on_vars].
  { subst o. apply wp_ret. split; [done|]. split; [done|]. split.
    - destruct Hm as (cmd & p1 & r & H1 & H2 & H3). exists cmd, p1, r. split; [done|].
      split; [|done]. unfold peer_db in Hd. congruence.
    - exists (k + 1). replace (k + 1 - 1) with k by lia. split; [lia|done]. }
  assert (Hd1 : peer_db db_of (fs_bs s1) = peer_db db_of (fs_bs s0)) by (destruct o; [done|congruence..]).
  pose proof (counts_retry _ _ _ _ VFDW_FLUSH_BEFORE_SEND Hk1) as Hk2.
  case_bool_decide as Hn; [destruct force|case_bool_decide as Hm'].
  - by right.
  - apply wp_bind, wp_modify.
    eapply wp_mono; [eapply (IH busy true _ (k + 1)); [exact Hc1|done|exact Hd1|exact Hk2|lia]| |done].
    intros b s' (H1 & H2 & H3 & n & H4 & H5). split_and!; try done. exists n. split; [lia|done].
  - by right.
  - eapply wp_mono; [eapply (IH (busy + 1) force _ (k + 1));
      [exact Hc1|lia|exact Hd1|exact Hk2|destruct force; lia]| |done].
    intros b s' (H1 & H2 & H3 & n & H4 & H5). split_and!; try done. exists n. split; [lia|done].
Qed.

Lemma run_wp nplans max (s : FlushState (P := P)) :
  clean (bs_conn (fs_bs s)) → 0 ≤ max →
  wp (vfdw_flush_run verify_mbstr encoding serve script_text sha1 pipeline_batch l nplans max)
    (λ b s', b = true ∧ clean (bs_conn (fs_bs s')) ∧
       applied nplans (cn_peer (bs_conn (fs_bs s))) (cn_peer (bs_conn (fs_bs s'))) ∧
       ∃ n, 0 < n ≤ max + 2 ∧ counts n (n - 1) (fs_vars s) (fs_vars s'))
    (λ e s', unwritten e (cn_peer (bs_conn (fs_bs s))) s') s.
Proof.
  intros Hc Hm. unfold vfdw_flush_run, run_fuel.
  eapply wp_mono; [apply (run_loop_wp _ nplans max 0 false s s 0); try done| |done].
  - split_and!; f_equal; lia.
  - lia.
  - intros b s' (H1 & H2 & H3 & n & H4 & H5). split_and!; try done. exists n. split; [lia|done].
Qed.

(* ---------------------------------------------------------------- *)
(** ** The number of batches *)

(** Begins [n] batches, however it ends. *)
Definition begins (n : Z) {A} (m : M (FlushState (P := P)) A) : Prop :=
  ∀ s, u64 (fv_batches_begun (fs_vars (m s).2)) = u64 (fv_batches_begun (fs_vars s) + n).

Lemma begins_bind {A B} n (m : M (FlushState (P := P)) A) (f : A → M FlushState B) :
  begins n m → (∀ a, begins 0 (f a)) → begins n (m ≫= f).
Proof.
  intros Hm Hf s. specialize (Hm s). unfold mbind, M_bind. destruct (m s) as [[a|e] s1]; [|done].
  rewrite Hf, Z.add_0_r. exact Hm.
Qed.

Lemma begins_same {A} (m : M (FlushState (P := P)) A) :
  (∀ s, fv_batches_begun (fs_vars (m s).2) = fv_batches_begun (fs_vars s)) → begins 0 m.
Proof. intros H s. by rewrite H, Z.add_0_r. Qed.

Lemma begins_on_batch {A} (m : M (BatchState (P := P)) A) : begins 0 (on_batch m).
Proof. apply begins_same. intros s. unfold on_batch. by destruct (m (fs_bs s)). Qed.

Lemma begins_on_result {A} (r : result A) : begins 0 (on_result (P := P) r).
Proof. by apply begins_same. Qed.

Lemma begins_classify reply nplans : begins 0 (vfdw_flush_classify verify_mbstr encoding (P := P) reply nplans).
Proof.
  unfold vfdw_flush_classify. destruct reply as [r|]; [|by apply begins_same].
  destruct (bool_decide _).
  - unfold vfdw_flush_classify_error. destruct (vfdw_reply_has_prefix _ _); [by apply begins_same|].
    destruct (vfdw_flush_is_retryable r); [by apply begins_same|].
    destruct (bool_decide _); [by apply begins_same|]. destruct (negb _); [by apply begins_same|].
    by destruct (vfdw_flush_proves_not_applied r); apply begins_same.
  - apply begins_bind; [apply begins_on_result|]. intros [].
    destruct (vfdw_script_classify (r_str r)) as [v d]. destruct (negb _); [by apply begins_same|].
    by destruct (negb _); apply begins_same.
Qed.

Lemma begins_check_loaded r : begins 0 (check_loaded verify_mbstr encoding (P := P) r).
Proof.
  unfold check_loaded, when. destruct r; [|by apply begins_same].
  by destruct (bool_decide _); apply begins_same.
Qed.

Lemma begins_attempt nplans force :
  begins 1 (vfdw_flush_attempt verify_mbstr encoding serve script_text sha1 pipeline_batch l nplans force).
Proof using Type.
  clear. intros s. unfold vfdw_flush_attempt. unfold mbind at 1, M_bind at 1, get.
  rewrite modify_bind. unfold mbind at 1, M_bind at 1, on_vars at 1, modify at 1.
  match goal with |- u64 (fv_batches_begun (fs_vars (?m ?x).2)) = _ =>
    assert (Hm : begins 0 m); [|rewrite (Hm x); simpl; rewrite Z.add_0_r; apply Z.mod_mod; done] end.
  apply begins_bind; [unfold when; destruct (_ || _); [apply begins_on_batch|by apply begins_same]|intros _].
  apply begins_bind; [apply begins_on_result|intros cmd]. apply begins_bind; [apply begins_on_batch|intros _].
  apply begins_bind; [by apply begins_same|intros _].
  apply begins_bind.
  { unfold when. destruct (_ || _); [|by apply begins_same].
    apply begins_bind; [apply begins_on_batch|apply begins_check_loaded]. }
  intros _. apply begins_bind; [apply begins_on_batch|intros reply].
  apply begins_bind; [apply begins_classify|intros o].
  apply begins_bind; [unfold when; destruct (_ && _); by apply begins_same|intros _].
  apply begins_bind; [apply begins_on_batch|intros _]. apply begins_bind; [by apply begins_same|intros _; by apply begins_same].
Qed.

Lemma run_loop_begun (fuel : nat) (nplans max busy : Z) (force : bool) (s : FlushState (P := P)) :
  (0 < fuel)%nat →
  ∃ n, 0 < n ≤ Z.of_nat fuel ∧
    u64 (fv_batches_begun (fs_vars (run_loop verify_mbstr encoding serve script_text sha1
           pipeline_batch l fuel nplans max busy force s).2)) =
    u64 (fv_batches_begun (fs_vars s) + n).
Proof using Type.
  clear. revert busy force s. induction fuel as [|fuel IH]; intros busy force s Hf; [lia|].
  cbn [run_loop]. pose proof (begins_attempt nplans force s) as Ha.
  unfold mbind at 1, M_bind at 1.
  destruct (vfdw_flush_attempt _ _ _ _ _ _ _ _ _ s) as [[o|e] s1]; simpl in Ha; [|exists 1; split; [lia|done]].
  destruct (bool_decide (o = VFDW_FLUSH_APPLIED)); [exists 1; split; [lia|done]|].
  assert (Hrec : ∀ busy force lo, ∃ n, 0 < n ≤ Z.of_nat (S fuel) ∧
    u64 (fv_batches_begun (fs_vars (run_loop verify_mbstr encoding serve script_text sha1
           pipeline_batch l fuel nplans max busy force
           (MkFS (set_phase VFDW_FLUSH_BEFORE_SEND (inc_nretries (fs_vars s1))) lo)).2)) =
    u64 (fv_batches_begun (fs_vars s) + n)).
  { intros busy' force' lo. destruct fuel as [|fuel'].
    { exists 1. split; [lia|exact Ha]. }
    destruct (IH busy' force' (MkFS (set_phase VFDW_FLUSH_BEFORE_SEND (inc_nretries (fs_vars s1))) lo)
      ltac:(lia)) as (n & Hn & ->).
    exists (n + 1). split; [lia|]. simpl. unfold u64 in *.
    rewrite <- (Zplus_mod_idemp_l (fv_batches_begun (fs_vars s1))), Ha, Zplus_mod_idemp_l. f_equal. lia. }
  unfold mbind, M_bind, on_vars, modify.
  destruct (bool_decide (o = VFDW_FLUSH_RETRY_NOSCRIPT)); [destruct force|destruct (bool_decide (max ≤ busy))].
  - exists 1. split; [lia|exact Ha].
  - apply Hrec.
  - exists 1. split; [lia|exact Ha].
  - apply Hrec.
Qed.

Lemma run_begun nplans max (s : FlushState (P := P)) :
  0 ≤ max →
  ∃ n, 0 < n ≤ max + 2 ∧
    u64 (fv_batches_begun (fs_vars (vfdw_flush_run verify_mbstr encoding serve script_text sha1
           pipeline_batch l nplans max s).2)) = u64 (fv_batches_begun (fs_vars s) + n).
Proof using Type.
  clear. intros Hm.
  destruct (run_loop_begun (run_fuel max) nplans max 0 false s ltac:(unfold run_fuel; lia)) as (n & Hn & Hb).
  exists n. split; [unfold run_fuel in Hn; lia|exact Hb].
Qed.

(** The whole flush of a non-empty unit. *)
Context (fatal : pg_error → bool) (QueryCancelPending ProcDiePending : bool).

(** Only an error after the program was sent is exchanged for another. *)
Lemma rethrow_unwritten e p (s : FlushState (P := P)) :
  unwritten e p s →
  unwritten (vfdw_flush_rethrow_indeterminate fatal QueryCancelPending ProcDiePending e
               (fv_phase (fs_vars s))) p s.
Proof.
  intros [H|H]; [by left|]. destruct (decide (fv_phase (fs_vars s) = VFDW_FLUSH_SENT)) as [|Hne]; [by left|].
  right. unfold vfdw_flush_rethrow_indeterminate. by rewrite bool_decide_false.
Qed.

Lemma pre_commit_wp retries c (s : FlushState (P := P)) :
  clean c → 0 ≤ retries →
  wp (vfdw_flush_pre_commit verify_mbstr encoding serve script_text sha1 pipeline_batch l fatal
        QueryCancelPending ProcDiePending false (Ok c) retries)
    (λ _ s', applied (vfdw_ledger_nplans l) (cn_peer c) (cn_peer (bs_conn (fs_bs s'))) ∧
       clean (bs_conn (fs_bs s')) ∧ fv_flushed (fs_vars s') = true ∧
       ∃ n, 0 < n ≤ retries + 2 ∧ counts n (n - 1) (fs_vars s) (fs_vars s'))
    (λ e s', unwritten e (cn_peer c) s') s.
Proof.
  intros Hc Hr. unfold vfdw_flush_pre_commit. apply wp_bind, wp_on_vars, wp_bind, wp_on_vars.
  apply wp_bind, wp_on_result; [|done]. intros ? [= <-]. apply wp_bind, wp_modify, wp_bind. simpl.
  match goal with |- wp _ _ _ ?x => pose proof (run_wp (vfdw_ledger_nplans l) retries x Hc Hr) as H end.
  unfold wp in H. unfold wp at 1, try_run.
  destruct (vfdw_flush_run _ _ _ _ _ _ _ _ _ _) as [[b|e] s1]; [|by apply rethrow_unwritten].
  destruct H as (-> & Hcl & Ha & n & Hn & Hk). simpl. split_and!; [done|done|done|].
  exists n. by split.
Qed.
End attempt.
