(* ===== verification/Commit.v ===== *)
(** The commit end to end: the flush of src/vfdw_flush.c against a server that
    runs the program of src/vfdw_script.c on the ledger of src/vfdw_ledger.c. *)
From S2P Require Import Prelude Slot Opcode WriteOp Ledger LedgerFacts LedgerActions Error.
From S2P Require Import Cmd CmdFacts Script ScriptEncode ScriptFacts ScriptSem ScriptEffect.
From S2P Require Import TinyServer FlushCluster Flush FlushFacts.
From stdpp Require Import list gmap.
Local Open Scope Z_scope.

Definition no_changes : string := "valkey_fdw pre-commit flush; no changes were applied in Valkey.".

Lemma no_changes_phase p : vfdw_flush_errcontext p = no_changes → p ≠ VFDW_FLUSH_SENT.
Proof. by destruct p. Qed.

(* ---------------------------------------------------------------- *)
(** ** A server that runs the program *)

Definition reply_of (o : Outcome) : Reply :=
  match o with Status s => status_reply s | Fail s | Raised s => error_reply s end.

Section server.
Context {Db : Type} (exec : list bytes → Db → Lua * Db) (tonumber : bytes → option Z).

(** The database, and whether the program is cached. *)
Definition script_server (args : list bytes) (p : Db * bool) : Reply * (Db * bool) :=
  match args with
  | verb :: rest =>
      if bool_decide (verb = "EVALSHA") then
        if p.2 then
          match evalsha exec tonumber args p.1 with
          | Some (o, db) => (reply_of o, (db, true))
          | None => (error_reply "ERR wrong number of arguments for 'evalsha' command", p)
          end
        else (error_reply "NOSCRIPT No matching script. Please use EVAL.", p)
      else if bool_decide (verb = "SCRIPT") then
        (MkReply VALKEY_REPLY_STRING 0 (Some "5f3a") None, (p.1, true))
      else (error_reply "ERR unknown command", p)
  | [] => (error_reply "ERR unknown command", p)
  end.

(** A message that is ours is none of the server's own refusals. *)
Lemma ours_no_proof s :
  (vfdw_script_classify (Some s)).1 ≠ VFDW_SCRIPT_UNKNOWN →
  vfdw_flush_proves_not_applied (error_reply s) = false.
Proof.
  intros Hv. assert (Hs : starts_with "VFDW1" s = true).
  { unfold vfdw_script_classify, vfdw_script_word_at in Hv.
    rewrite drop_bytes_0 in Hv. destruct (starts_with "VFDW1" s); [done|].
    exfalso. apply Hv. by destruct (bool_decide _). }
  apply starts_with_spec in Hs as [r ->].
  apply not_true_iff_false. unfold vfdw_flush_proves_not_applied. rewrite existsb_exists.
  intros (p & Hp & Hx). apply has_prefix_word in Hx.
  repeat (destruct Hp as [<-|Hp]; [by destruct Hx as [Hx|[? Hx]]|]). done.
Qed.

Lemma server_truthful text :
  reads_only exec → TruthfulServer script_server (λ p, p.1) text.
Proof.
  intros Hr. split; [done|]. intros args [db cached]. simpl.
  destruct cached; [|done]. destruct args as [|sha [|n rest]]; [done|done|]. simpl.
  destruct (undec n) as [z|]; [|done]. simpl.
  destruct (vfdw_script_src exec tonumber (take (Z.to_nat z) rest) (drop (Z.to_nat z) rest) db)
    as [o db'] eqn:E. simpl. intros Href.
  destruct (program_cases exec tonumber Hr _ _ _ _ _ E) as [?|[Hv|[[s ->] _]]]; [done| |done].
  exfalso. unfold verdict in Hv.
  assert (Ht : refusal (error_reply (outcome_text o)) = true) by by destruct o.
  unfold refusal in Ht. rewrite bool_decide_true in Ht by done.
  change (r_str (error_reply (outcome_text o))) with (Some (outcome_text o)) in Ht.
  rewrite ours_no_proof, Hv in Ht; [done|]. by rewrite Hv.
Qed.

Lemma server_load text : load_refused_means_absent script_server (λ p, p.1) text.
Proof. intros p args H. discriminate H. Qed.
End server.

(* ---------------------------------------------------------------- *)
(** ** Properties *)

(** C1: end to end, committing applies the transaction.  Against any server that
    runs the program, over a connection that may fail at any point, for a log the
    ledger accepted and whose plans fit the counts the program reads: when the
    flush returns, the database is the one the recorded plans leave, each action
    executed exactly once and no other write; and where the tables that write a
    key agree on its type and no key is renamed away, or used as a keyset, under
    another operation (log_separated), that is the database the transaction's
    writes leave executed one by one in statement order.  When it raises with the
    context line "no changes were applied", the database is untouched.  Without
    the condition on renames the order of the plans is not the order of the
    statements (rename_chain_loses_a_row, rename_back_applies_half). *)
Theorem commit_applies_the_log {Db : Type} (exec : list bytes → Db → Lua * Db)
    (tonumber : bytes → option Z) (ops : list VfdwWriteOp)
    (l : Ledger) (verify_mbstr : bytes → bool) (encoding : string) (text sha1 : bytes)
    (pipeline_batch retries : Z) (fatal : pg_error → bool) (cancel die : bool)
    (c : Conn (P := Db * bool)) (s : FlushState) :
  (∀ z, 0 ≤ z < 2 ^ 53 → tonumber (dec z) = Some z) → reads_only exec →
  miter vfdw_ledger_note ops ledger_empty = (Ok (), l) → ledger_fits l →
  clean c → 0 ≤ retries →
  match vfdw_flush_pre_commit verify_mbstr encoding (script_server exec tonumber) text sha1
          pipeline_batch l fatal cancel die false (Ok c) retries s with
  | (Ok _, s') =>
      let db' := (cn_peer (bs_conn (fs_bs s'))).1 in
      db' = run_steps exec (plan_steps (lg_plans l)) (cn_peer c).1 ∧
      (∀ ty, server_frames exec → Forall (op_typed ty) ops → log_separated ops = true →
         db' = run_steps exec (log_steps ops) (cn_peer c).1)
  | (Raise e, s') =>
      vfdw_flush_errcontext (fv_phase (fs_vars s')) = no_changes →
      (cn_peer (bs_conn (fs_bs s'))).1 = (cn_peer c).1
  end.
Proof.
  intros Ht Hr Hops Hfit Hc Hret. pose proof (note_all_ok _ _ Hops) as Hok.
  pose proof (server_truthful exec tonumber text Hr) as Hts.
  pose proof (pre_commit_wp verify_mbstr encoding (script_server exec tonumber) (λ p, p.1) text sha1
    pipeline_batch l Hok fatal cancel die retries c s Hc Hret) as H.
  unfold wp in H. destruct (vfdw_flush_pre_commit _ _ _ _ _ _ _ _ _ _ _ _ _ s) as [[[]|e] s'].
  - destruct H as ((cmd & p1 & r & Henc & Hp1 & Hserve & Htype & _) & _).
    destruct p1 as [db1 cached]. simpl in Hp1. subst db1.
    destruct (eval_head sha1 l Hok cmd Henc) as [args Hargs].
    rewrite Hargs in Hserve. unfold script_server in Hserve.
    rewrite bool_decide_true in Hserve by done. destruct cached; cbn [fst snd] in Hserve; [|by simplify_eq].
    rewrite <- Hargs in Hserve.
    destruct (evalsha exec tonumber (cmd_args cmd) _) as [[o db']|] eqn:E; [|by simplify_eq].
    injection Hserve as <- <-. destruct o; [|done|done].
    pose proof (applied_is_the_plans exec tonumber sha1 l cmd _ _ _ Ht Hr Hok Hfit Henc E) as Hdb.
    split; [exact Hdb|]. intros ty Hfr Hty Hsep. simpl. rewrite Hdb.
    by apply (plans_are_the_log exec ty ops l).
  - intros Hx%no_changes_phase. destruct H as [H|H]; [done|]. apply H. intros _. apply server_load.
Qed.

(** C2: the flush never claims falsely, wherever the connection fails.  Of the
    server it needs that loading a program writes nothing and that an EVALSHA
    answered with one of the refusals the flush knows wrote nothing.  Returning
    means that the program ran exactly once from the database the flush found
    and answered OK for the number of plans sent; an error whose context line
    says "no changes were applied" left the database as it was - with one
    exception: the error of a refused SCRIPT LOAD says so truly only on a server
    that cannot run a program it refuses to load, which is not what a server
    with an ACL on SCRIPT does (refused_load_false_claim). *)
Theorem flush_reports_truthfully {P Db : Type} (serve : list bytes → P → Reply * P)
    (db_of : P → Db) (verify_mbstr : bytes → bool) (encoding : string) (text sha1 : bytes)
    (pipeline_batch retries : Z) (l : Ledger) (fatal : pg_error → bool) (cancel die : bool)
    (c : Conn (P := P)) (s : FlushState) :
  TruthfulServer serve db_of text → ledger_ok l → clean c → 0 ≤ retries →
  match vfdw_flush_pre_commit verify_mbstr encoding serve text sha1 pipeline_batch l fatal cancel
          die false (Ok c) retries s with
  | (Ok _, s') =>
      applied serve db_of sha1 l (vfdw_ledger_nplans l) (cn_peer c) (cn_peer (bs_conn (fs_bs s')))
  | (Raise e, s') =>
      vfdw_flush_errcontext (fv_phase (fs_vars s')) = no_changes →
      (pe_msg e = load_failed → load_refused_means_absent serve db_of text) →
      db_of (cn_peer (bs_conn (fs_bs s'))) = db_of (cn_peer c)
  end.
Proof.
  intros Hts Hl Hc Hr.
  pose proof (pre_commit_wp verify_mbstr encoding serve db_of text sha1 pipeline_batch l Hl fatal
    cancel die retries c s Hc Hr) as H.
  unfold wp in H. destruct (vfdw_flush_pre_commit _ _ _ _ _ _ _ _ _ _ _ _ _ s) as [[[]|e] s'].
  - apply H.
  - intros Hx%no_changes_phase Habsent. destruct H as [H|H]; [done|]. by apply H.
Qed.

(** C9: the retry loop ends by itself, whatever the server answers and wherever
    the connection fails.  It never runs out of the attempts its budget allows -
    [write_retry_count] for a busy server, one more for a forced reload -, so
    between one and [write_retry_count] + 2 batches are begun whether it
    succeeds or raises; and when it succeeds it closed every batch it opened,
    counted every attempt but the last as a retry, and left nothing unread. *)
Theorem flush_retry_budget {P : Type} (serve : list bytes → P → Reply * P)
    (verify_mbstr : bytes → bool) (encoding : string) (text sha1 : bytes)
    (pipeline_batch nplans retries : Z) (l : Ledger) (s : FlushState (P := P)) :
  ledger_ok l → clean (bs_conn (fs_bs s)) → 0 ≤ retries →
  match vfdw_flush_run verify_mbstr encoding serve text sha1 pipeline_batch l nplans retries s with
  | (Ok b, s') =>
      b = true ∧ clean (bs_conn (fs_bs s')) ∧
      ∃ n, 0 < n ≤ retries + 2 ∧ counts n (n - 1) (fs_vars s) (fs_vars s')
  | (Raise e, s') =>
      ∃ n, 0 < n ≤ retries + 2 ∧
        u64 (fv_batches_begun (fs_vars s')) = u64 (fv_batches_begun (fs_vars s) + n)
  end.
Proof.
  intros Hl Hc Hr. set (db_of := λ _ : P, ()).
  assert (Hts : TruthfulServer serve db_of text) by by split.
  pose proof (run_wp verify_mbstr encoding serve db_of text sha1 pipeline_batch l Hl nplans
    retries s Hc Hr) as H.
  pose proof (run_begun verify_mbstr encoding serve text sha1 pipeline_batch l nplans retries s Hr) as Hb.
  unfold wp in H. destruct (vfdw_flush_run _ _ _ _ _ _ _ _ _ s) as [[b|e] s']; [|exact Hb].
  destruct H as (H1 & H2 & _ & H3). done.
Qed.

(** The small server of two tables, over a connection that believes the program
    is cached although the server has forgotten it. *)
Definition idle_conn (faults : list (option Fault)) : Conn (P := gmap bytes Val * bool) :=
  MkConn (∅, false) [] [] false true faults.

Definition idle (faults : list (option Fault)) : FlushState :=
  MkFS flush_vars_init (vfdw_batch_begin 8 (idle_conn faults)).

Definition commit_two (faults : list (option Fault)) : result unit * FlushState :=
  vfdw_flush_pre_commit (λ _, true) "UTF8" (script_server tiny undec) "#!lua" "5f3a" 8 two_ledger
    (λ _, false) false false false (Ok (idle_conn faults)) 3 (idle faults).

Lemma commit_applies_the_log_witness :
  is_ok (commit_two []).1 = true ∧
  (cn_peer (bs_conn (fs_bs (commit_two []).2))).1 = run_steps tiny (log_steps two_ops) ∅ ∧
  fv_nretries (fs_vars (commit_two []).2) = 1.
Proof.
  split; [vm_compute; reflexivity|]. split; [|vm_compute; reflexivity].
  pose proof (commit_applies_the_log tiny undec two_ops two_ledger (λ _, true) "UTF8"
    "#!lua" "5f3a" 8 3 (λ _, false) false false (idle_conn []) (idle [])
    (λ z _, undec_dec z) tiny_reads_only ltac:(vm_compute; reflexivity) two_fits
    (conj eq_refl eq_refl) ltac:(lia)) as H.
  fold (commit_two []) in H.
  assert (E : is_ok (commit_two []).1 = true) by (vm_compute; reflexivity).
  destruct (commit_two []) as [[[]|e] s']; [|discriminate E].
  exact (proj2 H two_type tiny_frames two_typed ltac:(vm_compute; reflexivity)).
Defined.

(** The connection breaks while the reply is awaited: the write may have
    happened, and the error says so. *)
Definition broken : list (option Fault) :=
  [None; None; Some (MkFault 0 (PgError ERRCODE_CONNECTION_FAILURE "reset by peer"))].

Lemma flush_reports_truthfully_witness :
  (commit_two broken).1 = Raise indeterminate ∧
  vfdw_flush_errcontext (fv_phase (fs_vars (commit_two broken).2)) ≠ no_changes ∧
  is_ok (commit_two []).1 = true ∧
  applied (script_server tiny undec) (λ p, p.1) "5f3a" two_ledger 2 (∅, false)
    (cn_peer (bs_conn (fs_bs (commit_two []).2))).
Proof.
  split; [vm_compute; reflexivity|]. split; [vm_compute; discriminate|].
  split; [vm_compute; reflexivity|].
  pose proof (flush_reports_truthfully (script_server tiny undec) (λ p, p.1) (λ _, true) "UTF8"
    "#!lua" "5f3a" 8 3 two_ledger (λ _, false) false false (idle_conn []) (idle [])
    (server_truthful tiny undec "#!lua" tiny_reads_only)
    (note_all_ok two_ops two_ledger ltac:(vm_compute; reflexivity)) (conj eq_refl eq_refl)
    ltac:(lia)) as H.
  fold (commit_two []) in H.
  assert (E : is_ok (commit_two []).1 = true) by (vm_compute; reflexivity).
  destruct (commit_two []) as [[[]|e] s']; [exact H|discriminate E].
Defined.

Definition run_two : result bool * FlushState :=
  vfdw_flush_run (λ _, true) "UTF8" (script_server tiny undec) "#!lua" "5f3a" 8 two_ledger 2 0
    (idle []).

Lemma flush_retry_budget_witness :
  run_two.1 = Ok true ∧
  ∃ n, 0 < n ≤ 2 ∧ counts n (n - 1) flush_vars_init (fs_vars run_two.2).
Proof.
  split; [vm_compute; reflexivity|].
  pose proof (flush_retry_budget (script_server tiny undec) (λ _, true) "UTF8"
    "#!lua" "5f3a" 8 2 0 two_ledger (idle [])
    (note_all_ok two_ops two_ledger ltac:(vm_compute; reflexivity)) (conj eq_refl eq_refl)
    ltac:(lia)) as H.
  fold run_two in H.
  assert (E : run_two.1 = Ok true) by (vm_compute; reflexivity).
  destruct run_two as [[b|e] s']; [exact (proj2 (proj2 H))|discriminate E].
Defined.

(* ---------------------------------------------------------------- *)
(** ** A refused load *)

(** A server whose ACL lets the user run programs but not load them, and on which
    another client has loaded the program already. *)
Definition no_load_server (args : list bytes) (n : nat) : Reply * nat :=
  if bool_decide (head args = Some "SCRIPT")
  then (error_reply "NOPERM User app has no permissions to run the 'script|load' command", n)
  else (status_reply "VFDW1 OK 2", S n).

Definition refused_load : result unit * FlushState (P := nat) :=
  vfdw_flush_pre_commit (λ _, true) "UTF8" no_load_server "#!lua" "5f3a" 8 two_ledger
    (λ _, false) false false false (Ok (MkConn 0%nat [] [] false false [])) 3
    (MkFS flush_vars_init (vfdw_batch_begin 8 (MkConn 0%nat [] [] false false []))).

(** The assumption on loading is needed.  The load and the program are sent
    together, so a server that refuses the load but already has the program runs
    it; the flush then reports that no changes were applied although they were. *)
Theorem refused_load_false_claim :
  (refused_load).1 = Raise (PgError ERRCODE_INSUFFICIENT_PRIVILEGE
                              "could not load the Valkey write program") ∧
  vfdw_flush_errcontext (fv_phase (fs_vars refused_load.2)) = no_changes ∧
  cn_peer (bs_conn (fs_bs refused_load.2)) = 1%nat.
Proof. split_and!; vm_compute; reflexivity. Qed.
