(* ===== verification/Connection.v ===== *)
(** One pooled connection (src/vfdw_conn.c): opening it, setting it up and
    closing it, over the wire of src/vfdw_cmd.c.

    The socket, the TLS attachment, the clock and the catalog are parameters.
    [vc_wire] is the valkeyContext with the two flags of VfdwConn the batch code
    reads through it, in_conversation and script_loaded. *)
From S2P Require Import Prelude Option Error Cmd.
Local Open Scope Z_scope.

Inductive VfdwCap := VFDW_CAP_UNKNOWN | VFDW_CAP_PRESENT | VFDW_CAP_ABSENT.

Definition VFDW_MAX_NODE_HOST : nat := 256.
Definition VFDW_MAX_WRITE_REFUSAL : nat := 256.

Section connection.
Context {P : Type} (serve : list bytes → P → Reply * P).

Record VfdwConn := MkVfdwConn {
  vc_open : bool;
  vc_wire : Conn (P := P);
  vc_node_host : bytes;
  vc_node_port : Z;
  vc_opts : VfdwServerOptions;
  vc_resp3 : bool;
  vc_database : Z;
  vc_invalidated : bool;
  vc_leased : bool;
  vc_lease_subid : Z;
  vc_write_refused : bool;
  vc_write_refusal : bytes;
  vc_field_ttl : VfdwCap;
  vc_server_hashvalue : Z;
  vc_mapping_hashvalue : Z;
}.

Definition set_socket (o : bool) (w : Conn) (c : VfdwConn) : VfdwConn :=
  MkVfdwConn o w (vc_node_host c) (vc_node_port c) (vc_opts c) (vc_resp3 c) (vc_database c)
    (vc_invalidated c) (vc_leased c) (vc_lease_subid c) (vc_write_refused c) (vc_write_refusal c)
    (vc_field_ttl c) (vc_server_hashvalue c) (vc_mapping_hashvalue c).
Definition set_node (h : bytes) (p : Z) (c : VfdwConn) : VfdwConn :=
  MkVfdwConn (vc_open c) (vc_wire c) h p (vc_opts c) (vc_resp3 c) (vc_database c)
    (vc_invalidated c) (vc_leased c) (vc_lease_subid c) (vc_write_refused c) (vc_write_refusal c)
    (vc_field_ttl c) (vc_server_hashvalue c) (vc_mapping_hashvalue c).
Definition set_resp3 (b : bool) (c : VfdwConn) : VfdwConn :=
  MkVfdwConn (vc_open c) (vc_wire c) (vc_node_host c) (vc_node_port c) (vc_opts c) b (vc_database c)
    (vc_invalidated c) (vc_leased c) (vc_lease_subid c) (vc_write_refused c) (vc_write_refusal c)
    (vc_field_ttl c) (vc_server_hashvalue c) (vc_mapping_hashvalue c).
Definition set_database (d : Z) (c : VfdwConn) : VfdwConn :=
  MkVfdwConn (vc_open c) (vc_wire c) (vc_node_host c) (vc_node_port c) (vc_opts c) (vc_resp3 c) d
    (vc_invalidated c) (vc_leased c) (vc_lease_subid c) (vc_write_refused c) (vc_write_refusal c)
    (vc_field_ttl c) (vc_server_hashvalue c) (vc_mapping_hashvalue c).
Definition set_invalidated (b : bool) (c : VfdwConn) : VfdwConn :=
  MkVfdwConn (vc_open c) (vc_wire c) (vc_node_host c) (vc_node_port c) (vc_opts c) (vc_resp3 c)
    (vc_database c) b (vc_leased c) (vc_lease_subid c) (vc_write_refused c) (vc_write_refusal c)
    (vc_field_ttl c) (vc_server_hashvalue c) (vc_mapping_hashvalue c).
Definition set_lease (b : bool) (subid : Z) (c : VfdwConn) : VfdwConn :=
  MkVfdwConn (vc_open c) (vc_wire c) (vc_node_host c) (vc_node_port c) (vc_opts c) (vc_resp3 c)
    (vc_database c) (vc_invalidated c) b subid (vc_write_refused c) (vc_write_refusal c)
    (vc_field_ttl c) (vc_server_hashvalue c) (vc_mapping_hashvalue c).
Definition set_refusal (b : bool) (r : bytes) (c : VfdwConn) : VfdwConn :=
  MkVfdwConn (vc_open c) (vc_wire c) (vc_node_host c) (vc_node_port c) (vc_opts c) (vc_resp3 c)
    (vc_database c) (vc_invalidated c) (vc_leased c) (vc_lease_subid c) b r
    (vc_field_ttl c) (vc_server_hashvalue c) (vc_mapping_hashvalue c).
Definition set_opts (o : VfdwServerOptions) (c : VfdwConn) : VfdwConn :=
  MkVfdwConn (vc_open c) (vc_wire c) (vc_node_host c) (vc_node_port c) o (vc_resp3 c)
    (vc_database c) (vc_invalidated c) (vc_leased c) (vc_lease_subid c) (vc_write_refused c)
    (vc_write_refusal c) (vc_field_ttl c) (vc_server_hashvalue c) (vc_mapping_hashvalue c).
Definition set_hashes (sh mh : Z) (c : VfdwConn) : VfdwConn :=
  MkVfdwConn (vc_open c) (vc_wire c) (vc_node_host c) (vc_node_port c) (vc_opts c) (vc_resp3 c)
    (vc_database c) (vc_invalidated c) (vc_leased c) (vc_lease_subid c) (vc_write_refused c)
    (vc_write_refusal c) (vc_field_ttl c) sh mh.

(** A field of the wire half. *)
Definition on_flags (talk loaded : bool) (c : VfdwConn) : VfdwConn :=
  let w := vc_wire c in
  set_socket (vc_open c) (MkConn (cn_peer w) (cn_out w) (cn_in w) talk loaded (cn_faults w)) c.

Definition in_conversation (c : VfdwConn) : bool := cn_in_conversation (vc_wire c).
Definition script_loaded (c : VfdwConn) : bool := cn_script_loaded (vc_wire c).
Definition set_in_conversation (b : bool) (c : VfdwConn) : VfdwConn := on_flags b (script_loaded c) c.
Definition set_script_loaded (b : bool) (c : VfdwConn) : VfdwConn := on_flags (in_conversation c) b c.

Definition vfdw_conn_close (c : VfdwConn) : VfdwConn :=
  let c := set_socket false (vc_wire c) c in
  let c := set_in_conversation false c in
  let c := set_resp3 false c in
  let c := set_database (-1) c in
  let c := set_script_loaded false c in
  set_refusal false "" c.

(* ---------------------------------------------------------------- *)
(** ** Setup *)

Definition on_wire {A} (m : M (Conn (P := P)) A) : M VfdwConn A := λ c,
  let '(r, w) := m (vc_wire c) in (r, set_socket (vc_open c) w c).

(** One command and its reply; NULL is not possible here. *)
Definition round_trip (args : list bytes) : M VfdwConn (option Reply) :=
  on_wire (wire_append args);;;
  on_wire (wire_flush serve);;;
  on_wire wire_take.

Context (verify_mbstr : bytes → bool) (encoding : string).

Definition vfdw_conn_command (what : string) (args : list bytes) : M VfdwConn (option Reply) :=
  saved ← gets in_conversation;
  modify (set_in_conversation true);;;
  (reply ← round_trip args;
   (if vfdw_reply_is_error reply
    then raise (vfdw_error_from_reply verify_mbstr encoding reply what)
    else mret ());;;
   modify (set_in_conversation saved);;;
   mret reply).

(** The reason OpenSSL recorded, if it did, replaces the error. *)
Definition vfdw_conn_force_handshake (tls_reason : option string) : M VfdwConn unit := λ c,
  match vfdw_conn_command "TLS handshake with Valkey failed" ["PING"] c with
  | (Ok _, c) => (Ok (), c)
  | (Raise e, c) =>
      (Raise (match tls_reason with
              | Some _ => PgError ERRCODE_CONNECTION_FAILURE "TLS handshake with Valkey failed"
              | None => e
              end), c)
  end.

Definition vfdw_conn_authenticate (user : VfdwUserOptions) : M VfdwConn unit :=
  match uo_password user with
  | None => mret ()
  | Some password =>
      vfdw_conn_command "authentication to Valkey failed"
        (["AUTH"] ++ (match uo_username user with Some u => [u] | None => [] end) ++ [password]);;;
      mret ()
  end.

(** pg_strncasecmp over ASCII. *)
Definition lower (c : ascii) : ascii :=
  let n := byte_val c in
  if bool_decide (65 ≤ n ≤ 90) then ascii_of_nat (Z.to_nat n + 32) else c.
Fixpoint casecmp_prefix (p s : bytes) : bool :=
  match p, s with
  | EmptyString, _ => true
  | String a p, String b s => bool_decide (lower a = lower b) && casecmp_prefix p s
  | _, EmptyString => false
  end.
Fixpoint find_phrase (p s : bytes) : bool :=
  casecmp_prefix p s || match s with EmptyString => false | String _ r => find_phrase p r end.

Definition vfdw_conn_resp3_declined (reply : option Reply) : bool :=
  if vfdw_reply_has_prefix reply "NOPROTO" then true else
  if negb (vfdw_reply_has_prefix reply "ERR") then false else
  match reply ≫= r_str with
  | Some s => find_phrase "unknown command" s
  | None => false
  end.

Definition vfdw_conn_hello_failure (reply : option Reply) : string :=
  if vfdw_reply_has_prefix reply "NOAUTH" || vfdw_reply_has_prefix reply "WRONGPASS" ||
     vfdw_reply_has_prefix reply "NOPERM"
  then "authentication to Valkey failed" else "could not negotiate RESP3".

Definition vfdw_conn_negotiate_resp3 : M VfdwConn unit :=
  reply ← round_trip ["HELLO"; "3"];
  if vfdw_reply_is_error reply && negb (vfdw_conn_resp3_declined reply)
  then raise (vfdw_error_from_reply verify_mbstr encoding reply (vfdw_conn_hello_failure reply))
  else modify (set_resp3 (match reply with
                          | Some r => bool_decide (r_type r = VALKEY_REPLY_MAP)
                          | None => false
                          end)).

Definition vfdw_conn_probe_script (script_text : bytes) : M VfdwConn unit :=
  reply ← round_trip ["SCRIPT"; "LOAD"; script_text];
  let loaded := negb (vfdw_reply_is_error reply) in
  let refused := negb loaded && negb (vfdw_reply_has_prefix reply "LOADING") &&
                 negb (vfdw_reply_has_prefix reply "BUSY") in
  modify (set_script_loaded loaded);;;
  modify (set_refusal refused
    (if refused then take_bytes VFDW_MAX_WRITE_REFUSAL (default "" (reply ≫= r_str)) else "")).

Definition vfdw_conn_select_db (database : Z) : M VfdwConn unit :=
  c ← get;
  if bool_decide (vc_database c = database) then mret () else
  if so_cluster (vc_opts c) then
    if negb (bool_decide (database = 0))
    then raise (PgError ERRCODE_FEATURE_NOT_SUPPORTED "Valkey Cluster supports only database 0")
    else modify (set_database 0)
  else
    modify (set_database (-1));;;
    vfdw_conn_command "could not select Valkey database" ["SELECT"; dec database];;;
    modify (set_database database).

(* ---------------------------------------------------------------- *)
(** ** Opening *)

(** vfdw_io_connect: the peer at an address, with the failures that will hit
    the socket; vfdw_tls_attach; and the reason OpenSSL leaves behind. *)
Context (io_connect : bytes → Z → option bytes → result (P * list (option Fault))).
Context (tls_attach : result unit) (tls_reason : option string).

Definition vfdw_conn_open (script_text : bytes) (user : VfdwUserOptions) : M VfdwConn unit :=
  c ← get;
  match (if bool_decide (vc_node_host c = "")
         then io_connect (so_host (vc_opts c)) (so_port (vc_opts c)) (so_unix_socket_path (vc_opts c))
         else io_connect (vc_node_host c) (vc_node_port c) None) with
  | Raise e => raise e
  | Ok (peer, faults) =>
      modify (set_socket true (MkConn peer [] [] (in_conversation c) (script_loaded c) faults));;;
      modify (set_database (-1));;;
      modify (set_in_conversation true);;;
      (if so_tls (vc_opts c)
       then (λ c, (tls_attach, c));;; vfdw_conn_force_handshake tls_reason
       else mret ());;;
      vfdw_conn_authenticate user;;;
      vfdw_conn_negotiate_resp3;;;
      vfdw_conn_probe_script script_text;;;
      modify (set_in_conversation false)
  end.

Definition vfdw_conn_check_password_required (is_superuser : bool) (user : VfdwUserOptions) : result unit :=
  if negb (uo_password_required user) then Ok () else
  match uo_password user with
  | Some _ => Ok ()
  | None =>
      if is_superuser then Ok ()
      else Raise (PgError ERRCODE_S_R_E_PROHIBITED_SQL_STATEMENT_ATTEMPTED "password is required")
  end.

Definition vfdw_conn_begin (c : VfdwConn) : VfdwConn := set_in_conversation true c.
Definition vfdw_conn_end (c : VfdwConn) : VfdwConn := set_in_conversation false c.
Definition vfdw_conn_is_cluster (c : VfdwConn) : bool := so_cluster (vc_opts c).
Definition vfdw_conn_is_resp3 (c : VfdwConn) : bool := vc_resp3 c.
Definition vfdw_conn_write_refusal (c : VfdwConn) : option bytes :=
  if negb (vc_write_refused c) then None else Some (vc_write_refusal c).
End connection.
