(* ===== verification/ConnPool.v ===== *)
(** The connection cache: slots per server and user, leases, and what a
    transaction event does to them (src/vfdw_conn_pool.c, src/vfdw_conn_xact.c
    and the cache half of src/vfdw_conn.c).

    The hash table is a finite map; an entry that HASH_ENTER creates has only its
    key filled in, so its other bytes are the parameter [garbage]. *)
From S2P Require Import Prelude Option Error Cmd Connection.
From stdpp Require Import gmap.
Local Open Scope Z_scope.

Definition VfdwConnKey : Type := Z * Z * Z.
Definition VFDW_MAX_CONN_SLOTS : nat := 32.
Definition InvalidSubTransactionId : Z := 0.

Inductive XactEvent :=
  | XACT_EVENT_COMMIT | XACT_EVENT_PARALLEL_COMMIT | XACT_EVENT_ABORT | XACT_EVENT_PARALLEL_ABORT
  | XACT_EVENT_PREPARE | XACT_EVENT_PRE_COMMIT | XACT_EVENT_PARALLEL_PRE_COMMIT
  | XACT_EVENT_PRE_PREPARE.

#[global] Instance XactEvent_eq_dec : EqDecision XactEvent.
Proof. solve_decision. Defined.

Inductive CacheId := FOREIGNSERVEROID | USERMAPPINGOID.

#[global] Instance CacheId_eq_dec : EqDecision CacheId.
Proof. solve_decision. Defined.

Section pool.
Context {P : Type} (serve : list bytes → P → Reply * P).

(** [None] is a pool that does not exist yet. *)
Record Pool := MkPool { cp_pool : option (gmap VfdwConnKey (VfdwConn (P := P))); cp_opens : Z }.

Definition entries (w : Pool) : gmap VfdwConnKey (VfdwConn (P := P)) := default ∅ (cp_pool w).

Definition set_entries (m : gmap VfdwConnKey (VfdwConn (P := P))) (w : Pool) : Pool :=
  MkPool (Some m) (cp_opens w).

Definition vfdw_conn_init_pool (w : Pool) : Pool :=
  match cp_pool w with Some _ => w | None => MkPool (Some ∅) (cp_opens w) end.

(** Assigning through an entry pointer. *)
Definition upd_entry (k : VfdwConnKey) (f : VfdwConn → VfdwConn) : M Pool unit :=
  modify (λ w, set_entries (alter f k (entries w)) w).

(* ---------------------------------------------------------------- *)
(** ** Taking a slot *)

Context (garbage : VfdwConnKey → VfdwConn (P := P)).

Definition vfdw_conn_init_entry (c : VfdwConn (P := P)) : VfdwConn :=
  let w := vc_wire c in
  MkVfdwConn false (MkConn (cn_peer w) [] [] false false []) "" 0 (vc_opts c) false (-1) false
    false InvalidSubTransactionId false "" (vc_field_ttl c) (vc_server_hashvalue c)
    (vc_mapping_hashvalue c).

(** strncmp over VFDW_MAX_NODE_HOST bytes of two C strings. *)
Definition vfdw_conn_node_matches (c : VfdwConn (P := P)) (host : option bytes) (port : Z) : bool :=
  match host with
  | None => bool_decide (vc_node_host c = "")
  | Some h => bool_decide (vc_node_port c = port) &&
              bool_decide (vc_node_host c = take_bytes VFDW_MAX_NODE_HOST (until_nul h))
  end.

Definition vfdw_conn_claim (host : option bytes) (port subid : Z) (c : VfdwConn (P := P)) : VfdwConn :=
  let c := vfdw_conn_close c in
  let c := set_node (match host with
                     | None => ""
                     | Some h => take_bytes (VFDW_MAX_NODE_HOST - 1) (until_nul h)
                     end) port c in
  set_lease true subid c.

Definition vfdw_conn_no_slots : pg_error :=
  PgError ERRCODE_TOO_MANY_CONNECTIONS "too many concurrent Valkey scans on one server".

(** hash_search with HASH_ENTER, and the initialisation of a new entry. *)
Definition enter (k : VfdwConnKey) : M Pool (VfdwConn (P := P)) :=
  w ← get;
  match entries w !! k with
  | Some c => mret c
  | None =>
      let c := vfdw_conn_init_entry (garbage k) in
      modify (set_entries (<[k := c]> (entries w)));;; mret c
  end.

(** The search, slot by slot: the key of the entry that was leased. *)
Fixpoint take_loop (serverid userid : Z) (host : option bytes) (port subid : Z) (slots : list Z)
    (virgin victim : option VfdwConnKey) : M Pool VfdwConnKey :=
  match slots with
  | [] =>
      match (match virgin with Some k => Some k | None => victim end) with
      | Some k => upd_entry k (vfdw_conn_claim host port subid);;; mret k
      | None => raise vfdw_conn_no_slots
      end
  | slot :: rest =>
      let k := (serverid, userid, slot) in
      c ← enter k;
      if vc_leased c then take_loop serverid userid host port subid rest virgin victim else
      if vfdw_conn_node_matches c host port then
        upd_entry k (set_lease true subid);;; mret k
      else if negb (vc_open c) then
        take_loop serverid userid host port subid rest
          (match virgin with None => Some k | _ => virgin end) victim
      else
        take_loop serverid userid host port subid rest virgin
          (match victim with None => Some k | _ => victim end)
  end.

Definition all_slots : list Z := Z.of_nat <$> seq 0 VFDW_MAX_CONN_SLOTS.

Definition vfdw_conn_take_free_slot (serverid userid : Z) (host : option bytes) (port subid : Z)
    : M Pool VfdwConnKey :=
  take_loop serverid userid host port subid all_slots None None.

(* ---------------------------------------------------------------- *)
(** ** Getting and releasing a connection *)

Context (verify_mbstr : bytes → bool) (encoding : string).
Context (io_connect : bytes → Z → option bytes → result (P * list (option Fault))).
Context (tls_attach : result unit) (tls_reason : option string) (script_text : bytes).

(** Running code on one entry in place; a socket it opens is counted. *)
Definition on_entry {A} (k : VfdwConnKey) (m : M (VfdwConn (P := P)) A) (dflt : A) : M Pool A := λ w,
  match entries w !! k with
  | None => (Ok dflt, w)
  | Some c =>
      let '(r, c') := m c in
      (r, MkPool (Some (<[k := c']> (entries w)))
            (cp_opens w + if negb (vc_open c) && vc_open c' then 1 else 0))
  end.

(** The catalog's side: the options, the hash values and the role. *)
Record Catalog := MkCatalog {
  ct_server : result VfdwServerOptions; ct_user : result VfdwUserOptions;
  ct_server_hash : Z; ct_mapping_hash : Z; ct_superuser : bool
}.

Definition vfdw_get_connection_internal (serverid userid : Z) (ct : Catalog) (cluster_aware : bool)
    (host : option bytes) (port subid : Z) : M Pool VfdwConnKey :=
  modify vfdw_conn_init_pool;;;
  (k ← vfdw_conn_take_free_slot serverid userid host port subid;
   upd_entry k (λ c, if vc_invalidated c then set_invalidated false (vfdw_conn_close c) else c);;;
   upd_entry k (set_hashes (ct_server_hash ct) (ct_mapping_hash ct));;;
   (so ← (λ w, (ct_server ct, w));
    upd_entry k (set_opts so);;;
    (uo ← (λ w, (ct_user ct, w));
     (λ w, (vfdw_conn_check_password_required (ct_superuser ct) uo, w));;;
     (if so_cluster so && negb cluster_aware
      then raise (PgError ERRCODE_FEATURE_NOT_SUPPORTED
                    "this operation does not support Valkey Cluster")
      else mret ());;;
     on_entry k
       (c ← get;
        if negb (vc_open c)
        then vfdw_conn_open serve verify_mbstr encoding io_connect tls_attach tls_reason script_text uo
        else mret ()) ();;;
     mret k))).

Definition vfdw_get_connection (serverid userid : Z) (ct : Catalog) (subid : Z) : M Pool VfdwConnKey :=
  vfdw_get_connection_internal serverid userid ct false None 0 subid.

Definition vfdw_get_connection_cluster (serverid userid : Z) (ct : Catalog) (subid : Z)
    : M Pool VfdwConnKey :=
  vfdw_get_connection_internal serverid userid ct true None 0 subid.

Definition vfdw_get_connection_node (serverid userid : Z) (ct : Catalog) (host : bytes)
    (port subid : Z) : M Pool VfdwConnKey :=
  vfdw_get_connection_internal serverid userid ct true (Some host) port subid.

Definition vfdw_release_connection (k : option VfdwConnKey) : M Pool unit :=
  match k with
  | Some k => upd_entry k (set_lease false InvalidSubTransactionId)
  | None => mret ()
  end.

Definition vfdw_conn_peek (w : Pool) (serverid userid : Z) : option VfdwConnKey :=
  find (λ k, match entries w !! k with
             | Some c => vc_open c && in_conversation c
             | None => false
             end) ((λ slot, (serverid, userid, slot)) <$> all_slots).

(* ---------------------------------------------------------------- *)
(** ** Events *)

(** What the end of a transaction does to one entry. *)
Definition sweep (c : VfdwConn (P := P)) : VfdwConn :=
  if negb (vc_open c) then c else
  let c := if in_conversation c || vc_invalidated c then vfdw_conn_close c else c in
  set_lease false InvalidSubTransactionId c.

Definition vfdw_conn_xact (event : XactEvent) (w : Pool) : Pool :=
  match cp_pool w with
  | None => w
  | Some m =>
      match event with
      | XACT_EVENT_COMMIT | XACT_EVENT_PARALLEL_COMMIT
      | XACT_EVENT_ABORT | XACT_EVENT_PARALLEL_ABORT => set_entries (sweep <$> m) w
      | _ => w
      end
  end.

Definition abort_entry (mySubid : Z) (c : VfdwConn (P := P)) : VfdwConn :=
  let c := if vc_open c && in_conversation c then vfdw_conn_close c else c in
  if vc_leased c && bool_decide (vc_lease_subid c = mySubid)
  then set_script_loaded false (set_lease false InvalidSubTransactionId c) else c.

Definition vfdw_conn_subxact (abort_sub : bool) (mySubid : Z) (w : Pool) : Pool :=
  match cp_pool w with
  | Some m => if negb abort_sub then w else set_entries (abort_entry mySubid <$> m) w
  | None => w
  end.

Definition inval_entry (cacheid : CacheId) (hashvalue : Z) (c : VfdwConn (P := P)) : VfdwConn :=
  if negb (vc_open c) then c else
  if bool_decide (hashvalue = 0) ||
     (bool_decide (cacheid = FOREIGNSERVEROID) && bool_decide (vc_server_hashvalue c = hashvalue)) ||
     (bool_decide (cacheid = USERMAPPINGOID) && bool_decide (vc_mapping_hashvalue c = hashvalue))
  then set_invalidated true c else c.

Definition vfdw_conn_inval_callback (cacheid : CacheId) (hashvalue : Z) (w : Pool) : Pool :=
  match cp_pool w with
  | Some m => set_entries (inval_entry cacheid hashvalue <$> m) w
  | None => w
  end.

Definition vfdw_conn_pool_size (w : Pool) : Z :=
  Z.of_nat (size (filter (λ kc, vc_open kc.2 = true) (entries w))).

Definition vfdw_conn_open_count (w : Pool) : Z := cp_opens w.

Definition vfdw_conn_leased_count (w : Pool) : Z :=
  Z.of_nat (size (filter (λ kc, vc_leased kc.2 = true) (entries w))).
End pool.
