(* ===== verification/ConnFacts.v ===== *)
(** What the connection cache guarantees: a slot is leased to one reader at a
    time, and no transaction leaves behind an open connection with a reply
    nobody read (src/vfdw_conn.c, src/vfdw_conn_pool.c, src/vfdw_conn_xact.c). *)
From S2P Require Import Prelude Option OptionFacts Error Cmd CmdFacts Connection ConnPool.
From stdpp Require Import list gmap.
Local Open Scope Z_scope.

Section entry.
Context {P : Type} (serve : list bytes → P → Reply * P).
Context (verify_mbstr : bytes → bool) (encoding : string).

(** Nothing is buffered in either direction. *)
Definition wire_clean (c : VfdwConn (P := P)) : Prop :=
  cn_out (vc_wire c) = [] ∧ cn_in (vc_wire c) = [].

(** An open connection that is not in a conversation has nothing unread. *)
Definition entry_ok (c : VfdwConn (P := P)) : Prop :=
  vc_open c = true → in_conversation c = false → wire_clean c.

(* ---------------------------------------------------------------- *)
(** ** Setup commands *)

Lemma round_trip_wp args c :
  wire_clean c →
  wp (round_trip serve args)
    (λ r c', is_Some r ∧ wire_clean c' ∧ in_conversation c' = in_conversation c ∧ vc_open c' = vc_open c)
    (λ _ c', in_conversation c' = in_conversation c ∧ vc_open c' = vc_open c) c.
Proof.
  intros [Ho Hi]. destruct c as [op [peer out inp talk loaded faults] ? ? ? ? ? ? ? ? ? ? ? ? ?].
  unfold wire_clean, in_conversation, round_trip, on_wire, wire_append, wp, mbind, M_bind in *.
  simpl in *. subst out inp.
  destruct faults as [|[f1|] faults]; simpl; [|done|].
  - unfold wire_flush. simpl. destruct (serve args peer) as [r p]. simpl.
    unfold wire_take. simpl. eauto.
  - unfold wire_flush. simpl. destruct faults as [|[f2|] faults]; simpl.
    + destruct (serve args peer) as [r p]. simpl. unfold wire_take. simpl. eauto.
    + by destruct (f_delivered f2).
    + destruct (serve args peer) as [r p]. simpl. unfold wire_take. simpl.
      destruct faults as [|[f3|] faults]; simpl; eauto.
Qed.

(** A setup command restores the flag when it returns and leaves it set when
    it raises. *)
Lemma command_wp what args c :
  wire_clean c →
  wp (vfdw_conn_command serve verify_mbstr encoding what args)
    (λ _ c', wire_clean c' ∧ in_conversation c' = in_conversation c ∧ vc_open c' = vc_open c)
    (λ _ c', in_conversation c' = true ∧ vc_open c' = vc_open c) c.
Proof.
  intros Hc. unfold vfdw_conn_command. apply wp_bind. unfold wp at 1, gets.
  apply wp_bind. unfold wp at 1, modify. apply wp_bind.
  eapply wp_mono; [apply round_trip_wp; exact Hc| |done].
  intros r c1 (Hr & Hcl & Ht & Hopen). apply wp_bind.
  destruct (vfdw_reply_is_error r); [exact (conj Ht Hopen)|].
  unfold wp, mret, M_ret, mbind, M_bind, modify. split; [exact Hcl|]. by split.
Qed.

Context (io_connect : bytes → Z → option bytes → result (P * list (option Fault))).
Context (tls_attach : result unit) (tls_reason : option string) (script_text : bytes).

(** During setup the flag is set throughout. *)
Definition talking (c : VfdwConn (P := P)) : Prop :=
  wire_clean c ∧ in_conversation c = true ∧ vc_open c = true.

Definition mid (c : VfdwConn (P := P)) : Prop := in_conversation c = true ∧ vc_open c = true.

Lemma talking_command what args c :
  talking c → wp (vfdw_conn_command serve verify_mbstr encoding what args) (λ _, talking) (λ _, mid) c.
Proof.
  intros (Hc & Ht & Ho). eapply wp_mono; [by apply command_wp| |].
  - intros _ c' (H1 & H2 & H3). split_and!; [done|congruence|congruence].
  - intros _ c' [H1 H2]. split; congruence.
Qed.

Lemma talking_trip args c :
  talking c → wp (round_trip serve args) (λ _, talking) (λ _, mid) c.
Proof.
  intros (Hc & Ht & Ho). eapply wp_mono; [by apply round_trip_wp| |].
  - intros _ c' (_ & H1 & H2 & H3). split_and!; [done|congruence|congruence].
  - intros _ c' [H1 H2]. split; congruence.
Qed.

Lemma authenticate_wp user c :
  talking c → wp (vfdw_conn_authenticate serve verify_mbstr encoding user) (λ _, talking) (λ _, mid) c.
Proof.
  intros Hc. unfold vfdw_conn_authenticate. destruct (uo_password user); [|done].
  apply wp_bind. eapply wp_mono; [by apply talking_command|done|done].
Qed.

Lemma negotiate_wp c :
  talking c → wp (vfdw_conn_negotiate_resp3 serve verify_mbstr encoding) (λ _, talking) (λ _, mid) c.
Proof.
  intros Hc. apply wp_bind. eapply wp_mono; [by apply talking_trip| |done].
  intros r c1 (H1 & H2 & H3). by destruct (_ && _).
Qed.

Lemma probe_wp c :
  talking c → wp (vfdw_conn_probe_script serve script_text) (λ _, talking) (λ _, mid) c.
Proof.
  intros Hc. apply wp_bind. eapply wp_mono; [by apply talking_trip| |done].
  intros r c1 (H1 & H2 & H3). done.
Qed.

Lemma handshake_wp c :
  talking c → wp (vfdw_conn_force_handshake serve verify_mbstr encoding tls_reason)
                (λ _, talking) (λ _, mid) c.
Proof.
  intros Hc. pose proof (talking_command "TLS handshake with Valkey failed" ["PING"] c Hc) as H.
  unfold wp, vfdw_conn_force_handshake in *.
  by destruct (vfdw_conn_command _ _ _ _ _ c) as [[r|e] c'].
Qed.

(** Opening ends quiescent, or closed, or mid-conversation. *)
Lemma open_wp user c :
  vc_open c = false →
  wp (vfdw_conn_open serve verify_mbstr encoding io_connect tls_attach tls_reason script_text user)
    (λ _ c', wire_clean c' ∧ in_conversation c' = false ∧ vc_open c' = true)
    (λ _ c', c' = c ∨ mid c') c.
Proof.
  intros Hclosed. unfold vfdw_conn_open. apply wp_bind. unfold wp at 1, get.
  set (conn := if bool_decide _ then _ else _). destruct conn as [[peer faults]|e]; [|by left].
  apply wp_bind. unfold wp at 1, modify at 1. apply wp_bind. unfold wp at 1, modify at 1.
  apply wp_bind. unfold wp at 1, modify at 1.
  match goal with |- wp _ _ _ ?x => assert (Hx : talking x) by done; generalize dependent x end.
  intros c1 Hx. apply wp_bind.
  eapply (wp_mono _ (λ _, talking) _ (λ _, mid)); [| |by right].
  { destruct (so_tls (vc_opts c)); [|done]. apply wp_bind. unfold wp at 1.
    destruct tls_attach; [by apply handshake_wp|]. split; apply Hx. }
  intros [] c2 H2. apply wp_bind. eapply wp_mono; [by apply authenticate_wp| |by right].
  intros [] c3 H3. apply wp_bind. eapply wp_mono; [by apply negotiate_wp| |by right].
  intros [] c4 H4. apply wp_bind. eapply wp_mono; [by apply probe_wp| |by right].
  intros [] c5 (H5 & _ & H6). unfold wp, modify. by split_and!.
Qed.

Lemma open_entry_ok user c :
  vc_open c = false →
  entry_ok (vfdw_conn_open serve verify_mbstr encoding io_connect tls_attach tls_reason script_text
              user c).2.
Proof.
  intros Hc. pose proof (open_wp user c Hc) as H. unfold wp in H.
  destruct (vfdw_conn_open _ _ _ _ _ _ _ _ c) as [[[]|e] c']; simpl; intros Ho Ht.
  - apply H.
  - destruct H as [->|[H _]]; congruence.
Qed.

Lemma close_ok c : entry_ok (vfdw_conn_close c).
Proof. intros H. discriminate H. Qed.
End entry.

(* ---------------------------------------------------------------- *)
(** ** Taking a slot *)

Section take.
Context {P : Type} (garbage : VfdwConnKey → VfdwConn (P := P)).

(** Entries are never lost by a search, and the ones it adds are closed. *)
Definition extends (w w' : Pool (P := P)) : Prop :=
  (∀ k c, entries w !! k = Some c → entries w' !! k = Some c) ∧
  (∀ k c, entries w' !! k = Some c → entries w !! k = Some c ∨ vc_open c = false).

Lemma extends_refl w : extends w w.
Proof. split; [by intros k c|by left]. Qed.

Lemma extends_trans w1 w2 w3 : extends w1 w2 → extends w2 w3 → extends w1 w3.
Proof.
  intros [Ha Hb] [Hc Hd]. split; [by intros k c Hk; apply Hc, Ha|].
  intros k c Hk. destruct (Hd k c Hk) as [H|H]; [by apply Hb|by right].
Qed.

Lemma enter_wp k w :
  wp (enter garbage k)
    (λ c w', entries w' !! k = Some c ∧ extends w w') (λ _ _, False) w.
Proof.
  unfold enter. apply wp_bind. unfold wp at 1, get. destruct (entries w !! k) as [c|] eqn:E.
  - split; [done|apply extends_refl].
  - apply wp_bind. unfold wp at 1, modify. unfold wp, mret, M_ret. unfold entries at 1. simpl.
    split; [apply lookup_insert_eq|]. split.
    + intros k0 c0 H0. unfold entries at 1. simpl. rewrite lookup_insert_ne; [done|congruence].
    + intros k0 c0. unfold entries at 1. simpl. rewrite lookup_insert.
      case_decide; [|by left]. intros [= <-]. by right.
Qed.

(** What a search ends with: one entry that nobody was reading from, leased to
    the caller, either as it stood because it is for this node already or
    closed and pointed at it. *)
Definition took (host : option bytes) (port subid : Z) (w : Pool (P := P)) (k : VfdwConnKey)
    (w' : Pool (P := P)) : Prop :=
  ∃ w1 c f, extends w w1 ∧ entries w1 !! k = Some c ∧ vc_leased c = false ∧
    entries w' = alter f k (entries w1) ∧
    (vfdw_conn_node_matches c host port = true ∧ f = set_lease true subid ∨
     f = vfdw_conn_claim host port subid).

Lemma took_extends host port subid w w1 k w' :
  extends w w1 → took host port subid w1 k w' → took host port subid w k w'.
Proof.
  intros He (w2 & c & f & H1 & H2). exists w2, c, f. split; [|done]. by eapply extends_trans.
Qed.

Definition free_in (w : Pool (P := P)) (o : option VfdwConnKey) : Prop :=
  ∀ k, o = Some k → ∃ c, entries w !! k = Some c ∧ vc_leased c = false.

Lemma free_extends w w' o : extends w w' → free_in w o → free_in w' o.
Proof. intros [He _] Hf k Hk. destruct (Hf k Hk) as (c & H1 & H2). exists c. auto. Qed.

Lemma free_pick w o k c :
  free_in w o → entries w !! k = Some c → vc_leased c = false →
  free_in w (match o with None => Some k | _ => o end).
Proof.
  intros Ho Hk Hc k'. destruct o as [k0|]; intros [= <-]; [by apply Ho|by exists c].
Qed.

Lemma take_loop_wp s u host port subid slots virgin victim w :
  free_in w virgin → free_in w victim →
  wp (take_loop garbage s u host port subid slots virgin victim)
    (took host port subid w)
    (λ e w', (e = vfdw_conn_no_slots ∧ virgin = None ∧ victim = None) ∧ extends w w' ∧
       ∀ slot, slot ∈ slots → ∃ c, entries w' !! (s, u, slot) = Some c ∧ vc_leased c = true) w.
Proof.
  revert virgin victim w. induction slots as [|slot rest IH]; intros virgin victim w Hv Hc.
  - assert (Hpick : free_in w (match virgin with Some k => Some k | None => victim end))
      by by destruct virgin.
    simpl. destruct (match virgin with Some k => Some k | None => victim end) as [k|] eqn:E.
    + destruct (Hpick k eq_refl) as (c & H1 & H2).
      exists w, c, (vfdw_conn_claim host port subid). split; [apply extends_refl|].
      split_and!; try done. by right.
    + destruct virgin; [done|]. subst victim. split; [done|].
      split; [apply extends_refl|by intros slot ?%not_elem_of_nil].
  - cbn [take_loop]. apply wp_bind. eapply wp_mono; [apply enter_wp| |done].
    intros c w1 (Hk & He).
    pose proof (free_extends _ _ _ He Hv) as Hv1. pose proof (free_extends _ _ _ He Hc) as Hc1.
    destruct (vc_leased c) eqn:El; [|destruct (vfdw_conn_node_matches c host port) eqn:Em;
      [|destruct (negb (vc_open c)) eqn:Eo]].
    + eapply wp_mono; [by apply IH|intros k w'; by apply took_extends|].
      intros e w' (He1 & He' & Hall). split; [done|]. split; [by eapply extends_trans|].
      intros slot' [->|Hin]%elem_of_cons; [|by apply Hall]. exists c. split; [by apply (proj1 He')|done].
    + exists w1, c, (set_lease true subid). split; [done|]. split_and!; try done. by left.
    + eapply wp_mono; [apply IH; [by eapply free_pick|done]|intros k w'; by apply took_extends|].
      intros e w' ((_ & Hn & _) & _). by destruct virgin.
    + eapply wp_mono; [apply IH; [done|by eapply free_pick]|intros k w'; by apply took_extends|].
      intros e w' ((_ & _ & Hn) & _). by destruct victim.
Qed.

Lemma take_wp s u host port subid w :
  wp (vfdw_conn_take_free_slot garbage s u host port subid)
    (took host port subid w)
    (λ e w', e = vfdw_conn_no_slots ∧ extends w w' ∧
       ∀ slot, slot ∈ all_slots → ∃ c, entries w' !! (s, u, slot) = Some c ∧ vc_leased c = true) w.
Proof.
  eapply wp_mono; [by apply take_loop_wp|done|]. by intros e w' ((-> & _) & H).
Qed.

Lemma short_host_matches h port subid (c : VfdwConn (P := P)) :
  (String.length (until_nul h) < VFDW_MAX_NODE_HOST)%nat →
  vfdw_conn_node_matches (vfdw_conn_claim (Some h) port subid c) (Some h) port = true.
Proof.
  intros Hh. unfold vfdw_conn_node_matches.
  assert (Ht : ∀ n (s : bytes), (String.length s ≤ n)%nat → take_bytes n s = s).
  { induction n as [|n IHn]; intros [|ch s] Hs; simpl in *; try done; [lia|].
    by rewrite IHn by lia. }
  rewrite (bool_decide_true (vc_node_port _ = port)) by done. apply bool_decide_eq_true.
  change (vc_node_host (vfdw_conn_claim (Some h) port subid c))
    with (take_bytes (VFDW_MAX_NODE_HOST - 1) (until_nul h)).
  by rewrite !Ht by lia.
Qed.
End take.

(* ---------------------------------------------------------------- *)
(** ** Sessions *)

Section session.
Context {P : Type} (serve : list bytes → P → Reply * P).
Context (garbage : VfdwConnKey → VfdwConn (P := P)).
Context (verify_mbstr : bytes → bool) (encoding : string).
Context (io_connect : bytes → Z → option bytes → result (P * list (option Fault))).
Context (tls_attach : result unit) (tls_reason : option string) (script_text : bytes).

Definition ends_transaction (event : XactEvent) : bool :=
  match event with
  | XACT_EVENT_COMMIT | XACT_EVENT_PARALLEL_COMMIT
  | XACT_EVENT_ABORT | XACT_EVENT_PARALLEL_ABORT => true
  | _ => false
  end.

(** An open connection outside a conversation, with nothing buffered. *)
Definition settled (c : VfdwConn (P := P)) : Prop :=
  vc_open c = true → in_conversation c = false ∧ wire_clean c.

Lemma settled_entry_ok c : settled c → entry_ok c.
Proof. intros H Ho _. by apply H. Qed.

(** A backend: its cache, the batches that are open, by the connection they
    were begun on, and whether a statement has raised since the last rollback. *)
Record Process := MkProcess {
  ps_pool : Pool (P := P); ps_batches : gmap VfdwConnKey VfdwBatch; ps_failed : bool }.

Definition raised {A} (r : result A) : bool := match r with Ok _ => false | Raise _ => true end.

(** Code that works on the cache, or on one entry of it. *)
Definition on_pool {A} (m : M (Pool (P := P)) A) (s : Process) : Process :=
  let '(r, w) := m (ps_pool s) in MkProcess w (ps_batches s) (raised r).

(** An operation of the batch that is open on the connection [k]; one that
    closes the batch takes it out of the map. *)
Definition on_open_batch {A} (k : VfdwConnKey) (closes : bool) (m : M (BatchState (P := P)) A)
    (s : Process) : Process :=
  match entries (ps_pool s) !! k, ps_batches s !! k with
  | Some c, Some b =>
      let '(r, bs) := m (MkBS b (vc_wire c)) in
      MkProcess (set_entries (<[k := set_socket (vc_open c) (bs_conn bs) c]> (entries (ps_pool s)))
                   (ps_pool s))
        (if closes && negb (raised r) then delete k (ps_batches s)
         else <[k := bs_batch bs]> (ps_batches s)) (raised r)
  | _, _ => s
  end.

Definition begin_batch (k : VfdwConnKey) (c : VfdwConn (P := P)) (pipeline_batch : Z) (s : Process)
    : Process :=
  let bs := vfdw_batch_begin pipeline_batch (vc_wire c) in
  MkProcess (set_entries (<[k := set_socket (vc_open c) (bs_conn bs) c]> (entries (ps_pool s)))
               (ps_pool s))
    (<[k := bs_batch bs]> (ps_batches s)) (ps_failed s).

(** What a backend does with its cache.  The operations on a connection are the
    operations of the code, run on the socket of the entry: a batch is begun on
    a connection the backend has leased, takes commands and replies in any order
    and is ended, or is abandoned where one of them raises; what it left on the
    wire then stays there.  After an error no statement runs until the
    transaction or the savepoint is rolled back, which is when the memory of the
    open batches goes too. *)
Inductive pstep : Process → Process → Prop :=
  | p_get s u ct aware host port subid w :
      ps_failed w = false →
      pstep w (on_pool (vfdw_get_connection_internal serve garbage verify_mbstr encoding io_connect
                 tls_attach tls_reason script_text s u ct aware host port subid) w)
  | p_select k c database w :
      ps_failed w = false → ps_batches w !! k = None →
      entries (ps_pool w) !! k = Some c → vc_open c = true →
      pstep w (on_pool (on_entry k (vfdw_conn_select_db serve verify_mbstr encoding database) ()) w)
  | p_command k c what args w :
      ps_failed w = false → ps_batches w !! k = None →
      entries (ps_pool w) !! k = Some c → vc_open c = true →
      pstep w (on_pool (on_entry k (vfdw_conn_command serve verify_mbstr encoding what args) None) w)
  | p_begin k c pipeline_batch w :
      ps_failed w = false → ps_batches w !! k = None →
      entries (ps_pool w) !! k = Some c → vc_open c = true → vc_leased c = true →
      pstep w (begin_batch k c pipeline_batch w)
  | p_add k cmd w :
      ps_failed w = false → pstep w (on_open_batch k false (vfdw_batch_add serve cmd) w)
  | p_next k w :
      ps_failed w = false → pstep w (on_open_batch k false (vfdw_batch_next serve) w)
  | p_end k w :
      ps_failed w = false → pstep w (on_open_batch k true (vfdw_batch_end serve) w)
  | p_release k w :
      ps_failed w = false → (∀ k', k = Some k' → ps_batches w !! k' = None) →
      pstep w (on_pool (vfdw_release_connection k) w)
  | p_inval cacheid hashvalue w :
      pstep w (MkProcess (vfdw_conn_inval_callback cacheid hashvalue (ps_pool w)) (ps_batches w)
                 (ps_failed w))
  | p_commit_sub subid w :
      ps_failed w = false →
      pstep w (MkProcess (vfdw_conn_subxact false subid (ps_pool w)) (ps_batches w) false)
  | p_abort_sub subid w :
      pstep w (MkProcess (vfdw_conn_subxact true subid (ps_pool w)) ∅ false)
  | p_pre_commit event w :
      ends_transaction event = false →
      pstep w (MkProcess (vfdw_conn_xact event (ps_pool w)) (ps_batches w) (ps_failed w))
  | p_xact event w :
      ends_transaction event = true →
      pstep w (MkProcess (vfdw_conn_xact event (ps_pool w)) ∅ false).

(** An open batch holds the lease of an open connection that is in a
    conversation and, unless one of its operations raised, counts exactly what
    is on the wire; the connections without a batch are quiet, or after an error
    at least marked. *)
Definition batch_ok (s : Process) (k : VfdwConnKey) (b : VfdwBatch) : Prop :=
  ∃ c, entries (ps_pool s) !! k = Some c ∧ vc_open c = true ∧ vc_leased c = true ∧
    in_conversation c = true ∧ (ps_failed s = false → counted (MkBS b (vc_wire c))).

Definition idle_ok (failed : bool) (c : VfdwConn (P := P)) : Prop :=
  if failed then entry_ok c else settled c.

Record process_ok (s : Process) : Prop := {
  ok_batch k b : ps_batches s !! k = Some b → batch_ok s k b;
  ok_idle k c : entries (ps_pool s) !! k = Some c → ps_batches s !! k = None →
    idle_ok (ps_failed s) c }.

Lemma idle_entry_ok failed c : idle_ok failed c → entry_ok c.
Proof. destruct failed; [done|]. apply settled_entry_ok. Qed.

(** An open connection outside a conversation. *)
Definition live (c : VfdwConn (P := P)) : Prop := settled c ∧ vc_open c = true.

Lemma command_live what args c :
  live c → wp (vfdw_conn_command serve verify_mbstr encoding what args) (λ _, live) (λ _, entry_ok) c.
Proof.
  intros [Hs Ho]. destruct (Hs Ho) as [Ht Hc].
  eapply wp_mono; [by apply (command_wp serve verify_mbstr encoding what args c)| |].
  - intros r c' (H1 & H2 & H3). split; [|by rewrite H3]. intros _. split; [by rewrite H2|done].
  - intros e c' [H _] _ H'. congruence.
Qed.

Lemma select_live database c :
  live c → wp (vfdw_conn_select_db serve verify_mbstr encoding database) (λ _, live) (λ _, entry_ok) c.
Proof.
  intros Hl. unfold vfdw_conn_select_db. apply wp_bind. unfold wp at 1, get.
  destruct (bool_decide _); [done|]. destruct (so_cluster (vc_opts c)).
  { destruct (bool_decide (database = 0)); [done|]. apply settled_entry_ok, Hl. }
  apply wp_bind. unfold wp at 1, modify. apply wp_bind.
  eapply wp_mono; [by apply command_live| |done]. by intros r c' Hc'.
Qed.

(* ---------------------------------------------------------------- *)
(** ** Taking a connection *)

(** A leased connection is not touched, and what is new is idle. *)
Definition moved (failed : bool) (w w' : Pool (P := P)) : Prop :=
  (∀ k c, entries w !! k = Some c → vc_leased c = true → entries w' !! k = Some c) ∧
  (∀ k c', entries w' !! k = Some c' → entries w !! k = Some c' ∨ idle_ok failed c').

Definition free_settled (w : Pool (P := P)) : Prop :=
  ∀ k c, entries w !! k = Some c → vc_leased c = false → settled c.

Lemma closed_settled c : vc_open c = false → settled c.
Proof. intros Hc Ho. congruence. Qed.

Lemma settled_idle failed c : settled c → idle_ok failed c.
Proof. destruct failed; [apply settled_entry_ok|done]. Qed.

Lemma extends_moved failed w w' : extends w w' → moved failed w w'.
Proof.
  intros [Ha Hb]. split; [by intros k c Hk _; apply Ha|]. intros k c' Hk.
  destruct (Hb k c' Hk) as [H|H]; [by left|]. right. by apply settled_idle, closed_settled.
Qed.

(** While a connection is being taken, its entry [k] is the one that moves. *)
Definition taking (w0 : Pool (P := P)) (k : VfdwConnKey) (w : Pool) : Prop :=
  (∀ c, entries w0 !! k = Some c → vc_leased c = false) ∧ moved false w0 w ∧
  ∃ c, entries w !! k = Some c ∧ settled c.

Lemma taking_insert w0 k c opens w :
  taking w0 k w → settled c → taking w0 k (MkPool (Some (<[k := c]> (entries w))) opens).
Proof.
  intros (Hf & [Ha Hb] & _) Hc. split; [done|]. split; [split|].
  - intros k' c' Hk Hl. unfold entries at 1. simpl. rewrite lookup_insert. case_decide; [|by apply Ha].
    subst k'. apply Hf in Hk. congruence.
  - intros k' c'. unfold entries at 1. simpl. rewrite lookup_insert. case_decide; [|by apply Hb].
    intros [= <-]. by right.
  - exists c. split; [|done]. unfold entries. simpl. apply lookup_insert_eq.
Qed.

Lemma taking_upd w0 k f w :
  taking w0 k w → (∀ c, settled c → settled (f c)) → taking w0 k (upd_entry k f w).2.
Proof.
  intros Ht Hf. destruct (proj2 (proj2 Ht)) as (c & Hk & Hc).
  assert (E : (upd_entry k f w).2 = MkPool (Some (<[k := f c]> (entries w))) (cp_opens w)).
  { unfold upd_entry, modify, set_entries. simpl. do 2 f_equal. apply map_eq. intros k'.
    rewrite lookup_alter, lookup_insert. case_decide; [|done]. subst k'. by rewrite Hk. }
  rewrite E. apply taking_insert; [done|by apply Hf].
Qed.

Lemma took_taking host port subid w k w' :
  free_settled w → took host port subid w k w' → taking w k w'.
Proof.
  intros Hs (w1 & c & f & Hext & Hk & Hl & He & Hf).
  assert (Hc : settled c).
  { destruct (proj2 Hext k c Hk) as [H|H]; [by eapply Hs|by apply closed_settled]. }
  assert (Hfc : settled (f c)) by by destruct Hf as [[_ ->]| ->].
  assert (Ht : taking w k w1).
  { split; [|split; [by apply extends_moved|by exists c]].
    intros c0 H0. apply (proj1 Hext) in H0. congruence. }
  pose proof (taking_insert w k (f c) (cp_opens w') w1 Ht Hfc) as Hi.
  assert (Ee : entries w' = <[k := f c]> (entries w1)).
  { rewrite He. apply map_eq. intros k'. rewrite lookup_alter, lookup_insert.
    case_decide; [|done]. subst k'. by rewrite Hk. }
  unfold taking, moved, entries at 2 3 4 in Hi. simpl in Hi. unfold taking, moved. rewrite Ee. exact Hi.
Qed.

(** Opening a connection when it has none, as the code that hands it over does. *)
Lemma opening_wp uo c :
  settled c →
  wp (c ← get;
      if negb (vc_open c)
      then vfdw_conn_open serve verify_mbstr encoding io_connect tls_attach tls_reason script_text uo
      else mret ()) (λ _, live) (λ _, entry_ok) c.
Proof.
  intros Hc. apply wp_bind. unfold wp at 1, get. destruct (vc_open c) eqn:Eo; [done|]. simpl.
  eapply wp_mono; [by apply open_wp| |].
  - intros r c' (H1 & H2 & H3). by split.
  - intros e c' [->|[H _]] Hopen H'; congruence.
Qed.

Lemma get_moved s u ct aware host port subid w :
  free_settled w →
  let '(r, w') := vfdw_get_connection_internal serve garbage verify_mbstr encoding io_connect
    tls_attach tls_reason script_text s u ct aware host port subid w in
  moved (raised r) w w' ∧ ∀ k, r = Ok k → ∃ c, entries w' !! k = Some c ∧ live c.
Proof.
  intros Hs. unfold vfdw_get_connection_internal. rewrite modify_bind.
  assert (Hi : entries (vfdw_conn_init_pool w) = entries w).
  { unfold vfdw_conn_init_pool, entries. destruct (cp_pool w) eqn:E; [by rewrite E|done]. }
  assert (Hi' : free_settled (vfdw_conn_init_pool w)) by (unfold free_settled; rewrite Hi; exact Hs).
  pose proof (wp_run _ _ _ _ (take_wp garbage s u host port subid (vfdw_conn_init_pool w))) as Ht.
  unfold mbind at 1, M_bind at 1.
  destruct (vfdw_conn_take_free_slot _ _ _ _ _ _ _) as [[k|e] w1]; specialize (Ht _ _ eq_refl); simpl in Ht.
  2:{ destruct Ht as (_ & Ht & _). apply (extends_moved true) in Ht. simpl.
      split; [|done]. unfold moved in *. by rewrite Hi in Ht. }
  apply (took_taking _ _ _ _ _ _ Hi') in Ht.
  assert (Hm : ∀ (e : pg_error) w2, taking (vfdw_conn_init_pool w) k w2 →
    moved true w w2 ∧ ∀ k, Raise e = Ok k → ∃ c, entries w2 !! k = Some c ∧ live c).
  { intros e w2 (_ & [Ha Hb] & _). split; [|done]. unfold moved. rewrite Hi in *. split; [done|]. intros k' c' Hk.
    destruct (Hb k' c' Hk) as [H|H]; [by left|right; by apply settled_entry_ok]. }
  assert (Hu : ∀ f (g : unit → M (Pool (P := P)) VfdwConnKey) w2,
    (∀ c, settled c → settled (f c)) → taking (vfdw_conn_init_pool w) k w2 →
    (∀ w3, taking (vfdw_conn_init_pool w) k w3 → let '(r, w') := g () w3 in
       moved (raised r) w w' ∧ ∀ k, r = Ok k → ∃ c, entries w' !! k = Some c ∧ live c) →
    let '(r, w') := (upd_entry k f ≫= g) w2 in
    moved (raised r) w w' ∧ ∀ k, r = Ok k → ∃ c, entries w' !! k = Some c ∧ live c).
  { intros f g w2 Hf H2 Hg. exact (Hg _ (taking_upd _ k f w2 H2 Hf)). }
  apply Hu; [intros c Hc; by destruct (vc_invalidated c)|done|]. intros w2 H2.
  apply Hu; [by intros c Hc|done|]. intros w3 H3.
  unfold mbind at 1, M_bind at 1. destruct (ct_server ct) as [so|]; [|by apply Hm].
  apply Hu; [by intros c Hc|done|]. intros w4 H4.
  unfold mbind at 1, M_bind at 1. destruct (ct_user ct) as [uo|]; [|by apply Hm].
  unfold mbind at 1, M_bind at 1. destruct (vfdw_conn_check_password_required _ _); [|by apply Hm].
  unfold mbind at 1, M_bind at 1. destruct (so_cluster so && negb aware); [by apply Hm|].
  unfold mret at 1, M_ret at 1, mbind at 1, M_bind at 1.
  destruct (proj2 (proj2 H4)) as (c & Hk & Hc). unfold on_entry. rewrite Hk.
  pose proof (opening_wp uo c Hc) as Ho. unfold wp in Ho.
  destruct ((get ≫= _) c) as [[[]|e] c'].
  - split; [|intros k' [= <-]; exists c'; split; [apply lookup_insert_eq|exact Ho]].
    pose proof (taking_insert _ k c' (cp_opens w4 + (if negb (vc_open c) && vc_open c' then 1 else 0)) w4 H4 (proj1 Ho)) as Hi2.
    destruct Hi2 as (_ & Hi2 & _). unfold moved in Hi2. rewrite Hi in Hi2. exact Hi2.
  - split; [|done]. destruct H4 as (Hf & [Ha Hb] & _). rewrite Hi in *. split.
    + intros k' c0 H0 Hl. unfold entries at 1. simpl. rewrite lookup_insert. case_decide; [|by apply Ha].
      subst k'. apply Hf in H0. congruence.
    + intros k' c0. unfold entries at 1. simpl. rewrite lookup_insert. case_decide.
      * intros [= <-]. by right.
      * intros Hk'. destruct (Hb _ _ Hk') as [Hl|Hl]; [by left|right; by apply settled_entry_ok].
Qed.

(* ---------------------------------------------------------------- *)
(** ** The invariant *)

(** Steps that leave the batches alone. *)
Lemma moved_ok failed w p :
  process_ok w → ps_failed w = false → moved failed (ps_pool w) p →
  process_ok (MkProcess p (ps_batches w) failed).
Proof.
  intros [Hb Hi] Hf [Ha Hn]. split; simpl.
  - intros k b Hk. destruct (Hb k b Hk) as (c & H1 & H2 & H3 & H4 & H5). exists c.
    split; [by apply Ha|]. split_and!; [done..|]. intros _. by apply H5.
  - intros k c Hk Hbk. destruct (Hn k c Hk) as [H|H]; [|done]. rewrite Hf in Hi.
    by apply settled_idle, (Hi k).
Qed.

Lemma free_settled_ok w : process_ok w → ps_failed w = false → free_settled (ps_pool w).
Proof.
  intros [Hb Hi] Hf k c Hk Hl. rewrite Hf in Hi. apply (Hi k); [done|].
  destruct (ps_batches w !! k) as [b|] eqn:E; [|done].
  destruct (Hb k b E) as (c' & H1 & _ & H3 & _). congruence.
Qed.

(** One entry without a batch is replaced. *)
Lemma insert_ok w k c opens failed :
  process_ok w → ps_failed w = false → ps_batches w !! k = None → idle_ok failed c →
  process_ok (MkProcess (MkPool (Some (<[k := c]> (entries (ps_pool w)))) opens) (ps_batches w) failed).
Proof.
  intros [Hb Hi] Hf Hnone Hc. split; simpl.
  - intros k' b Hk. destruct (Hb k' b Hk) as (c' & H1 & H2 & H3 & H4 & H5). exists c'.
    split; [unfold entries; simpl; rewrite lookup_insert_ne; [done|congruence]|].
    split_and!; [done..|]. intros _. by apply H5.
  - intros k' c'. unfold entries at 1. simpl. rewrite lookup_insert. case_decide; [by intros [= <-]|].
    intros Hk Hbk. rewrite Hf in Hi. by apply settled_idle, (Hi k').
Qed.

Lemma on_entry_ok {A} k c (m : M (VfdwConn (P := P)) A) d w :
  process_ok w → ps_failed w = false → ps_batches w !! k = None →
  entries (ps_pool w) !! k = Some c → wp m (λ _, settled) (λ _, entry_ok) c →
  process_ok (on_pool (on_entry k m d) w).
Proof.
  intros Hw Hf Hb Hk Hm. unfold on_pool, on_entry. rewrite Hk. unfold wp in Hm.
  destruct (m c) as [[a|e] c']; simpl; by apply insert_ok.
Qed.

(** An entry with a batch is replaced, and its batch with it. *)
Lemma batch_insert_ok w k c b failed :
  process_ok w → ps_failed w = false → vc_open c = true → vc_leased c = true →
  in_conversation c = true → (failed = false → counted (MkBS b (vc_wire c))) →
  process_ok (MkProcess (set_entries (<[k := c]> (entries (ps_pool w))) (ps_pool w))
                (<[k := b]> (ps_batches w)) failed).
Proof.
  intros [Hb Hi] Hf Ho Hl Ht Hc. split; simpl.
  - intros k' b'. unfold batch_ok, entries at 1. simpl. rewrite !lookup_insert. case_decide.
    + intros [= <-]. by exists c.
    + intros Hk. destruct (Hb k' b' Hk) as (c' & H1 & H2 & H3 & H4 & H5). exists c'.
      split_and!; [done..|]. intros _. by apply H5.
  - intros k' c'. unfold entries at 1. simpl. rewrite !lookup_insert. case_decide; [done|].
    intros Hk Hbk. rewrite Hf in Hi. by apply settled_idle, (Hi k').
Qed.

Lemma batch_op_ok {A} k (m : M (BatchState (P := P)) A) w :
  process_ok w → ps_failed w = false → keeps_flag m →
  (∀ s a s', counted s → m s = (Ok a, s') → counted s') →
  process_ok (on_open_batch k false m w).
Proof.
  intros Hw Hf Hk Hm. unfold on_open_batch.
  destruct (entries (ps_pool w) !! k) as [c|] eqn:Ec; [|done].
  destruct (ps_batches w !! k) as [b|] eqn:Eb; [|done].
  destruct (ok_batch _ Hw k b Eb) as (c' & H1 & H2 & H3 & H4 & H5).
  assert (c' = c) as -> by congruence. specialize (H5 Hf). specialize (Hk (MkBS b (vc_wire c))).
  destruct (m (MkBS b (vc_wire c))) as [[a|e] [b' wire']] eqn:Em; simpl in *;
    (apply batch_insert_ok; [done..| |]).
  - exact (eq_trans Hk H4).
  - intros _. exact (Hm _ _ _ H5 Em).
  - exact (eq_trans Hk H4).
  - done.
Qed.

Lemma batch_end_ok k w :
  process_ok w → ps_failed w = false → process_ok (on_open_batch k true (vfdw_batch_end serve) w).
Proof.
  intros Hw Hf. unfold on_open_batch.
  destruct (entries (ps_pool w) !! k) as [c|] eqn:Ec; [|done].
  destruct (ps_batches w !! k) as [b|] eqn:Eb; [|done].
  destruct (ok_batch _ Hw k b Eb) as (c' & H1 & H2 & H3 & H4 & H5).
  assert (c' = c) as -> by congruence. specialize (H5 Hf).
  destruct (vfdw_batch_end serve (MkBS b (vc_wire c))) as [[[]|e] [b' wire']] eqn:Em; simpl in *.
  - destruct (end_quiet serve _ _ H5 Em) as (Ht & Hout & Hin). destruct Hw as [Hb Hi]. split; simpl.
    + intros k' b''. rewrite lookup_delete. case_decide; [done|]. intros Hk.
      destruct (Hb k' b'' Hk) as (c' & G1 & G2 & G3 & G4 & G5). exists c'.
      unfold entries. simpl. rewrite lookup_insert_ne by done. split_and!; [done..|]. intros _. by apply G5.
    + intros k' c'. unfold entries at 1. simpl. rewrite lookup_insert, lookup_delete. case_decide.
      * intros [= <-] _ _. by split.
      * intros Hk Hbk. rewrite Hf in Hi. by apply (Hi k').
  - apply batch_insert_ok; [done..| |done].
    exact (eq_trans (end_raise_flag serve _ _ _ Em) H4).
Qed.

(** Steps that change every entry alike. *)
Lemma map_ok (f : VfdwConn (P := P) → VfdwConn) m w batches failed :
  cp_pool (ps_pool w) = Some m → process_ok w →
  (∀ k b c, batches !! k = Some b → batch_ok w k b → entries (ps_pool w) !! k = Some c →
     batch_ok (MkProcess (set_entries (f <$> m) (ps_pool w)) batches failed) k b) →
  (∀ k b, batches !! k = Some b → ps_batches w !! k = Some b) →
  (∀ k c, entries (ps_pool w) !! k = Some c → batches !! k = None → idle_ok failed (f c)) →
  process_ok (MkProcess (set_entries (f <$> m) (ps_pool w)) batches failed).
Proof.
  intros Hm [Hb Hi] H1 H2 H3. split; simpl.
  - intros k b Hk. pose proof (Hb k b (H2 k b Hk)) as Hbk. pose proof Hbk as (c & Hc & _). by apply (H1 k b c).
  - intros k c'. unfold entries at 1. simpl. rewrite lookup_fmap. intros [c [Hc ->]]%fmap_Some Hbk.
    apply (H3 k); [by unfold entries; rewrite Hm|done].
Qed.

Lemma process_entry_ok w k c : process_ok w → entries (ps_pool w) !! k = Some c → entry_ok c.
Proof.
  intros [Hb Hi] Hk. destruct (ps_batches w !! k) as [b|] eqn:E.
  - destruct (Hb k b E) as (c' & H1 & _ & _ & H4 & _). intros _ H. congruence.
  - by eapply idle_entry_ok, Hi.
Qed.

(** Rolling back closes what is in a conversation: what is left is quiet. *)
Lemma reset_ok (f : VfdwConn (P := P) → VfdwConn) m w :
  cp_pool (ps_pool w) = Some m → process_ok w → (∀ c, entry_ok c → settled (f c)) →
  process_ok (MkProcess (set_entries (f <$> m) (ps_pool w)) ∅ false).
Proof.
  intros Hm Hw Hf. apply map_ok; [done..|]. intros k c Hk _. by eapply Hf, process_entry_ok.
Qed.

Lemma no_pool_ok w failed : cp_pool (ps_pool w) = None → process_ok (MkProcess (ps_pool w) ∅ failed).
Proof.
  intros Hn. split; simpl.
  - intros k b. by rewrite lookup_empty.
  - intros k c. unfold entries. rewrite Hn. simpl. by rewrite lookup_empty.
Qed.

Lemma abort_settled subid c : entry_ok c → settled (abort_entry subid c).
Proof.
  intros Hc. unfold abort_entry. destruct (vc_open c) eqn:Eo; simpl.
  2:{ intros Ho. by destruct (_ && _); simpl in Ho; congruence. }
  destruct (in_conversation c) eqn:Et; simpl.
  { intros Ho. by destruct (_ && _). }
  destruct (Hc Eo Et) as [Hout Hin]. by destruct (_ && _).
Qed.

Lemma sweep_settled c : entry_ok c → settled (sweep c).
Proof.
  intros Hc. unfold sweep. destruct (vc_open c) eqn:Eo; simpl; [|intros Ho; congruence].
  destruct (in_conversation c) eqn:Et; simpl; [by intros Ho|].
  destruct (vc_invalidated c); [by intros Ho|]. destruct (Hc Eo Et). by intros _.
Qed.

Lemma inval_same cacheid hashvalue (c : VfdwConn (P := P)) :
  let c' := inval_entry cacheid hashvalue c in
  vc_open c' = vc_open c ∧ vc_leased c' = vc_leased c ∧ vc_wire c' = vc_wire c.
Proof. unfold inval_entry. destruct (vc_open c) eqn:E; simpl; [|done]. by destruct (_ || _). Qed.

Lemma inval_ok cacheid hashvalue w :
  process_ok w →
  process_ok (MkProcess (vfdw_conn_inval_callback cacheid hashvalue (ps_pool w)) (ps_batches w) (ps_failed w)).
Proof.
  intros Hw. unfold vfdw_conn_inval_callback. destruct (cp_pool (ps_pool w)) as [m|] eqn:Em; [|by destruct w].
  apply map_ok; [done..| |done|].
  - intros k b c Hb (c0 & H1 & H2 & H3 & H4 & H5) Hc. exists (inval_entry cacheid hashvalue c0).
    destruct (inval_same cacheid hashvalue c0) as (E1 & E2 & E3). unfold in_conversation in *.
    rewrite E1, E2, E3. unfold entries in *. rewrite Em in H1. simpl in *. by rewrite lookup_fmap, H1.
  - intros k c Hk Hb. pose proof (ok_idle _ Hw k c Hk Hb) as Hi.
    destruct (inval_same cacheid hashvalue c) as (E1 & _ & E3).
    unfold idle_ok, entry_ok, settled, in_conversation, wire_clean in *. by rewrite E1, E3.
Qed.

Lemma pstep_ok w w' : pstep w w' → process_ok w → process_ok w'.
Proof.
  intros Hs Hw. destruct Hs as
    [s u ct aware host port subid w Hf|k c database w Hf Hn Hk Ho|k c what args w Hf Hn Hk Ho
    |k c n w Hf Hn Hk Ho Hl|k cmd w Hf|k w Hf|k w Hf|k w Hf Hn|cacheid hashvalue w|subid w Hf|subid w
    |event w He|event w He].
  - pose proof (get_moved s u ct aware host port subid _ (free_settled_ok w Hw Hf)) as Hm.
    unfold on_pool. destruct (vfdw_get_connection_internal _ _ _ _ _ _ _ _ _ _ _ _ _ _ _ _). by apply moved_ok, Hm.
  - eapply on_entry_ok; [done..|]. pose proof (ok_idle _ Hw k c Hk Hn) as Hi. rewrite Hf in Hi.
    eapply wp_mono; [by apply select_live| |done]. by intros r c' [Hc' _].
  - eapply on_entry_ok; [done..|]. pose proof (ok_idle _ Hw k c Hk Hn) as Hi. rewrite Hf in Hi.
    eapply wp_mono; [by apply command_live| |done]. by intros r c' [Hc' _].
  - unfold begin_batch. rewrite Hf. apply batch_insert_ok; [done..|]. intros _.
    pose proof (ok_idle _ Hw k c Hk Hn) as Hi. rewrite Hf in Hi. destruct (Hi Ho) as (_ & Hout & Hin).
    split; simpl; by rewrite ?Hout, ?Hin.
  - apply batch_op_ok; [done..|apply add_keeps_flag|]. intros s [] s' Hc H. by apply (add_spec serve cmd s).
  - apply batch_op_ok; [done..|apply next_keeps_flag|]. intros s r s' Hc H. by apply (next_spec serve s r).
  - by apply batch_end_ok.
  - destruct k as [k|]; [|by destruct w; simpl in *; subst]. specialize (Hn k eq_refl).
    assert (Hp : ∀ p, entries p = alter (set_lease false InvalidSubTransactionId) k (entries (ps_pool w)) →
      process_ok (MkProcess p (ps_batches w) false)); [|by apply Hp].
    intros p Ep. destruct Hw as [Hb Hi]. split; simpl.
    + intros k' b Hk. destruct (Hb k' b Hk) as (c & H1 & H2). exists c. simpl.
      rewrite Ep, lookup_alter_ne by congruence. rewrite Hf in H2. by split.
    + intros k' c'. rewrite Ep, lookup_alter. rewrite Hf in Hi. case_decide; [|by apply (Hi k')].
      intros [c [Hc ->]]%fmap_Some _. subst k'. by apply (Hi k c).
  - by apply inval_ok.
  - assert (E : vfdw_conn_subxact false subid (ps_pool w) = ps_pool w)
      by (unfold vfdw_conn_subxact; by destruct (cp_pool _)).
    rewrite E. destruct w. simpl in *. by subst.
  - unfold vfdw_conn_subxact. destruct (cp_pool (ps_pool w)) as [m|] eqn:Em; [|by apply no_pool_ok].
    apply reset_ok; [done..|]. intros c. apply abort_settled.
  - assert (E : vfdw_conn_xact event (ps_pool w) = ps_pool w)
      by (unfold vfdw_conn_xact; destruct (cp_pool _); by destruct event).
    rewrite E. by destruct w.
  - unfold vfdw_conn_xact. destruct (cp_pool (ps_pool w)) as [m|] eqn:Em; [|by apply no_pool_ok].
    pose proof (reset_ok sweep m w Em Hw sweep_settled) as Hr. by destruct event.
Qed.

Definition fresh_process : Process := MkProcess (MkPool None 0) ∅ false.

Lemma reachable_ok w : rtc pstep fresh_process w → process_ok w.
Proof.
  assert (H0 : process_ok fresh_process) by by apply (no_pool_ok fresh_process).
  revert H0. generalize fresh_process. intros w0 H0 H.
  induction H as [|w0 w1 w2 H1 _ IH]; [done|]. apply IH. by eapply pstep_ok.
Qed.
End session.

(* ---------------------------------------------------------------- *)
(** ** Properties *)

(** C11: no reply crosses a transaction boundary.  A backend takes and releases
    connections, sends commands on them, begins batches, queues commands, takes
    replies and ends the batches, all with the operations of the code on the
    sockets of the cache, in any order; an operation that raises leaves its
    batch behind with whatever it had on the wire, and catalog changes and
    savepoints come in between.  When the transaction ends, every connection
    that is still open is out of any conversation, has nothing buffered or
    unread on its wire, is leased to nobody and is not marked stale; and if the
    last statement did not fail, a connection whose batches were all ended, and
    which the catalog did not mark stale, is among them.  What the step relation
    takes from the callers is their discipline: a batch is begun on a connection
    the backend has leased and which has no other batch open, commands outside a
    batch are sent, and connections released, when no batch is open on them, and
    after an error nothing runs before a rollback. *)
Theorem transaction_end_leaves_no_unread_reply {P : Type} (serve : list bytes → P → Reply * P)
    (garbage : VfdwConnKey → VfdwConn) (verify_mbstr : bytes → bool) (encoding : string)
    (io_connect : bytes → Z → option bytes → result (P * list (option Fault)))
    (tls_attach : result unit) (tls_reason : option string) (script_text : bytes)
    (w : Process) (event : XactEvent) :
  rtc (pstep serve garbage verify_mbstr encoding io_connect tls_attach tls_reason script_text)
    fresh_process w →
  ends_transaction event = true →
  (∀ k c, entries (vfdw_conn_xact event (ps_pool w)) !! k = Some c → vc_open c = true →
     in_conversation c = false ∧ wire_clean c ∧ vc_leased c = false ∧ vc_invalidated c = false) ∧
  (∀ k c, ps_failed w = false → ps_batches w !! k = None →
     entries (ps_pool w) !! k = Some c → vc_open c = true → vc_invalidated c = false →
     ∃ c', entries (vfdw_conn_xact event (ps_pool w)) !! k = Some c' ∧ vc_open c' = true).
Proof.
  intros Hr He. apply reachable_ok in Hr.
  assert (Hx : ∀ k, entries (vfdw_conn_xact event (ps_pool w)) !! k = sweep <$> entries (ps_pool w) !! k).
  { intros k. unfold vfdw_conn_xact, entries. destruct (cp_pool (ps_pool w)) as [m|] eqn:Em.
    - destruct event; try done; simpl; by rewrite lookup_fmap.
    - rewrite Em. simpl. by rewrite lookup_empty. }
  split.
  - intros k c. rewrite Hx. intros (c0 & Hc0 & ->)%fmap_Some Ho.
    pose proof (process_entry_ok w k c0 Hr Hc0) as Hok.
    destruct (sweep_settled c0 Hok Ho) as [Ht Hcl]. split_and!; [done|exact Hcl|..];
      unfold sweep in *; destruct (vc_open c0) eqn:Eo; simpl in *; try congruence;
      destruct (in_conversation c0); simpl in *; try done; by destruct (vc_invalidated c0) eqn:Ei.
  - intros k c Hf Hb Hk Ho Hi. rewrite Hx, Hk. exists (sweep c). split; [done|].
    pose proof (ok_idle _ Hr k c Hk Hb) as Hs. rewrite Hf in Hs. destruct (Hs Ho) as [Ht _].
    unfold sweep. by rewrite Ho, Ht, Hi.
Qed.

(** A slot is leased to one reader.  The search returns an entry nobody was
    reading from and leases it to the calling subtransaction; it is either one
    that already is a connection to the wanted node, handed over with its socket
    untouched, or one that was closed and pointed at it; every other entry is
    left exactly as it was.  It refuses only when all the slots of this server
    and user are leased. *)
Theorem free_slot_is_exclusive {P : Type} (garbage : VfdwConnKey → VfdwConn)
    (serverid userid : Z) (host : option bytes) (port subid : Z) (w : Pool (P := P)) :
  match vfdw_conn_take_free_slot garbage serverid userid host port subid w with
  | (Ok k, w') =>
      (∀ c, entries w !! k = Some c → vc_leased c = false) ∧
      (∃ c', entries w' !! k = Some c' ∧ vc_leased c' = true ∧ vc_lease_subid c' = subid ∧
         (vc_open c' = true →
            vfdw_conn_node_matches c' host port = true ∧
            ∃ c, entries w !! k = Some c ∧ c' = set_lease true subid c)) ∧
      (∀ k' c, k' ≠ k → entries w !! k' = Some c → entries w' !! k' = Some c)
  | (Raise e, w') =>
      e = vfdw_conn_no_slots ∧
      ∀ slot, slot ∈ all_slots →
        ∃ c, entries w' !! (serverid, userid, slot) = Some c ∧ vc_leased c = true
  end.
Proof.
  pose proof (wp_run _ _ _ _ (take_wp garbage serverid userid host port subid w)) as Hrun.
  generalize dependent (vfdw_conn_take_free_slot garbage serverid userid host port subid w).
  intros [r w'] Hrun. specialize (Hrun r w' eq_refl) as H. clear Hrun.
  destruct r as [k|e]; [|by destruct H as (-> & _ & H)].
  destruct H as (w1 & c & f & Hext & Hk & Hfree & Hw' & Hf). split_and!.
  - intros c0 H0. apply (proj1 Hext) in H0. congruence.
  - exists (f c). rewrite Hw', lookup_alter_eq, Hk. split; [done|].
    destruct Hf as [[Hm ->]| ->]; (split; [done|]); (split; [done|]); [|by intros [=]].
    intros Hopen. split; [exact Hm|]. exists c. split; [|done].
    destruct (proj2 Hext k c Hk) as [H|H]; [done|]. simpl in Hopen. congruence.
  - intros k' c0 Hne H0. rewrite Hw', lookup_alter_ne by done. by apply (proj1 Hext).
Qed.

(** A server that answers every command with a status, and addresses that
    connect to it; uninitialised memory is all zeroes. *)
Module SamplePool.
Definition nod (args : list bytes) (n : nat) : Reply * nat := (status_reply "OK", S n).
Definition zeroed (k : VfdwConnKey) : VfdwConn (P := nat) :=
MkVfdwConn false (MkConn 0%nat [] [] false false []) "" 0 default_options
  false 0 false false 0 false "" VFDW_CAP_UNKNOWN 0 0.
Definition reachable (h : bytes) (p : Z) (u : option bytes) : result (nat * list (option Fault)) :=
Ok (0%nat, []).
Definition unreachable (h : bytes) (p : Z) (u : option bytes) : result (nat * list (option Fault)) :=
Raise (PgError ERRCODE_CONNECTION_FAILURE "could not connect to Valkey").
Definition catalog : Catalog :=
MkCatalog (Ok default_options) (Ok (UserOptions None None false))
  11 12 false.

Definition connect (io : bytes → Z → option bytes → result (nat * list (option Fault)))
  (w : Pool (P := nat)) : result VfdwConnKey * Pool :=
vfdw_get_connection nod zeroed (λ _, true) "UTF8" io (Ok ()) None "#!lua" 1 10 catalog 1 w.

(** Two scans of one server.  The first batch is ended with a reply nobody
    took, the second is abandoned with one. *)
Definition k0 : VfdwConnKey := (1, 10, 0).
Definition k1 : VfdwConnKey := (1, 10, 1).
Definition ping : VfdwCmd := MkCmd ["PING"] 4.
Definition add (k : VfdwConnKey) : Process → Process := on_open_batch k false (vfdw_batch_add nod ping).
Definition next (k : VfdwConnKey) : Process → Process := on_open_batch k false (vfdw_batch_next nod).
Definition finish (k : VfdwConnKey) : Process → Process := on_open_batch k true (vfdw_batch_end nod).

Definition got (s : Process (P := nat)) : Process :=
on_pool (connect reachable) s.
Definition entry (k : VfdwConnKey) (s : Process) : VfdwConn := default (zeroed k) (entries (ps_pool s) !! k).
Definition begun (k : VfdwConnKey) (s : Process) : Process := begin_batch k (entry k s) 2 s.

Definition p_one : Process (P := nat) := add k0 (add k0 (begun k0 (got fresh_process))).
Definition p_first : Process (P := nat) := finish k0 (next k0 p_one).
Definition p_two : Process (P := nat) := next k1 (add k1 (add k1 (begun k1 (got p_first)))).

Definition step := pstep nod zeroed (λ _, true) "UTF8" reachable (Ok ()) None "#!lua".

Definition steps (s : Process (P := nat)) : Prop := rtc step fresh_process s.

Lemma got_steps s : ps_failed s = false → steps s → steps (got s).
Proof. intros Hf Hs. eapply rtc_r; [exact Hs|]. unfold got, connect, vfdw_get_connection. by apply p_get. Qed.

Lemma begun_steps k s :
  ps_failed s = false ∧ ps_batches s !! k = None ∧ vc_leased (entry k s) = true ∧
  entries (ps_pool s) !! k = Some (entry k s) ∧ vc_open (entry k s) = true → steps s → steps (begun k s).
Proof. intros (Hf & Hn & Hl & Hk & Ho) Hs. eapply rtc_r; [exact Hs|]. by apply p_begin. Qed.

Lemma add_steps k s : ps_failed s = false → steps s → steps (add k s).
Proof. intros Hf Hs. eapply rtc_r; [exact Hs|]. by apply p_add. Qed.

Lemma next_steps k s : ps_failed s = false → steps s → steps (next k s).
Proof. intros Hf Hs. eapply rtc_r; [exact Hs|]. by apply p_next. Qed.

Lemma finish_steps k s : ps_failed s = false → steps s → steps (finish k s).
Proof. intros Hf Hs. eapply rtc_r; [exact Hs|]. by apply p_end. Qed.

Lemma p_first_reachable : steps p_first.
Proof.
  unfold p_first, p_one.
  apply finish_steps; [vm_compute; reflexivity|]. apply next_steps; [vm_compute; reflexivity|].
  apply add_steps; [vm_compute; reflexivity|]. apply add_steps; [vm_compute; reflexivity|].
  apply begun_steps; [split_and!; vm_compute; reflexivity|].
  apply got_steps; [reflexivity|]. apply rtc_refl.
Qed.

Lemma p_two_reachable : steps p_two.
Proof.
  unfold p_two.
  apply next_steps; [vm_compute; reflexivity|].
  apply add_steps; [vm_compute; reflexivity|]. apply add_steps; [vm_compute; reflexivity|].
  apply begun_steps; [split_and!; vm_compute; reflexivity|].
  apply got_steps; [vm_compute; reflexivity|]. exact p_first_reachable.
Qed.

Definition w_end : Pool (P := nat) := vfdw_conn_xact XACT_EVENT_ABORT (ps_pool p_two).
Definition kept : VfdwConn (P := nat) := default (zeroed k0) (entries w_end !! k0).
End SamplePool.

(** The reply left in the first batch was drained when the batch was ended, so
    its connection survives; the second connection had one on the wire. *)
Lemma transaction_end_leaves_no_unread_reply_witness :
  cn_in (vc_wire (SamplePool.entry SamplePool.k1 SamplePool.p_two)) = [status_reply "OK"] ∧
  vfdw_conn_pool_size (ps_pool SamplePool.p_two) = 2 ∧ vfdw_conn_pool_size SamplePool.w_end = 1 ∧
  vc_open SamplePool.kept = true ∧
  (in_conversation SamplePool.kept = false ∧ wire_clean SamplePool.kept ∧
   vc_leased SamplePool.kept = false ∧ vc_invalidated SamplePool.kept = false).
Proof.
  split; [vm_compute; reflexivity|]. split; [vm_compute; reflexivity|].
  split; [vm_compute; reflexivity|]. split; [vm_compute; reflexivity|].
  apply (proj1 (transaction_end_leaves_no_unread_reply SamplePool.nod SamplePool.zeroed (λ _, true) "UTF8"
    SamplePool.reachable (Ok ()) None "#!lua" SamplePool.p_two XACT_EVENT_ABORT
    SamplePool.p_two_reachable eq_refl) SamplePool.k0 SamplePool.kept).
  - vm_compute. reflexivity.
  - vm_compute. reflexivity.
Defined.

(* ---------------------------------------------------------------- *)
(** ** Leases without a socket *)

(** One failed connection attempt, in a transaction of its own. *)
Definition failed_statement (w : Pool (P := nat)) : Pool :=
  vfdw_conn_xact XACT_EVENT_ABORT (SamplePool.connect SamplePool.unreachable w).2.

(** A connection attempt that fails before its socket is open keeps its lease
    after the transaction has been rolled back, because the sweep passes over
    entries without a socket: after as many failed statements as there are slots
    the next one is refused for too many scans although nothing is open, even
    once the server is reachable again. *)
Theorem failed_connect_leaks_lease :
  let w := Nat.iter VFDW_MAX_CONN_SLOTS failed_statement (MkPool None 0) in
  vfdw_conn_leased_count w = 32 ∧ vfdw_conn_pool_size w = 0 ∧
  (SamplePool.connect SamplePool.reachable w).1 = Raise vfdw_conn_no_slots.
Proof. split_and!; vm_compute; reflexivity. Qed.

(** Rolling back a savepoint closes the connection of every scan that is in a
    conversation, also of one an outer level opened and is still reading: its
    lease is kept but its socket is gone. *)
Theorem savepoint_abort_closes_outer_scan {P : Type} (w : Pool (P := P)) (k : VfdwConnKey)
    (c : VfdwConn) (outer inner : Z) :
  entries w !! k = Some c → vc_open c = true → in_conversation c = true → vc_leased c = true →
  vc_lease_subid c = outer → outer ≠ inner →
  ∃ c', entries (vfdw_conn_subxact true inner w) !! k = Some c' ∧
    vc_leased c' = true ∧ vc_lease_subid c' = outer ∧ vc_open c' = false.
Proof.
  intros Hk Ho Ht Hl Hs Hne. unfold vfdw_conn_subxact, entries in *.
  destruct (cp_pool w) as [m|] eqn:E; [|discriminate Hk]. simpl in *.
  rewrite lookup_fmap, Hk. eexists. split; [done|]. unfold abort_entry. rewrite Ho, Ht. simpl.
  rewrite Hl. simpl. rewrite bool_decide_false by congruence. done.
Qed.

Lemma savepoint_abort_closes_outer_scan_witness :
  ∃ c', entries (vfdw_conn_subxact true 7 (ps_pool SamplePool.p_one)) !! SamplePool.k0 = Some c' ∧
    vc_leased c' = true ∧ vc_lease_subid c' = 1 ∧ vc_open c' = false.
Proof.
  exact (savepoint_abort_closes_outer_scan (ps_pool SamplePool.p_one) SamplePool.k0
    (SamplePool.entry SamplePool.k0 SamplePool.p_one) 1 7 ltac:(vm_compute; reflexivity) eq_refl eq_refl
    ltac:(vm_compute; reflexivity) ltac:(vm_compute; reflexivity) ltac:(lia)).
Defined.

(** The per-field expiry verdict outlives the socket it was given by: neither
    closing nor repointing an entry returns it to "not asked". *)
Lemma claim_keeps_field_ttl {P : Type} host port subid (c : VfdwConn (P := P)) :
  vc_field_ttl (vfdw_conn_claim host port subid c) = vc_field_ttl c ∧
  vc_field_ttl (vfdw_conn_init_entry c) = vc_field_ttl c.
Proof. done. Qed.
