(* ===== verification/Xact.v ===== *)
(** The transaction callbacks (src/vfdw_xact.c): the one place that sequences the
    write buffer, the flush and the connection cache. *)
From S2P Require Import Prelude Slot Opcode WriteOp Ledger LedgerFacts Wbuf.
From S2P Require Import Error Cmd Script ScriptEncode ScriptEffect FlushCluster Flush FlushFacts.
From S2P Require Import Option OptionFacts Connection ConnPool ConnFacts WritePath.
From stdpp Require Import list gmap.
Local Open Scope Z_scope.

Definition parallel_nonempty : pg_error :=
  elog_error "valkey_fdw write buffer is not empty in a parallel worker".
Definition cannot_prepare : pg_error :=
  PgError ERRCODE_FEATURE_NOT_SUPPORTED
    "cannot PREPARE a transaction that has written to valkey_fdw foreign tables".
Definition survived_prepare : pg_error := elog_error "valkey_fdw write buffer survived PREPARE".
Definition not_flushed : pg_error :=
  elog_error "valkey_fdw write buffer was not flushed at pre-commit".

Section xact.
Context (verify_mbstr : bytes → bool) (encoding : string).
Context {P Db : Type} (serve : list bytes → P → Reply * P).
Context (script_text sha1 : bytes) (pipeline_batch write_retry_count : Z).
Context (fatal : pg_error → bool) (QueryCancelPending ProcDiePending : bool).

(** The statics of the three components; [xs_batch] is the batch the flush last
    used.  [keeper] is the size of the buffer context's keeper block. *)
Record Backend := MkBackend {
  xs_wbuf : Wbuf;
  xs_flush : FlushVars;
  xs_pool : Pool (P := P);
  xs_batch : BatchState (P := P);
}.

Context (keeper : Z).

(** The cache's own operations, for the unit's server and user
    (src/vfdw_conn.c, src/vfdw_cluster.c). *)
Context (cache : ConnCache (Pool (P := P)) VfdwConnKey).
Context (cluster : bool).

Definition on_wbuf {A} (m : M Wbuf A) : M Backend A := λ s,
  let '(r, w) := m (xs_wbuf s) in (r, MkBackend w (xs_flush s) (xs_pool s) (xs_batch s)).
Definition on_flush (f : FlushVars → FlushVars) : M Backend unit :=
  modify (λ s, MkBackend (xs_wbuf s) (f (xs_flush s)) (xs_pool s) (xs_batch s)).
Definition on_pool (f : Pool → Pool) : M Backend unit :=
  modify (λ s, MkBackend (xs_wbuf s) (xs_flush s) (f (xs_pool s)) (xs_batch s)).

(** The flush on this backend: the connection it acquires is a pool entry's, and
    what the flush leaves on the wire is that entry's wire afterwards.  The
    cache only hands out entries it has. *)
Definition flush_pre_commit : M Backend unit := λ s,
  let w := xs_wbuf s in
  let run empty acq := vfdw_flush_pre_commit verify_mbstr encoding serve script_text sha1
    pipeline_batch (wb_ledger w) fatal QueryCancelPending ProcDiePending empty acq
    write_retry_count (MkFS (xs_flush s) (xs_batch s)) in
  if vfdw_wbuf_is_empty w then
    let '(r, f) := run true (Ok (bs_conn (xs_batch s))) in
    (r, MkBackend w (fs_vars f) (xs_pool s) (fs_bs f))
  else
    match vfdw_flush_acquire cluster (u_database (wb_unit w)) (live_ops w) (xs_pool s) with
    | (Raise e, p) =>
        let '(r, f) := run false (Raise e) in (r, MkBackend w (fs_vars f) p (fs_bs f))
    | (Ok k, p) =>
        match entries p !! k with
        | None => (Raise (elog_error "dangling connection"), MkBackend w (xs_flush s) p (xs_batch s))
        | Some c =>
            let '(r, f) := run false (Ok (vc_wire c)) in
            (r, MkBackend w (fs_vars f)
                  (set_entries (<[k := set_socket (vc_open c) (bs_conn (fs_bs f)) c]> (entries p)) p)
                  (fs_bs f))
        end
    end.

Definition vfdw_xact_callback (event : XactEvent) : M Backend unit :=
  s ← get;
  let empty := vfdw_wbuf_is_empty (xs_wbuf s) in
  match event with
  | XACT_EVENT_PRE_COMMIT =>
      flush_pre_commit;;; on_pool (vfdw_conn_xact event)
  | XACT_EVENT_PARALLEL_PRE_COMMIT =>
      (if negb empty then raise parallel_nonempty else mret ());;;
      on_pool (vfdw_conn_xact event)
  | XACT_EVENT_PRE_PREPARE =>
      (if negb empty then raise cannot_prepare else mret ());;;
      on_pool (vfdw_conn_xact event)
  | XACT_EVENT_PREPARE =>
      (if negb empty then raise survived_prepare else mret ());;;
      on_pool (vfdw_conn_xact event)
  | XACT_EVENT_COMMIT | XACT_EVENT_PARALLEL_COMMIT =>
      (if negb (vfdw_flush_done (xs_flush s)) && negb empty then raise not_flushed else mret ());;;
      on_wbuf (vfdw_wbuf_reset keeper);;;
      on_flush vfdw_flush_reset;;;
      on_pool (vfdw_conn_xact event)
  | XACT_EVENT_ABORT | XACT_EVENT_PARALLEL_ABORT =>
      on_wbuf (vfdw_wbuf_reset keeper);;;
      on_flush vfdw_flush_reset;;;
      on_pool (vfdw_conn_xact event)
  end.

Definition vfdw_xact_subxact_callback (event : SubXactEvent) (curlevel mySubid : Z) : M Backend unit :=
  on_wbuf (vfdw_wbuf_subxact event curlevel);;;
  on_pool (vfdw_conn_subxact (match event with SUBXACT_EVENT_ABORT_SUB => true | _ => false end)
             mySubid).

(* ---------------------------------------------------------------- *)
(** ** Facts *)

(** Everything that a later transaction could see of this one's writes. *)
Definition at_rest (s : Backend) : Prop :=
  vfdw_wbuf_is_empty (xs_wbuf s) = true ∧ wb_head (xs_wbuf s) = None ∧
  wb_tail (xs_wbuf s) = None ∧ u_bound (wb_unit (xs_wbuf s)) = false ∧
  lg_plans (wb_ledger (xs_wbuf s)) = [] ∧
  fv_flushed (xs_flush s) = false ∧ fv_phase (xs_flush s) = VFDW_FLUSH_BEFORE_SEND.

Lemma reset_at_rest w :
  ledger_ok (wb_ledger w) →
  ∃ w', vfdw_wbuf_reset keeper w = (Ok (), w') ∧ vfdw_wbuf_is_empty w' = true ∧
    wb_head w' = None ∧ wb_tail w' = None ∧ u_bound (wb_unit w') = false ∧
    lg_plans (wb_ledger w') = [].
Proof.
  intros Hl. destruct w as [cxt ? ? ? ? ? ? ? ? ? ? l ? ?]. simpl in Hl.
  unfold vfdw_wbuf_reset. rewrite !modify_bind. unfold on_ledger, mbind, M_bind. simpl.
  assert (Hr : lg_plans (vfdw_ledger_reset l).2 = []).
  { unfold vfdw_ledger_reset, modify. simpl. destruct (lg_cxt l) eqn:Ec; [done|].
    destruct Hl as [(_ & _ & _ & ? & _)|Hw]; [done|].
    destruct Hw as ((_ & _ & Hc) & _). congruence. }
  unfold vfdw_ledger_reset, modify in *. simpl in *.
  destruct cxt; (eexists; split; [reflexivity|]); by split_and!.
Qed.

Lemma finish_event event s :
  ledger_ok (wb_ledger (xs_wbuf s)) →
  ∃ s', (on_wbuf (vfdw_wbuf_reset keeper);;; on_flush vfdw_flush_reset;;;
         on_pool (vfdw_conn_xact event)) s = (Ok (), s') ∧
    at_rest s' ∧ xs_pool s' = vfdw_conn_xact event (xs_pool s).
Proof.
  intros Hl. destruct (reset_at_rest (xs_wbuf s) Hl) as (w' & E & H1 & H2 & H3 & H4 & H5).
  eexists. unfold mbind, M_bind, on_wbuf. rewrite E. split; [reflexivity|]. by split.
Qed.

Lemma flushed_on_return l empty acq s f :
  vfdw_flush_pre_commit verify_mbstr encoding serve script_text sha1 pipeline_batch l fatal
    QueryCancelPending ProcDiePending empty acq write_retry_count s = (Ok (), f) →
  fv_flushed (fs_vars f) = true.
Proof.
  intros H. apply bind_ok in H as ([] & s0 & _ & H). destruct empty; [by injection H as <-|].
  apply bind_ok in H as ([] & s1 & _ & H). apply bind_ok in H as (c & s2 & _ & H).
  apply bind_ok in H as ([] & s3 & _ & H). apply bind_ok in H as (b & s4 & _ & H).
  by injection H as <-.
Qed.

(** The flush is the only writer of the flag, and sets it when it returns. *)
Lemma pre_commit_flushed s s' :
  flush_pre_commit s = (Ok (), s') →
  fv_flushed (xs_flush s') = true ∧ xs_wbuf s' = xs_wbuf s.
Proof.
  unfold flush_pre_commit. destruct (vfdw_wbuf_is_empty (xs_wbuf s)).
  { destruct (vfdw_flush_pre_commit _ _ _ _ _ _ _ _ _ _ _ _ _ _) as [r f] eqn:Ef.
    intros [= -> <-]. split; [|done]. by eapply flushed_on_return. }
  destruct (vfdw_flush_acquire _ _ _ (xs_pool s)) as [[k|e] p];
    [destruct (entries p !! k) as [c|]; [|done]|];
    (destruct (vfdw_flush_pre_commit _ _ _ _ _ _ _ _ _ _ _ _ _ _) as [r f] eqn:Ef;
     intros [= -> <-]; split; [by eapply flushed_on_return|done]).
Qed.

(** A pre-commit that returned with writes in the buffer has run the program:
    the connection the flush acquired is one the cache had, quiet, and its server
    applied the plans of the buffer's ledger. *)
Definition sent (db_of : P → Db) (s s1 : Backend) : Prop :=
  ∃ k p c c', vfdw_flush_acquire cluster (u_database (wb_unit (xs_wbuf s))) (live_ops (xs_wbuf s))
                (xs_pool s) = (Ok k, p) ∧
    entries p !! k = Some c ∧ entries (xs_pool s1) !! k = Some c' ∧
    applied serve db_of sha1 (wb_ledger (xs_wbuf s)) (vfdw_ledger_nplans (wb_ledger (xs_wbuf s)))
      (cn_peer (vc_wire c)) (cn_peer (vc_wire c')).

(** What the flush relies on of the cache: from the pool it is in, it hands out
    connections with nothing buffered or unread (pool_hands_out_quiet). *)
Definition hands_out_quiet (w : Pool (P := P)) : Prop :=
  ∀ database ops k p c, vfdw_flush_acquire cluster database ops w = (Ok k, p) →
    entries p !! k = Some c → clean (vc_wire c).

Lemma pre_commit_sent (db_of : P → Db) s s1 :
  TruthfulServer serve db_of script_text → hands_out_quiet (xs_pool s) → 0 ≤ write_retry_count →
  ledger_ok (wb_ledger (xs_wbuf s)) → vfdw_wbuf_is_empty (xs_wbuf s) = false →
  flush_pre_commit s = (Ok (), s1) → sent db_of s s1.
Proof.
  intros Hts Hq Hr Hl He. unfold flush_pre_commit. rewrite He.
  destruct (vfdw_flush_acquire _ _ _ (xs_pool s)) as [[k|e] p] eqn:Ea.
  2:{ destruct (vfdw_flush_pre_commit _ _ _ _ _ _ _ _ _ _ _ _ _ _) as [r f] eqn:Ef. intros [= -> <-].
      apply bind_ok in Ef as ([] & s0 & _ & Ef). apply bind_ok in Ef as ([] & s2 & _ & Ef).
      by apply bind_ok in Ef as (c & s3 & Ec & _). }
  destruct (entries p !! k) as [c|] eqn:Ek; [|done].
  pose proof (pre_commit_wp verify_mbstr encoding serve db_of script_text sha1 pipeline_batch
    (wb_ledger (xs_wbuf s)) Hl fatal QueryCancelPending ProcDiePending write_retry_count (vc_wire c)
    (MkFS (xs_flush s) (xs_batch s)) (Hq _ _ _ _ _ Ea Ek) Hr) as H.
  unfold wp in H. destruct (vfdw_flush_pre_commit _ _ _ _ _ _ _ _ _ _ _ _ _ _) as [[r|e] f]; [|done].
  intros [= -> <-]. eexists k, p, c, _. split; [done|]. split; [done|]. split; [apply lookup_insert_eq|].
  apply H.
Qed.

(** Every entry's peer and what is unread on its wire; a closed entry has none. *)
Definition wires (w : Pool (P := P)) : gmap VfdwConnKey (P * list Reply) :=
  (λ c : VfdwConn (P := P), (cn_peer (vc_wire c), cn_in (vc_wire c))) <$> entries w.

Lemma wires_map (f : VfdwConn (P := P) → VfdwConn (P := P)) m w :
  cp_pool w = Some m →
  (∀ c, cn_peer (vc_wire (f c)) = cn_peer (vc_wire c) ∧ cn_in (vc_wire (f c)) = cn_in (vc_wire c)) →
  wires (set_entries (f <$> m) w) = wires w.
Proof.
  intros Hm Hf. unfold wires, entries. rewrite Hm. simpl. rewrite <- map_fmap_compose.
  apply map_fmap_ext. intros k c _. unfold compose. by destruct (Hf c) as [-> ->].
Qed.

Lemma conn_xact_silent event w : wires (vfdw_conn_xact event w) = wires w.
Proof.
  unfold vfdw_conn_xact. destruct (cp_pool w) as [m|] eqn:E; [|done].
  destruct event; try done; (apply (wires_map _ m); [done|]; intros c; unfold sweep;
    destruct (vc_open c); simpl; [by destruct (_ || _)|done]).
Qed.

Lemma conn_subxact_silent b subid w : wires (vfdw_conn_subxact b subid w) = wires w.
Proof.
  unfold vfdw_conn_subxact. destruct (cp_pool w) as [m|] eqn:E; [|done]. destruct b; [|done].
  simpl. apply (wires_map _ m); [done|]. intros c. unfold abort_entry.
  destruct (vc_open c && in_conversation c); simpl; by destruct (_ && _).
Qed.
End xact.

(* ---------------------------------------------------------------- *)
(** ** The cache of the backend *)

Section pool.
Context {P : Type} (serve : list bytes → P → Reply * P) (garbage : VfdwConnKey → VfdwConn (P := P)).
Context (verify_mbstr : bytes → bool) (encoding : string).
Context (io_connect : bytes → Z → option bytes → result (P * list (option Fault))).
Context (tls_attach : result unit) (tls_reason : option string) (script_text : bytes).
Context (serverid userid : Z) (ct : Catalog) (subid : Z).

(** The slot map as the flush reads it, asked over a connection it leases. *)
Context (slot_map : VfdwConnKey → M (Pool (P := P)) OwnerMap).

(** The operations of src/vfdw_conn_pool.c and src/vfdw_conn.c. *)
Definition pool_cache : ConnCache (Pool (P := P)) VfdwConnKey := {|
  Flush.vfdw_conn_peek := λ w, ConnPool.vfdw_conn_peek w serverid userid;
  Flush.vfdw_get_connection := ConnPool.vfdw_get_connection serve garbage verify_mbstr encoding io_connect
    tls_attach tls_reason script_text serverid userid ct subid;
  Flush.vfdw_get_connection_cluster := ConnPool.vfdw_get_connection_cluster serve garbage verify_mbstr encoding
    io_connect tls_attach tls_reason script_text serverid userid ct subid;
  Flush.vfdw_get_connection_node := λ host port, ConnPool.vfdw_get_connection_node serve garbage verify_mbstr
    encoding io_connect tls_attach tls_reason script_text serverid userid ct host port subid;
  Flush.vfdw_release_connection := λ k, ConnPool.vfdw_release_connection (Some k);
  Flush.vfdw_cluster_map := slot_map;
  Flush.vfdw_conn_select_db := λ k database,
    on_entry k (Connection.vfdw_conn_select_db serve verify_mbstr encoding database) ()
|}.

Definition all_settled (w : Pool (P := P)) : Prop := ∀ k c, entries w !! k = Some c → settled c.
Definition held (k : VfdwConnKey) (w : Pool (P := P)) : Prop :=
  all_settled w ∧ ∃ c, entries w !! k = Some c ∧ live c.

Lemma get_held aware host port w :
  all_settled w →
  wp (vfdw_get_connection_internal serve garbage verify_mbstr encoding io_connect tls_attach tls_reason
        script_text serverid userid ct aware host port subid) held (λ _ _, True) w.
Proof.
  intros Hs. pose proof (get_moved serve garbage verify_mbstr encoding io_connect tls_attach tls_reason script_text
    serverid userid ct aware host port subid w) as H. unfold wp.
  destruct (vfdw_get_connection_internal _ _ _ _ _ _ _ _ _ _ _ _ _ _ _ _) as [[k|e] w']; [|done].
  destruct H as [[_ Hm] Hk]; [by intros k' c Hc _; apply (Hs k')|]. split; [|by apply Hk].
  intros k' c Hc. destruct (Hm k' c Hc) as [H|H]; [by apply (Hs k')|done].
Qed.

Lemma select_held k database w :
  held k w →
  wp (on_entry k (Connection.vfdw_conn_select_db serve verify_mbstr encoding database) ())
    (λ _, held k) (λ _ _, True) w.
Proof.
  intros (Hs & c & Hk & Hc). pose proof (select_live serve verify_mbstr encoding database c Hc) as H.
  unfold wp, on_entry in *. rewrite Hk. destruct (Connection.vfdw_conn_select_db _ _ _ _ c) as [[[]|e] c']; [|done].
  split; [|exists c'; split; [apply lookup_insert_eq|exact H]].
  intros k' c0. unfold entries at 1. simpl. rewrite lookup_insert. case_decide; [|apply Hs]. intros [= <-]. apply H.
Qed.

#[local] Opaque vfdw_get_connection_internal on_entry.

Hypothesis slot_map_held : ∀ k w, held k w → wp (slot_map k) (λ _, held k) (λ _ _, True) w.

Lemma connect_held cluster ops w :
  all_settled w → wp (vfdw_flush_connect (ConnCache0 := pool_cache) cluster ops) held (λ _ _, True) w.
Proof.
  intros Hs. unfold vfdw_flush_connect. destruct cluster; cbn [negb]; [|by apply get_held]. unfold wp at 1.
  destruct (vfdw_flush_cluster_slot ops) as [slot|e]; [|done]. apply wp_bind.
  eapply wp_mono; [by apply get_held| |done]. intros v w1 H1. destruct (bool_decide (slot < 0)); [exact H1|].
  apply wp_bind. eapply wp_mono; [by apply slot_map_held| |done]. intros m w2 H2.
  destruct (if bool_decide (om_owner m slot < 0) then None else _) as [n|]; [|exact H2].
  apply wp_bind. change (wp (ConnPool.vfdw_get_connection_node serve garbage verify_mbstr
    encoding io_connect tls_attach tls_reason script_text serverid userid ct (nd_host n) (nd_port n) subid)
    held (λ _ _, True) (upd_entry v (set_lease false InvalidSubTransactionId) w2).2).
  apply get_held. intros k c. change (entries (upd_entry v (set_lease false InvalidSubTransactionId) w2).2)
    with (alter (set_lease false InvalidSubTransactionId) v (entries w2)).
  rewrite lookup_alter. case_decide; [|apply H2].
  intros [c0 [Hc0 ->]]%fmap_Some. destruct H2 as [H2 _]. by apply (H2 _ _ Hc0).
Qed.

Lemma acquire_held cluster database ops w :
  all_settled w →
  wp (vfdw_flush_acquire (ConnCache0 := pool_cache) cluster database ops) held (λ _ _, True) w.
Proof.
  intros Hs. unfold vfdw_flush_acquire. apply wp_bind. unfold wp at 1, get.
  destruct (Flush.vfdw_conn_peek w); [done|]. apply wp_bind.
  eapply wp_mono; [by apply connect_held| |done]. intros k w1 H1. apply wp_bind.
  eapply wp_mono; [by apply select_held| |done]. intros [] w2 H2. exact H2.
Qed.

(** With no entry in a conversation, what is handed out is quiet. *)
Lemma settled_pool_quiet cluster w : all_settled w → hands_out_quiet pool_cache cluster w.
Proof.
  intros Hs database ops k p c Ha Hk.
  destruct (wp_run _ _ _ _ (acquire_held cluster database ops w Hs) _ _ Ha) as (_ & c' & Hk' & Hl & Ho).
  rewrite Hk in Hk'. injection Hk' as <-. by apply Hl.
Qed.

(** A backend whose statements have succeeded and ended their batches, which is
    what pre-commit finds, has only idle connections. *)
Lemma pool_hands_out_quiet cluster w :
  rtc (pstep serve garbage verify_mbstr encoding io_connect tls_attach tls_reason script_text) fresh_process w →
  ps_failed w = false → ps_batches w = ∅ → hands_out_quiet pool_cache cluster (ps_pool w).
Proof.
  intros Hr Hf Hb. apply settled_pool_quiet. apply reachable_ok in Hr. intros k c Hk.
  pose proof (ok_idle _ Hr k c Hk) as Hi. rewrite Hb, Hf in Hi. by apply Hi.
Qed.
End pool.

(* ---------------------------------------------------------------- *)
(** ** Properties *)

Section properties.
Context (verify_mbstr : bytes → bool) (encoding : string).
Context {P Db : Type} (serve : list bytes → P → Reply * P).
Context (script_text sha1 : bytes) (pipeline_batch write_retry_count : Z).
Context (fatal : pg_error → bool) (cancel die : bool) (keeper : Z).
Context (cache : ConnCache (Pool (P := P)) VfdwConnKey) (cluster : bool).

#[local] Abbreviation callback := (vfdw_xact_callback verify_mbstr encoding serve script_text sha1
  pipeline_batch write_retry_count fatal cancel die keeper cache cluster).

(** C10: the transaction's writes reach the server or the commit fails; they are
  never dropped.  When the pre-commit of a transaction with buffered writes
  returns, the write program has run on the server of the connection that was
  acquired, from the database found there, and has answered OK for every plan of
  the buffer's ledger; and the commit that follows succeeds and leaves nothing of
  the transaction behind.  A rollback always succeeds and leaves nothing behind;
  and an event that would lose buffered writes - a commit that was not flushed,
  any form of PREPARE, the end of a parallel worker - raises and keeps them.  Of
  the server it needs that its refusals are refusals, and of the cache that the
  connections it hands out are quiet, which those of a backend are whose batches
  have all ended (pool_hands_out_quiet). *)
Theorem writes_are_never_dropped (db_of : P → Db) (s : Backend) :
  TruthfulServer serve db_of script_text → hands_out_quiet cache cluster (xs_pool s) → 0 ≤ write_retry_count →
  ledger_ok (wb_ledger (xs_wbuf s)) →
  (∀ s1, callback XACT_EVENT_PRE_COMMIT s = (Ok (), s1) →
     (vfdw_wbuf_is_empty (xs_wbuf s) = false → sent serve sha1 cache cluster db_of s s1) ∧
     ∃ s2, callback XACT_EVENT_COMMIT s1 = (Ok (), s2) ∧ at_rest s2) ∧
  (∃ s2, callback XACT_EVENT_ABORT s = (Ok (), s2) ∧ at_rest s2) ∧
  (vfdw_wbuf_is_empty (xs_wbuf s) = false →
     callback XACT_EVENT_PRE_PREPARE s = (Raise cannot_prepare, s) ∧
     callback XACT_EVENT_PREPARE s = (Raise survived_prepare, s) ∧
     callback XACT_EVENT_PARALLEL_PRE_COMMIT s = (Raise parallel_nonempty, s) ∧
     (vfdw_flush_done (xs_flush s) = false →
        callback XACT_EVENT_COMMIT s = (Raise not_flushed, s))).
Proof.
  intros Hts Hq Hret Hl. split_and!.
  - intros s1 H. unfold vfdw_xact_callback in H.
    apply bind_ok in H as (s0 & s0' & [= <- <-] & H). apply bind_ok in H as ([] & s3 & H3 & H).
    pose proof H3 as Hs. apply pre_commit_flushed in H3 as [Hf Hw]. injection H as <-. split.
    { intros He. eapply pre_commit_sent in Hs as (k & p & c & c' & Ha & Hk & Hk' & Happ); [|done..].
      exists k, p, c, c'. split_and!; [done..| |done]. unfold vfdw_conn_xact. simpl.
      unfold entries in *. by destruct (cp_pool (xs_pool s3)) eqn:Ep; [rewrite <- Ep in Hk'|]; rewrite ?Ep in Hk' |- *. }
    destruct (finish_event keeper XACT_EVENT_COMMIT
      (MkBackend (xs_wbuf s3) (xs_flush s3) (vfdw_conn_xact XACT_EVENT_PRE_COMMIT (xs_pool s3))
         (xs_batch s3))) as (s2 & E2 & Hr & _); [by rewrite <- Hw in Hl|].
    exists s2. split; [|done]. unfold vfdw_xact_callback, mbind at 1, M_bind at 1, get.
    cbn [xs_flush vfdw_flush_done]. unfold vfdw_flush_done. rewrite Hf. exact E2.
  - destruct (finish_event keeper XACT_EVENT_ABORT s Hl) as (s2 & E & H & _). by exists s2.
  - intros He. unfold vfdw_xact_callback, mbind, M_bind, get. rewrite He.
    split_and!; try done. intros Hf. by rewrite Hf.
Qed.

(** No byte reaches the wire outside pre-commit.  Every other transaction
  event and every subtransaction event, however it ends, leaves the state of
  each connection's peer and the replies waiting on its wire as they were. *)
Theorem only_pre_commit_talks (event : XactEvent) (sub : SubXactEvent) (curlevel subid : Z)
  (s : Backend) :
wires (xs_pool (vfdw_xact_subxact_callback sub curlevel subid s).2) = wires (xs_pool s) ∧
(event ≠ XACT_EVENT_PRE_COMMIT → wires (xs_pool (callback event s).2) = wires (xs_pool s)).
Proof.
split.
- unfold vfdw_xact_subxact_callback, mbind, M_bind, on_wbuf.
  destruct (vfdw_wbuf_subxact sub curlevel (xs_wbuf s)) as [[[]|e] w]; [|done].
  apply conn_subxact_silent.
- intros Hne. unfold vfdw_xact_callback, mbind, M_bind, get, on_wbuf.
  destruct event; try done;
    repeat match goal with
    | |- context [if ?b then raise _ else mret _] => destruct b; [done|]
    end; try apply conn_xact_silent;
    (destruct (vfdw_wbuf_reset keeper (xs_wbuf s)) as [[[]|e] w]; [apply conn_xact_silent|done]).
Qed.
End properties.

(** A server that runs the write program whenever it is asked to, counting how
    often, and the backend's own cache in front of it. *)
Definition obliging (args : list bytes) (n : nat) : Reply * nat :=
  if bool_decide (head args = Some "EVALSHA") then (status_reply "VFDW1 OK 1", S n)
  else (status_reply "OK", n).

Lemma obliging_truthful text : TruthfulServer obliging id text.
Proof. split; [done|]. intros args p H. discriminate H. Qed.

#[local] Abbreviation obliging_cache := (pool_cache obliging SamplePool.zeroed (λ _, true) "UTF8"
  SamplePool.reachable (Ok ()) None "#!lua" 1 10 SamplePool.catalog 1 (λ _, mret (MkOwnerMap [] (λ _, -1)))).

(** At the pre-commit of its first transaction: the cache is empty. *)
Lemma obliging_cache_quiet : hands_out_quiet obliging_cache false (ps_pool (fresh_process (P := nat))).
Proof.
  by apply (pool_hands_out_quiet obliging SamplePool.zeroed (λ _, true) "UTF8" SamplePool.reachable
    (Ok ()) None "#!lua" 1 10 SamplePool.catalog 1).
Qed.

(** A backend that has buffered one row. *)
Definition one_row : VfdwWriteOp :=
  WriteOp None None VFDW_OP_INSERT 1 VFDW_TABLE_STRING 1 1 0 "a" None None None (Some "v")
    None [] [] [] false None [] None.

Definition one_buffer : Wbuf :=
  ((vfdw_wbuf_bind 0 1 2 10 0 1000 100000 1;;; vfdw_modify_row (Ok one_row) 100 10 1 1) wbuf_empty).2.

Definition one_write : Backend (P := nat) :=
  MkBackend one_buffer flush_vars_init (ps_pool fresh_process)
    (vfdw_batch_begin 8 (MkConn 0%nat [] [] false false [])).

#[local] Abbreviation one_callback := (vfdw_xact_callback (λ _, true) "UTF8" obliging "#!lua" "5f3a" 8 3
  (λ _, false) false false 0 obliging_cache false).

(** The row is sent, and the server has run the program once. *)
Lemma writes_are_never_dropped_witness :
  vfdw_wbuf_is_empty (xs_wbuf one_write) = false ∧
  (∃ s1, one_callback XACT_EVENT_PRE_COMMIT one_write = (Ok (), s1) ∧
     sent obliging "5f3a" obliging_cache false id one_write s1 ∧
     ((λ c, cn_peer (vc_wire c)) <$> entries (xs_pool s1) !! SamplePool.k0) = Some 1%nat) ∧
  one_callback XACT_EVENT_COMMIT one_write = (Raise not_flushed, one_write).
Proof.
  assert (Hl : ledger_ok (wb_ledger (xs_wbuf one_write)))
    by (apply (note_all_ok [one_row]); vm_compute; reflexivity).
  assert (Hne : vfdw_wbuf_is_empty (xs_wbuf one_write) = false) by (vm_compute; reflexivity).
  assert (Hok : (one_callback XACT_EVENT_PRE_COMMIT one_write).1 = Ok ()) by (vm_compute; reflexivity).
  assert (Hp : ((λ c, cn_peer (vc_wire c)) <$>
    entries (xs_pool (one_callback XACT_EVENT_PRE_COMMIT one_write).2) !! SamplePool.k0) = Some 1%nat)
    by (vm_compute; reflexivity).
  destruct (writes_are_never_dropped (λ _, true) "UTF8" obliging "#!lua" "5f3a" 8 3 (λ _, false) false
    false 0 obliging_cache false id one_write (obliging_truthful _) obliging_cache_quiet ltac:(lia) Hl)
    as (Hs & _ & Hd).
  split; [exact Hne|]. split; [|exact (proj2 (proj2 (proj2 (Hd Hne))) eq_refl)].
  destruct (one_callback XACT_EVENT_PRE_COMMIT one_write) as [r s1]. simpl in Hok, Hp. subst r.
  exists s1. split; [reflexivity|]. split; [exact (proj1 (Hs s1 eq_refl) Hne)|exact Hp].
Defined.

Lemma only_pre_commit_talks_witness :
  wires (xs_pool (one_callback XACT_EVENT_ABORT one_write).2) = wires (xs_pool one_write).
Proof.
  exact (proj2 (only_pre_commit_talks (λ _, true) "UTF8" obliging "#!lua" "5f3a"
    8 3 (λ _, false) false false 0 obliging_cache false XACT_EVENT_ABORT SUBXACT_EVENT_START_SUB 1 1
    one_write) ltac:(discriminate)).
Defined.
