(* ===== verification/LedgerEdges.v ===== *)
(** The uniqueness rule of the ledger at the statement, and its edges
    (src/vfdw_ledger.c, src/vfdw_ledger_fold.c). *)
From S2P Require Import Prelude Opcode WriteOp Ledger LedgerFacts LedgerActions Error.
From S2P Require Import Cmd Script ScriptEncode ScriptFacts ScriptSem ScriptEffect TinyServer.
From stdpp Require Import list gmap.
Local Open Scope Z_scope.

(** Reading through a plan pointer. *)
Lemma plan_state_at l q pl : lg_plans l !! q = Some pl → plan_state q l = (Ok (kp_state pl), l).
Proof. intros H. unfold plan_state, gets. by rewrite H. Qed.

Lemma plan_ttype_at l q pl : lg_plans l !! q = Some pl → plan_ttype q l = (Ok (kp_ttype pl), l).
Proof. intros H. unfold plan_ttype, gets. by rewrite H. Qed.

Lemma relid_state r pl : kp_state (add_relid r pl) = kp_state pl ∧ kp_ttype (add_relid r pl) = kp_ttype pl.
Proof. unfold add_relid. by case_bool_decide. Qed.

Lemma plan_for_known l key t q :
  lg_keys l !! (key, None) = Some q → vfdw_ledger_plan_for key t l = (Ok (q, false), l).
Proof. intros H. unfold vfdw_ledger_plan_for, mbind, M_bind, get. by rewrite H. Qed.

(** The duplicate check on a key the transaction has already planned. *)
Lemma check_duplicate_at q op l pl :
  lg_plans l !! q = Some pl → op_kind op = VFDW_OP_INSERT →
  kp_ttype pl = VFDW_TABLE_STRING →
  (vfdw_ledger_check_duplicate q op false l).1 =
    if bool_decide (kp_state pl = VFDW_KEY_DELETED) then Ok () else Raise vfdw_refuse_duplicate_key.
Proof.
  intros Hq Hk Ht. unfold vfdw_ledger_check_duplicate. rewrite Hk. simpl.
  unfold mbind, M_bind. rewrite (plan_state_at l q pl Hq).
  case_bool_decide; [done|]. rewrite (plan_ttype_at l q pl Hq), Ht. done.
Qed.

(** What noting an operation does on a key the transaction has already planned. *)
Lemma note_known op l q :
  lg_cxt l = true → lg_keys l !! (op_key op, None) = Some q →
  let l1 := (vfdw_ledger_add_relid q (op_relid op) l).2 in
  vfdw_ledger_note op l =
    match vfdw_ledger_check_duplicate q op false l1 with
    | (Ok _, l2) => note_body q op l2 | (Raise e, l2) => (Raise e, l2) end.
Proof.
  intros Hcxt Hidx l1.
  assert (Hini : (vfdw_ledger_init l).2 = l)
    by (unfold vfdw_ledger_init, modify; simpl; by rewrite Hcxt).
  rewrite note_split, Hini. unfold note_head, mbind, M_bind.
  rewrite (plan_for_known _ _ _ _ Hidx).
  change (vfdw_ledger_add_relid q (op_relid op) l) with (Ok (A := unit) (), l1). cbv iota beta.
  by destruct (vfdw_ledger_check_duplicate q op false l1) as [[]].
Qed.

(* ---------------------------------------------------------------- *)
(** ** Property *)

(** C39: a second INSERT of a string key is refused at the statement.  When the
    transaction has already touched the key, by whatever operation, and its row
    is there as far as the transaction knows, inserting it raises a unique
    violation; when the transaction deleted it last, inserting it again is
    accepted, and what is sent is what was recorded before followed by the SET. *)
Theorem second_insert_is_refused (op : VfdwWriteOp) (l : Ledger) (pl : VfdwKeyPlan) :
  ledger_ok l → op_kind op = VFDW_OP_INSERT → plan_at l (op_key op) = Some pl →
  kp_ttype pl = VFDW_TABLE_STRING →
  if bool_decide (kp_state pl = VFDW_KEY_DELETED) then
    op_tabletype op = VFDW_TABLE_STRING → op_packed_shape op = false → op_keyset op = None →
    ∃ l', vfdw_ledger_note op l = (Ok (), l') ∧
      acts_at l' (op_key op) = kp_actions pl ++
        match op_value op with Some v => [act VFDW_ACT_SET [v]] | None => [] end
  else (vfdw_ledger_note op l).1 = Raise vfdw_refuse_duplicate_key.
Proof.
  intros Hl Hk Hpl Ht.
  destruct Hl as [(_ & Hke & _)|Hl]; [unfold plan_at in Hpl; by rewrite Hke in Hpl|].
  pose proof Hl as [Hi _]. destruct (plan_at_inv _ _ _ Hi Hpl) as (q & Hq & Hkey).
  assert (Hidx : lg_keys l !! (op_key op, None) = Some q).
  { apply (proj1 Hi). rewrite Hq. simpl. by rewrite Hkey. }
  assert (Hcxt : lg_cxt l = true) by apply Hi.
  set (l1 := (vfdw_ledger_add_relid q (op_relid op) l).2).
  assert (Hq1 : lg_plans l1 !! q = Some (add_relid (op_relid op) pl)).
  { unfold l1, vfdw_ledger_add_relid, upd_plan. simpl. by rewrite list_lookup_alter_eq, Hq. }
  destruct (relid_state (op_relid op) pl) as [Hs1 Ht1].
  pose proof (check_duplicate_at q op l1 _ Hq1 Hk) as Hd. rewrite Ht1, Hs1 in Hd. specialize (Hd Ht).
  pose proof (check_duplicate_same q op false l1) as Hsame.
  pose proof (note_known op l q Hcxt Hidx) as Hnote. cbv zeta in Hnote. fold l1 in Hnote.
  destruct (vfdw_ledger_check_duplicate q op false l1) as [r l2]. simpl in Hd, Hsame. subst.
  rewrite Hnote.
  case_bool_decide as Hdel; [|done]. intros Htt Hps Hks.
  assert (Hbody : ∃ l', note_body q op l1 = (Ok (), l')).
  { unfold note_body, vfdw_ledger_fold_rename, vfdw_ledger_is_rename, vfdw_ledger_fold_key_delete,
      fold_by_type, vfdw_ledger_keyset, revive_plan. rewrite Hk, Htt, Hps, Hks. simpl.
    unfold mbind, M_bind, mret, M_ret, gets, plan_state, modify. simpl.
    destruct (op_value op); simpl; case_bool_decide; by eexists. }
  destruct Hbody as [l' Hb]. exists l'. split; [done|].
  assert (Hn : vfdw_ledger_note op l = (Ok (), l')) by by rewrite Hnote.
  rewrite (note_acts_at op l l' (or_intror Hl) Hn (op_key op)), decide_True by done.
  unfold acts_at at 1, type_at. rewrite Hpl. simpl. f_equal.
  unfold op_actions, rename_actions, vfdw_ledger_is_rename, deletes_key, keyset_actions, type_actions.
  rewrite Hk, Htt, Hps, Hks. simpl. rewrite app_nil_r. by destruct (op_oldkey op).
Qed.

(** A DELETE of "a" then its INSERT: the DEL is kept and the SET follows it. *)
Definition del_a : VfdwWriteOp := blank_op VFDW_OP_DELETE VFDW_TABLE_STRING "a".
Definition ins_a : VfdwWriteOp :=
  WriteOp None None VFDW_OP_INSERT 1 VFDW_TABLE_STRING 1 2 0 "a" None None None (Some "v")
    None [] [] [] false None [] None.
Definition after_del : Ledger := (vfdw_ledger_note del_a ledger_empty).2.
Definition plan_del : VfdwKeyPlan := default (fresh_plan "" VFDW_TABLE_STRING) (plan_at after_del "a").

Lemma second_insert_is_refused_witness :
  ∃ l', vfdw_ledger_note ins_a after_del = (Ok (), l') ∧
    acts_at l' "a" = [act VFDW_ACT_DEL []; act VFDW_ACT_SET ["v"]].
Proof.
  refine (second_insert_is_refused ins_a after_del plan_del _ _ _ _ _ _ _).
  - apply pres_note. left. by vm_compute.
  - reflexivity.
  - vm_compute. reflexivity.
  - vm_compute. reflexivity.
  - reflexivity.
  - reflexivity.
  - reflexivity.
Defined.

(* ---------------------------------------------------------------- *)
(** ** Edges *)

(** The small server, with RENAME: the old key must exist, and what the new
    key held is overwritten. *)
Definition renaming (args : list bytes) (db : Db) : Lua * Db :=
  match args with
  | [verb; old; new] =>
      if bool_decide (verb = "RENAME") then
        match db !! old with
        | Some v => (LOk "OK", <[new := v]> (delete old db))
        | None => (LErr "ERR no such key", db)
        end
      else tiny args db
  | _ => tiny args db
  end.

(** What a flush of the operations sends, run against a database. *)
Definition sent_ops (ops : list VfdwWriteOp) : VfdwCmd :=
  match vfdw_script_encode "5f3a" (miter vfdw_ledger_note ops ledger_empty).2 (vfdw_cmd_init 32) with
  | Ok c => c | Raise _ => vfdw_cmd_init 32
  end.

Definition run_ops (ops : list VfdwWriteOp) (db : Db) : option (Outcome * Db) :=
  evalsha renaming undec (cmd_args (sent_ops ops)) db.

Definition upd_str (key : bytes) (old : option bytes) (v : bytes) : VfdwWriteOp :=
  WriteOp None None VFDW_OP_UPDATE 1 VFDW_TABLE_STRING 1 1 0 key old None None (Some v)
    None [] [] [] false None [] None.

Definition packed_ins (items : list bytes) : VfdwWriteOp :=
  WriteOp None None VFDW_OP_INSERT 1 VFDW_TABLE_LIST 1 1 0 "l" None None None None
    None [] [] items true None [] None.

(** A rename onto a key this transaction has already touched is not checked.
    With rows "a" and "b" on the server, renaming "a" to "b" alone is refused
    with a conflict and changes nothing; after an UPDATE of "b" in the same
    transaction the same rename is accepted, the commit reports success, and the
    row "b" is gone. *)
Theorem rename_onto_touched_key_overwrites :
  let db : Db := <["a" := VStr "1"]> (<["b" := VStr "2"]> ∅) in
  run_ops [upd_str "b" (Some "a") "1"] db = Some (Fail "VFDW1 CONFLICT 1 b check 2", db) ∧
  run_ops [upd_str "b" None "3"; upd_str "b" (Some "a") "1"] db =
    Some (Status "VFDW1 OK 2", <["b" := VStr "1"]> ∅).
Proof. split; vm_compute; reflexivity. Qed.

(** Plans are applied in first-touch order, not in statement order, so a
    key renamed away and back fails half way.  Updating "a", renaming it to "b"
    and "b" back to "a" is legal and leaves one row; the program applies the
    first SET and then stops with an INTERNAL error. *)
Theorem rename_back_applies_half :
  run_ops [upd_str "a" None "2"; upd_str "b" (Some "a") "2"; upd_str "a" (Some "b") "2"]
    (<["a" := VStr "1"]> ∅) =
  Some (Fail "VFDW1 INTERNAL 1 a 2 ERR no such key", <["a" := VStr "2"]> ∅).
Proof. vm_compute. reflexivity. Qed.

(** First-touch order can also lose a row without an error.  Updating "x",
    renaming it to "y" and then "z" to "x" is answered OK, but the second rename
    is sent with the update of "x", before "x" has moved away: of the rows "x"
    and "z" the one is overwritten and the other ends at "y", while the
    statements in their order leave both. *)
Theorem rename_chain_loses_a_row :
  let ops := [upd_str "x" None "1"; upd_str "y" (Some "x") "1"; upd_str "x" (Some "z") "2"] in
  let db : Db := <["x" := VStr "0"]> (<["z" := VStr "2"]> ∅) in
  run_ops ops db = Some (Status "VFDW1 OK 3", <["y" := VStr "1"]> ∅) ∧
  run_steps renaming (log_steps ops) db = <["x" := VStr "2"]> (<["y" := VStr "1"]> ∅).
Proof. split; vm_compute; reflexivity. Qed.

(** A second INSERT of a packed key is not refused at the statement; the
    last one wins and both rows are reported as written. *)
Theorem packed_second_insert_accepted :
  (miter vfdw_ledger_note [packed_ins ["x"]; packed_ins ["y"]] ledger_empty).1 = Ok () ∧
  acts_at (miter vfdw_ledger_note [packed_ins ["x"]; packed_ins ["y"]] ledger_empty).2 "l" =
    [act VFDW_ACT_DEL []; act VFDW_ACT_RPUSH ["x"]; act VFDW_ACT_DEL []; act VFDW_ACT_RPUSH ["y"]].
Proof. split; vm_compute; reflexivity. Qed.
