(* ===== verification/TableMap.v ===== *)
(** The shape of a foreign table (src/vfdw_map.h, src/vfdw_map.c and
    src/vfdw_map_check.c): which source each column draws from, decided once at
    plan time.

    The catalog is the class [TypeCatalog], and an attribute carries the options
    GetForeignColumnOptions returns for it.  Attribute numbers start at one and
    zero is InvalidAttrNumber.  A text written by an errdetail or an errhint is
    not part of [pg_error].

    PostgreSQL's side of a value, a Datum with the input and output functions of its
    type, bytea and interval values, domains and arrays, is the class [PgTypes]. *)
From S2P Require Import Prelude Opcode Option.
Local Open Scope Z_scope.

(* ---------------------------------------------------------------- *)
(** ** The type system *)

(** The three fields of an Interval; PostgreSQL keeps month and day in 32 bits
    and the time in 64. *)
Record Interval := MkInterval { iv_month : Z; iv_day : Z; iv_time : Z }.

#[global] Instance Interval_eq_dec : EqDecision Interval.
Proof. solve_decision. Defined.

Definition in_int32 (z : Z) : Prop := - 2 ^ 31 ≤ z ≤ 2 ^ 31 - 1.
Definition interval_wf (iv : Interval) : Prop :=
  in_int32 (iv_month iv) ∧ in_int32 (iv_day iv) ∧ INT64_MIN ≤ iv_time iv ≤ INT64_MAX.

Class PgTypes := {
  Datum : Type;
  (* fmgr, by the OID of the function *)
  InputFunctionCall : Z → bytes → Z → Z → result Datum;
  OutputFunctionCall : Z → Datum → bytes;
  (* bytea: its payload after detoasting, and a datum around a payload *)
  bytea_payload : Datum → bytes;
  bytea_datum : bytes → Datum;
  DatumGetIntervalP : Datum → Interval;
  IntervalPGetDatum : Interval → Datum;
  Int32GetDatum : Z → Datum;
  Int64GetDatum : Z → Datum;
  domain_check : Z → Datum → result unit;
  construct_md_array : Z → Z → bool → ascii → list (option Datum) → Datum;
  (* is the text valid in the database encoding *)
  pg_verifymbstr : bytes → result unit;
}.

(** What PostgreSQL documents of its conversions, for one type: output is a C
    string in the database encoding, and reading it back gives the value. *)
Class TypeRoundTrip `{PgTypes} (typinput typoutput typioparam typmod : Z) (ok : Datum → Prop) := {
  output_cstring d : ok d → until_nul (OutputFunctionCall typoutput d) = OutputFunctionCall typoutput d;
  output_encoded d : ok d → pg_verifymbstr (OutputFunctionCall typoutput d) = Ok ();
  input_output d : ok d →
    InputFunctionCall typinput (OutputFunctionCall typoutput d) typioparam typmod = Ok d;
}.

(* ---------------------------------------------------------------- *)
(** ** Columns and tables *)

Inductive VfdwIndexType := VFDW_INDEX_NONE | VFDW_INDEX_TAG | VFDW_INDEX_NUMERIC | VFDW_INDEX_VECTOR.

Inductive VfdwColKind :=
  | VFDW_COL_DROPPED | VFDW_COL_KEY | VFDW_COL_VALUE | VFDW_COL_FIELD | VFDW_COL_MEMBER
  | VFDW_COL_SCORE | VFDW_COL_POSITION | VFDW_COL_TTL | VFDW_COL_DISTANCE | VFDW_COL_LEGACY_VALUE.

#[global] Instance VfdwIndexType_eq_dec : EqDecision VfdwIndexType.
Proof. solve_decision. Defined.
#[global] Instance VfdwColKind_eq_dec : EqDecision VfdwColKind.
Proof. solve_decision. Defined.

Definition InvalidAttrNumber : Z := 0.
Definition InvalidOid : Z := 0.
Definition BYTEAOID : Z := 17.
Definition INT8OID : Z := 20.
Definition INT4OID : Z := 23.
Definition TEXTOID : Z := 25.
Definition INTERVALOID : Z := 1186.

(** What the wrapper asks of pg_type. *)
Class TypeCatalog := {
  getBaseType : Z → Z;
  get_element_type : Z → Z;
  getTypeInputInfo : Z → Z * Z;
  getTypeOutputInfo : Z → Z * bool;
  get_typlenbyvalalign : Z → Z * bool * ascii;
}.

(** A column and, for a packed one, the element its array is assembled from. *)
Inductive VfdwColumn := Column {
  col_attnum : Z;
  col_kind : VfdwColKind;
  col_index_type : VfdwIndexType;
  col_field : option bytes;
  col_typid : Z;
  col_typmod : Z;
  col_typinput : Z;
  col_typioparam : Z;
  col_typoutput : Z;
  col_typisvarlena : bool;
  col_is_binary : bool;
  col_is_domain : bool;
  col_field_slot : nat;
  col_ttl_slot : nat;
  col_packed : option VfdwPackedElem;
}
with VfdwPackedElem := PackedElem {
  pk_col : VfdwColumn;
  pk_typlen : Z;
  pk_typbyval : bool;
  pk_typalign : ascii;
}.

(** palloc0. *)
Definition zero_column : VfdwColumn :=
  Column 0 VFDW_COL_DROPPED VFDW_INDEX_NONE None 0 0 0 0 0 false false false 0 0 None.

Definition with_kind (k : VfdwColKind) (c : VfdwColumn) : VfdwColumn :=
  Column (col_attnum c) k (col_index_type c) (col_field c) (col_typid c) (col_typmod c)
    (col_typinput c) (col_typioparam c) (col_typoutput c) (col_typisvarlena c) (col_is_binary c)
    (col_is_domain c) (col_field_slot c) (col_ttl_slot c) (col_packed c).
Definition with_attnum (n : Z) (c : VfdwColumn) : VfdwColumn :=
  Column n (col_kind c) (col_index_type c) (col_field c) (col_typid c) (col_typmod c)
    (col_typinput c) (col_typioparam c) (col_typoutput c) (col_typisvarlena c) (col_is_binary c)
    (col_is_domain c) (col_field_slot c) (col_ttl_slot c) (col_packed c).
Definition with_options (k : VfdwColKind) (it : VfdwIndexType) (f : option bytes) (c : VfdwColumn)
    : VfdwColumn :=
  Column (col_attnum c) k it f (col_typid c) (col_typmod c)
    (col_typinput c) (col_typioparam c) (col_typoutput c) (col_typisvarlena c) (col_is_binary c)
    (col_is_domain c) (col_field_slot c) (col_ttl_slot c) (col_packed c).
Definition with_slots (f t : nat) (c : VfdwColumn) : VfdwColumn :=
  Column (col_attnum c) (col_kind c) (col_index_type c) (col_field c) (col_typid c) (col_typmod c)
    (col_typinput c) (col_typioparam c) (col_typoutput c) (col_typisvarlena c) (col_is_binary c)
    (col_is_domain c) f t (col_packed c).
Definition with_packed (p : option VfdwPackedElem) (c : VfdwColumn) : VfdwColumn :=
  Column (col_attnum c) (col_kind c) (col_index_type c) (col_field c) (col_typid c) (col_typmod c)
    (col_typinput c) (col_typioparam c) (col_typoutput c) (col_typisvarlena c) (col_is_binary c)
    (col_is_domain c) (col_field_slot c) (col_ttl_slot c) p.

(** The table options of the map, then what resolution adds to them. *)
Record VfdwTableOptions := TableOptions {
  to_tabletype : VfdwTableType;
  to_keyprefix : option bytes;
  to_keyset : option bytes;
  to_singleton_key : option bytes;
  to_search_index : option bytes;
  to_database : Z;
  to_legacy_value : bool;
  to_readonly : bool;
}.

Record VfdwTableMap := TableMap {
  map_relid : Z;
  map_cols : list VfdwColumn;
  map_keyattno : Z;
  map_memberattno : Z;
  map_scoreattno : Z;
  map_valueattno : Z;
  map_options : VfdwTableOptions;
  map_nfields : nat;
  map_nttl : nat;
  map_hmget : bool;
  map_nreq : nat;
}.

Definition map_natts (m : VfdwTableMap) : nat := length (map_cols m).
Definition map_tabletype (m : VfdwTableMap) : VfdwTableType := to_tabletype (map_options m).
Definition map_legacy_value (m : VfdwTableMap) : bool := to_legacy_value (map_options m).

(** One attribute of the tuple descriptor with its foreign options. *)
Record Form_pg_attribute := Attribute {
  attname : bytes;
  atttypid : Z;
  atttypmod : Z;
  attisdropped : bool;
  attfdwoptions : list DefElem;
}.

Definition vfdw_tabletype_names : list bytes := ["string"; "hash"; "list"; "set"; "zset"; "vector"].

Definition vfdw_tabletype_name (type : Z) : bytes :=
  if bool_decide (type < 0) || bool_decide (Z.of_nat (length vfdw_tabletype_names) ≤ type)
  then "unknown"
  else default "" (vfdw_tabletype_names !! Z.to_nat type).

(** The enum of an ordinal, the cast of vfdw_map_read_table_options. *)
Definition tabletype_of_code (i : Z) : VfdwTableType :=
  match i with
  | 1 => VFDW_TABLE_HASH | 2 => VFDW_TABLE_LIST | 3 => VFDW_TABLE_SET
  | 4 => VFDW_TABLE_ZSET | 5 => VFDW_TABLE_VECTOR | _ => VFDW_TABLE_STRING
  end.

Definition vfdw_map_default_kind (type : VfdwTableType) : VfdwColKind :=
  match type with
  | VFDW_TABLE_STRING => VFDW_COL_VALUE
  | VFDW_TABLE_LIST | VFDW_TABLE_SET => VFDW_COL_MEMBER
  | _ => VFDW_COL_DROPPED
  end.

Definition vfdw_tabletype_supplies (type : VfdwTableType) : bytes :=
  match type with
  | VFDW_TABLE_STRING => "a key and one value"
  | VFDW_TABLE_HASH => "a key and named fields"
  | VFDW_TABLE_LIST | VFDW_TABLE_SET => "a key and one member"
  | VFDW_TABLE_ZSET => "a key, a member and a score"
  | VFDW_TABLE_VECTOR => "a key, named fields and a distance"
  end.

(** The set of names that may stand in a search query (src/vfdw_filter.c). *)
Definition name_char_is_safe (c : ascii) : bool :=
  let v := byte_val c in
  bool_decide (97 ≤ v ≤ 122) || bool_decide (65 ≤ v ≤ 90) || bool_decide (48 ≤ v ≤ 57)
  || bool_decide (v = 95) || bool_decide (v = 45) || bool_decide (v = 46).

Fixpoint name_chars_are_safe (s : bytes) : bool :=
  match s with
  | EmptyString => true
  | String c r => name_char_is_safe c && name_chars_are_safe r
  end.

Definition vfdw_filter_name_is_safe (name : option bytes) : bool :=
  match name with
  | None | Some EmptyString => false
  | Some s => name_chars_are_safe s
  end.

(* ---------------------------------------------------------------- *)
(** ** Options of the table and of its columns *)

Section table_map.
Context `{TypeCatalog} (parse_bool : bytes → option bool).

(** The requests one column makes. *)
Record ColumnClaims := Claims {
  is_key : bool; is_member : bool; is_score : bool; is_ttl : bool; is_position : bool;
  is_distance : bool; cl_field : option bytes; cl_index_type : VfdwIndexType;
}.

Definition claim_count (c : ColumnClaims) : Z :=
  Z.b2z (is_key c) + Z.b2z (is_member c) + Z.b2z (is_score c) + Z.b2z (is_distance c)
  + Z.b2z (is_ttl c) + Z.b2z (is_position c)
  + Z.b2z (bool_decide (is_Some (cl_field c)) && negb (is_ttl c)).

Definition vfdw_map_check_single_source (c : ColumnClaims) : result unit :=
  if bool_decide (1 < claim_count c)
  then Raise (PgError ERRCODE_INVALID_PARAMETER_VALUE "column options conflict")
  else Ok ().

Definition vfdw_map_index_type (def : VfdwOptionDef) (value : bytes) : result VfdwIndexType :=
  _ ← vfdw_parse_enum def value;
  if bool_decide (value = "tag") then Ok VFDW_INDEX_TAG
  else if bool_decide (value = "numeric") then Ok VFDW_INDEX_NUMERIC
  else if bool_decide (value = "vector") then Ok VFDW_INDEX_VECTOR
  else Raise (elog_error "index_type passed the validator and is not one of the three").

Definition read_column_option (def : VfdwOptionDef) (value : bytes) (c : ColumnClaims)
    : result ColumnClaims :=
  let 'Claims k m s t p d f it := c in
  let name := od_name def in
  if bool_decide (name = "key") then
    b ← vfdw_parse_bool parse_bool def value; Ok (Claims b m s t p d f it)
  else if bool_decide (name = "field") then Ok (Claims k m s t p d (Some value) it)
  else if bool_decide (name = "member") then
    b ← vfdw_parse_bool parse_bool def value; Ok (Claims k b s t p d f it)
  else if bool_decide (name = "score") then
    b ← vfdw_parse_bool parse_bool def value; Ok (Claims k m b t p d f it)
  else if bool_decide (name = "ttl") then
    b ← vfdw_parse_bool parse_bool def value; Ok (Claims k m s b p d f it)
  else if bool_decide (name = "position") then
    b ← vfdw_parse_bool parse_bool def value; Ok (Claims k m s t b d f it)
  else if bool_decide (name = "distance") then
    b ← vfdw_parse_bool parse_bool def value; Ok (Claims k m s t p b f it)
  else if bool_decide (name = "index_type") then
    i ← vfdw_map_index_type def value; Ok (Claims k m s t p d f i)
  else Ok c.

Fixpoint read_column_claims (options : list DefElem) (c : ColumnClaims) : result ColumnClaims :=
  match options with
  | [] => Ok c
  | (name, value) :: rest =>
      c ← match vfdw_find_option name AttributeRelationId with
          | None => Ok c
          | Some def => read_column_option def value c
          end;
      read_column_claims rest c
  end.

Definition claimed_kind (c : ColumnClaims) : VfdwColKind :=
  if is_key c then VFDW_COL_KEY
  else if is_ttl c then VFDW_COL_TTL
  else if is_position c then VFDW_COL_POSITION
  else if is_member c then VFDW_COL_MEMBER
  else if is_score c then VFDW_COL_SCORE
  else if is_distance c then VFDW_COL_DISTANCE
  else if bool_decide (is_Some (cl_field c)) then VFDW_COL_FIELD
  else VFDW_COL_DROPPED.

Definition vfdw_map_read_column_options (col : VfdwColumn) (options : list DefElem)
    : result VfdwColumn :=
  c ← read_column_claims options
        (Claims false false false false false false None (col_index_type col));
  _ ← vfdw_map_check_single_source c;
  Ok (with_options (claimed_kind c) (cl_index_type c) (cl_field c) col).

Definition vfdw_map_check_table_options (o : VfdwTableOptions) : result unit :=
  let bad msg := Raise (PgError ERRCODE_INVALID_PARAMETER_VALUE msg) in
  let given (x : option bytes) := bool_decide (is_Some x) in
  if given (to_singleton_key o) && given (to_keyprefix o)
  then bad "singleton_key cannot be combined with keyprefix"
  else if given (to_singleton_key o) && given (to_keyset o)
  then bad "singleton_key cannot be combined with keyset"
  else if given (to_keyprefix o) && given (to_keyset o)
  then bad "keyprefix cannot be combined with keyset"
  else if bool_decide (to_tabletype o = VFDW_TABLE_VECTOR) && negb (given (to_search_index o))
  then bad "tabletype vector requires the search_index option"
  else if to_legacy_value o && bool_decide (to_tabletype o = VFDW_TABLE_STRING)
  then bad "legacy_value requires a collection tabletype"
  else Ok ().

Definition read_table_option (def : VfdwOptionDef) (value : bytes) (o : VfdwTableOptions)
    : result VfdwTableOptions :=
  let 'TableOptions t kp ks sk si db lv ro := o in
  let name := od_name def in
  if bool_decide (name = "tabletype") then
    i ← vfdw_parse_enum def value; Ok (TableOptions (tabletype_of_code i) kp ks sk si db lv ro)
  else if bool_decide (name = "keyprefix") then Ok (TableOptions t (Some value) ks sk si db lv ro)
  else if bool_decide (name = "keyset") then Ok (TableOptions t kp (Some value) sk si db lv ro)
  else if bool_decide (name = "singleton_key") then Ok (TableOptions t kp ks (Some value) si db lv ro)
  else if bool_decide (name = "search_index") then Ok (TableOptions t kp ks sk (Some value) db lv ro)
  else if bool_decide (name = "database") then
    n ← vfdw_parse_int def value; Ok (TableOptions t kp ks sk si n lv ro)
  else if bool_decide (name = "legacy_value") then
    b ← vfdw_parse_bool parse_bool def value; Ok (TableOptions t kp ks sk si db b ro)
  else if bool_decide (name = "readonly") then
    b ← vfdw_parse_bool parse_bool def value; Ok (TableOptions t kp ks sk si db lv b)
  else Ok o.

Fixpoint read_table_options (options : list DefElem) (o : VfdwTableOptions)
    : result VfdwTableOptions :=
  match options with
  | [] => Ok o
  | (name, value) :: rest =>
      o ← match vfdw_find_option name ForeignTableRelationId with
          | None => Ok o
          | Some def => read_table_option def value o
          end;
      read_table_options rest o
  end.

Definition default_table_options : VfdwTableOptions :=
  TableOptions VFDW_TABLE_STRING None None None None 0 false false.

Definition vfdw_map_read_table_options (options : list DefElem) : result VfdwTableOptions :=
  o ← read_table_options options default_table_options;
  _ ← vfdw_map_check_table_options o;
  Ok o.

(* ---------------------------------------------------------------- *)
(** ** Assigning sources *)

(** A live column nothing has claimed yet. *)
Definition is_unclaimed (c : VfdwColumn) : bool :=
  bool_decide (col_kind c = VFDW_COL_DROPPED) && negb (bool_decide (col_attnum c = InvalidAttrNumber)).

(** The key column so far, the number of unclaimed ones and the first of them. *)
Fixpoint survey_loop (cols : list VfdwColumn) (keyattno unclaimed first : Z)
    : result (Z * Z * Z) :=
  match cols with
  | [] => Ok (keyattno, unclaimed, first)
  | col :: rest =>
      if bool_decide (col_kind col = VFDW_COL_KEY) then
        if bool_decide (keyattno ≠ InvalidAttrNumber)
        then Raise (PgError ERRCODE_INVALID_PARAMETER_VALUE "only one column may be the Valkey key")
        else survey_loop rest (col_attnum col) unclaimed first
      else if is_unclaimed col then
        survey_loop rest keyattno (unclaimed + 1)
          (if bool_decide (first = InvalidAttrNumber) then col_attnum col else first)
      else survey_loop rest keyattno unclaimed first
  end.

Definition vfdw_map_survey (cols : list VfdwColumn) : result (Z * Z * Z) :=
  survey_loop cols InvalidAttrNumber 0 InvalidAttrNumber.

Definition quoted (s : bytes) : bytes := String (Ascii.ascii_of_nat 34) "" +:+ s +:+ String (Ascii.ascii_of_nat 34) "".

Fixpoint unsourced_names (cols : list VfdwColumn) (tupdesc : list Form_pg_attribute) (first : bool)
    : bytes :=
  match cols, tupdesc with
  | col :: cols, attr :: tupdesc =>
      if is_unclaimed col
      then (if first then "" else ", ") +:+ quoted (attname attr) +:+ unsourced_names cols tupdesc false
      else unsourced_names cols tupdesc first
  | _, _ => ""
  end.

Definition vfdw_map_report_unsourced (cols : list VfdwColumn) (tupdesc : list Form_pg_attribute)
    (unclaimed : Z) : pg_error :=
  PgError ERRCODE_INVALID_TABLE_DEFINITION
    (dec unclaimed +:+ " column(s) have no source in Valkey: " +:+ unsourced_names cols tupdesc true).

Definition vfdw_map_assign_legacy (cols : list VfdwColumn) : result (list VfdwColumn * Z) :=
  match cols with
  | [c0; c1] =>
      if bool_decide (col_attnum c0 = InvalidAttrNumber) || bool_decide (col_attnum c1 = InvalidAttrNumber)
      then Raise (PgError ERRCODE_INVALID_TABLE_DEFINITION "legacy_value tables must have exactly two columns")
      else Ok ([with_kind VFDW_COL_KEY c0; with_kind VFDW_COL_LEGACY_VALUE c1], col_attnum c0)
  | _ => Raise (PgError ERRCODE_INVALID_TABLE_DEFINITION "legacy_value tables must have exactly two columns")
  end.

Definition vfdw_map_assign_key (cols : list VfdwColumn) (keyattno unclaimed first : Z)
    : result (list VfdwColumn * Z * Z) :=
  let '(cols, keyattno, unclaimed) :=
    if bool_decide (keyattno = InvalidAttrNumber) && bool_decide (0 < unclaimed)
    then (alter (with_kind VFDW_COL_KEY) (Z.to_nat (first - 1)) cols, first, unclaimed - 1)
    else (cols, keyattno, unclaimed) in
  if bool_decide (keyattno = InvalidAttrNumber)
  then Raise (PgError ERRCODE_INVALID_TABLE_DEFINITION "no column holds the Valkey key")
  else Ok (cols, keyattno, unclaimed).

(** The first unclaimed column takes the kind. *)
Fixpoint claim_first (kind : VfdwColKind) (cols : list VfdwColumn) : option (list VfdwColumn) :=
  match cols with
  | [] => None
  | col :: rest =>
      if is_unclaimed col then Some (with_kind kind col :: rest)
      else (λ r, col :: r) <$> claim_first kind rest
  end.

Definition vfdw_map_assign_remaining (type : VfdwTableType) (cols : list VfdwColumn) (unclaimed : Z)
    : list VfdwColumn * Z :=
  let kind := vfdw_map_default_kind type in
  if negb (bool_decide (unclaimed = 1)) || bool_decide (kind = VFDW_COL_DROPPED)
  then (cols, unclaimed)
  else match claim_first kind cols with
       | Some cols' => (cols', unclaimed - 1)
       | None => (cols, unclaimed)
       end.

Definition vfdw_map_assign_defaults (o : VfdwTableOptions) (tupdesc : list Form_pg_attribute)
    (cols : list VfdwColumn) : result (list VfdwColumn * Z) :=
  '(keyattno, unclaimed, first) ← vfdw_map_survey cols;
  if to_legacy_value o then vfdw_map_assign_legacy cols
  else
    '(cols, keyattno, unclaimed) ←
      match to_singleton_key o with
      | None => vfdw_map_assign_key cols keyattno unclaimed first
      | Some _ => Ok (cols, keyattno, unclaimed)
      end;
    let '(cols, unclaimed) := vfdw_map_assign_remaining (to_tabletype o) cols unclaimed in
    if bool_decide (0 < unclaimed)
    then Raise (vfdw_map_report_unsourced cols tupdesc unclaimed)
    else Ok (cols, keyattno).

(* ---------------------------------------------------------------- *)
(** ** Types *)

Definition vfdw_map_resolve_type (c : VfdwColumn) (typid typmod : Z) : VfdwColumn :=
  let basetypid := getBaseType typid in
  let '(typinput, typioparam) := getTypeInputInfo typid in
  let '(typoutput, typisvarlena) := getTypeOutputInfo typid in
  Column (col_attnum c) (col_kind c) (col_index_type c) (col_field c) typid typmod
    typinput typioparam typoutput typisvarlena
    (bool_decide (basetypid = BYTEAOID)) (bool_decide (basetypid ≠ typid))
    (col_field_slot c) (col_ttl_slot c) (col_packed c).

Definition packed_elem (col : VfdwColumn) : result VfdwPackedElem :=
  if col_is_domain col
  then Raise (PgError ERRCODE_INVALID_TABLE_DEFINITION "column cannot be a domain over an array")
  else
    let elemtypid := get_element_type (col_typid col) in
    let elembase := if bool_decide (elemtypid ≠ InvalidOid) then getBaseType elemtypid else InvalidOid in
    if negb (bool_decide (elembase = TEXTOID)) && negb (bool_decide (elembase = BYTEAOID))
    then Raise (PgError ERRCODE_INVALID_TABLE_DEFINITION "column must be an array of text or of bytea")
    else
      let '(typlen, byval, align) := get_typlenbyvalalign elemtypid in
      let e := vfdw_map_resolve_type zero_column elemtypid (col_typmod col) in
      Ok (PackedElem (with_kind (col_kind col) (with_attnum (col_attnum col) e)) typlen byval align).

Definition vfdw_map_resolve_packed (legacy : bool) (cols : list VfdwColumn)
    : result (list VfdwColumn) :=
  if negb legacy then Ok cols
  else match cols !! Nat.pred (length cols) with
       | None => Ok cols
       | Some col =>
           e ← packed_elem col;
           Ok (alter (with_packed (Some e)) (Nat.pred (length cols)) cols)
       end.

(** The attnum of each role, one column at a time. *)
Fixpoint roles_loop (cols : list VfdwColumn) (member score value : Z) : result (Z * Z * Z) :=
  match cols with
  | [] => Ok (member, score, value)
  | col :: rest =>
      let twice := Raise (PgError ERRCODE_INVALID_TABLE_DEFINITION
                            "only one column may hold each Valkey role") in
      match col_kind col with
      | VFDW_COL_MEMBER =>
          if bool_decide (member ≠ InvalidAttrNumber) then twice
          else roles_loop rest (col_attnum col) score value
      | VFDW_COL_SCORE =>
          if bool_decide (score ≠ InvalidAttrNumber) then twice
          else roles_loop rest member (col_attnum col) value
      | VFDW_COL_VALUE =>
          if bool_decide (value ≠ InvalidAttrNumber) then twice
          else roles_loop rest member score (col_attnum col)
      | _ => roles_loop rest member score value
      end
  end.

Definition vfdw_map_index_roles (cols : list VfdwColumn) : result (Z * Z * Z) :=
  roles_loop cols InvalidAttrNumber InvalidAttrNumber InvalidAttrNumber.

(* ---------------------------------------------------------------- *)
(** ** Rules (src/vfdw_map_check.c) *)

Definition vfdw_map_position_conflict (type : VfdwTableType) (col : VfdwColumn) : option bytes :=
  if negb (bool_decide (type = VFDW_TABLE_LIST))
  then Some "position columns require tabletype 'list'"
  else if negb (bool_decide (getBaseType (col_typid col) = INT4OID))
          && negb (bool_decide (getBaseType (col_typid col) = INT8OID))
  then Some "position columns must be of type integer or bigint"
  else None.

Definition vfdw_map_field_conflict (type : VfdwTableType) (col : VfdwColumn) : option bytes :=
  if negb (bool_decide (type = VFDW_TABLE_HASH)) && negb (bool_decide (type = VFDW_TABLE_VECTOR))
  then Some "field columns require tabletype 'hash' or 'vector'"
  else if bool_decide (type = VFDW_TABLE_VECTOR) && negb (vfdw_filter_name_is_safe (col_field col))
  then Some "field names on a vector table may hold only letters, digits, '_', '-' and '.', because they become part of the search query"
  else None.

Definition vfdw_map_ttl_conflict (type : VfdwTableType) (col : VfdwColumn) : option bytes :=
  if negb (bool_decide (type = VFDW_TABLE_HASH)) then Some "ttl columns require tabletype 'hash'"
  else if bool_decide (col_field col = None) then Some "a ttl column must also name its field"
  else if negb (bool_decide (getBaseType (col_typid col) = INTERVALOID))
  then Some "ttl columns must be of type interval"
  else None.

(** The conflict, and the two counters with the slot a ttl column takes. *)
Definition vfdw_map_column_conflict (type : VfdwTableType) (nfields nttl : nat) (col : VfdwColumn)
    : option bytes * VfdwColumn * nat * nat :=
  match col_kind col with
  | VFDW_COL_FIELD => (vfdw_map_field_conflict type col, col, S nfields, nttl)
  | VFDW_COL_SCORE =>
      (if bool_decide (type = VFDW_TABLE_ZSET) then None
       else Some "score columns require tabletype 'zset'", col, nfields, nttl)
  | VFDW_COL_MEMBER =>
      (if bool_decide (type = VFDW_TABLE_LIST) || bool_decide (type = VFDW_TABLE_SET)
          || bool_decide (type = VFDW_TABLE_ZSET) then None
       else Some "member columns require tabletype 'list', 'set' or 'zset'", col, nfields, nttl)
  | VFDW_COL_POSITION => (vfdw_map_position_conflict type col, col, nfields, nttl)
  | VFDW_COL_TTL =>
      (vfdw_map_ttl_conflict type col, with_slots (col_field_slot col) nttl col, nfields, S nttl)
  | VFDW_COL_DISTANCE =>
      (if bool_decide (type = VFDW_TABLE_VECTOR) then None
       else Some "distance columns require tabletype 'vector'", col, nfields, nttl)
  | VFDW_COL_VALUE =>
      (if bool_decide (type = VFDW_TABLE_STRING) then None
       else Some "this table type has no single value column", col, nfields, nttl)
  | _ => (None, col, nfields, nttl)
  end.

Fixpoint check_types_loop (type : VfdwTableType) (cols : list VfdwColumn)
    (tupdesc : list Form_pg_attribute) (nfields nttl : nat)
    : result (list VfdwColumn * nat * nat) :=
  match cols with
  | [] => Ok ([], nfields, nttl)
  | col :: rest =>
      let '(why, col', nfields, nttl) := vfdw_map_column_conflict type nfields nttl col in
      match why with
      | Some _ =>
          Raise (PgError ERRCODE_INVALID_TABLE_DEFINITION
                   ("column " +:+ quoted (from_option attname "" (head tupdesc))
                    +:+ " cannot be used with tabletype "
                    +:+ quoted (vfdw_tabletype_name (tabletype_code type))))
      | None =>
          '(cols', nfields, nttl) ← check_types_loop type rest (tail tupdesc) nfields nttl;
          Ok (col' :: cols', nfields, nttl)
      end
  end.

Definition vfdw_map_check_types (type : VfdwTableType) (tupdesc : list Form_pg_attribute)
    (cols : list VfdwColumn) : result (list VfdwColumn * nat * nat) :=
  check_types_loop type cols tupdesc 0 0.

Fixpoint fetch_loop (cols : list VfdwColumn) (nreq : nat) : list VfdwColumn * nat :=
  match cols with
  | [] => ([], nreq)
  | col :: rest =>
      match col_kind col with
      | VFDW_COL_FIELD =>
          let '(r, n) := fetch_loop rest (S nreq) in
          (with_slots nreq (col_ttl_slot col) col :: r, n)
      | VFDW_COL_TTL => let '(r, n) := fetch_loop rest (S nreq) in (col :: r, n)
      | _ => let '(r, n) := fetch_loop rest nreq in (col :: r, n)
      end
  end.

Definition vfdw_map_plan_hash_fetch (type : VfdwTableType) (legacy : bool) (cols : list VfdwColumn)
    : list VfdwColumn * bool * nat :=
  if negb (bool_decide (type = VFDW_TABLE_HASH)) || legacy then (cols, false, 0%nat)
  else let '(cols, nreq) := fetch_loop cols 0 in (cols, bool_decide (0 < nreq)%nat, nreq).

(* ---------------------------------------------------------------- *)
(** ** The map *)

Definition build_column (i : nat) (attr : Form_pg_attribute) : result VfdwColumn :=
  if attisdropped attr then Ok zero_column
  else
    vfdw_map_read_column_options
      (vfdw_map_resolve_type (with_attnum (Z.of_nat i + 1) zero_column) (atttypid attr) (atttypmod attr))
      (attfdwoptions attr).

Fixpoint build_columns (i : nat) (tupdesc : list Form_pg_attribute) : result (list VfdwColumn) :=
  match tupdesc with
  | [] => Ok []
  | attr :: rest =>
      col ← build_column i attr;
      cols ← build_columns (S i) rest;
      Ok (col :: cols)
  end.

Definition vfdw_map_build (relid : Z) (tupdesc : list Form_pg_attribute) (options : list DefElem)
    : result VfdwTableMap :=
  o ← vfdw_map_read_table_options options;
  cols ← build_columns 0 tupdesc;
  '(cols, keyattno) ← vfdw_map_assign_defaults o tupdesc cols;
  '(cols, nfields, nttl) ← vfdw_map_check_types (to_tabletype o) tupdesc cols;
  cols ← vfdw_map_resolve_packed (to_legacy_value o) cols;
  '(member, score, value) ← vfdw_map_index_roles cols;
  let '(cols, hmget, nreq) := vfdw_map_plan_hash_fetch (to_tabletype o) (to_legacy_value o) cols in
  Ok (TableMap relid cols keyattno member score value o nfields nttl hmget nreq).
End table_map.
