(* ===== verification/TableMapFacts.v ===== *)
(** What a map that was built guarantees to the scan and the write path
    (invariant I4 of src/vfdw_map.h): every live column has a source, a role has
    one column, and the positions a reply is read at are the positions the
    fields were asked for. *)
From S2P Require Import Prelude Opcode Option OptionFacts TableMap.
Local Open Scope Z_scope.

(* ---------------------------------------------------------------- *)
(** ** Vocabulary *)

(** [attno] names the one column of kind [k], or is zero and there is none. *)
Definition sole (k : VfdwColKind) (ks : list VfdwColKind) (attno : Z) : Prop :=
  (attno = 0 ∧ k ∉ ks) ∨
  ∃ i, attno = Z.of_nat i + 1 ∧ ks !! i = Some k ∧ ∀ j, ks !! j = Some k → j = i.

(** Attribute numbers are positions; only dropped columns have none. *)
Definition numbered (cols : list VfdwColumn) : Prop :=
  ∀ i c, cols !! i = Some c →
    (col_attnum c = 0 ∧ col_kind c = VFDW_COL_DROPPED) ∨ col_attnum c = Z.of_nat i + 1.

Definition unclaimed_count (cols : list VfdwColumn) : Z :=
  Z.of_nat (length (filter (λ c, is_unclaimed c = true) cols)).

(** The fields a walk over the columns asks HMGET and HPTTL for, in order. *)
Definition asked_fields (cols : list VfdwColumn) : list (option bytes) :=
  omap (λ c, if bool_decide (col_kind c = VFDW_COL_FIELD) || bool_decide (col_kind c = VFDW_COL_TTL)
             then Some (col_field c) else None) cols.
Definition ttl_fields (cols : list VfdwColumn) : list (option bytes) :=
  omap (λ c, if bool_decide (col_kind c = VFDW_COL_TTL) then Some (col_field c) else None) cols.

Lemma asked_fields_cons c l :
  asked_fields (c :: l) =
  if bool_decide (col_kind c = VFDW_COL_FIELD) || bool_decide (col_kind c = VFDW_COL_TTL)
  then col_field c :: asked_fields l else asked_fields l.
Proof. unfold asked_fields. simpl. by destruct (_ || _). Qed.

Lemma ttl_fields_cons c l :
  ttl_fields (c :: l) =
  if bool_decide (col_kind c = VFDW_COL_TTL) then col_field c :: ttl_fields l else ttl_fields l.
Proof. unfold ttl_fields. simpl. by destruct (bool_decide _). Qed.

(** The kinds an explicit option or a default may give. *)
Definition plain_kind (c : VfdwColumn) : Prop :=
  col_kind c ≠ VFDW_COL_LEGACY_VALUE ∧ (col_kind c = VFDW_COL_FIELD → is_Some (col_field c)).

Record map_wf (tupdesc : list Form_pg_attribute) (m : VfdwTableMap) : Prop := {
  wf_width : length (map_cols m) = length tupdesc;
  wf_source i a c : tupdesc !! i = Some a → map_cols m !! i = Some c →
    if attisdropped a then col_attnum c = 0 ∧ col_kind c = VFDW_COL_DROPPED
    else col_attnum c = Z.of_nat i + 1 ∧ col_kind c ≠ VFDW_COL_DROPPED;
  wf_key : sole VFDW_COL_KEY (col_kind <$> map_cols m) (map_keyattno m);
  wf_keyed : to_singleton_key (map_options m) = None → map_keyattno m ≠ 0;
  wf_member : sole VFDW_COL_MEMBER (col_kind <$> map_cols m) (map_memberattno m);
  wf_score : sole VFDW_COL_SCORE (col_kind <$> map_cols m) (map_scoreattno m);
  wf_value : sole VFDW_COL_VALUE (col_kind <$> map_cols m) (map_valueattno m);
  wf_named c : c ∈ map_cols m →
    col_kind c = VFDW_COL_FIELD ∨ col_kind c = VFDW_COL_TTL → is_Some (col_field c);
  wf_nttl : map_nttl m = length (ttl_fields (map_cols m));
  wf_ttl_slot c : c ∈ map_cols m → col_kind c = VFDW_COL_TTL →
    ttl_fields (map_cols m) !! col_ttl_slot c = Some (col_field c);
  wf_field_slot c : map_hmget m = true → c ∈ map_cols m → col_kind c = VFDW_COL_FIELD →
    asked_fields (map_cols m) !! col_field_slot c = Some (col_field c);
  wf_nreq : map_hmget m = true → map_nreq m = length (asked_fields (map_cols m)) ∧ (0 < map_nreq m)%nat;
  wf_packed c : c ∈ map_cols m → col_kind c = VFDW_COL_LEGACY_VALUE → is_Some (col_packed c);
}.

(* ---------------------------------------------------------------- *)
(** ** Roles *)

Lemma sole_nil k : sole k [] 0.
Proof. left. split; [done|]. apply not_elem_of_nil. Qed.

Lemma sole_snoc_other k ks x a : x ≠ k → sole k ks a → sole k (ks ++ [x]) a.
Proof.
  intros Hx [[-> Hn]|(i & -> & Hi & Hu)].
  - left. split; [done|]. rewrite elem_of_app, list_elem_of_singleton. naive_solver.
  - right. exists i. split_and!; [done|by apply lookup_app_l_Some|].
    intros j [Hj|[_ Hj]]%lookup_app_Some; [by apply Hu|].
    apply list_lookup_singleton_Some in Hj as [_ ->]. done.
Qed.

Lemma sole_snoc_new k ks : sole k ks 0 → sole k (ks ++ [k]) (Z.of_nat (length ks) + 1).
Proof.
  intros [[_ Hn]|(i & Hi & _)]; [|lia]. right. exists (length ks).
  split_and!; [done|by rewrite lookup_app_r, Nat.sub_diag by lia|].
  intros j [Hj|[Hl Hj]]%lookup_app_Some; [by apply list_elem_of_lookup_2 in Hj|].
  apply list_lookup_singleton_Some in Hj as [Hj _]. lia.
Qed.

Lemma sole_insert_new k ks i x :
  sole k ks 0 → ks !! i = Some x → sole k (<[i := k]> ks) (Z.of_nat i + 1).
Proof.
  intros [[_ Hn]|(j & Hj & _)] Hi; [|lia]. right. exists i.
  split_and!; [done|apply list_lookup_insert_eq; by eapply lookup_lt_Some|].
  intros j Hj. destruct (decide (i = j)) as [->|Hne]; [done|].
  rewrite list_lookup_insert_ne in Hj by done. by apply list_elem_of_lookup_2 in Hj.
Qed.

Lemma sole_insert_other k ks i x y a :
  ks !! i = Some x → x ≠ k → y ≠ k → sole k ks a → sole k (<[i := y]> ks) a.
Proof.
  intros Hi Hx Hy Hs. assert (Hl : (i < length ks)%nat) by by eapply lookup_lt_Some.
  destruct Hs as [[-> Hn]|(j & -> & Hj & Hu)].
  - left. split; [done|]. intros (m & Hm)%list_elem_of_lookup. destruct (decide (i = m)) as [->|Hne].
    + rewrite list_lookup_insert_eq in Hm by done. congruence.
    + rewrite list_lookup_insert_ne in Hm by done. by apply list_elem_of_lookup_2 in Hm.
  - right. exists j. assert (i ≠ j) by congruence.
    split_and!; [done|by rewrite list_lookup_insert_ne|]. intros m Hm.
    destruct (decide (i = m)) as [->|Hne].
    + rewrite list_lookup_insert_eq in Hm by done. congruence.
    + rewrite list_lookup_insert_ne in Hm by done. by apply Hu.
Qed.

Section facts.
Context `{TypeCatalog} (parse_bool : bytes → option bool).

Lemma kinds_snoc pre c : col_kind <$> (pre ++ [c]) = (col_kind <$> pre) ++ [col_kind c].
Proof. by rewrite fmap_app. Qed.

Lemma numbered_mid pre c cols :
  numbered (pre ++ c :: cols) → col_kind c ≠ VFDW_COL_DROPPED → col_attnum c = Z.of_nat (length pre) + 1.
Proof.
  intros Hn Hk. destruct (Hn (length pre) c) as [[_ ?]|]; [|done..].
  by rewrite lookup_app_r, Nat.sub_diag by lia.
Qed.

Lemma roles_loop_sole cols pre m s v m' s' v' :
  numbered (pre ++ cols) →
  sole VFDW_COL_MEMBER (col_kind <$> pre) m → sole VFDW_COL_SCORE (col_kind <$> pre) s →
  sole VFDW_COL_VALUE (col_kind <$> pre) v → roles_loop cols m s v = Ok (m', s', v') →
  sole VFDW_COL_MEMBER (col_kind <$> pre ++ cols) m' ∧ sole VFDW_COL_SCORE (col_kind <$> pre ++ cols) s' ∧
  sole VFDW_COL_VALUE (col_kind <$> pre ++ cols) v'.
Proof.
  revert pre m s v. induction cols as [|c cols IH]; intros pre m s v Hn Hm Hs Hv.
  { simpl. rewrite app_nil_r. by intros [= <- <- <-]. }
  pose proof (numbered_mid pre c cols Hn) as Ha.
  rewrite cons_middle, app_assoc in Hn |- *. cbn [roles_loop]. intros Hr.
  destruct (col_kind c) eqn:Ek; try (specialize (Ha ltac:(done)));
    try (case_bool_decide as E0; [done|subst]);
    (eapply IH; [done|..|exact Hr]; rewrite kinds_snoc, Ek;
     [..]; try (apply sole_snoc_other; done)).
  all: rewrite Ha, <- (length_fmap col_kind pre); by apply sole_snoc_new.
Qed.

Lemma index_roles_sole cols m s v :
  numbered cols → vfdw_map_index_roles cols = Ok (m, s, v) →
  sole VFDW_COL_MEMBER (col_kind <$> cols) m ∧ sole VFDW_COL_SCORE (col_kind <$> cols) s ∧
  sole VFDW_COL_VALUE (col_kind <$> cols) v.
Proof. intros Hn. apply (roles_loop_sole cols []); [done|apply sole_nil..]. Qed.

(* ---------------------------------------------------------------- *)
(** ** The survey and the assignment of defaults *)

Definition first_ok (cols : list VfdwColumn) (first : Z) : Prop :=
  unclaimed_count cols = 0 ∧ first = 0 ∨
  ∃ i c, cols !! i = Some c ∧ is_unclaimed c = true ∧ first = Z.of_nat i + 1.

Lemma unclaimed_snoc pre c :
  unclaimed_count (pre ++ [c]) = unclaimed_count pre + Z.b2z (is_unclaimed c).
Proof.
  unfold unclaimed_count. rewrite list.filter_app, length_app, filter_cons, filter_nil.
  destruct (is_unclaimed c); case_decide; simpl; try done; lia.
Qed.

Lemma is_unclaimed_spec c :
  is_unclaimed c = true ↔ col_kind c = VFDW_COL_DROPPED ∧ col_attnum c ≠ 0.
Proof.
  unfold is_unclaimed, InvalidAttrNumber. rewrite andb_true_iff, negb_true_iff.
  rewrite bool_decide_eq_true, bool_decide_eq_false. done.
Qed.

Lemma first_ok_snoc pre c cols first :
  numbered (pre ++ c :: cols) → first_ok pre first →
  first_ok (pre ++ [c])
    (if is_unclaimed c then if bool_decide (first = InvalidAttrNumber) then col_attnum c else first
     else first).
Proof.
  intros Hn Hf. assert (Hk : ∀ i x, pre !! i = Some x → (pre ++ [c]) !! i = Some x)
    by (intros; by apply lookup_app_l_Some).
  destruct (is_unclaimed c) eqn:Eu.
  - destruct Hf as [[Hz ->]|(i & x & Hi & Hx & ->)].
    + rewrite bool_decide_true by done. right. exists (length pre), c.
      split_and!; [by rewrite lookup_app_r, Nat.sub_diag by lia|done|].
      apply is_unclaimed_spec in Eu as [_ E0].
      destruct (Hn (length pre) c) as [[]|]; [|done..].
      by rewrite lookup_app_r, Nat.sub_diag by lia.
    + rewrite bool_decide_false by (unfold InvalidAttrNumber; lia). right. eauto 6.
  - destruct Hf as [[Hz ->]|(i & x & Hi & Hx & ->)].
    + left. split; [|done]. rewrite unclaimed_snoc, Eu. simpl. lia.
    + right. eauto 6.
Qed.

Lemma survey_loop_ok cols pre key un first key' un' first' :
  numbered (pre ++ cols) → sole VFDW_COL_KEY (col_kind <$> pre) key →
  un = unclaimed_count pre → first_ok pre first →
  survey_loop cols key un first = Ok (key', un', first') →
  sole VFDW_COL_KEY (col_kind <$> pre ++ cols) key' ∧ un' = unclaimed_count (pre ++ cols) ∧
  first_ok (pre ++ cols) first'.
Proof.
  revert pre key un first. induction cols as [|c cols IH]; intros pre key un first Hn Hs Hu Hf.
  { simpl. rewrite app_nil_r. by intros [= <- <- <-]. }
  pose proof (numbered_mid pre c cols Hn) as Ha. pose proof (first_ok_snoc _ _ _ _ Hn Hf) as Hf'.
  pose proof (unclaimed_snoc pre c) as Hu'.
  rewrite cons_middle, app_assoc in Hn |- *. cbn [survey_loop].
  destruct (bool_decide (col_kind c = VFDW_COL_KEY)) eqn:Ek;
    [apply bool_decide_eq_true in Ek|apply bool_decide_eq_false in Ek].
  - assert (Eu : is_unclaimed c = false).
    { unfold is_unclaimed. by rewrite Ek. }
    rewrite Eu in Hf', Hu'. case_bool_decide as E0; [done|]. subst key.
    apply IH; [done| |simpl in *; lia|done]. rewrite kinds_snoc, Ek, Ha by congruence.
    rewrite <- (length_fmap col_kind pre). by apply sole_snoc_new.
  - destruct (is_unclaimed c); apply IH; try done; simpl in Hu'; try lia;
      rewrite kinds_snoc; by apply sole_snoc_other.
Qed.

Lemma survey_ok cols key un first :
  numbered cols → vfdw_map_survey cols = Ok (key, un, first) →
  sole VFDW_COL_KEY (col_kind <$> cols) key ∧ un = unclaimed_count cols ∧ first_ok cols first.
Proof.
  intros Hn. apply (survey_loop_ok cols []); [done|apply sole_nil|done|by left].
Qed.
(** One unclaimed column gets a kind. *)
Definition claimed (k : VfdwColKind) (i : nat) (cols cols' : list VfdwColumn) : Prop :=
  ∃ pre c post, cols = pre ++ c :: post ∧ is_unclaimed c = true ∧
    cols' = pre ++ with_kind k c :: post ∧ i = length pre.

Lemma claim_first_claimed k cols cols' : claim_first k cols = Some cols' → ∃ i, claimed k i cols cols'.
Proof.
  revert cols'. induction cols as [|c cols IH]; intros cols'; simpl; [done|].
  destruct (is_unclaimed c) eqn:Eu.
  - intros [= <-]. by exists 0%nat, [], c, cols.
  - destruct (claim_first k cols) as [r|]; simpl; [|done]. intros [= <-].
    destruct (IH r eq_refl) as (? & pre & x & post & -> & Hx & -> & _).
    by exists (S (length pre)), (c :: pre), x, post.
Qed.

Lemma alter_claimed k cols i c :
  cols !! i = Some c → is_unclaimed c = true → claimed k i cols (alter (with_kind k) i cols).
Proof.
  intros Hi Hu. exists (take i cols), c, (drop (S i) cols). pose proof (lookup_lt_Some _ _ _ Hi).
  assert (Hl : length (take i cols) = i) by (rewrite length_take; lia).
  split_and!; [by rewrite take_drop_middle|done| |done].
  rewrite <- (take_drop_middle cols i c Hi) at 1. rewrite <- Hl at 1.
  by rewrite <- (Nat.add_0_r (length (take i cols))), alter_app_r.
Qed.

Lemma claimed_attnums k i cols cols' : claimed k i cols cols' → col_attnum <$> cols' = col_attnum <$> cols.
Proof. intros (pre & c & post & -> & _ & -> & ->). by rewrite !fmap_app. Qed.

Lemma claimed_numbered k i cols cols' :
  claimed k i cols cols' → numbered cols → numbered cols'.
Proof.
  intros (pre & c & post & -> & Hu & -> & ->) Hn j x Hx. apply is_unclaimed_spec in Hu as [Hk Ha].
  destruct (decide (j = length pre)) as [->|Hne].
  - rewrite list_lookup_middle in Hx by done. injection Hx as <-. simpl. right.
    destruct (Hn (length pre) c) as [[]|]; [|done..]. by rewrite list_lookup_middle.
  - apply Hn. destruct (decide (j < length pre)%nat).
    + rewrite lookup_app_l in Hx |- * by done. done.
    + rewrite lookup_app_r in Hx |- * by lia. destruct (j - length pre)%nat eqn:E; [lia|done].
Qed.

Lemma claimed_count k i cols cols' :
  k ≠ VFDW_COL_DROPPED → claimed k i cols cols' → unclaimed_count cols' = unclaimed_count cols - 1.
Proof.
  intros Hk (pre & c & post & -> & Hu & -> & ->). unfold unclaimed_count.
  rewrite !list.filter_app, !filter_cons, !length_app. rewrite (decide_True (P := is_unclaimed c = true)) by done.
  rewrite decide_False; [simpl; lia|]. rewrite is_unclaimed_spec. simpl. naive_solver.
Qed.

Lemma claimed_kinds k i cols cols' :
  claimed k i cols cols' →
  (col_kind <$> cols) !! i = Some VFDW_COL_DROPPED ∧
  col_kind <$> cols' = <[i := k]> (col_kind <$> cols).
Proof.
  intros (pre & c & post & -> & Hu & -> & ->). apply is_unclaimed_spec in Hu as [Hk _].
  rewrite !fmap_app. simpl. rewrite <- (length_fmap col_kind pre).
  rewrite list_lookup_middle, insert_app_r_alt, Nat.sub_diag by done. simpl. by rewrite Hk.
Qed.

Lemma claimed_sole_other k k' i cols cols' a :
  k ≠ k' → k' ≠ VFDW_COL_DROPPED → claimed k i cols cols' →
  sole k' (col_kind <$> cols) a → sole k' (col_kind <$> cols') a.
Proof.
  intros Hne Hd Hc. destruct (claimed_kinds _ _ _ _ Hc) as (Hi & ->). intros Hs.
  eapply sole_insert_other; [done|congruence..|done].
Qed.

Lemma claimed_plain k i cols cols' :
  k ≠ VFDW_COL_FIELD → k ≠ VFDW_COL_LEGACY_VALUE → claimed k i cols cols' →
  Forall plain_kind cols → Forall plain_kind cols'.
Proof.
  intros H1 H2 (pre & c & post & -> & _ & -> & ->). intros Hf.
  apply Forall_app in Hf as [Hf1 Hf2]. apply Forall_inv_tail in Hf2.
  apply Forall_app. split; [done|]. constructor; [by split|done].
Qed.

(** What the assignment of defaults leaves. *)
Record assigned (o : VfdwTableOptions) (cols cols' : list VfdwColumn) (key : Z) : Prop := {
  as_attnums : col_attnum <$> cols' = col_attnum <$> cols;
  as_numbered : numbered cols';
  as_key : sole VFDW_COL_KEY (col_kind <$> cols') key;
  as_keyed : to_singleton_key o = None → key ≠ 0;
  as_sourced : ∀ c, c ∈ cols' → col_attnum c ≠ 0 → col_kind c ≠ VFDW_COL_DROPPED;
  as_plain : to_legacy_value o = false → Forall plain_kind cols';
  as_legacy : to_legacy_value o = true →
    col_kind <$> cols' = [VFDW_COL_KEY; VFDW_COL_LEGACY_VALUE];
}.

Lemma no_unclaimed cols c :
  unclaimed_count cols ≤ 0 → c ∈ cols → col_attnum c ≠ 0 → col_kind c ≠ VFDW_COL_DROPPED.
Proof.
  unfold unclaimed_count. intros Hz Hc Ha Hk.
  assert (Hin : c ∈ filter (λ c, is_unclaimed c = true) cols).
  { apply list_elem_of_filter. split; [by apply is_unclaimed_spec|done]. }
  destruct (filter _ cols); [by apply not_elem_of_nil in Hin|simpl in Hz; lia].
Qed.

Lemma assign_legacy_ok o cols cols' key :
  to_legacy_value o = true → numbered cols → vfdw_map_assign_legacy cols = Ok (cols', key) →
  assigned o cols cols' key.
Proof.
  intros Hl Hn. destruct cols as [|c0 [|c1 [|]]]; simpl; try done.
  destruct (bool_decide _) eqn:E0; [done|]. destruct (bool_decide (col_attnum c1 = _)) eqn:E1; [done|].
  apply bool_decide_eq_false in E0, E1. simpl. intros [= <- <-].
  destruct (Hn 0%nat c0 eq_refl) as [[]|H0]; [done|].
  destruct (Hn 1%nat c1 eq_refl) as [[]|H1]; [done|]. simpl in *.
  split; simpl; try done; try congruence.
  - intros [|[|i]] x; simpl; [intros [= <-]; by right..|done].
  - right. exists 0%nat. split_and!; [done|done|]. by intros [|[|j]].
  - intros c [->|[->|[]%not_elem_of_nil]%elem_of_cons]%elem_of_cons; done.
Qed.

Lemma assign_key_ok cols key un first cols' key' un' :
  numbered cols → Forall plain_kind cols → sole VFDW_COL_KEY (col_kind <$> cols) key →
  un = unclaimed_count cols → first_ok cols first →
  vfdw_map_assign_key cols key un first = Ok (cols', key', un') →
  key' ≠ 0 ∧ sole VFDW_COL_KEY (col_kind <$> cols') key' ∧ un' = unclaimed_count cols' ∧
  numbered cols' ∧ Forall plain_kind cols' ∧ col_attnum <$> cols' = col_attnum <$> cols.
Proof.
  intros Hn Hp Hs Hu Hf. unfold vfdw_map_assign_key, InvalidAttrNumber.
  destruct (bool_decide (key = 0)) eqn:E0; simpl.
  - apply bool_decide_eq_true in E0. subst key. case_bool_decide as Ep; [|done].
    destruct Hf as [[? _]|(i & c & Hi & Hc & ->)]; [lia|].
    rewrite bool_decide_false by lia. intros [= <- <- <-].
    replace (Z.to_nat (Z.of_nat i + 1 - 1)) with i by lia.
    pose proof (alter_claimed VFDW_COL_KEY cols i c Hi Hc) as Hcl. split_and!.
    + lia.
    + destruct (claimed_kinds _ _ _ _ Hcl) as (Hd & ->). by eapply sole_insert_new.
    + rewrite (claimed_count VFDW_COL_KEY i cols _ ltac:(done) Hcl). lia.
    + by eapply claimed_numbered.
    + by eapply (claimed_plain VFDW_COL_KEY i cols).
    + by eapply claimed_attnums.
  - rewrite E0. apply bool_decide_eq_false in E0. by intros [= <- <- <-].
Qed.
Lemma default_kind_plain t :
  let k := vfdw_map_default_kind t in
  k ≠ VFDW_COL_KEY ∧ k ≠ VFDW_COL_FIELD ∧ k ≠ VFDW_COL_LEGACY_VALUE.
Proof. by destruct t. Qed.

Lemma assign_remaining_ok t cols un key cols' un' :
  numbered cols → Forall plain_kind cols → sole VFDW_COL_KEY (col_kind <$> cols) key →
  un = unclaimed_count cols → vfdw_map_assign_remaining t cols un = (cols', un') →
  sole VFDW_COL_KEY (col_kind <$> cols') key ∧ un' = unclaimed_count cols' ∧ numbered cols' ∧
  Forall plain_kind cols' ∧ col_attnum <$> cols' = col_attnum <$> cols.
Proof.
  intros Hn Hp Hs Hu. unfold vfdw_map_assign_remaining.
  destruct (default_kind_plain t) as (K1 & K2 & K3).
  destruct (bool_decide (un = 1)); simpl; [|by intros [= <- <-]].
  case_bool_decide as Ek; [by intros [= <- <-]|].
  destruct (claim_first _ cols) as [r|] eqn:E; intros [= <- <-]; [|done].
  apply claim_first_claimed in E as [i Hc]. split_and!.
  - by eapply claimed_sole_other.
  - rewrite (claimed_count _ _ _ _ Ek Hc). lia.
  - by eapply claimed_numbered.
  - by eapply claimed_plain.
  - by eapply claimed_attnums.
Qed.

Lemma assign_defaults_ok o tupdesc cols cols' key :
  numbered cols → Forall plain_kind cols →
  vfdw_map_assign_defaults o tupdesc cols = Ok (cols', key) → assigned o cols cols' key.
Proof.
  intros Hn Hp. unfold vfdw_map_assign_defaults.
  destruct (vfdw_map_survey cols) as [[[k u] f]|] eqn:Es; simpl; [|done].
  destruct (survey_ok _ _ _ _ Hn Es) as (Hk & Hu & Hf).
  destruct (to_legacy_value o) eqn:El; [by apply assign_legacy_ok|].
  set (r := match to_singleton_key o with None => _ | Some _ => _ end).
  assert (Hr : ∀ c1 k1 u1, r = Ok (c1, k1, u1) →
    (to_singleton_key o = None → k1 ≠ 0) ∧ sole VFDW_COL_KEY (col_kind <$> c1) k1 ∧
    u1 = unclaimed_count c1 ∧ numbered c1 ∧ Forall plain_kind c1 ∧
    col_attnum <$> c1 = col_attnum <$> cols).
  { unfold r. intros c1 k1 u1. destruct (to_singleton_key o); [by intros [= <- <- <-]|].
    intros Ha. eapply assign_key_ok in Ha as (? & ? & ? & ? & ? & ?); done. }
  destruct r as [[[c1 k1] u1]|]; simpl; [|done].
  destruct (Hr _ _ _ eq_refl) as (H1 & H2 & H3 & H4 & H5 & H6).
  destruct (vfdw_map_assign_remaining _ c1 u1) as [c2 u2] eqn:Ea.
  eapply assign_remaining_ok in Ea as (A1 & A2 & A3 & A4 & A5); [|done..].
  case_bool_decide; [done|]. intros [= <- <-].
  split; try done; try congruence. intros c. apply no_unclaimed. lia.
Qed.

(* ---------------------------------------------------------------- *)
(** ** Slots *)

(** What the last passes leave alone. *)
Definition view (c : VfdwColumn) := (col_attnum c, col_kind c, col_field c).
Definition slotted (c : VfdwColumn) := (view c, col_ttl_slot c).
Definition kept (c : VfdwColumn) := (slotted c, col_packed c).

Lemma fmap_weaken {A B C} (f : A → B) (g : B → C) (l k : list A) :
  f <$> l = f <$> k → (g ∘ f) <$> l = (g ∘ f) <$> k.
Proof. rewrite !list_fmap_compose. by intros ->. Qed.

Lemma fmap_partner {A B} (f : A → B) (l k : list A) i x :
  f <$> l = f <$> k → l !! i = Some x → ∃ y, k !! i = Some y ∧ f x = f y.
Proof.
  intros E Hx. assert (Hf : (f <$> k) !! i = Some (f x)) by by rewrite <- E, list_lookup_fmap, Hx.
  apply list_lookup_fmap_Some in Hf as (y & ? & ?). eauto.
Qed.

Lemma view_kinds (l k : list VfdwColumn) : view <$> l = view <$> k → col_kind <$> l = col_kind <$> k.
Proof. apply (fmap_weaken view (λ v, v.1.2)). Qed.

Lemma view_ttl_fields (l k : list VfdwColumn) : view <$> l = view <$> k → ttl_fields l = ttl_fields k.
Proof.
  revert k; induction l as [|c l IH]; intros [|d k]; try done. rewrite !fmap_cons, !ttl_fields_cons.
  intros [= _ -> -> E]. by rewrite (IH k E).
Qed.

Lemma view_numbered (l k : list VfdwColumn) : view <$> l = view <$> k → numbered k → numbered l.
Proof.
  intros E Hn i c Hc. destruct (fmap_partner view l k i c E Hc) as (d & Hd & [= -> -> _]).
  by apply Hn.
Qed.

Lemma conflict_view type nf nt col why col' nf' nt' :
  vfdw_map_column_conflict type nf nt col = (why, col', nf', nt') →
  view col' = view col ∧ col_packed col' = col_packed col ∧
  (col_kind col = VFDW_COL_TTL → col_ttl_slot col' = nt ∧ nt' = S nt ∧
     (why = None → is_Some (col_field col))) ∧
  (col_kind col ≠ VFDW_COL_TTL → nt' = nt).
Proof.
  unfold vfdw_map_column_conflict. destruct (col_kind col) eqn:Ek; intros [= <- <- <- <-];
    (split_and!; [done|done|intros ?|intros ?]); try done.
  split_and!; [done|done|]. unfold vfdw_map_ttl_conflict.
  destruct (negb _); [done|]. destruct (col_field col); [by eexists|done].
Qed.

Lemma check_types_ok type cols tupdesc nf nt cols' nf' nt' :
  check_types_loop type cols tupdesc nf nt = Ok (cols', nf', nt') →
  view <$> cols' = view <$> cols ∧ nt' = (nt + length (ttl_fields cols'))%nat ∧
  (∀ c, c ∈ cols' → col_kind c = VFDW_COL_TTL → is_Some (col_field c) ∧
     ∃ j, col_ttl_slot c = (nt + j)%nat ∧ ttl_fields cols' !! j = Some (col_field c)).
Proof.
  revert tupdesc nf nt cols'. induction cols as [|col cols IH]; intros td nf nt cols'; simpl.
  { intros [= <- <- <-]. split_and!; [done|simpl; lia|]. by intros c ?%not_elem_of_nil. }
  destruct (vfdw_map_column_conflict type nf nt col) as [[[why col'] nf1] nt1] eqn:E.
  apply conflict_view in E as (Hv & _ & Ht & Hnt). destruct why; [done|].
  destruct (check_types_loop type cols _ nf1 nt1) as [[[r a] b]|] eqn:El; simpl; [|done].
  intros [= <- <- <-]. apply IH in El as (I1 & I2 & I3).
  assert (Hk : col_kind col' = col_kind col) by (unfold view in Hv; congruence).
  assert (Hfd : col_field col' = col_field col) by (unfold view in Hv; congruence).
  split; [by rewrite !fmap_cons, Hv, I1|]. rewrite ttl_fields_cons, Hk.
  destruct (decide (col_kind col = VFDW_COL_TTL)) as [Hd|Hd].
  - rewrite bool_decide_true by done. simpl. destruct (Ht Hd) as (S1 & S2 & S3). split; [lia|].
    intros c [->|Hc]%elem_of_cons Hck.
    + rewrite Hfd. split; [by apply S3|]. exists 0%nat. split; [lia|done].
    + destruct (I3 c Hc Hck) as (? & j & ? & ?). split; [done|]. exists (S j). split; [lia|done].
  - rewrite bool_decide_false by done. simpl. rewrite Hnt in * by done. split; [done|].
    intros c [->|Hc]%elem_of_cons Hck; [congruence|by apply I3].
Qed.

Lemma fetch_loop_ok cols n cols' n' :
  fetch_loop cols n = (cols', n') →
  kept <$> cols' = kept <$> cols ∧
  n' = (n + length (asked_fields cols'))%nat ∧
  (∀ c, c ∈ cols' → col_kind c = VFDW_COL_FIELD →
     ∃ j, col_field_slot c = (n + j)%nat ∧ asked_fields cols' !! j = Some (col_field c)).
Proof.
  revert n cols'. induction cols as [|col cols IH]; intros n cols'; simpl.
  { intros [= <- <-]. split_and!; [done|simpl; lia|]. by intros c ?%not_elem_of_nil. }
  destruct (decide (col_kind col = VFDW_COL_FIELD)) as [Hf|Hf].
  { rewrite Hf. destruct (fetch_loop cols (S n)) as [r m] eqn:E. intros [= <- <-].
    apply IH in E as (I1 & I4 & I5). rewrite asked_fields_cons, !fmap_cons, I1. simpl. rewrite Hf. simpl.
    split_and!; [done|lia|].
    intros c [->|Hc]%elem_of_cons Hck; [exists 0%nat; split; [simpl; lia|done]|].
    destruct (I5 c Hc Hck) as (j & ? & ?). exists (S j). split; [lia|done]. }
  destruct (decide (col_kind col = VFDW_COL_TTL)) as [Ht|Ht].
  { rewrite Ht. destruct (fetch_loop cols (S n)) as [r m] eqn:E. intros [= <- <-].
    apply IH in E as (I1 & I4 & I5). rewrite asked_fields_cons, !fmap_cons, I1. simpl. rewrite Ht. simpl.
    split_and!; [done|lia|].
    intros c [->|Hc]%elem_of_cons Hck; [congruence|].
    destruct (I5 c Hc Hck) as (j & ? & ?). exists (S j). split; [lia|done]. }
  intros Hr. assert (∃ r, fetch_loop cols n = (r, n') ∧ cols' = col :: r) as (r & E & ->).
  { destruct (col_kind col); try done; destruct (fetch_loop cols n) as [r m];
      injection Hr as <- <-; eauto. }
  apply IH in E as (I1 & I4 & I5). rewrite asked_fields_cons, !fmap_cons, I1.
  rewrite !bool_decide_false by done. simpl.
  split_and!; [done|done|].
  intros c [->|Hc]%elem_of_cons Hck; [congruence|by apply I5].
Qed.
(* ---------------------------------------------------------------- *)
(** ** The build *)

Lemma resolve_packed_ok legacy cols cols' :
  (legacy = true → col_kind <$> cols = [VFDW_COL_KEY; VFDW_COL_LEGACY_VALUE]) →
  (legacy = false → ∀ c, c ∈ cols → col_kind c ≠ VFDW_COL_LEGACY_VALUE) →
  vfdw_map_resolve_packed legacy cols = Ok cols' →
  slotted <$> cols' = slotted <$> cols ∧
  (∀ c, c ∈ cols' → col_kind c = VFDW_COL_LEGACY_VALUE → is_Some (col_packed c)).
Proof.
  intros Hl Hp. unfold vfdw_map_resolve_packed. destruct legacy; simpl.
  - specialize (Hl eq_refl). destruct cols as [|c0 [|c1 [|]]]; try done. simpl.
    injection Hl as H0 H1. destruct (packed_elem c1) as [e|]; simpl; [|done]. intros [= <-].
    split; [done|]. intros c [->|[->|[]%not_elem_of_nil]%elem_of_cons]%elem_of_cons; [congruence|].
    by eexists.
  - intros [= <-]. split; [done|]. intros c Hc Hk. by destruct (Hp eq_refl c Hc).
Qed.

Lemma claimed_kind_plain c :
  claimed_kind c ≠ VFDW_COL_LEGACY_VALUE ∧ (claimed_kind c = VFDW_COL_FIELD → is_Some (cl_field c)).
Proof.
  unfold claimed_kind. destruct (is_key c), (is_ttl c), (is_position c), (is_member c), (is_score c),
    (is_distance c); try done. case_bool_decide; done.
Qed.

Lemma build_column_ok i attr c :
  build_column parse_bool i attr = Ok c → plain_kind c ∧
  if attisdropped attr then col_attnum c = 0 ∧ col_kind c = VFDW_COL_DROPPED
  else col_attnum c = Z.of_nat i + 1.
Proof.
  unfold build_column. destruct (attisdropped attr); [by intros [= <-]|].
  unfold vfdw_map_read_column_options.
  destruct (read_column_claims parse_bool _ _) as [cl|]; simpl; [|done].
  destruct (vfdw_map_check_single_source cl) as [[]|]; simpl; [|done]. intros [= <-].
  unfold vfdw_map_resolve_type. destruct (getTypeInputInfo _), (getTypeOutputInfo _).
  split; [|done]. apply claimed_kind_plain.
Qed.

Lemma build_columns_ok tupdesc n cols :
  build_columns parse_bool n tupdesc = Ok cols → length cols = length tupdesc ∧
  Forall plain_kind cols ∧
  ∀ i a c, tupdesc !! i = Some a → cols !! i = Some c →
    if attisdropped a then col_attnum c = 0 ∧ col_kind c = VFDW_COL_DROPPED
    else col_attnum c = Z.of_nat (n + i) + 1.
Proof.
  revert n cols; induction tupdesc as [|a td IH]; intros n cols; simpl; [by intros [= <-]|].
  destruct (build_column parse_bool n a) as [c|] eqn:Ec; simpl; [|done].
  destruct (build_columns parse_bool (S n) td) as [r|] eqn:Er; simpl; [|done]. intros [= <-].
  destruct (IH _ _ Er) as (I1 & I2 & I3). destruct (build_column_ok _ _ _ Ec) as [H1 H2].
  split_and!; [simpl; lia|by constructor|]. intros [|i] a' c'; simpl.
  - intros [= <-] [= <-]. by rewrite Nat.add_0_r.
  - rewrite Nat.add_succ_r. apply I3.
Qed.

Lemma build_columns_numbered tupdesc cols :
  build_columns parse_bool 0 tupdesc = Ok cols → numbered cols.
Proof.
  intros Hb i c Hc. destruct (build_columns_ok _ _ _ Hb) as (Hl & _ & Hn).
  destruct (tupdesc !! i) as [a|] eqn:Ea.
  - specialize (Hn i a c Ea Hc). destruct (attisdropped a); [by left|by right].
  - apply lookup_ge_None in Ea. apply lookup_lt_Some in Hc. lia.
Qed.
(** The four column lists of a build, one per pass. *)
Record built (tupdesc : list Form_pg_attribute) (o : VfdwTableOptions)
    (c1 c2 c3 c4 : list VfdwColumn) (key : Z) (nttl : nat) : Prop := {
  bl_columns : build_columns parse_bool 0 tupdesc = Ok c1;
  bl_assigned : assigned o c1 c2 key;
  bl_view : view <$> c3 = view <$> c2;
  bl_nttl : nttl = length (ttl_fields c3);
  bl_ttl : ∀ c, c ∈ c3 → col_kind c = VFDW_COL_TTL →
    is_Some (col_field c) ∧ ttl_fields c3 !! col_ttl_slot c = Some (col_field c);
  bl_slotted : slotted <$> c4 = slotted <$> c3;
  bl_packed : ∀ c, c ∈ c4 → col_kind c = VFDW_COL_LEGACY_VALUE → is_Some (col_packed c);
}.

Lemma built_view tupdesc o c1 c2 c3 c4 key nttl :
  built tupdesc o c1 c2 c3 c4 key nttl → view <$> c4 = view <$> c2.
Proof. intros []. rewrite <- bl_view0. by apply (fmap_weaken slotted fst). Qed.

Lemma built_field_named tupdesc o c1 c2 c3 c4 key nttl c :
  built tupdesc o c1 c2 c3 c4 key nttl → c ∈ c4 → col_kind c = VFDW_COL_FIELD → is_Some (col_field c).
Proof.
  intros B Hc Hk. pose proof (built_view _ _ _ _ _ _ _ _ B) as Hv. destruct (bl_assigned _ _ _ _ _ _ _ _ B).
  apply list_elem_of_lookup in Hc as [i Hi].
  destruct (fmap_partner view _ _ _ _ Hv Hi) as (d & Hd & [= _ E1 ->]). rewrite Hk in E1.
  destruct (to_legacy_value o) eqn:El.
  - specialize (as_legacy0 eq_refl). apply (f_equal (lookup i)) in as_legacy0.
    rewrite list_lookup_fmap, Hd in as_legacy0. simpl in as_legacy0. rewrite <- E1 in as_legacy0.
    by destruct i as [|[|i]].
  - by apply (Forall_lookup_1 _ _ _ _ (as_plain0 eq_refl) Hd).
Qed.

(** The last pass only writes field slots. *)
Lemma plan_fetch_ok type legacy cols cols' hmget nreq :
  vfdw_map_plan_hash_fetch type legacy cols = (cols', hmget, nreq) →
  kept <$> cols' = kept <$> cols ∧
  (hmget = true → nreq = length (asked_fields cols') ∧ (0 < nreq)%nat ∧
     ∀ c, c ∈ cols' → col_kind c = VFDW_COL_FIELD →
       asked_fields cols' !! col_field_slot c = Some (col_field c)).
Proof.
  unfold vfdw_map_plan_hash_fetch. destruct (negb _ || legacy); [by intros [= <- <- <-]|].
  destruct (fetch_loop cols 0) as [r n] eqn:E. intros [= <- <- <-].
  apply fetch_loop_ok in E as (I1 & I2 & I3). split; [done|].
  rewrite bool_decide_eq_true. intros Hn. split_and!; [done|done|]. intros c Hc Hk.
  destruct (I3 c Hc Hk) as (j & -> & ?). done.
Qed.

Lemma built_final tupdesc o c1 c2 c3 c4 cols key nttl m s v relid nf hmget nreq :
  built tupdesc o c1 c2 c3 c4 key nttl → vfdw_map_index_roles c4 = Ok (m, s, v) →
  vfdw_map_plan_hash_fetch (to_tabletype o) (to_legacy_value o) c4 = (cols, hmget, nreq) →
  map_wf tupdesc (TableMap relid cols key m s v o nf nttl hmget nreq).
Proof.
  intros B Hr Hf. pose proof (built_view _ _ _ _ _ _ _ _ B) as Hv.
  pose proof (λ c, built_field_named _ _ _ _ _ _ _ _ c B) as Hnamed.
  destruct B as [Bc Ba Bv Bn Bt Bs Bp]. destruct Ba as [Aa An Ak Akd As Ap Al].
  destruct (build_columns_ok _ _ _ Bc) as (Hl & _ & Hsrc).
  assert (N4 : numbered c4) by by eapply view_numbered.
  destruct (index_roles_sole _ _ _ _ N4 Hr) as (R1 & R2 & R3).
  apply plan_fetch_ok in Hf as (Hk & Hh).
  assert (Hsl : slotted <$> cols = slotted <$> c4) by by apply (fmap_weaken kept fst).
  assert (Hv4 : view <$> cols = view <$> c4) by by apply (fmap_weaken kept (λ x, x.1.1)).
  assert (Hv2 : view <$> cols = view <$> c2) by congruence.
  assert (Hks : col_kind <$> cols = col_kind <$> c4) by by apply view_kinds.
  assert (Hks2 : col_kind <$> cols = col_kind <$> c2) by by apply view_kinds.
  assert (Ht : ttl_fields cols = ttl_fields c3).
  { apply view_ttl_fields. congruence. }
  assert (Hlen : length cols = length c1).
  { pose proof (f_equal length Hv2) as L1. pose proof (f_equal length Aa) as L2.
    rewrite !length_fmap in L1. rewrite !length_fmap in L2. congruence. }
  assert (Hin : ∀ c, c ∈ cols → ∃ d, d ∈ c4 ∧ kept c = kept d).
  { intros c [i Hi]%list_elem_of_lookup. destruct (fmap_partner kept _ _ _ _ Hk Hi) as (d & ? & ?).
    exists d. split; [by eapply list_elem_of_lookup_2|done]. }
  assert (Hin3 : ∀ c, c ∈ cols → ∃ d, d ∈ c3 ∧ slotted c = slotted d).
  { intros c [i Hi]%list_elem_of_lookup. rewrite Bs in Hsl.
    destruct (fmap_partner slotted _ _ _ _ Hsl Hi) as (d & ? & ?).
    exists d. split; [by eapply list_elem_of_lookup_2|done]. }
  split; simpl; rewrite ?Hks, ?Ht; try done.
  - congruence.
  - intros i a c Ha Hc. destruct (fmap_partner view _ _ _ _ Hv2 Hc) as (d & Hd & [= E1 E2 _]).
    assert (Hat : (col_attnum <$> c1) !! i = Some (col_attnum d)) by by rewrite <- Aa, list_lookup_fmap, Hd.
    apply list_lookup_fmap_Some in Hat as (d1 & E3 & Hd1).
    specialize (Hsrc i a d1 Ha Hd1). rewrite E1, E2, E3. destruct (attisdropped a).
    + destruct Hsrc as [Hz _]. split; [done|]. destruct (An i d Hd) as [[_ ?]|?]; [done|lia].
    + simpl in Hsrc. split; [done|]. apply As; [by eapply list_elem_of_lookup_2|lia].
  - by rewrite <- Hks, Hks2.
  - intros c Hc Hor. destruct Hor as [Hkf|Hkt].
    + destruct (Hin c Hc) as (d & Hd & [= _ E1 E2 _ _]). rewrite E2. apply Hnamed; congruence.
    + destruct (Hin3 c Hc) as (d & Hd & [= _ E1 E2 _]). rewrite E2. apply Bt; congruence.
  - intros c Hc Hkt. destruct (Hin3 c Hc) as (d & Hd & [= _ E1 E2 ->]). rewrite E2.
    apply Bt; congruence.
  - intros c Hh1. by apply Hh.
  - intros Hh1. destruct (Hh Hh1) as (? & ? & _). done.
  - intros c Hc Hkl. destruct (Hin c Hc) as (d & Hd & [= _ E1 _ _ ->]). apply Bp; congruence.
Qed.
End facts.

Lemma map_build_wf `{TypeCatalog} parse_bool relid tupdesc options m :
  vfdw_map_build parse_bool relid tupdesc options = Ok m → map_wf tupdesc m.
Proof.
  unfold vfdw_map_build.
  destruct (vfdw_map_read_table_options parse_bool options) as [o|] eqn:Eo; simpl; [|done].
  destruct (build_columns parse_bool 0 tupdesc) as [c1|] eqn:Ec; simpl; [|done].
  destruct (vfdw_map_assign_defaults o tupdesc c1) as [[c2 key]|] eqn:Ed; simpl; [|done].
  destruct (vfdw_map_check_types _ tupdesc c2) as [[[c3 nf] nt]|] eqn:Et; simpl; [|done].
  destruct (vfdw_map_resolve_packed _ c3) as [c4|] eqn:Ep; simpl; [|done].
  destruct (vfdw_map_index_roles c4) as [[[mm ss] vv]|] eqn:Er; simpl; [|done].
  destruct (vfdw_map_plan_hash_fetch _ _ c4) as [[cols hm] nq] eqn:Ef. intros [= <-].
  pose proof (build_columns_numbered _ _ _ Ec) as Hn.
  destruct (build_columns_ok _ _ _ _ Ec) as (_ & Hp & _).
  pose proof (assign_defaults_ok _ _ _ _ _ Hn Hp Ed) as Ha.
  apply check_types_ok in Et as (T1 & T2 & T3).
  apply resolve_packed_ok in Ep as [P1 P2].
  - eapply (built_final parse_bool tupdesc o c1 c2 c3 c4); [|done..]. split; try done.
    intros c Hc Hk. destruct (T3 c Hc Hk) as (? & j & -> & ?). done.
  - intros Hl. rewrite (view_kinds _ _ T1). by apply (as_legacy _ _ _ _ Ha).
  - intros Hl c Hc. apply list_elem_of_lookup in Hc as [i Hi].
    destruct (fmap_partner view _ _ _ _ T1 Hi) as (d & Hd & [= _ -> _]).
    by apply (Forall_lookup_1 _ _ _ _ (as_plain _ _ _ _ Ha Hl) Hd).
Qed.

(** C29: a table whose map is built is described completely: every live column has
    a source and its own number, a key, member, score or value role has at most
    one column and the map names it, a table without singleton_key has a key
    column, every field and ttl column names a field, and the slots the row
    builder reads HMGET and HPTTL replies at are the positions those fields are
    asked at. *)
Theorem built_map_is_complete `{TypeCatalog} parse_bool relid tupdesc options m :
  vfdw_map_build parse_bool relid tupdesc options = Ok m → map_wf tupdesc m.
Proof. apply map_build_wf. Qed.

(** A catalog in which every type is its own base type. *)
#[local] Instance sample_catalog : TypeCatalog := {|
  getBaseType t := t;
  get_element_type t := if bool_decide (t = 1009) then 25 else 0;
  getTypeInputInfo t := (t + 1000, t);
  getTypeOutputInfo t := (t + 2000, true);
  get_typlenbyvalalign t := (-1, false, "i"%char);
|}.

(** A hash table with a dropped column between its fields. *)
Definition sample_tupdesc : list Form_pg_attribute :=
  [Attribute "key" TEXTOID (-1) false [];
   Attribute "name" TEXTOID (-1) false [("field", "name")];
   Attribute "gone" TEXTOID (-1) true [];
   Attribute "name_ttl" INTERVALOID (-1) false [("field", "name"); ("ttl", "true")];
   Attribute "mail" TEXTOID (-1) false [("field", "mail")]].

Definition sample_hash_map : result VfdwTableMap :=
  vfdw_map_build sample_parse_bool 4711 sample_tupdesc [("tabletype", "hash"); ("keyprefix", "u:")].

Lemma built_map_is_complete_witness :
  ∃ m, sample_hash_map = Ok m ∧ map_wf sample_tupdesc m ∧ map_hmget m = true ∧ map_nreq m = 3%nat.
Proof.
  destruct sample_hash_map as [m|] eqn:E; [|vm_compute in E; discriminate E].
  exists m. split; [reflexivity|]. split.
  - exact (built_map_is_complete sample_parse_bool 4711 sample_tupdesc _ m E).
  - vm_compute in E. injection E as <-. split; reflexivity.
Defined.

(** A table with no meaning for its second spare column is refused. *)
Example two_spare_columns_refused :
  vfdw_map_build sample_parse_bool 1
    [Attribute "k" TEXTOID (-1) false []; Attribute "a" TEXTOID (-1) false [];
     Attribute "b" TEXTOID (-1) false []] [("tabletype", "set")]
  = Raise (PgError ERRCODE_INVALID_TABLE_DEFINITION
             ("2 column(s) have no source in Valkey: " +:+ quoted "a" +:+ ", " +:+ quoted "b")).
Proof. reflexivity. Qed.
