(* ===== verification/Score.v ===== *)
(** Zset scores (src/vfdw_score.c): the grammar of the rendered bytes, their
    classification and the refusal.

    strtod is modelled by the exact decimal value of what it reads, rounded to
    the nearest double: it overflows from 2^1024 - 2^970 on and a value that is
    not zero rounds to zero up to 2^-1075. *)
From S2P Require Import Prelude Option TableMap.
Local Open Scope Z_scope.

Inductive VfdwScoreVerdict :=
  | VFDW_SCORE_OK | VFDW_SCORE_EMPTY | VFDW_SCORE_NOT_A_NUMBER | VFDW_SCORE_TRAILING
  | VFDW_SCORE_OVERFLOW | VFDW_SCORE_UNDERFLOW | VFDW_SCORE_NOT_FINITE.

#[global] Instance VfdwScoreVerdict_eq_dec : EqDecision VfdwScoreVerdict.
Proof. solve_decision. Defined.

Definition is_sign (c : ascii) : bool := bool_decide (byte_val c = 43) || bool_decide (byte_val c = 45).
Definition is_dot (c : ascii) : bool := bool_decide (byte_val c = 46).
Definition is_exp (c : ascii) : bool := bool_decide (byte_val c = 101) || bool_decide (byte_val c = 69).

(** An optional byte of a class, and what follows it. *)
Definition opt_byte (p : ascii → bool) (s : bytes) : bytes * bytes :=
  match s with
  | String c r => if p c then (String c "", r) else ("", s)
  | EmptyString => ("", "")
  end.

(** The longest run of digits at the start, and what follows it. *)
Fixpoint digit_run (s : bytes) : bytes * bytes :=
  match s with
  | String c r => if is_digit c then let '(d, t) := digit_run r in (String c d, t) else ("", s)
  | EmptyString => ("", "")
  end.

(** The parts of a score: sign, digits, point, digits; then the exponent. *)
Record Decimal := MkDecimal { d_sign : bytes; d_int : bytes; d_dot : bytes; d_frac : bytes }.
Record Exponent := MkExponent { e_mark : bytes; e_sign : bytes; e_digits : bytes }.

Definition take_decimal (s : bytes) : Decimal * bytes :=
  let '(sg, r) := opt_byte is_sign s in
  let '(d1, r) := digit_run r in
  let '(dot, r) := opt_byte is_dot r in
  let '(d2, r) := if bool_decide (dot = "") then ("", r) else digit_run r in
  (MkDecimal sg d1 dot d2, r).

Definition take_exponent (s : bytes) : Exponent * bytes :=
  let '(m, r) := opt_byte is_exp s in
  if bool_decide (m = "") then (MkExponent "" "" "", r) else
  let '(sg, r) := opt_byte is_sign r in
  let '(d, r) := digit_run r in (MkExponent m sg d, r).

Definition vfdw_val_score_scan (s : bytes) : nat :=
  let '(m, r) := take_decimal s in
  if bool_decide (d_int m = "") && bool_decide (d_frac m = "") then 0%nat else
  let '(e, r') := take_exponent r in
  if bool_decide (e_digits e = "") then (String.length s - String.length r)%nat
  else (String.length s - String.length r')%nat.

Definition lower_ascii (c : ascii) : ascii :=
  let v := byte_val c in
  if bool_decide (65 ≤ v ≤ 90) then ascii_of_nat (Z.to_nat (v + 32)) else c.

Fixpoint map_bytes (f : ascii → ascii) (s : bytes) : bytes :=
  match s with EmptyString => EmptyString | String c r => String (f c) (map_bytes f r) end.

Definition vfdw_val_score_is_infinite (s : bytes) : bool :=
  let '(_, r) := opt_byte is_sign s in
  (bool_decide (String.length r = 3%nat) || bool_decide (String.length r = 8%nat))
  && starts_with (map_bytes lower_ascii r) "infinity".

(* ---------------------------------------------------------------- *)
(** ** strtod *)

(** The value is [m * 10 ^ k] with [m] signed. *)
Definition digits_value (d : bytes) : Z := (read_digits 0 d).1.

Definition signed (sg : bytes) (v : Z) : Z :=
  match sg with String c _ => if bool_decide (byte_val c = 45) then - v else v | _ => v end.

Definition decimal_value (m : Decimal) (e : Exponent) : Z * Z :=
  (signed (d_sign m) (digits_value (d_int m +:+ d_frac m)),
   signed (e_sign e) (digits_value (e_digits e)) - Z.of_nat (String.length (d_frac m))).

(** |m| * 10^k >= 2^1024 - 2^970, and 0 < |m| * 10^k <= 2^-1075. *)
Definition too_large (v : Z * Z) : bool :=
  let '(m, k) := v in
  bool_decide ((2 ^ 1024 - 2 ^ 970) * 10 ^ (Z.max 0 (- k)) ≤ Z.abs m * 10 ^ (Z.max 0 k)).
Definition too_small (v : Z * Z) : bool :=
  let '(m, k) := v in
  bool_decide (m ≠ 0) &&
  bool_decide (2 ^ 1075 * Z.abs m * 10 ^ (Z.max 0 k) ≤ 10 ^ (Z.max 0 (- k))).

Inductive StrtodResult := StrtodFinite | StrtodHuge | StrtodTiny.

(** strtod over bytes the grammar accepts: where it stops, and how it ends. *)
Definition strtod (s : bytes) : StrtodResult * bytes :=
  let '(m, r) := take_decimal s in
  let '(e, r') := take_exponent r in
  let '(e, rest) := if bool_decide (e_digits e = "") then (MkExponent "" "" "", r) else (e, r') in
  let v := decimal_value m e in
  (if too_large v then StrtodHuge else if too_small v then StrtodTiny else StrtodFinite, rest).

Definition vfdw_val_score_classify (s : bytes) : VfdwScoreVerdict :=
  if bool_decide (s = "") then VFDW_SCORE_EMPTY else
  let used := vfdw_val_score_scan s in
  if bool_decide (used = 0%nat) then
    if vfdw_val_score_is_infinite s then VFDW_SCORE_NOT_FINITE else VFDW_SCORE_NOT_A_NUMBER
  else if bool_decide (used < String.length s)%nat then VFDW_SCORE_TRAILING
  else
    let '(res, rest) := strtod s in
    if negb (bool_decide (rest = "")) then VFDW_SCORE_TRAILING
    else match res with
         | StrtodHuge => VFDW_SCORE_OVERFLOW
         | StrtodTiny => VFDW_SCORE_UNDERFLOW
         | StrtodFinite => VFDW_SCORE_OK
         end.

Definition vfdw_val_score_verdict_name (v : VfdwScoreVerdict) : bytes :=
  match v with
  | VFDW_SCORE_OK => "ok" | VFDW_SCORE_EMPTY => "empty"
  | VFDW_SCORE_NOT_A_NUMBER => "not_a_number" | VFDW_SCORE_TRAILING => "trailing"
  | VFDW_SCORE_OVERFLOW => "overflow" | VFDW_SCORE_UNDERFLOW => "underflow"
  | VFDW_SCORE_NOT_FINITE => "not_finite"
  end.

Definition vfdw_val_score_reason (v : VfdwScoreVerdict) : bytes :=
  match v with
  | VFDW_SCORE_OK => "which is a finite number"
  | VFDW_SCORE_EMPTY => "which is empty"
  | VFDW_SCORE_NOT_A_NUMBER => "which is not a number"
  | VFDW_SCORE_TRAILING => "which has characters after the number"
  | VFDW_SCORE_OVERFLOW => "which is out of range for a double"
  | VFDW_SCORE_UNDERFLOW => "which underflows to zero"
  | VFDW_SCORE_NOT_FINITE => "which is infinite"
  end.

Fixpoint all_bytes (p : ascii → bool) (s : bytes) : bool :=
  match s with EmptyString => true | String c r => p c && all_bytes p r end.

Definition vfdw_val_printable (s : bytes) : bool :=
  bool_decide (String.length s ≤ 64)%nat && all_bytes (λ c, bool_decide (32 ≤ byte_val c ≤ 126)) s.

(** The errdetail of the refusal; it echoes the bytes only when they are safe. *)
Definition score_detail (s relname colname : bytes) (v : VfdwScoreVerdict) : bytes :=
  "Column " +:+ quoted colname +:+ " of relation " +:+ quoted relname +:+ " produced "
  +:+ (if vfdw_val_printable s then "the text " +:+ quoted s +:+ ", " else "a " +:+ dec (blen s) +:+ "-byte value, ")
  +:+ vfdw_val_score_reason v.

Definition vfdw_val_check_score (s relname colname : bytes) : result unit :=
  match vfdw_val_score_classify s with
  | VFDW_SCORE_OK => Ok ()
  | _ => Raise (PgError ERRCODE_INVALID_PARAMETER_VALUE "zset score must be a finite number")
  end.

(* ---------------------------------------------------------------- *)
(** ** The grammar, stated on its own *)

Definition digits (d : bytes) : Prop := all_bytes is_digit d = true.
Definition optional (p : ascii → bool) (s : bytes) : Prop :=
  s = "" ∨ ∃ c, s = String c "" ∧ p c = true.

(** [+-]? ( DIGIT+ ( '.' DIGIT* )? | '.' DIGIT+ ) *)
Definition is_decimal (m : Decimal) : Prop :=
  optional is_sign (d_sign m) ∧ digits (d_int m) ∧ optional is_dot (d_dot m) ∧ digits (d_frac m) ∧
  (d_dot m = "" → d_frac m = "") ∧ (d_int m ≠ "" ∨ d_frac m ≠ "").

(** ( [eE] [+-]? DIGIT+ )? *)
Definition is_exponent (e : Exponent) : Prop :=
  (e = MkExponent "" "" "") ∨
  (optional is_exp (e_mark e) ∧ e_mark e ≠ "" ∧ optional is_sign (e_sign e) ∧
   digits (e_digits e) ∧ e_digits e ≠ "").

Definition show (m : Decimal) (e : Exponent) : bytes :=
  d_sign m +:+ d_int m +:+ d_dot m +:+ d_frac m +:+ e_mark e +:+ e_sign e +:+ e_digits e.

(** A score: text of the grammar whose value rounds to a finite double, and not
    to zero unless it is zero. *)
Definition finite_score (s : bytes) : Prop :=
  ∃ m e, s = show m e ∧ is_decimal m ∧ is_exponent e ∧
    too_large (decimal_value m e) = false ∧ too_small (decimal_value m e) = false.

(* ---------------------------------------------------------------- *)
(** ** The scanner reads the grammar *)

(** The next byte, if there is one, is not in the class. *)
Definition head_no (p : ascii → bool) (s : bytes) : Prop :=
  match s with String c _ => p c = false | EmptyString => True end.

Definition disjoint (p q : ascii → bool) : Prop := ∀ c, p c = true → q c = false.

Ltac byte_classes :=
  intros c; unfold is_sign, is_dot, is_exp, is_digit;
  rewrite ?orb_true_iff, ?orb_false_iff, ?bool_decide_eq_true, ?bool_decide_eq_false; lia.

Lemma digit_sign : disjoint is_digit is_sign. Proof. byte_classes. Qed.
Lemma dot_sign : disjoint is_dot is_sign. Proof. byte_classes. Qed.
Lemma dot_digit : disjoint is_dot is_digit. Proof. byte_classes. Qed.
Lemma exp_digit : disjoint is_exp is_digit. Proof. byte_classes. Qed.
Lemma exp_dot : disjoint is_exp is_dot. Proof. byte_classes. Qed.
Lemma exp_sign : disjoint is_exp is_sign. Proof. byte_classes. Qed.

Lemma opt_byte_split p s a b :
  opt_byte p s = (a, b) → s = a +:+ b ∧ optional p a ∧ (a = "" → head_no p b).
Proof.
  destruct s as [|c r]; simpl; [intros [= <- <-]; split_and!; [done|by left|done]|].
  destruct (p c) eqn:E; intros [= <- <-]; (split_and!; [done| |]); [right; eauto|done|by left|done].
Qed.

Lemma opt_byte_app p a t : optional p a → (a = "" → head_no p t) → opt_byte p (a +:+ t) = (a, t).
Proof.
  intros [->|(c & -> & Hc)] Ht.
  - rewrite append_empty. specialize (Ht eq_refl). destruct t as [|x t]; simpl in *; [done|by rewrite Ht].
  - simpl_app. simpl. by rewrite Hc.
Qed.

Lemma digit_run_split s d t : digit_run s = (d, t) → s = d +:+ t ∧ digits d ∧ head_no is_digit t.
Proof.
  unfold digits. revert d t; induction s as [|c s IH]; intros d t; simpl; [by intros [= <- <-]|].
  destruct (is_digit c) eqn:E; [|by intros [= <- <-]].
  destruct (digit_run s) as [d' t'] eqn:Er. intros [= <- <-].
  destruct (IH _ _ eq_refl) as (-> & Hd & Ht). simpl_app. simpl. by rewrite E, Hd.
Qed.

Lemma digit_run_app d t : digits d → head_no is_digit t → digit_run (d +:+ t) = (d, t).
Proof.
  unfold digits. induction d as [|c d IH]; simpl; intros Hd Ht.
  - rewrite append_empty. destruct t as [|x t]; simpl in *; [done|by rewrite Ht].
  - apply andb_true_iff in Hd as [Hc Hd]. simpl_app. simpl. by rewrite Hc, (IH Hd Ht).
Qed.

Lemma head_no_optional p q a t : disjoint q p → optional q a → (a = "" → head_no p t) → head_no p (a +:+ t).
Proof. intros Hd [->|(c & -> & Hc)] Ht; [by apply Ht|]. simpl_app. by apply Hd. Qed.

Lemma head_no_digits p d t : disjoint is_digit p → digits d → (d = "" → head_no p t) → head_no p (d +:+ t).
Proof.
  intros Hd Hg Ht. destruct d as [|c d]; [by apply Ht|]. simpl_app. apply Hd.
  by apply andb_true_iff in Hg as [? _].
Qed.

(** What a complete exponent, or none, starts with. *)
Lemma exponent_head p e :
  disjoint is_exp p → is_exponent e → head_no p (e_mark e +:+ e_sign e +:+ e_digits e).
Proof.
  intros Hd [->|(Hm & Hne & _)]; [done|]. by eapply head_no_optional.
Qed.

Lemma take_decimal_show m t :
  is_decimal m → head_no is_digit t → head_no is_dot t →
  take_decimal (d_sign m +:+ d_int m +:+ d_dot m +:+ d_frac m +:+ t) = (m, t).
Proof.
  destruct m as [sg d1 dot d2]. intros (H1 & H2 & H3 & H4 & H5 & H6) Hg Ht. simpl in *.
  unfold take_decimal. rewrite opt_byte_app; [|done|].
  2:{ intros _. eapply head_no_digits; [apply digit_sign|done|]. intros ->.
      eapply head_no_optional; [apply dot_sign|done|]. intros ->.
      destruct H6 as [|[]]; [done|by apply H5]. }
  rewrite digit_run_app; [|done|].
  2:{ eapply head_no_optional; [apply dot_digit|done|]. intros ->. rewrite H5 by done. done. }
  rewrite opt_byte_app; [|done|].
  2:{ intros ->. rewrite H5 by done. done. }
  case_bool_decide as Ed; [by rewrite H5, Ed by done|]. by rewrite digit_run_app.
Qed.

Lemma take_exponent_show e :
  is_exponent e → take_exponent (e_mark e +:+ e_sign e +:+ e_digits e) = (e, "").
Proof.
  intros [->|(Hm & Hne & Hs & Hd & Hdne)]; [done|]. unfold take_exponent.
  rewrite opt_byte_app by done. rewrite bool_decide_false by done.
  rewrite opt_byte_app; [|done|].
  2:{ intros _. rewrite <- (append_nil_r (e_digits e)). by eapply head_no_digits; [apply digit_sign|..]. }
  rewrite <- (append_nil_r (e_digits e)) at 1. rewrite digit_run_app by done. by destruct e.
Qed.

Lemma take_decimal_split s m r :
  take_decimal s = (m, r) →
  s = d_sign m +:+ d_int m +:+ d_dot m +:+ d_frac m +:+ r ∧
  (d_int m ≠ "" ∨ d_frac m ≠ "" → is_decimal m).
Proof.
  unfold take_decimal. destruct (opt_byte is_sign s) as [sg r1] eqn:E1.
  destruct (digit_run r1) as [d1 r2] eqn:E2. destruct (opt_byte is_dot r2) as [dot r3] eqn:E3.
  apply opt_byte_split in E1 as (-> & S1 & _). apply digit_run_split in E2 as (-> & S2 & _).
  apply opt_byte_split in E3 as (-> & S3 & _). case_bool_decide as Ed.
  - intros [= <- <-]. subst dot. split; [done|]. intros Hne. by split_and!.
  - destruct (digit_run r3) as [d2 r4] eqn:E4. apply digit_run_split in E4 as (-> & S4 & _).
    intros [= <- <-]. split; [done|]. intros Hne. split_and!; done.
Qed.

Lemma take_exponent_split s e r :
  take_exponent s = (e, r) → e_digits e ≠ "" →
  s = e_mark e +:+ e_sign e +:+ e_digits e +:+ r ∧ is_exponent e.
Proof.
  unfold take_exponent. destruct (opt_byte is_exp s) as [m r1] eqn:E1. case_bool_decide as Em.
  { by intros [= <- <-]. }
  destruct (opt_byte is_sign r1) as [sg r2] eqn:E2. destruct (digit_run r2) as [d r3] eqn:E3.
  apply opt_byte_split in E1 as (-> & S1 & _). apply opt_byte_split in E2 as (-> & S2 & _).
  apply digit_run_split in E3 as (-> & S3 & _). intros [= <- <-] Hd. split; [done|]. right. by split_and!.
Qed.

Lemma length_zero (s : bytes) : String.length s = 0%nat → s = "".
Proof. by destruct s. Qed.

(** What strtod reads of a complete score. *)
Lemma strtod_show m e :
  is_decimal m → is_exponent e →
  vfdw_val_score_scan (show m e) = String.length (show m e) ∧ show m e ≠ "" ∧
  strtod (show m e) =
    (if too_large (decimal_value m e) then StrtodHuge
     else if too_small (decimal_value m e) then StrtodTiny else StrtodFinite, "").
Proof.
  intros Hm He.
  assert (Hd : take_decimal (show m e) = (m, e_mark e +:+ e_sign e +:+ e_digits e)).
  { apply take_decimal_show; [done|..]; apply exponent_head; [apply exp_digit|done|apply exp_dot|done]. }
  assert (Hne : bool_decide (d_int m = "") && bool_decide (d_frac m = "") = false).
  { destruct Hm as (_ & _ & _ & _ & _ & Hor). apply andb_false_iff.
    destruct Hor; [left|right]; by apply bool_decide_eq_false. }
  split_and!.
  - unfold vfdw_val_score_scan. rewrite Hd, Hne, (take_exponent_show e He).
    clear Hne. case_bool_decide as Ez; [|apply Nat.sub_0_r].
    destruct He as [->|(_ & _ & _ & _ & He)]; [simpl; lia|done].
  - intros E. rewrite E in Hd. injection Hd as <- _. destruct Hm as (_ & _ & _ & _ & _ & [|]); done.
  - unfold strtod. rewrite Hd, (take_exponent_show e He). clear Hne. case_bool_decide as Ez; [|done].
    destruct He as [->|(_ & _ & _ & _ & He)]; [done|done].
Qed.

Lemma scan_complete s :
  s ≠ "" → vfdw_val_score_scan s ≠ 0%nat → (String.length s ≤ vfdw_val_score_scan s)%nat →
  ∃ m e, s = show m e ∧ is_decimal m ∧ is_exponent e.
Proof.
  intros Hs. assert (Hl : String.length s ≠ 0%nat) by (intros ?%length_zero; done).
  unfold vfdw_val_score_scan. destruct (take_decimal s) as [m r] eqn:Em.
  apply take_decimal_split in Em as [E1 Hm].
  destruct (bool_decide (d_int m = "") && bool_decide (d_frac m = "")) eqn:Eb; [done|].
  assert (Hd : is_decimal m).
  { apply Hm. apply andb_false_iff in Eb as [Eb|Eb]; apply bool_decide_eq_false in Eb; eauto. }
  destruct (take_exponent r) as [e r'] eqn:Ee. clear Eb. case_bool_decide as Ed; intros _ Hle.
  - exists m, (MkExponent "" "" ""). split_and!; [|done|by left].
    assert (r = "") by (apply length_zero; lia). subst r. exact E1.
  - apply take_exponent_split in Ee as [E2 He]; [|done].
    assert (r' = "") by (apply length_zero; lia). subst r'.
    exists m, e. split_and!; [|done|done]. rewrite append_nil_r in E2. rewrite E1. unfold show.
    by rewrite E2.
Qed.

(** A score is accepted exactly when its bytes are a decimal number of the
    documented grammar, nothing before or after it, whose value rounds to a
    finite double and does not vanish; every other byte string, NUL bytes,
    spellings of infinity and NaN included, is refused with 22023. *)
Theorem score_accepted_iff s relname colname :
  (vfdw_val_score_classify s = VFDW_SCORE_OK ↔ finite_score s) ∧
  (vfdw_val_check_score s relname colname = Ok () ↔ finite_score s).
Proof.
  assert (Hc : vfdw_val_score_classify s = VFDW_SCORE_OK ↔ finite_score s).
  { unfold vfdw_val_score_classify. split.
    - case_bool_decide as Hs; [done|]. case_bool_decide as Hu.
      { by destruct (vfdw_val_score_is_infinite s). }
      case_bool_decide as Hl; [done|].
      destruct (scan_complete s Hs Hu ltac:(lia)) as (m & e & -> & Hm & He).
      destruct (strtod_show m e Hm He) as (_ & _ & ->).
      rewrite (bool_decide_true ("" = "")) by done.
      destruct (too_large (decimal_value m e)) eqn:E1; [done|].
      destruct (too_small (decimal_value m e)) eqn:E2; [done|].
      intros _. by exists m, e.
    - intros (m & e & -> & Hm & He & E1 & E2).
      destruct (strtod_show m e Hm He) as (H1 & H2 & ->). rewrite H1, E1, E2.
      rewrite (bool_decide_false (show m e = "")) by done.
      rewrite bool_decide_false by (intros ?%length_zero; done).
      by rewrite bool_decide_false by lia. }
  split; [done|]. rewrite <- Hc. unfold vfdw_val_check_score.
  by destruct (vfdw_val_score_classify s).
Qed.

(** The verdicts of the boundary values. *)
Example score_boundaries :
  vfdw_val_score_classify <$> ["1.7976931348623157e308"; "1.7976931348623159e308"; "1e-320"; "1e-400"; "1."; ".";
     "1e"; "-inf"; "nan"; "0e-999"]
  = [VFDW_SCORE_OK; VFDW_SCORE_OVERFLOW; VFDW_SCORE_OK; VFDW_SCORE_UNDERFLOW; VFDW_SCORE_OK;
     VFDW_SCORE_NOT_A_NUMBER; VFDW_SCORE_TRAILING; VFDW_SCORE_NOT_FINITE; VFDW_SCORE_NOT_A_NUMBER;
     VFDW_SCORE_OK].
Proof. vm_compute. reflexivity. Qed.
