(* ===== verification/Vec.v ===== *)
(** Vectors (src/vfdw_vec.c): raw little-endian FLOAT32 to the text form a
    vector type reads, and back.

    A float is its 32-bit pattern, since the code only copies and prints it.
    PostgreSQL's float4out and float4in are the class [Float4IO]. *)
From S2P Require Import Prelude Option.
From Stdlib Require Import DecimalString.
Local Open Scope Z_scope.

Definition VFDW_VEC_ELEM_BYTES : nat := 4.

Definition byte_of (z : Z) : ascii := ascii_of_N (Z.to_N z).

Definition vfdw_vec_get_le (p0 p1 p2 p3 : ascii) : Z :=
  Z.lor (Z.lor (Z.lor (byte_val p0) (Z.shiftl (byte_val p1) 8)) (Z.shiftl (byte_val p2) 16))
    (Z.shiftl (byte_val p3) 24).

Definition vfdw_vec_put_le (f : Z) : bytes :=
  String (byte_of (Z.land f 255))
    (String (byte_of (Z.land (Z.shiftr f 8) 255))
       (String (byte_of (Z.land (Z.shiftr f 16) 255))
          (String (byte_of (Z.land (Z.shiftr f 24) 255)) ""))).

(** A quiet or signalling NaN: all exponent bits and a fraction. *)
Definition is_nan32 (f : Z) : bool :=
  bool_decide (Z.land f 0x7f800000 = 0x7f800000) && negb (bool_decide (Z.land f 0x7fffff = 0)).

Class Float4IO := {
  float4out : Z → bytes;
  float4in : bytes → result Z;
}.

Definition NUL : ascii := Ascii.ascii_of_nat 0.

(** What PostgreSQL documents of the two: the shortest text that reads back as
    the same float, without white space, commas or brackets. *)
Class Float4Laws `{Float4IO} := {
  float4out_plain f c : occurs c (float4out f) = true →
    isspace c = false ∧ c ≠ ","%char ∧ c ≠ "]"%char ∧ c ≠ NUL;
  float4out_nonempty f : float4out f ≠ "";
  float4_roundtrip f : 0 ≤ f < 2 ^ 32 → is_nan32 f = false → float4in (float4out f) = Ok f;
}.

Section vec.
Context `{Float4IO}.

(** The elements of a buffer whose length is a multiple of four. *)
Fixpoint vec_elems (s : bytes) : list Z :=
  match s with
  | String p0 (String p1 (String p2 (String p3 r))) => vfdw_vec_get_le p0 p1 p2 p3 :: vec_elems r
  | _ => []
  end.

Fixpoint join_elems (first : bool) (l : list Z) : bytes :=
  match l with
  | [] => ""
  | f :: r => (if first then "" else ",") +:+ float4out f +:+ join_elems false r
  end.

Definition vfdw_vec_to_text (s : bytes) (what : bytes) : result bytes :=
  if bool_decide (String.length s = 0%nat)
  then Raise (PgError ERRCODE_DATA_EXCEPTION (what +:+ " holds no bytes, so it is not a vector"))
  else if negb (bool_decide (String.length s `mod` VFDW_VEC_ELEM_BYTES = 0)%nat)
  then Raise (PgError ERRCODE_DATA_EXCEPTION
         (what +:+ " is " +:+ dec (blen s) +:+ " bytes, which is not a whole number of float32 elements"))
  else Ok ("[" +:+ join_elems true (vec_elems s) +:+ "]").

Definition vfdw_vec_bad_form {A} (what : bytes) : result A :=
  Raise (PgError ERRCODE_DATA_EXCEPTION (what +:+ " is not in vector form")).

(** Up to the next comma, bracket or end of the string. *)
Fixpoint elem_span (p : bytes) : bytes * bytes :=
  match p with
  | EmptyString => ("", "")
  | String c r =>
      if bool_decide (c = ","%char) || bool_decide (c = "]"%char) then ("", p)
      else let '(a, b) := elem_span r in (String c a, b)
  end.

Definition vfdw_vec_take_elem (p what : bytes) : result (Z * bytes) :=
  let '(elem, rest) := elem_span p in
  if bool_decide (rest = "") then vfdw_vec_bad_form what
  else f ← float4in elem; Ok (f, rest).

(** for (;;); every pass eats at least the delimiter of the one before. *)
Fixpoint from_text_loop (fuel : nat) (p what buf : bytes) : result bytes :=
  match fuel with
  | O => Raise (elog_error "unreachable")
  | S n =>
      let p := skip_space p in
      if starts_with "]" p && bool_decide (buf = "")
      then Raise (PgError ERRCODE_DATA_EXCEPTION (what +:+ " is an empty vector"))
      else
        '(f, p) ← vfdw_vec_take_elem p what;
        let buf := buf +:+ vfdw_vec_put_le f in
        if starts_with "]" p then
          if bool_decide (skip_space (drop_bytes 1 p) = "") then Ok buf
          else vfdw_vec_bad_form what
        else from_text_loop n (drop_bytes 1 p) what buf
  end.

Definition vfdw_vec_from_text (text what : bytes) : result bytes :=
  let p := skip_space (until_nul text) in
  if negb (starts_with "[" p) then vfdw_vec_bad_form what
  else from_text_loop (S (String.length text)) (drop_bytes 1 p) what "".
End vec.

(* ---------------------------------------------------------------- *)
(** ** Bytes of a float *)

Lemma byte_val_range c : 0 ≤ byte_val c < 256.
Proof. unfold byte_val. pose proof (N_ascii_bounded c). lia. Qed.

Lemma byte_of_val c : byte_of (byte_val c) = c.
Proof. unfold byte_of, byte_val. rewrite N2Z.id. apply ascii_N_embedding. Qed.

Lemma lor_shiftl x y k : 0 ≤ k → 0 ≤ x < 2 ^ k → Z.lor x (Z.shiftl y k) = x + y * 2 ^ k.
Proof.
  intros Hk Hx. rewrite <- Z.shiftl_mul_pow2 by done.
  rewrite <- Z.add_lor_land. replace (Z.land x (Z.shiftl y k)) with 0; [lia|]. symmetry.
  apply Z.bits_inj'. intros n Hn. rewrite Z.bits_0, Z.land_spec.
  destruct (decide (n < k)) as [Hlt|Hge].
  - rewrite Z.shiftl_spec_low by done. apply andb_false_r.
  - assert (Hb : Z.testbit x n = false); [|by rewrite Hb].
    destruct (decide (x = 0)) as [->|Hnz]; [apply Z.bits_0|].
    apply Z.bits_above_log2; [lia|]. apply Z.log2_lt_pow2; [lia|].
    apply Z.lt_le_trans with (2 ^ k); [lia|]. apply Z.pow_le_mono_r; lia.
Qed.

Lemma get_le_sum a b c d :
  vfdw_vec_get_le a b c d = byte_val a + byte_val b * 256 + byte_val c * 65536 + byte_val d * 16777216.
Proof.
  unfold vfdw_vec_get_le.
  pose proof (byte_val_range a). pose proof (byte_val_range b). pose proof (byte_val_range c).
  rewrite (lor_shiftl (byte_val a)) by lia.
  rewrite (lor_shiftl (byte_val a + byte_val b * 2 ^ 8)) by lia.
  rewrite lor_shiftl by lia. lia.
Qed.

Lemma get_le_range a b c d : 0 ≤ vfdw_vec_get_le a b c d < 2 ^ 32.
Proof.
  rewrite get_le_sum. pose proof (byte_val_range a). pose proof (byte_val_range b).
  pose proof (byte_val_range c). pose proof (byte_val_range d). lia.
Qed.

(** The k-th byte of a little-endian sum. *)
Lemma byte_extract f k : 0 ≤ k → Z.land (Z.shiftr f k) 255 = (f / 2 ^ k) `mod` 256.
Proof.
  intros Hk. rewrite Z.shiftr_div_pow2 by done. change 255 with (Z.ones 8).
  by rewrite Z.land_ones.
Qed.

Lemma put_get_le a b c d :
  vfdw_vec_put_le (vfdw_vec_get_le a b c d) = String a (String b (String c (String d ""))).
Proof.
  pose proof (byte_val_range a) as Ha. pose proof (byte_val_range b) as Hb.
  pose proof (byte_val_range c) as Hc. pose proof (byte_val_range d) as Hd.
  unfold vfdw_vec_put_le. set (f := vfdw_vec_get_le a b c d).
  rewrite <- (Z.shiftr_0_r f) at 1. rewrite !byte_extract by lia.
  assert (Hf : f = byte_val a + byte_val b * 256 + byte_val c * 65536 + byte_val d * 16777216)
    by apply get_le_sum. clearbody f.
  assert (E0 : (f / 2 ^ 0) `mod` 256 = byte_val a) by (Z.to_euclidean_division_equations; lia).
  assert (E1 : (f / 2 ^ 8) `mod` 256 = byte_val b) by (Z.to_euclidean_division_equations; lia).
  assert (E2 : (f / 2 ^ 16) `mod` 256 = byte_val c) by (Z.to_euclidean_division_equations; lia).
  assert (E3 : (f / 2 ^ 24) `mod` 256 = byte_val d) by (Z.to_euclidean_division_equations; lia).
  by rewrite E0, E1, E2, E3, !byte_of_val.
Qed.

(** The bytes of a list of floats. *)
Definition vec_bytes (l : list Z) : bytes := foldr (λ f acc, vfdw_vec_put_le f +:+ acc) "" l.

Lemma vec_elems_bytes n s :
  String.length s = (4 * n)%nat →
  vec_bytes (vec_elems s) = s ∧ length (vec_elems s) = n ∧ Forall (λ f, 0 ≤ f < 2 ^ 32) (vec_elems s).
Proof.
  revert s; induction n as [|n IH]; intros s Hs.
  { destruct s; [done|simpl in Hs; lia]. }
  destruct s as [|a [|b [|c [|d r]]]]; simpl in Hs; try lia.
  destruct (IH r ltac:(lia)) as (I1 & I2 & I3). cbn [vec_elems vec_bytes foldr].
  fold (vec_bytes (vec_elems r)). rewrite put_get_le, I1. split_and!; [done|simpl; lia|].
  constructor; [apply get_le_range|done].
Qed.

(* ---------------------------------------------------------------- *)
(** ** Text *)

Lemma until_nul_id (s : bytes) : occurs NUL s = false → until_nul s = s.
Proof.
  induction s as [|c s IH]; [done|]. rewrite occurs_head, orb_false_iff, bool_decide_eq_false.
  intros [Hc Hs]. simpl. rewrite decide_False; [by rewrite IH|]. intros E. apply Hc.
  rewrite <- (byte_of_val c), E. reflexivity.
Qed.

Section roundtrip.
Context `{Float4Laws}.

Lemma elem_span_out f t :
  t ≠ "" → (∃ r, t = "," +:+ r) ∨ (∃ r, t = "]" +:+ r) → elem_span (float4out f +:+ t) = (float4out f, t).
Proof.
  intros Ht Hd. pose proof (float4out_plain f) as Hp.
  induction (float4out f) as [|c o IH].
  - rewrite append_empty. destruct Hd as [[r ->]|[r ->]]; done.
  - simpl_app. cbn [elem_span]. destruct (Hp c) as (_ & Hc & Hb & _).
    { by rewrite occurs_head, bool_decide_true. }
    rewrite (bool_decide_false (c = ","%char)), (bool_decide_false (c = "]"%char)) by done. simpl.
    rewrite IH; [done|]. intros x Hx. apply Hp. rewrite occurs_head, Hx. apply orb_true_r.
Qed.

(** An element starts with a byte of a number. *)
Lemma out_head f t :
  skip_space (float4out f +:+ t) = float4out f +:+ t ∧ starts_with "]" (float4out f +:+ t) = false.
Proof.
  pose proof (float4out_plain f) as Hp. pose proof (float4out_nonempty f) as Hn.
  destruct (float4out f) as [|c o]; [done|].
  destruct (Hp c) as (Hs & _ & Hb & _); [by rewrite occurs_head, bool_decide_true|].
  simpl_app. simpl. rewrite Hs. split; [done|]. by rewrite bool_decide_false.
Qed.

Lemma from_text_loop_join n l what buf :
  l ≠ [] → Forall (λ f, 0 ≤ f < 2 ^ 32) l → Forall (λ f, is_nan32 f = false) l → (length l ≤ n)%nat →
  from_text_loop n (join_elems true l +:+ "]") what buf = Ok (buf +:+ vec_bytes l).
Proof.
  revert l buf. induction n as [|n IH]; intros [|f l] buf Hne Hr Hnan Hn; try done; [simpl in Hn; lia|].
  pose proof (Forall_inv Hr) as Hr1. pose proof (Forall_inv Hnan) as Hn1.
  apply Forall_inv_tail in Hr, Hnan. cbn [from_text_loop join_elems].
  rewrite append_empty, append_assoc. destruct (out_head f (join_elems false l +:+ "]")) as [-> ->].
  cbn [andb]. unfold vfdw_vec_take_elem. rewrite elem_span_out.
  2:{ by destruct l as [|g l]; simpl; simpl_app. }
  2:{ destruct l as [|g l]; [right; by exists ""|left]. simpl. rewrite append_assoc. eauto. }
  rewrite bool_decide_false by by destruct l as [|g l]; simpl; simpl_app.
  rewrite float4_roundtrip by done. cbn [mbind result_bind]. destruct l as [|g l].
  - cbn [join_elems]. rewrite append_empty. simpl. rewrite append_nil_r. done.
  - assert (E : join_elems false (g :: l) +:+ "]" = String "," (join_elems true (g :: l) +:+ "]")).
    { cbn [join_elems]. rewrite append_empty, !append_assoc. done. }
    rewrite E. cbn [starts_with drop_bytes]. rewrite bool_decide_false by done. cbn [andb].
    rewrite IH; [|done..|simpl in *; lia]. by rewrite append_assoc.
Qed.

Lemma join_no_nul first l : occurs NUL (join_elems first l) = false.
Proof.
  revert first; induction l as [|f l IH]; intros first; [done|]. simpl. rewrite !occurs_app, IH.
  assert (Ho : occurs NUL (float4out f) = false).
  { destruct (occurs NUL (float4out f)) eqn:E; [|done]. by destruct (float4out_plain f _ E) as (_ & _ & _ & []). }
  rewrite Ho. by destruct first.
Qed.

(** The loop never runs out of fuel: more of it changes nothing. *)
Lemma from_text_fuel n m p what buf :
  (String.length p < n)%nat → (n ≤ m)%nat → from_text_loop n p what buf = from_text_loop m p what buf.
Proof.
  revert m p buf. induction n as [|n IH]; intros [|m] p buf Hp Hm; try lia. cbn [from_text_loop].
  destruct (_ && _); [done|]. unfold vfdw_vec_take_elem.
  assert (Hl : ∀ q, (String.length (skip_space q) ≤ String.length q)%nat).
  { induction q as [|c q IHq]; simpl; [lia|]. destruct (isspace c); simpl; lia. }
  assert (He : ∀ q, (String.length (elem_span q).2 ≤ String.length q)%nat).
  { induction q as [|c q IHq]; simpl; [lia|]. destruct (_ || _); simpl; [lia|].
    destruct (elem_span q); simpl in *; lia. }
  specialize (Hl p). specialize (He (skip_space p)).
  destruct (elem_span (skip_space p)) as [e r]. simpl in He.
  destruct (bool_decide (r = "")) eqn:Er; [done|]. apply bool_decide_eq_false in Er.
  destruct (float4in e) as [f|]; cbn [mbind result_bind]; [|done].
  destruct (starts_with "]" r); [done|].
  destruct r as [|c r]; [done|]. simpl in *. apply IH; lia.
Qed.
End roundtrip.

(** A vector field survives the trip through the text form a vector type
    reads: the bytes of a vector without NaNs, turned into a literal and parsed
    back, are the same bytes, whatever their number. *)
Theorem vector_text_roundtrip `{Float4Laws} s what text :
  vfdw_vec_to_text s what = Ok text → Forall (λ f, is_nan32 f = false) (vec_elems s) →
  vfdw_vec_from_text text what = Ok s.
Proof.
  unfold vfdw_vec_to_text. case_bool_decide as Hz; [done|].
  case_bool_decide as H4; [|done]. simpl negb. cbv iota. intros [= <-] Hnan.
  apply Nat.Div0.mod_divides in H4 as [n Hn]. destruct (vec_elems_bytes n s Hn) as (E1 & E2 & E3).
  unfold vfdw_vec_from_text. set (j := join_elems true (vec_elems s) +:+ "]").
  assert (Hj : occurs NUL ("[" +:+ j) = false).
  { unfold j. rewrite !occurs_app, join_no_nul. done. }
  rewrite until_nul_id by done. simpl_app. cbn [skip_space starts_with drop_bytes String.length].
  change (isspace "[") with false. cbv iota. cbn [starts_with]. rewrite bool_decide_true by done.
  cbn [negb andb drop_bytes].
  unfold VFDW_VEC_ELEM_BYTES in Hn.
  rewrite <- (from_text_fuel (S (String.length j))) by lia.
  rewrite (from_text_fuel _ (S (String.length j + n))) by lia.
  unfold j. rewrite from_text_loop_join; [by rewrite append_empty, E1| |done..|lia].
  intros E. rewrite E in E2. simpl in E2. lia.
Qed.

(** Floats printed as their bit pattern. *)
#[local] Instance sample_float4 : Float4IO := {|
  float4out f := dec f;
  float4in t := match undec t with Some f => Ok f | None => Raise (elog_error "float4in") end;
|}.

Lemma uint_digits c u : occurs c (NilEmpty.string_of_uint u) = true → is_digit c = true.
Proof.
  induction u; simpl; [done|..]; rewrite occurs_head, orb_true_iff, bool_decide_eq_true;
    (intros [<-|?]; [reflexivity|auto]).
Qed.

Lemma dec_chars c z : occurs c (dec z) = true → is_digit c = true ∨ c = "-"%char.
Proof.
  unfold dec, NilZero.string_of_int, NilZero.string_of_uint.
  assert (Hz : occurs c "0" = true → is_digit c = true).
  { rewrite occurs_head, orb_true_iff, bool_decide_eq_true. by intros [<-|]. }
  destruct (Z.to_int z) as [u|u]; [destruct u; eauto using uint_digits|].
  rewrite occurs_head, orb_true_iff, bool_decide_eq_true. intros [<-|Ho]; [by right|left].
  destruct u; eauto using uint_digits.
Qed.

Lemma dec_nonempty z : dec z ≠ "".
Proof. intros E. pose proof (undec_dec z) as Hu. rewrite E in Hu. discriminate Hu. Qed.

#[local] Instance sample_float4_laws : Float4Laws.
Proof.
  split.
  - intros f c Ho. destruct (dec_chars c f Ho) as [Hd| ->]; [|done].
    unfold is_digit in Hd. apply bool_decide_eq_true in Hd. split_and!.
    + unfold isspace. rewrite !bool_decide_false by lia. done.
    + intros ->. destruct Hd as [A _]. by apply A.
    + intros ->. destruct Hd as [_ B]. by apply B.
    + intros ->. destruct Hd as [A _]. by apply A.
  - intros f. apply dec_nonempty.
  - intros f _ _. simpl. by rewrite undec_dec.
Defined.

(** 1.0 and -2.0. *)
Definition sample_vector : bytes := vfdw_vec_put_le 0x3f800000 +:+ vfdw_vec_put_le 0xc0000000.

Lemma vector_text_roundtrip_witness :
  vfdw_vec_to_text sample_vector "emb" = Ok "[1065353216,3221225472]" ∧
  vfdw_vec_from_text "[1065353216,3221225472]" "emb" = Ok sample_vector.
Proof.
  split; [reflexivity|].
  apply (vector_text_roundtrip sample_vector "emb"); [reflexivity|].
  repeat constructor.
Defined.
