(* ===== verification/Ttl.v ===== *)
(** Lifetimes of hash fields (src/vfdw_ttl.c) and the interval a ttl column is
    written from (vfdw_val_ttl_column, src/vfdw_val.c). *)
From S2P Require Import Prelude Opcode Error Cmd CmdFacts Connection TableMap TableMapFacts.
Local Open Scope Z_scope.

Definition VFDW_TTL_NO_EXPIRY : Z := -1.
Definition VFDW_TTL_ABSENT : Z := -2.

Definition is_aggregate (r : Reply) : bool :=
  bool_decide (r_type r = VALKEY_REPLY_ARRAY) || bool_decide (r_type r = VALKEY_REPLY_MAP).

(** The elements of an aggregate; none when element is NULL. *)
Definition elements (r : Reply) : list (option Reply) := default [] (r_element r).

(** COMMAND INFO answers for one verb: the entry of a command the server has. *)
Definition info_entry (e : option Reply) : bool :=
  match e with
  | None => false
  | Some r => is_aggregate r && negb (bool_decide (elements r = []))
  end.

Section conn.
Context {P : Type} (serve : list bytes → P → Reply * P).

Definition set_field_ttl (cap : VfdwCap) (c : VfdwConn (P := P)) : VfdwConn :=
  MkVfdwConn (vc_open c) (vc_wire c) (vc_node_host c) (vc_node_port c) (vc_opts c) (vc_resp3 c)
    (vc_database c) (vc_invalidated c) (vc_leased c) (vc_lease_subid c) (vc_write_refused c)
    (vc_write_refusal c) cap (vc_server_hashvalue c) (vc_mapping_hashvalue c).

Definition vfdw_ttl_probe : M (VfdwConn (P := P)) unit :=
  reply ← round_trip serve ["COMMAND"; "INFO"; "HPTTL"; "HPEXPIRE"; "HPERSIST"];
  let present :=
    match reply with
    | Some r =>
        negb (vfdw_reply_is_error reply) && is_aggregate r &&
        bool_decide (3 ≤ length (elements r))%nat && forallb info_entry (take 3 (elements r))
    | None => false
    end in
  modify (set_field_ttl (if present then VFDW_CAP_PRESENT else VFDW_CAP_ABSENT)).

Definition vfdw_ttl_require : M (VfdwConn (P := P)) unit :=
  c ← get;
  (match vc_field_ttl c with VFDW_CAP_UNKNOWN => vfdw_ttl_probe | _ => mret () end);;;
  (c ← get;
   match vc_field_ttl c with
   | VFDW_CAP_ABSENT =>
       raise (PgError ERRCODE_FEATURE_NOT_SUPPORTED "this Valkey server has no per-field expiry")
   | _ => mret ()
   end).
End conn.

(** The fields of the ttl columns, appended in the order of the columns. *)
Fixpoint add_ttl_fields (cols : list VfdwColumn) (cmd : VfdwCmd) : VfdwCmd :=
  match cols with
  | [] => cmd
  | col :: rest =>
      add_ttl_fields rest
        (if bool_decide (col_kind col = VFDW_COL_TTL)
         then vfdw_cmd_add_bytes cmd (default "" (col_field col)) else cmd)
  end.

Definition vfdw_ttl_command (cmd : VfdwCmd) (map : VfdwTableMap) (key : bytes) : VfdwCmd :=
  let cmd := vfdw_cmd_reset cmd in
  let cmd := vfdw_cmd_add_cstr cmd "HPTTL" in
  let cmd := vfdw_cmd_add_bytes cmd key in
  let cmd := vfdw_cmd_add_cstr cmd "FIELDS" in
  let cmd := vfdw_cmd_add_int cmd (Z.of_nat (map_nttl map)) in
  add_ttl_fields (map_cols map) cmd.

(** The integer of an element, or what was there before. *)
Definition ttl_of (e : option Reply) : Z :=
  match e with
  | Some r => if bool_decide (r_type r = VALKEY_REPLY_INTEGER) then r_integer r else VFDW_TTL_ABSENT
  | None => VFDW_TTL_ABSENT
  end.

(** The array out[0..nttl) afterwards. *)
Definition vfdw_ttl_take (map : VfdwTableMap) (reply : option Reply) : list Z :=
  match reply with
  | Some r =>
      if vfdw_reply_is_error reply || negb (is_aggregate r)
      then replicate (map_nttl map) VFDW_TTL_ABSENT
      else let got := ttl_of <$> take (map_nttl map) (elements r) in
           got ++ replicate (map_nttl map - length got) VFDW_TTL_ABSENT
  | None => replicate (map_nttl map) VFDW_TTL_ABSENT
  end.

(** None is "no value": the column stays NULL. *)
Definition vfdw_ttl_datum (ms : Z) : result (option Interval) :=
  if bool_decide (ms = VFDW_TTL_NO_EXPIRY) || bool_decide (ms = VFDW_TTL_ABSENT) || bool_decide (ms < 0)
  then Ok None
  else if bool_decide (INT64_MAX / 1000 < ms)
  then Raise (PgError ERRCODE_DATETIME_VALUE_OUT_OF_RANGE
                "Valkey reported a time to live too large for interval")
  else Ok (Some (MkInterval 0 0 (ms * 1000))).

(** pg_mul_s64_overflow and pg_add_s64_overflow: None is an overflow. *)
Definition s64 (z : Z) : option Z := if in_int64 z then Some z else None.

(** The rendered bytes; None is NULL, which persists the field. *)
Definition vfdw_val_ttl_column (iv : option Interval) : result (option bytes) :=
  match iv with
  | None => Ok None
  | Some iv =>
      let days := iv_month iv * 30 + iv_day iv in
      match s64 (days * 86400000) ≫= λ ms, s64 (ms + Z.quot (iv_time iv) 1000) with
      | None => Raise (PgError ERRCODE_DATETIME_VALUE_OUT_OF_RANGE "time to live is too large")
      | Some ms =>
          if bool_decide (ms ≤ 0)
          then Raise (PgError ERRCODE_INVALID_PARAMETER_VALUE "time to live must be positive")
          else Ok (Some (dec ms))
      end
  end.

(* ---------------------------------------------------------------- *)
(** ** Facts *)

(** A command under construction. *)
Definition cmd_wf (c : VfdwCmd) : Prop := 0 < cmd_capacity c ∧ cmd_argc c ≤ cmd_capacity c.

Lemma add_bytes_wf c v :
  cmd_wf c → cmd_wf (vfdw_cmd_add_bytes c v) ∧ cmd_args (vfdw_cmd_add_bytes c v) = cmd_args c ++ [v].
Proof. intros [H1 H2]. destruct (add_bytes_spec c v H1 H2) as (? & ? & ?). by split. Qed.

Lemma reset_wf c : cmd_wf c → cmd_wf (vfdw_cmd_reset c) ∧ cmd_args (vfdw_cmd_reset c) = [].
Proof. intros [H1 H2]. split; [|done]. split; [done|]. unfold cmd_argc. simpl. lia. Qed.

Lemma add_ttl_fields_args cols c :
  cmd_wf c →
  cmd_wf (add_ttl_fields cols c) ∧
  cmd_args (add_ttl_fields cols c) = cmd_args c ++ (default "" <$> ttl_fields cols).
Proof.
  revert c. induction cols as [|col cols IH]; intros c Hc; [by rewrite app_nil_r|].
  cbn [add_ttl_fields]. rewrite ttl_fields_cons. case_bool_decide.
  - destruct (add_bytes_wf c (default "" (col_field col)) Hc) as [Hw Ha].
    destruct (IH _ Hw) as [? ->]. split; [done|]. by rewrite Ha, <- app_assoc.
  - by apply IH.
Qed.

(** HPTTL asks for the fields of the ttl columns, in the order of their slots. *)
Lemma ttl_command_args c map key :
  cmd_wf c →
  cmd_wf (vfdw_ttl_command c map key) ∧
  cmd_args (vfdw_ttl_command c map key) =
    ["HPTTL"; key; "FIELDS"; dec (Z.of_nat (map_nttl map))] ++ (default "" <$> ttl_fields (map_cols map)).
Proof.
  intros Hc. unfold vfdw_ttl_command, vfdw_cmd_add_int, vfdw_cmd_add_cstr.
  destruct (reset_wf c Hc) as [W0 A0]. set (c0 := vfdw_cmd_reset c) in *.
  destruct (add_bytes_wf c0 (until_nul "HPTTL") W0) as [W1 A1].
  destruct (add_bytes_wf _ key W1) as [W2 A2].
  destruct (add_bytes_wf _ (until_nul "FIELDS") W2) as [W3 A3].
  destruct (add_bytes_wf _ (dec (Z.of_nat (map_nttl map))) W3) as [W4 A4].
  destruct (add_ttl_fields_args (map_cols map) _ W4) as [W5 ->]. split; [done|].
  by rewrite A4, A3, A2, A1, A0.
Qed.

Lemma ttl_take_length map reply : length (vfdw_ttl_take map reply) = map_nttl map.
Proof.
  unfold vfdw_ttl_take. destruct reply as [r|]; [|by rewrite length_replicate].
  destruct (_ || _); [by rewrite length_replicate|].
  rewrite length_app, length_replicate, length_fmap, length_take. lia.
Qed.

(** Slot by slot: what HPTTL answered for that field, when it answered. *)
Lemma ttl_take_slot map r i e :
  vfdw_reply_is_error (Some r) = false → is_aggregate r = true → (i < map_nttl map)%nat →
  elements r !! i = Some e → vfdw_ttl_take map (Some r) !! i = Some (ttl_of e).
Proof.
  intros He Ha Hi Hl. unfold vfdw_ttl_take. rewrite He, Ha. simpl.
  apply lookup_app_l_Some. rewrite list_lookup_fmap, lookup_take_lt by done. by rewrite Hl.
Qed.

(** Month and day are 32 bits wide, so no interval PostgreSQL can hold overflows
    the milliseconds: the check is never the reason for a refusal. *)
Lemma ttl_column_no_overflow iv :
  interval_wf iv →
  vfdw_val_ttl_column (Some iv) =
    let ms := (iv_month iv * 30 + iv_day iv) * 86400000 + Z.quot (iv_time iv) 1000 in
    if bool_decide (ms ≤ 0)
    then Raise (PgError ERRCODE_INVALID_PARAMETER_VALUE "time to live must be positive")
    else Ok (Some (dec ms)).
Proof.
  intros (Hm & Hd & Ht). unfold in_int32, INT64_MIN, INT64_MAX in *.
  assert (Hq : - 2 ^ 54 ≤ Z.quot (iv_time iv) 1000 ≤ 2 ^ 54).
  { pose proof (Z.quot_rem' (iv_time iv) 1000).
    pose proof (Z.rem_bound_abs (iv_time iv) 1000 ltac:(done)). lia. }
  unfold vfdw_val_ttl_column, s64, in_int64, INT64_MIN, INT64_MAX.
  rewrite bool_decide_true by lia. simpl. rewrite bool_decide_true by lia. done.
Qed.
