(* ===== verification/Row.v ===== *)
(** From a reply to a tuple (src/vfdw_row.c).

    A slot is the list of its attributes, None for NULL.  Everything here may
    raise, so it is in [result]. *)
From S2P Require Import Prelude Opcode Error Cmd TableMap Ttl Vec.
Local Open Scope Z_scope.

Definition VFDW_SEARCH_DIST_ALIAS : bytes := "__vfdw_distance".

Section row.
Context `{TypeCatalog} `{PgTypes} `{Float4IO}.

(** A TupleTableSlot. *)
Abbreviation Slot := (list (option Datum)).

Record VfdwRowCtx := RowCtx {
  rc_map : VfdwTableMap;
  rc_infuncs : list Z;
  rc_cur_elem : nat;
  rc_ttl_ms : option (list Z);
}.

(** The input function cached for a column: the element's when it is packed. *)
Definition cached_infunc (col : VfdwColumn) : Z :=
  if bool_decide (col_attnum col = InvalidAttrNumber) then InvalidOid
  else match col_packed col with
       | Some e => col_typinput (pk_col e)
       | None => col_typinput col
       end.

Definition vfdw_row_ctx_init (map : VfdwTableMap) : VfdwRowCtx :=
  RowCtx map (cached_infunc <$> map_cols map) 0
    (if bool_decide (0 < map_nttl map)%nat then Some (replicate (map_nttl map) 0) else None).

Definition infunc_at (ctx : VfdwRowCtx) (col : VfdwColumn) : Z :=
  default InvalidOid (rc_infuncs ctx !! Z.to_nat (col_attnum col - 1)).

Definition vfdw_row_bytea_datum (col : VfdwColumn) (data : bytes) : result Datum :=
  let d := bytea_datum data in
  if col_is_domain col then _ ← domain_check (col_typid col) d; Ok d else Ok d.

Definition vfdw_row_datum_from_bytes (ctx : VfdwRowCtx) (col : VfdwColumn) (data : bytes) : result Datum :=
  if col_is_binary col then vfdw_row_bytea_datum col data
  else if bool_decide (col_index_type col = VFDW_INDEX_VECTOR) then
    lit ← vfdw_vec_to_text data (default "" (col_field col));
    InputFunctionCall (infunc_at ctx col) (until_nul lit) (col_typioparam col) (col_typmod col)
  else
    _ ← pg_verifymbstr data;
    InputFunctionCall (infunc_at ctx col) (until_nul data) (col_typioparam col) (col_typmod col).

(** Assign one attribute of the slot. *)
Definition slot_set (slot : Slot) (col : VfdwColumn) (v : option Datum) : Slot :=
  <[Z.to_nat (col_attnum col - 1) := v]> slot.

Definition vfdw_scan_store (ctx : VfdwRowCtx) (slot : Slot) (col : VfdwColumn) (data : option bytes)
    : result Slot :=
  match data with
  | None => Ok (slot_set slot col None)
  | Some b => d ← vfdw_row_datum_from_bytes ctx col b; Ok (slot_set slot col (Some d))
  end.

(** The elements of a packed column, in the order of the reply. *)
Fixpoint packed_values (ctx : VfdwRowCtx) (ecol : VfdwColumn) (l : list (option Reply))
    : result (list (option Datum)) :=
  match l with
  | [] => Ok []
  | None :: _ =>
      Raise (PgError ERRCODE_FDW_ERROR "a Valkey aggregate reply is missing an element it declared")
  | Some e :: rest =>
      v ← match r_str e with
          | None => Ok None
          | Some b => d ← vfdw_row_datum_from_bytes ctx ecol b; Ok (Some d)
          end;
      vs ← packed_values ctx ecol rest;
      Ok (v :: vs)
  end.

Definition vfdw_row_store_packed (ctx : VfdwRowCtx) (slot : Slot) (col : VfdwColumn) (reply : Reply)
    : result Slot :=
  match col_packed col with
  | None => Raise (elog_error "packed column without an element type")
  | Some e =>
      vs ← packed_values ctx (pk_col e) (elements reply);
      Ok (slot_set slot col
            (Some (construct_md_array (col_typid (pk_col e)) (pk_typlen e) (pk_typbyval e) (pk_typalign e) vs)))
  end.

(** Pairs of name and value; Some None is a field that carried no bytes. *)
Fixpoint hash_lookup_loop (l : list (option Reply)) (field : bytes) : result (option (option bytes)) :=
  match l with
  | k :: v :: rest =>
      match k, v with
      | Some k, Some v =>
          match r_str k with
          | Some s => if bool_decide (s = field) then Ok (Some (r_str v)) else hash_lookup_loop rest field
          | None => hash_lookup_loop rest field
          end
      | _, _ =>
          Raise (PgError ERRCODE_FDW_ERROR "a Valkey aggregate reply is missing an element it declared")
      end
  | _ => Ok None
  end.

Definition vfdw_scan_hash_lookup (reply : Reply) (field : bytes) : result (option (option bytes)) :=
  hash_lookup_loop (elements reply) field.

Definition vfdw_scan_member_at (reply : Reply) (idx : nat) (want_score : bool)
    : result (option (Reply * option Reply)) :=
  let n := length (elements reply) in
  if bool_decide (n = 0)%nat || bool_decide (n ≤ idx)%nat then Ok None else
  first ← vfdw_reply_child reply 0;
  if want_score && bool_decide (r_type first = VALKEY_REPLY_ARRAY) then
    pair ← vfdw_reply_child reply idx;
    if negb (bool_decide (r_type pair = VALKEY_REPLY_ARRAY)) || bool_decide (length (elements pair) < 2)%nat
    then Ok None
    else m ← vfdw_reply_child pair 0; s ← vfdw_reply_child pair 1; Ok (Some (m, Some s))
  else if want_score then
    if bool_decide (n ≤ idx + 1)%nat then Ok None
    else m ← vfdw_reply_child reply idx; s ← vfdw_reply_child reply (idx + 1); Ok (Some (m, Some s))
  else m ← vfdw_reply_child reply idx; Ok (Some (m, None)).

Definition vfdw_scan_member_stride (type : VfdwTableType) (reply : Reply) : result nat :=
  if negb (bool_decide (type = VFDW_TABLE_ZSET)) then Ok 1%nat
  else if bool_decide (0 < length (elements reply))%nat then
    first ← vfdw_reply_child reply 0;
    Ok (if bool_decide (r_type first = VALKEY_REPLY_ARRAY) then 1%nat else 2%nat)
  else Ok 2%nat.

Definition vfdw_scan_is_multirow (map : VfdwTableMap) : bool :=
  if map_legacy_value map then false
  else bool_decide (map_tabletype map = VFDW_TABLE_LIST) || bool_decide (map_tabletype map = VFDW_TABLE_SET)
       || bool_decide (map_tabletype map = VFDW_TABLE_ZSET).

Definition vfdw_row_store_ttl (ctx : VfdwRowCtx) (slot : Slot) (col : VfdwColumn) : result Slot :=
  match rc_ttl_ms ctx with
  | None => Ok slot
  | Some ms =>
      iv ← vfdw_ttl_datum (default VFDW_TTL_ABSENT (ms !! col_ttl_slot col));
      Ok (match iv with None => slot | Some iv => slot_set slot col (Some (IntervalPGetDatum iv)) end)
  end.

Definition vfdw_row_store_member (ctx : VfdwRowCtx) (slot : Slot) (col : VfdwColumn) (reply : Reply)
    : result Slot :=
  r ← vfdw_scan_member_at reply (rc_cur_elem ctx)
        (bool_decide (map_tabletype (rc_map ctx) = VFDW_TABLE_ZSET));
  match r with
  | Some (m, _) => vfdw_scan_store ctx slot col (r_str m)
  | None => Ok slot
  end.

Definition vfdw_row_store_score (ctx : VfdwRowCtx) (slot : Slot) (col : VfdwColumn) (reply : Reply)
    : result Slot :=
  r ← vfdw_scan_member_at reply (rc_cur_elem ctx) true;
  match r with
  | Some (_, Some sc) =>
      match r_str sc with Some b => vfdw_scan_store ctx slot col (Some b) | None => Ok slot end
  | _ => Ok slot
  end.

Definition vfdw_row_store_distance (ctx : VfdwRowCtx) (slot : Slot) (col : VfdwColumn) (reply : Reply)
    : result Slot :=
  if negb (is_aggregate reply) then Ok slot else
  r ← vfdw_scan_hash_lookup reply VFDW_SEARCH_DIST_ALIAS;
  match r with Some data => vfdw_scan_store ctx slot col data | None => Ok slot end.

Definition vfdw_row_store_position (ctx : VfdwRowCtx) (slot : Slot) (col : VfdwColumn) : Slot :=
  slot_set slot col
    (Some (if bool_decide (getBaseType (col_typid col) = INT8OID)
           then Int64GetDatum (Z.of_nat (rc_cur_elem ctx)) else Int32GetDatum (Z.of_nat (rc_cur_elem ctx)))).

Definition vfdw_row_store_field (ctx : VfdwRowCtx) (slot : Slot) (col : VfdwColumn) (reply : Reply)
    : result Slot :=
  if negb (is_aggregate reply) then Ok slot
  else if map_hmget (rc_map ctx) then
    if bool_decide (length (elements reply) ≤ col_field_slot col)%nat then Ok slot
    else
      e ← vfdw_reply_child reply (col_field_slot col);
      match r_str e with Some b => vfdw_scan_store ctx slot col (Some b) | None => Ok slot end
  else
    r ← vfdw_scan_hash_lookup reply (default "" (col_field col));
    match r with Some data => vfdw_scan_store ctx slot col data | None => Ok slot end.

Definition vfdw_row_fill_column (ctx : VfdwRowCtx) (slot : Slot) (col : VfdwColumn) (key : bytes)
    (reply : Reply) : result Slot :=
  match col_kind col with
  | VFDW_COL_KEY => vfdw_scan_store ctx slot col (Some key)
  | VFDW_COL_VALUE =>
      if bool_decide (r_type reply = VALKEY_REPLY_STRING)
      then vfdw_scan_store ctx slot col (r_str reply) else Ok slot
  | VFDW_COL_FIELD => vfdw_row_store_field ctx slot col reply
  | VFDW_COL_LEGACY_VALUE => vfdw_row_store_packed ctx slot col reply
  | VFDW_COL_MEMBER => vfdw_row_store_member ctx slot col reply
  | VFDW_COL_SCORE => vfdw_row_store_score ctx slot col reply
  | VFDW_COL_TTL => vfdw_row_store_ttl ctx slot col
  | VFDW_COL_POSITION => Ok (vfdw_row_store_position ctx slot col)
  | VFDW_COL_DISTANCE => vfdw_row_store_distance ctx slot col reply
  | VFDW_COL_DROPPED => Ok slot
  end.

Fixpoint fill_columns (ctx : VfdwRowCtx) (cols : list VfdwColumn) (slot : Slot) (key : bytes)
    (reply : Reply) : result Slot :=
  match cols with
  | [] => Ok slot
  | col :: rest =>
      slot ← vfdw_row_fill_column ctx slot col key reply;
      fill_columns ctx rest slot key reply
  end.

Definition vfdw_scan_fill (ctx : VfdwRowCtx) (key : bytes) (reply : Reply) : result Slot :=
  fill_columns ctx (map_cols (rc_map ctx)) (replicate (map_natts (rc_map ctx)) None) key reply.
End row.
