(* ===== verification/ScanCmd.v ===== *)
(** The commands of a scan (src/vfdw_scan_cmd.c and the SCAN of src/vfdw_scan.c),
    as functions of what they read of the scan state. *)
From S2P Require Import Prelude Opcode Option Error Cmd CmdFacts TableMap TableMapFacts Ttl.
Local Open Scope Z_scope.

Inductive VfdwScanStrategy :=
  | VFDW_SCAN_KEYSPACE | VFDW_SCAN_KEYS | VFDW_SCAN_SINGLETON | VFDW_SCAN_KNN | VFDW_SCAN_KEY_PARAM.

#[global] Instance VfdwScanStrategy_eq_dec : EqDecision VfdwScanStrategy.
Proof. solve_decision. Defined.

Definition map_keyset (m : VfdwTableMap) : option bytes := to_keyset (map_options m).
Definition map_keyprefix (m : VfdwTableMap) : option bytes := to_keyprefix (map_options m).
Definition map_singleton_key (m : VfdwTableMap) : option bytes := to_singleton_key (map_options m).

Definition vfdw_scan_asks_membership (map : VfdwTableMap) (strategy : VfdwScanStrategy) : bool :=
  bool_decide (is_Some (map_keyset map)) && bool_decide (strategy = VFDW_SCAN_KEYS).

Fixpoint add_hash_fields (cols : list VfdwColumn) (cmd : VfdwCmd) : VfdwCmd :=
  match cols with
  | [] => cmd
  | c :: rest =>
      add_hash_fields rest
        (if negb (bool_decide (col_kind c = VFDW_COL_FIELD)) && negb (bool_decide (col_kind c = VFDW_COL_TTL))
         then cmd else vfdw_cmd_add_bytes cmd (default "" (col_field c)))
  end.

Definition vfdw_scan_hash_command (map : VfdwTableMap) (cmd : VfdwCmd) (key : bytes) : VfdwCmd :=
  if negb (map_hmget map) then vfdw_cmd_add_bytes (vfdw_cmd_add_cstr cmd "HGETALL") key
  else add_hash_fields (map_cols map) (vfdw_cmd_add_bytes (vfdw_cmd_add_cstr cmd "HMGET") key).

Definition vfdw_scan_value_command (map : VfdwTableMap) (cmd : VfdwCmd) (key : bytes) : VfdwCmd :=
  let cmd := vfdw_cmd_reset cmd in
  let verb v := vfdw_cmd_add_bytes (vfdw_cmd_add_cstr cmd v) key in
  let range c := vfdw_cmd_add_cstr (vfdw_cmd_add_cstr c "0") "-1" in
  match map_tabletype map with
  | VFDW_TABLE_HASH => vfdw_scan_hash_command map cmd key
  | VFDW_TABLE_LIST => range (verb "LRANGE")
  | VFDW_TABLE_SET => verb "SMEMBERS"
  | VFDW_TABLE_ZSET =>
      let c := range (verb "ZRANGE") in
      if map_legacy_value map then c else vfdw_cmd_add_cstr c "WITHSCORES"
  | VFDW_TABLE_STRING | VFDW_TABLE_VECTOR => verb "GET"
  end.

Definition vfdw_scan_type_filter (type : VfdwTableType) : bytes :=
  match type with
  | VFDW_TABLE_HASH => "hash" | VFDW_TABLE_LIST => "list" | VFDW_TABLE_SET => "set"
  | VFDW_TABLE_ZSET => "zset" | VFDW_TABLE_STRING | VFDW_TABLE_VECTOR => "string"
  end.

(** [cursor] is state->started ? state->cursor : "0". *)
Definition vfdw_scan_build_scan (map : VfdwTableMap) (cursor : bytes) (pattern : option bytes)
    (scan_count : Z) : VfdwCmd :=
  let cmd := vfdw_cmd_init 8 in
  match map_keyset map with
  | Some keyset =>
      let cmd := vfdw_cmd_add_cstr cmd "SSCAN" in
      let cmd := vfdw_cmd_add_cstr cmd keyset in
      let cmd := vfdw_cmd_add_cstr cmd cursor in
      let cmd := vfdw_cmd_add_cstr cmd "COUNT" in
      vfdw_cmd_add_int cmd scan_count
  | None =>
      let cmd := vfdw_cmd_add_cstr cmd "SCAN" in
      let cmd := vfdw_cmd_add_cstr cmd cursor in
      let cmd := match pattern with
                 | Some p => vfdw_cmd_add_cstr (vfdw_cmd_add_cstr cmd "MATCH") p
                 | None => cmd
                 end in
      let cmd := vfdw_cmd_add_cstr cmd "COUNT" in
      let cmd := vfdw_cmd_add_int cmd scan_count in
      let cmd := vfdw_cmd_add_cstr cmd "TYPE" in
      vfdw_cmd_add_cstr cmd (vfdw_scan_type_filter (map_tabletype map))
  end.

(* ---------------------------------------------------------------- *)
(** ** Facts *)

Lemma add_hash_fields_args cols c :
  cmd_wf c →
  cmd_wf (add_hash_fields cols c) ∧
  cmd_args (add_hash_fields cols c) = cmd_args c ++ (default "" <$> asked_fields cols).
Proof.
  revert c. induction cols as [|col cols IH]; intros c Hc; [by rewrite app_nil_r|].
  cbn [add_hash_fields]. rewrite asked_fields_cons, <- negb_orb.
  destruct (_ || _); simpl.
  - destruct (add_bytes_wf c (default "" (col_field col)) Hc) as [Hw Ha].
    destruct (IH _ Hw) as [? ->]. split; [done|]. by rewrite Ha, <- app_assoc.
  - by apply IH.
Qed.

(** HMGET asks for the fields in the order of their slots. *)
Lemma hmget_command_args map c key :
  cmd_wf c → map_tabletype map = VFDW_TABLE_HASH → map_hmget map = true →
  cmd_args (vfdw_scan_value_command map c key) =
    ["HMGET"; key] ++ (default "" <$> asked_fields (map_cols map)).
Proof.
  intros Hc Ht Hh. unfold vfdw_scan_value_command, vfdw_scan_hash_command, vfdw_cmd_add_cstr.
  rewrite Ht, Hh. simpl negb. cbv iota. destruct (reset_wf c Hc) as [W0 A0].
  destruct (add_bytes_wf _ (until_nul "HMGET") W0) as [W1 A1]. destruct (add_bytes_wf _ key W1) as [W2 A2].
  destruct (add_hash_fields_args (map_cols map) _ W2) as [_ ->]. by rewrite A2, A1, A0.
Qed.
