(* ===== verification/RowFacts.v ===== *)
(** A row is its columns, each from its own source: the slot vfdw_scan_fill
    leaves is computed column by column, and on a hash table read with HMGET and
    HPTTL every column gets the answer to its own field. *)
From S2P Require Import Prelude Opcode Option OptionFacts Error Cmd CmdFacts TableMap TableMapFacts Ttl Vec Row ScanCmd.
Local Open Scope Z_scope.

Section facts.
Context `{TypeCatalog} `{PgTypes} `{Float4IO}.
Abbreviation Slot := (list (option Datum)).

(** The value of one column, without a slot. *)
Definition store_cell (ctx : VfdwRowCtx) (col : VfdwColumn) (data : option bytes) : result (option Datum) :=
  match data with
  | None => Ok None
  | Some b => d ← vfdw_row_datum_from_bytes ctx col b; Ok (Some d)
  end.

Definition field_cell (ctx : VfdwRowCtx) (col : VfdwColumn) (reply : Reply) : result (option Datum) :=
  if negb (is_aggregate reply) then Ok None
  else if map_hmget (rc_map ctx) then
    if bool_decide (length (elements reply) ≤ col_field_slot col)%nat then Ok None
    else e ← vfdw_reply_child reply (col_field_slot col); store_cell ctx col (r_str e)
  else
    r ← vfdw_scan_hash_lookup reply (default "" (col_field col)); store_cell ctx col (r ≫= id).

Definition ttl_cell (ctx : VfdwRowCtx) (col : VfdwColumn) : result (option Datum) :=
  match rc_ttl_ms ctx with
  | None => Ok None
  | Some ms =>
      iv ← vfdw_ttl_datum (default VFDW_TTL_ABSENT (ms !! col_ttl_slot col));
      Ok (option_map IntervalPGetDatum iv)
  end.

Definition column_cell (ctx : VfdwRowCtx) (key : bytes) (reply : Reply) (col : VfdwColumn)
    : result (option Datum) :=
  match col_kind col with
  | VFDW_COL_KEY => store_cell ctx col (Some key)
  | VFDW_COL_VALUE =>
      if bool_decide (r_type reply = VALKEY_REPLY_STRING) then store_cell ctx col (r_str reply) else Ok None
  | VFDW_COL_FIELD => field_cell ctx col reply
  | VFDW_COL_TTL => ttl_cell ctx col
  | VFDW_COL_POSITION =>
      Ok (Some (if bool_decide (getBaseType (col_typid col) = INT8OID)
                then Int64GetDatum (Z.of_nat (rc_cur_elem ctx)) else Int32GetDatum (Z.of_nat (rc_cur_elem ctx))))
  | VFDW_COL_MEMBER =>
      r ← vfdw_scan_member_at reply (rc_cur_elem ctx)
            (bool_decide (map_tabletype (rc_map ctx) = VFDW_TABLE_ZSET));
      store_cell ctx col (r ≫= λ p, r_str p.1)
  | VFDW_COL_SCORE =>
      r ← vfdw_scan_member_at reply (rc_cur_elem ctx) true;
      store_cell ctx col (r ≫= λ p, p.2 ≫= r_str)
  | VFDW_COL_DISTANCE =>
      if negb (is_aggregate reply) then Ok None
      else r ← vfdw_scan_hash_lookup reply VFDW_SEARCH_DIST_ALIAS; store_cell ctx col (r ≫= id)
  | VFDW_COL_LEGACY_VALUE =>
      match col_packed col with
      | None => Raise (elog_error "packed column without an element type")
      | Some e =>
          vs ← packed_values ctx (pk_col e) (elements reply);
          Ok (Some (construct_md_array (col_typid (pk_col e)) (pk_typlen e) (pk_typbyval e) (pk_typalign e) vs))
      end
  | VFDW_COL_DROPPED => Ok None
  end.

(** Assigning a NULL over a NULL changes nothing. *)
Lemma slot_set_null (slot : Slot) col :
  slot !! Z.to_nat (col_attnum col - 1) = Some None → slot_set slot col None = slot.
Proof. apply list_insert_id. Qed.

Lemma store_cell_spec ctx slot col data :
  vfdw_scan_store ctx slot col data = slot_set slot col <$> store_cell ctx col data.
Proof. destruct data as [b|]; [|done]. simpl. by destruct (vfdw_row_datum_from_bytes ctx col b). Qed.

Lemma fill_column_cell ctx slot col key reply :
  slot !! Z.to_nat (col_attnum col - 1) = Some None → col_kind col ≠ VFDW_COL_DROPPED →
  vfdw_row_fill_column ctx slot col key reply = slot_set slot col <$> column_cell ctx key reply col.
Proof.
  intros Hs Hk. pose proof (slot_set_null slot col Hs) as Hn.
  assert (Hst : ∀ data, match data with Some b => vfdw_scan_store ctx slot col (Some b) | None => Ok slot end
                        = slot_set slot col <$> store_cell ctx col data).
  { intros [b|]; [apply store_cell_spec|]. simpl. by rewrite Hn. }
  assert (Hopt : ∀ r : option (option bytes),
    match r with Some data => vfdw_scan_store ctx slot col data | None => Ok slot end
    = slot_set slot col <$> store_cell ctx col (r ≫= id)).
  { intros [data|]; [apply store_cell_spec|]. simpl. by rewrite Hn. }
  unfold vfdw_row_fill_column, column_cell. destruct (col_kind col) eqn:Ek; try done.
  - apply store_cell_spec.
  - case_bool_decide; [apply store_cell_spec|]. simpl. by rewrite Hn.
  - unfold vfdw_row_store_field, field_cell. destruct (negb _); [simpl; by rewrite Hn|].
    destruct (map_hmget _).
    + case_bool_decide; [simpl; by rewrite Hn|].
      destruct (vfdw_reply_child _ _) as [e|]; [|done]. cbn [mbind result_bind]. apply Hst.
    + destruct (vfdw_scan_hash_lookup _ _) as [r|]; [|done]. cbn [mbind result_bind]. apply Hopt.
  - unfold vfdw_row_store_member. destruct (vfdw_scan_member_at _ _ _) as [[[m s]|]|]; [|simpl; by rewrite Hn|done].
    cbn [mbind result_bind]. apply store_cell_spec.
  - unfold vfdw_row_store_score.
    destruct (vfdw_scan_member_at _ _ _) as [[[m [s|]]|]|]; [|simpl; by rewrite Hn..|done].
    cbn [mbind result_bind]. apply Hst.
  - unfold vfdw_row_store_ttl, ttl_cell. destruct (rc_ttl_ms ctx) as [ms|]; [|simpl; by rewrite Hn].
    destruct (vfdw_ttl_datum _) as [[iv|]|]; simpl; by rewrite ?Hn.
  - unfold vfdw_row_store_distance. destruct (negb _); [simpl; by rewrite Hn|].
    destruct (vfdw_scan_hash_lookup _ _) as [r|]; [|done]. cbn [mbind result_bind]. apply Hopt.
  - unfold vfdw_row_store_packed. destruct (col_packed col) as [e|]; [|done].
    by destruct (packed_values ctx (pk_col e) (elements reply)).
Qed.

Lemma fill_columns_cells ctx key reply cols (pre : Slot) :
  (∀ i c, cols !! i = Some c →
     (col_kind c = VFDW_COL_DROPPED) ∨
     (col_kind c ≠ VFDW_COL_DROPPED ∧ col_attnum c = Z.of_nat (length pre + i) + 1)) →
  fill_columns ctx cols (pre ++ replicate (length cols) None) key reply =
  app pre <$> mapM (column_cell ctx key reply) cols.
Proof.
  revert pre. induction cols as [|col cols IH]; intros pre Hn; [done|].
  assert (Hlast : ∀ v, app pre <$> (vs ← mapM (column_cell ctx key reply) cols; Ok (v :: vs))
    = app (pre ++ [v]) <$> mapM (column_cell ctx key reply) cols).
  { intros v. destruct (mapM (column_cell ctx key reply) cols); [|done]. simpl. by rewrite <- app_assoc. }
  assert (HIH : ∀ v, fill_columns ctx cols ((pre ++ [v]) ++ replicate (length cols) None) key reply
    = app (pre ++ [v]) <$> mapM (column_cell ctx key reply) cols).
  { intros v. apply IH. intros i c Hc. destruct (Hn (S i) c Hc) as [|[? Ha]]; [by left|right].
    split; [done|]. rewrite Ha, length_app. simpl. f_equal. lia. }
  cbn [fill_columns mapM length replicate]. destruct (Hn 0%nat col eq_refl) as [Hd|[Hd Ha]].
  - assert (Hc : column_cell ctx key reply col = Ok None) by (unfold column_cell; by rewrite Hd).
    unfold vfdw_row_fill_column. rewrite Hd, Hc. cbn [mbind result_bind mret result_ret].
    rewrite cons_middle, app_assoc, HIH. symmetry. apply Hlast.
  - assert (Hi : Z.to_nat (col_attnum col - 1) = length pre) by (rewrite Ha; lia).
    rewrite fill_column_cell; [|rewrite Hi; by apply list_lookup_middle|done].
    destruct (column_cell ctx key reply col) as [v|]; [|done].
    cbn [fmap result_fmap mbind result_bind mret result_ret]. unfold slot_set. rewrite Hi.
    rewrite insert_app_r_alt, Nat.sub_diag by done. cbn.
    rewrite cons_middle, app_assoc, HIH. symmetry. apply Hlast.
Qed.

(** The row of a map that was built: one cell per column. *)
Lemma fill_cells ctx tupdesc key reply :
  map_wf tupdesc (rc_map ctx) →
  vfdw_scan_fill ctx key reply = mapM (column_cell ctx key reply) (map_cols (rc_map ctx)).
Proof.
  intros Hwf. unfold vfdw_scan_fill, map_natts.
  pose proof (fill_columns_cells ctx key reply (map_cols (rc_map ctx)) []) as E.
  cbn [app] in E. rewrite E.
  - by destruct (mapM _ _).
  - intros i c Hc. pose proof (wf_width _ _ Hwf) as Hw.
    destruct (lookup_lt_is_Some_2 tupdesc i) as [a Ha].
    { rewrite <- Hw. by eapply lookup_lt_Some. }
    pose proof (wf_source _ _ Hwf i a c Ha Hc) as Hs. destruct (attisdropped a).
    + left. by destruct Hs.
    + right. destruct Hs. by split.
Qed.
(* ---------------------------------------------------------------- *)
(** ** A hash read by its fields *)

Definition string_reply (b : bytes) : Reply := MkReply VALKEY_REPLY_STRING 0 (Some b) None.
Definition nil_reply : Reply := MkReply VALKEY_REPLY_NIL 0 None None.
Definition integer_reply (i : Z) : Reply := MkReply VALKEY_REPLY_INTEGER i None None.
Definition array_reply (l : list Reply) : Reply := MkReply VALKEY_REPLY_ARRAY 0 None (Some (Some <$> l)).

(** What the server answers for a hash [h] whose fields live [t] milliseconds,
    to HMGET and HPTTL of a list of fields. *)
Definition hmget_answer (h : bytes → option bytes) (fields : list bytes) : Reply :=
  array_reply ((λ f, match h f with Some b => string_reply b | None => nil_reply end) <$> fields).
Definition hpttl_answer (t : bytes → Z) (fields : list bytes) : Reply :=
  array_reply ((λ f, integer_reply (t f)) <$> fields).

(** A server that keeps hashes: [h key] is the hash at a key and [t key] the
    milliseconds its fields have left.  The verb, the key, the count and the names
    it is sent decide what it answers; HTTL is HPTTL in seconds. *)
Definition hash_server (h : bytes → bytes → option bytes) (t : bytes → bytes → Z) (args : list bytes)
    : Reply :=
  match args with
  | verb :: key :: rest =>
      if bool_decide (verb = "HMGET") then hmget_answer (h key) rest else
      match rest with
      | what :: n :: fields =>
          if bool_decide (what = "FIELDS") && bool_decide (undec n = Some (Z.of_nat (length fields))) then
            if bool_decide (verb = "HPTTL") then hpttl_answer (t key) fields
            else if bool_decide (verb = "HTTL") then hpttl_answer (λ f, t key f / 1000) fields
            else error_reply "ERR unknown command"
          else error_reply "ERR syntax error"
      | _ => error_reply "ERR wrong number of arguments"
      end
  | _ => error_reply "ERR unknown command"
  end.

Lemma hash_server_hmget h t key fields :
  hash_server h t (["HMGET"; key] ++ fields) = hmget_answer (h key) fields.
Proof. done. Qed.

Lemma hash_server_hpttl h t key fields :
  hash_server h t (["HPTTL"; key; "FIELDS"; dec (Z.of_nat (length fields))] ++ fields) = hpttl_answer (t key) fields.
Proof.
  cbn [app hash_server]. rewrite (bool_decide_false ("HPTTL" = "HMGET")) by done.
  by rewrite (bool_decide_true (undec _ = _)) by apply undec_dec.
Qed.

(** What each column of the row should hold. *)
Definition hash_cell (ctx : VfdwRowCtx) (key : bytes) (h : bytes → option bytes) (t : bytes → Z)
    (reply : Reply) (col : VfdwColumn) : result (option Datum) :=
  match col_kind col, col_field col with
  | VFDW_COL_KEY, _ => store_cell ctx col (Some key)
  | VFDW_COL_FIELD, Some f => store_cell ctx col (h f)
  | VFDW_COL_TTL, Some f => iv ← vfdw_ttl_datum (t f); Ok (option_map IntervalPGetDatum iv)
  | VFDW_COL_DROPPED, _ => Ok None
  | _, _ => column_cell ctx key reply col
  end.

Lemma elements_array l : elements (array_reply l) = Some <$> l.
Proof. done. Qed.

Lemma field_cell_hmget ctx tupdesc col h f :
  map_wf tupdesc (rc_map ctx) → map_hmget (rc_map ctx) = true → col ∈ map_cols (rc_map ctx) →
  col_kind col = VFDW_COL_FIELD → col_field col = Some f →
  field_cell ctx col (hmget_answer h (default "" <$> asked_fields (map_cols (rc_map ctx))))
  = store_cell ctx col (h f).
Proof.
  intros Hwf Hh Hc Hk Hf. pose proof (wf_field_slot _ _ Hwf col Hh Hc Hk) as Hs. rewrite Hf in Hs.
  set (g := λ f, match h f with Some b => string_reply b | None => nil_reply end).
  assert (Hl : elements (hmget_answer h (default "" <$> asked_fields (map_cols (rc_map ctx)))) !! col_field_slot col
    = Some (Some (g f))).
  { unfold hmget_answer. rewrite elements_array, !list_lookup_fmap, Hs. done. }
  unfold field_cell. rewrite Hh. simpl negb. cbv iota.
  rewrite bool_decide_false by (apply lookup_lt_Some in Hl; lia).
  unfold vfdw_reply_child. unfold elements in Hl. simpl in Hl |- *. rewrite Hl. simpl.
  unfold g. by destruct (h f).
Qed.

Lemma ttl_cell_hpttl ctx tupdesc col t f :
  map_wf tupdesc (rc_map ctx) → col ∈ map_cols (rc_map ctx) →
  col_kind col = VFDW_COL_TTL → col_field col = Some f →
  rc_ttl_ms ctx = Some (vfdw_ttl_take (rc_map ctx)
    (Some (hpttl_answer t (default "" <$> ttl_fields (map_cols (rc_map ctx)))))) →
  ttl_cell ctx col = (iv ← vfdw_ttl_datum (t f); Ok (option_map IntervalPGetDatum iv)).
Proof.
  intros Hwf Hc Hk Hf Hms. pose proof (wf_ttl_slot _ _ Hwf col Hc Hk) as Hs. rewrite Hf in Hs.
  unfold ttl_cell. rewrite Hms.
  rewrite (ttl_take_slot _ _ _ (Some (integer_reply (t f)))); [done|done|done| |].
  - rewrite (wf_nttl _ _ Hwf). by eapply lookup_lt_Some.
  - unfold hpttl_answer. rewrite elements_array, !list_lookup_fmap, Hs. done.
Qed.
End facts.

Lemma mapM_ext {A B} (f g : A → result B) (l : list A) :
  (∀ x, x ∈ l → f x = g x) → mapM f l = mapM g l.
Proof.
  induction l as [|x l IH]; intros Hf; [done|]. cbn [mapM].
  rewrite (Hf x), IH; [done| |by apply elem_of_cons; left].
  intros y Hy. apply Hf. by apply elem_of_cons; right.
Qed.

(** The lifetimes a scan has read when it fills a row: those of the command it
    sent, where the table has a ttl column. *)
Definition read_ttls (map : VfdwTableMap) (reply : Reply) : option (list Z) :=
  if bool_decide (0 < map_nttl map)%nat then Some (vfdw_ttl_take map (Some reply)) else None.

(** C28: on a hash table whose fields are asked by name, the row built from what a
    server of hashes answers to the very commands the scan sends gives every
    column its own source: the key to the key column, the value of its field of
    that key's hash to a field column (NULL when the hash lacks it) and the
    milliseconds its field has left to a ttl column, whatever the order of the
    columns, repeated fields and dropped columns; with ttl columns, for which the
    lifetimes are asked, and without them, when nothing is asked. *)
Theorem hash_row_reads_its_own_fields `{TypeCatalog} `{PgTypes} `{Float4IO}
    tupdesc ctx c0 key h t (reply : Reply) :
  let server := hash_server h t in
  map_wf tupdesc (rc_map ctx) → map_tabletype (rc_map ctx) = VFDW_TABLE_HASH →
  map_hmget (rc_map ctx) = true → cmd_wf c0 →
  rc_ttl_ms ctx = read_ttls (rc_map ctx) (server (cmd_args (vfdw_ttl_command c0 (rc_map ctx) key))) →
  reply = server (cmd_args (vfdw_scan_value_command (rc_map ctx) c0 key)) →
  vfdw_scan_fill ctx key reply = mapM (hash_cell ctx key (h key) (t key) reply) (map_cols (rc_map ctx)).
Proof.
  intros server Hwf Ht Hh Hc0 Hms Hr. rewrite (fill_cells ctx tupdesc key reply Hwf).
  rewrite hmget_command_args in Hr by done. unfold server in Hr. rewrite hash_server_hmget in Hr. apply mapM_ext. intros col Hc.
  pose proof (wf_named _ _ Hwf col Hc) as Hn.
  unfold hash_cell, column_cell. destruct (col_kind col) eqn:Ek; try done.
  - destruct Hn as [f Hf]; [by left|]. rewrite Hf, Hr. by eapply field_cell_hmget.
  - destruct Hn as [f Hf]; [by right|]. rewrite Hf.
    assert (Hlt : (col_ttl_slot col < map_nttl (rc_map ctx))%nat).
    { rewrite (wf_nttl _ _ Hwf). eapply lookup_lt_Some. exact (wf_ttl_slot _ _ Hwf col Hc Ek). }
    unfold read_ttls in Hms. rewrite bool_decide_true in Hms by lia.
    destruct (ttl_command_args c0 (rc_map ctx) key Hc0) as [_ Ha]. unfold server in Hms.
    rewrite Ha, (wf_nttl _ _ Hwf), <- (length_fmap (default "")), hash_server_hpttl in Hms.
    by eapply ttl_cell_hpttl.
Qed.

(* ---------------------------------------------------------------- *)
(** ** A type system to run it with *)

Inductive SampleDatum :=
  | SText (b : bytes) | SBytea (b : bytes) | SInterval (iv : Interval) | SInt (z : Z)
  | SArray (l : list (option SampleDatum)).

#[local] Instance sample_types : PgTypes := {|
  Datum := SampleDatum;
  InputFunctionCall _ b _ _ := Ok (SText b);
  OutputFunctionCall _ d := match d with SText b => b | _ => "" end;
  bytea_payload d := match d with SBytea b => b | _ => "" end;
  bytea_datum b := SBytea b;
  DatumGetIntervalP d := match d with SInterval iv => iv | _ => MkInterval 0 0 0 end;
  IntervalPGetDatum iv := SInterval iv;
  Int32GetDatum z := SInt z;
  Int64GetDatum z := SInt z;
  domain_check _ _ := Ok ();
  construct_md_array _ _ _ _ l := SArray l;
  pg_verifymbstr _ := Ok ();
|}.
#[local] Existing Instance sample_catalog.
#[local] Existing Instance sample_float4.

Definition sample_map : VfdwTableMap :=
  match sample_hash_map with
  | Ok m => m
  | Raise _ => TableMap 0 [] 0 0 0 0 default_table_options 0 0 false 0
  end.

Lemma sample_map_wf : map_wf sample_tupdesc sample_map.
Proof. apply (map_build_wf sample_parse_bool 4711 _ [("tabletype", "hash"); ("keyprefix", "u:")]). reflexivity. Qed.

(** A hash with a name that lives a minute and no mail. *)
Definition sample_hash (f : bytes) : option bytes := if bool_decide (f = "name") then Some "ada" else None.
Definition sample_ttl (f : bytes) : Z := if bool_decide (f = "name") then 60000 else -2.

Definition only_at {A} (key : bytes) (a d : A) (k : bytes) : A := if bool_decide (k = key) then a else d.
Definition sample_server : list bytes → Reply :=
  hash_server (only_at "u:1" sample_hash (λ _, None)) (only_at "u:1" sample_ttl (λ _, -2)).

Definition sample_ctx : VfdwRowCtx :=
  RowCtx sample_map (rc_infuncs (vfdw_row_ctx_init sample_map)) 0
    (read_ttls sample_map (sample_server (cmd_args (vfdw_ttl_command (vfdw_cmd_init 4) sample_map "u:1")))).

Definition sample_reply : Reply :=
  sample_server (cmd_args (vfdw_scan_value_command sample_map (vfdw_cmd_init 4) "u:1")).

Lemma hash_row_reads_its_own_fields_witness :
  vfdw_scan_fill sample_ctx "u:1" sample_reply =
    mapM (hash_cell sample_ctx "u:1" sample_hash sample_ttl sample_reply) (map_cols sample_map) ∧
  vfdw_scan_fill sample_ctx "u:1" sample_reply =
    Ok [Some (SText "u:1"); Some (SText "ada"); None; Some (SInterval (MkInterval 0 0 60000000)); None].
Proof.
  split; [|vm_compute; reflexivity].
  apply (hash_row_reads_its_own_fields sample_tupdesc sample_ctx (vfdw_cmd_init 4) "u:1"
    (only_at "u:1" sample_hash (λ _, None)) (only_at "u:1" sample_ttl (λ _, -2)));
    [exact sample_map_wf|vm_compute; reflexivity|vm_compute; reflexivity| |reflexivity|reflexivity].
  unfold cmd_wf, cmd_argc. simpl. lia.
Defined.
