(* ===== verification/Val.v ===== *)
(** From a Datum to the bytes of a command argument (src/vfdw_val.c): rendering,
    the NULL rule of each column role, and the key builder.

    A VfdwValue is [option bytes], None for isnull.  The scratch context and the
    copy into the write buffer are not modelled: what the buffer is charged is an
    input of the steps of WritePath. *)
From S2P Require Import Prelude Opcode Option OptionFacts Error Cmd.
From S2P Require Import TableMap TableMapFacts Ttl Vec Row ScanCmd RowFacts Score.
Local Open Scope Z_scope.

Definition VFDW_MAX_ARG_BYTES : Z := 536870912.

Inductive VfdwKeyVerdict :=
  | VFDW_KEY_OK | VFDW_KEY_NULL | VFDW_KEY_NO_COLUMN | VFDW_KEY_PREFIX | VFDW_KEY_KEYSET | VFDW_KEY_SINGLETON.

#[global] Instance VfdwKeyVerdict_eq_dec : EqDecision VfdwKeyVerdict.
Proof. solve_decision. Defined.

Section val.
Context `{PgTypes}.

(** Relation and column names appear in errdetails only, so the context is its
    output functions. *)
Record VfdwValCtx := ValCtx { vc_outfuncs : list Z }.

Definition cached_outfunc (col : VfdwColumn) : Z :=
  if bool_decide (col_attnum col = InvalidAttrNumber) then InvalidOid
  else match col_packed col with
       | Some e => col_typoutput (pk_col e)
       | None => col_typoutput col
       end.

Definition vfdw_val_ctx_init (map : VfdwTableMap) : VfdwValCtx := ValCtx (cached_outfunc <$> map_cols map).

Definition outfunc_at (vc : VfdwValCtx) (col : VfdwColumn) : Z :=
  default InvalidOid (vc_outfuncs vc !! Z.to_nat (col_attnum col - 1)).

Definition vfdw_val_check_arg_len (len : Z) : result unit :=
  if bool_decide (len ≤ VFDW_MAX_ARG_BYTES) then Ok ()
  else Raise (PgError ERRCODE_PROGRAM_LIMIT_EXCEEDED
                "value is too large to send to Valkey as one argument").

Definition vfdw_val_render_scratch (vc : VfdwValCtx) (col : VfdwColumn) (d : Datum) : result bytes :=
  let b := if col_is_binary col then bytea_payload d
           else until_nul (OutputFunctionCall (outfunc_at vc col) d) in
  _ ← vfdw_val_check_arg_len (blen b); Ok b.

Definition vfdw_val_render (vc : VfdwValCtx) (col : VfdwColumn) (d : option Datum)
    : result (option bytes) :=
  match d with
  | None => Ok None
  | Some d => b ← vfdw_val_render_scratch vc col d; Ok (Some b)
  end.

Definition vfdw_val_error_null : pg_error :=
  PgError ERRCODE_NOT_NULL_VIOLATION "null value has no representation in Valkey".

Definition vfdw_val_error_all_fields_null : pg_error :=
  PgError ERRCODE_NOT_NULL_VIOLATION "every mapped field of the row is null".

Definition vfdw_val_score_column (vc : VfdwValCtx) (col : VfdwColumn) (d : Datum) : result (option bytes) :=
  b ← vfdw_val_render_scratch vc col d;
  _ ← vfdw_val_check_score b "" "";
  Ok (Some b).

Definition vfdw_val_position_column (d : option Datum) : result (option bytes) :=
  match d with
  | None => Ok None
  | Some _ => Raise (PgError ERRCODE_FEATURE_NOT_SUPPORTED "cannot write to position column")
  end.

(* ---------------------------------------------------------------- *)
(** ** The key builder *)

Definition vfdw_val_key_verdict_name (v : VfdwKeyVerdict) : bytes :=
  match v with
  | VFDW_KEY_OK => "ok" | VFDW_KEY_NULL => "null" | VFDW_KEY_NO_COLUMN => "no_key_column"
  | VFDW_KEY_PREFIX => "prefix" | VFDW_KEY_KEYSET => "keyset_collision"
  | VFDW_KEY_SINGLETON => "singleton_mismatch"
  end.

Definition vfdw_val_has_prefix (prefix key : bytes) : bool :=
  bool_decide (String.length prefix ≤ String.length key)%nat &&
  bool_decide (take_bytes (String.length prefix) key = prefix).

Definition vfdw_val_is_keyset (keyset key : bytes) : bool :=
  bool_decide (String.length key = String.length keyset) && bool_decide (key = keyset).

Definition vfdw_val_singleton_key (vc : VfdwValCtx) (singleton : bytes) (col : option VfdwColumn)
    (d : option Datum) : result (VfdwKeyVerdict * option bytes) :=
  match col, d with
  | Some col, Some d =>
      given ← vfdw_val_render_scratch vc col d;
      if negb (bool_decide (given = singleton)) then Ok (VFDW_KEY_SINGLETON, None)
      else Ok (VFDW_KEY_OK, Some singleton)
  | _, _ => Ok (VFDW_KEY_OK, Some singleton)
  end.

Definition vfdw_val_key_classify (vc : VfdwValCtx) (map : VfdwTableMap) (col : option VfdwColumn)
    (d : option Datum) : result (VfdwKeyVerdict * option bytes) :=
  match map_singleton_key map with
  | Some s => vfdw_val_singleton_key vc s col d
  | None =>
      match col, d with
      | None, _ => Ok (VFDW_KEY_NO_COLUMN, None)
      | Some _, None => Ok (VFDW_KEY_NULL, None)
      | Some col, Some d =>
          b ← vfdw_val_render_scratch vc col d;
          if from_option (λ p, negb (vfdw_val_has_prefix p b)) false (map_keyprefix map)
          then Ok (VFDW_KEY_PREFIX, None)
          else if from_option (λ s, vfdw_val_is_keyset s b) false (map_keyset map)
          then Ok (VFDW_KEY_KEYSET, None)
          else Ok (VFDW_KEY_OK, Some b)
      end
  end.

Definition vfdw_val_key_error (v : VfdwKeyVerdict) : pg_error :=
  match v with
  | VFDW_KEY_OK => elog_error "key verdict has no message"
  | VFDW_KEY_NULL => vfdw_val_error_null
  | VFDW_KEY_NO_COLUMN =>
      PgError ERRCODE_INVALID_TABLE_DEFINITION "table has no key column and no singleton_key"
  | VFDW_KEY_PREFIX => PgError ERRCODE_CHECK_VIOLATION "key does not begin with the table's keyprefix"
  | VFDW_KEY_KEYSET => PgError ERRCODE_CHECK_VIOLATION "key collides with the table's keyset"
  | VFDW_KEY_SINGLETON =>
      PgError ERRCODE_CHECK_VIOLATION "key column does not match the table's singleton_key"
  end.

Definition vfdw_val_build_key (vc : VfdwValCtx) (map : VfdwTableMap) (col : option VfdwColumn)
    (d : option Datum) : result (option bytes) :=
  '(verdict, out) ← vfdw_val_key_classify vc map col d;
  if bool_decide (verdict = VFDW_KEY_OK) then Ok out else Raise (vfdw_val_key_error verdict).

Definition vfdw_val_from_slot (vc : VfdwValCtx) (map : VfdwTableMap) (col : VfdwColumn)
    (d : option Datum) : result (option bytes) :=
  match col_kind col with
  | VFDW_COL_KEY => vfdw_val_build_key vc map (Some col) d
  | VFDW_COL_VALUE | VFDW_COL_MEMBER =>
      match d with None => Raise vfdw_val_error_null | Some _ => vfdw_val_render vc col d end
  | VFDW_COL_SCORE =>
      match d with None => Raise vfdw_val_error_null | Some d => vfdw_val_score_column vc col d end
  | VFDW_COL_FIELD => vfdw_val_render vc col d
  | VFDW_COL_TTL => vfdw_val_ttl_column (DatumGetIntervalP <$> d)
  | VFDW_COL_POSITION => vfdw_val_position_column d
  | VFDW_COL_DROPPED | VFDW_COL_DISTANCE | VFDW_COL_LEGACY_VALUE =>
      Raise (elog_error "column kind has no write conversion")
  end.
End val.
