(* ===== verification/ValFacts.v ===== *)
(** What is written reads back, and a key that is written belongs to the table
    (src/vfdw_val.c against src/vfdw_row.c). *)
From S2P Require Import Prelude Opcode Option OptionFacts Error Cmd.
From S2P Require Import TableMap TableMapFacts Ttl Vec Row ScanCmd RowFacts Score Val.
Local Open Scope Z_scope.

(** The value conversions of a column that PostgreSQL guarantees: for bytea the
    payload, for every other type its text form. *)
Definition round_trips `{PgTypes} (col : VfdwColumn) (d : Datum) : Prop :=
  if col_is_binary col then
    bytea_datum (bytea_payload d) = d ∧
    (col_is_domain col = true → domain_check (col_typid col) d = Ok ())
  else
    ∃ ok, TypeRoundTrip (col_typinput col) (col_typoutput col) (col_typioparam col) (col_typmod col) ok ∧ ok d.

Section facts.
Context `{TypeCatalog} `{PgTypes} `{Float4IO}.

(** Both directions resolve the same column's functions. *)
Lemma cached_functions tupdesc m col :
  map_wf tupdesc m → col ∈ map_cols m → col_kind col ≠ VFDW_COL_DROPPED → col_packed col = None →
  infunc_at (vfdw_row_ctx_init m) col = col_typinput col ∧
  outfunc_at (vfdw_val_ctx_init m) col = col_typoutput col.
Proof.
  intros Hwf Hc Hk Hp. apply list_elem_of_lookup in Hc as [i Hi].
  destruct (lookup_lt_is_Some_2 tupdesc i) as [a Ha].
  { rewrite <- (wf_width _ _ Hwf). by eapply lookup_lt_Some. }
  pose proof (wf_source _ _ Hwf i a col Ha Hi) as Hs.
  destruct (attisdropped a); [by destruct Hs|]. destruct Hs as [Hn _].
  unfold infunc_at, outfunc_at, vfdw_row_ctx_init, vfdw_val_ctx_init. simpl.
  replace (Z.to_nat (col_attnum col - 1)) with i by lia.
  rewrite !list_lookup_fmap, Hi. simpl. unfold cached_infunc, cached_outfunc.
  rewrite Hp, bool_decide_false by (unfold InvalidAttrNumber; lia). done.
Qed.

Lemma infunc_ctx m k tt col :
  infunc_at (RowCtx m (rc_infuncs (vfdw_row_ctx_init m)) k tt) col = infunc_at (vfdw_row_ctx_init m) col.
Proof. done. Qed.

Lemma render_decode tupdesc m col d b k tt :
  map_wf tupdesc m → col ∈ map_cols m → col_kind col ≠ VFDW_COL_DROPPED → col_packed col = None →
  col_is_binary col = true ∨ col_index_type col ≠ VFDW_INDEX_VECTOR → round_trips col d →
  vfdw_val_render_scratch (vfdw_val_ctx_init m) col d = Ok b →
  vfdw_row_datum_from_bytes (RowCtx m (rc_infuncs (vfdw_row_ctx_init m)) k tt) col b = Ok d.
Proof.
  intros Hwf Hc Hk Hp Hv Hr. destruct (cached_functions _ _ _ Hwf Hc Hk Hp) as [Hin Hout].
  unfold vfdw_val_render_scratch, vfdw_row_datum_from_bytes, round_trips in *. rewrite Hout.
  destruct (vfdw_val_check_arg_len _) as [[]|]; simpl; [|done]. intros [= <-].
  destruct (col_is_binary col).
  - unfold vfdw_row_bytea_datum. destruct Hr as [-> Hd]. destruct (col_is_domain col); [|done].
    by rewrite Hd.
  - destruct Hv as [|Hv]; [done|]. rewrite bool_decide_false by done. destruct Hr as (ok & [R1 R2 R3] & Hok).
    rewrite (R1 d Hok), (R2 d Hok). simpl. rewrite (R1 d Hok), infunc_ctx, Hin. by apply R3.
Qed.
End facts.

(** One column, both directions. *)
Lemma written_cell `{TypeCatalog} `{PgTypes} `{Float4IO} tupdesc m col d v k tt :
  map_wf tupdesc m → col ∈ map_cols m → col_packed col = None →
  col_is_binary col = true ∨ col_index_type col ≠ VFDW_INDEX_VECTOR →
  col_kind col ∈ [VFDW_COL_KEY; VFDW_COL_VALUE; VFDW_COL_MEMBER; VFDW_COL_SCORE; VFDW_COL_FIELD] →
  (col_kind col = VFDW_COL_KEY → is_Some d) → (∀ x, d = Some x → round_trips col x) →
  vfdw_val_from_slot (vfdw_val_ctx_init m) m col d = Ok v →
  store_cell (RowCtx m (rc_infuncs (vfdw_row_ctx_init m)) k tt) col v = Ok d.
Proof.
  intros Hwf Hc Hp Hv Hk Hkey Hr.
  assert (Hne : col_kind col ≠ VFDW_COL_DROPPED) by (intros E; rewrite E in Hk; set_solver).
  assert (Hrd : ∀ x b, d = Some x → vfdw_val_render_scratch (vfdw_val_ctx_init m) col x = Ok b →
    store_cell (RowCtx m (rc_infuncs (vfdw_row_ctx_init m)) k tt) col (Some b) = Ok d).
  { intros x b -> Hb. unfold store_cell.
    rewrite (render_decode _ _ _ _ _ k tt Hwf Hc Hne Hp Hv (Hr x eq_refl) Hb). done. }
  clear Hr. unfold vfdw_val_from_slot.
  destruct (col_kind col) eqn:Ek; try (exfalso; set_solver); clear Hk.
  - destruct d as [x|]; [|by destruct (Hkey eq_refl)]. unfold vfdw_val_build_key, vfdw_val_key_classify.
    destruct (map_singleton_key m) as [s|].
    + unfold vfdw_val_singleton_key. destruct (vfdw_val_render_scratch _ col x) as [g|] eqn:Eg; simpl; [|done].
      case_bool_decide as Hg; simpl; [|done]. intros [= <-]. rewrite <- Hg. by apply (Hrd x).
    + destruct (vfdw_val_render_scratch _ col x) as [b|] eqn:Eb; simpl; [|done].
      destruct (from_option _ _ _); [done|]. destruct (from_option _ _ _); [done|]. simpl.
      intros [= <-]. by apply (Hrd x).
  - destruct d as [x|]; [|done]. simpl. destruct (vfdw_val_render_scratch _ col x) as [b|] eqn:Eb; simpl; [|done].
    intros [= <-]. by apply (Hrd x).
  - destruct d as [x|]; simpl; [|by intros [= <-]].
    destruct (vfdw_val_render_scratch _ col x) as [b|] eqn:Eb; simpl; [|done].
    intros [= <-]. by apply (Hrd x).
  - destruct d as [x|]; [|done]. simpl. destruct (vfdw_val_render_scratch _ col x) as [b|] eqn:Eb; simpl; [|done].
    intros [= <-]. by apply (Hrd x).
  - destruct d as [x|]; [|done]. unfold vfdw_val_score_column.
    destruct (vfdw_val_render_scratch _ col x) as [b|] eqn:Eb; simpl; [|done].
    destruct (vfdw_val_check_score b "" "") as [[]|]; simpl; [|done]. intros [= <-]. by apply (Hrd x).
Qed.

(** C31: a value written through a key, value, member, score or field column that
    is neither packed nor indexed as a vector is the value read back through it:
    the bytes the write path renders, handed to the row builder of the same table,
    give the datum again, and a NULL field is written as no field and read as
    NULL.  Nothing is assumed of the payload of a bytea column; a value of another
    type has to survive its own output and input functions.  A vector field of a
    hash table does not read back (vector_field_of_hash_does_not_read_back). *)
Theorem written_value_reads_back `{TypeCatalog} `{PgTypes} `{Float4IO} tupdesc m col d v k tt :
  map_wf tupdesc m → col ∈ map_cols m → col_packed col = None →
  col_is_binary col = true ∨ col_index_type col ≠ VFDW_INDEX_VECTOR →
  col_kind col ∈ [VFDW_COL_KEY; VFDW_COL_VALUE; VFDW_COL_MEMBER; VFDW_COL_SCORE; VFDW_COL_FIELD] →
  (col_kind col = VFDW_COL_KEY → is_Some d) → (∀ x, d = Some x → round_trips col x) →
  vfdw_val_from_slot (vfdw_val_ctx_init m) m col d = Ok v →
  store_cell (RowCtx m (rc_infuncs (vfdw_row_ctx_init m)) k tt) col v = Ok d.
Proof. apply written_cell. Qed.

(** A key the builder lets through is the singleton key, or begins with the
    table's prefix and is not the name of its keyset; it is never absent. *)
Lemma written_key_in_scope `{PgTypes} vc m col d v :
  vfdw_val_build_key vc m col d = Ok v →
  ∃ k, v = Some k ∧
    match map_singleton_key m with
    | Some s => k = s
    | None => (∀ p, map_keyprefix m = Some p → starts_with p k = true) ∧
              (∀ ks, map_keyset m = Some ks → k ≠ ks)
    end.
Proof.
  unfold vfdw_val_build_key, vfdw_val_key_classify. destruct (map_singleton_key m) as [s|].
  - unfold vfdw_val_singleton_key. destruct col as [col|], d as [x|]; simpl;
      try (intros [= <-]; by eexists). destruct (vfdw_val_render_scratch vc col x); simpl; [|done].
    case_bool_decide; simpl; [|done]. intros [= <-]. by eexists.
  - destruct col as [col|], d as [x|]; simpl; try done.
    destruct (vfdw_val_render_scratch vc col x) as [b|]; simpl; [|done].
    destruct (from_option _ false (map_keyprefix m)) eqn:Ep; [done|].
    destruct (from_option _ false (map_keyset m)) eqn:Es; [done|]. simpl. intros [= <-].
    exists b. split; [done|]. split.
    + intros p Hp. rewrite Hp in Ep. simpl in Ep. apply negb_false_iff in Ep.
      unfold vfdw_val_has_prefix in Ep. apply andb_true_iff in Ep as [_ Ht].
      apply bool_decide_eq_true in Ht. apply starts_with_spec.
      exists (drop_bytes (String.length p) b). rewrite <- Ht at 1. by rewrite take_drop_bytes.
    + intros ks Hks ->. rewrite Hks in Es. simpl in Es. unfold vfdw_val_is_keyset in Es.
      rewrite !bool_decide_true in Es by done. done.
Qed.

#[local] Existing Instance sample_types.
#[local] Existing Instance sample_catalog.
#[local] Existing Instance sample_float4.

Definition text_datum (b : bytes) : Datum := SText b.

Lemma sample_text_round_trips col (b : bytes) :
  col_is_binary col = false → until_nul b = b → round_trips col (text_datum b).
Proof.
  intros Hb Hn. unfold round_trips. rewrite Hb.
  exists (λ d, ∃ b, d = text_datum b ∧ until_nul b = b). split; [|by exists b].
  split; intros d (x & -> & Hx); done.
Qed.

Definition sample_name_col : VfdwColumn := default zero_column (map_cols sample_map !! 1%nat).

Lemma written_value_reads_back_witness :
  vfdw_val_from_slot (vfdw_val_ctx_init sample_map) sample_map sample_name_col (Some (text_datum "ada")) = Ok (Some "ada") ∧
  store_cell (RowCtx sample_map (rc_infuncs (vfdw_row_ctx_init sample_map)) 0 None) sample_name_col (Some "ada")
  = Ok (Some (text_datum "ada")).
Proof.
  split; [vm_compute; reflexivity|].
  apply (written_value_reads_back sample_tupdesc sample_map sample_name_col (Some (text_datum "ada")) (Some "ada")).
  - exact sample_map_wf.
  - apply list_elem_of_lookup_2 with 1%nat. vm_compute. reflexivity.
  - vm_compute. reflexivity.
  - right. vm_compute. discriminate.
  - vm_compute. right. right. right. right. left.
  - vm_compute. discriminate.
  - intros x [= <-]. apply sample_text_round_trips; vm_compute; reflexivity.
  - vm_compute. reflexivity.
Defined.

(* ---------------------------------------------------------------- *)
(** ** index_type on a hash table *)

(** A hash table may declare index_type 'vector' on a field; the map is built,
    the writability rules do not mention it, and the row decoder reads the field
    as raw floats while the write path stores its text. *)
Definition vector_hash_map : result VfdwTableMap :=
  vfdw_map_build sample_parse_bool 1
    [Attribute "k" TEXTOID (-1) false []; Attribute "emb" TEXTOID (-1) false [("field", "emb"); ("index_type", "vector")]]
    [("tabletype", "hash")].

(** On a hash table a field column that declares index_type 'vector' is
    written as text and read as FLOAT32, so what is written raises when it is
    read, or comes back as other numbers. *)
Theorem vector_field_of_hash_does_not_read_back :
  ∃ m col, vector_hash_map = Ok m ∧ map_cols m !! 1%nat = Some col ∧
    let wr b := vfdw_val_from_slot (vfdw_val_ctx_init m) m col (Some (text_datum b)) in
    let rd b := store_cell (vfdw_row_ctx_init m) col (Some b) in
    wr "[1,2]" = Ok (Some "[1,2]") ∧ is_ok (rd "[1,2]") = false ∧
    wr "[1,2,34]" = Ok (Some "[1,2,34]") ∧
    rd "[1,2,34]" = Ok (Some (text_datum "[841757019,1563702060]")).
Proof.
  destruct vector_hash_map as [m|] eqn:E; [|vm_compute in E; discriminate E].
  exists m. vm_compute in E. injection E as <-. eexists. split; [reflexivity|]. split; [reflexivity|].
  vm_compute. repeat split.
Qed.
