(* ===== verification/Cluster.v ===== *)
(** The slot map of a cluster (src/vfdw_cluster.c): CLUSTER SHARDS parsed into
    the primary of every slot, the cache of maps, routing and redirects.

    int and int16 are kept at their width where the code narrows. *)
From S2P Require Import Prelude Slot Opcode Error Cmd.
Local Open Scope Z_scope.

Definition VFDW_CLUSTER_NSLOTS : Z := 16384.

Record VfdwClusterNode := ClusterNode { node_host : bytes; node_port : Z }.

#[global] Instance VfdwClusterNode_eq_dec : EqDecision VfdwClusterNode.
Proof. solve_decision. Defined.

(** owner[s] is an index into the nodes, or -1. *)
Record VfdwSlotMap := SlotMap { sm_nodes : list VfdwClusterNode; sm_owner : Z → Z }.

Definition sm_nnodes (m : VfdwSlotMap) : Z := Z.of_nat (length (sm_nodes m)).

(** Narrowing conversions. *)
Definition int32 (z : Z) : Z := (z + 2 ^ 31) `mod` 2 ^ 32 - 2 ^ 31.
Definition int16 (z : Z) : Z := (z + 2 ^ 15) `mod` 2 ^ 16 - 2 ^ 15.

Definition missing_child {A} : result A :=
  Raise (PgError ERRCODE_FDW_ERROR "a Valkey aggregate reply is missing an element it declared").

Definition reply_elements (r : Reply) : list (option Reply) := default [] (r_element r).

(** The walk over name and value pairs; the value is taken only when it is the
    one asked for. *)
Fixpoint field_loop (l : list (option Reply)) (name : bytes) : result (option Reply) :=
  match l with
  | k :: v :: rest =>
      match k with
      | None => missing_child
      | Some k =>
          if bool_decide (r_str k = Some name)
          then match v with Some v => Ok (Some v) | None => missing_child end
          else field_loop rest name
      end
  | _ => Ok None
  end.

Definition vfdw_cluster_field (agg : option Reply) (name : bytes) : result (option Reply) :=
  match agg with
  | None => Ok None
  | Some r =>
      if negb (bool_decide (r_type r = VALKEY_REPLY_ARRAY)) && negb (bool_decide (r_type r = VALKEY_REPLY_MAP))
      then Ok None
      else field_loop (reply_elements r) name
  end.

(** The index of a node, if it is there. *)
Fixpoint find_node (nodes : list VfdwClusterNode) (i : Z) (host : bytes) (port : Z) : option Z :=
  match nodes with
  | [] => None
  | n :: rest =>
      if bool_decide (node_port n = port) && bool_decide (node_host n = host) then Some i
      else find_node rest (i + 1) host port
  end.

Definition vfdw_cluster_intern (map : VfdwSlotMap) (host : bytes) (port : Z) : VfdwSlotMap * Z :=
  match find_node (sm_nodes map) 0 host port with
  | Some i => (map, i)
  | None => (SlotMap (sm_nodes map ++ [ClusterNode (until_nul host) port]) (sm_owner map), sm_nnodes map)
  end.

(** A host is usable when it has bytes. *)
Definition host_of (r : option Reply) : option bytes :=
  match r ≫= r_str with Some EmptyString => None | h => h end.

(** The address of one node of a shard when it is a primary that names one. *)
Definition primary_address (node : Reply) : result (option (bytes * Z)) :=
  role ← vfdw_cluster_field (Some node) "role";
  if negb (bool_decide (role ≫= r_str = Some "master")) then Ok None else
  endpoint ← vfdw_cluster_field (Some node) "endpoint";
  host ← match host_of endpoint with
         | Some h => Ok (Some h)
         | None => ip ← vfdw_cluster_field (Some node) "ip"; Ok (host_of ip)
         end;
  port ← vfdw_cluster_field (Some node) "port";
  match host, port with
  | Some h, Some p =>
      if bool_decide (r_type p = VALKEY_REPLY_INTEGER) then Ok (Some (h, int32 (r_integer p))) else Ok None
  | _, _ => Ok None
  end.

(** The first primary of the list. *)
Fixpoint shard_address (nodes : list (option Reply)) : result (option (bytes * Z)) :=
  match nodes with
  | [] => Ok None
  | None :: _ => missing_child
  | Some n :: rest =>
      a ← primary_address n;
      match a with Some a => Ok (Some a) | None => shard_address rest end
  end.

Definition shard_nodes (shard : Reply) : result (list (option Reply)) :=
  nodes ← vfdw_cluster_field (Some shard) "nodes";
  Ok (match nodes with
      | Some n => if bool_decide (r_type n = VALKEY_REPLY_ARRAY) then reply_elements n else []
      | None => []
      end).

Definition vfdw_cluster_shard_primary (map : VfdwSlotMap) (shard : Reply) : result (VfdwSlotMap * Z) :=
  nodes ← shard_nodes shard;
  a ← shard_address nodes;
  Ok (match a with
      | Some (host, port) => vfdw_cluster_intern map host port
      | None => (map, -1)
      end).

(** [for (s = lo; s <= hi; s++) map->owner[s] = node]. *)
Fixpoint set_range (n : nat) (s node : Z) (owner : Z → Z) : Z → Z :=
  match n with
  | O => owner
  | S n => set_range n (s + 1) node (λ x, if bool_decide (x = s) then node else owner x)
  end.

Fixpoint apply_ranges (l : list (option Reply)) (node : Z) (owner : Z → Z) : result (Z → Z) :=
  match l with
  | lo :: hi :: rest =>
      match lo, hi with
      | Some lo, Some hi =>
          let lo_i := r_integer lo in let hi_i := r_integer hi in
          if negb (bool_decide (r_type lo = VALKEY_REPLY_INTEGER))
             || negb (bool_decide (r_type hi = VALKEY_REPLY_INTEGER))
             || bool_decide (lo_i < 0) || bool_decide (VFDW_CLUSTER_NSLOTS ≤ hi_i) || bool_decide (hi_i < lo_i)
          then apply_ranges rest node owner
          else apply_ranges rest node (set_range (Z.to_nat (hi_i - lo_i + 1)) lo_i (int16 node) owner)
      | _, _ => missing_child
      end
  | _ => Ok owner
  end.

Definition vfdw_cluster_apply_slots (map : VfdwSlotMap) (shard : Reply) (node : Z) : result VfdwSlotMap :=
  slots ← vfdw_cluster_field (Some shard) "slots";
  match slots with
  | Some s =>
      if bool_decide (r_type s = VALKEY_REPLY_ARRAY)
      then owner ← apply_ranges (reply_elements s) node (sm_owner map); Ok (SlotMap (sm_nodes map) owner)
      else Ok map
  | None => Ok map
  end.

Fixpoint load_shards (shards : list (option Reply)) (map : VfdwSlotMap) : result VfdwSlotMap :=
  match shards with
  | [] => Ok map
  | None :: _ => missing_child
  | Some shard :: rest =>
      '(map, node) ← vfdw_cluster_shard_primary map shard;
      map ← (if bool_decide (0 ≤ node) then vfdw_cluster_apply_slots map shard node else Ok map);
      load_shards rest map
  end.

Definition empty_slot_map : VfdwSlotMap := SlotMap [] (λ _, -1).

Definition lift {S A} (r : result A) : M S A := λ s, (r, s).

Section load.
Context {P : Type} (serve : list bytes → P → Reply * P).

Definition cluster_load_batch : M (BatchState (P := P)) VfdwSlotMap :=
  vfdw_batch_add serve (vfdw_cmd_add_cstr (vfdw_cmd_add_cstr (vfdw_cmd_init 2) "CLUSTER") "SHARDS");;;
  (reply ← vfdw_batch_next serve;
   lift (vfdw_reply_expect reply (VFDW_RTYPE VALKEY_REPLY_ARRAY) "could not read the cluster's slot map");;;
   (map ← lift (load_shards (from_option reply_elements [] reply) empty_slot_map);
    vfdw_batch_end serve;;;
    mret map)).

Definition vfdw_cluster_load (pipeline_batch : Z) : M (Conn (P := P)) VfdwSlotMap := λ c,
  let '(r, s) := cluster_load_batch (vfdw_batch_begin pipeline_batch c) in (r, bs_conn s).

(** The cache, one entry per server and user; None is invalidated. *)
Record ClusterState := MkCluster {
  cl_maps : gmap (Z * Z) (option VfdwSlotMap);
  cl_conn : Conn (P := P);
}.

(** HASH_ENTER: an entry that is new starts without a map. *)
Definition vfdw_cluster_entry (serverid userid : Z) : M ClusterState (option VfdwSlotMap) := λ st,
  match cl_maps st !! (serverid, userid) with
  | Some m => (Ok m, st)
  | None => (Ok None, MkCluster (<[(serverid, userid) := None]> (cl_maps st)) (cl_conn st))
  end.

Definition vfdw_cluster_map (pipeline_batch serverid userid : Z) : M ClusterState VfdwSlotMap :=
  entry ← vfdw_cluster_entry serverid userid;
  match entry with
  | Some m => mret m
  | None => λ st,
      let '(r, c) := vfdw_cluster_load pipeline_batch (cl_conn st) in
      match r with
      | Ok m => (Ok m, MkCluster (<[(serverid, userid) := Some m]> (cl_maps st)) c)
      | Raise e => (Raise e, MkCluster (cl_maps st) c)
      end
  end.
End load.

Definition vfdw_cluster_invalidate (maps : gmap (Z * Z) (option VfdwSlotMap)) (serverid userid : Z)
    : gmap (Z * Z) (option VfdwSlotMap) :=
  alter (λ _, None) (serverid, userid) maps.

Definition vfdw_cluster_route (map : VfdwSlotMap) (key : bytes) : option VfdwClusterNode :=
  let owner := sm_owner map (vfdw_val_slot key) in
  if bool_decide (owner < 0) then None else sm_nodes map !! Z.to_nat owner.

Definition is_error_with (p : bytes) (r : Reply) : bool :=
  bool_decide (r_type r = VALKEY_REPLY_ERROR) &&
  match r_str r with
  | Some s => bool_decide (String.length p < String.length s)%nat && starts_with p s
  | None => false
  end.

Definition vfdw_cluster_is_redirect (reply : option Reply) : bool :=
  match reply with
  | None => false
  | Some r => is_error_with "MOVED " r || is_error_with "ASK " r
  end.

Definition vfdw_cluster_redirect_is_ask (reply : option Reply) : bool :=
  match reply with None => false | Some r => is_error_with "ASK " r end.
