(* ===== verification/ClusterFacts.v ===== *)
(** The slot map routes every key to the primary that claims its slot
    (src/vfdw_cluster.c), and a failed discovery leaves the cached maps alone. *)
From S2P Require Import Prelude Slot Opcode Error Cmd Cluster.
Local Open Scope Z_scope.

(* ---------------------------------------------------------------- *)
(** ** What a reply says

    CLUSTER SHARDS as the server documents it, a list of shards, each an aggregate
    of names and values.  Nothing here uses the parse of Cluster.v. *)

(** The value of the first pair with a name. *)
Inductive pair_of (name : bytes) (v : Reply) : list (option Reply) → Prop :=
  | pair_here k l : r_str k = Some name → pair_of name v (Some k :: Some v :: l)
  | pair_later k x l : r_str k ≠ Some name → pair_of name v l → pair_of name v (Some k :: x :: l).

Definition says (r : Reply) (name : bytes) (v : Reply) : Prop :=
  (r_type r = VALKEY_REPLY_ARRAY ∨ r_type r = VALKEY_REPLY_MAP) ∧ pair_of name v (default [] (r_element r)).
Definition says_text (r : Reply) (name s : bytes) : Prop := ∃ v, says r name v ∧ r_str v = Some s.
Definition says_list (r : Reply) (name : bytes) (l : list (option Reply)) : Prop :=
  ∃ v, says r name v ∧ r_type v = VALKEY_REPLY_ARRAY ∧ l = default [] (r_element v).

(** Where a client reaches a node: at its endpoint, or at its ip when it has none. *)
Definition reached_at (node : Reply) (host : bytes) : Prop :=
  host ≠ "" ∧
  (says_text node "endpoint" host ∨ (∀ h, says_text node "endpoint" h → h = "") ∧ says_text node "ip" host).

(** A primary is a node that says it is the master and where it is reached. *)
Definition primary_at (node : Reply) (host : bytes) (port : Z) : Prop :=
  says_text node "role" "master" ∧ reached_at node host ∧
  ∃ p, says node "port" p ∧ r_type p = VALKEY_REPLY_INTEGER ∧ port = int32 (r_integer p).

(** The first primary among the nodes of a shard. *)
Definition first_primary (nodes : list (option Reply)) (host : bytes) (port : Z) : Prop :=
  ∃ pre node post, nodes = pre ++ Some node :: post ∧ primary_at node host port ∧
    ∀ x h p, Some x ∈ pre → ¬ primary_at x h p.
Definition serves (shard : Reply) (n : VfdwClusterNode) : Prop :=
  ∃ nodes host port, says_list shard "nodes" nodes ∧ first_primary nodes host port ∧
    n = ClusterNode (until_nul host) port.

(** A slot inside one of the ranges of a shard, taken two elements at a time. *)
Inductive in_ranges (s : Z) : list (option Reply) → Prop :=
  | in_range lo hi l : r_type lo = VALKEY_REPLY_INTEGER → r_type hi = VALKEY_REPLY_INTEGER →
      0 ≤ r_integer lo ≤ s → s ≤ r_integer hi < 16384 → in_ranges s (Some lo :: Some hi :: l)
  | in_later lo hi l : in_ranges s l → in_ranges s (lo :: hi :: l).
Definition names_slot (shard : Reply) (s : Z) : Prop := ∃ l, says_list shard "slots" l ∧ in_ranges s l.

Definition claims (shard : Reply) (s : Z) (n : VfdwClusterNode) : Prop := serves shard n ∧ names_slot shard s.

(** The primary of the last shard that claims the slot. *)
Definition claimant (shards : list (option Reply)) (s : Z) (n : VfdwClusterNode) : Prop :=
  ∃ pre shard post, shards = pre ++ Some shard :: post ∧ claims shard s n ∧
    ∀ x m, Some x ∈ post → ¬ claims x s m.

(* ---------------------------------------------------------------- *)
(** ** The parse reads what the reply says *)

Lemma field_loop_spec : ∀ l name o, field_loop l name = Ok o → ∀ v, o = Some v ↔ pair_of name v l.
Proof.
  fix IH 1. intros l name o. destruct l as [|[k|] [|x l]]; cbn [field_loop]; try done;
    try (intros [= <-] v; split; [done|inversion 1]).
  case_bool_decide as Hk.
  - destruct x as [x|]; [|done]. intros [= <-] v. split; [intros [= ->]; by constructor|].
    inversion 1; subst; [done|congruence].
  - intros Hl v. rewrite (IH l name o Hl v). split; [by constructor|]. inversion 1; subst; [congruence|done].
Qed.

Lemma field_spec r name o : vfdw_cluster_field (Some r) name = Ok o → ∀ v, o = Some v ↔ says r name v.
Proof.
  unfold vfdw_cluster_field, says. destruct (bool_decide (r_type r = VALKEY_REPLY_ARRAY)) eqn:E1;
    [apply bool_decide_eq_true in E1|apply bool_decide_eq_false in E1]; cbn [negb andb].
  - intros H v. rewrite (field_loop_spec _ _ _ H v). naive_solver.
  - case_bool_decide as E2; cbn [negb].
    + intros H v. rewrite (field_loop_spec _ _ _ H v). naive_solver.
    + intros [= <-] v. naive_solver.
Qed.

Lemma field_text r name o : vfdw_cluster_field (Some r) name = Ok o → ∀ s, o ≫= r_str = Some s ↔ says_text r name s.
Proof.
  intros H s. unfold says_text. destruct o as [x|]; cbn; split.
  - intros Hs. exists x. split; [by apply (field_spec _ _ _ H)|done].
  - intros (v & Hv & Hs). apply (field_spec _ _ _ H) in Hv as [= ->]. done.
  - done.
  - intros (v & Hv & _). by apply (field_spec _ _ _ H) in Hv.
Qed.

Lemma host_of_spec r name o : vfdw_cluster_field (Some r) name = Ok o →
  ∀ s, host_of o = Some s ↔ says_text r name s ∧ s ≠ "".
Proof.
  intros H s. rewrite <- (field_text _ _ _ H). unfold host_of. destruct (o ≫= r_str) as [[|c t]|]; naive_solver.
Qed.

Lemma host_of_none r name o : vfdw_cluster_field (Some r) name = Ok o →
  host_of o = None ↔ ∀ s, says_text r name s → s = "".
Proof.
  intros H. setoid_rewrite <- (field_text _ _ _ H). unfold host_of. destruct (o ≫= r_str) as [[|c t]|]; naive_solver.
Qed.

Lemma primary_address_spec node a :
  primary_address node = Ok a → ∀ host port, a = Some (host, port) ↔ primary_at node host port.
Proof.
  unfold primary_address, primary_at, reached_at. intros H host port.
  destruct (vfdw_cluster_field (Some node) "role") as [ro|] eqn:Er; [|done]. cbn [mbind result_bind] in H.
  rewrite <- (field_text _ _ _ Er). destruct (bool_decide (ro ≫= r_str = Some "master")) eqn:Em; cbn [negb] in H;
    [apply bool_decide_eq_true in Em|apply bool_decide_eq_false in Em; injection H as <-; naive_solver].
  destruct (vfdw_cluster_field (Some node) "endpoint") as [eo|] eqn:Ee; [|done]. cbn [mbind result_bind] in H.
  pose proof (host_of_spec _ _ _ Ee) as He. pose proof (host_of_none _ _ _ Ee) as Hn.
  set (hr := match host_of eo with Some h => Ok (Some h) | None => _ end) in H.
  destruct hr as [ho|] eqn:Eh; [|done]. cbn [mbind result_bind] in H.
  assert (Hh : ∀ h, ho = Some h ↔ h ≠ "" ∧
    (says_text node "endpoint" h ∨ (∀ x, says_text node "endpoint" x → x = "") ∧ says_text node "ip" h)).
  { subst hr. intros h. destruct (host_of eo) as [e|] eqn:E.
    - injection Eh as <-. pose proof (proj1 (He e) eq_refl) as [H1 H2]. split.
      + intros [= <-]. auto.
      + intros [Hne [Ht|[Hall _]]]; [by apply He|]. by destruct H2, (Hall e).
    - destruct (vfdw_cluster_field (Some node) "ip") as [io|] eqn:Ei; [|done]. injection Eh as <-.
      rewrite (host_of_spec _ _ _ Ei). pose proof (proj1 Hn eq_refl) as Hall. naive_solver. }
  destruct (vfdw_cluster_field (Some node) "port") as [po|] eqn:Ep; [|done]. cbn [mbind result_bind] in H.
  setoid_rewrite <- (field_spec _ _ _ Ep). rewrite <- Hh.
  destruct ho as [h|], po as [p|]; try case_bool_decide; injection H as <-; naive_solver.
Qed.

Lemma shard_address_spec nodes a :
  shard_address nodes = Ok a → ∀ host port, a = Some (host, port) ↔ first_primary nodes host port.
Proof.
  revert a. induction nodes as [|[n|] nodes IH]; intros a; cbn [shard_address]; [|..|done].
  { intros [= <-] host port. split; [done|]. by intros ([|] & ? & ? & ? & _). }
  destruct (primary_address n) as [b|] eqn:E; [|done]. cbn [mbind result_bind].
  pose proof (primary_address_spec _ _ E) as Hb. intros Ha host port. destruct b as [[h p]|].
  - injection Ha as <-. split.
    + intros [= <- <-]. exists [], n, nodes. split; [done|]. split; [by apply Hb|]. by intros x ? ? ?%not_elem_of_nil.
    + intros ([|y pre] & node & post & Hl & Hp & Hno).
      * injection Hl as -> _. by apply Hb.
      * injection Hl as <- _. destruct (Hno n h p); [by left|by apply Hb].
  - rewrite (IH a Ha host port). split.
    + intros (pre & node & post & -> & Hp & Hno). exists (Some n :: pre), node, post.
      split; [done|]. split; [done|]. intros x h' p' [[= ->]|Hx]%elem_of_cons; [|by apply Hno].
      by intros ?%Hb.
    + intros ([|y pre] & node & post & Hl & Hp & Hno).
      * injection Hl as -> _. by apply Hb in Hp.
      * injection Hl as <- ->. exists pre, node, post. split; [done|]. split; [done|].
        intros x h' p' Hx. apply Hno. by right.
Qed.

(** A range of slots the server may name. *)
Definition valid_range (lo hi : Reply) : bool :=
  bool_decide (r_type lo = VALKEY_REPLY_INTEGER) && bool_decide (r_type hi = VALKEY_REPLY_INTEGER) &&
  bool_decide (0 ≤ r_integer lo) && bool_decide (r_integer hi < VFDW_CLUSTER_NSLOTS) &&
  bool_decide (r_integer lo ≤ r_integer hi).

Fixpoint covers (l : list (option Reply)) (s : Z) : bool :=
  match l with
  | Some lo :: Some hi :: rest =>
      (valid_range lo hi && bool_decide (r_integer lo ≤ s ≤ r_integer hi)) || covers rest s
  | _ => false
  end.

(* ---------------------------------------------------------------- *)
(** ** The parse *)

Definition owner_node (map : VfdwSlotMap) (s : Z) : option VfdwClusterNode :=
  if bool_decide (sm_owner map s < 0) then None else sm_nodes map !! Z.to_nat (sm_owner map s).

Definition owners_in_range (map : VfdwSlotMap) : Prop := ∀ s, sm_owner map s < sm_nnodes map.

Lemma set_range_spec n s node owner x :
  set_range n s node owner x = if bool_decide (s ≤ x < s + Z.of_nat n) then node else owner x.
Proof.
  revert s owner. induction n as [|n IH]; intros s owner; simpl.
  - by rewrite bool_decide_false by lia.
  - rewrite IH. repeat case_bool_decide; try done; lia.
Qed.

Lemma apply_ranges_spec : ∀ l node owner owner' x,
  apply_ranges l node owner = Ok owner' →
  owner' x = if covers l x then int16 node else owner x.
Proof.
  fix IH 1. intros l node owner owner' x.
  destruct l as [|[lo|] [|[hi|] l]]; cbn [apply_ranges covers]; try done; try by intros [= <-].
  set (g := _ || _ || _ || _ || _).
  assert (Hv : valid_range lo hi = negb g).
  { unfold valid_range, g. rewrite !negb_orb, !negb_involutive.
    f_equal; [f_equal; [f_equal|]|]; try (rewrite <- bool_decide_not; apply bool_decide_ext; lia). }
  rewrite Hv. destruct g; cbn [negb andb orb]; intros Ha.
  - by apply (IH l node owner owner' x).
  - rewrite (IH l _ _ _ x Ha). destruct (covers l x); [by rewrite orb_true_r|].
    rewrite orb_false_r, set_range_spec.
    assert (Hle : r_integer lo ≤ r_integer hi).
    { unfold valid_range in Hv. rewrite !andb_true_iff, !bool_decide_eq_true in Hv. by destruct_and! Hv. }
    erewrite bool_decide_ext; [reflexivity|]. lia.
Qed.

Lemma find_node_spec nodes i host port j :
  find_node nodes i host port = Some j →
  0 ≤ j - i < Z.of_nat (length nodes) ∧ nodes !! Z.to_nat (j - i) = Some (ClusterNode host port).
Proof.
  revert i. induction nodes as [|n nodes IH]; intros i; simpl; [done|].
  destruct (bool_decide (node_port n = port)) eqn:E1, (bool_decide (node_host n = host)) eqn:E2; simpl.
  1: { intros [= ->]. rewrite Z.sub_diag. split; [lia|]. apply bool_decide_eq_true in E1, E2.
       destruct n. simpl in *. by subst. }
  all: intros Hf; destruct (IH _ Hf) as [Hr Hl]; split; [lia|];
    replace (Z.to_nat (j - i)) with (S (Z.to_nat (j - (i + 1)))) by lia; done.
Qed.

(** Hosts kept in a map are C strings. *)
Definition hosts_cstr (map : VfdwSlotMap) : Prop :=
  ∀ n, n ∈ sm_nodes map → until_nul (node_host n) = node_host n.

Lemma until_nul_idemp s : until_nul (until_nul s) = until_nul s.
Proof. induction s as [|c s IH]; simpl; [done|]. case_decide; [done|]. simpl. by rewrite decide_False, IH. Qed.

Lemma intern_spec map host port map' i :
  hosts_cstr map → vfdw_cluster_intern map host port = (map', i) →
  hosts_cstr map' ∧ sm_owner map' = sm_owner map ∧
  (∃ t, sm_nodes map' = sm_nodes map ++ t ∧ (length t ≤ 1)%nat) ∧
  0 ≤ i < sm_nnodes map' ∧ sm_nodes map' !! Z.to_nat i = Some (ClusterNode (until_nul host) port).
Proof.
  intros Hh. unfold vfdw_cluster_intern. destruct (find_node (sm_nodes map) 0 host port) as [j|] eqn:E.
  - intros [= <- <-]. apply find_node_spec in E. rewrite Z.sub_0_r in E. destruct E as [Hr Hl].
    assert (Hc : until_nul host = host).
    { apply (Hh (ClusterNode host port)). by eapply list_elem_of_lookup_2. }
    split_and!; [done|done| |unfold sm_nnodes; lia..|by rewrite Hc].
    exists []. rewrite app_nil_r. split; [done|simpl; lia].
  - intros [= <- <-]. simpl. unfold sm_nnodes. simpl. rewrite length_app, Nat2Z.id. simpl. split_and!.
    + intros n [Hn| ->%list_elem_of_singleton]%elem_of_app; [by apply Hh|]. apply until_nul_idemp.
    + done.
    + eexists. split; [done|]. simpl. lia.
    + lia.
    + lia.
    + by rewrite list_lookup_middle.
Qed.

(** The invariant of the loop over the shards, after [k] of them. *)
Record parsed (k : nat) (map : VfdwSlotMap) (claim : Z → VfdwClusterNode → Prop) : Prop := {
  pa_hosts : hosts_cstr map;
  pa_count : (length (sm_nodes map) ≤ k)%nat;
  pa_range : owners_in_range map;
  pa_owner : ∀ s n, owner_node map s = Some n ↔ claim s n;
}.

Lemma int16_small z : 0 ≤ z < 32768 → int16 z = z.
Proof. intros. unfold int16. rewrite Z.mod_small by lia. lia. Qed.

(** A node appended at the end moves no owner. *)
Lemma owner_node_grow map map' t s :
  owners_in_range map → sm_owner map' = sm_owner map → sm_nodes map' = sm_nodes map ++ t →
  owner_node map' s = owner_node map s.
Proof.
  intros Hr Ho Hn. unfold owner_node. rewrite Ho, Hn. case_bool_decide; [done|].
  apply lookup_app_l. specialize (Hr s). unfold sm_nnodes in Hr. lia.
Qed.

Lemma covers_spec : ∀ l node owner owner' s,
  apply_ranges l node owner = Ok owner' → covers l s = true ↔ in_ranges s l.
Proof.
  fix IH 1. intros l node owner owner' s.
  destruct l as [|[lo|] [|[hi|] l]]; cbn [apply_ranges covers]; 
    try discriminate; try (intros _; split; [done|inversion 1]; fail).
  set (g := _ || _ || _ || _ || _). intros Ha.
  assert (Hl : covers l s = true ↔ in_ranges s l) by (destruct g; exact (IH l _ _ _ s Ha)).
  clear IH. rewrite orb_true_iff, Hl, andb_true_iff. unfold valid_range, VFDW_CLUSTER_NSLOTS.
  rewrite !andb_true_iff, !bool_decide_eq_true. split.
  - intros [?|?]; [apply in_range; naive_solver lia|by apply in_later].
  - inversion 1; subst; [left; naive_solver lia|by right].
Qed.

Lemma field_list r name o : vfdw_cluster_field (Some r) name = Ok o →
  ∀ l, says_list r name l ↔ ∃ v, o = Some v ∧ r_type v = VALKEY_REPLY_ARRAY ∧ l = reply_elements v.
Proof. intros H l. unfold says_list. by setoid_rewrite <- (field_spec _ _ _ H). Qed.

Lemma apply_slots_spec map shard node map' :
  vfdw_cluster_apply_slots map shard node = Ok map' →
  sm_nodes map' = sm_nodes map ∧
  ∀ s, (names_slot shard s ∧ sm_owner map' s = int16 node) ∨ (¬ names_slot shard s ∧ sm_owner map' s = sm_owner map s).
Proof.
  unfold vfdw_cluster_apply_slots, names_slot.
  destruct (vfdw_cluster_field (Some shard) "slots") as [o|] eqn:E; [|done]. cbn [mbind result_bind].
  setoid_rewrite (field_list _ _ _ E). destruct o as [sl|]; [|intros [= <-]; split; [done|]; right; naive_solver].
  case_bool_decide as Ht; [|intros [= <-]; split; [done|]; right; naive_solver].
  destruct (apply_ranges _ node (sm_owner map)) as [o|] eqn:Ea; [|done]. cbn [mbind result_bind]. intros [= <-].
  split; [done|]. intros s. cbn [sm_owner]. rewrite (apply_ranges_spec _ _ _ _ s Ea).
  pose proof (covers_spec _ _ _ _ s Ea) as Hc. destruct (covers _ s); [left|right]; naive_solver.
Qed.

Lemma shard_address_serves shard ns a :
  shard_nodes shard = Ok ns → shard_address ns = Ok a →
  ∀ n, serves shard n ↔ ∃ host port, a = Some (host, port) ∧ n = ClusterNode (until_nul host) port.
Proof.
  unfold shard_nodes, serves. destruct (vfdw_cluster_field (Some shard) "nodes") as [o|] eqn:E; [|done].
  cbn [mbind result_bind]. intros [= <-] Ha n. setoid_rewrite (field_list _ _ _ E).
  setoid_rewrite (shard_address_spec _ _ Ha). split.
  - intros (l & h & p & (v & -> & Ht & ->) & Hf & ->). rewrite bool_decide_true by done. by exists h, p.
  - intros (h & p & Hf & ->). destruct o as [v|]; [|by destruct Hf as ([|] & ? & ? & ? & _)].
    case_bool_decide; [|by destruct Hf as ([|] & ? & ? & ? & _)]. exists (reply_elements v), h, p. naive_solver.
Qed.

Lemma shard_step k map claim shard map1 node map2 :
  parsed k map claim → Z.of_nat k < 32767 →
  vfdw_cluster_shard_primary map shard = Ok (map1, node) →
  (if bool_decide (0 ≤ node) then vfdw_cluster_apply_slots map1 shard node else Ok map1) = Ok map2 →
  parsed (S k) map2 (λ s n, claims shard s n ∨ claim s n ∧ ∀ m, ¬ claims shard s m).
Proof.
  intros [Hh Hc Hr Ho] Hk. unfold vfdw_cluster_shard_primary, claims.
  destruct (shard_nodes shard) as [ns|] eqn:Ens; simpl; [|done].
  destruct (shard_address ns) as [a|] eqn:Ea; simpl; [|done].
  pose proof (shard_address_serves _ _ _ Ens Ea) as Hs. destruct a as [[host port]|].
  2:{ intros [= <- <-]. rewrite bool_decide_false by lia. intros [= <-].
      split; [done|lia|done|]. intros s n. rewrite Ho. naive_solver. }
  intros [= Hi]. destruct (intern_spec _ _ _ _ _ Hh Hi) as (Hh1 & Ho1 & (t & Hn1 & Ht) & Hni & Hl).
  rewrite bool_decide_true by lia. intros Ha. apply apply_slots_spec in Ha as [Hn2 Ho2].
  assert (Hlen : (length (sm_nodes map1) ≤ S k)%nat) by (rewrite Hn1, length_app; lia).
  assert (Hsm : int16 node = node) by (apply int16_small; unfold sm_nnodes in Hni; lia).
  setoid_rewrite Hsm in Ho2. split.
  - intros n. rewrite Hn2. apply Hh1.
  - by rewrite Hn2.
  - intros s. unfold sm_nnodes in *. rewrite Hn2. destruct (Ho2 s) as [[_ ->]|[_ ->]]; [lia|].
    rewrite Ho1. specialize (Hr s). unfold sm_nnodes in Hr. rewrite Hn1, length_app. lia.
  - intros s n. assert (Hsv : serves shard (ClusterNode (until_nul host) port)) by (apply Hs; eauto).
    destruct (Ho2 s) as [[Hslot Hown]|[Hslot Hown]].
    + unfold owner_node. rewrite Hown, Hn2, bool_decide_false, Hl by lia. rewrite Hs. naive_solver.
    + assert (Hsame : owner_node map2 s = owner_node map s).
      { rewrite <- (owner_node_grow map map1 t s Hr Ho1 Hn1). unfold owner_node. by rewrite Hown, Hn2. }
      rewrite Hsame, Ho. naive_solver.
Qed.

Lemma claimant_cons shard shards s n :
  claimant (Some shard :: shards) s n ↔
  claimant shards s n ∨ claims shard s n ∧ ∀ x m, Some x ∈ shards → ¬ claims x s m.
Proof.
  unfold claimant. split.
  - intros ([|y pre] & sh & post & Hl & Hc & Hno); injection Hl; intros.
    + subst. by right.
    + subst. left. by exists pre, sh, post.
  - intros [(pre & sh & post & -> & Hc & Hno)|[Hc Hno]]; [by exists (Some shard :: pre), sh, post|by exists [], shard, shards].
Qed.

Lemma load_shards_spec shards k map claim map' :
  parsed k map claim → Z.of_nat (k + length shards) ≤ 32767 → load_shards shards map = Ok map' →
  owners_in_range map' ∧
  ∀ s n, owner_node map' s = Some n ↔
    claimant shards s n ∨ claim s n ∧ ∀ x m, Some x ∈ shards → ¬ claims x s m.
Proof.
  revert k map claim. induction shards as [|[shard|] shards IH]; intros k map claim Hp Hk; simpl.
  - intros [= <-]. destruct Hp as [_ _ Hr Ho]. split; [done|]. intros s n. rewrite Ho. split.
    + intros Hc. right. split; [done|]. by intros x m ?%not_elem_of_nil.
    + intros [([|] & ? & ? & ? & _)|[? _]]; done.
  - destruct (vfdw_cluster_shard_primary map shard) as [[m1 node]|] eqn:E1; [|done].
    cbn [mbind result_bind]. set (r := if bool_decide (0 ≤ node) then _ else _).
    destruct r as [m2|] eqn:E2; [|done]. cbn [mbind result_bind]. intros Hl. simpl in Hk.
    destruct (IH (S k) m2 _ (shard_step _ _ _ _ _ _ _ Hp ltac:(lia) E1 E2) ltac:(lia) Hl) as [Hr Ho].
    split; [done|]. intros s n. rewrite Ho, claimant_cons.
    assert (Hall : (∀ x m, Some x ∈ Some shard :: shards → ¬ claims x s m) ↔
      (∀ m, ¬ claims shard s m) ∧ ∀ x m, Some x ∈ shards → ¬ claims x s m).
    { split.
      - intros H. split; [intros m; apply H; by left|]. intros x m Hx. apply H. by right.
      - intros [H1 H2] x m [[= ->]|Hx]%elem_of_cons; [apply H1|by apply H2]. }
    rewrite Hall. tauto.
  - done.
Qed.

(** C32: the slot map read from a CLUSTER SHARDS reply routes a key to the primary
    of the last shard that names its slot, and to no node when no shard with a
    primary names it.  The primary of a shard is its first node whose role is
    master, reached at its endpoint, at its ip when the endpoint is missing or
    empty, on an integer port; a node without such an address is passed over, and a
    range that runs outside the slot space or backwards names no slot.  Every owner
    is an index into the list of nodes.  That is of a reply that parses and has no
    more than 32767 shards. *)
Theorem slot_map_routes_to_claimant shards map key :
  load_shards shards empty_slot_map = Ok map → Z.of_nat (length shards) ≤ 32767 →
  (∀ n, vfdw_cluster_route map key = Some n ↔ claimant shards (vfdw_val_slot key) n) ∧
  ∀ s, sm_owner map s < sm_nnodes map.
Proof.
  intros Hl Hk.
  assert (Hp : parsed 0 empty_slot_map (λ _ _, False)).
  { split; [by intros n ?%not_elem_of_nil|done|by intros s|done]. }
  destruct (load_shards_spec shards 0 _ _ map Hp Hk Hl) as [Hr Ho]. split; [|done].
  intros n. unfold owner_node in Ho. unfold vfdw_cluster_route. rewrite Ho. tauto.
Qed.

(** A discovery that raises stores no map: what was cached stays cached, and the
    entry asked for is still to be loaded. *)
Lemma failed_load_keeps_maps {P} (serve : list bytes → P → Reply * P) pb sid uid st e st' :
  vfdw_cluster_map serve pb sid uid st = (Raise e, st') →
  (∀ k, k ≠ (sid, uid) → cl_maps st' !! k = cl_maps st !! k) ∧ cl_maps st' !! (sid, uid) = Some None.
Proof.
  unfold vfdw_cluster_map, vfdw_cluster_entry, mbind, M_bind.
  destruct (cl_maps st !! (sid, uid)) as [[m|]|] eqn:E; [done| |].
  - destruct (vfdw_cluster_load serve pb (cl_conn st)) as [[m|e'] c]; [done|].
    intros [= _ <-]. done.
  - simpl. destruct (vfdw_cluster_load serve pb (cl_conn st)) as [[m|e'] c]; [done|].
    intros [= _ <-]. simpl. split; [|by rewrite lookup_insert_eq].
    intros k Hk. by rewrite lookup_insert_ne.
Qed.

(** Invalidating an entry makes the next lookup load again. *)
Lemma invalidated_is_reloaded maps sid uid m :
  maps !! (sid, uid) = Some m → vfdw_cluster_invalidate maps sid uid !! (sid, uid) = Some None.
Proof. intros Hm. unfold vfdw_cluster_invalidate. rewrite lookup_alter_eq, Hm. done. Qed.

(* ---------------------------------------------------------------- *)
(** ** A cluster of two shards *)

Definition sample_str (s : bytes) : option Reply := Some (MkReply VALKEY_REPLY_STRING 0 (Some s) None).
Definition sample_int (i : Z) : option Reply := Some (MkReply VALKEY_REPLY_INTEGER i None None).
Definition sample_arr (l : list (option Reply)) : option Reply := Some (MkReply VALKEY_REPLY_ARRAY 0 None (Some l)).

Definition sample_node (endpoint ip role : bytes) (port : Z) : option Reply :=
  sample_arr [sample_str "id"; sample_str "x"; sample_str "port"; sample_int port; sample_str "ip"; sample_str ip;
              sample_str "endpoint"; sample_str endpoint; sample_str "role"; sample_str role].

(** The replica comes first in the first shard, whose primary has an endpoint; the
    second shard's has none, and its first range runs past the slot space. *)
Definition sample_shards : list (option Reply) :=
  [sample_arr [sample_str "slots"; sample_arr [sample_int 0; sample_int 8191];
               sample_str "nodes"; sample_arr [sample_node "" "10.0.0.9" "replica" 7009;
                                               sample_node "one.example" "10.0.0.1" "master" 7001]];
   sample_arr [sample_str "slots"; sample_arr [sample_int 8192; sample_int 16384; sample_int 12000; sample_int 16383];
               sample_str "nodes"; sample_arr [sample_node "" "10.0.0.2" "master" 7002]]].

Definition sample_slot_map : VfdwSlotMap :=
  match load_shards sample_shards empty_slot_map with Ok m => m | Raise _ => empty_slot_map end.

Lemma slot_map_routes_to_claimant_witness :
  load_shards sample_shards empty_slot_map = Ok sample_slot_map ∧
  claimant sample_shards (vfdw_val_slot "foo") (ClusterNode "10.0.0.2" 7002) ∧
  claimant sample_shards (vfdw_val_slot "bar") (ClusterNode "one.example" 7001) ∧
  ¬ claimant sample_shards (vfdw_val_slot "bar") (ClusterNode "10.0.0.1" 7001).
Proof.
  split; [reflexivity|]. split; [|split].
  - apply (slot_map_routes_to_claimant sample_shards sample_slot_map "foo"); [reflexivity| |reflexivity].
    vm_compute. discriminate.
  - apply (slot_map_routes_to_claimant sample_shards sample_slot_map "bar"); [reflexivity| |reflexivity].
    vm_compute. discriminate.
  - intros Hc. apply (slot_map_routes_to_claimant sample_shards sample_slot_map "bar") in Hc;
      [vm_compute in Hc; discriminate Hc|reflexivity|vm_compute; discriminate].
Defined.
