(* ===== verification/Scan.v ===== *)
(** The scan (src/vfdw_scan.c, vfdw_scan_cmd.c, vfdw_scan_cluster.c,
    vfdw_scan_overlay.c and vfdw_scan_open.c): pages of keys, pipelined value
    fetches, the merge with the transaction's own writes, the fan-out over a
    cluster and the chase of redirected keys.

    The connection pool and the search strategy are parameters, which Open gives
    their values; the bytes behind a truncated copy of a key are one too.  The endless
    loops of the C carry fuel. *)
From S2P Require Import Prelude Slot Opcode Option Error Cmd WriteOp Wbuf Overlay.
From S2P Require Import TableMap Ttl Vec Row ScanCmd Cluster.
Local Open Scope Z_scope.

(** What the plan, the server options and the snapshot fix for the whole scan. *)
Record ScanPlan := MkScanPlan {
  sp_map : VfdwTableMap;
  sp_strategy : VfdwScanStrategy;
  sp_pattern : option bytes;
  sp_scan_count : Z;
  sp_pipeline_batch : Z;
  sp_overlay_cid : Z;
  sp_serverid : Z;
  sp_userid : Z;
}.

Record ScanCursor := MkCursor { sc_cursor : option bytes; sc_started : bool }.
Record ScanPage := MkPage { sg_keys : list bytes; sg_next_key : nat }.
Record ScanCurrent := MkCurrent { su_reply : option Reply; su_elem : nat; su_key : bytes }.
Record ScanAnswers := MkAnswers { sa_hlen : Z; sa_member : Z; sa_ttl_ms : option (list Z) }.
Record ScanRedirect := MkRedirect {
  sr_plan_keys : list bytes; sr_redirected : list bytes; sr_passes : Z; sr_retry_pass : bool }.
Record ScanFanout := MkFanout {
  sf_fanout : bool; sf_pass_map : option VfdwSlotMap; sf_nodes : list VfdwClusterNode; sf_cur_node : Z }.
Record ScanOverlay := MkScanOverlay {
  sv_tail : bool; sv_iter : option VfdwOverlayIter; sv_seen : option (list bytes) }.
Record ScanCounters := MkCounters { sk_skipped : Z; sk_pages : Z }.

(** VfdwScanState, in parts. *)
Record VfdwScanState := ScanState {
  ss_plan : ScanPlan;
  ss_cursor : ScanCursor;
  ss_page : ScanPage;
  ss_current : ScanCurrent;
  ss_answers : ScanAnswers;
  ss_redirect : ScanRedirect;
  ss_fanout : ScanFanout;
  ss_overlay : ScanOverlay;
  ss_counters : ScanCounters;
}.

Definition with_cursor (c : ScanCursor) (s : VfdwScanState) : VfdwScanState :=
  ScanState (ss_plan s) c (ss_page s) (ss_current s) (ss_answers s) (ss_redirect s) (ss_fanout s)
    (ss_overlay s) (ss_counters s).
Definition with_page (p : ScanPage) (s : VfdwScanState) : VfdwScanState :=
  ScanState (ss_plan s) (ss_cursor s) p (ss_current s) (ss_answers s) (ss_redirect s) (ss_fanout s)
    (ss_overlay s) (ss_counters s).
Definition with_current (c : ScanCurrent) (s : VfdwScanState) : VfdwScanState :=
  ScanState (ss_plan s) (ss_cursor s) (ss_page s) c (ss_answers s) (ss_redirect s) (ss_fanout s)
    (ss_overlay s) (ss_counters s).
Definition with_answers (a : ScanAnswers) (s : VfdwScanState) : VfdwScanState :=
  ScanState (ss_plan s) (ss_cursor s) (ss_page s) (ss_current s) a (ss_redirect s) (ss_fanout s)
    (ss_overlay s) (ss_counters s).
Definition with_redirect (r : ScanRedirect) (s : VfdwScanState) : VfdwScanState :=
  ScanState (ss_plan s) (ss_cursor s) (ss_page s) (ss_current s) (ss_answers s) r (ss_fanout s)
    (ss_overlay s) (ss_counters s).
Definition with_fanout (f : ScanFanout) (s : VfdwScanState) : VfdwScanState :=
  ScanState (ss_plan s) (ss_cursor s) (ss_page s) (ss_current s) (ss_answers s) (ss_redirect s) f
    (ss_overlay s) (ss_counters s).
Definition with_overlay (o : ScanOverlay) (s : VfdwScanState) : VfdwScanState :=
  ScanState (ss_plan s) (ss_cursor s) (ss_page s) (ss_current s) (ss_answers s) (ss_redirect s) (ss_fanout s)
    o (ss_counters s).
Definition with_counters (k : ScanCounters) (s : VfdwScanState) : VfdwScanState :=
  ScanState (ss_plan s) (ss_cursor s) (ss_page s) (ss_current s) (ss_answers s) (ss_redirect s) (ss_fanout s)
    (ss_overlay s) k.

Section scan.
Context `{TypeCatalog} `{PgTypes} `{Float4IO}.
Context {P W : Type} (serve : list bytes → P → Reply * P).
(** vfdw_get_connection_node and vfdw_release_connection. *)
Context (pool_get : VfdwClusterNode → M W (Conn (P := P))) (pool_put : Conn (P := P) → W → W).
(** What a reader of the recorded length finds behind pnstrdup of a key that
    holds a NUL. *)
Context (beyond_copy : bytes → bytes).

(** The scan with everything it touches. *)
Record ScanWorld := MkScanWorld {
  sw_state : VfdwScanState;
  sw_batch : BatchState (P := P);
  sw_wbuf : Wbuf;
  sw_maps : gmap (Z * Z) (option VfdwSlotMap);
  sw_pool : W;
}.

(** A row in the slot: built from a reply, or the tuple of a buffered write. *)
Inductive ScanRow := ServerRow (slot : list (option Datum)) | BufferedRow (tup : HeapTuple).

Context (vfdw_search_next : M ScanWorld (option ScanRow)).

Definition plan : M ScanWorld ScanPlan := gets (λ w, ss_plan (sw_state w)).
Definition state {A} (f : VfdwScanState → A) : M ScanWorld A := gets (λ w, f (sw_state w)).
Definition set_state (f : VfdwScanState → VfdwScanState) : M ScanWorld unit :=
  modify (λ w, MkScanWorld (f (sw_state w)) (sw_batch w) (sw_wbuf w) (sw_maps w) (sw_pool w)).
Definition on_batch {A} (m : M (BatchState (P := P)) A) : M ScanWorld A := λ w,
  let '(r, b) := m (sw_batch w) in (r, MkScanWorld (sw_state w) b (sw_wbuf w) (sw_maps w) (sw_pool w)).
Definition throw {A} (r : result A) : M ScanWorld A := λ w, (r, w).

(* ---------------------------------------------------------------- *)
(** ** Commands of a page (src/vfdw_scan_cmd.c) *)

(** The commands of one key share one VfdwCmd, reset in between. *)
Definition queue_key (map : VfdwTableMap) (strategy : VfdwScanStrategy) (cmd : VfdwCmd) (key : bytes)
    : M (BatchState (P := P)) VfdwCmd :=
  cmd ← (if vfdw_scan_asks_membership map strategy then
           let cmd := vfdw_cmd_add_cstr (vfdw_cmd_reset cmd) "SISMEMBER" in
           let cmd := vfdw_cmd_add_bytes cmd (default "" (map_keyset map)) in
           let cmd := vfdw_cmd_add_bytes cmd key in
           vfdw_batch_add serve cmd;;; mret cmd
         else mret cmd);
  cmd ← (if map_hmget map then
           let cmd := vfdw_cmd_add_bytes (vfdw_cmd_add_cstr (vfdw_cmd_reset cmd) "HLEN") key in
           vfdw_batch_add serve cmd;;; mret cmd
         else mret cmd);
  cmd ← (if bool_decide (0 < map_nttl map)%nat then
           let cmd := vfdw_ttl_command cmd map key in
           vfdw_batch_add serve cmd;;; mret cmd
         else mret cmd);
  let cmd := vfdw_scan_value_command map cmd key in
  vfdw_batch_add serve cmd;;; mret cmd.

Fixpoint queue_keys (map : VfdwTableMap) (strategy : VfdwScanStrategy) (cmd : VfdwCmd) (keys : list bytes)
    : M (BatchState (P := P)) unit :=
  match keys with
  | [] => mret ()
  | key :: rest => cmd ← queue_key map strategy cmd key; queue_keys map strategy cmd rest
  end.

Definition vfdw_scan_queue_page : M ScanWorld unit :=
  p ← plan;
  keys ← state (λ s, sg_keys (ss_page s));
  on_batch (queue_keys (sp_map p) (sp_strategy p) (vfdw_cmd_init 4) keys).

Definition integer_of (r : option Reply) : option Z :=
  match r with
  | Some r => if bool_decide (r_type r = VALKEY_REPLY_INTEGER) then Some (r_integer r) else None
  | None => None
  end.

Definition vfdw_scan_take_replies : M ScanWorld (option Reply) :=
  p ← plan;
  let map := sp_map p in
  member ← (if vfdw_scan_asks_membership map (sp_strategy p) then
              r ← on_batch (vfdw_batch_next serve);
              mret (match integer_of r with
                    | Some i => if bool_decide (i = 0) then 0 else 1
                    | None => -1
                    end)
            else mret (-1));
  hlen ← (if map_hmget map then
            r ← on_batch (vfdw_batch_next serve); mret (default (-1) (integer_of r))
          else mret (-1));
  ttl ← (if bool_decide (0 < map_nttl map)%nat then
           r ← on_batch (vfdw_batch_next serve); mret (Some (vfdw_ttl_take map r))
         else mret None);
  set_state (with_answers (MkAnswers hlen member ttl));;;
  on_batch (vfdw_batch_next serve).

(* ---------------------------------------------------------------- *)
(** ** Pages of keys *)

Definition vfdw_scan_expect_string (elem : Reply) (what : string) : result bytes :=
  if bool_decide (r_type elem = VALKEY_REPLY_STRING) then Ok (default "" (r_str elem))
  else Raise (PgError ERRCODE_FDW_INVALID_DATA_TYPE what).

Fixpoint take_keys (l : list (option Reply)) : result (list bytes) :=
  match l with
  | [] => Ok []
  | None :: _ => missing_child
  | Some k :: rest =>
      s ← vfdw_scan_expect_string k "SCAN returned a key that is not a string";
      ks ← take_keys rest;
      Ok (s :: ks)
  end.

Definition vfdw_scan_take_page (reply : Reply) : M ScanWorld unit :=
  if negb (bool_decide (length (reply_elements reply) = 2%nat))
  then raise (PgError ERRCODE_FDW_INVALID_DATA_TYPE "SCAN returned the wrong number of elements")
  else
    old ← state (λ s, sc_cursor (ss_cursor s));
    set_state (with_cursor (MkCursor old true));;;
    (cur ← throw (vfdw_reply_child reply 0);
     cursor ← throw (vfdw_scan_expect_string cur "SCAN returned a cursor that is not a string");
     set_state (with_cursor (MkCursor (if bool_decide (cursor = "0") then None else Some (until_nul cursor)) true));;;
     (keys ← throw (vfdw_reply_child reply 1);
      if negb (bool_decide (r_type keys = VALKEY_REPLY_ARRAY))
      then raise (PgError ERRCODE_FDW_INVALID_DATA_TYPE "SCAN did not return a list of keys")
      else
        ks ← throw (take_keys (reply_elements keys));
        set_state (with_page (MkPage ks 0)))).

(* ---------------------------------------------------------------- *)
(** ** The fan-out (src/vfdw_scan_cluster.c) *)

(** Give the connection back and take the node's; the traversal starts over. *)
Definition change_connection (p : ScanPlan) (node : VfdwClusterNode) : M ScanWorld unit := λ w,
  let pool := pool_put (bs_conn (sw_batch w)) (sw_pool w) in
  match pool_get node pool with
  | (Raise e, pool) => (Raise e, MkScanWorld (sw_state w) (sw_batch w) (sw_wbuf w) (sw_maps w) pool)
  | (Ok conn, pool) =>
      (Ok (), MkScanWorld (with_cursor (MkCursor None false) (sw_state w))
                (vfdw_batch_begin (sp_pipeline_batch p) conn) (sw_wbuf w) (sw_maps w) pool)
  end.

Definition vfdw_scan_cluster_attach (n : Z) : M ScanWorld unit :=
  p ← plan;
  on_batch (vfdw_batch_end serve);;;
  (fo ← state ss_fanout;
   match sf_nodes fo !! Z.to_nat n with
   | None => raise (elog_error "no such node")
   | Some node =>
       set_state (with_fanout (MkFanout (sf_fanout fo) (sf_pass_map fo) (sf_nodes fo) n));;;
       change_connection p node
   end).

Definition vfdw_scan_cluster_advance : M ScanWorld bool :=
  fo ← state ss_fanout;
  if negb (sf_fanout fo) || bool_decide (Z.of_nat (length (sf_nodes fo)) ≤ sf_cur_node fo + 1)
  then mret false
  else vfdw_scan_cluster_attach (sf_cur_node fo + 1);;; mret true.

(** vfdw_cluster_map on the connection the scan holds. *)
Definition scan_cluster_map : M ScanWorld VfdwSlotMap := λ w,
  let p := ss_plan (sw_state w) in
  let bs := sw_batch w in
  let '(r, st) := vfdw_cluster_map serve (sp_pipeline_batch p) (sp_serverid p) (sp_userid p)
                    (MkCluster (sw_maps w) (bs_conn bs)) in
  (r, MkScanWorld (sw_state w) (MkBS (bs_batch bs) (cl_conn st)) (sw_wbuf w) (cl_maps st) (sw_pool w)).

Definition vfdw_scan_cluster_copy_nodes (map : VfdwSlotMap) : M ScanWorld unit :=
  set_state (λ s, with_fanout (MkFanout (sf_fanout (ss_fanout s)) (sf_pass_map (ss_fanout s)) (sm_nodes map)
                                 (sf_cur_node (ss_fanout s))) s).

Definition vfdw_scan_cluster_setup (is_cluster : bool) : M ScanWorld bool :=
  set_state (λ s, with_fanout (MkFanout false (sf_pass_map (ss_fanout s)) (sf_nodes (ss_fanout s)) 0) s);;;
  if negb is_cluster then mret false else
  map ← scan_cluster_map;
  vfdw_scan_cluster_copy_nodes map;;;
  set_state (λ s, with_fanout (MkFanout true (Some map) (sf_nodes (ss_fanout s)) (sf_cur_node (ss_fanout s))) s);;;
  set_state (λ s, with_redirect (MkRedirect (sr_plan_keys (ss_redirect s)) (sr_redirected (ss_redirect s)) 3
                                   (sr_retry_pass (ss_redirect s))) s);;;
  vfdw_scan_cluster_attach 0;;;
  mret true.

(** Keys the map gives to this node, and keys it gives to none. *)
Definition asked_here (map : option VfdwSlotMap) (node : VfdwClusterNode) (key : bytes) : bool :=
  match map ≫= λ m, vfdw_cluster_route m key with
  | None => true
  | Some owner => bool_decide (owner = node)
  end.

Definition vfdw_scan_cluster_keys_for_node : M ScanWorld unit :=
  s ← state id;
  let fo := ss_fanout s in
  match sf_nodes fo !! Z.to_nat (sf_cur_node fo) with
  | None => raise (elog_error "no such node")
  | Some node =>
      set_state (with_page (MkPage
        (filter (λ k, asked_here (sf_pass_map fo) node k = true) (sr_plan_keys (ss_redirect s))) 0))
  end.

Definition copy_key (key : bytes) : bytes := if occurs NUL key then beyond_copy key else key.

Definition vfdw_scan_redirected (reply : option Reply) (key : bytes) : M ScanWorld unit :=
  set_state (λ s, let r := ss_redirect s in
    with_redirect (MkRedirect (sr_plan_keys r) (sr_redirected r ++ [copy_key key]) (sr_passes r) (sr_retry_pass r)) s);;;
  if vfdw_cluster_redirect_is_ask reply then mret ()
  else modify (λ w,
    let p := ss_plan (sw_state w) in
    MkScanWorld (sw_state w) (sw_batch w) (sw_wbuf w)
      (vfdw_cluster_invalidate (sw_maps w) (sp_serverid p) (sp_userid p)) (sw_pool w)).

Definition vfdw_scan_retry_pass : M ScanWorld bool :=
  s ← state id;
  let r := ss_redirect s in
  if bool_decide (sr_redirected r = []) then mret false
  else if bool_decide (sr_passes r ≤ 0)
  then raise (PgError ERRCODE_T_R_SERIALIZATION_FAILURE "gave up following Valkey Cluster redirects")
  else
    set_state (with_redirect (MkRedirect (sr_redirected r) [] (sr_passes r - 1) true));;;
    set_state (λ s, with_cursor (MkCursor (sc_cursor (ss_cursor s)) false) s);;;
    (if sf_fanout (ss_fanout s) then
       map ← scan_cluster_map;
       set_state (λ s, with_fanout (MkFanout (sf_fanout (ss_fanout s)) (Some map) (sf_nodes (ss_fanout s))
                                      (sf_cur_node (ss_fanout s))) s);;;
       vfdw_scan_cluster_copy_nodes map;;;
       vfdw_scan_cluster_attach 0
     else mret ());;;
    mret true.

(** [while (!state->started || state->fanout)]: at most once per node. *)
Fixpoint keys_page_loop (fuel : nat) : M ScanWorld bool :=
  match fuel with
  | O => raise (elog_error "out of fuel")
  | S n =>
      s ← state id;
      let started := sc_started (ss_cursor s) in
      let fanout := sf_fanout (ss_fanout s) in
      if negb (negb started || fanout) then mret false
      else
        more ← (if started then vfdw_scan_cluster_advance else mret true);
        if negb more then mret false else
        set_state (λ s, with_cursor (MkCursor (sc_cursor (ss_cursor s)) true) s);;;
        (if fanout then vfdw_scan_cluster_keys_for_node
         else set_state (λ s, with_page (MkPage (sr_plan_keys (ss_redirect s)) 0) s));;;
        (nkeys ← state (λ s, length (sg_keys (ss_page s)));
         if bool_decide (0 < nkeys)%nat then vfdw_scan_queue_page;;; mret true
         else keys_page_loop n)
  end.

Definition vfdw_scan_keys_page : M ScanWorld bool :=
  s ← state id;
  if bool_decide (sr_plan_keys (ss_redirect s) = []) then mret false
  else keys_page_loop (2 + length (sf_nodes (ss_fanout s))).
(* ---------------------------------------------------------------- *)
(** ** Refilling *)

Definition vfdw_scan_next_page : M ScanWorld bool :=
  p ← plan;
  c ← state ss_cursor;
  more ← (if sc_started c && bool_decide (sc_cursor c = None) then vfdw_scan_cluster_advance else mret true);
  if negb more then mret false else
  set_state (with_page (MkPage [] 0));;;
  (c ← state ss_cursor;
   let from := if sc_started c then default "" (sc_cursor c) else "0" in
   on_batch (vfdw_batch_add serve (vfdw_scan_build_scan (sp_map p) from (sp_pattern p) (sp_scan_count p)));;;
   set_state (λ s, with_counters (MkCounters (sk_skipped (ss_counters s)) (sk_pages (ss_counters s) + 1)) s);;;
   (reply ← on_batch (vfdw_batch_next serve);
    throw (vfdw_reply_expect reply (VFDW_RTYPE VALKEY_REPLY_ARRAY) "SCAN failed");;;
    match reply with
    | Some r => vfdw_scan_take_page r;;; mret true
    | None => mret true
    end)).

Definition retry_and_page : M ScanWorld bool :=
  again ← vfdw_scan_retry_pass;
  if (again : bool) then vfdw_scan_keys_page else mret false.

Fixpoint next_pages (fuel : nat) : M ScanWorld bool :=
  match fuel with
  | O => raise (elog_error "out of fuel")
  | S n =>
      more ← vfdw_scan_next_page;
      if negb more then retry_and_page else
      nkeys ← state (λ s, length (sg_keys (ss_page s)));
      if bool_decide (0 < nkeys)%nat then vfdw_scan_queue_page;;; mret true else next_pages n
  end.

Definition vfdw_scan_refill (fuel : nat) : M ScanWorld bool :=
  p ← plan;
  retry ← state (λ s, sr_retry_pass (ss_redirect s));
  if retry || negb (bool_decide (sp_strategy p = VFDW_SCAN_KEYSPACE)) then
    page ← vfdw_scan_keys_page;
    if (page : bool) then mret true else retry_and_page
  else next_pages fuel.

(* ---------------------------------------------------------------- *)
(** ** One reply *)

Definition vfdw_scan_note_redirect (reply : Reply) (key : bytes) : M ScanWorld unit :=
  if vfdw_cluster_is_redirect (Some reply) then vfdw_scan_redirected (Some reply) key else mret ().

Definition vfdw_scan_reply_is_skippable (reply : Reply) : bool :=
  bool_decide (r_type reply = VALKEY_REPLY_NIL) || vfdw_cluster_is_redirect (Some reply)
  || vfdw_reply_has_prefix (Some reply) "WRONGTYPE".

Definition vfdw_scan_expect_value (map : VfdwTableMap) (reply : Reply) : result unit :=
  let allowed :=
    if bool_decide (map_tabletype map = VFDW_TABLE_STRING) then VFDW_RTYPE VALKEY_REPLY_STRING
    else Z.lor (Z.lor (VFDW_RTYPE VALKEY_REPLY_ARRAY) (VFDW_RTYPE VALKEY_REPLY_MAP)) (VFDW_RTYPE VALKEY_REPLY_SET) in
  vfdw_reply_expect (Some reply) allowed "could not read a value from Valkey".

Definition vfdw_scan_reply_is_absent (map : VfdwTableMap) (hlen : Z) (reply : Reply) : bool :=
  if bool_decide (map_tabletype map = VFDW_TABLE_STRING) then false
  else if negb (bool_decide (r_type reply = VALKEY_REPLY_ARRAY)) && negb (bool_decide (r_type reply = VALKEY_REPLY_MAP))
          && negb (bool_decide (r_type reply = VALKEY_REPLY_SET)) then false
  else if map_hmget map then bool_decide (hlen = 0)
  else bool_decide (length (elements reply) = 0%nat).

Definition vfdw_scan_produces_nothing (map : VfdwTableMap) (a : ScanAnswers) (reply : Reply) : bool :=
  bool_decide (sa_member a = 0) || vfdw_scan_reply_is_skippable reply
  || vfdw_scan_reply_is_absent map (sa_hlen a) reply.

(** The row context of the current key. *)
Definition row_ctx (p : ScanPlan) (a : ScanAnswers) (elem : nat) : VfdwRowCtx :=
  RowCtx (sp_map p) (rc_infuncs (vfdw_row_ctx_init (sp_map p))) elem
    (match sa_ttl_ms a with Some t => Some t | None => rc_ttl_ms (vfdw_row_ctx_init (sp_map p)) end).

Definition vfdw_scan_emit_member (reply : Reply) : M ScanWorld (option ScanRow) :=
  p ← plan;
  s ← state id;
  let cur := ss_current s in
  if bool_decide (length (elements reply) ≤ su_elem cur)%nat then
    set_state (with_current (MkCurrent None (su_elem cur) (su_key cur)));;; mret None
  else
    stride ← throw (vfdw_scan_member_stride (map_tabletype (sp_map p)) reply);
    slot ← throw (vfdw_scan_fill (row_ctx p (ss_answers s) (su_elem cur)) (su_key cur) reply);
    set_state (with_current (MkCurrent (su_reply cur) (su_elem cur + stride) (su_key cur)));;;
    mret (Some (ServerRow slot)).

Definition vfdw_scan_take_collection (key : bytes) (reply : Reply) : M ScanWorld unit :=
  set_state (with_current (MkCurrent (Some reply) 0 key)).

(* ---------------------------------------------------------------- *)
(** ** The transaction's own writes (src/vfdw_scan_overlay.c) *)

Definition set_wbuf (b : Wbuf) : M ScanWorld unit :=
  modify (λ w, MkScanWorld (sw_state w) (sw_batch w) b (sw_maps w) (sw_pool w)).

Definition vfdw_scan_mark_seen (key : bytes) : M ScanWorld unit :=
  b ← gets sw_wbuf;
  if negb (vfdw_overlay_active b) then mret () else
  set_state (λ s, let o := ss_overlay s in
    with_overlay (MkScanOverlay (sv_tail o) (sv_iter o)
      (Some (let seen := default [] (sv_seen o) in
             if bool_decide (key ∈ seen) then seen else seen ++ [key]))) s).

Definition vfdw_scan_already_seen (s : VfdwScanState) (key : bytes) : bool :=
  match sv_seen (ss_overlay s) with None => false | Some seen => bool_decide (key ∈ seen) end.

(** The loop of vfdw_scan_inject; every pass takes one step of the iterator. *)
Fixpoint inject_loop (fuel : nat) : M ScanWorld (option ScanRow) :=
  match fuel with
  | O => raise (elog_error "out of fuel")
  | S n =>
      w ← get;
      let o := ss_overlay (sw_state w) in
      match sv_iter o with
      | None => mret None
      | Some it =>
          let '(found, it, b) := vfdw_overlay_iter_next it (sw_wbuf w) in
          set_wbuf b;;;
          set_state (with_overlay (MkScanOverlay (sv_tail o) (Some it) (sv_seen o)));;;
          match found with
          | None => mret None
          | Some (tup, key) =>
              s ← state id;
              if vfdw_scan_already_seen s key then inject_loop n
              else vfdw_scan_mark_seen key;;; mret (Some (BufferedRow tup))
          end
      end
  end.

Definition vfdw_scan_inject : M ScanWorld (option ScanRow) :=
  b ← gets sw_wbuf; inject_loop (2 + size (wb_heap b)).

Definition vfdw_scan_apply_overlay (key : bytes) : M ScanWorld (VfdwOverlayVerdict * option ScanRow) :=
  p ← plan;
  b ← gets sw_wbuf;
  if negb (vfdw_overlay_active b) then mret (VFDW_OVL_PASS, None) else
  let '((v, tup), b) := vfdw_overlay_check (map_relid (sp_map p)) key (sp_overlay_cid p) b in
  set_wbuf b;;;
  vfdw_scan_mark_seen key;;;
  mret (v, match v with VFDW_OVL_REPLACE => BufferedRow <$> tup | _ => None end).

Definition vfdw_scan_drain_tail : M ScanWorld (option ScanRow) :=
  p ← plan;
  b ← gets sw_wbuf;
  if negb (vfdw_overlay_active b) then mret None else
  o ← state ss_overlay;
  when (negb (sv_tail o))
    (set_state (with_overlay (MkScanOverlay true
       (Some (vfdw_overlay_iter_init (map_relid (sp_map p)) (sp_overlay_cid p) b)) (sv_seen o))));;;
  vfdw_scan_inject.

Definition vfdw_scan_seen_reset : M ScanWorld unit :=
  set_state (λ s, with_overlay (MkScanOverlay (sv_tail (ss_overlay s)) (sv_iter (ss_overlay s)) None) s).

(* ---------------------------------------------------------------- *)
(** ** The producer *)

Definition vfdw_scan_one_key (key : bytes) (reply : Reply) : M ScanWorld (option ScanRow) :=
  p ← plan;
  v ← vfdw_scan_apply_overlay key;
  match v with
  | (VFDW_OVL_REPLACE, row) => mret row
  | (VFDW_OVL_HIDE, _) => mret None
  | (VFDW_OVL_PASS, _) =>
      vfdw_scan_note_redirect reply key;;;
      (s ← state id;
       if vfdw_scan_produces_nothing (sp_map p) (ss_answers s) reply then
         set_state (λ s, with_counters (MkCounters (sk_skipped (ss_counters s) + 1) (sk_pages (ss_counters s))) s);;;
         mret None
       else
         throw (vfdw_scan_expect_value (sp_map p) reply);;;
         if vfdw_scan_is_multirow (sp_map p) then vfdw_scan_take_collection key reply;;; mret None
         else
           slot ← throw (vfdw_scan_fill (row_ctx p (ss_answers s) 0) key reply);
           mret (Some (ServerRow slot)))
  end.

(** [for (;;)] of vfdw_scan_fetch. *)
Fixpoint fetch_loop (fuel : nat) : M ScanWorld (option ScanRow) :=
  match fuel with
  | O => raise (elog_error "out of fuel")
  | S n =>
      s ← state id;
      member ← (match su_reply (ss_current s) with
                | Some reply => vfdw_scan_emit_member reply
                | None => mret None
                end);
      match member with
      | Some row => mret (Some row)
      | None =>
          s ← state id;
          match sg_keys (ss_page s) !! sg_next_key (ss_page s) with
          | None =>
              more ← vfdw_scan_refill n;
              if (more : bool) then fetch_loop n else vfdw_scan_drain_tail
          | Some key =>
              set_state (with_page (MkPage (sg_keys (ss_page s)) (S (sg_next_key (ss_page s)))));;;
              (reply ← vfdw_scan_take_replies;
               match reply with
               | None => mret None
               | Some reply =>
                   row ← vfdw_scan_one_key key reply;
                   match row with Some r => mret (Some r) | None => fetch_loop n end
               end)
          end
      end
  end.

Definition vfdw_scan_fetch (fuel : nat) : M ScanWorld (option ScanRow) :=
  p ← plan;
  if bool_decide (sp_strategy p = VFDW_SCAN_KNN) then vfdw_search_next else fetch_loop fuel.

(* ---------------------------------------------------------------- *)
(** ** Opening, rescanning, closing (src/vfdw_scan_open.c) *)

(** The key of a parameterised scan, evaluated for this pass. *)
Definition vfdw_scan_param_refresh (value : option bytes) : M ScanWorld unit :=
  p ← plan;
  let keys :=
    match value with
    | None => []
    | Some key => if from_option (λ pre, starts_with pre key) true (map_keyprefix (sp_map p)) then [key] else []
    end in
  set_state (λ s, let r := ss_redirect s in
    with_redirect (MkRedirect keys (sr_redirected r) (sr_passes r) (sr_retry_pass r)) s).

Definition vfdw_scan_set_keys (keys : list bytes) : M ScanWorld unit :=
  set_state (λ s, let r := ss_redirect s in
    with_redirect (MkRedirect (until_nul <$> keys) (sr_redirected r) (sr_passes r) (sr_retry_pass r)) s).

(** The state a scan starts from, its batch begun on the connection given. *)
Definition fresh_state (p : ScanPlan) : VfdwScanState :=
  ScanState p (MkCursor None false) (MkPage [] 0) (MkCurrent None 0 "") (MkAnswers (-1) (-1) None)
    (MkRedirect [] [] 0 false) (MkFanout false None [] 0) (MkScanOverlay false None None) (MkCounters 0 0).

Definition open_world (p : ScanPlan) (conn : Conn (P := P)) (b : Wbuf)
    (maps : gmap (Z * Z) (option VfdwSlotMap)) (pool : W) : ScanWorld :=
  MkScanWorld (fresh_state p) (vfdw_batch_begin (sp_pipeline_batch p) conn) b maps pool.

(** A new batch on the same connection. *)
Definition rebegin_batch (p : ScanPlan) : M ScanWorld unit :=
  modify (λ w, MkScanWorld (sw_state w) (vfdw_batch_begin (sp_pipeline_batch p) (bs_conn (sw_batch w)))
                 (sw_wbuf w) (sw_maps w) (sw_pool w)).

(** [param] is the value the key expression has for this outer row. *)
Definition vfdw_scan_rescan (param : option bytes) : M ScanWorld unit :=
  p ← plan;
  on_batch (vfdw_batch_end serve);;;
  set_state (with_cursor (MkCursor None false));;;
  set_state (with_page (MkPage [] 0));;;
  vfdw_scan_seen_reset;;;
  set_state (λ s, with_overlay (MkScanOverlay false (sv_iter (ss_overlay s)) (sv_seen (ss_overlay s))) s);;;
  set_state (λ s, with_current (MkCurrent None 0 (su_key (ss_current s))) s);;;
  set_state (with_counters (MkCounters 0 0));;;
  rebegin_batch p;;;
  when (bool_decide (sp_strategy p = VFDW_SCAN_KEY_PARAM)) (vfdw_scan_param_refresh param).

Definition vfdw_scan_end : M ScanWorld unit :=
  on_batch (vfdw_batch_end serve);;;
  modify (λ w, MkScanWorld (sw_state w) (sw_batch w) (sw_wbuf w) (sw_maps w)
                 (pool_put (bs_conn (sw_batch w)) (sw_pool w))).

(** The executor's loop: rows until the slot comes back empty. *)
Fixpoint scan_rows (calls fuel : nat) : M ScanWorld (list ScanRow) :=
  match calls with
  | O => raise (elog_error "out of fuel")
  | S n =>
      r ← vfdw_scan_fetch fuel;
      match r with
      | None => mret []
      | Some row => rows ← scan_rows n fuel; mret (row :: rows)
      end
  end.
End scan.
