(* ===== verification/ScanFacts.v ===== *)
(** What a scan returns of one server, or of one node of a fan-out (src/vfdw_scan.c,
    vfdw_scan_cmd.c): the rows of every key its pages name, in order, nothing else. *)
From S2P Require Import Prelude Opcode Option Error Cmd CmdFacts WriteOp Wbuf Overlay.
From S2P Require Import TableMap TableMapFacts Ttl Vec Row ScanCmd RowFacts Cluster Scan.
Local Open Scope Z_scope.

(* ---------------------------------------------------------------- *)
(** ** The commands do not depend on the vector they reuse *)

Definition same_cmd (c c' : VfdwCmd) : Prop := cmd_wf c ∧ cmd_wf c' ∧ cmd_args c = cmd_args c'.

Lemma same_reset c c' : cmd_wf c → cmd_wf c' → same_cmd (vfdw_cmd_reset c) (vfdw_cmd_reset c').
Proof.
  intros Hc Hc'. destruct (reset_wf c Hc) as [? E]. destruct (reset_wf c' Hc') as [? E'].
  split_and!; [done..|]. by rewrite E, E'.
Qed.

Lemma same_add c c' v : same_cmd c c' → same_cmd (vfdw_cmd_add_bytes c v) (vfdw_cmd_add_bytes c' v).
Proof.
  intros (Hc & Hc' & E). destruct (add_bytes_wf c v Hc) as [? A]. destruct (add_bytes_wf c' v Hc') as [? A'].
  split_and!; [done..|]. by rewrite A, A', E.
Qed.

Lemma same_add_cstr c c' v : same_cmd c c' → same_cmd (vfdw_cmd_add_cstr c v) (vfdw_cmd_add_cstr c' v).
Proof. apply same_add. Qed.

Lemma same_hash_fields cols c c' :
  same_cmd c c' → same_cmd (add_hash_fields cols c) (add_hash_fields cols c').
Proof.
  intros (Hc & Hc' & E). destruct (add_hash_fields_args cols c Hc) as [? A].
  destruct (add_hash_fields_args cols c' Hc') as [? A']. split_and!; [done..|]. by rewrite A, A', E.
Qed.

#[local] Hint Resolve same_reset same_add same_add_cstr same_hash_fields : vfdw.

Lemma cmd_init_wf n : 0 < n → cmd_wf (vfdw_cmd_init n).
Proof. intros Hn. split; [done|]. unfold cmd_argc. simpl. lia. Qed.

Lemma same_value_command map c c' key :
  cmd_wf c → cmd_wf c' → same_cmd (vfdw_scan_value_command map c key) (vfdw_scan_value_command map c' key).
Proof.
  intros Hc Hc'. unfold vfdw_scan_value_command, vfdw_scan_hash_command.
  repeat case_match; auto 10 with vfdw.
Qed.

(* ---------------------------------------------------------------- *)
(** ** The reference: what one key contributes *)

Section reference.
Context `{TypeCatalog} `{PgTypes} `{Float4IO}.
(** How the server answers a command, and the scan. *)
Context (answer : list bytes → Reply) (p : ScanPlan).

Definition membership_request (key : bytes) : list bytes := ["SISMEMBER"; default "" (map_keyset (sp_map p)); key].
Definition length_request (key : bytes) : list bytes := ["HLEN"; key].
Definition ttl_request (key : bytes) : list bytes := cmd_args (vfdw_ttl_command (vfdw_cmd_init 4) (sp_map p) key).
Definition value_request (key : bytes) : list bytes :=
  cmd_args (vfdw_scan_value_command (sp_map p) (vfdw_cmd_init 4) key).

Definition asks_membership : bool := vfdw_scan_asks_membership (sp_map p) (sp_strategy p).
Definition asks_length : bool := map_hmget (sp_map p).
Definition asks_ttl : bool := bool_decide (0 < map_nttl (sp_map p))%nat.

Definition only (b : bool) (r : Reply) : list Reply := if b then [r] else [].

(** The replies one key is owed, in the order they are queued. *)
Definition key_replies (key : bytes) : list Reply :=
  only asks_membership (answer (membership_request key)) ++ only asks_length (answer (length_request key))
  ++ only asks_ttl (answer (ttl_request key)) ++ [answer (value_request key)].

(** What the side questions answered. *)
Definition key_answers (key : bytes) : ScanAnswers :=
  MkAnswers
    (if asks_length then default (-1) (integer_of (Some (answer (length_request key)))) else -1)
    (if asks_membership then match integer_of (Some (answer (membership_request key))) with
                             | Some i => if bool_decide (i = 0) then 0 else 1
                             | None => -1
                             end else -1)
    (if asks_ttl then Some (vfdw_ttl_take (sp_map p) (Some (answer (ttl_request key)))) else None).

(** One row of a list, set or sorted set per member: [n] members of [stride]
    elements each, from the element [at]. *)
Fixpoint member_rows (n stride at_ : nat) (key : bytes) (reply : Reply) : result (list ScanRow) :=
  match n with
  | O => Ok []
  | S n =>
      slot ← vfdw_scan_fill (row_ctx p (key_answers key) at_) key reply;
      rows ← member_rows n stride (at_ + stride) key reply;
      Ok (ServerRow slot :: rows)
  end.

Definition member_count (reply : Reply) (stride : nat) : nat :=
  ((length (elements reply) + stride - 1) / stride)%nat.

(** The rows of one key: none for a key that is gone, was never a member or has
    another type; one per member of a collection; one otherwise. *)
Definition key_rows (key : bytes) : result (list ScanRow) :=
  let reply := answer (value_request key) in
  if vfdw_scan_produces_nothing (sp_map p) (key_answers key) reply then Ok []
  else
    _ ← vfdw_scan_expect_value (sp_map p) reply;
    if vfdw_scan_is_multirow (sp_map p) then
      stride ← vfdw_scan_member_stride (map_tabletype (sp_map p)) reply;
      member_rows (member_count reply stride) stride 0 key reply
    else
      slot ← vfdw_scan_fill (row_ctx p (key_answers key) 0) key reply;
      Ok [ServerRow slot].

(** One page of a traversal, and a traversal from a cursor to the end. *)
Definition page_reply (next : bytes) (keys : list bytes) : Reply :=
  array_reply [string_reply next; array_reply (string_reply <$> keys)].

Definition scan_request (cursor : bytes) : list bytes :=
  cmd_args (vfdw_scan_build_scan (sp_map p) cursor (sp_pattern p) (sp_scan_count p)).

Inductive Pages : bytes → list (list bytes) → Prop :=
  | pages_last c keys : answer (scan_request c) = page_reply "0" keys → Pages c [keys]
  | pages_more c next keys rest :
      answer (scan_request c) = page_reply next keys → next ≠ "0" →
      Pages (until_nul next) rest → Pages c (keys :: rest).
End reference.

(* ---------------------------------------------------------------- *)
(** ** Queueing and taking the replies of a page *)

Section run.
Context `{TypeCatalog} `{PgTypes} `{Float4IO}.
Context {P W : Type} (serve : list bytes → P → Reply * P) (peer : P).
Context (pool_get : VfdwClusterNode → M W (Conn (P := P))) (pool_put : Conn (P := P) → W → W).
Context (beyond_copy : bytes → bytes) (vfdw_search_next : M (ScanWorld (P := P) (W := W)) (option ScanRow)).
(** A peer whose keyspace stays as it is while the scan reads it. *)
Hypothesis unmoved : ∀ c, (serve c peer).2 = peer.
Context (p : ScanPlan).

Abbreviation answer := (λ c, (serve c peer).1).
Abbreviation owed := (owes serve peer).

Lemma queue_optional (b : bool) cmd cmd' args s rs :
  cmd_wf cmd → cmd_wf cmd' → cmd_args cmd' = args → owed s rs →
  ∃ cmd'' s', (if b then vfdw_batch_add serve cmd';;; mret cmd' else mret cmd) s = (Ok cmd'', s') ∧
    cmd_wf cmd'' ∧ owed s' (rs ++ only b (answer args)).
Proof using unmoved.
  intros Hc Hc' <- Ho. destruct b; simpl only.
  - destruct (add_owes serve peer unmoved cmd' s rs Ho) as (s' & E & Ho').
    exists cmd', s'. unfold mbind, M_bind. by rewrite E.
  - exists cmd, s. by rewrite app_nil_r.
Qed.

Lemma queue_key_owes cmd key s rs :
  cmd_wf cmd → owed s rs →
  ∃ cmd' s', queue_key serve (sp_map p) (sp_strategy p) cmd key s = (Ok cmd', s') ∧ cmd_wf cmd' ∧
    owed s' (rs ++ key_replies answer p key).
Proof using unmoved.
  intros Hc Ho. unfold queue_key, vfdw_cmd_add_cstr. cbv zeta.
  destruct (reset_wf cmd Hc) as [W0 A0]. destruct (add_bytes_wf _ (until_nul "SISMEMBER") W0) as [W1 A1].
  destruct (add_bytes_wf _ (default "" (map_keyset (sp_map p))) W1) as [W2 A2].
  destruct (add_bytes_wf _ key W2) as [W3 A3]. rewrite A2, A1, A0 in A3.
  destruct (queue_optional (asks_membership p) cmd _ _ s rs Hc W3 A3 Ho) as (c1 & s1 & E1 & Hc1 & Ho1).
  unfold mbind at 1, M_bind at 1. unfold asks_membership in E1. rewrite E1.
  destruct (reset_wf c1 Hc1) as [V0 B0]. destruct (add_bytes_wf _ (until_nul "HLEN") V0) as [V1 B1].
  destruct (add_bytes_wf _ key V1) as [V2 B2]. rewrite B1, B0 in B2.
  destruct (queue_optional (asks_length p) c1 _ _ s1 _ Hc1 V2 B2 Ho1) as (c2 & s2 & E2 & Hc2 & Ho2).
  unfold mbind at 1, M_bind at 1. unfold asks_length in E2. rewrite E2.
  destruct (ttl_command_args c2 (sp_map p) key Hc2) as [U0 C0].
  destruct (ttl_command_args (vfdw_cmd_init 4) (sp_map p) key (cmd_init_wf 4 eq_refl)) as [_ C1]. rewrite <- C1 in C0.
  destruct (queue_optional (asks_ttl p) c2 _ _ s2 _ Hc2 U0 C0 Ho2) as (c3 & s3 & E3 & Hc3 & Ho3).
  unfold mbind at 1, M_bind at 1. unfold asks_ttl in E3. rewrite E3.
  destruct (same_value_command (sp_map p) c3 (vfdw_cmd_init 4) key Hc3 (cmd_init_wf 4 eq_refl)) as (T0 & _ & D0).
  destruct (add_owes serve peer unmoved (vfdw_scan_value_command (sp_map p) c3 key) s3 _ Ho3) as (s4 & E4 & Ho4).
  eexists _, s4. unfold mbind, M_bind. rewrite E4. split; [done|]. split; [done|].
  rewrite D0 in Ho4. unfold key_replies. rewrite <- !app_assoc in Ho4. exact Ho4.
Qed.

Lemma queue_keys_owes keys cmd s rs :
  cmd_wf cmd → owed s rs →
  ∃ s', queue_keys serve (sp_map p) (sp_strategy p) cmd keys s = (Ok (), s') ∧
    owed s' (rs ++ concat (key_replies answer p <$> keys)).
Proof using unmoved.
  revert cmd s rs. induction keys as [|key keys IH]; intros cmd s rs Hc Ho.
  { exists s. split; [done|]. by rewrite app_nil_r. }
  destruct (queue_key_owes cmd key s rs Hc Ho) as (c1 & s1 & E1 & Hc1 & Ho1).
  destruct (IH c1 s1 _ Hc1 Ho1) as (s2 & E2 & Ho2). exists s2. cbn [queue_keys].
  unfold mbind, M_bind. rewrite E1. split; [done|]. rewrite fmap_cons. cbn [concat].
  by rewrite app_assoc.
Qed.

Abbreviation World := (ScanWorld (P := P) (W := W)).
Definition world_batch (b : BatchState (P := P)) (w : World) : World :=
  MkScanWorld (sw_state w) b (sw_wbuf w) (sw_maps w) (sw_pool w).
Definition world_state (f : VfdwScanState → VfdwScanState) (w : World) : World :=
  MkScanWorld (f (sw_state w)) (sw_batch w) (sw_wbuf w) (sw_maps w) (sw_pool w).

Lemma take_optional {A} (b : bool) (f : option Reply → A) (d : A) r rs (w : World) :
  owed (sw_batch w) (only b r ++ rs) →
  ∃ s', (if b then r ← on_batch (vfdw_batch_next serve); mret (f r) else mret d) w =
    (Ok (if b then f (Some r) else d), world_batch s' w) ∧ owed s' rs.
Proof.
  intros Ho. destruct b; simpl in *.
  - destruct (next_owes serve peer (sw_batch w) r rs Ho) as (s' & E & Ho').
    exists s'. unfold mbind, M_bind, on_batch. by rewrite E.
  - exists (sw_batch w). by destruct w.
Qed.

Lemma take_replies_owes key rs (w : World) :
  ss_plan (sw_state w) = p → owed (sw_batch w) (key_replies answer p key ++ rs) →
  ∃ s', vfdw_scan_take_replies serve w =
    (Ok (Some (answer (value_request p key))),
     world_batch s' (world_state (with_answers (key_answers answer p key)) w)) ∧ owed s' rs.
Proof.
  intros Hp Ho. unfold vfdw_scan_take_replies, plan. rewrite gets_bind, Hp. cbv zeta.
  unfold key_replies in Ho. rewrite <- !app_assoc in Ho.
  unfold mbind at 1, M_bind at 1.
  destruct (take_optional (asks_membership p) (λ r, match integer_of r with
    | Some i => if bool_decide (i = 0) then 0 else 1 | None => -1 end) (-1) _ _ w Ho) as (s1 & E1 & Ho1).
  unfold asks_membership in E1 at 1. rewrite E1. unfold mbind at 1, M_bind at 1.
  destruct (take_optional (asks_length p) (λ r, default (-1) (integer_of r)) (-1) _ _ (world_batch s1 w) Ho1)
    as (s2 & E2 & Ho2).
  unfold asks_length in E2 at 1. rewrite E2. unfold mbind at 1, M_bind at 1.
  destruct (take_optional (asks_ttl p) (λ r, Some (vfdw_ttl_take (sp_map p) r)) None _ _ (world_batch s2 w) Ho2)
    as (s3 & E3 & Ho3).
  unfold asks_ttl in E3 at 1. unfold world_batch in E3 |- *. cbn [sw_state sw_batch sw_wbuf sw_maps sw_pool] in *.
  rewrite E3. unfold set_state. rewrite modify_bind. cbn [sw_state sw_batch sw_wbuf sw_maps sw_pool].
  destruct (next_owes serve peer s3 _ rs Ho3) as (s4 & E4 & Ho4). exists s4.
  unfold on_batch. cbn [sw_state sw_batch sw_wbuf sw_maps sw_pool]. by rewrite E4.
Qed.
(* ---------------------------------------------------------------- *)
(** ** The scan between two rows *)

(** Where the fan-out stands, the rows of the nodes behind this one, and the fuel
    they take. *)
Context (fo : ScanFanout) (behind : list ScanRow) (slack : nat).

(** The pages still to come, from where the cursor stands. *)
Definition coming (s : VfdwScanState) (pages : list (list bytes)) : Prop :=
  if bool_decide (sp_strategy p = VFDW_SCAN_KEYSPACE) then
    match ss_cursor s with
    | MkCursor _ false => Pages answer p "0" pages
    | MkCursor (Some c) true => Pages answer p c pages
    | MkCursor None true => pages = []
    end
  else pages = if sc_started (ss_cursor s) then [] else [sr_plan_keys (ss_redirect s)].

(** Nothing redirected, the traversal of one node. *)
Record Ready (w : World) (pages : list (list bytes)) : Prop := {
  rd_plan : ss_plan (sw_state w) = p;
  rd_settled : sr_redirected (ss_redirect (sw_state w)) = [];
  rd_first : sr_retry_pass (ss_redirect (sw_state w)) = false;
  rd_fanout : ss_fanout (sw_state w) = fo;
  rd_coming : coming (sw_state w) pages;
}.

(** [keys] of the page left, their replies owed. *)
Record Scanning (w : World) (keys : list bytes) (pages : list (list bytes)) : Prop := {
  sg_ready : Ready w pages;
  sg_left : drop (sg_next_key (ss_page (sw_state w))) (sg_keys (ss_page (sw_state w))) = keys;
  sg_owed : owed (sw_batch w) (concat (key_replies answer p <$> keys));
}.

(** The weight of what is to come: a page and its keys. *)
Definition weight (pages : list (list bytes)) : nat := list_sum ((λ ks, S (length ks)) <$> pages).

Lemma weight_cons ks pages : weight (ks :: pages) = (S (length ks) + weight pages)%nat.
Proof. done. Qed.

Lemma weight_length pages : (length pages ≤ weight pages)%nat.
Proof. induction pages as [|ks l IH]; [done|]. rewrite weight_cons. simpl. lia. Qed.

(** What looking for a page leaves alone: the collection in hand, what the scan knows
    of the transaction's writes, and the writes. *)
Definition kept (w w' : World) : Prop :=
  ss_current (sw_state w') = ss_current (sw_state w) ∧ ss_overlay (sw_state w') = ss_overlay (sw_state w) ∧ sw_wbuf w' = sw_wbuf w.

(** What a refill did: it found the next page with keys on it, or the end. *)
Definition refilled (pages : list (list bytes)) (w : World) (r : result bool * World) : Prop :=
  match r with
  | (Ok true, w') => ∃ keys pages', Scanning w' keys pages' ∧ concat pages = keys ++ concat pages' ∧
      (length keys + weight pages' < weight pages)%nat ∧ kept w w'
  | (Ok false, w') => concat pages = [] ∧ owed (sw_batch w') [] ∧ kept w w'
  | (Raise _, _) => False
  end.

Lemma take_keys_strings ks : take_keys (Some <$> (string_reply <$> ks)) = Ok ks.
Proof. induction ks as [|k ks IH]; [done|]. rewrite !fmap_cons. cbn [take_keys]. by rewrite IH. Qed.

Lemma queue_page_scanning (w : World) :
  ss_plan (sw_state w) = p → owed (sw_batch w) [] →
  ∃ s', vfdw_scan_queue_page serve w = (Ok (), world_batch s' w) ∧
    owed s' (concat (key_replies answer p <$> sg_keys (ss_page (sw_state w)))).
Proof using unmoved.
  intros Hp Ho. destruct (queue_keys_owes (sg_keys (ss_page (sw_state w))) (vfdw_cmd_init 4) _ _
    (cmd_init_wf 4 eq_refl) Ho) as (s' & E & Ho').
  exists s'. unfold vfdw_scan_queue_page, plan, state. rewrite !gets_bind, Hp. unfold on_batch. by rewrite E.
Qed.

Lemma settled_no_retry (w : World) :
  sr_redirected (ss_redirect (sw_state w)) = [] →
  retry_and_page serve pool_get pool_put w = (Ok false, w).
Proof.
  intros Hr. unfold retry_and_page, vfdw_scan_retry_pass, state. unfold mbind, M_bind, gets. cbv beta iota.
  unfold id. rewrite Hr. by rewrite bool_decide_eq_true_2 by done.
Qed.

(** Where a traversal continues. *)
Definition from_cursor (c : ScanCursor) : bytes := if sc_started c then default "" (sc_cursor c) else "0".

Lemma next_page_end (w : World) :
  ss_cursor (sw_state w) = MkCursor None true → sf_fanout (ss_fanout (sw_state w)) = false →
  vfdw_scan_next_page serve pool_get pool_put w = (Ok false, w).
Proof.
  intros Hc Hf. unfold vfdw_scan_next_page, plan, state, vfdw_scan_cluster_advance, state.
  unfold mbind, M_bind, gets. rewrite Hc. simpl. by rewrite Hf.
Qed.

Lemma take_page_page next ks (w : World) :
  vfdw_scan_take_page (page_reply next ks) w =
  (Ok (), world_state (λ s, with_page (MkPage ks 0)
     (with_cursor (MkCursor (if bool_decide (next = "0") then None else Some (until_nul next)) true) s)) w).
Proof.
  unfold vfdw_scan_take_page, set_state, state. cbn [length reply_elements page_reply array_reply r_element default].
  cbn [negb bool_decide decide_rel Nat.eq_dec]. unfold throw.
  change (vfdw_reply_child (page_reply next ks) 0) with (Ok (string_reply next)).
  change (vfdw_reply_child (page_reply next ks) 1) with (Ok (array_reply (string_reply <$> ks))).
  assert (Ek : take_keys (reply_elements (array_reply (string_reply <$> ks))) = Ok ks) by apply take_keys_strings.
  cbn -[take_keys reply_elements]. unfold mbind, M_bind, gets, modify. cbn -[take_keys reply_elements].
  rewrite Ek. reflexivity.
Qed.

Lemma next_page_reads (w : World) next ks :
  ss_plan (sw_state w) = p → owed (sw_batch w) [] →
  (sc_started (ss_cursor (sw_state w)) = true → is_Some (sc_cursor (ss_cursor (sw_state w)))) →
  answer (scan_request p (from_cursor (ss_cursor (sw_state w)))) = page_reply next ks →
  ∃ s' k, vfdw_scan_next_page serve pool_get pool_put w =
    (Ok true, world_batch s' (world_state (λ s, with_counters k
       (with_page (MkPage ks 0)
         (with_cursor (MkCursor (if bool_decide (next = "0") then None else Some (until_nul next)) true) s))) w))
    ∧ owed s' [].
Proof using unmoved.
  intros Hp Ho Hs Ha.
  unfold vfdw_scan_next_page, plan, state. rewrite !gets_bind, Hp.
  assert (E : sc_started (ss_cursor (sw_state w)) && bool_decide (sc_cursor (ss_cursor (sw_state w)) = None) = false).
  { destruct (sc_started _); [|done]. destruct (Hs eq_refl) as [c ->]. done. }
  rewrite E. unfold mbind at 1, M_bind at 1, mret at 1, M_ret at 1. cbn [negb].
  unfold set_state. rewrite modify_bind, gets_bind. cbn [sw_state sw_batch sw_wbuf sw_maps sw_pool].
  unfold mbind at 1, M_bind at 1, on_batch. cbn [sw_state sw_batch sw_wbuf sw_maps sw_pool].
  destruct (add_owes serve peer unmoved (vfdw_scan_build_scan (sp_map p) (from_cursor (ss_cursor (sw_state w)))
    (sp_pattern p) (sp_scan_count p)) (sw_batch w) [] Ho) as (s1 & E1 & Ho1).
  unfold from_cursor in E1. cbn [ss_cursor with_page]. rewrite E1. rewrite modify_bind.
  cbn [sw_state sw_batch sw_wbuf sw_maps sw_pool].
  unfold scan_request in Ha. simpl app in Ho1. rewrite Ha in Ho1.
  destruct (next_owes serve peer s1 _ [] Ho1) as (s2 & E2 & Ho2).
  unfold mbind at 1, M_bind at 1. cbn [sw_state sw_batch sw_wbuf sw_maps sw_pool]. rewrite E2.
  exists s2. eexists. split; [|exact Ho2].
  change (vfdw_reply_expect (Some (page_reply next ks)) (VFDW_RTYPE VALKEY_REPLY_ARRAY) "SCAN failed") with (Ok ()).
  unfold mbind, M_bind, throw. rewrite take_page_page. reflexivity.
Qed.

Lemma pages_from (w : World) pages :
  sp_strategy p = VFDW_SCAN_KEYSPACE → coming (sw_state w) pages →
  (ss_cursor (sw_state w) = MkCursor None true ∧ pages = []) ∨
  ((sc_started (ss_cursor (sw_state w)) = true → is_Some (sc_cursor (ss_cursor (sw_state w)))) ∧
   Pages answer p (from_cursor (ss_cursor (sw_state w))) pages).
Proof.
  intros Hk Hc. unfold coming in Hc. rewrite bool_decide_eq_true_2 in Hc by done.
  destruct (ss_cursor (sw_state w)) as [[c|] []]; [right|right|left|right]; by split.
Qed.

(** One page of the traversal: what is on it and what comes after it. *)
Lemma pages_step c pages :
  Pages answer p c pages → ∃ next ks rest, pages = ks :: rest ∧ answer (scan_request p c) = page_reply next ks ∧
    ∀ s, sp_strategy p = VFDW_SCAN_KEYSPACE →
      ss_cursor s = MkCursor (if bool_decide (next = "0") then None else Some (until_nul next)) true →
      coming s rest.
Proof.
  intros Hp. destruct Hp as [c ks Ha|c next ks rest Ha Hn Hr].
  - exists "0", ks, []. split; [done|]. split; [done|]. intros s Hk Hs. unfold coming.
    by rewrite bool_decide_eq_true_2, Hs.
  - exists next, ks, rest. split; [done|]. split; [done|]. intros s Hk Hs. unfold coming.
    rewrite bool_decide_eq_true_2, Hs by done. by rewrite bool_decide_eq_false_2.
Qed.

(** The traversal of the node is over and nothing is on its way. *)
Definition Exhausted (w : World) : Prop :=
  Ready w [] ∧ ss_cursor (sw_state w) = MkCursor None true ∧ owed (sw_batch w) [].

Definition page_left (w : World) : list bytes :=
  drop (sg_next_key (ss_page (sw_state w))) (sg_keys (ss_page (sw_state w))).

(** The next page with keys on it, or the end of the node, with fuel left. *)
Lemma next_pages_refill n (w : World) pages :
  sp_strategy p = VFDW_SCAN_KEYSPACE → Ready w pages → owed (sw_batch w) [] → (length pages < n)%nat →
  (∃ w', next_pages serve pool_get pool_put n w = (Ok true, w') ∧ refilled pages w (Ok true, w')) ∨
  (∃ m w', next_pages serve pool_get pool_put n w = next_pages serve pool_get pool_put m w' ∧ (n ≤ m + length pages)%nat ∧
     Exhausted w' ∧ concat pages = [] ∧ kept w w' ∧ (page_left w = [] → page_left w' = [])).
Proof using unmoved.
  intros Hk. revert w pages. induction n as [|n IH]; intros w pages [Hp Hs Hf Hl Hc] Ho Hn; [lia|].
  destruct (pages_from w pages Hk Hc) as [[Hend ->]|[Hst Hpg]].
  { right. exists (S n), w. split; [done|]. split; [simpl; lia|]. by split_and!. }
  cbn [next_pages].
  destruct (pages_step _ _ Hpg) as (next & ks & pages' & -> & Ha & Hrest).
  destruct (next_page_reads w next ks Hp Ho Hst Ha) as (s1 & k & E1 & Ho1).
  unfold mbind at 1 4, M_bind at 1 4. rewrite E1. cbn [negb]. unfold state. rewrite !gets_bind.
  set (w1 := world_batch s1 _) in *.
  assert (Hr1 : Ready w1 pages') by (by split; try done; apply Hrest).
  change (sg_keys (ss_page (sw_state w1))) with ks. destruct ks as [|key ks].
  - cbn [length]. rewrite bool_decide_eq_false_2 by lia. simpl in Hn.
    destruct (IH w1 pages' Hr1 Ho1 ltac:(lia)) as [(w2 & E2 & keys & pages2 & H1' & H2' & H3' & H4')|(m & w2 & E2 & Hm & He & Hc' & Hcur & Hpl)].
    + left. exists w2. split; [done|]. exists keys, pages2. rewrite weight_cons. split_and!; [done|done|lia|exact H4'].
    + right. exists m, w2. split; [done|]. split; [simpl; lia|]. split_and!; [done|done|exact Hcur|]. intros _. by apply Hpl.
  - rewrite bool_decide_eq_true_2 by (simpl; lia). left.
    destruct (queue_page_scanning w1 Hp Ho1) as (s2 & E2 & Ho2). unfold mbind, M_bind. rewrite E2.
    eexists. split; [reflexivity|]. exists (key :: ks), pages'. rewrite weight_cons. split_and!; [|done|lia|done].
    split; [|done|done]. destruct Hr1. by split.
Qed.

(** Alone, the end of the node is the end of the scan. *)
Lemma alone_ends m (w : World) :
  sf_fanout fo = false → (0 < m)%nat → Exhausted w → next_pages serve pool_get pool_put m w = (Ok false, w).
Proof.
  intros Hfo Hm ([] & Hend & _). destruct m as [|m]; [lia|]. cbn [next_pages]. unfold mbind, M_bind.
  rewrite next_page_end; [|done|congruence]. cbn [negb]. by rewrite settled_no_retry.
Qed.

(** A scan of named keys is one page. *)
Lemma keys_page_refill (w : World) pages :
  sp_strategy p ≠ VFDW_SCAN_KEYSPACE → sf_fanout fo = false → Ready w pages → owed (sw_batch w) [] →
  refilled pages w ((page ← vfdw_scan_keys_page serve pool_get pool_put;
    if (page : bool) then mret true else retry_and_page serve pool_get pool_put) w).
Proof using unmoved.
  intros Hk Hfo [Hp Hs Hf Hfan Hc] Ho. assert (Hl : sf_fanout (ss_fanout (sw_state w)) = false) by (by rewrite Hfan).
  unfold coming in Hc. rewrite bool_decide_eq_false_2 in Hc by done.
  unfold vfdw_scan_keys_page, state. unfold mbind at 1, M_bind at 1. rewrite gets_bind. unfold id.
  case_bool_decide as Hn.
  { unfold mret at 1, M_ret at 1. rewrite settled_no_retry by done.
    split; [|done]. rewrite Hn in Hc. subst pages. by destruct (sc_started _). }
  cbn [keys_page_loop Nat.add]. unfold state. rewrite gets_bind. unfold id. rewrite Hl.
  destruct (sc_started (ss_cursor (sw_state w))) eqn:Est; cbn [negb orb].
  { unfold mret at 1, M_ret at 1. rewrite settled_no_retry by done. subst pages. by split_and!. }
  rewrite ret_bind. cbn [negb].
  unfold set_state. rewrite !modify_bind, gets_bind. set (w1 := MkScanWorld _ _ _ _ _).
  rewrite bool_decide_eq_true_2; [|simpl; by destruct (sr_plan_keys _); [|simpl; lia]].
  destruct (queue_page_scanning w1 Hp Ho) as (s2 & E2 & Ho2). unfold mbind, M_bind. rewrite E2.
  subst pages. exists (sr_plan_keys (ss_redirect (sw_state w))), []. split_and!; [split; [|done|exact Ho2]| | |done].
  - split; try done. unfold coming. by rewrite bool_decide_eq_false_2.
  - done.
  - rewrite weight_cons. lia.
Qed.

Lemma keyspace_refills n (w : World) pages :
  sp_strategy p = VFDW_SCAN_KEYSPACE → Ready w pages →
  vfdw_scan_refill serve pool_get pool_put n w = next_pages serve pool_get pool_put n w.
Proof.
  intros Hk Hr. unfold vfdw_scan_refill, plan, state. rewrite !gets_bind, (rd_plan _ _ Hr), (rd_first _ _ Hr).
  cbn [orb]. by rewrite bool_decide_true.
Qed.

Lemma refill_scanning n (w : World) pages :
  sf_fanout fo = false → Scanning w [] pages → (length pages < n)%nat →
  refilled pages w (vfdw_scan_refill serve pool_get pool_put n w).
Proof using unmoved.
  intros Hfo [Hr Hl Ho] Hn. destruct (decide (sp_strategy p = VFDW_SCAN_KEYSPACE)) as [Hk|Hk].
  - rewrite (keyspace_refills n w pages Hk Hr). destruct (next_pages_refill n w pages Hk Hr Ho Hn) as [(w' & -> & Hw)|(m & w' & -> & Hm & He & Hc & Hkept & _)]; [done|].
    rewrite alone_ends by (done || lia). destruct He as (Hr' & _ & Ho'). by split_and!.
  - unfold vfdw_scan_refill, plan, state. rewrite !gets_bind, (rd_plan _ _ Hr), (rd_first _ _ Hr). cbn [orb].
    rewrite bool_decide_false by done. by apply keys_page_refill.
Qed.

(* ---------------------------------------------------------------- *)
(** ** The rows of one key *)

(** The members of the collection in hand that have not been returned. *)
Definition left_over (reply : Reply) (stride at_ : nat) : nat :=
  ((length (elements reply) - at_ + stride - 1) / stride)%nat.

Lemma left_over_none reply stride at_ :
  (0 < stride)%nat → (length (elements reply) ≤ at_)%nat → left_over reply stride at_ = 0%nat.
Proof. intros Hs Hl. unfold left_over. apply Nat.div_small. lia. Qed.

Lemma left_over_some reply stride at_ :
  (0 < stride)%nat → (at_ < length (elements reply))%nat →
  left_over reply stride at_ = S (left_over reply stride (at_ + stride)).
Proof.
  intros Hs Hl. unfold left_over. destruct (decide (length (elements reply) ≤ at_ + stride)%nat) as [Hd|Hd].
  - rewrite (Nat.div_small (length (elements reply) - (at_ + stride) + stride - 1)) by lia.
    replace (length (elements reply) - at_ + stride - 1)%nat with
      (length (elements reply) - at_ - 1 + 1 * stride)%nat by lia.
    rewrite Nat.div_add by lia. rewrite Nat.div_small by lia. done.
  - replace (length (elements reply) - at_ + stride - 1)%nat with
      (length (elements reply) - (at_ + stride) + stride - 1 + 1 * stride)%nat by lia.
    rewrite Nat.div_add by lia. lia.
Qed.

Lemma stride_pos t reply n : vfdw_scan_member_stride t reply = Ok n → (0 < n)%nat.
Proof.
  unfold vfdw_scan_member_stride. repeat case_match; try (intros [= <-]; lia).
  destruct (vfdw_reply_child reply 0); simpl; [|done]. intros [= <-]. case_match; lia.
Qed.

(** The collection in hand still has the rows [rows] to give. *)
Definition Pending (w : World) (rows : list ScanRow) : Prop :=
  match ss_current (sw_state w) with
  | MkCurrent None _ _ => rows = []
  | MkCurrent (Some reply) at_ key => ∃ stride,
      reply = answer (value_request p key) ∧ ss_answers (sw_state w) = key_answers answer p key ∧
      vfdw_scan_member_stride (map_tabletype (sp_map p)) reply = Ok stride ∧
      member_rows answer p (left_over reply stride at_) stride at_ key reply = Ok rows
  end.

Lemma scanning_current c (w : World) keys pages :
  Scanning w keys pages → Scanning (world_state (with_current c) w) keys pages.
Proof. intros [[] ? ?]. by do 2 (split; try done). Qed.

Lemma scanning_counters k (w : World) keys pages :
  Scanning w keys pages → Scanning (world_state (with_counters k) w) keys pages.
Proof. intros [[] ? ?]. by do 2 (split; try done). Qed.

(** The first half of a pass of the loop: the next member, or the collection is
    put down. *)
Lemma emit_rows reply (w : World) rows :
  ss_plan (sw_state w) = p → su_reply (ss_current (sw_state w)) = Some reply → Pending w rows →
  ∃ c, match vfdw_scan_emit_member reply w with
       | (Ok (Some r), w') => ∃ rows', rows = r :: rows' ∧ Pending w' rows' ∧ w' = world_state (with_current c) w
       | (Ok None, w') => rows = [] ∧ su_reply (ss_current (sw_state w')) = None ∧ w' = world_state (with_current c) w
       | (Raise _, _) => False
       end.
Proof.
  intros Hp Hr Hpen. unfold Pending in Hpen. destruct (ss_current (sw_state w)) as [r at_ key] eqn:Ecur. simpl in Hr. subst r.
  destruct Hpen as (stride & Hreply & Hans & Hst & Hrows). pose proof (stride_pos _ _ _ Hst) as Hpos.
  unfold vfdw_scan_emit_member, plan, state. rewrite !gets_bind. unfold id. rewrite Ecur, Hp.
  cbn [su_elem su_key su_reply]. case_bool_decide as Hl.
  - rewrite left_over_none in Hrows by done. injection Hrows as <-.
    unfold set_state. rewrite modify_bind. by eexists.
  - rewrite left_over_some in Hrows by lia. cbn [member_rows] in Hrows. rewrite Hans.
    unfold throw. unfold mbind at 1, M_bind at 1. rewrite Hst. unfold mbind at 1, M_bind at 1.
    destruct (vfdw_scan_fill (row_ctx p (key_answers answer p key) at_) key reply) as [slot|e]; [|done].
    simpl in Hrows.
    destruct (member_rows answer p (left_over reply stride (at_ + stride)) stride (at_ + stride) key reply)
      as [rows'|e] eqn:Erest; [|done]. injection Hrows as <-.
    unfold set_state. rewrite modify_bind. eexists _, rows'. split; [done|]. split; [|done].
    unfold Pending. cbn. by exists stride.
Qed.

Lemma emit_pending reply (w : World) rows keys pages :
  su_reply (ss_current (sw_state w)) = Some reply → Pending w rows → Scanning w keys pages →
  match vfdw_scan_emit_member reply w with
  | (Ok (Some r), w') => ∃ rows', rows = r :: rows' ∧ Pending w' rows' ∧ Scanning w' keys pages ∧ sw_wbuf w' = sw_wbuf w
  | (Ok None, w') => rows = [] ∧ su_reply (ss_current (sw_state w')) = None ∧ Scanning w' keys pages ∧ sw_wbuf w' = sw_wbuf w
  | (Raise _, _) => False
  end.
Proof.
  intros Hr Hpen Hsc. destruct (emit_rows reply w rows (rd_plan _ _ (sg_ready _ _ _ Hsc)) Hr Hpen) as [c He].
  destruct (vfdw_scan_emit_member reply w) as [[[r|]|e] w']; [| |done].
  - destruct He as (rows' & -> & Hp & ->). exists rows'. split_and!; [done..|by apply scanning_current|done].
  - destruct He as (-> & Hn & ->). split_and!; [done..|by apply scanning_current|done].
Qed.

Lemma state_bind {A B} (f : VfdwScanState → A) (g : A → M World B) w :
  (state f ≫= g) w = g (f (sw_state w)) w.
Proof. done. Qed.

(** The second half: what the reply of the next key becomes, when the transaction has
    done nothing to the key. *)
Lemma one_key_pass key rows row (w w1 : World) :
  ss_plan (sw_state w) = p → vfdw_scan_apply_overlay key w = (Ok (VFDW_OVL_PASS, row), w1) →
  ss_answers (sw_state w1) = key_answers answer p key → su_reply (ss_current (sw_state w1)) = None →
  vfdw_cluster_is_redirect (Some (answer (value_request p key))) = false → key_rows answer p key = Ok rows →
  match vfdw_scan_one_key beyond_copy key (answer (value_request p key)) w with
  | (Ok (Some r), w') => rows = [r] ∧ w' = w1
  | (Ok None, w') => Pending w' rows ∧
      ∃ c k, w' = world_state (with_current c) (world_state (with_counters k) w1)
  | (Raise _, _) => False
  end.
Proof.
  intros Hp Hov Ha Hc Hnr Hrows. unfold vfdw_scan_one_key, plan. rewrite gets_bind, Hp.
  unfold mbind at 1, M_bind at 1. rewrite Hov. cbv beta iota.
  unfold vfdw_scan_note_redirect. rewrite Hnr, ret_bind, state_bind. unfold id.
  rewrite Ha. unfold key_rows in Hrows.
  destruct (vfdw_scan_produces_nothing (sp_map p) (key_answers answer p key) (answer (value_request p key))).
  { injection Hrows as <-. unfold set_state. rewrite modify_bind. destruct w1 as [[? ? ? cur ? ? ? ? k] ? ? ? ?].
    simpl in *. split; [unfold Pending; simpl; by destruct cur; simpl in Hc; subst|]. by exists cur, (MkCounters (sk_skipped k + 1) (sk_pages k)). }
  unfold throw. unfold mbind at 1, M_bind at 1.
  destruct (vfdw_scan_expect_value (sp_map p) (answer (value_request p key))) as [[]|e]; [|done].
  simpl in Hrows. destruct (vfdw_scan_is_multirow (sp_map p)).
  - destruct (vfdw_scan_member_stride (map_tabletype (sp_map p)) (answer (value_request p key))) as [stride|e] eqn:Es;
      [|done]. simpl in Hrows.
    unfold vfdw_scan_take_collection, set_state. rewrite modify_bind. split.
    + exists stride. unfold left_over. rewrite Nat.sub_0_r. by split_and!.
    + destruct w1 as [[? ? ? cur ? ? ? ? k] ? ? ? ?].
      by exists (MkCurrent (Some (answer (value_request p key))) 0 key), k.
  - unfold mbind, M_bind.
    destruct (vfdw_scan_fill (row_ctx p (key_answers answer p key) 0) key (answer (value_request p key))) as [slot|e];
      [|done]. simpl in Hrows. by injection Hrows as <-.
Qed.

(** Nothing is buffered. *)
Definition idle (w : World) : Prop := vfdw_overlay_active (sw_wbuf w) = false.

Lemma one_key_rows key rows (w : World) :
  ss_plan (sw_state w) = p → idle w →
  ss_answers (sw_state w) = key_answers answer p key → su_reply (ss_current (sw_state w)) = None →
  vfdw_cluster_is_redirect (Some (answer (value_request p key))) = false → key_rows answer p key = Ok rows →
  match vfdw_scan_one_key beyond_copy key (answer (value_request p key)) w with
  | (Ok (Some r), w') => rows = [r] ∧ w' = w
  | (Ok None, w') => Pending w' rows ∧
      ∃ c k, w' = world_state (with_current c) (world_state (with_counters k) w)
  | (Raise _, _) => False
  end.
Proof.
  intros Hp Hi. apply (one_key_pass key rows None w w Hp).
  unfold vfdw_scan_apply_overlay, plan. by rewrite !gets_bind, Hi.
Qed.

(* ---------------------------------------------------------------- *)
(** ** The producer *)

(** A key whose rows are [rows], on a server that redirects nobody. *)
Definition readable (key : bytes) (rows : list ScanRow) : Prop :=
  key_rows answer p key = Ok rows ∧ vfdw_cluster_is_redirect (Some (answer (value_request p key))) = false.

(** The scan stands in [w] with exactly [rows] to give, and [fuel] is enough to
    look for the next one. *)
Definition Left (fuel : nat) (w : World) (rows : list ScanRow) : Prop :=
  ∃ cur keys pages later, Pending w cur ∧ Scanning w keys pages ∧ idle w ∧
    Forall2 readable (keys ++ concat pages) later ∧ rows = cur ++ concat later ++ behind ∧
    (length keys + weight pages + 2 + slack ≤ fuel)%nat.

Lemma left_mono n n' w rows : Left n w rows → (n ≤ n')%nat → Left n' w rows.
Proof. intros (cur & keys & pages & later & H1' & H2' & H3' & H4' & H5' & H6') Hn. exists cur, keys, pages, later.
  by split_and!; [..|lia]. Qed.

Lemma left_plan n w rows : Left n w rows → ss_plan (sw_state w) = p.
Proof. intros (? & ? & ? & ? & _ & Hsc & _). apply (rd_plan _ _ (sg_ready _ _ _ Hsc)). Qed.

(** What fetching a row did, when [L] says what is left and [E] how the scan ends. *)
Definition fetched (L : nat → World → list ScanRow → Prop) (E : World → Prop) (fuel : nat) (rows : list ScanRow)
    (r : result (option ScanRow) * World) : Prop :=
  match r with
  | (Ok (Some row), w') => ∃ rows', rows = row :: rows' ∧ L fuel w' rows'
  | (Ok None, w') => rows = [] ∧ E w'
  | (Raise _, _) => False
  end.

Lemma fetched_mono (L : nat → World → list ScanRow → Prop) E :
  (∀ n n' w rows, L n w rows → (n ≤ n')%nat → L n' w rows) →
  ∀ n n' rows r, fetched L E n rows r → (n ≤ n')%nat → fetched L E n' rows r.
Proof.
  intros HL n n' rows r. destruct r as [[[row|]|e] w']; simpl; [|done..]. intros (rows' & ? & ?) ?. exists rows'.
  split; [done|]. by eapply HL.
Qed.

Abbreviation fetch := (fetch_loop serve pool_get pool_put beyond_copy).

(** The two ways a pass of the loop goes on when no collection is in hand: the next
    key of the page, or the next page. *)
Definition read_step (f : nat) (key : bytes) : M World (option ScanRow) :=
  s ← state id;
  set_state (with_page (MkPage (sg_keys (ss_page s)) (S (sg_next_key (ss_page s)))));;;
  (reply ← vfdw_scan_take_replies serve;
   match reply with
   | None => mret None
   | Some reply => row ← vfdw_scan_one_key beyond_copy key reply;
                   match row with Some r => mret (Some r) | None => fetch f end
   end).

Definition refill_step (f : nat) : M World (option ScanRow) :=
  more ← vfdw_scan_refill serve pool_get pool_put f; if (more : bool) then fetch f else vfdw_scan_drain_tail.

Definition page_step (f : nat) (w : World) : result (option ScanRow) * World :=
  match page_left w with [] => refill_step f w | key :: _ => read_step f key w end.

Lemma pending_none (w w' : World) :
  ss_current (sw_state w') = ss_current (sw_state w) → su_reply (ss_current (sw_state w)) = None → Pending w' [].
Proof. intros E Hr. unfold Pending. rewrite E. destruct (ss_current (sw_state w)). simpl in Hr. by subst. Qed.

Lemma pending_put_down (w : World) cur : Pending w cur → su_reply (ss_current (sw_state w)) = None → cur = [].
Proof. unfold Pending. destruct (ss_current (sw_state w)). simpl. by intros H' ->. Qed.

(** A pass of the loop, when [In] holds before it whatever collection is in hand:
    the rows of that collection first, and then [rest]. *)
Lemma fetch_step L E f (In : World → Prop) (w : World) cur rest :
  (∀ c w, is_Some (su_reply (ss_current (sw_state w))) → In w → In (world_state (with_current c) w)) →
  ss_plan (sw_state w) = p → Pending w cur → In w →
  (∀ w cur, Pending w cur → In w → L (S f) w (cur ++ rest)) →
  (∀ w, su_reply (ss_current (sw_state w)) = None → In w → fetched L E (S f) rest (page_step f w)) →
  fetched L E (S f) (cur ++ rest) (fetch (S f) w).
Proof.
  intros Hin Hp Hpen Hw HL Hstep.
  assert (Eleft : ∀ w, match sg_keys (ss_page (sw_state w)) !! sg_next_key (ss_page (sw_state w)) with
    | None => refill_step f w | Some key => read_step f key w end = page_step f w).
  { intros w1. unfold page_step, page_left. rewrite <- (Nat.add_0_r (sg_next_key _)) at 1. rewrite <- lookup_drop. by destruct (drop _ _). }
  cbn [fetch_loop]. rewrite state_bind. change (id (sw_state w)) with (sw_state w).
  destruct (su_reply (ss_current (sw_state w))) as [reply|] eqn:Er.
  - destruct (emit_rows reply w cur Hp Er Hpen) as [c He]. unfold mbind at 1, M_bind at 1.
    destruct (vfdw_scan_emit_member reply w) as [[[r|]|e] w1]; [| |done].
    + destruct He as (cur1 & -> & Hpen1 & ->). exists (cur1 ++ rest). split; [done|]. apply HL; [done|]. by apply Hin; [eexists|].
    + destruct He as (-> & Er1 & ->). specialize (Hstep _ Er1 (Hin _ _ (mk_is_Some _ _ Er) Hw)). rewrite <- Eleft in Hstep.
      rewrite state_bind. unfold id. by destruct (_ !! _).
  - rewrite (pending_put_down w cur Hpen Er). specialize (Hstep _ Er Hw). rewrite <- Eleft in Hstep. rewrite ret_bind, state_bind. unfold id. by destruct (_ !! _).
Qed.

(** The world when the replies of the next key have been taken. *)
Definition with_replies (key : bytes) (b : BatchState (P := P)) (w : World) : World :=
  world_batch b (world_state (with_answers (key_answers answer p key))
    (world_state (with_page (MkPage (sg_keys (ss_page (sw_state w))) (S (sg_next_key (ss_page (sw_state w)))))) w)).

Lemma read_step_takes f key keys rs (w : World) :
  ss_plan (sw_state w) = p → page_left w = key :: keys → owed (sw_batch w) (key_replies answer p key ++ rs) →
  ∃ b, owed b rs ∧ page_left (with_replies key b w) = keys ∧
    read_step f key w =
      (let '(r, w') := vfdw_scan_one_key beyond_copy key (answer (value_request p key)) (with_replies key b w) in
       match r with Ok (Some r) => (Ok (Some r), w') | Ok None => fetch f w' | Raise e => (Raise e, w') end).
Proof.
  intros Hp Hleft Ho.
  set (w1 := world_state (with_page (MkPage (sg_keys (ss_page (sw_state w))) (S (sg_next_key (ss_page (sw_state w)))))) w).
  destruct (take_replies_owes key rs w1 Hp Ho) as (b & E & Ho'). exists b. split; [done|]. split.
  - unfold page_left in *. simpl. change (S ?x) with (1 + x)%nat. by rewrite Nat.add_comm, <- drop_drop, Hleft.
  - change (read_step f key w) with ((reply ← vfdw_scan_take_replies serve; match reply with None => mret None | Some reply =>
      row ← vfdw_scan_one_key beyond_copy key reply; match row with Some r => mret (Some r) | None => fetch f end end) w1).
    unfold mbind at 1, M_bind at 1. rewrite E. unfold mbind, M_bind, with_replies. by destruct (vfdw_scan_one_key _ _ _ _) as [[[?|]|?] ?].
Qed.

Lemma scanning_replies key b (w : World) keys pages :
  Ready w pages → page_left (with_replies key b w) = keys → owed b (concat (key_replies answer p <$> keys)) →
  Scanning (with_replies key b w) keys pages.
Proof. intros [] ? ?. by do 2 (split; try done). Qed.

(** The producer on one node, when [L] holds of what is left here and what comes
    behind the last page of the node is fetched. *)
Lemma fetch_node L E :
  (∀ n n' w rows, L n w rows → (n ≤ n')%nat → L n' w rows) → (∀ n w rows, Left n w rows → L n w rows) →
  (∀ n w pages later, su_reply (ss_current (sw_state w)) = None → Scanning w [] pages → idle w → Forall2 readable (concat pages) later →
     (weight pages + 2 + slack ≤ S n)%nat → (∀ w rows, Left n w rows → fetched L E n rows (fetch n w)) →
     fetched L E n (concat later ++ behind) (refill_step n w)) →
  ∀ n w rows, Left n w rows → fetched L E n rows (fetch n w).
Proof using unmoved.
  intros Hmono HL Hend n. induction n as [|n IH]; intros w rows (cur & keys & pages & later & Hpen & Hsc & Hi & Hread & -> & Hn); [lia|].
  apply (fetch_step L E n (λ w, Scanning w keys pages ∧ idle w)); [|apply (rd_plan _ _ (sg_ready _ _ _ Hsc))|done|done| |].
  - intros c w1 _ [? ?]. split; [by apply scanning_current|done].
  - intros w1 cur1 Hpen1 [Hsc1 Hi1]. apply HL. by exists cur1, keys, pages, later.
  - clear w cur Hpen Hsc Hi. intros w Hcur [Hsc Hi]. apply (fetched_mono L E Hmono n); [|lia].
    unfold page_step. pose proof (sg_left _ _ _ Hsc) as Hleft. fold (page_left w) in Hleft.
    rewrite Hleft. destruct keys as [|key keys]; [by apply (Hend n w pages later)|].
    inversion Hread as [|? rs ? later' [Hk Hnr] Hread']. subst. pose proof (sg_owed _ _ _ Hsc) as Ho. rewrite fmap_cons in Ho.
    destruct (read_step_takes n key keys _ w (rd_plan _ _ (sg_ready _ _ _ Hsc)) Hleft Ho) as (b & Ho2 & Hleft2 & ->).
    pose proof (scanning_replies key b w keys pages (sg_ready _ _ _ Hsc) Hleft2 Ho2) as Hsc2. set (w2 := with_replies key b w) in *.
    pose proof (one_key_rows key rs w2 (rd_plan _ _ (sg_ready _ _ _ Hsc2)) Hi eq_refl Hcur Hnr Hk) as Hone.
    cbn [length] in Hn. destruct (vfdw_scan_one_key beyond_copy key _ w2) as [[[r|]|e] w3]; [| |done].
    + destruct Hone as [-> ->]. exists (concat later' ++ behind). split; [done|]. apply HL.
      exists [], keys, pages, later'. split_and!; [by apply (pending_none w)|done..|lia].
    + destruct Hone as (Hpen & c & k & ->). apply IH. exists rs, keys, pages, later'.
      split_and!; [done|by apply scanning_current, scanning_counters|done|done|cbn [concat]; by rewrite <- app_assoc|lia].
Qed.

Lemma idle_drains (w : World) : idle w → vfdw_scan_drain_tail w = (Ok None, w).
Proof. intros Hi. unfold vfdw_scan_drain_tail, plan, mbind, M_bind, gets. by rewrite Hi. Qed.

(** Alone, nothing comes behind the last page. *)
Lemma fetch_left n (w : World) rows :
  sf_fanout fo = false → behind = [] → Left n w rows → fetched Left (λ w, owed (sw_batch w) []) n rows (fetch n w).
Proof using unmoved.
  intros Hfo Hrest. apply fetch_node; [apply left_mono|done|]. clear n w rows.
  intros n w pages later Hcur Hsc Hi Hread Hn IH. pose proof (weight_length pages).
  pose proof (refill_scanning n w pages Hfo Hsc ltac:(lia)) as Hf. unfold refill_step, mbind, M_bind.
  destruct (vfdw_scan_refill serve pool_get pool_put n w) as [[[]|e] w1]; simpl in Hf; [| |done].
  - destruct Hf as (ks & pages' & Hsc1 & Ec & Hw & Ecur & _ & Ewb). apply IH.
    exists [], ks, pages', later. rewrite <- Ec. unfold idle. rewrite Ewb. split_and!; [by apply (pending_none w)|done..|lia].
  - destruct Hf as (Ec & Ho & _ & _ & Ewb). rewrite Ec in Hread. inversion Hread. subst.
    rewrite idle_drains; [done|]. unfold idle. by rewrite Ewb.
Qed.

Lemma scan_rows_of L E calls fuel (w : World) rows :
  sp_strategy p ≠ VFDW_SCAN_KNN →
  (∀ w rows, L fuel w rows → ss_plan (sw_state w) = p ∧ fetched L E fuel rows (fetch fuel w)) →
  L fuel w rows → (length rows < calls)%nat →
  (scan_rows serve pool_get pool_put beyond_copy vfdw_search_next calls fuel w).1 = Ok rows.
Proof.
  intros Hk HL. revert w rows. induction calls as [|calls IH]; intros w rows Hl Hc; [lia|].
  destruct (HL w rows Hl) as [Hp Hf].
  cbn [scan_rows]. unfold mbind at 1, M_bind at 1. unfold vfdw_scan_fetch, plan. rewrite gets_bind, Hp.
  rewrite bool_decide_eq_false_2 by done.
  destruct (fetch fuel w) as [[[r|]|e] w1]; simpl in Hf; [| |done].
  - destruct Hf as (rows' & -> & Hl'). simpl in Hc. specialize (IH w1 rows' Hl' ltac:(lia)).
    destruct (scan_rows serve pool_get pool_put beyond_copy vfdw_search_next calls fuel w1) as [r1 w2] eqn:Er.
    simpl in IH. subst r1. unfold mbind, M_bind. by rewrite Er.
  - by destruct Hf as [-> _].
Qed.

Lemma scan_rows_left calls fuel (w : World) rows :
  sf_fanout fo = false → behind = [] →
  sp_strategy p ≠ VFDW_SCAN_KNN → ss_plan (sw_state w) = p → Left fuel w rows → (length rows < calls)%nat →
  (scan_rows serve pool_get pool_put beyond_copy vfdw_search_next calls fuel w).1 = Ok rows.
Proof using unmoved.
  intros Hfo Hrest Hk _. apply (scan_rows_of Left (λ w, owed (sw_batch w) [])); [done|].
  intros w' rows' Hl. split; [by eapply left_plan|by apply fetch_left].
Qed.

(** [n] rows are fetched and thrown away. *)
Definition fetch_some (n fuel : nat) : M World unit :=
  miter (λ _, vfdw_scan_fetch serve pool_get pool_put beyond_copy vfdw_search_next fuel;;; mret ()) (seq 0 n).

Lemma fetch_some_left n i fuel (w : World) rows :
  sf_fanout fo = false → behind = [] → sp_strategy p ≠ VFDW_SCAN_KNN → Left fuel w rows → (n ≤ length rows)%nat →
  ∃ w', miter (λ _, vfdw_scan_fetch serve pool_get pool_put beyond_copy vfdw_search_next fuel;;; mret ()) (seq i n) w
          = (Ok (), w') ∧ Left fuel w' (drop n rows).
Proof using unmoved.
  intros Hfo Hrest Hk. revert i w rows. induction n as [|n IH]; intros i w rows Hl Hn; [by exists w|].
  pose proof (left_plan _ _ _ Hl) as Hp.
  cbn [seq miter]. unfold mbind at 1, M_bind at 1. unfold vfdw_scan_fetch at 1, plan.
  unfold mbind at 1, M_bind at 1. rewrite gets_bind, Hp, bool_decide_eq_false_2 by done.
  pose proof (fetch_left fuel w rows Hfo Hrest Hl) as Hf.
  destruct (fetch fuel w) as [[[r|]|e] w1]; simpl in Hf; [| |done].
  - destruct Hf as (rows' & -> & Hl'). simpl in Hn |- *. apply (IH (S i) w1 rows' Hl'). lia.
  - destruct Hf as [-> _]. simpl in Hn. lia.
Qed.

(** Giving up where the scan stands and starting over. *)
Definition restarted (b : BatchState (P := P)) (w : World) : World :=
  let s := sw_state w in
  MkScanWorld
    (ScanState (ss_plan s) (MkCursor None false) (MkPage [] 0) (MkCurrent None 0 (su_key (ss_current s))) (ss_answers s)
       (ss_redirect s) (ss_fanout s) (MkScanOverlay false (sv_iter (ss_overlay s)) None) (MkCounters 0 0))
    b (sw_wbuf w) (sw_maps w) (sw_pool w).

Lemma rescan_restarts (w : World) b param :
  ss_plan (sw_state w) = p → sp_strategy p = VFDW_SCAN_KEYSPACE → vfdw_batch_end serve (sw_batch w) = (Ok (), b) →
  vfdw_scan_rescan serve param w = (Ok (), restarted (vfdw_batch_begin (sp_pipeline_batch p) (bs_conn b)) w).
Proof.
  destruct w as [[pl c pg cur an red fan ov k] b0 wb maps pool]. cbn [ss_plan sw_state sw_batch]. intros -> Hk E.
  unfold vfdw_scan_rescan, plan. rewrite gets_bind. unfold mbind at 1, M_bind at 1, on_batch. cbn [sw_batch ss_plan sw_state]. rewrite E.
  rewrite bool_decide_eq_false_2 by (by rewrite Hk). reflexivity.
Qed.

Lemma rescan_ready (w : World) keys rest pages param :
  sp_strategy p = VFDW_SCAN_KEYSPACE → Scanning w keys rest → Pages answer p "0" pages →
  ∃ w', vfdw_scan_rescan serve param w = (Ok (), w') ∧ Scanning w' [] pages ∧ Pending w' [] ∧ sw_wbuf w' = sw_wbuf w ∧
    sv_tail (ss_overlay (sw_state w')) = false ∧ sv_seen (ss_overlay (sw_state w')) = None.
Proof.
  intros Hk [[] Hl Ho] Hpg. destruct (end_owes serve peer _ _ Ho) as (b & E & Hb).
  exists (restarted (vfdw_batch_begin (sp_pipeline_batch p) (bs_conn b)) w). split; [by apply rescan_restarts|].
  split; [|split; [reflexivity|split; [reflexivity|split; reflexivity]]].
  split; [split; try done|done|by apply rebegin_owes]. unfold coming. by rewrite bool_decide_eq_true_2.
Qed.

Lemma scanning_left (w : World) pages later fuel :
  behind = [] → slack = 0%nat →
  Scanning w [] pages → Pending w [] → idle w → Forall2 readable (concat pages) later → (weight pages + 2 ≤ fuel)%nat →
  Left fuel w (concat later).
Proof. intros Hrest Hslack. intros. exists [], [], pages, later. rewrite Hrest, Hslack, app_nil_r. split_and!; try done. cbn [length]. lia. Qed.
End run.

(* ---------------------------------------------------------------- *)
(** ** A scan that starts, on one server *)

(** A connection on which nothing is on its way. *)
Definition quiet_conn {P : Type} (peer : P) (c : Conn (P := P)) : Prop :=
  cn_peer c = peer ∧ cn_out c = [] ∧ cn_in c = [] ∧ cn_faults c = [].

(** No fan-out. *)
Definition alone : ScanFanout := MkFanout false None [] 0.

Section single.
Context `{TypeCatalog} `{PgTypes} `{Float4IO}.
Context {P W : Type} (serve : list bytes → P → Reply * P) (peer : P).
Context (pool_get : VfdwClusterNode → M W (Conn (P := P))) (pool_put : Conn (P := P) → W → W).
Context (beyond_copy : bytes → bytes) (vfdw_search_next : M (ScanWorld (P := P) (W := W)) (option ScanRow)).
Hypothesis unmoved : ∀ c, (serve c peer).2 = peer.
Context (p : ScanPlan).

Abbreviation answer := (λ c, (serve c peer).1).
Abbreviation readable := (readable serve peer p).

Lemma open_scanning conn b maps (pool : W) pages :
  sp_strategy p = VFDW_SCAN_KEYSPACE → Pages answer p "0" pages →
  cn_peer conn = peer → cn_out conn = [] → cn_in conn = [] → cn_faults conn = [] →
  Scanning serve peer p alone (open_world p conn b maps pool) [] pages.
Proof.
  intros Hk Hpg Hpeer Hout Hin Hf. split; [split; try done|done|by apply begin_owes].
  unfold coming. by rewrite bool_decide_eq_true_2.
Qed.

(** A scan of keys that are given is the rows of those keys, in order. *)
Lemma given_keys_scan_is_complete conn b maps (pool : W) keys later calls fuel :
  sp_strategy p ≠ VFDW_SCAN_KEYSPACE → sp_strategy p ≠ VFDW_SCAN_KNN → vfdw_overlay_active b = false →
  cn_peer conn = peer → cn_out conn = [] → cn_in conn = [] → cn_faults conn = [] →
  Forall2 readable (until_nul <$> keys) later →
  (length (concat later) < calls)%nat → (length keys + 3 ≤ fuel)%nat →
  ((vfdw_scan_set_keys keys;;; scan_rows serve pool_get pool_put beyond_copy vfdw_search_next calls fuel)
    (open_world p conn b maps pool)).1 = Ok (concat later).
Proof using unmoved.
  intros Hk Hk2 Hb Hpeer Hout Hin Hf Hread Hc Hfuel. unfold vfdw_scan_set_keys, set_state. rewrite modify_bind.
  apply (scan_rows_left serve peer _ _ _ _ unmoved p alone [] 0); [done..| |done].
  apply (scanning_left serve peer p alone [] 0 _ [until_nul <$> keys]); [done|done| |done|done|by rewrite concat_cons, app_nil_r|].
  - split; [split; try done|done|by apply begin_owes]. unfold coming. by rewrite bool_decide_eq_false_2.
  - rewrite weight_cons, length_fmap. change (weight []) with 0%nat. lia.
Qed.

Lemma named_keys_scan_is_complete conn b maps (pool : W) keys later calls fuel :
  sp_strategy p = VFDW_SCAN_KEYS → vfdw_overlay_active b = false →
  cn_peer conn = peer → cn_out conn = [] → cn_in conn = [] → cn_faults conn = [] →
  Forall2 readable (until_nul <$> keys) later →
  (length (concat later) < calls)%nat → (length keys + 3 ≤ fuel)%nat →
  ((vfdw_scan_set_keys keys;;; scan_rows serve pool_get pool_put beyond_copy vfdw_search_next calls fuel)
    (open_world p conn b maps pool)).1 = Ok (concat later).
Proof using unmoved. intros Hk. apply given_keys_scan_is_complete; by rewrite Hk. Qed.
End single.
