(* ===== verification/ScanResults.v ===== *)
(** What the scan promises (src/vfdw_scan.c, vfdw_scan_open.c) and where a
    rescan breaks it. *)
From S2P Require Import Prelude Opcode Option OptionFacts Error Cmd CmdFacts WriteOp Wbuf Overlay.
From S2P Require Import TableMap TableMapFacts Ttl Vec Row ScanCmd RowFacts Val ValFacts Cluster ClusterFacts Scan ScanFacts.
Local Open Scope Z_scope.

(** C22: a scan of the keyspace of one server returns, once for each time the
    traversal names it and in that order, exactly the rows of every key: no page
    boundary, empty page, key of another type or key gone in the meantime ends
    it early, no reply is taken for another key's, and it comes to an end. *)
Theorem keyspace_scan_is_complete `{TypeCatalog} `{PgTypes} `{Float4IO} {P W : Type}
    (serve : list bytes → P → Reply * P) (pool_get : VfdwClusterNode → M W (Conn (P := P)))
    (pool_put : Conn (P := P) → W → W) (beyond_copy : bytes → bytes)
    (search_next : M (ScanWorld (P := P) (W := W)) (option ScanRow))
    (p : ScanPlan) (conn : Conn (P := P)) (b : Wbuf) maps (pool : W)
    (pages : list (list bytes)) (later : list (list ScanRow)) (calls fuel : nat) :
  let peer := cn_peer conn in
  let answer c := (serve c peer).1 in
  (∀ c, (serve c peer).2 = peer) →
  sp_strategy p = VFDW_SCAN_KEYSPACE →
  cn_out conn = [] → cn_in conn = [] → cn_faults conn = [] →
  vfdw_overlay_active b = false →
  Pages answer p "0" pages →
  Forall2 (readable serve peer p) (concat pages) later →
  (length (concat later) < calls)%nat → (weight pages + 2 ≤ fuel)%nat →
  (scan_rows serve pool_get pool_put beyond_copy search_next calls fuel (open_world p conn b maps pool)).1
    = Ok (concat later).
Proof.
  intros peer answer Hu Hk Ho Hi Hf Hb Hpg Hr Hc Hn. apply (scan_rows_left serve peer _ _ _ _ Hu p alone [] 0); try done.
  - by rewrite Hk.
  - apply (scanning_left serve peer p alone [] 0 _ pages); try done. by apply open_scanning.
Qed.

(** A rescan starts over: wherever the previous pass of a scan of one server
    stopped, with a collection in hand and replies still on the wire, the next
    pass returns every row again, from the first. *)
Theorem rescan_starts_over `{TypeCatalog} `{PgTypes} `{Float4IO} {P W : Type}
    (serve : list bytes → P → Reply * P) (pool_get : VfdwClusterNode → M W (Conn (P := P)))
    (pool_put : Conn (P := P) → W → W) (beyond_copy : bytes → bytes)
    (search_next : M (ScanWorld (P := P) (W := W)) (option ScanRow))
    (p : ScanPlan) (conn : Conn (P := P)) (b : Wbuf) maps (pool : W)
    (pages : list (list bytes)) (later : list (list ScanRow)) (calls fuel stop : nat) (param : option bytes) :
  let peer := cn_peer conn in
  let answer c := (serve c peer).1 in
  (∀ c, (serve c peer).2 = peer) →
  sp_strategy p = VFDW_SCAN_KEYSPACE →
  cn_out conn = [] → cn_in conn = [] → cn_faults conn = [] →
  vfdw_overlay_active b = false →
  Pages answer p "0" pages →
  Forall2 (readable serve peer p) (concat pages) later →
  (stop ≤ length (concat later))%nat →
  (length (concat later) < calls)%nat → (weight pages + 2 ≤ fuel)%nat →
  ((fetch_some serve pool_get pool_put beyond_copy search_next stop fuel;;;
    vfdw_scan_rescan serve param;;;
    scan_rows serve pool_get pool_put beyond_copy search_next calls fuel) (open_world p conn b maps pool)).1
    = Ok (concat later).
Proof.
  intros peer answer Hu Hk Ho Hi Hf Hb Hpg Hr Hs Hc Hn.
  assert (Hknn : sp_strategy p ≠ VFDW_SCAN_KNN) by (by rewrite Hk).
  assert (Hl : Left serve peer p alone [] 0 fuel (open_world p conn b maps pool) (concat later)).
  { apply (scanning_left serve peer p alone [] 0 _ pages); try done. by apply open_scanning. }
  destruct (fetch_some_left serve peer pool_get pool_put beyond_copy search_next Hu p alone [] 0 stop 0 fuel _ _ eq_refl eq_refl Hknn Hl Hs)
    as (w1 & E1 & Hl1).
  unfold mbind at 1, M_bind at 1, fetch_some. rewrite E1.
  destruct Hl1 as (_ & keys & rest & _ & _ & Hsc & Hi1 & _).
  destruct (rescan_ready serve peer p alone w1 keys rest pages param Hk Hsc Hpg) as (w2 & E2 & Hsc2 & Hpen2 & Ew & _).
  unfold mbind at 1, M_bind at 1. rewrite E2. apply (scan_rows_left serve peer _ _ _ _ Hu p alone [] 0); try done.
  - apply (rd_plan _ _ _ _ _ _ (sg_ready _ _ _ _ _ _ _ Hsc2)).
  - apply (scanning_left serve peer p alone [] 0 _ pages); try done. unfold idle. by rewrite Ew.
Qed.

(* ---------------------------------------------------------------- *)
(** ** A server to run it with *)

#[local] Existing Instance sample_catalog.
#[local] Existing Instance sample_types.
#[local] Existing Instance sample_float4.

Definition list_map : VfdwTableMap :=
  match vfdw_map_build sample_parse_bool 7
    [Attribute "k" TEXTOID (-1) false []; Attribute "v" TEXTOID (-1) false []] [("tabletype", "list"); ("keyprefix", "q:")] with
  | Ok m => m
  | Raise _ => sample_map
  end.

Definition list_plan : ScanPlan := MkScanPlan list_map VFDW_SCAN_KEYSPACE (Some "q:*") 100 2 0 1 10.

(** Three pages, the second of them empty; the second key is not a list. *)
Definition list_server (c : list bytes) (n : unit) : Reply * unit :=
  (match c with
   | ["SCAN"; "0"; "MATCH"; "q:*"; "COUNT"; "100"; "TYPE"; "list"] => page_reply "5" ["q:1"]
   | ["SCAN"; "5"; "MATCH"; "q:*"; "COUNT"; "100"; "TYPE"; "list"] => page_reply "7" []
   | ["SCAN"; "7"; "MATCH"; "q:*"; "COUNT"; "100"; "TYPE"; "list"] => page_reply "0" ["q:2"; "q:3"]
   | ["LRANGE"; "q:1"; "0"; "-1"] => array_reply [string_reply "a"; string_reply "b"]
   | ["LRANGE"; "q:2"; "0"; "-1"] => error_reply "WRONGTYPE Operation against a key"
   | ["LRANGE"; "q:3"; "0"; "-1"] => array_reply [string_reply "c"]
   | _ => error_reply "ERR unknown command"
   end, n).

Definition list_conn : Conn (P := unit) := MkConn () [] [] false false [].
Definition no_pool (n : VfdwClusterNode) : M unit (Conn (P := unit)) := raise (elog_error "no pool").
Definition no_search : M (ScanWorld (P := unit) (W := unit)) (option ScanRow) := mret None.
Definition list_row (k v : bytes) : ScanRow := ServerRow [Some (text_datum k); Some (text_datum v)].

Definition list_pages : list (list bytes) := [["q:1"]; []; ["q:2"; "q:3"]].
Definition list_rows : list (list ScanRow) := [[list_row "q:1" "a"; list_row "q:1" "b"]; []; [list_row "q:3" "c"]].

Lemma list_pages_read : Pages (λ c, (list_server c ()).1) list_plan "0" list_pages.
Proof.
  apply pages_more with "5"; [reflexivity|discriminate|].
  apply pages_more with "7"; [reflexivity|discriminate|]. apply pages_last. reflexivity.
Qed.

Lemma list_keys_readable : Forall2 (readable list_server () list_plan) (concat list_pages) list_rows.
Proof. repeat constructor. Qed.

Lemma keyspace_scan_is_complete_witness :
  (scan_rows list_server no_pool (λ _ w, w) id no_search 4 20 (open_world list_plan list_conn wbuf_empty ∅ ())).1
    = Ok [list_row "q:1" "a"; list_row "q:1" "b"; list_row "q:3" "c"].
Proof.
  apply (keyspace_scan_is_complete list_server no_pool (λ _ w, w) id no_search list_plan list_conn wbuf_empty ∅ ()
    list_pages list_rows 4 20); try reflexivity.
  - exact list_pages_read.
  - exact list_keys_readable.
  - simpl. lia.
  - vm_compute. lia.
Defined.

Lemma rescan_starts_over_witness :
  ((fetch_some list_server no_pool (λ _ w, w) id no_search 1 20;;; vfdw_scan_rescan list_server None;;;
    scan_rows list_server no_pool (λ _ w, w) id no_search 4 20) (open_world list_plan list_conn wbuf_empty ∅ ())).1
    = Ok [list_row "q:1" "a"; list_row "q:1" "b"; list_row "q:3" "c"].
Proof.
  apply (rescan_starts_over list_server no_pool (λ _ w, w) id no_search list_plan list_conn wbuf_empty ∅ ()
    list_pages list_rows 4 20 1 None); try reflexivity.
  - exact list_pages_read.
  - exact list_keys_readable.
  - simpl. lia.
  - simpl. lia.
  - vm_compute. lia.
Defined.

(* ---------------------------------------------------------------- *)
(** ** A rescan of a cluster *)

(** Two primaries, one key each; the peer is the port of the node. *)
Definition cluster_server (c : list bytes) (port : Z) : Reply * Z :=
  (match c with
   | ["CLUSTER"; "SHARDS"] => MkReply VALKEY_REPLY_ARRAY 0 None (Some sample_shards)
   | "SCAN" :: _ => page_reply "0" [if bool_decide (port = 7001) then "q:1" else "q:2"]
   | ["LRANGE"; k; "0"; "-1"] => array_reply [string_reply ("of " +:+ k)]
   | _ => error_reply "ERR unknown command"
   end, port).

Definition cluster_conn (port : Z) : Conn (P := Z) := MkConn port [] [] false false [].
Definition cluster_pool (n : VfdwClusterNode) : M unit (Conn (P := Z)) := mret (cluster_conn (node_port n)).
Definition no_cluster_search : M (ScanWorld (P := Z) (W := unit)) (option ScanRow) := mret None.

Definition two_passes : M (ScanWorld (P := Z) (W := unit)) (list ScanRow * list ScanRow) :=
  vfdw_scan_cluster_setup cluster_server cluster_pool (λ _ w, w) true;;;
  (first ← scan_rows cluster_server cluster_pool (λ _ w, w) id no_cluster_search 4 20;
   vfdw_scan_rescan cluster_server None;;;
   (second ← scan_rows cluster_server cluster_pool (λ _ w, w) id no_cluster_search 4 20;
    mret (first, second))).

(** A rescan does not take the fan-out back to the first node: on a cluster
    of two primaries with a key each, the first pass returns both keys and the
    second pass, on the same keyspace, only the key of the last node. *)
Theorem cluster_rescan_loses_nodes :
  (two_passes (open_world list_plan (cluster_conn 7001) wbuf_empty ∅ ())).1 =
    Ok ([list_row "q:1" "of q:1"; list_row "q:2" "of q:2"], [list_row "q:2" "of q:2"]).
Proof. vm_compute. reflexivity. Qed.
