(* ===== verification/ScanMerge.v ===== *)
(** A scan inside a transaction that has written (src/vfdw_scan_overlay.c under
    src/vfdw_scan.c, over src/vfdw_overlay.c): the rows the server has, each replaced or
    hidden as the transaction's log says, and behind them the rows that only the log
    has. *)
From S2P Require Import Prelude Opcode Option OptionFacts Error Cmd CmdFacts WriteOp Wbuf WbufFacts Overlay OverlayFacts.
From S2P Require Import Ledger LedgerActions WritePath ReadYourWrites.
From S2P Require Import TableMap TableMapFacts Ttl Vec Row ScanCmd RowFacts Val ValFacts Cluster ClusterFacts Scan ScanFacts ScanResults.
From stdpp Require Import relations.
Local Open Scope Z_scope.

Lemma log_verdict_replaces relid key cid log : log_verdict relid key cid log ≠ (VFDW_OVL_REPLACE, None).
Proof. unfold log_verdict. by repeat case_match. Qed.

(* ---------------------------------------------------------------- *)
(** ** What is left of the log when the server has answered *)

Section tail.
Context `{PgTypes}.

(** The rows of the log that no key of [seen] stands for, each key once. *)
Fixpoint tail_rows (seen : list bytes) (l : list (HeapTuple * bytes)) : list ScanRow :=
  match l with
  | [] => []
  | (t, k) :: l => if bool_decide (k ∈ seen) then tail_rows seen l else BufferedRow t :: tail_rows (k :: seen) l
  end.

Lemma tail_rows_same s s' l : (∀ k, k ∈ s ↔ k ∈ s') → tail_rows s l = tail_rows s' l.
Proof.
  revert s s'. induction l as [|[t k] l IH]; intros s s' Hs; [done|]. cbn [tail_rows]. rewrite (bool_decide_ext _ _ (Hs k)).
  case_bool_decide; [by apply IH|]. f_equal. apply IH. intros k'. by rewrite !elem_of_cons, Hs.
Qed.
End tail.

Section merge.
Context `{TypeCatalog} `{PgTypes} `{Float4IO}.
Context {P W : Type} (serve : list bytes → P → Reply * P) (peer : P).
Context (pool_get : VfdwClusterNode → M W (Conn (P := P))) (pool_put : Conn (P := P) → W → W).
Context (beyond_copy : bytes → bytes) (search_next : M (ScanWorld (P := P) (W := W)) (option ScanRow)).
Hypothesis unmoved : ∀ c, (serve c peer).2 = peer.
Context (p : ScanPlan) (keyspace : sp_strategy p = VFDW_SCAN_KEYSPACE).
(** The log, and the addresses of its operations. *)
Context (log : list VfdwWriteOp) (xs : list nat) (gen : Z).

Abbreviation World := (ScanWorld (P := P) (W := W)).
Abbreviation fetch := (fetch_loop serve pool_get pool_put beyond_copy).
Abbreviation relid := (map_relid (sp_map p)).
Abbreviation cid := (sp_overlay_cid p).
Abbreviation verdict key := (log_verdict relid key cid log).
Abbreviation owed_from j := (omap (owed relid cid log) (drop j log)).

(** What the scan gives for a key of the server. *)
Definition merged (key : bytes) (rows : list ScanRow) : Prop :=
  match verdict key with
  | (VFDW_OVL_REPLACE, t) => rows = default [] ((λ t, [BufferedRow t]) <$> t)
  | (VFDW_OVL_HIDE, _) => rows = []
  | (VFDW_OVL_PASS, _) => readable serve peer p key rows
  end.

(** The buffer holds the log. *)
Definition buffers (b : Wbuf) : Prop := rep b xs ∧ coherent b xs ∧ wview b = log ∧ wb_gen b = gen.

Lemma buffers_inactive b : buffers b → vfdw_overlay_active b = false → log = [].
Proof.
  intros (Hr & _ & Hv & _). unfold vfdw_overlay_active, vfdw_wbuf_is_empty. rewrite (rep_nlive _ _ Hr), <- Hv, (wview_rep _ _ Hr).
  case_bool_decide as Hn; [|done]. intros _. destruct xs; [done|]. cbn [length] in Hn. lia.
Qed.

Lemma buffers_same b b' : buffers b → rep b' xs → coherent b' xs → wb_heap b' = wb_heap b → wb_gen b' = wb_gen b → buffers b'.
Proof.
  intros (Hr & _ & Hv & Hg) Hr' Hc' Hh Hg'. split_and!; [done|done| |congruence].
  by rewrite (wview_rep _ _ Hr'), Hh, <- (wview_rep _ _ Hr).
Qed.

Lemma check_buffers key b :
  buffers b → ∃ b', vfdw_overlay_check relid key cid b = (verdict key, b') ∧ buffers b'.
Proof.
  intros Hb. destruct Hb as (Hr & Hc & Hv & Hg) eqn:E. destruct (check_log relid key cid b xs Hr Hc) as (Ha & Hr' & Hh & Hc').
  pose proof (check_gen relid key cid b) as Hg'. rewrite Hv in Ha.
  destruct (vfdw_overlay_check relid key cid b) as [v b']. cbn [fst snd] in *. exists b'. split; [by rewrite Ha|].
  by apply (buffers_same b).
Qed.

(** An iterator at position [j], or one that a change of the log sends back to the start. *)
Definition at_position (it : VfdwOverlayIter) (j : nat) : Prop :=
  it = OverlayIter relid cid gen (xs !! j) ∨
  (j = 0%nat ∧ it_relid it = relid ∧ it_curcid it = cid ∧ it_generation it < gen).

(** The next row the log owes from position [j] on. *)
Lemma iter_buffers it j b :
  buffers b → at_position it j → ∃ b', buffers b' ∧
    ((∃ row i, vfdw_overlay_iter_next it b = (Some row, OverlayIter relid cid gen (xs !! i), b') ∧
        (j < i ≤ length xs)%nat ∧ owed_from j = row :: owed_from i) ∨
     (vfdw_overlay_iter_next it b = (None, OverlayIter relid cid gen None, b') ∧ owed_from j = [])).
Proof.
  intros Hb Hit. destruct Hb as (Hr & Hc & Hv & Hg) eqn:E.
  destruct (iter_loop_spec (S (size (wb_heap b))) b xs j relid cid gen Hr Hc) as (b' & Hr' & Hc' & Hh' & Hg' & Hcase).
  { pose proof (linked_size _ _ (rep_nodup _ _ Hr) (rep_linked _ _ Hr)). lia. }
  assert (En : vfdw_overlay_iter_next it b = iter_loop (S (size (wb_heap b))) (OverlayIter relid cid gen (xs !! j)) b).
  { unfold vfdw_overlay_iter_next, vfdw_wbuf_generation. destruct Hit as [->|(-> & <- & <- & Hlt)].
    - cbn [it_generation]. by rewrite bool_decide_true.
    - rewrite bool_decide_false by lia. unfold vfdw_overlay_iter_init, vfdw_wbuf_generation, vfdw_wbuf_first.
      by rewrite (rep_head _ _ Hr), head_lookup, Hg. }
  rewrite En. rewrite Hv in Hcase. exists b'. split; [by apply (buffers_same b)|].
  destruct Hcase as [(row & i & -> & Hi & Eo)|[-> Eo]]; [left; by exists row, i|by right].
Qed.

(* ---------------------------------------------------------------- *)
(** ** The keys that were seen *)

(** The keys in [s] and no others are noted, if the log has rows to give at the end. *)
Definition Seen (o : ScanOverlay) (s : list bytes) : Prop :=
  owed_from 0 ≠ [] → ∀ k, k ∈ default [] (sv_seen o) ↔ k ∈ s.

Definition same_tail (o o' : ScanOverlay) : Prop := sv_tail o' = sv_tail o ∧ sv_iter o' = sv_iter o.

(** Another buffer and another overlay state. *)
Definition over_world (b : Wbuf) (o : ScanOverlay) (w : World) : World :=
  MkScanWorld (with_overlay o (sw_state w)) (sw_batch w) b (sw_maps w) (sw_pool w).

Lemma over_world_id (w : World) : over_world (sw_wbuf w) (ss_overlay (sw_state w)) w = w.
Proof. by destruct w as [[] ? ? ? ?]. Qed.

Lemma mark_seen_spec key s (w : World) :
  buffers (sw_wbuf w) → Seen (ss_overlay (sw_state w)) s →
  ∃ o, vfdw_scan_mark_seen key w = (Ok (), over_world (sw_wbuf w) o w) ∧ same_tail (ss_overlay (sw_state w)) o ∧ Seen o (key :: s).
Proof.
  intros Hb Hs. unfold vfdw_scan_mark_seen. rewrite gets_bind. destruct (vfdw_overlay_active (sw_wbuf w)) eqn:Ha; cbn [negb].
  - eexists. split; [reflexivity|]. split; [done|]. intros Ho k. specialize (Hs Ho k). simpl. rewrite elem_of_cons, <- Hs. case_bool_decide.
    + split; [by right|]. by intros [->|?].
    + rewrite elem_of_app, list_elem_of_singleton. split; (intros [?|?]; [by right|by left]).
  - exists (ss_overlay (sw_state w)). rewrite over_world_id. split_and!; [done..|]. intros Ho. by rewrite (buffers_inactive _ Hb Ha) in Ho.
Qed.

Lemma apply_overlay_spec key s (w : World) :
  ss_plan (sw_state w) = p → buffers (sw_wbuf w) → Seen (ss_overlay (sw_state w)) s →
  ∃ b o, vfdw_scan_apply_overlay key w =
    (Ok ((verdict key).1, match (verdict key).1 with VFDW_OVL_REPLACE => BufferedRow <$> (verdict key).2 | _ => None end), over_world b o w) ∧
    buffers b ∧ same_tail (ss_overlay (sw_state w)) o ∧ Seen o (key :: s).
Proof.
  intros Hp Hb Hs. unfold vfdw_scan_apply_overlay, plan. rewrite !gets_bind, Hp.
  destruct (vfdw_overlay_active (sw_wbuf w)) eqn:Ha; cbn [negb].
  - destruct (check_buffers key _ Hb) as (b & E & Hb'). rewrite E. destruct (verdict key) as [v t].
    unfold set_wbuf. rewrite modify_bind. set (w1 := MkScanWorld _ _ _ _ _).
    destruct (mark_seen_spec key s w1 Hb' Hs) as (o & E1 & Ht & Hseen).
    exists b, o. unfold mbind, M_bind. rewrite E1. by split_and!.
  - pose proof (buffers_inactive _ Hb Ha) as Hlog. exists (sw_wbuf w), (ss_overlay (sw_state w)). rewrite over_world_id, Hlog.
    split_and!; [done..|]. intros Ho. by rewrite Hlog in Ho.
Qed.

(** One key of the page: what it gives is what the log makes of what the server has. *)
Lemma one_key_merged key rows s (w : World) :
  ss_plan (sw_state w) = p → buffers (sw_wbuf w) → Seen (ss_overlay (sw_state w)) s →
  ss_answers (sw_state w) = key_answers (λ c, (serve c peer).1) p key → su_reply (ss_current (sw_state w)) = None → merged key rows →
  ∃ b o c k, buffers b ∧ same_tail (ss_overlay (sw_state w)) o ∧ Seen o (key :: s) ∧
  let w' := world_state (with_current c) (world_state (with_counters k) (over_world b o w)) in
  match vfdw_scan_one_key beyond_copy key (serve (value_request p key) peer).1 w with
  | (Ok (Some r), w1) => rows = [r] ∧ w1 = w' ∧ su_reply c = None
  | (Ok None, w1) => Pending serve peer p w' rows ∧ w1 = w'
  | (Raise _, _) => False
  end.
Proof using keyspace.
  intros Hp Hb Hs Ha Hc Hm. destruct (apply_overlay_spec key s w Hp Hb Hs) as (b & o & E & Hb' & Ho & Hseen).
  set (c0 := ss_current (sw_state w)) in *. set (k0 := ss_counters (sw_state w)).
  assert (Eid : world_state (with_current c0) (world_state (with_counters k0) (over_world b o w)) = over_world b o w)
    by (unfold c0, k0; by destruct w as [[] ? ? ? ?]).
  unfold merged in Hm. destruct (verdict key) as [[] t] eqn:Ev; cbn [fst snd] in E.
  - destruct Hm as [Hk Hnr].
    pose proof (one_key_pass serve peer beyond_copy p key rows None w (over_world b o w) Hp E Ha Hc Hnr Hk) as Hone.
    destruct (vfdw_scan_one_key beyond_copy key _ w) as [[[r|]|e] w1]; [| |done].
    + destruct Hone as [-> ->]. exists b, o, c0, k0. rewrite Eid. by split_and!.
    + destruct Hone as (Hpen & c & k & ->). exists b, o, c, k. by split_and!.
  - exists b, o, c0, k0. rewrite Eid. split_and!; [done..|]. subst rows. unfold vfdw_scan_one_key, plan.
    rewrite gets_bind, Hp. unfold mbind, M_bind. rewrite E. split; [|done].
    unfold Pending. simpl. fold c0. destruct c0. simpl in Hc. by subst.
  - exists b, o, c0, k0. rewrite Eid. split_and!; [done..|]. unfold vfdw_scan_one_key, plan.
    rewrite gets_bind, Hp. unfold mbind, M_bind. rewrite E. destruct t as [t|]; [|by apply log_verdict_replaces in Ev].
    by subst rows.
Qed.
(* ---------------------------------------------------------------- *)
(** ** Behind the last key *)

(** The rows of the log before [j] were given, or their keys were met. *)
Definition given (j : nat) (s : list bytes) : Prop := ∀ row, row ∈ omap (owed relid cid log) (take j log) → row.2 ∈ s.

Lemma given_next j i row s : given j s → (j < i)%nat → owed_from j = row :: owed_from i → row.2 ∈ s → given i s.
Proof.
  intros Hj Hi Eo Hrow r. assert (Et : take i log = take j log ++ take (i - j) (drop j log)).
  { rewrite take_drop_commute. replace (j + (i - j))%nat with i by lia. rewrite <- (take_drop j (take i log)) at 1. by rewrite take_take, Nat.min_l by lia. }
  assert (Ed : omap (owed relid cid log) (take (i - j) (drop j log)) = [row]).
  { apply (app_inv_tail (owed_from i)). change ([row] ++ owed_from i) with (row :: owed_from i). rewrite <- Eo, <- omap_app. f_equal.
    rewrite <- (take_drop (i - j) (drop j log)) at 2. rewrite drop_drop. by replace (j + (i - j))%nat with i by lia. }
  rewrite Et, omap_app, Ed, elem_of_app, list_elem_of_singleton. intros [?| ->]; [by apply Hj|done].
Qed.

(** The server has no key left, and the log is at [j]. *)
Record TailAt (j : nat) (w : World) (s : list bytes) : Prop := {
  ta_end : Exhausted serve peer p alone w;
  ta_page : page_left w = [];
  ta_none : su_reply (ss_current (sw_state w)) = None;
  ta_buffers : buffers (sw_wbuf w);
  ta_tail : sv_tail (ss_overlay (sw_state w)) = true;
  ta_iter : ∃ it, sv_iter (ss_overlay (sw_state w)) = Some it ∧ at_position it j;
  ta_given : given j s;
  ta_seen : Seen (ss_overlay (sw_state w)) s;
}.

Lemma scanning_over b o (w : World) keys pages :
  Scanning serve peer p alone w keys pages → Scanning serve peer p alone (over_world b o w) keys pages.
Proof. intros [[] ? ?]. by do 2 (split; try done). Qed.

(** The scan may stop here, or start over. *)
Definition Over (w : World) : Prop := ∃ keys pages, Scanning serve peer p alone w keys pages ∧ buffers (sw_wbuf w).

Lemma exhausted_stops b o (w : World) :
  Exhausted serve peer p alone w → page_left w = [] → buffers b → Over (over_world b o w).
Proof. intros (Hr & _ & Ho) Hl Hb. exists [], []. split; [by apply scanning_over; split|done]. Qed.

Lemma exhausted_over b o (w : World) : Exhausted serve peer p alone w → Exhausted serve peer p alone (over_world b o w).
Proof. intros ([] & ? & ?). split; [by split|done]. Qed.

Definition injected (s : list bytes) (j : nat) (r : result (option ScanRow) * World) : Prop :=
  match r with
  | (Ok (Some row), w) => ∃ i s', tail_rows s (owed_from j) = row :: tail_rows s' (owed_from i) ∧ TailAt i w s'
  | (Ok None, w) => tail_rows s (owed_from j) = [] ∧ Over w
  | (Raise _, _) => False
  end.

Lemma owes_some j row rest : owed_from j = row :: rest → owed_from 0 ≠ [].
Proof.
  intros E. change (owed_from 0) with (omap (owed relid cid log) log). rewrite <- (take_drop j log) at 2. rewrite omap_app, E.
  by destruct (omap _ (take j log)).
Qed.

Lemma inject_rows n j (w : World) s :
  TailAt j w s → (length xs - j < n)%nat → injected s j (inject_loop n w).
Proof.
  revert j w s. induction n as [|n IH]; intros j w s [He Hpage Hcur Hb Ht (it & Hit & Hat) Hgiven Hs] Hn; [lia|].
  cbn [inject_loop]. rewrite get_bind, Hit.
  destruct (iter_buffers it j _ Hb Hat) as (b & Hb' & [([t k] & i & -> & Hi & Eo)|[-> Eo]]); unfold set_wbuf, set_state; rewrite !modify_bind.
  2:{ unfold injected. rewrite Eo. split; [done|]. by apply (exhausted_stops b _ w). }
  rewrite state_bind. unfold id. set (w1 := MkScanWorld _ _ _ _ _).
  assert (Hw1 : ∀ s', Seen (ss_overlay (sw_state w1)) s' → given j s' → k ∈ s' → TailAt i w1 s').
  { intros s' Hs' Hg' Hk'. split; try done; [by apply (exhausted_over b _ w)|eexists; split; [done|by left]|].
    apply (given_next j i (t, k)); [done|lia|done|done]. }
  unfold injected. rewrite Eo. cbn [tail_rows].
  assert (Es : vfdw_scan_already_seen (sw_state w1) k = bool_decide (k ∈ s)).
  { rewrite <- (bool_decide_ext _ _ (Hs (owes_some _ _ _ Eo) k)). unfold vfdw_scan_already_seen. simpl.
    by destruct (sv_seen (ss_overlay (sw_state w))). }
  rewrite Es. case_bool_decide as Hk; [by apply IH; [apply Hw1|lia]|].
  destruct (mark_seen_spec k s w1 Hb' Hs) as (o & E & [Eot Eoi] & Hseen).
  unfold mbind, M_bind. rewrite E. cbn. exists i, (k :: s). split; [done|].
  split; try done; [by apply (exhausted_over b o w)|simpl; by rewrite Eot|simpl; rewrite Eoi; eexists; split; [done|by left]|].
  apply (given_next j i (t, k)); [|lia|done|by left]. intros row Hrow. right. by apply Hgiven.
Qed.

(** The scan before its last key, in a transaction: [s] are the keys it has met. *)
Record Merging (w : World) (keys : list bytes) (pages : list (list bytes)) (s : list bytes) : Prop := {
  mg_scanning : Scanning serve peer p alone w keys pages;
  mg_buffers : buffers (sw_wbuf w);
  mg_tail : sv_tail (ss_overlay (sw_state w)) = false;
  mg_seen : Seen (ss_overlay (sw_state w)) s;
}.

Definition MergeLeft (fuel : nat) (w : World) (rows : list ScanRow) : Prop := ∃ cur keys pages later s,
  Pending serve peer p w cur ∧ Merging w keys pages s ∧ Forall2 merged (keys ++ concat pages) later ∧
  rows = cur ++ concat later ++ tail_rows (s ++ keys ++ concat pages) (owed_from 0) ∧ (length keys + weight pages + 2 ≤ fuel)%nat.

Definition TailLeft (fuel : nat) (w : World) (rows : list ScanRow) : Prop := ∃ j s,
  TailAt j w s ∧ rows = tail_rows s (owed_from j) ∧ (2 ≤ fuel)%nat.

Definition AllLeft (fuel : nat) (w : World) (rows : list ScanRow) : Prop := MergeLeft fuel w rows ∨ TailLeft fuel w rows.

Lemma all_left_mono n n' (w : World) rows : AllLeft n w rows → (n ≤ n')%nat → AllLeft n' w rows.
Proof.
  intros [(cur & keys & pages & later & s & H')|(j & s & Ht & Hr & Hf)] Hn; [left|right].
  - destruct H' as (? & ? & ? & ? & ?). exists cur, keys, pages, later, s. by split_and!; [..|lia].
  - exists j, s. by split_and!; [..|lia].
Qed.

Lemma all_left_plan f (w : World) rows : AllLeft f w rows → ss_plan (sw_state w) = p.
Proof.
  intros [(? & ? & ? & ? & ? & _ & Hmg & _)|(? & ? & Ht & _)]; [|apply (rd_plan _ _ _ _ _ _ (proj1 (ta_end _ _ _ Ht)))].
  apply (rd_plan _ _ _ _ _ _ (sg_ready _ _ _ _ _ _ _ (mg_scanning _ _ _ _ Hmg))).
Qed.

Lemma all_left_stops f (w : World) rows : AllLeft f w rows → Over w.
Proof.
  intros [(? & keys & pages & ? & ? & _ & [Hsc Hb _ _] & _)|(? & ? & [He Hpage _ Hb _ _ _ _] & _)]; [by exists keys, pages|].
  rewrite <- over_world_id. by apply exhausted_stops.
Qed.

Abbreviation fetches := (fetched AllLeft Over).

Lemma injected_fetches f s j r : injected s j r → (2 ≤ f)%nat → fetches f (tail_rows s (owed_from j)) r.
Proof.
  destruct r as [[[row|]|e] w]; simpl; [|done..]. intros (i & s' & E & Ht) Hf. exists (tail_rows s' (owed_from i)).
  split; [done|]. right. by exists i, s'.
Qed.

Lemma inject_fetches f j s (w : World) :
  TailAt j w s → (2 ≤ f)%nat → fetches f (tail_rows s (owed_from j)) (vfdw_scan_inject w).
Proof.
  intros Ht Hf. unfold vfdw_scan_inject. rewrite gets_bind. apply injected_fetches; [|done]. apply inject_rows; [done|].
  destruct (ta_buffers _ _ _ Ht) as (Hr & _). pose proof (linked_size _ _ (rep_nodup _ _ Hr) (rep_linked _ _ Hr)). lia.
Qed.

(** Draining, from the first time on. *)
Lemma drain_begins f s (w : World) :
  Exhausted serve peer p alone w → page_left w = [] → su_reply (ss_current (sw_state w)) = None → buffers (sw_wbuf w) →
  sv_tail (ss_overlay (sw_state w)) = false → Seen (ss_overlay (sw_state w)) s → (2 ≤ f)%nat →
  fetches f (tail_rows s (owed_from 0)) (vfdw_scan_drain_tail w).
Proof.
  intros He Hpage Hcur Hb Ht Hs Hf. unfold vfdw_scan_drain_tail, plan. rewrite !gets_bind.
  destruct (vfdw_overlay_active (sw_wbuf w)) eqn:Ha; cbn [negb].
  2:{ split; [by rewrite (buffers_inactive _ Hb Ha)|]. rewrite <- over_world_id. by apply exhausted_stops. }
  rewrite state_bind, Ht. cbn [negb when]. unfold set_state. rewrite modify_bind. apply inject_fetches; [|done].
  destruct (Hb) as (Hr & _ & _ & Hg). destruct He as (Hrd & Hc & Ho). split; try done.
  - by destruct Hrd; do 2 (split; try done).
  - eexists. split; [done|]. left. simpl. rewrite (rd_plan _ _ _ _ _ _ Hrd).
    unfold vfdw_overlay_iter_init, vfdw_wbuf_generation, vfdw_wbuf_first. by rewrite (rep_head _ _ Hr), head_lookup, Hg.
  - intros row Hrow. by apply not_elem_of_nil in Hrow.
Qed.

Lemma drain_goes_on f j s (w : World) : TailAt j w s → (2 ≤ f)%nat → fetches f (tail_rows s (owed_from j)) (vfdw_scan_drain_tail w).
Proof.
  intros Ht Hf. unfold vfdw_scan_drain_tail, plan. rewrite !gets_bind.
  destruct (vfdw_overlay_active (sw_wbuf w)) eqn:Ha; cbn [negb].
  - rewrite state_bind, (ta_tail _ _ _ Ht). cbn [negb when]. rewrite ret_bind. by apply inject_fetches.
  - destruct Ht as [He Hpage _ Hb _ _ _ _]. split; [rewrite (buffers_inactive _ Hb Ha) at 2; by rewrite drop_nil|].
    rewrite <- over_world_id. by apply exhausted_stops.
Qed.

(* ---------------------------------------------------------------- *)
(** ** The whole scan *)

Abbreviation read_step := (read_step serve pool_get pool_put beyond_copy).
Abbreviation refill_step := (refill_step serve pool_get pool_put beyond_copy).

Lemma merging_current c (w : World) keys pages s : Merging w keys pages s → Merging (world_state (with_current c) w) keys pages s.
Proof. intros [? ? ? ?]. split; try done. by apply scanning_current. Qed.

(** The next key of the page. *)
Lemma merge_key f key keys pages rows s (w : World) :
  Merging w (key :: keys) pages s → su_reply (ss_current (sw_state w)) = None → merged key rows →
  ∃ w', Merging w' keys pages (key :: s) ∧
    ((read_step f key w = fetch f w' ∧ Pending serve peer p w' rows) ∨
     (∃ r, read_step f key w = (Ok (Some r), w') ∧ rows = [r] ∧ Pending serve peer p w' [])).
Proof using keyspace.
  intros [Hsc Hb Ht Hs] Hcur Hm. pose proof (sg_left _ _ _ _ _ _ _ Hsc) as Hleft. pose proof (sg_owed _ _ _ _ _ _ _ Hsc) as Ho.
  rewrite fmap_cons in Ho. pose proof (rd_plan _ _ _ _ _ _ (sg_ready _ _ _ _ _ _ _ Hsc)) as Hp.
  destruct (read_step_takes serve peer pool_get pool_put beyond_copy p f key keys _ w Hp Hleft Ho) as (bs & Ho2 & Hleft2 & ->).
  pose proof (scanning_replies serve peer p alone key bs w keys pages (sg_ready _ _ _ _ _ _ _ Hsc) Hleft2 Ho2) as Hsc2.
  set (w2 := with_replies serve peer p key bs w) in *.
  destruct (one_key_merged key rows s w2 Hp Hb Hs eq_refl Hcur Hm) as (b & o & c & k & Hb' & [Eo _] & Hseen & Hone).
  set (w' := world_state _ _) in Hone.
  assert (Hw' : Merging w' keys pages (key :: s)).
  { split; [by apply scanning_current, scanning_counters, scanning_over|exact Hb'| |exact Hseen]. simpl. by rewrite Eo. }
  exists w'. split; [exact Hw'|]. destruct (vfdw_scan_one_key beyond_copy key _ w2) as [[[r|]|e] w3]; [| |done].
  - destruct Hone as (-> & -> & Hc). right. exists r. split_and!; [done..|]. by apply (pending_none serve peer p w').
  - destruct Hone as [Hpen ->]. by left.
Qed.

(** The next page, or the tail. *)
Lemma merge_refill f pages later s (w : World) :
  Merging w [] pages s → su_reply (ss_current (sw_state w)) = None → Forall2 merged (concat pages) later →
  (weight pages + 2 ≤ S f)%nat → (∀ w rows, AllLeft f w rows → fetches f rows (fetch f w)) →
  fetches (S f) (concat later ++ tail_rows (s ++ concat pages) (owed_from 0)) (refill_step f w).
Proof using keyspace unmoved.
  intros [[Hr Hleft Ho] Hb Ht Hs] Hcur Hread Hf IH. pose proof (weight_length pages). unfold ScanFacts.refill_step.
  unfold mbind at 1, M_bind at 1. rewrite (keyspace_refills serve peer pool_get pool_put p alone f w pages keyspace Hr).
  destruct (next_pages_refill serve peer pool_get pool_put unmoved p alone f w pages keyspace Hr Ho ltac:(lia))
    as [(w1 & -> & ks & pages1 & Hsc1 & Ec & Hw & (Ecur & Eov & Ewb))|(m & w1 & -> & Hm & He & Ec & (Ecur & Eov & Ewb) & Hpl)].
  - apply (fetched_mono AllLeft _ all_left_mono f); [|lia]. apply IH. left. exists [], ks, pages1, later, s. rewrite <- Ec.
    split_and!; [by apply (pending_none serve peer p w)| |done|done|lia].
    split; [done|by rewrite Ewb|by rewrite Eov..].
  - rewrite (alone_ends serve peer pool_get pool_put p alone m w1 eq_refl ltac:(lia) He). rewrite Ec in Hread |- *.
    inversion Hread. rewrite app_nil_r. apply drain_begins; [done|by apply Hpl|by rewrite Ecur|by rewrite Ewb|by rewrite Eov..|lia].
Qed.

Lemma merge_page f keys pages later s (w : World) :
  Merging w keys pages s → su_reply (ss_current (sw_state w)) = None → Forall2 merged (keys ++ concat pages) later →
  (length keys + weight pages + 2 ≤ S f)%nat → (∀ w rows, AllLeft f w rows → fetches f rows (fetch f w)) →
  fetches (S f) (concat later ++ tail_rows (s ++ keys ++ concat pages) (owed_from 0)) (page_step serve pool_get pool_put beyond_copy f w).
Proof using keyspace unmoved.
  intros Hmg Hcur Hread Hf IH. unfold page_step. pose proof (sg_left _ _ _ _ _ _ _ (mg_scanning _ _ _ _ Hmg)) as Hleft.
  fold (page_left w) in Hleft. rewrite Hleft. destruct keys as [|key keys]; [by apply merge_refill|].
  inversion Hread as [|? rs ? later' Hm Hread']. subst. cbn [length] in Hf.
  assert (Et : tail_rows (s ++ (key :: keys) ++ concat pages) (owed_from 0) = tail_rows ((key :: s) ++ keys ++ concat pages) (owed_from 0)).
  { apply tail_rows_same. intros k. cbn [app]. rewrite elem_of_app, !elem_of_cons, !elem_of_app. tauto. }
  rewrite Et. cbn [concat]. rewrite <- app_assoc.
  destruct (merge_key f key keys pages rs s w Hmg Hcur Hm) as (w1 & Hmg1 & [[-> Hpen]|(r & -> & -> & Hpen)]).
  - apply (fetched_mono AllLeft _ all_left_mono f); [|lia]. apply IH. left. exists rs, keys, pages, later', (key :: s). by split_and!; [..|lia].
  - eexists. split; [reflexivity|]. left. exists [], keys, pages, later', (key :: s). by split_and!; [..|lia].
Qed.

Lemma fetch_all f (w : World) rows : AllLeft f w rows → fetches f rows (fetch f w).
Proof using keyspace unmoved.
  revert w rows. induction f as [|f IH]; intros w rows Hl.
  { destruct Hl as [(? & ? & ? & ? & ? & _ & _ & _ & _ & ?)|(? & ? & _ & _ & ?)]; cbn [length] in *; lia. }
  destruct Hl as [(cur & keys & pages & later & s & Hpen & Hmg & Hread & -> & Hf)|(j & s & Ht & -> & Hf)].
  - apply (fetch_step serve peer pool_get pool_put beyond_copy p AllLeft _ f (λ w, Merging w keys pages s)); [| |done|done| |].
    + intros c w1 _. apply merging_current.
    + apply (rd_plan _ _ _ _ _ _ (sg_ready _ _ _ _ _ _ _ (mg_scanning _ _ _ _ Hmg))).
    + intros w1 cur1 Hpen1 Hmg1. left. by exists cur1, keys, pages, later, s.
    + intros w1 Hcur1 Hmg1. by apply merge_page.
  - apply (fetch_step serve peer pool_get pool_put beyond_copy p AllLeft _ f (λ w, TailAt j w s) w []).
    + intros c w1 [r Hr] Ht1. by rewrite (ta_none _ _ _ Ht1) in Hr.
    + apply (rd_plan _ _ _ _ _ _ (proj1 (ta_end _ _ _ Ht))).
    + by apply (pending_none serve peer p w), (ta_none _ _ _ Ht).
    + done.
    + intros w1 cur1 Hpen1 Ht1. right. exists j, s. split_and!; [done| |done].
      by rewrite (pending_put_down serve peer p w1 cur1 Hpen1 (ta_none _ _ _ Ht1)).
    + intros w1 _ Ht1. unfold page_step. rewrite (ta_page _ _ _ Ht1). unfold ScanFacts.refill_step. unfold mbind at 1, M_bind at 1.
      rewrite (keyspace_refills serve peer pool_get pool_put p alone f w1 [] keyspace (proj1 (ta_end _ _ _ Ht1))).
      rewrite (alone_ends serve peer pool_get pool_put p alone f w1 eq_refl ltac:(lia) (ta_end _ _ _ Ht1)). by apply drain_goes_on.
Qed.

(** A scan that starts, whatever the transaction has buffered. *)
Lemma starts_merging conn b maps (pool : W) pages :
  Pages (λ c, (serve c peer).1) p "0" pages → quiet_conn peer conn → buffers b → Merging (open_world p conn b maps pool) [] pages [].
Proof using keyspace.
  intros Hpg (? & ? & ? & ?) Hb. split; [by apply open_scanning|done..].
Qed.

Lemma merging_left f (w : World) pages later :
  Pending serve peer p w [] → Merging w [] pages [] → Forall2 merged (concat pages) later → (weight pages + 2 ≤ f)%nat →
  AllLeft f w (concat later ++ tail_rows (concat pages) (owed_from 0)).
Proof. intros. left. exists [], [], pages, later, []. by split_and!. Qed.

(** Starting over, wherever the pass before stopped. *)
Lemma rescan_merging param (w : World) pages :
  Over w → Pages (λ c, (serve c peer).1) p "0" pages →
  ∃ w', vfdw_scan_rescan serve param w = (Ok (), w') ∧ Pending serve peer p w' [] ∧ Merging w' [] pages [].
Proof using keyspace.
  intros (keys & rest & Hsc & Hb) Hpg.
  destruct (rescan_ready serve peer p alone w keys rest pages param keyspace Hsc Hpg) as (w' & E & Hsc' & Hpen & Ew & Et & Es).
  exists w'. split_and!; [done|done|]. split; [done|by rewrite Ew|done|]. intros _ k. by rewrite Es.
Qed.
End merge.

(** C19: a scan inside a transaction reads the transaction's writes key by key:
    whatever a session has written, rolled back and read before, a scan of the
    keyspace of one server returns for each key the traversal names what the
    newest visible operation of the log on that key says (its buffered row,
    nothing after a delete, or the server's rows when no operation on the key
    carries a row), and behind them one row, the newest, for every key the
    transaction inserted and the traversal did not name, once each and in the
    order of the log; and then it ends.  The server's data does not change
    meanwhile.  The unit is the key, not the row: two
    members inserted under one key are one row (members_of_a_key_are_one_row),
    and a row renamed to another key is still read under the old one
    (renamed_row_stays_under_the_old_key). *)
Theorem scan_merges_own_writes `{TypeCatalog} `{PgTypes} `{Float4IO} {P W : Type}
    (serve : list bytes → P → Reply * P) (pool_get : VfdwClusterNode → M W (Conn (P := P)))
    (pool_put : Conn (P := P) → W → W) (beyond_copy : bytes → bytes)
    (search_next : M (ScanWorld (P := P) (W := W)) (option ScanRow))
    (keeper : Z) (s : Session) (p : ScanPlan) (conn : Conn (P := P)) maps (pool : W)
    (pages : list (list bytes)) (later : list (list ScanRow)) (calls fuel : nat) :
  let peer := cn_peer conn in
  let log := wview (s_w s) in
  let tail := tail_rows (concat pages) (omap (owed (map_relid (sp_map p)) (sp_overlay_cid p) log) log) in
  (∀ c, (serve c peer).2 = peer) →
  sp_strategy p = VFDW_SCAN_KEYSPACE → quiet_conn peer conn →
  rtc (rstep keeper) session_start s →
  Pages (λ c, (serve c peer).1) p "0" pages →
  Forall2 (merged serve peer p log) (concat pages) later →
  (length (concat later ++ tail) < calls)%nat → (weight pages + 2 ≤ fuel)%nat →
  (scan_rows serve pool_get pool_put beyond_copy search_next calls fuel (open_world p conn (s_w s) maps pool)).1
    = Ok (concat later ++ tail).
Proof.
  intros peer log tail Hu Hk Hq Hs Hpg Hread Hc Hf. destruct (rreachable_inv keeper s Hs) as [_ [_ (xs & Hx & Hxc)]].
  assert (Hknn : sp_strategy p ≠ VFDW_SCAN_KNN) by (by rewrite Hk).
  assert (Hb : buffers log xs (wb_gen (s_w s)) (s_w s)) by done.
  pose proof (starts_merging serve peer p Hk log xs (wb_gen (s_w s)) conn (s_w s) maps pool pages Hpg Hq Hb) as Hmg.
  apply (scan_rows_of serve pool_get pool_put beyond_copy search_next p (AllLeft serve peer p log xs (wb_gen (s_w s)))
    (Over serve peer p log xs (wb_gen (s_w s)))); [done| | |done].
  - intros w rows Hl. split; [by eapply all_left_plan|by apply fetch_all].
  - by apply merging_left.
Qed.

(* ---------------------------------------------------------------- *)
(** ** A transaction and a server to run it with *)

#[local] Existing Instance sample_catalog.
#[local] Existing Instance sample_types.
#[local] Existing Instance sample_float4.

(** A table of strings; the server has three keys, on two pages. *)
Module SampleMerge.
Definition text_map : VfdwTableMap :=
  match vfdw_map_build sample_parse_bool 7
    [Attribute "k" TEXTOID (-1) false []; Attribute "v" TEXTOID (-1) false []] [("keyprefix", "s:")] with
  | Ok m => m
  | Raise _ => sample_map
  end.

(** The command reads what the commands before the fourth have written. *)
Definition text_plan : ScanPlan := MkScanPlan text_map VFDW_SCAN_KEYSPACE (Some "s:*") 100 2 4 1 10.

Definition text_server (c : list bytes) (n : unit) : Reply * unit :=
  (match c with
   | ["SCAN"; "0"; "MATCH"; "s:*"; "COUNT"; "100"; "TYPE"; "string"] => page_reply "8" ["s:1"; "s:2"]
   | ["SCAN"; "8"; "MATCH"; "s:*"; "COUNT"; "100"; "TYPE"; "string"] => page_reply "0" ["s:3"]
   | ["GET"; key] => string_reply ("of " +:+ key)
   | _ => error_reply "ERR unknown command"
   end, n).

Definition op (kind : VfdwOpKind) (key : bytes) (t : option HeapTuple) : VfdwWriteOp :=
  WriteOp None None kind 7 VFDW_TABLE_STRING 1 1 0 key None None None (Some "new") None [] [] [] false t [] None.
Definition write (cid : Z) (o : VfdwWriteOp) (w : Wbuf) : Wbuf := (vfdw_modify_row (Ok o) 200 100 1 cid w).2.

Definition b1 : Wbuf := (vfdw_wbuf_bind 1024 10 20 30 0 100 65536 1 wbuf_empty).2.
Definition b2 : Wbuf := write 1 (op VFDW_OP_INSERT "s:9" (Some [Some "s:9"; Some "ins"])) b1.
Definition b3 : Wbuf := write 2 (op VFDW_OP_DELETE "s:1" None) b2.
Definition b4 : Wbuf := write 3 (op VFDW_OP_UPDATE "s:3" (Some [Some "s:3"; Some "upd"])) b3.
Definition s4 : Session := MkSession b4 1 false.

Lemma wrote cid o w w' :
  wb_gen w + 1 < 2 ^ 64 → vfdw_modify_row (Ok o) 200 100 1 cid w = (Ok (), w') →
  rtc (rstep 1024) session_start (MkSession w 1 false) → rtc (rstep 1024) session_start (MkSession w' 1 false).
Proof.
  intros Hg E Hr. eapply rtc_r; [exact Hr|]. apply rs_write; [done|]. exact (ts_row 1024 (Ok o) 200 100 cid w 1 (Ok ()) w' E).
Qed.

Lemma reach_written : rtc (rstep 1024) session_start s4.
Proof.
  apply (wrote 3 (op VFDW_OP_UPDATE "s:3" (Some [Some "s:3"; Some "upd"])) b3); [vm_compute; reflexivity..|].
  apply (wrote 2 (op VFDW_OP_DELETE "s:1" None) b2); [vm_compute; reflexivity..|].
  apply (wrote 1 (op VFDW_OP_INSERT "s:9" (Some [Some "s:9"; Some "ins"])) b1); [vm_compute; reflexivity..|].
  eapply rtc_r; [apply rtc_refl|]. apply rs_write; [vm_compute; reflexivity|].
  exact (ts_bind 1024 10 20 30 0 100 65536 wbuf_empty 1 (Ok ()) b1 eq_refl).
Qed.

Definition pages : list (list bytes) := [["s:1"; "s:2"]; ["s:3"]].
Definition later : list (list ScanRow) :=
  [[]; [list_row "s:2" "of s:2"]; [BufferedRow [Some "s:3"; Some "upd"]]].

Lemma pages_read : Pages (λ c, (text_server c ()).1) text_plan "0" pages.
Proof. apply pages_more with "8"; [reflexivity|discriminate|]. apply pages_last. reflexivity. Qed.

Abbreviation verdict key := (log_verdict (map_relid (sp_map text_plan)) key (sp_overlay_cid text_plan) (wview (s_w s4))).

Lemma verdicts :
  verdict "s:1" = (VFDW_OVL_HIDE, None) ∧ verdict "s:2" = (VFDW_OVL_PASS, None) ∧
  verdict "s:3" = (VFDW_OVL_REPLACE, Some [Some "s:3"; Some "upd"]).
Proof. split_and!; vm_compute; reflexivity. Qed.

Lemma keys_merged : Forall2 (merged text_server () text_plan (wview (s_w s4))) (concat pages) later.
Proof.
  destruct verdicts as (E1 & E2 & E3). apply Forall2_cons. split; [unfold merged; by rewrite E1|].
  apply Forall2_cons. split; [unfold merged; rewrite E2; by split|].
  apply Forall2_cons. split; [unfold merged; by rewrite E3|]. by apply Forall2_nil.
Qed.
End SampleMerge.

Lemma scan_merges_own_writes_witness :
  (scan_rows SampleMerge.text_server no_pool (λ _ w, w) id no_search 4 20
    (open_world SampleMerge.text_plan list_conn (s_w SampleMerge.s4) ∅ ())).1
    = Ok [list_row "s:2" "of s:2"; BufferedRow [Some "s:3"; Some "upd"]; BufferedRow [Some "s:9"; Some "ins"]].
Proof.
  etransitivity; [apply (scan_merges_own_writes SampleMerge.text_server no_pool (λ _ w, w) id no_search 1024 SampleMerge.s4
    SampleMerge.text_plan list_conn ∅ () SampleMerge.pages SampleMerge.later 4 20)|vm_compute; reflexivity].
  - reflexivity.
  - reflexivity.
  - repeat split.
  - exact SampleMerge.reach_written.
  - exact SampleMerge.pages_read.
  - exact SampleMerge.keys_merged.
  - vm_compute. lia.
  - vm_compute. lia.
Defined.

(* ---------------------------------------------------------------- *)
(** ** Where the key is not the row *)

Definition run_text (b : Wbuf) : result (list ScanRow) :=
  (scan_rows SampleMerge.text_server no_pool (λ _ w, w) id no_search 8 20
     (open_world SampleMerge.text_plan list_conn b ∅ ())).1.

(** The row "s:2" is renamed to "s:4": a later command still reads the server's
    row under the old key, and does not read the row under the new one, although
    the operation is visible to it and the flush will send a RENAME. *)
Definition renamed : Wbuf :=
  SampleMerge.write 1 (WriteOp None None VFDW_OP_UPDATE 7 VFDW_TABLE_STRING 1 1 0 "s:4" (Some "s:2") None None
    (Some "new") None [] [] [] false (Some [Some "s:4"; Some "new"]) [] None) SampleMerge.b1.

Theorem renamed_row_stays_under_the_old_key :
  acts_at (wb_ledger renamed) "s:4" = [act VFDW_ACT_RENAME ["s:2"]; act VFDW_ACT_SET ["new"]] ∧
  run_text renamed = Ok [list_row "s:1" "of s:1"; list_row "s:2" "of s:2"; list_row "s:3" "of s:3"].
Proof. split; vm_compute; reflexivity. Qed.

(** A table of sets on a server without keys: two members are inserted under one
    key, the flush will add both, and a later command reads one row. *)
Definition set_map : VfdwTableMap :=
  match vfdw_map_build sample_parse_bool 7
    [Attribute "k" TEXTOID (-1) false []; Attribute "m" TEXTOID (-1) false [("member", "true")]] [("tabletype", "set")] with
  | Ok m => m
  | Raise _ => sample_map
  end.

Definition set_plan : ScanPlan := MkScanPlan set_map VFDW_SCAN_KEYSPACE None 100 2 4 1 10.

Definition no_keys (c : list bytes) (n : unit) : Reply * unit := (page_reply "0" [], n).

Definition member_op (m : bytes) : VfdwWriteOp :=
  WriteOp None None VFDW_OP_INSERT 7 VFDW_TABLE_SET 1 1 0 "k" None (Some m) None None None [] [] [] false
    (Some [Some "k"; Some m]) [] None.

Definition two_members : Wbuf :=
  SampleMerge.write 2 (member_op "n") (SampleMerge.write 1 (member_op "m") SampleMerge.b1).

Theorem members_of_a_key_are_one_row :
  acts_at (wb_ledger two_members) "k" = [act VFDW_ACT_SADD ["m"]; act VFDW_ACT_SADD ["n"]] ∧
  (scan_rows no_keys no_pool (λ _ w, w) id no_search 8 20 (open_world set_plan list_conn two_members ∅ ())).1 =
    Ok [BufferedRow [Some "k"; Some "n"]].
Proof. split; vm_compute; reflexivity. Qed.
