(* ===== verification/ScanWrites.v ===== *)
(** A command that writes while it scans (src/vfdw_scan.c and vfdw_modify.c over
    src/vfdw_wbuf.c): between two rows the log grows, the iteration behind the last key
    starts over, and the scan still returns what it would have returned had the
    command written nothing. *)
From S2P Require Import Prelude Slot Opcode Option Error Cmd CmdFacts WriteOp Ledger Wbuf WbufFacts Overlay OverlayFacts.
From S2P Require Import WritePath ReadYourWrites.
From S2P Require Import TableMap TableMapFacts Ttl Vec Row ScanCmd RowFacts Val ValFacts Cluster Scan ScanFacts ScanResults ScanMerge.
From stdpp Require Import relations.
Local Open Scope Z_scope.

(* ---------------------------------------------------------------- *)
(** ** The log after one more row *)

Lemma buffers_frame log xs g w w' :
  wb_heap w' = wb_heap w → wb_fresh w' = wb_fresh w → wb_head w' = wb_head w →
  wb_tail w' = wb_tail w → wb_nlive w' = wb_nlive w → wb_overlay w' = wb_overlay w →
  wb_gen w' = wb_gen w → wb_shrink_gen w' = wb_shrink_gen w → buffers log xs g w → buffers log xs g w'.
Proof.
  intros E1 E2 E3 E4 E5 E6 E7 E8 (Hr & Hc & Hv & Hg). assert (Hr' : rep w' xs) by (by apply (rep_frame w)).
  split_and!; [done| |by rewrite (wview_rep _ _ Hr'), E1, <- (wview_rep _ _ Hr)|congruence].
  eapply (coherent_grow w); [done|by rewrite E1|done|done|by left|done].
Qed.

Lemma buffers_write log xs g w a o fresh :
  buffers log xs g w → a ∉ xs → (a < fresh)%nat → (wb_fresh w ≤ fresh)%nat →
  buffers log xs g (set_heap (<[a := o]> (wb_heap w)) fresh w).
Proof.
  intros (Hr & Hc & Hv & Hg) Ha Hlt Hle. destruct (rep_insert_out w xs a o fresh Hr Ha Hlt Hle) as [Hr' Hv'].
  split_and!; [done| |by rewrite (wview_rep _ _ Hr'), <- Hv, (wview_rep _ _ Hr)|done].
  eapply (coherent_grow w); [done| |done|done|by left|done].
  intros x Hx. unfold key_of. simpl. rewrite lookup_insert_ne; [done|]. by intros ->.
Qed.

Lemma buffers_append log xs g w a o n cid :
  buffers log xs g w → a ∉ xs → wb_heap w !! a = Some o → g + 1 < 2 ^ 64 →
  buffers (log ++ [bare (stamped o n cid)]) (xs ++ [a]) (g + 1) (appended w a n cid).
Proof.
  intros (Hr & Hc & Hv & Hg) Ha Ho Hlt. destruct (appended_rep w xs a o n cid Hr Ho Ha) as (Hr' & Hv' & _).
  assert (Hgen : wb_gen (appended w a n cid) = g + 1).
  { change (wb_gen (appended w a n cid)) with (u64 (wb_gen w + 1)). destruct Hc as (_ & Hg0 & _). rewrite u64_small; lia. }
  split_and!; [done| |by rewrite (wview_rep _ _ Hr'), Hv', <- Hv, (wview_rep _ _ Hr)|done].
  eapply (coherent_grow w); [by apply prefix_app_r| |done|done| |done].
  - intros x Hx. apply append_key_of. congruence.
  - right. rewrite Hgen. lia.
Qed.

(** The operation a rendered row becomes. *)
Definition logged (op : VfdwWriteOp) (n cid : Z) : VfdwWriteOp := bare (stamped (set_hashslot op (vfdw_val_slot (op_key op))) n cid).

Lemma row_grows log xs g op bytes rbytes n cid w :
  buffers log xs g w → g + 1 < 2 ^ 64 →
  wp (vfdw_modify_row (Ok op) bytes rbytes n cid)
    (λ _ w', ∃ a, buffers (log ++ [logged op n cid]) (xs ++ [a]) (g + 1) w') (λ _ _, True) w.
Proof.
  intros Hb Hlt. unfold vfdw_modify_row. apply wp_bind. unfold wp at 1, vfdw_wbuf_op_new. rewrite get_bind.
  destruct (u_bound (wb_unit w)); simpl; [|done]. destruct (over_byte_cap w); [done|]. unfold wbuf_alloc. rewrite !modify_bind.
  set (w1 := set_mem _ _ _ w). assert (H1 : buffers log xs g w1) by (by apply (buffers_frame log xs g w)).
  pose proof (fresh_spare w1 xs (proj1 H1)) as Ha.
  pose proof (buffers_write log xs g w1 (wb_fresh w1) zeroed_op (S (wb_fresh w1)) H1 Ha ltac:(lia) ltac:(lia)) as H2.
  cbn. set (w2 := set_heap _ _ w1) in *. unfold wp at 1. rewrite modify_bind. set (w3 := set_mem _ _ _ w2).
  assert (H3 : buffers log xs g w3) by (by apply (buffers_frame log xs g w2)).
  fold (wp (op_fill (wb_fresh w1) (set_hashslot op (vfdw_val_slot (op_key op)));;; vfdw_wbuf_append (wb_fresh w1) n cid;;;
    (w ← get; match wb_heap w !! wb_fresh w1 with Some o => on_ledger (vfdw_ledger_note o) | None => mret () end))
    (λ _ w', ∃ a, buffers (log ++ [logged op n cid]) (xs ++ [a]) (g + 1) w') (λ _ _, True) w3).
  apply wp_bind. unfold wp at 1, op_fill, modify.
  pose proof (buffers_write log xs g w3 (wb_fresh w1) (set_links (set_hashslot op (vfdw_val_slot (op_key op))) None None) (wb_fresh w3)
    H3 Ha ltac:(simpl; lia) ltac:(lia)) as H4. set (w4 := set_heap _ _ w3) in *.
  apply wp_bind. unfold wp at 1. rewrite append_eq. case_bool_decide; [done|]. destruct (over_byte_cap w4); [done|].
  assert (Ho : wb_heap w4 !! wb_fresh w1 = Some (set_links (set_hashslot op (vfdw_val_slot (op_key op))) None None)) by apply lookup_insert_eq.
  pose proof (buffers_append log xs g w4 _ _ n cid H4 Ha Ho Hlt) as H5. unfold wp. rewrite get_bind.
  destruct (wb_heap (appended w4 (wb_fresh w) n cid) !! wb_fresh w) as [o|]; [|by exists (wb_fresh w1)].
  unfold on_ledger. destruct (vfdw_ledger_note o _) as [[[]|e] l]; [|done]. exists (wb_fresh w1). by eapply buffers_frame; [..|exact H5].
Qed.

(* ---------------------------------------------------------------- *)
(** ** What the command wrote itself is not there for it *)

Lemma verdict_grows relid key cid log o : cid ≤ op_cid o → log_verdict relid key cid (log ++ [o]) = log_verdict relid key cid log.
Proof.
  intros Hc. unfold log_verdict. rewrite filter_app, filter_cons, decide_False by (unfold visible; lia).
  by rewrite filter_nil, app_nil_r.
Qed.

Lemma owed_grows relid cid log o x : cid ≤ op_cid o → owed relid cid (log ++ [o]) x = owed relid cid log x.
Proof. intros Hc. unfold owed. by rewrite verdict_grows. Qed.

(** An operation that owes the end of the scan no row of its own. *)
Definition owes_no_row (relid cid : Z) (log : list VfdwWriteOp) (o : VfdwWriteOp) : Prop := cid ≤ op_cid o ∧ owed relid cid log o = None.

Lemma all_owed_grows relid cid log o :
  owes_no_row relid cid log o → omap (owed relid cid (log ++ [o])) (log ++ [o]) = omap (owed relid cid log) log.
Proof.
  intros [Hc Hn]. rewrite omap_app. csimpl. rewrite (owed_grows _ _ _ _ _ Hc), Hn, app_nil_r.
  clear Hn. generalize log at 2 4 as l. intros l. induction l as [|x l IH]; [done|]. csimpl. by rewrite (owed_grows _ _ _ _ _ Hc), IH.
Qed.

Lemma tail_rows_given `{PgTypes} s (l l' : list (HeapTuple * bytes)) :
  (∀ row, row ∈ l → row.2 ∈ s) → tail_rows s (l ++ l') = tail_rows s l'.
Proof.
  induction l as [|[t k] l IH]; intros Hl; [done|]. cbn [app tail_rows]. rewrite bool_decide_true by (apply (Hl (t, k)); by left).
  apply IH. intros row Hrow. apply Hl. by right.
Qed.

Section grows.
Context `{TypeCatalog} `{PgTypes} `{Float4IO}.
Context {P W : Type} (serve : list bytes → P → Reply * P) (peer : P) (p : ScanPlan).
Context (log : list VfdwWriteOp) (xs : list nat) (gen : Z) (o : VfdwWriteOp) (a : nat).
Abbreviation World := (ScanWorld (P := P) (W := W)).
Abbreviation relid := (map_relid (sp_map p)).
Abbreviation cid := (sp_overlay_cid p).
Hypothesis silent : owes_no_row relid cid log o.

Definition with_wbuf (b : Wbuf) (w : World) : World := MkScanWorld (sw_state w) (sw_batch w) b (sw_maps w) (sw_pool w).

Lemma merged_grows key rows : merged serve peer p log key rows → merged serve peer p (log ++ [o]) key rows.
Proof using silent. unfold merged. by rewrite (verdict_grows _ _ _ _ _ (proj1 silent)). Qed.

Lemma seen_grows ov s : Seen p log ov s → Seen p (log ++ [o]) ov s.
Proof using silent. unfold Seen. cbn [drop]. by rewrite all_owed_grows. Qed.

Lemma tail_grows j (w : World) s b :
  TailAt serve peer p log xs gen j w s → buffers (log ++ [o]) (xs ++ [a]) (gen + 1) b →
  TailAt serve peer p (log ++ [o]) (xs ++ [a]) (gen + 1) 0 (with_wbuf b w) s ∧
  tail_rows s (omap (owed relid cid (log ++ [o])) (log ++ [o])) = tail_rows s (omap (owed relid cid log) (drop j log)).
Proof using silent.
  intros [([] & ? & ?) ? ? ? ? (it & Hit & Hat) Hg Hs] Hb. split.
  - split; try done; [|by intros row Hrow; apply not_elem_of_nil in Hrow|by apply seen_grows].
    exists it. split; [done|]. right. destruct Hat as [->|(_ & ? & ? & ?)]; split_and!; try done; simpl; lia.
  - rewrite all_owed_grows by done. rewrite <- (take_drop j log) at 2. rewrite omap_app. by apply tail_rows_given.
Qed.

(** The rows that are left are the same. *)
Lemma all_left_grows f (w : World) rows b :
  AllLeft serve peer p log xs gen f w rows → buffers (log ++ [o]) (xs ++ [a]) (gen + 1) b →
  AllLeft serve peer p (log ++ [o]) (xs ++ [a]) (gen + 1) f (with_wbuf b w) rows.
Proof using silent.
  intros [(cur & keys & pages & later & s & Hpen & [[[] ? ?] _ Ht Hs] & Hread & -> & Hf)|(j & s & Ht & -> & Hf)] Hb.
  - left. exists cur, keys, pages, later, s. split_and!; [done| | |by cbn [drop]; rewrite all_owed_grows|done].
    + split; [by do 2 (split; try done)|done|done|by apply seen_grows].
    + eapply Forall2_impl; [exact Hread|]. intros key rows. apply merged_grows.
  - destruct (tail_grows j w s b Ht Hb) as [Ht' Er]. right. exists 0%nat, s. split_and!; [done|exact (eq_sym Er)|done].
Qed.
End grows.

(* ---------------------------------------------------------------- *)
(** ** The executor's loop of a command that modifies what it scans *)

(** What vfdw_modify_row is called with for one row. *)
Record RowWrite := MkRowWrite { rw_op : result VfdwWriteOp; rw_bytes : Z; rw_rbytes : Z; rw_nest : Z; rw_cid : Z }.

Definition write_row (r : RowWrite) : M Wbuf unit := vfdw_modify_row (rw_op r) (rw_bytes r) (rw_rbytes r) (rw_nest r) (rw_cid r).

Section loop.
Context `{TypeCatalog} `{PgTypes} `{Float4IO}.
Context {P W : Type} (serve : list bytes → P → Reply * P).
Context (pool_get : VfdwClusterNode → M W (Conn (P := P))) (pool_put : Conn (P := P) → W → W).
Context (beyond_copy : bytes → bytes) (search_next : M (ScanWorld (P := P) (W := W)) (option ScanRow)).
Abbreviation World := (ScanWorld (P := P) (W := W)).

Definition write_rows (rs : list RowWrite) : M World unit :=
  miter (λ r w, let '(x, b) := write_row r (sw_wbuf w) in (x, with_wbuf b w)) rs.

(** At most [n] rows: a row is fetched, what the command makes of it is written, and so
    on; [writes] gives what is written after each row. *)
Fixpoint fetch_rows (n fuel : nat) (writes : list (list RowWrite)) : M World (list ScanRow) :=
  match n with
  | O => mret []
  | S n =>
      r ← vfdw_scan_fetch serve pool_get pool_put beyond_copy search_next fuel;
      match r with
      | None => mret []
      | Some row =>
          write_rows (default [] (head writes));;;
          (rows ← fetch_rows n fuel (tail writes); mret (row :: rows))
      end
  end.

(** A scan that is left and started over. *)
Definition two_passes (fuel n1 : nat) (writes1 : list (list RowWrite)) (param : option bytes) (n2 : nat) (writes2 : list (list RowWrite))
    : M World (list ScanRow * list ScanRow) :=
  first ← fetch_rows n1 fuel writes1;
  vfdw_scan_rescan serve param;;;
  (second ← fetch_rows n2 fuel writes2; mret (first, second)).

Context (peer : P) (unmoved : ∀ c, (serve c peer).2 = peer) (p : ScanPlan) (keyspace : sp_strategy p = VFDW_SCAN_KEYSPACE).
Context (log : list VfdwWriteOp).
Abbreviation relid := (map_relid (sp_map p)).
Abbreviation cid := (sp_overlay_cid p).

(** A row written by the command of the scan or a later one; an insert of a key for which
    the scan has no buffered row. *)
Definition written_now (r : RowWrite) : Prop := ∀ op, rw_op r = Ok op →
  cid ≤ rw_cid r ∧ (op_kind op = VFDW_OP_INSERT → op_relid op = relid → (log_verdict relid (op_key op) cid log).1 ≠ VFDW_OVL_REPLACE).

(** A log that answers the scan as [log] does. *)
Definition same_answers (log' : list VfdwWriteOp) : Prop :=
  (∀ key, log_verdict relid key cid log' = log_verdict relid key cid log) ∧
  omap (owed relid cid log') log' = omap (owed relid cid log) log.

(** The rows that are left, under such a log, with room for [n] more operations; the scan
    where it stopped. *)
Definition Standing (n : nat) (fuel : nat) (w : World) (rows : list ScanRow) : Prop := ∃ log' xs gen,
  AllLeft serve peer p log' xs gen fuel w rows ∧ same_answers log' ∧ gen + Z.of_nat n < 2 ^ 64.

Definition Stopped (n : nat) (w : World) : Prop := ∃ log' xs gen,
  Over serve peer p log' xs gen w ∧ same_answers log' ∧ gen + Z.of_nat n < 2 ^ 64.

Lemma all_left_buffers log' xs gen f (w : World) rows : AllLeft serve peer p log' xs gen f w rows → buffers log' xs gen (sw_wbuf w).
Proof. intros Hl. by destruct (all_left_stops _ _ _ _ _ _ _ _ _ Hl) as (? & ? & _ & Hb). Qed.

Lemma standing_stops n m fuel (w : World) rows : Standing n fuel w rows → (m ≤ n)%nat → Stopped m w.
Proof. intros (log' & xs & gen & Hl & Ha & Hg) Hm. exists log', xs, gen. split; [by eapply all_left_stops|]. split; [done|lia]. Qed.

Lemma unrendered_raises e bytes rbytes n c b : wp (vfdw_modify_row (Raise e) bytes rbytes n c) (λ _ _, False) (λ _ _, True) b.
Proof.
  unfold vfdw_modify_row. apply wp_bind. eapply (wp_mono _ (λ _ _, True) _ (λ _ _, True)); [|by intros a b' _|done].
  unfold wp. by destruct (vfdw_wbuf_op_new bytes b) as [[]].
Qed.

Lemma write_one n fuel r (w : World) rows :
  written_now r → Standing (S n) fuel w rows →
  match write_row r (sw_wbuf w) with (Ok _, b) => Standing n fuel (with_wbuf b w) rows | (Raise _, _) => True end.
Proof.
  intros Hr (log' & xs & gen & Hl & [Hv Ho'] & Hg). unfold write_row. pose proof (all_left_buffers _ _ _ _ _ _ Hl) as Hb.
  destruct (rw_op r) as [op|e] eqn:Eop.
  2:{ pose proof (unrendered_raises e (rw_bytes r) (rw_rbytes r) (rw_nest r) (rw_cid r) (sw_wbuf w)) as Hu. unfold wp in Hu.
      by destruct (vfdw_modify_row _ _ _ _ _ _) as [[]]. }
  destruct (Hr op Eop) as [Hc Hi].
  pose proof (row_grows log' xs gen op (rw_bytes r) (rw_rbytes r) (rw_nest r) (rw_cid r) (sw_wbuf w) Hb ltac:(lia)) as Hgrow.
  unfold wp in Hgrow. destruct (vfdw_modify_row _ _ _ _ _ _) as [[[]|e] b]; [|done]. destruct Hgrow as [a Hb'].
  set (o := logged op (rw_nest r) (rw_cid r)) in *. assert (Ho : owes_no_row relid cid log' o).
  { split; [done|]. unfold owed, o. simpl. repeat case_bool_decide; cbn [andb]; [|done..]. rewrite Hv.
    destruct (log_verdict relid (op_key op) cid log) as [[] t]; [done..|]. by specialize (Hi ltac:(done) ltac:(done)). }
  exists (log' ++ [o]), (xs ++ [a]), (gen + 1). split_and!; [by apply all_left_grows| |lia]. split.
  - intros key. rewrite <- Hv. by apply verdict_grows, Ho.
  - by rewrite all_owed_grows.
Qed.

Lemma write_many rs n fuel (w : World) rows :
  Forall written_now rs → Standing (length rs + n) fuel w rows →
  match write_rows rs w with
  | (Ok _, w') => Standing n fuel w' rows
  | (Raise e, _) => ∃ r b, r ∈ rs ∧ (write_row r b).1 = Raise e
  end.
Proof.
  unfold write_rows. revert w. induction rs as [|r rs IH]; intros w Hrs Hs; [done|]. apply Forall_cons_iff in Hrs as [Hr Hrs].
  cbn [miter]. unfold mbind at 1, M_bind at 1. pose proof (write_one (length rs + n) fuel r w rows Hr Hs) as Hone.
  destruct (write_row r (sw_wbuf w)) as [[[]|e] b] eqn:Er.
  - specialize (IH _ Hrs Hone). destruct (miter _ rs _) as [[[]|e] w']; [done|]. destruct IH as (r' & b' & ? & ?). exists r', b'. split; [by right|done].
  - exists r, (sw_wbuf w). rewrite Er. split; [by left|done].
Qed.

(** The answer, or an error one of the writes raised. *)
Definition told {A} (writes : list (list RowWrite)) (x : A) (r : result A) : Prop :=
  match r with
  | Ok y => y = x
  | Raise e => ∃ wr b, wr ∈ concat writes ∧ (write_row wr b).1 = Raise e
  end.

Lemma told_more {A B} writes writes' (x : A) (y : B) e :
  (∀ wr, wr ∈ concat writes → wr ∈ concat writes') → told writes x (Raise e) → told writes' y (Raise e).
Proof. intros Hin (wr & b & Hw & E). exists wr, b. split; [by apply Hin|done]. Qed.

Lemma fetch_rows_tells n fuel writes m (w : World) rows :
  Forall written_now (concat writes) → Standing (length (concat writes) + m) fuel w rows →
  match fetch_rows n fuel writes w with
  | (Ok rows', w') => rows' = take n rows ∧ Stopped m w'
  | (r, _) => told writes rows r
  end.
Proof using unmoved keyspace.
  revert writes w rows. induction n as [|n IH]; intros writes w rows Hw Hs.
  { split; [done|]. apply (standing_stops _ m _ _ _ Hs). lia. }
  destruct Hs as (log' & xs & gen & Hl & Ha & Hg). cbn [fetch_rows]. unfold mbind at 1, M_bind at 1. unfold vfdw_scan_fetch, plan.
  rewrite gets_bind, (all_left_plan _ _ _ _ _ _ _ _ _ Hl), bool_decide_false by (by rewrite keyspace).
  pose proof (fetch_all serve peer pool_get pool_put beyond_copy unmoved p keyspace log' xs gen fuel w rows Hl) as Hf.
  destruct (fetch_loop _ _ _ _ fuel w) as [[[row|]|e] w1]; [| |done].
  2:{ destruct Hf as [-> Hover]. split; [done|]. exists log', xs, gen. split; [done|]. split; [done|lia]. }
  destruct Hf as (rows' & -> & Hl1).
  assert (Hsplit : concat writes = default [] (head writes) ++ concat (tail writes)) by (by destruct writes).
  rewrite Hsplit in Hw. apply Forall_app in Hw as [Hw1 Hw2].
  pose proof (write_many (default [] (head writes)) (length (concat (tail writes)) + m) fuel w1 rows' Hw1) as Hmany.
  assert (Hst : Standing (length (default [] (head writes)) + (length (concat (tail writes)) + m)) fuel w1 rows').
  { exists log', xs, gen. rewrite Nat.add_assoc, <- length_app, <- Hsplit. split; [done|]. by split. }
  specialize (Hmany Hst).
  unfold mbind at 1, M_bind at 1. destruct (write_rows (default [] (head writes)) w1) as [[[]|e] w2].
  - specialize (IH (tail writes) w2 rows' Hw2 Hmany). unfold mbind, M_bind.
    destruct (fetch_rows n fuel (tail writes) w2) as [[rest|e] w3]; simpl in IH |- *.
    + destruct IH as [-> Hstop]. by split.
    + apply (told_more (tail writes) writes rows' rows'); [|exact IH]. intros wr Hin. rewrite Hsplit. apply elem_of_app. by right.
  - destruct Hmany as (wr & b & Hin & E). exists wr, b. rewrite Hsplit, elem_of_app. by split; [left|].
Qed.

(** Started over, the scan has all its rows again. *)
Lemma rescan_stands m fuel param (w : World) pages later :
  Stopped m w → Pages (λ c, (serve c peer).1) p "0" pages → Forall2 (merged serve peer p log) (concat pages) later → (weight pages + 2 ≤ fuel)%nat →
  ∃ w', vfdw_scan_rescan serve param w = (Ok (), w') ∧
    Standing m fuel w' (concat later ++ tail_rows (concat pages) (omap (owed relid cid log) log)).
Proof using keyspace.
  intros (log' & xs & gen & Hover & [Hv Ho] & Hg) Hpg Hread Hf.
  destruct (rescan_merging serve peer p keyspace log' xs gen param w pages Hover Hpg) as (w' & E & Hpen & Hmg).
  exists w'. split; [done|]. exists log', xs, gen. split_and!; [|done..]. rewrite <- Ho. apply merging_left; [done..| |done].
  eapply Forall2_impl; [exact Hread|]. intros key rows. unfold merged. by rewrite Hv.
Qed.

Lemma two_passes_tell fuel n1 writes1 param n2 writes2 (w : World) pages later :
  let rows := concat later ++ tail_rows (concat pages) (omap (owed relid cid log) log) in
  Forall written_now (concat writes1) → Forall written_now (concat writes2) →
  Standing (length (concat writes1) + length (concat writes2)) fuel w rows →
  Pages (λ c, (serve c peer).1) p "0" pages → Forall2 (merged serve peer p log) (concat pages) later → (weight pages + 2 ≤ fuel)%nat →
  told (writes1 ++ writes2) (take n1 rows, take n2 rows) (two_passes fuel n1 writes1 param n2 writes2 w).1.
Proof using unmoved keyspace.
  intros rows Hw1 Hw2 Hs Hpg Hread Hf. unfold two_passes. unfold mbind at 1, M_bind at 1.
  pose proof (fetch_rows_tells n1 fuel writes1 _ w rows Hw1 Hs) as H1'.
  destruct (fetch_rows n1 fuel writes1 w) as [[first|e] w1].
  2:{ apply (told_more writes1 _ rows (take n1 rows, take n2 rows)); [|exact H1']. intros wr Hin. rewrite concat_app. apply elem_of_app. by left. }
  destruct H1' as [-> Hstop]. destruct (rescan_stands _ fuel param w1 pages later Hstop Hpg Hread Hf) as (w2 & E2 & Hs2).
  unfold mbind at 1, M_bind at 1. rewrite E2. unfold mbind at 1, M_bind at 1.
  rewrite <- (Nat.add_0_r (length (concat writes2))) in Hs2.
  pose proof (fetch_rows_tells n2 fuel writes2 0 w2 rows Hw2 Hs2) as H2'.
  destruct (fetch_rows n2 fuel writes2 w2) as [[second|e] w3]; [by destruct H2' as [-> _]|].
  apply (told_more writes2 _ rows (take n1 rows, take n2 rows)); [|exact H2']. intros wr Hin. rewrite concat_app. apply elem_of_app. by right.
Qed.
End loop.

(** C20: a command does not see what it writes while it scans one server: in any
    session, when the command of a keyspace scan without a fan-out (or one after
    it) buffers rows between the rows the scan returns - inserts being of keys for
    which the scan has no buffered row of an earlier command (written_now) -, each
    pass, a rescan included, returns the rows there were
    when the scan was opened, from the first to the last and each once, however
    far the pass before it went and although every write makes the iteration
    behind the last key start over; if it ends otherwise, it is with the error of
    one of the writes.  The server's data does not change meanwhile.  On a cluster a
    rescan is not a new pass (cluster_rescan_loses_nodes). *)
Theorem command_sees_what_it_found `{TypeCatalog} `{PgTypes} `{Float4IO} {P W : Type}
    (serve : list bytes → P → Reply * P) (pool_get : VfdwClusterNode → M W (Conn (P := P)))
    (pool_put : Conn (P := P) → W → W) (beyond_copy : bytes → bytes)
    (search_next : M (ScanWorld (P := P) (W := W)) (option ScanRow))
    (keeper : Z) (s : Session) (p : ScanPlan) (conn : Conn (P := P)) maps (pool : W)
    (pages : list (list bytes)) (later : list (list ScanRow)) (writes1 writes2 : list (list RowWrite))
    (fuel n1 n2 : nat) (param : option bytes) :
  let peer := cn_peer conn in
  let log := wview (s_w s) in
  let rows := concat later ++ tail_rows (concat pages) (omap (owed (map_relid (sp_map p)) (sp_overlay_cid p) log) log) in
  (∀ c, (serve c peer).2 = peer) →
  sp_strategy p = VFDW_SCAN_KEYSPACE → quiet_conn peer conn →
  rtc (rstep keeper) session_start s →
  Pages (λ c, (serve c peer).1) p "0" pages →
  Forall2 (merged serve peer p log) (concat pages) later →
  Forall (written_now p log) (concat writes1) → Forall (written_now p log) (concat writes2) →
  wb_gen (s_w s) + Z.of_nat (length (concat writes1) + length (concat writes2)) < 2 ^ 64 →
  (weight pages + 2 ≤ fuel)%nat →
  told (writes1 ++ writes2) (take n1 rows, take n2 rows)
    (two_passes serve pool_get pool_put beyond_copy search_next fuel n1 writes1 param n2 writes2
      (open_world p conn (s_w s) maps pool)).1.
Proof.
  intros peer log rows Hu Hk Hq Hs Hpg Hread Hw1 Hw2 Hg Hf. destruct (rreachable_inv keeper s Hs) as [_ [_ (xs & Hx & Hxc)]].
  assert (Hb : buffers log xs (wb_gen (s_w s)) (s_w s)) by done.
  apply (two_passes_tell serve pool_get pool_put beyond_copy search_next peer Hu p Hk log); [done..| |done|done|done].
  exists log, xs, (wb_gen (s_w s)). split; [|by split]. apply merging_left; [done| |done|done]. by apply starts_merging.
Qed.

(* ---------------------------------------------------------------- *)
(** ** An UPDATE that runs *)

#[local] Existing Instance sample_catalog.
#[local] Existing Instance sample_types.
#[local] Existing Instance sample_float4.

(** The fourth command of the transaction of [SampleMerge] updates what it finds, inserts
    a row and deletes one. *)
Definition fourth (kind : VfdwOpKind) (key : bytes) (t : option HeapTuple) : RowWrite :=
  MkRowWrite (Ok (SampleMerge.op kind key t)) 200 100 1 4.

Definition fourth_writes : list (list RowWrite) :=
  [[fourth VFDW_OP_UPDATE "s:2" (Some [Some "s:2"; Some "x"])];
   [fourth VFDW_OP_UPDATE "s:3" (Some [Some "s:3"; Some "x"]); fourth VFDW_OP_INSERT "s:7" (Some [Some "s:7"; Some "x"])];
   [fourth VFDW_OP_DELETE "s:9" None]].

Lemma fourth_now log kind key t :
  (kind = VFDW_OP_INSERT → log_verdict 7 key 4 log = (VFDW_OVL_PASS, None)) → written_now SampleMerge.text_plan log (fourth kind key t).
Proof.
  intros Hi o [= <-]. split; [reflexivity|]. intros Ek _. specialize (Hi Ek). change (sp_overlay_cid _) with 4.
  change (map_relid _) with 7. change (op_key _) with key. by rewrite Hi.
Qed.

Lemma fourth_written_now : Forall (written_now SampleMerge.text_plan (wview (s_w SampleMerge.s4))) (concat fourth_writes).
Proof.
  unfold fourth_writes. cbn [concat app]. repeat (apply Forall_cons_iff; split; [apply fourth_now|]); [discriminate|discriminate| |discriminate|by apply Forall_nil].
  intros _. vm_compute. reflexivity.
Qed.

Lemma command_sees_what_it_found_witness :
  let found := [list_row "s:2" "of s:2"; BufferedRow [Some "s:3"; Some "upd"]; BufferedRow [Some "s:9"; Some "ins"]] in
  let r := (two_passes SampleMerge.text_server no_pool (λ _ w, w) id no_search 20 2 fourth_writes None 5 []
    (open_world SampleMerge.text_plan list_conn (s_w SampleMerge.s4) ∅ ())).1 in
  told fourth_writes (take 2 found, take 5 found) r ∧ r = Ok (take 2 found, found).
Proof.
  intros found r. split; [|vm_compute; reflexivity]. unfold r.
  assert (E : concat SampleMerge.later ++ tail_rows (concat SampleMerge.pages) (omap (owed (map_relid (sp_map SampleMerge.text_plan))
    (sp_overlay_cid SampleMerge.text_plan) (wview (s_w SampleMerge.s4))) (wview (s_w SampleMerge.s4))) = found) by (vm_compute; reflexivity).
  rewrite <- E, <- (app_nil_r fourth_writes) at 1.
  apply (command_sees_what_it_found SampleMerge.text_server no_pool (λ _ w, w) id no_search 1024 SampleMerge.s4
    SampleMerge.text_plan list_conn ∅ () SampleMerge.pages SampleMerge.later fourth_writes [] 20 2 5 None).
  - reflexivity.
  - reflexivity.
  - repeat split.
  - exact SampleMerge.reach_written.
  - exact SampleMerge.pages_read.
  - exact SampleMerge.keys_merged.
  - exact fourth_written_now.
  - apply Forall_nil. exact I.
  - vm_compute. reflexivity.
  - vm_compute. lia.
Defined.
