(* ===== verification/ScanCluster.v ===== *)
(** A scan of a cluster (src/vfdw_scan_cluster.c under src/vfdw_scan.c): the keyspace
    scan ends only behind the last page of the last node, and returns the rows of every
    node. *)
From S2P Require Import Prelude Opcode Option OptionFacts Error Cmd CmdFacts WriteOp Wbuf Overlay.
From S2P Require Import TableMap TableMapFacts Ttl Vec Row ScanCmd RowFacts Val ValFacts Cluster ClusterFacts Scan ScanFacts ScanResults.
Local Open Scope Z_scope.

(* ---------------------------------------------------------------- *)
(** ** Moving to a node *)

Section attach.
Context `{TypeCatalog} `{PgTypes} `{Float4IO}.
Context {P W : Type} (serve : list bytes → P → Reply * P).
Context (pool_get : VfdwClusterNode → M W (Conn (P := P))) (pool_put : Conn (P := P) → W → W).

(** A connection to a node on which nothing is on its way. *)
Definition connects (node : VfdwClusterNode) (peer : P) : Prop :=
  ∀ pool, ∃ pool' c, pool_get node pool = (Ok c, pool') ∧ quiet_conn peer c.

(** What attaching to node [n] leaves: the fan-out there, the cursor at the start,
    nothing on the way. *)
Definition at_node (n : nat) (s : VfdwScanState) : VfdwScanState :=
  let fo := ss_fanout s in
  with_cursor (MkCursor None false) (with_fanout (MkFanout (sf_fanout fo) (sf_pass_map fo) (sf_nodes fo) (Z.of_nat n)) s).

Lemma attach_node n node peer peer' (w : ScanWorld (P := P) (W := W)) :
  sf_nodes (ss_fanout (sw_state w)) !! n = Some node → owes serve peer (sw_batch w) [] → connects node peer' →
  ∃ b pool, vfdw_scan_cluster_attach serve pool_get pool_put (Z.of_nat n) w =
    (Ok (), MkScanWorld (at_node n (sw_state w)) b (sw_wbuf w) (sw_maps w) pool) ∧ owes serve peer' b [].
Proof.
  intros Hn Ho Hc. unfold vfdw_scan_cluster_attach, plan. rewrite gets_bind.
  destruct (end_owes serve peer _ _ Ho) as (s1 & E1 & _). unfold mbind at 1, M_bind at 1, on_batch. rewrite E1.
  unfold state. rewrite gets_bind. cbn [sw_state]. rewrite Nat2Z.id, Hn.
  unfold set_state. rewrite modify_bind. unfold change_connection. cbn [sw_state sw_batch sw_pool].
  destruct (Hc (pool_put (bs_conn s1) (sw_pool w))) as (pool' & c & -> & Hc1 & Hc2 & Hc3 & Hc4).
  eexists _, _. split; [reflexivity|]. by apply begin_owes.
Qed.
End attach.

(** What a scan meets on one node: its peer, the pages of its traversal and the rows
    of each key on them. *)
Record Part `{PgTypes} {P : Type} : Type := MkPart {
  pt_node : VfdwClusterNode;
  pt_peer : P;
  pt_pages : list (list bytes);
  pt_rows : list (list ScanRow);
}.

Section cluster.
Context `{TypeCatalog} `{PgTypes} `{Float4IO}.
Context {P W : Type} (serve : list bytes → P → Reply * P).
Context (pool_get : VfdwClusterNode → M W (Conn (P := P))) (pool_put : Conn (P := P) → W → W).
Context (beyond_copy : bytes → bytes) (search_next : M (ScanWorld (P := P) (W := W)) (option ScanRow)).
Context (p : ScanPlan) (keyspace : sp_strategy p = VFDW_SCAN_KEYSPACE).
Context (parts : list (Part (P := P))) (pass_map : option VfdwSlotMap).

Abbreviation World := (ScanWorld (P := P) (W := W)).
Abbreviation fetch := (fetch_loop serve pool_get pool_put beyond_copy).

(** A node that stays as it is, can be connected to, and whose keys are read without
    a redirect. *)
Record served (pt : Part (P := P)) : Prop := {
  sv_unmoved : ∀ c, (serve c (pt_peer pt)).2 = pt_peer pt;
  sv_connects : connects pool_get (pt_node pt) (pt_peer pt);
  sv_pages : Pages (λ c, (serve c (pt_peer pt)).1) p "0" (pt_pages pt);
  sv_rows : Forall2 (readable serve (pt_peer pt) p) (concat (pt_pages pt)) (pt_rows pt);
}.
Hypothesis all_served : ∀ i pt, parts !! i = Some pt → served pt.

(** The fan-out at node [i], and what is behind it. *)
Definition fan (i : nat) : ScanFanout := MkFanout true pass_map (pt_node <$> parts) (Z.of_nat i).
Definition rows_of (pts : list (Part (P := P))) : list ScanRow := concat ((λ pt, concat (pt_rows pt)) <$> pts).
Definition weight_of (pts : list (Part (P := P))) : nat := list_sum ((λ pt, weight (pt_pages pt) + 2)%nat <$> pts).

Definition LeftAt (i : nat) (pt : Part (P := P)) : nat → World → list ScanRow → Prop :=
  Left serve (pt_peer pt) p (fan i) (rows_of (drop (S i) parts)) (weight_of (drop (S i) parts)).
Definition LeftCluster (n : nat) (w : World) (rows : list ScanRow) : Prop :=
  ∃ i pt, parts !! i = Some pt ∧ LeftAt i pt n w rows.
Definition Over (w : World) : Prop := ∃ pt, pt ∈ parts ∧ owes serve (pt_peer pt) (sw_batch w) [].

Abbreviation ready i pt := (Ready serve (pt_peer pt) p (fan i)).
Abbreviation exhausted i pt := (Exhausted serve (pt_peer pt) p (fan i)).
Abbreviation refilling m n := (more ← next_pages serve pool_get pool_put m; if (more : bool) then fetch n else vfdw_scan_drain_tail).

(* ---------------------------------------------------------------- *)
(** ** From one node to the next *)

Lemma attach_ready i pt (w : World) peer :
  parts !! i = Some pt → ss_plan (sw_state w) = p →
  sr_redirected (ss_redirect (sw_state w)) = [] → sr_retry_pass (ss_redirect (sw_state w)) = false →
  (∃ k, ss_fanout (sw_state w) = MkFanout true pass_map (pt_node <$> parts) k) → owes serve peer (sw_batch w) [] →
  ∃ w', vfdw_scan_cluster_attach serve pool_get pool_put (Z.of_nat i) w = (Ok (), w') ∧ ready i pt w' (pt_pages pt) ∧
    owes serve (pt_peer pt) (sw_batch w') [] ∧ ss_current (sw_state w') = ss_current (sw_state w) ∧
    ss_page (sw_state w') = ss_page (sw_state w) ∧ sw_wbuf w' = sw_wbuf w ∧ ss_cursor (sw_state w') = MkCursor None false.
Proof using all_served keyspace.
  intros Hi Hp Hred Hfirst [k Hfan] Ho.
  destruct (attach_node serve pool_get pool_put i (pt_node pt) peer (pt_peer pt) w) as (b & pool & E & Ho'); [|done|apply (sv_connects pt (all_served i pt Hi))|].
  { rewrite Hfan. cbn [sf_nodes]. by rewrite list_lookup_fmap, Hi. }
  eexists. split; [exact E|]. unfold at_node. rewrite Hfan. split; [|by split_and!].
  split; try done. unfold coming. rewrite bool_decide_true by done. cbn. apply (sv_pages pt (all_served i pt Hi)).
Qed.

Lemma advance_ready i pt pt' (w : World) :
  parts !! i = Some pt → parts !! S i = Some pt' → exhausted i pt w →
  ∃ w', vfdw_scan_cluster_advance serve pool_get pool_put w = (Ok true, w') ∧ ready (S i) pt' w' (pt_pages pt') ∧
    owes serve (pt_peer pt') (sw_batch w') [] ∧ ss_current (sw_state w') = ss_current (sw_state w) ∧
    sw_wbuf w' = sw_wbuf w ∧ ss_cursor (sw_state w') = MkCursor None false.
Proof using all_served keyspace.
  intros Hi Hi' ([Hp Hred Hfirst Hfan _] & _ & Ho). unfold vfdw_scan_cluster_advance, state. rewrite gets_bind, Hfan.
  cbn [fan sf_fanout sf_nodes sf_cur_node negb orb]. rewrite length_fmap.
  pose proof (lookup_lt_Some _ _ _ Hi'). rewrite bool_decide_false by lia.
  replace (Z.of_nat i + 1) with (Z.of_nat (S i)) by lia.
  destruct (attach_ready (S i) pt' w (pt_peer pt) Hi' Hp Hred Hfirst) as (w' & E & Hr & Ho' & Hcur & _ & Ew & Hc);
    [by exists (Z.of_nat i)|done|].
  exists w'. unfold mbind, M_bind. rewrite E. by split_and!.
Qed.

(** The next node is read as if the scan had stood there. *)
Lemma next_pages_moves m (w w' : World) :
  ss_cursor (sw_state w) = MkCursor None true → ss_cursor (sw_state w') = MkCursor None false →
  ss_plan (sw_state w) = p → ss_plan (sw_state w') = p →
  vfdw_scan_cluster_advance serve pool_get pool_put w = (Ok true, w') →
  next_pages serve pool_get pool_put (S m) w = next_pages serve pool_get pool_put (S m) w'.
Proof.
  intros Hc Hc' Hp Hp' E. cbn [next_pages]. unfold vfdw_scan_next_page, plan, state.
  unfold mbind at 1, M_bind at 1. symmetry. unfold mbind at 1, M_bind at 1. symmetry. f_equal.
  rewrite !gets_bind, Hc, Hc', Hp, Hp'. cbn [sc_started sc_cursor andb]. rewrite (bool_decide_true (None = None)) by done.
  unfold mbind at 1, M_bind at 1. rewrite E. symmetry. by unfold mbind at 1, M_bind at 1.
Qed.

Lemma last_node_ends i pt m (w : World) :
  parts !! S i = None → exhausted i pt w → next_pages serve pool_get pool_put (S m) w = (Ok false, w).
Proof.
  intros Hi ([Hp Hred _ Hfan _] & Hend & _). apply lookup_ge_None_1 in Hi. cbn [next_pages].
  assert (Ea : vfdw_scan_cluster_advance serve pool_get pool_put w = (Ok false, w)).
  { unfold vfdw_scan_cluster_advance, state. rewrite gets_bind, Hfan. cbn [fan sf_fanout sf_nodes sf_cur_node negb orb].
    rewrite bool_decide_true; [done|]. rewrite length_fmap. lia. }
  assert (E : vfdw_scan_next_page serve pool_get pool_put w = (Ok false, w)).
  { unfold vfdw_scan_next_page, plan, state. rewrite !gets_bind, Hend. cbn [sc_started sc_cursor andb].
    rewrite (bool_decide_true (None = None)) by done. unfold mbind at 1, M_bind at 1. by rewrite Ea. }
  unfold mbind, M_bind. rewrite E. cbn [negb]. by apply settled_no_retry.
Qed.

(* ---------------------------------------------------------------- *)
(** ** The producer over all the nodes *)

Lemma behind_next i pt' : parts !! S i = Some pt' → rows_of (drop (S i) parts) = concat (pt_rows pt') ++ rows_of (drop (S (S i)) parts).
Proof. intros E. by rewrite (drop_S _ _ _ E). Qed.

Lemma slack_next i pt' :
  parts !! S i = Some pt' → weight_of (drop (S i) parts) = (weight (pt_pages pt') + 2 + weight_of (drop (S (S i)) parts))%nat.
Proof. intros E. by rewrite (drop_S _ _ _ E). Qed.

Lemma left_cluster_mono n n' (w : World) rows : LeftCluster n w rows → (n ≤ n')%nat → LeftCluster n' w rows.
Proof. intros (i & pt & Hi & Hl) Hn. exists i, pt. split; [done|]. by eapply left_mono. Qed.

(** From where node [i] stands, all there is comes. *)
Definition fetches (i : nat) (pt : Part (P := P)) (n : nat) : Prop :=
  ∀ w rows, LeftAt i pt n w rows → fetched LeftCluster Over n rows (fetch n w).
Definition enters (i : nat) (pt : Part (P := P)) : Prop := ∀ m n w pages later,
  ready i pt w pages → owes serve (pt_peer pt) (sw_batch w) [] → su_reply (ss_current (sw_state w)) = None → idle w →
  Forall2 (readable serve (pt_peer pt) p) (concat pages) later →
  (weight pages + 1 + weight_of (drop (S i) parts) ≤ m)%nat → (weight pages + 1 + weight_of (drop (S i) parts) ≤ n)%nat →
  fetches i pt n →
  fetched LeftCluster Over n (concat later ++ rows_of (drop (S i) parts)) ((refilling m n) w).

Lemma enters_node i pt :
  parts !! i = Some pt → (∀ pt', parts !! S i = Some pt' → (∀ n, fetches (S i) pt' n) ∧ enters (S i) pt') → enters i pt.
Proof using all_served keyspace.
  intros Hi Hnext m n w pages later Hr Ho Hcur Hidle Hread Hm Hn Hf. pose proof (weight_length pages).
  unfold mbind at 1, M_bind at 1.
  destruct (next_pages_refill serve (pt_peer pt) pool_get pool_put (sv_unmoved pt (all_served i pt Hi)) p (fan i) m w pages
    keyspace Hr Ho ltac:(lia)) as [(w1 & E1 & Hw)|(m1 & w1 & E1 & Hm1 & He & Hc & (Hcur1 & _ & Ew1) & _)]; rewrite E1.
  { destruct Hw as (ks & pages' & Hsc & Ec & Hw & Ecur & _ & Ew). apply Hf. exists [], ks, pages', later. rewrite <- Ec.
    unfold idle. rewrite Ew. split_and!; [by apply (pending_none serve (pt_peer pt) p w)|done..|lia]. }
  rewrite Hc in Hread. inversion Hread. subst. cbn [concat app].
  destruct m1 as [|m1]; [lia|]. destruct (parts !! S i) as [pt'|] eqn:Hi'.
  - destruct (Hnext pt' eq_refl) as [Hf' He']. rewrite (behind_next i pt' Hi').
    pose proof (slack_next i pt' Hi') as Hs. destruct (advance_ready i pt pt' w1 Hi Hi' He) as (w2 & Ea & Hr2 & Ho2 & Hcur2 & Ew2 & Hc2).
    assert (E2 : next_pages serve pool_get pool_put (S m1) w1 = next_pages serve pool_get pool_put (S m1) w2).
    { apply next_pages_moves; [apply He|done|apply (rd_plan _ _ _ _ _ _ (proj1 He))|apply (rd_plan _ _ _ _ _ _ Hr2)|done]. }
    rewrite E2. apply (He' (S m1) n w2 (pt_pages pt')); try done; [by rewrite Hcur2, Hcur1|unfold idle; by rewrite Ew2, Ew1| |lia..].
    apply (sv_rows pt' (all_served _ _ Hi')).
  - rewrite (last_node_ends i pt m1 w1 Hi' He). rewrite idle_drains by (unfold idle; by rewrite Ew1).
    apply lookup_ge_None_1 in Hi'. split; [by rewrite drop_ge|]. exists pt.
    split; [by eapply list_elem_of_lookup_2|apply He].
Qed.

Lemma fetches_node i pt : parts !! i = Some pt → enters i pt → ∀ n, fetches i pt n.
Proof using all_served keyspace.
  intros Hi He n w rows. revert n w rows.
  apply (fetch_node serve (pt_peer pt) pool_get pool_put beyond_copy (sv_unmoved pt (all_served i pt Hi)) p (fan i)).
  - apply left_cluster_mono.
  - intros n w rows Hl. by exists i, pt.
  - intros n w pages later Hcur [Hr _ Ho] Hidle Hread Hn IH.
    unfold refill_step. unfold mbind at 1, M_bind at 1. rewrite (keyspace_refills serve (pt_peer pt) pool_get pool_put p (fan i) n w pages keyspace Hr).
    by apply (He n n w pages later); [done..|lia|lia|].
Qed.

Lemma every_node k : ∀ i pt, parts !! i = Some pt → length parts = (i + S k)%nat → (∀ n, fetches i pt n) ∧ enters i pt.
Proof using all_served keyspace.
  induction k as [|k IH]; intros i pt Hi Hk.
  - assert (He : enters i pt).
    { apply (enters_node i pt Hi). intros pt' Hi'. apply lookup_lt_Some in Hi'. lia. }
    split; [by apply fetches_node|done].
  - assert (He : enters i pt) by (apply (enters_node i pt Hi); intros pt' Hi'; apply (IH (S i) pt' Hi'); lia).
    split; [by apply fetches_node|done].
Qed.

Lemma fetch_cluster n (w : World) rows : LeftCluster n w rows → ss_plan (sw_state w) = p ∧ fetched LeftCluster Over n rows (fetch n w).
Proof using all_served keyspace.
  intros (i & pt & Hi & Hl). split; [by eapply left_plan|]. pose proof (lookup_lt_Some _ _ _ Hi).
  by apply (proj1 (every_node (length parts - S i) i pt Hi ltac:(lia))).
Qed.

(** Setting up the fan-out leaves the scan before the first page of the first node. *)
Lemma setup_left conn b maps (pool : W) map st seed pt rest :
  parts = pt :: rest → pass_map = Some map → sm_nodes map = pt_node <$> parts → vfdw_overlay_active b = false →
  vfdw_cluster_map serve (sp_pipeline_batch p) (sp_serverid p) (sp_userid p) (MkCluster maps (set_conversation true conn)) = (Ok map, st) →
  quiet_conn seed (cl_conn st) →
  ∃ w, vfdw_scan_cluster_setup serve pool_get pool_put true (open_world p conn b maps pool) = (Ok true, w) ∧
    LeftCluster (weight_of parts) w (rows_of parts).
Proof using all_served keyspace.
  intros Hparts Hmap Hnodes Hb Hload (Hq1 & Hq2 & Hq3 & Hq4). unfold vfdw_scan_cluster_setup, set_state.
  rewrite modify_bind. cbn [negb]. unfold mbind at 1, M_bind at 1, scan_cluster_map.
  cbn [open_world fresh_state sw_state sw_batch sw_wbuf sw_maps sw_pool ss_plan with_fanout bs_conn vfdw_batch_begin]. rewrite Hload.
  unfold vfdw_scan_cluster_copy_nodes, set_state. rewrite !modify_bind.
  match goal with |- context [mbind _ (vfdw_scan_cluster_attach _ _ _ 0) ?w] => set (w1 := w) end.
  assert (Hi : parts !! 0%nat = Some pt) by (by rewrite Hparts).
  destruct (attach_ready 0 pt w1 seed Hi) as (w2 & E2 & Hr & Ho & Hcur & Hpage & Ew & _); try done.
  - eexists. cbn. rewrite Hnodes, Hmap. reflexivity.
  - unfold owes, counted, owing, faultless. cbn. by rewrite Hq1, Hq2, Hq3, Hq4.
  - exists w2. unfold mbind, M_bind. change (Z.of_nat 0) with 0 in E2. rewrite E2. split; [done|].
    exists 0%nat, pt. split; [done|]. exists [], [], (pt_pages pt), (pt_rows pt).
    split_and!; [|split; [done| |done]|unfold idle; by rewrite Ew|apply (sv_rows pt (all_served _ _ Hi))|by rewrite Hparts|].
    + unfold Pending. by rewrite Hcur.
    + by rewrite Hpage.
    + rewrite Hparts, skipn_cons, drop_0. cbn [length].
      change (weight_of (pt :: rest)) with (weight (pt_pages pt) + 2 + weight_of rest)%nat. lia.
Qed.
End cluster.

(** C23: a scan of the keyspace of a cluster visits every primary the map names, in
    order, and returns the rows of the keys of each of them: the end of the traversal
    of one node is not the end of the scan, a node with nothing on it does not end it
    either, and the next node is read from its first page. *)
Theorem cluster_scan_is_complete `{TypeCatalog} `{PgTypes} `{Float4IO} {P W : Type}
    (serve : list bytes → P → Reply * P) (pool_get : VfdwClusterNode → M W (Conn (P := P)))
    (pool_put : Conn (P := P) → W → W) (beyond_copy : bytes → bytes)
    (search_next : M (ScanWorld (P := P) (W := W)) (option ScanRow))
    (p : ScanPlan) (conn : Conn (P := P)) (b : Wbuf) maps (pool : W)
    (parts : list (Part (P := P))) (map : VfdwSlotMap) (st : ClusterState (P := P)) (seed : P) (calls fuel : nat) :
  sp_strategy p = VFDW_SCAN_KEYSPACE →
  vfdw_overlay_active b = false →
  vfdw_cluster_map serve (sp_pipeline_batch p) (sp_serverid p) (sp_userid p) (MkCluster maps (set_conversation true conn))
    = (Ok map, st) →
  quiet_conn seed (cl_conn st) →
  sm_nodes map = pt_node <$> parts →
  parts ≠ [] →
  (∀ i pt, parts !! i = Some pt → served serve pool_get p pt) →
  (length (rows_of parts) < calls)%nat → (weight_of parts ≤ fuel)%nat →
  ((vfdw_scan_cluster_setup serve pool_get pool_put true;;;
    scan_rows serve pool_get pool_put beyond_copy search_next calls fuel) (open_world p conn b maps pool)).1
    = Ok (rows_of parts).
Proof.
  intros Hk Hb Hload Hq Hnodes Hne Hall Hc Hn. destruct parts as [|pt rest] eqn:Hparts; [done|]. rewrite <- Hparts in *.
  destruct (setup_left serve pool_get pool_put p Hk parts (Some map) Hall conn b maps pool map st seed pt rest Hparts eq_refl
    Hnodes Hb Hload Hq) as (w & E & Hl).
  unfold mbind at 1, M_bind at 1. rewrite E.
  apply (scan_rows_of serve pool_get pool_put beyond_copy search_next p (LeftCluster serve p parts (Some map)) (Over serve parts));
    [by rewrite Hk| |by eapply left_cluster_mono|done].
  intros w' rows' Hl'. by apply (fetch_cluster serve pool_get pool_put beyond_copy p Hk parts (Some map) Hall).
Qed.

#[local] Existing Instance sample_catalog.
#[local] Existing Instance sample_types.
#[local] Existing Instance sample_float4.

(** Two primaries, one key each. *)
Definition cluster_parts : list (Part (P := Z)) :=
  [MkPart _ _ (ClusterNode "one.example" 7001) 7001 [["q:1"]] [[list_row "q:1" "of q:1"]];
   MkPart _ _ (ClusterNode "10.0.0.2" 7002) 7002 [["q:2"]] [[list_row "q:2" "of q:2"]]].

Lemma cluster_parts_served i pt : cluster_parts !! i = Some pt → served cluster_server cluster_pool list_plan pt.
Proof.
  destruct i as [|[|i]]; intros [= <-].
  all: split; [done|intros []; eexists _, _; by repeat split|by apply pages_last|by repeat constructor].
Qed.

(** The map of the cluster, loaded by an earlier statement. *)
Definition cluster_known : gmap (Z * Z) (option VfdwSlotMap) :=
  <[(sp_serverid list_plan, sp_userid list_plan) := Some sample_slot_map]> ∅.

Lemma cluster_scan_is_complete_witness :
  ((vfdw_scan_cluster_setup cluster_server cluster_pool (λ _ w, w) true;;;
    scan_rows cluster_server cluster_pool (λ _ w, w) id no_cluster_search 4 20)
      (open_world list_plan (cluster_conn 7001) wbuf_empty cluster_known ())).1
    = Ok [list_row "q:1" "of q:1"; list_row "q:2" "of q:2"].
Proof.
  apply (cluster_scan_is_complete cluster_server cluster_pool (λ _ w, w) id no_cluster_search list_plan (cluster_conn 7001)
    wbuf_empty cluster_known () cluster_parts sample_slot_map
    (MkCluster cluster_known (set_conversation true (cluster_conn 7001))) 7001 4 20).
  - reflexivity.
  - reflexivity.
  - unfold vfdw_cluster_map, vfdw_cluster_entry, mbind, M_bind. cbn [cl_maps]. unfold cluster_known at 1. by rewrite lookup_insert_eq.
  - by repeat split.
  - reflexivity.
  - discriminate.
  - exact cluster_parts_served.
  - simpl. lia.
  - vm_compute. lia.
Defined.
