(* ===== verification/ScanChase.v ===== *)
(** Redirects (src/vfdw_scan_cluster.c under src/vfdw_scan.c): a scan of named keys asks
    each node for the keys the slot map gives it, and the keys a node says are elsewhere
    are asked for again with the map reloaded. *)
From S2P Require Import Prelude Opcode Option OptionFacts Error Cmd CmdFacts WriteOp Wbuf Overlay.
From S2P Require Import TableMap TableMapFacts Ttl Vec Row ScanCmd RowFacts Val ValFacts Cluster ClusterFacts Scan ScanFacts ScanResults ScanCluster.
Local Open Scope Z_scope.

Section chase.
Context `{TypeCatalog} `{PgTypes} `{Float4IO}.
Context {P W : Type} (serve : list bytes → P → Reply * P).
Context (pool_get : VfdwClusterNode → M W (Conn (P := P))) (pool_put : Conn (P := P) → W → W).
Context (beyond_copy : bytes → bytes) (search_next : M (ScanWorld (P := P) (W := W)) (option ScanRow)).
Context (p : ScanPlan) (keyed : sp_strategy p ≠ VFDW_SCAN_KEYSPACE).
(** What answers at a node, and the rows of a key. *)
Context (at_ : VfdwClusterNode → P) (home : bytes → list ScanRow).

Abbreviation World := (ScanWorld (P := P) (W := W)).
Abbreviation fetch := (fetch_loop serve pool_get pool_put beyond_copy).
Abbreviation value_reply n k := ((serve (value_request p k) (at_ n)).1).

Definition moved (n : VfdwClusterNode) (k : bytes) : bool := vfdw_cluster_is_redirect (Some (value_reply n k)).

(** Asked for the key, a node gives its rows or says that it moved. *)
Definition telling (n : VfdwClusterNode) (k : bytes) : Prop :=
  if moved n k then vfdw_cluster_redirect_is_ask (Some (value_reply n k)) = false
  else key_rows (λ c, (serve c (at_ n)).1) p k = Ok (home k).

Definition served_at (n : VfdwClusterNode) : Prop :=
  (∀ c, (serve c (at_ n)).2 = at_ n) ∧ connects pool_get n (at_ n).

(* ---------------------------------------------------------------- *)
(** ** One pass over the nodes of a map *)

Section pass.
Context (m : VfdwSlotMap) (ks : list bytes) (passes : Z) (retry : bool).
Hypothesis served : ∀ n, n ∈ sm_nodes m → served_at n.
Hypothesis told : ∀ n k, n ∈ sm_nodes m → k ∈ ks → asked_here (Some m) n k = true → telling n k.
Hypothesis some_keys : ks ≠ [].

Abbreviation nodes := (sm_nodes m).
Definition asked (n : VfdwClusterNode) : list bytes := filter (λ k, asked_here (Some m) n k = true) ks.
Definition rows_at (n : VfdwClusterNode) (k : bytes) : list ScanRow := if moved n k then [] else home k.
Definition rows_on (n : VfdwClusterNode) (keys : list bytes) : list ScanRow := concat (rows_at n <$> keys).
Definition moves_on (n : VfdwClusterNode) (keys : list bytes) : list bytes :=
  copy_key beyond_copy <$> filter (λ k, moved n k = true) keys.
Definition rows_from (l : list VfdwClusterNode) : list ScanRow := concat ((λ n, rows_on n (asked n)) <$> l).
Definition moves_from (l : list VfdwClusterNode) : list bytes := concat ((λ n, moves_on n (asked n)) <$> l).
Definition load_of (l : list VfdwClusterNode) : nat := list_sum ((λ n, S (length (asked n))) <$> l).

Abbreviation cache_key := (sp_serverid p, sp_userid p).

(** The scan at node [i] of the pass, with [red] redirected so far: one redirect
    drops the map from the cache. *)
Record Here (i : nat) (n : VfdwClusterNode) (w : World) (red : list bytes) : Prop := {
  hr_node : nodes !! i = Some n;
  hr_plan : ss_plan (sw_state w) = p;
  hr_idle : vfdw_overlay_active (sw_wbuf w) = false;
  hr_fanout : ss_fanout (sw_state w) = MkFanout true (Some m) nodes (Z.of_nat i);
  hr_redirect : ss_redirect (sw_state w) = MkRedirect ks red passes retry;
  hr_map : ∃ e, sw_maps w !! cache_key = Some e ∧ (red ≠ [] → e = None);
}.

(** [keys] of the page of this node left, their replies owed. *)
Record Reading (i : nat) (n : VfdwClusterNode) (w : World) (keys red : list bytes) : Prop := {
  rg_here : Here i n w red;
  rg_started : sc_started (ss_cursor (sw_state w)) = true;
  rg_left : drop (sg_next_key (ss_page (sw_state w))) (sg_keys (ss_page (sw_state w))) = keys;
  rg_owed : owes serve (at_ n) (sw_batch w) (concat (key_replies (λ c, (serve c (at_ n)).1) p <$> keys));
  rg_told : Forall (telling n) keys;
}.

(** The last node has given what it had. *)
Definition PassOver (w : World) (red : list bytes) : Prop :=
  ∃ i n, Here i n w red ∧ nodes !! S i = None ∧ owes serve (at_ n) (sw_batch w) [] ∧ su_reply (ss_current (sw_state w)) = None.

Lemma rows_from_cons n l : rows_from (n :: l) = rows_on n (asked n) ++ rows_from l.
Proof. done. Qed.
Lemma moves_from_cons n l : moves_from (n :: l) = moves_on n (asked n) ++ moves_from l.
Proof. done. Qed.
Lemma load_of_cons n l : load_of (n :: l) = (S (length (asked n)) + load_of l)%nat.
Proof. done. Qed.

(** What arriving at node [i] led to: the next node with keys of its own, or the end. *)
Definition arrived (i : nat) (red : list bytes) (r : result bool * World) : Prop :=
  match r with
  | (Ok true, w) => ∃ j n, Reading j n w (asked n) red ∧ su_reply (ss_current (sw_state w)) = None ∧
      rows_from (drop i nodes) = rows_on n (asked n) ++ rows_from (drop (S j) nodes) ∧
      moves_from (drop i nodes) = moves_on n (asked n) ++ moves_from (drop (S j) nodes) ∧
      (length (asked n) + load_of (drop (S j) nodes) < load_of (drop i nodes))%nat
  | (Ok false, w) => rows_from (drop i nodes) = [] ∧ moves_from (drop i nodes) = [] ∧ PassOver w red
  | (Raise _, _) => False
  end.

Abbreviation page_loop := (keys_page_loop serve pool_get pool_put).
Definition arrive (f : nat) : M World bool :=
  set_state (λ s, with_cursor (MkCursor (sc_cursor (ss_cursor s)) true) s);;;
  vfdw_scan_cluster_keys_for_node;;;
  (nkeys ← state (λ s, length (sg_keys (ss_page s)));
   if bool_decide (0 < nkeys)%nat then vfdw_scan_queue_page serve;;; mret true else page_loop f).

Lemma loop_starts f (w : World) :
  sf_fanout (ss_fanout (sw_state w)) = true → sc_started (ss_cursor (sw_state w)) = false → page_loop (S f) w = arrive f w.
Proof.
  intros Hf Hs. cbn [keys_page_loop]. rewrite state_bind. unfold id. rewrite Hf, Hs. cbn [negb orb].
  by rewrite ret_bind.
Qed.

Lemma loop_moves f (w : World) :
  sf_fanout (ss_fanout (sw_state w)) = true → sc_started (ss_cursor (sw_state w)) = true →
  page_loop (S f) w = (more ← vfdw_scan_cluster_advance serve pool_get pool_put; if negb more then mret false else arrive f) w.
Proof.
  intros Hf Hs. cbn [keys_page_loop]. rewrite state_bind. unfold id. by rewrite Hf, Hs.
Qed.
(** The keys of this node are put on the page and asked for, when there are any. *)
Lemma arrive_here i n f (w : World) red :
  Here i n w red → owes serve (at_ n) (sw_batch w) [] → su_reply (ss_current (sw_state w)) = None →
  match asked n with
  | [] => ∃ w', arrive f w = page_loop f w' ∧ Here i n w' red ∧ sc_started (ss_cursor (sw_state w')) = true ∧
                owes serve (at_ n) (sw_batch w') [] ∧ su_reply (ss_current (sw_state w')) = None
  | _ => ∃ w', arrive f w = (Ok true, w') ∧ Reading i n w' (asked n) red ∧ su_reply (ss_current (sw_state w')) = None
  end.
Proof using served told.
  intros [Hn Hp Hi Hfan Hred Hmap] Ho Hcur. pose proof (list_elem_of_lookup_2 _ _ _ Hn) as Hin.
  set (w0 := world_state (λ s, with_cursor (MkCursor (sc_cursor (ss_cursor s)) true) s) w).
  set (w1 := world_state (with_page (MkPage (asked n) 0)) w0).
  assert (E0 : vfdw_scan_cluster_keys_for_node w0 = (Ok (), w1)).
  { unfold vfdw_scan_cluster_keys_for_node. rewrite state_bind. unfold id.
    change (ss_fanout (sw_state w0)) with (ss_fanout (sw_state w)). change (ss_redirect (sw_state w0)) with (ss_redirect (sw_state w)).
    rewrite Hfan, Hred. cbn [sf_nodes sf_cur_node sf_pass_map sr_plan_keys]. by rewrite Nat2Z.id, Hn. }
  assert (E : arrive f w = (if bool_decide (0 < length (asked n))%nat then vfdw_scan_queue_page serve;;; mret true else page_loop f) w1).
  { change (arrive f w) with ((vfdw_scan_cluster_keys_for_node;;; (nkeys ← state (λ s, length (sg_keys (ss_page s)));
      if bool_decide (0 < nkeys)%nat then vfdw_scan_queue_page serve;;; mret true else page_loop f)) w0).
    unfold mbind at 1, M_bind at 1. by rewrite E0, state_bind. }
  rewrite E. clear E.
  assert (Hh : Here i n w1 red) by (by split).
  destruct (asked n) as [|k l] eqn:Easked.
  - exists w1. by split_and!.
  - rewrite bool_decide_true by (cbn [length]; lia).
    destruct (queue_page_scanning serve (at_ n) (proj1 (served n Hin)) p w1 Hp Ho) as (b & E & Ho').
    unfold mbind, M_bind. rewrite E. eexists. split; [reflexivity|]. split; [|done].
    split; [by destruct Hh; split|done|done|exact Ho'|]. rewrite <- Easked. apply Forall_forall. intros k' Hk'.
    apply list_elem_of_In, list_elem_of_filter in Hk' as [??]. by apply told.
Qed.

(** Moving on from a node whose keys are done. *)
Lemma advance_here i n (w : World) red :
  Here i n w red → owes serve (at_ n) (sw_batch w) [] → su_reply (ss_current (sw_state w)) = None →
  match nodes !! S i with
  | None => vfdw_scan_cluster_advance serve pool_get pool_put w = (Ok false, w)
  | Some n' => ∃ w', vfdw_scan_cluster_advance serve pool_get pool_put w = (Ok true, w') ∧ Here (S i) n' w' red ∧
                 owes serve (at_ n') (sw_batch w') [] ∧ su_reply (ss_current (sw_state w')) = None
  end.
Proof using served.
  intros [Hn Hp Hi Hfan Hred Hmap] Ho Hcur. unfold vfdw_scan_cluster_advance. rewrite state_bind, Hfan.
  cbn [sf_fanout sf_nodes sf_cur_node negb orb]. destruct (nodes !! S i) as [n'|] eqn:Hn'.
  - pose proof (lookup_lt_Some _ _ _ Hn'). rewrite bool_decide_false by lia.
    replace (Z.of_nat i + 1) with (Z.of_nat (S i)) by lia.
    destruct (attach_node serve pool_get pool_put (S i) n' (at_ n) (at_ n') w) as (b & pool & E & Ho'); [by rewrite Hfan|done| |].
    { apply (served n'). by eapply list_elem_of_lookup_2. }
    eexists. unfold mbind, M_bind. rewrite E. split; [reflexivity|]. split; [|done].
    split; try done. unfold at_node. by rewrite Hfan.
  - apply lookup_ge_None_1 in Hn'. by rewrite bool_decide_true by lia.
Qed.

Lemma arrive_reads k : ∀ i n f (w : World) red,
  Here i n w red → length nodes = (i + S k)%nat → (k < f)%nat → owes serve (at_ n) (sw_batch w) [] →
  su_reply (ss_current (sw_state w)) = None → arrived i red (arrive f w).
Proof using served told.
  induction k as [|k IH]; intros i n f w red Hh Hk Hf Ho Hcur; pose proof (arrive_here i n f w red Hh Ho Hcur) as Ha;
    pose proof (drop_S _ _ _ (hr_node _ _ _ _ Hh)) as Ed; (destruct f as [|f]; [lia|]).
  all: destruct (asked n) as [|k1 l] eqn:Easked;
    [|destruct Ha as (w1 & -> & Hr & Hcur1); exists i, n; rewrite Ed, rows_from_cons, moves_from_cons, load_of_cons, Easked;
      split_and!; [done..|lia]].
  all: destruct Ha as (w1 & -> & Hh1 & Hs1 & Ho1 & Hcur1); rewrite loop_moves by (by rewrite ?(hr_fanout _ _ _ _ Hh1));
    pose proof (advance_here i n w1 red Hh1 Ho1 Hcur1) as Hadv; unfold mbind at 1, M_bind at 1.
  - rewrite (proj2 (lookup_ge_None nodes (S i)) ltac:(lia)) in Hadv. rewrite Hadv. cbn [negb].
    unfold arrived. rewrite Ed, rows_from_cons, moves_from_cons, Easked, drop_ge by lia. split_and!; [done..|].
    exists i, n. split_and!; [done|apply lookup_ge_None; lia|done..].
  - destruct (nodes !! S i) as [n'|] eqn:Hn'; [|apply lookup_ge_None_1 in Hn'; lia].
    destruct Hadv as (w2 & -> & Hh2 & Ho2 & Hcur2). cbn [negb].
    pose proof (IH (S i) n' f w2 red Hh2 ltac:(lia) ltac:(lia) Ho2 Hcur2) as Hn2. unfold arrived in *.
    destruct (arrive f w2) as [[[]|e] w3]; rewrite ?Ed, ?rows_from_cons, ?moves_from_cons, ?load_of_cons, ?Easked; [|done..].
    destruct Hn2 as (j & n2 & ? & ? & ? & ? & ?). exists j, n2. split_and!; [done..|cbn [length]; lia].
Qed.

(** A page of keys, from the beginning of the pass and behind a node. *)
Lemma keys_page_starts n (w : World) red :
  Here 0 n w red → sc_started (ss_cursor (sw_state w)) = false → owes serve (at_ n) (sw_batch w) [] →
  su_reply (ss_current (sw_state w)) = None → arrived 0 red (vfdw_scan_keys_page serve pool_get pool_put w).
Proof using served told some_keys.
  intros Hh Hs Ho Hcur. unfold vfdw_scan_keys_page. rewrite state_bind. unfold id.
  rewrite (hr_redirect _ _ _ _ Hh), (hr_fanout _ _ _ _ Hh). cbn [sr_plan_keys sf_nodes]. rewrite bool_decide_false by done.
  cbn [Nat.add]. rewrite loop_starts by (by rewrite ?(hr_fanout _ _ _ _ Hh)).
  pose proof (lookup_lt_Some _ _ _ (hr_node _ _ _ _ Hh)).
  by apply (arrive_reads (length nodes - 1) 0 n); [|lia|lia| |].
Qed.

Lemma keys_page_moves i n (w : World) red :
  Reading i n w [] red → su_reply (ss_current (sw_state w)) = None →
  arrived (S i) red (vfdw_scan_keys_page serve pool_get pool_put w).
Proof using served told some_keys.
  intros [Hh Hs _ Ho _] Hcur. unfold vfdw_scan_keys_page. rewrite state_bind. unfold id.
  rewrite (hr_redirect _ _ _ _ Hh), (hr_fanout _ _ _ _ Hh). cbn [sr_plan_keys sf_nodes]. rewrite bool_decide_false by done.
  cbn [Nat.add]. rewrite loop_moves by (by rewrite ?(hr_fanout _ _ _ _ Hh)).
  pose proof (lookup_lt_Some _ _ _ (hr_node _ _ _ _ Hh)) as Hlt.
  pose proof (advance_here i n w red Hh Ho Hcur) as Hadv. unfold mbind, M_bind. destruct (nodes !! S i) as [n'|] eqn:Hn'.
  - destruct Hadv as (w2 & -> & Hh2 & Ho2 & Hcur2). cbn [negb]. pose proof (lookup_lt_Some _ _ _ Hn').
    by apply (arrive_reads (length nodes - S (S i)) (S i) n'); [|lia|lia| |].
  - rewrite Hadv. cbn [negb]. apply lookup_ge_None_1 in Hn' as Hge. unfold arrived. rewrite drop_ge by lia.
    split_and!; [done..|]. by exists i, n.
Qed.
(* ---------------------------------------------------------------- *)
(** ** The producer in a pass *)

(** The key is noted, and the map it was asked by is dropped. *)
Lemma one_key_moved n key (w : World) :
  ss_plan (sw_state w) = p → vfdw_overlay_active (sw_wbuf w) = false → moved n key = true → telling n key →
  ∃ c, vfdw_scan_one_key beyond_copy key (value_reply n key) w =
    (Ok None, MkScanWorld (with_counters c (with_redirect (let r := ss_redirect (sw_state w) in
        MkRedirect (sr_plan_keys r) (sr_redirected r ++ [copy_key beyond_copy key]) (sr_passes r) (sr_retry_pass r)) (sw_state w)))
       (sw_batch w) (sw_wbuf w) (vfdw_cluster_invalidate (sw_maps w) (sp_serverid p) (sp_userid p)) (sw_pool w)).
Proof.
  intros Hp Hi Hm Ht. unfold telling in Ht. rewrite Hm in Ht. unfold moved in Hm.
  unfold vfdw_scan_one_key, vfdw_scan_apply_overlay, plan. rewrite gets_bind. unfold mbind at 1, M_bind at 1.
  rewrite !gets_bind, Hi. cbn [negb]. unfold mret at 1, M_ret at 1, vfdw_scan_note_redirect. rewrite Hm.
  unfold vfdw_scan_redirected, set_state. rewrite Ht. unfold mbind at 1, M_bind at 1. rewrite !modify_bind.
  cbn [sw_state sw_batch sw_wbuf sw_maps sw_pool ss_plan with_redirect]. unfold modify at 1. rewrite state_bind. unfold id.
  assert (E : ∀ mp a, vfdw_scan_produces_nothing mp a (value_reply n key) = true).
  { intros mp a. unfold vfdw_scan_produces_nothing, vfdw_scan_reply_is_skippable. rewrite Hm, orb_true_r. cbn [orb]. by rewrite orb_true_r. }
  rewrite E, modify_bind. cbn [sw_state sw_batch sw_wbuf sw_maps sw_pool ss_plan with_redirect]. rewrite Hp. by eexists.
Qed.

Abbreviation read_step := (read_step serve pool_get pool_put beyond_copy).
Abbreviation refill_step := (refill_step serve pool_get pool_put beyond_copy).

(** The next key of the page: its rows are in hand, or it is noted. *)
Lemma read_key f i n key keys (w : World) red :
  Reading i n w (key :: keys) red → su_reply (ss_current (sw_state w)) = None →
  ∃ w' red', Reading i n w' keys red' ∧ red' ++ moves_on n keys = red ++ moves_on n (key :: keys) ∧
    ((read_step f key w = fetch f w' ∧ Pending serve (at_ n) p w' (rows_at n key)) ∨
     (∃ r, read_step f key w = (Ok (Some r), w') ∧ rows_at n key = [r] ∧ Pending serve (at_ n) p w' [])).
Proof.
  intros [[Hn Hp Hi Hfan Hred Hmap] Hs Hleft Ho Htold] Hcur. apply Forall_cons_iff in Htold as [Htell Htold].
  rewrite fmap_cons in Ho. cbn [concat] in Ho.
  destruct (read_step_takes serve (at_ n) pool_get pool_put beyond_copy p f key keys _ w Hp Hleft Ho) as (b & Ho' & Hleft2 & ->).
  set (w2 := with_replies serve (at_ n) p key b w) in *.
  unfold rows_at, moves_on. rewrite filter_cons. destruct (moved n key) eqn:Hm.
  - destruct (one_key_moved n key w2 Hp Hi Hm Htell) as [c E2]. eexists _, (red ++ [copy_key beyond_copy key]).
    rewrite E2. split; [|split; [|left; split; [reflexivity|]]].
    + split; try done. split; try done; simpl; [by rewrite Hred|].
      destruct Hmap as (e & He & _). exists None. split; [|done]. unfold vfdw_cluster_invalidate. by rewrite lookup_alter_eq, He.
    + rewrite decide_True by done. by rewrite fmap_cons, <- app_assoc.
    + unfold Pending. simpl. destruct (ss_current (sw_state w)). simpl in Hcur. by subst.
  - unfold telling in Htell. rewrite Hm in Htell. unfold moved in Hm.
    pose proof (one_key_rows serve (at_ n) beyond_copy p key (home key) w2 Hp Hi eq_refl Hcur Hm Htell) as Hone.
    rewrite decide_False by done.
    destruct (vfdw_scan_one_key beyond_copy key _ w2) as [[[r|]|e] w3]; [| |done].
    + destruct Hone as [Hr ->]. exists w2, red. split; [by split; try done; split|]. split; [done|]. right. exists r.
      split; [reflexivity|]. split; [exact Hr|].
      unfold Pending. simpl. destruct (ss_current (sw_state w)). simpl in Hcur. by subst.
    + destruct Hone as (Hpen & c & k & ->). eexists _, red. split; [|split; [done|left; split; [reflexivity|exact Hpen]]].
      by split; try done; split.
Qed.
(** What follows the last page of the pass. *)
Definition over (f : nat) : M World (option ScanRow) :=
  again ← retry_and_page serve pool_get pool_put; if (again : bool) then fetch f else vfdw_scan_drain_tail.

Lemma refill_pass f i n (w : World) red :
  Reading i n w [] red → su_reply (ss_current (sw_state w)) = None →
  ∃ w', (refill_step f w = fetch f w' ∧ arrived (S i) red (Ok true, w')) ∨
        (refill_step f w = over f w' ∧ arrived (S i) red (Ok false, w')).
Proof using served told some_keys keyed.
  intros Hr Hcur. pose proof (keys_page_moves i n w red Hr Hcur) as Ha.
  assert (E : ∀ g : bool → M World (option ScanRow), (vfdw_scan_refill serve pool_get pool_put f ≫= g) w =
    ((page ← vfdw_scan_keys_page serve pool_get pool_put; if (page : bool) then mret true else retry_and_page serve pool_get pool_put) ≫= g) w).
  { intros g. unfold mbind at 1, M_bind at 1. unfold vfdw_scan_refill, plan, state. rewrite !gets_bind.
    rewrite (hr_plan _ _ _ _ (rg_here _ _ _ _ _ Hr)), (bool_decide_false (sp_strategy p = VFDW_SCAN_KEYSPACE)) by done. cbn [negb].
    by rewrite orb_true_r. }
  unfold ScanFacts.refill_step. rewrite E. unfold over, mbind, M_bind.
  destruct (vfdw_scan_keys_page serve pool_get pool_put w) as [[[]|e] w1]; [| |done]; exists w1; [by left|by right].
Qed.

Context (slack : nat).
(** The rows this pass still has to give. *)
Definition PassLeft (fuel : nat) (w : World) (rows : list ScanRow) : Prop := ∃ i n cur keys red,
  Pending serve (at_ n) p w cur ∧ Reading i n w keys red ∧ rows = cur ++ rows_on n keys ++ rows_from (drop (S i) nodes) ∧
  red ++ moves_on n keys ++ moves_from (drop (S i) nodes) = moves_from nodes ∧
  (length keys + load_of (drop (S i) nodes) + 2 + slack ≤ fuel)%nat.

Lemma pass_left_mono n n' w rows : PassLeft n w rows → (n ≤ n')%nat → PassLeft n' w rows.
Proof.
  intros (i & nd & cur & keys & red & ? & ? & ? & ? & ?) Hn. exists i, nd, cur, keys, red. by split_and!; [..|lia].
Qed.

(** The keys of the page, and behind them the next node or the end of the pass. *)
Lemma pass_keys (L : nat → World → list ScanRow → Prop) E after f i n keys red (w : World) :
  (∀ n w rows, PassLeft n w rows → L n w (rows ++ after)) →
  (∀ f w, PassOver w (moves_from nodes) → (slack < f)%nat → fetched L E f after (over f w)) →
  (∀ w rows, PassLeft f w rows → fetched L E f (rows ++ after) (fetch f w)) →
  su_reply (ss_current (sw_state w)) = None → Reading i n w keys red →
  red ++ moves_on n keys ++ moves_from (drop (S i) nodes) = moves_from nodes →
  (length keys + load_of (drop (S i) nodes) + 2 + slack ≤ S f)%nat →
  fetched L E f ((rows_on n keys ++ rows_from (drop (S i) nodes)) ++ after)
    (page_step serve pool_get pool_put beyond_copy f w).
Proof using served told some_keys keyed.
  intros HL Hover IH Hcur Hr Hm Hf. pose proof (rg_left _ _ _ _ _ Hr) as Hleft. fold (page_left w) in Hleft.
  unfold page_step. rewrite Hleft. destruct keys as [|key keys].
  - destruct (refill_pass f i n w red Hr Hcur) as (w1 & [[-> Ha]|[-> Ha]]); unfold arrived in Ha.
    + destruct Ha as (j & n1 & Hr1 & Hcur1 & Erows & Emoves & Hlt). apply IH. exists j, n1, [], (asked n1), red.
      split_and!; [by apply (pending_none serve (at_ n1) p w1)|done|exact Erows|by rewrite <- Emoves|cbn [length] in Hf; lia].
    + destruct Ha as (-> & Emoves & Ho). rewrite Emoves, app_nil_r in Hm. cbn [rows_on fmap list_fmap concat app].
      apply Hover; [by rewrite <- Hm|cbn [length] in Hf; lia].
  - destruct (read_key f i n key keys w red Hr Hcur) as (w1 & red1 & Hr1 & Em & Hstep).
    assert (Hpass : ∀ rows, Pending serve (at_ n) p w1 rows →
      PassLeft f w1 (rows ++ rows_on n keys ++ rows_from (drop (S i) nodes))).
    { intros rows Hpen. exists i, n, rows, keys, red1.
      split_and!; [done|done|done|by rewrite app_assoc, Em, <- app_assoc|cbn [length] in Hf; lia]. }
    change (rows_on n (key :: keys)) with (rows_at n key ++ rows_on n keys). rewrite <- (app_assoc (rows_at n key)).
    destruct Hstep as [[-> Hpen]|(r & -> & -> & Hpen)]; [by apply IH, Hpass|].
    eexists. split; [reflexivity|]. by apply HL, (Hpass []).
Qed.

(** A pass goes to its end, whatever [after] is what comes then. *)
Lemma fetch_pass (L : nat → World → list ScanRow → Prop) E after :
  (∀ n n' w rows, L n w rows → (n ≤ n')%nat → L n' w rows) → (∀ n w rows, PassLeft n w rows → L n w (rows ++ after)) →
  (∀ f w, PassOver w (moves_from nodes) → (slack < f)%nat → fetched L E f after (over f w)) →
  ∀ f w rows, PassLeft f w rows → fetched L E f (rows ++ after) (fetch f w).
Proof using served told some_keys keyed.
  intros Hmono HL Hover f. induction f as [|f IH]; intros w rows (i & n & cur & keys & red & Hpen & Hr & -> & Hm & Hf); [lia|].
  rewrite <- app_assoc.
  apply (fetch_step serve (at_ n) pool_get pool_put beyond_copy p L E f (λ w, Reading i n w keys red)); [| |done|done| |].
  - intros c w1 _ [[] ? ? ? ?]. by split; try done; split.
  - apply (hr_plan _ _ _ _ (rg_here _ _ _ _ _ Hr)).
  - intros w1 cur1 Hpen1 Hr1. rewrite app_assoc. apply HL. by exists i, n, cur1, keys, red.
  - intros w1 Hcur1 Hr1. apply (fetched_mono L E Hmono f); [|lia]. by apply (pass_keys L E after f i n keys red).
Qed.
(** The scan before the first page of the pass. *)
Definition PassBegins (w : World) : Prop := ∃ n,
  Here 0 n w [] ∧ sc_started (ss_cursor (sw_state w)) = false ∧ owes serve (at_ n) (sw_batch w) [] ∧
  su_reply (ss_current (sw_state w)) = None.

Lemma arrived_left j n f (w : World) :
  Reading j n w (asked n) [] → su_reply (ss_current (sw_state w)) = None →
  rows_from nodes = rows_on n (asked n) ++ rows_from (drop (S j) nodes) →
  moves_from nodes = moves_on n (asked n) ++ moves_from (drop (S j) nodes) →
  (length (asked n) + load_of (drop (S j) nodes) + 2 + slack ≤ f)%nat → PassLeft f w (rows_from nodes).
Proof.
  intros Hr Hcur Erows Emoves Hf. exists j, n, [], (asked n), [].
  split_and!; [by apply (pending_none serve (at_ n) p w)|done|done|done|done].
Qed.

(** The first page of the pass, or its end. *)
Lemma begun_page f (w : World) :
  PassBegins w → (load_of nodes + 1 + slack ≤ f)%nat →
  ∃ w', (vfdw_scan_keys_page serve pool_get pool_put w = (Ok true, w') ∧ PassLeft f w' (rows_from nodes)) ∨
        (vfdw_scan_keys_page serve pool_get pool_put w = (Ok false, w') ∧ rows_from nodes = [] ∧ PassOver w' (moves_from nodes)).
Proof using served told some_keys.
  intros (n & Hh & Hs & Ho & Hcur) Hf. pose proof (keys_page_starts n w [] Hh Hs Ho Hcur) as Ha.
  destruct (vfdw_scan_keys_page serve pool_get pool_put w) as [[[]|e] w1]; [| |done]; exists w1; unfold arrived in Ha; rewrite drop_0 in Ha.
  - left. split; [done|]. destruct Ha as (j & n1 & Hr & Hcur1 & Erows & Emoves & Hlt). apply (arrived_left j n1); try done. lia.
  - right. destruct Ha as (-> & -> & Hover). by split_and!.
Qed.

Lemma fetch_begun f (w : World) :
  PassBegins w → drop (sg_next_key (ss_page (sw_state w))) (sg_keys (ss_page (sw_state w))) = [] →
  (load_of nodes + 1 + slack ≤ f)%nat →
  ∃ w', (fetch (S f) w = fetch f w' ∧ PassLeft f w' (rows_from nodes)) ∨
        (fetch (S f) w = over f w' ∧ rows_from nodes = [] ∧ PassOver w' (moves_from nodes)).
Proof using served told some_keys keyed.
  intros Hb Hleft Hf. destruct (begun_page f w Hb Hf) as (w1 & Hpage). exists w1. destruct Hb as (n & Hh & _ & _ & Hcur).
  assert (E : fetch (S f) w = (page ← vfdw_scan_keys_page serve pool_get pool_put; if (page : bool) then fetch f else over f) w).
  { cbn [fetch_loop]. rewrite state_bind. unfold id. rewrite Hcur, ret_bind, state_bind.
    assert (Ek : sg_keys (ss_page (sw_state w)) !! sg_next_key (ss_page (sw_state w)) = None).
    { by rewrite <- (Nat.add_0_r (sg_next_key _)), <- lookup_drop, Hleft. }
    rewrite Ek. unfold vfdw_scan_refill, over, plan, state. unfold mbind at 1, M_bind at 1. rewrite !gets_bind.
    rewrite (hr_plan _ _ _ _ Hh), (bool_decide_false (sp_strategy p = VFDW_SCAN_KEYSPACE)) by done. cbn [negb].
    rewrite orb_true_r. unfold mbind, M_bind. by destruct (vfdw_scan_keys_page serve pool_get pool_put w) as [[[]|?] ?]. }
  rewrite E. unfold mbind, M_bind. destruct Hpage as [[-> ?]|[-> ?]]; [by left|by right].
Qed.

Lemma over_settled f (w : World) : PassOver w [] → over f w = (Ok None, w).
Proof.
  intros (i & n & Hh & _). unfold over, mbind, M_bind.
  rewrite settled_no_retry by (by rewrite (hr_redirect _ _ _ _ Hh)). apply idle_drains, (hr_idle _ _ _ _ Hh).
Qed.
End pass.
End chase.
