(* ===== verification/ScanMoved.v ===== *)
(** A scan whose slot map is stale (src/vfdw_scan_cluster.c, src/vfdw_cluster.c): the
    rows of every key that is named come back, each once, whatever the number of keys
    that are redirected. *)
From S2P Require Import Prelude Slot Opcode Option OptionFacts Error Cmd CmdFacts WriteOp Wbuf Overlay.
From S2P Require Import TableMap TableMapFacts Ttl Vec Row ScanCmd RowFacts Val ValFacts Cluster ClusterFacts Scan ScanFacts ScanResults ScanCluster ScanChase.
Local Open Scope Z_scope.

(* ---------------------------------------------------------------- *)
(** ** Every key is asked of one node *)

Lemma concat_insert_one {A} (n : VfdwClusterNode) (k : A) (g : VfdwClusterNode → list A) l :
  NoDup l → n ∈ l → concat ((λ n', if decide (n' = n) then k :: g n' else g n') <$> l) ≡ₚ k :: concat (g <$> l).
Proof.
  induction l as [|a l IH]; intros Hnd Hin; [by apply not_elem_of_nil in Hin|].
  apply list.NoDup_cons in Hnd as [Hna Hnd]. rewrite !fmap_cons. cbn [concat]. destruct (decide (a = n)) as [->|Hne].
  - rewrite (list_fmap_ext _ g l); [done|]. intros i x Hx. rewrite decide_False; [done|].
    intros ->. apply Hna. by eapply list_elem_of_lookup_2.
  - apply elem_of_cons in Hin as [->|Hin]; [done|]. rewrite (IH Hnd Hin). by rewrite Permutation_middle.
Qed.

Lemma asked_partition m ks :
  NoDup (sm_nodes m) → (∀ k, k ∈ ks → is_Some (vfdw_cluster_route m k)) → concat (asked m ks <$> sm_nodes m) ≡ₚ ks.
Proof.
  intros Hnd. induction ks as [|k ks IH]; intros Hr.
  { rewrite (list_fmap_ext _ (λ _, [])) by done. clear. by induction (sm_nodes m). }
  destruct (Hr k ltac:(left)) as [n Hn].
  assert (Hin : n ∈ sm_nodes m).
  { unfold vfdw_cluster_route in Hn. case_bool_decide; [done|]. by eapply list_elem_of_lookup_2. }
  rewrite (list_fmap_ext _ (λ n', if decide (n' = n) then k :: asked m ks n' else asked m ks n')).
  - rewrite (concat_insert_one n k) by done. f_equiv. apply IH. intros k' Hk'. apply Hr. by right.
  - intros i n' _. unfold asked. rewrite filter_cons.
    assert (E : asked_here (Some m) n' k = bool_decide (n = n')) by (unfold asked_here; cbn [mbind option_bind]; by rewrite Hn).
    destruct (decide (n' = n)) as [->|Hne].
    + rewrite decide_True; [done|]. by rewrite E, bool_decide_true.
    + rewrite decide_False; [done|]. by rewrite E, bool_decide_false.
Qed.

Lemma route_listed m k n : vfdw_cluster_route m k = Some n → n ∈ sm_nodes m.
Proof. unfold vfdw_cluster_route. case_bool_decide; [done|]. by apply list_elem_of_lookup_2. Qed.

Lemma routed_some_node m k : is_Some (vfdw_cluster_route m k) → sm_nodes m ≠ [].
Proof. intros [n Hn%route_listed] E. rewrite E in Hn. by apply not_elem_of_nil in Hn. Qed.

Lemma asked_routed m n k : is_Some (vfdw_cluster_route m k) → asked_here (Some m) n k = true → vfdw_cluster_route m k = Some n.
Proof. intros [n' Hn]. unfold asked_here. cbn [mbind option_bind]. rewrite Hn. by intros ->%bool_decide_eq_true. Qed.

Lemma until_nul_no_nul s : occurs NUL (until_nul s) = false.
Proof.
  unfold occurs. induction s as [|c s IH]; [done|]. cbn [until_nul]. case_decide as Hc; [done|]. cbn [memchr].
  rewrite decide_False; [|by intros ->]. by destruct (memchr NUL (until_nul s)).
Qed.

Definition last_node (m : VfdwSlotMap) : option VfdwClusterNode := sm_nodes m !! pred (length (sm_nodes m)).

(** A map that was asked for is in the cache. *)
Lemma loaded_map_is_cached {P} (serve : list bytes → P → Reply * P) pb sid uid st m st' :
  vfdw_cluster_map serve pb sid uid st = (Ok m, st') → cl_maps st' !! (sid, uid) = Some (Some m).
Proof.
  unfold vfdw_cluster_map, vfdw_cluster_entry, mbind, M_bind.
  destruct (cl_maps st !! (sid, uid)) as [[m'|]|] eqn:E; [by intros [= -> <-]| |]; cbn [cl_conn cl_maps];
    destruct (vfdw_cluster_load _ _ _) as [[m'|e] c]; intros [= -> <-]; apply lookup_insert_eq.
Qed.

(** A node that answers CLUSTER SHARDS gives the map its answer spells. *)
Lemma load_from_peer {P} (serve : list bytes → P → Reply * P) peer pb c shards m :
  (∀ a, (serve a peer).2 = peer) → quiet_conn peer c →
  (serve ["CLUSTER"; "SHARDS"] peer).1 = array_reply shards → load_shards (Some <$> shards) empty_slot_map = Ok m →
  ∃ c', vfdw_cluster_load serve pb c = (Ok m, c') ∧ quiet_conn peer c'.
Proof.
  intros Hu (Hp & Ho & Hi & Hf) Hr Hm. unfold vfdw_cluster_load, cluster_load_batch.
  destruct (add_owes serve peer Hu (vfdw_cmd_add_cstr (vfdw_cmd_add_cstr (vfdw_cmd_init 2) "CLUSTER") "SHARDS")
    (vfdw_batch_begin pb c) [] (begin_owes serve peer pb c Ho Hi Hf Hp)) as (s1 & E1 & Ho1).
  change (cmd_args _) with ["CLUSTER"; "SHARDS"] in Ho1. rewrite Hr in Ho1.
  destruct (next_owes serve peer s1 _ [] Ho1) as (s2 & E2 & Ho2).
  destruct (end_owes serve peer s2 [] Ho2) as (s3 & E3 & Ho3). apply owes_nothing in Ho3 as (_ & _ & Hq).
  exists (bs_conn s3). split; [|done]. unfold mbind, M_bind. rewrite E1, E2. unfold lift. cbn [from_option].
  change (vfdw_reply_expect _ _ _) with (Ok ()). cbv beta iota.
  change (reply_elements (array_reply shards)) with (Some <$> shards). by rewrite Hm, E3.
Qed.

Section once.
Context `{TypeCatalog} `{PgTypes} `{Float4IO} {P : Type} (serve : list bytes → P → Reply * P) (beyond_copy : bytes → bytes) (p : ScanPlan).
Context (at_ : VfdwClusterNode → P) (home : bytes → list ScanRow).

Abbreviation rows_on := (rows_on serve p at_ home).
Abbreviation moves_on := (moves_on serve beyond_copy p at_).
Abbreviation rows_from := (rows_from serve p at_ home).
Abbreviation moves_from := (moves_from serve beyond_copy p at_).
Abbreviation plain := (Forall (λ k, occurs NUL k = false)).

Lemma node_rows n keys : plain keys → rows_on n keys ++ concat (home <$> moves_on n keys) ≡ₚ concat (home <$> keys).
Proof.
  induction keys as [|k keys IH]; intros Hk; [done|]. apply Forall_cons_iff in Hk as [Hk Hks]. specialize (IH Hks).
  change (rows_on n (k :: keys)) with (rows_at serve p at_ home n k ++ rows_on n keys).
  unfold ScanChase.moves_on, rows_at. rewrite filter_cons. rewrite (fmap_cons home). cbn [concat].
  destruct (moved serve p at_ n k) eqn:Hm.
  - rewrite decide_True by done. rewrite !fmap_cons. unfold copy_key at 1. rewrite Hk. cbn [concat app].
    by rewrite Permutation_app_swap_app, IH.
  - rewrite decide_False by done. by rewrite <- app_assoc, IH.
Qed.

Lemma plain_asked m ks n : plain ks → plain (asked m ks n).
Proof.
  rewrite !Forall_forall. intros Hk k Hin. apply Hk. apply list_elem_of_In in Hin. apply list_elem_of_filter in Hin as [_ Hin].
  by apply list_elem_of_In.
Qed.

Lemma from_rows m ks l : plain ks →
  rows_from m ks l ++ concat (home <$> moves_from m ks l) ≡ₚ concat (home <$> concat (asked m ks <$> l)).
Proof.
  intros Hk. induction l as [|n l IH]; [done|]. rewrite rows_from_cons, moves_from_cons, fmap_cons. cbn [concat].
  rewrite !fmap_app, !concat_app, <- IH, <- (node_rows n (asked m ks n)) by by apply plain_asked.
  rewrite <- !app_assoc. f_equiv. rewrite !app_assoc. f_equiv. apply Permutation_app_comm.
Qed.

(** A pass gives the rows of the keys that did not move. *)
Lemma pass_rows m ks :
  plain ks → NoDup (sm_nodes m) → (∀ k, k ∈ ks → is_Some (vfdw_cluster_route m k)) →
  rows_from m ks (sm_nodes m) ++ concat (home <$> moves_from m ks (sm_nodes m)) ≡ₚ concat (home <$> ks).
Proof. intros Hk Hnd Hr. rewrite from_rows by done. by rewrite (asked_partition m ks Hnd Hr). Qed.

Lemma moves_named m ks k l : plain ks → k ∈ moves_from m ks l → k ∈ ks.
Proof.
  intros Hk Hin. induction l as [|n l IH]; [by apply not_elem_of_nil in Hin|].
  rewrite moves_from_cons in Hin. apply elem_of_app in Hin as [Hin|Hin]; [|by apply IH].
  apply list_elem_of_fmap in Hin as (k' & -> & Hin). apply list_elem_of_filter in Hin as [_ Hin].
  pose proof (plain_asked m ks n Hk) as Hp. rewrite Forall_forall in Hp. specialize (Hp k' (proj1 (list_elem_of_In _ _) Hin)). cbv beta in Hp.
  unfold copy_key. rewrite Hp. by apply list_elem_of_filter in Hin as [_ ?].
Qed.

(** What the routing of two maps says of the two passes. *)
Lemma told_by_route m (ks : list bytes) :
  (∀ k, k ∈ ks → ∃ n, vfdw_cluster_route m k = Some n ∧ telling serve p at_ home n k) →
  ∀ n k, n ∈ sm_nodes m → k ∈ ks → asked_here (Some m) n k = true → telling serve p at_ home n k.
Proof.
  intros Hr n k _ Hin Ha. destruct (Hr k Hin) as (n' & E & Ht). apply asked_routed in Ha; [|by exists n']. congruence.
Qed.

Lemma read_by_route m (ks : list bytes) :
  (∀ k, k ∈ ks → ∃ n, vfdw_cluster_route m k = Some n ∧ readable serve (at_ n) p k (home k)) →
  ∀ n k, n ∈ sm_nodes m → k ∈ ks → asked_here (Some m) n k = true → telling serve p at_ home n k ∧ moved serve p at_ n k = false.
Proof.
  intros Hr n k _ Hin Ha. destruct (Hr k Hin) as (n' & E & Hrd & Hnm). apply asked_routed in Ha; [|by exists n'].
  assert (n' = n) as -> by congruence. unfold telling, moved. by rewrite Hnm.
Qed.

Lemma nothing_moves m (ks : list bytes) (l : list VfdwClusterNode) :
  (∀ n k, n ∈ l → k ∈ ks → asked_here (Some m) n k = true → moved serve p at_ n k = false) → moves_from m ks l = [].
Proof.
  induction l as [|n l IH]; intros Hl; [done|]. rewrite moves_from_cons, IH by (intros; apply Hl; [by right|done..]). rewrite app_nil_r.
  unfold ScanChase.moves_on. destruct (filter _ (asked m ks n)) as [|k ks'] eqn:E; [done|].
  assert (Hk : k ∈ filter (λ k, moved serve p at_ n k = true) (asked m ks n)) by (rewrite E; left).
  apply list_elem_of_filter in Hk as [Hm Hk]. apply list_elem_of_filter in Hk as [Ha Hk].
  rewrite (Hl n k ltac:(left) Hk Ha) in Hm. done.
Qed.

Lemma plain_moves m ks l : plain ks → plain (moves_from m ks l).
Proof.
  intros Hk. apply Forall_forall. intros k Hin%list_elem_of_In. rewrite Forall_forall in Hk. apply Hk, list_elem_of_In.
  by eapply moves_named; [apply Forall_forall|].
Qed.

Lemma load_is_keys m ks :
  NoDup (sm_nodes m) → (∀ k, k ∈ ks → is_Some (vfdw_cluster_route m k)) →
  load_of m ks (sm_nodes m) = (length (sm_nodes m) + length ks)%nat.
Proof.
  intros Hnd Hr. rewrite <- (Permutation_length (asked_partition m ks Hnd Hr)). generalize (sm_nodes m) as l.
  induction l as [|n l IH]; [done|]. rewrite load_of_cons, fmap_cons. cbn [concat length]. rewrite length_app, IH. lia.
Qed.
Lemma moves_few m ks :
  NoDup (sm_nodes m) → (∀ k, k ∈ ks → is_Some (vfdw_cluster_route m k)) →
  (length (moves_from m ks (sm_nodes m)) ≤ length ks)%nat.
Proof.
  intros Hnd Hr. rewrite <- (Permutation_length (asked_partition m ks Hnd Hr)). generalize (sm_nodes m) as l.
  induction l as [|n l IH]; [done|]. rewrite moves_from_cons, fmap_cons. cbn [concat]. rewrite !length_app.
  assert (length (moves_on n (asked m ks n)) ≤ length (asked m ks n))%nat; [|lia].
  unfold ScanChase.moves_on. rewrite length_fmap. apply length_filter.
Qed.
End once.

(* ---------------------------------------------------------------- *)
(** ** A stale map, and the map after it *)

Section stale.
Context `{TypeCatalog} `{PgTypes} `{Float4IO}.
Context {P W : Type} (serve : list bytes → P → Reply * P).
Context (pool_get : VfdwClusterNode → M W (Conn (P := P))) (pool_put : Conn (P := P) → W → W).
Context (beyond_copy : bytes → bytes) (p : ScanPlan) (keyed : sp_strategy p ≠ VFDW_SCAN_KEYSPACE).
Context (at_ : VfdwClusterNode → P) (home : bytes → list ScanRow).
Context (m0 m1 : VfdwSlotMap) (ks : list bytes).

Abbreviation World := (ScanWorld (P := P) (W := W)).
Abbreviation fetch := (fetch_loop serve pool_get pool_put beyond_copy).
Definition moves : list bytes := moves_from serve beyond_copy p at_ m0 ks (sm_nodes m0).
Definition first_rows : list ScanRow := rows_from serve p at_ home m0 ks (sm_nodes m0).
Definition second_rows : list ScanRow := rows_from serve p at_ home m1 moves (sm_nodes m1).
Definition second_fuel : nat := load_of m1 moves (sm_nodes m1) + 2.

Hypothesis served0 : ∀ n, n ∈ sm_nodes m0 → served_at serve pool_get at_ n.
Hypothesis served1 : ∀ n, n ∈ sm_nodes m1 → served_at serve pool_get at_ n.
Hypothesis told0 : ∀ n k, n ∈ sm_nodes m0 → k ∈ ks → asked_here (Some m0) n k = true → telling serve p at_ home n k.
Hypothesis told1 : ∀ n k, n ∈ sm_nodes m1 → k ∈ moves → asked_here (Some m1) n k = true →
  telling serve p at_ home n k ∧ moved serve p at_ n k = false.
Hypothesis some_keys : ks ≠ [].
Hypothesis some_node : sm_nodes m1 ≠ [].
(** The last node of the pass knows the map that holds. *)
Hypothesis reload : ∀ n c, last_node m0 = Some n → quiet_conn (at_ n) c →
  ∃ c', vfdw_cluster_load serve (sp_pipeline_batch p) c = (Ok m1, c') ∧ quiet_conn (at_ n) c'.

Abbreviation FirstOver := (PassOver serve p at_ m0 ks 3 false (W := W)).
Abbreviation SecondBegins := (PassBegins serve p at_ m1 moves 2 true (W := W)).
Abbreviation FirstLeft := (PassLeft serve beyond_copy p at_ home m0 ks 3 false second_fuel (W := W)).
Abbreviation SecondLeft := (PassLeft serve beyond_copy p at_ home m1 moves 2 true 0 (W := W)).

(** The reload, on the connection of the node the pass ended at. *)
Lemma map_reloads n (w : World) :
  ss_plan (sw_state w) = p → sw_maps w !! (sp_serverid p, sp_userid p) = Some None → last_node m0 = Some n →
  owes serve (at_ n) (sw_batch w) [] →
  ∃ b maps, scan_cluster_map serve w = (Ok m1, MkScanWorld (sw_state w) b (sw_wbuf w) maps (sw_pool w)) ∧
    owes serve (at_ n) b [] ∧ maps !! (sp_serverid p, sp_userid p) = Some (Some m1).
Proof using reload.
  intros Hp Hm Hn Ho. apply owes_nothing in Ho as (Hq & Hout & Hc). destruct (reload n _ Hn Hc) as (c' & E & Hc').
  eexists (MkBS (bs_batch (sw_batch w)) c'), _. unfold scan_cluster_map. rewrite Hp.
  unfold vfdw_cluster_map, vfdw_cluster_entry, mbind, M_bind. cbn [cl_maps cl_conn]. rewrite Hm. cbn [cl_conn]. rewrite E. split; [reflexivity|].
  split; [|apply lookup_insert_eq]. by apply owes_nothing.
Qed.

Lemma retry_begins (w : World) :
  FirstOver w moves → moves ≠ [] → ∃ w', vfdw_scan_retry_pass serve pool_get pool_put w = (Ok true, w') ∧ SecondBegins w'.
Proof using served1 reload some_node.
  clear told1. intros (i & n & [Hn Hp Hi Hfan Hred (e & He & Hdrop)] & Hlast & Ho & Hcur) Hne. rewrite (Hdrop Hne) in He.
  assert (Hl : last_node m0 = Some n).
  { unfold last_node. apply lookup_ge_None_1 in Hlast. pose proof (lookup_lt_Some _ _ _ Hn). rewrite <- Hn. f_equal. lia. }
  unfold vfdw_scan_retry_pass. rewrite state_bind. unfold id. rewrite Hred. cbn [sr_redirected sr_passes].
  rewrite bool_decide_false by done. rewrite bool_decide_false by lia. unfold set_state. rewrite !modify_bind.
  rewrite Hfan. cbn [sf_fanout]. set (w1 := MkScanWorld _ _ _ _ _).
  destruct (map_reloads n w1 Hp He Hl Ho) as (b & maps & E & Ho1 & Hm1).
  unfold mbind, M_bind. rewrite E. unfold vfdw_scan_cluster_copy_nodes, set_state, modify.
  match goal with |- context [vfdw_scan_cluster_attach _ _ _ 0 ?w] => set (w2 := w) end.
  destruct (sm_nodes m1) as [|n1 l] eqn:En; [done|].
  destruct (attach_node serve pool_get pool_put 0 n1 (at_ n) (at_ n1) w2) as (b2 & pool2 & E2 & Ho2);
    [done|exact Ho1|apply served1; left|].
  change (Z.of_nat 0) with 0 in E2. rewrite E2. eexists. split; [reflexivity|]. exists n1.
  split; [|by split_and!]. split; cbn; rewrite ?En, ?Hfan; try done. by exists (Some m1).
Qed.
Lemma nothing_moved : moves = [] → second_rows = [].
Proof.
  unfold second_rows. intros ->. generalize (sm_nodes m1) as l. induction l as [|n l IH]; [done|].
  rewrite rows_from_cons, IH. by rewrite app_nil_r.
Qed.

Lemma second_settled : moves_from serve beyond_copy p at_ m1 moves (sm_nodes m1) = [].
Proof using told1.
  apply nothing_moves. intros n k Hn Hk Ha. by apply told1.
Qed.

(** What is left of both passes. *)
Definition StaleLeft (f : nat) (w : World) (rows : list ScanRow) : Prop :=
  (PassBegins serve p at_ m0 ks 3 false w ∧ drop (sg_next_key (ss_page (sw_state w))) (sg_keys (ss_page (sw_state w))) = [] ∧
   (load_of m0 ks (sm_nodes m0) + 2 + second_fuel ≤ f)%nat ∧ rows = first_rows ++ second_rows) ∨
  (∃ r, FirstLeft f w r ∧ rows = r ++ second_rows) ∨ (moves ≠ [] ∧ SecondLeft f w rows).

Lemma stale_left_mono n n' w rows : StaleLeft n w rows → (n ≤ n')%nat → StaleLeft n' w rows.
Proof.
  intros [(? & ? & ? & ?)|[(r & Hr & ?)|[? Hr]]] Hn; [left; split_and!; [done..|lia|done]|right; left; exists r; split; [|done]|right; right; split; [done|]];
    by eapply pass_left_mono.
Qed.

Abbreviation fetches := (fetched StaleLeft (λ _, True)).

Lemma fetch_second f (w : World) rows : SecondLeft f w rows → moves ≠ [] → fetches f rows (fetch f w).
Proof using keyed served1 told1.
  intros Hl Hne. rewrite <- (app_nil_r rows). revert f w rows Hl.
  apply (fetch_pass serve pool_get pool_put beyond_copy p keyed at_ home m1 moves 2 true served1
    (λ n k Hn Hk Ha, proj1 (told1 n k Hn Hk Ha)) Hne 0).
  - apply stale_left_mono.
  - intros n w rows Hl. rewrite app_nil_r. by right; right.
  - intros f w Hover _. rewrite second_settled in Hover.
    by rewrite (over_settled serve pool_get pool_put beyond_copy p at_ m1 moves 2 true).
Qed.

Lemma first_over f (w : World) :
  FirstOver w moves → (second_fuel < f)%nat → fetches f second_rows (over serve pool_get pool_put beyond_copy f w).
Proof using keyed served1 told1 reload some_node.
  intros Hover Hf. destruct (decide (moves = [])) as [Hm|Hm].
  { rewrite Hm in Hover. rewrite (over_settled serve pool_get pool_put beyond_copy p at_ m0 ks 3 false f w Hover).
    by rewrite nothing_moved. }
  destruct (retry_begins w Hover Hm) as (w1 & E1 & Hb). unfold over, retry_and_page, mbind, M_bind. rewrite E1.
  unfold second_fuel in Hf.
  destruct (begun_page serve pool_get pool_put beyond_copy p at_ home m1 moves 2 true served1
    (λ n k Hn Hk Ha, proj1 (told1 n k Hn Hk Ha)) Hm 0 f w1 Hb ltac:(lia)) as (w2 & [[-> Hl]|(-> & Er & Hover2)]).
  - by apply fetch_second.
  - destruct Hover2 as (i & n & Hh & _). by rewrite idle_drains by apply (hr_idle _ _ _ _ _ _ _ _ _ Hh).
Qed.

Lemma fetch_first f (w : World) rows : FirstLeft f w rows → fetches f (rows ++ second_rows) (fetch f w).
Proof using keyed served0 told0 some_keys served1 told1 reload some_node.
  revert f w rows. apply (fetch_pass serve pool_get pool_put beyond_copy p keyed at_ home m0 ks 3 false served0 told0 some_keys second_fuel).
  - apply stale_left_mono.
  - intros n w rows Hl. right; left. by exists rows.
  - apply first_over.
Qed.

Lemma fetch_stale f (w : World) rows : StaleLeft f w rows → ss_plan (sw_state w) = p ∧ fetches f rows (fetch f w).
Proof using keyed served0 told0 some_keys served1 told1 reload some_node.
  intros [(Hb & Hleft & Hf & ->)|[(r & Hl & ->)|[Hne Hl]]].
  - split; [destruct Hb as (n & Hh & _); apply (hr_plan _ _ _ _ _ _ _ _ _ Hh)|]. destruct f as [|f]; [lia|].
    destruct (fetch_begun serve pool_get pool_put beyond_copy p keyed at_ home m0 ks 3 false served0 told0 some_keys second_fuel f w
      Hb Hleft ltac:(lia)) as (w1 & [[-> Hl]|(-> & Er & Hover)]); (eapply fetched_mono; [apply stale_left_mono| |apply Nat.le_succ_diag_r]).
    + by apply fetch_first.
    + unfold first_rows. rewrite Er. apply first_over; [done|lia].
  - split; [|by apply fetch_first]. destruct Hl as (i & n & ? & ? & ? & _ & Hr & _). apply (hr_plan _ _ _ _ _ _ _ _ _ (rg_here _ _ _ _ _ _ _ _ _ _ _ _ _ Hr)).
  - split; [destruct Hl as (i & n & ? & ? & ? & _ & Hr & _); apply (hr_plan _ _ _ _ _ _ _ _ _ (rg_here _ _ _ _ _ _ _ _ _ _ _ _ _ Hr))|].
    by apply fetch_second.
Qed.
(** Set up on the stale map, with the keys of the plan. *)
Lemma stale_begins conn b maps (pool : W) st seed keys :
  ks = until_nul <$> keys → sm_nodes m0 ≠ [] → vfdw_overlay_active b = false →
  vfdw_cluster_map serve (sp_pipeline_batch p) (sp_serverid p) (sp_userid p) (MkCluster maps (set_conversation true conn))
    = (Ok m0, st) → quiet_conn seed (cl_conn st) →
  ∃ w, (∀ k : M World (list ScanRow),
      (vfdw_scan_cluster_setup serve pool_get pool_put true;;; vfdw_scan_set_keys keys;;; k) (open_world p conn b maps pool) = k w) ∧
    PassBegins serve p at_ m0 ks 3 false w ∧ drop (sg_next_key (ss_page (sw_state w))) (sg_keys (ss_page (sw_state w))) = [].
Proof using served0.
  clear told0 told1 reload. intros Hks Hne Hb Hload Hq. pose proof (loaded_map_is_cached _ _ _ _ _ _ _ Hload) as Hcached.
  assert (Hn : ∃ n0, sm_nodes m0 !! 0%nat = Some n0) by (destruct (sm_nodes m0) as [|n l]; [done|by exists n]). destruct Hn as [n0 Hn].
  set (w0 := open_world p conn b maps pool).
  set (w1 := MkScanWorld (with_redirect (MkRedirect [] [] 3 false) (with_fanout (MkFanout true (Some m0) (sm_nodes m0) 0) (sw_state w0)))
    (MkBS (bs_batch (sw_batch w0)) (cl_conn st)) b (cl_maps st) pool).
  destruct (attach_node serve pool_get pool_put 0 n0 seed (at_ n0) w1) as (b1 & pool1 & E & Ho);
    [done|by apply owes_nothing|apply served0; by eapply list_elem_of_lookup_2|].
  change (Z.of_nat 0) with 0 in E.
  assert (E1 : vfdw_scan_cluster_setup serve pool_get pool_put true w0 =
    (Ok true, MkScanWorld (at_node 0 (sw_state w1)) b1 (sw_wbuf w1) (sw_maps w1) pool1)).
  { unfold vfdw_scan_cluster_setup, set_state. rewrite modify_bind. cbn [negb]. unfold mbind at 1, M_bind at 1, scan_cluster_map.
    cbn [w0 open_world fresh_state sw_state sw_batch sw_wbuf sw_maps sw_pool ss_plan with_fanout bs_conn vfdw_batch_begin]. rewrite Hload.
    unfold vfdw_scan_cluster_copy_nodes, set_state. rewrite !modify_bind.
    match goal with |- ?m _ = _ => change (m w1 = (Ok true, MkScanWorld (at_node 0 (sw_state w1)) b1 (sw_wbuf w1) (sw_maps w1) pool1)) end.
    unfold mbind, M_bind. by rewrite E. }
  eexists. split; [intros k; unfold mbind at 1, M_bind at 1; rewrite E1; reflexivity|]. split; [|done]. exists n0.
  split; [|by split_and!]. split; cbn; rewrite ?Hks; try done. by exists (Some m0).
Qed.
End stale.

(** C24: a scan of named keys on a cluster whose slot map is stale, where both the
    stale map and the one that is loaded instead give every named key to a node:
    the rows of every key are returned, each once.  A key is asked of the one node
    the map gives it, the keys whose node answers MOVED are asked again, with the
    map reloaded, of the node that holds them, and none of them is lost or
    repeated.  The transaction has written nothing, and the data of the nodes does
    not change meanwhile.  A key no node of the stale
    map claims is asked everywhere and can come back more than once
    (unplaced_key_is_returned_twice). *)
Theorem stale_map_scan_is_complete `{TypeCatalog} `{PgTypes} `{Float4IO} {P W : Type}
    (serve : list bytes → P → Reply * P) (pool_get : VfdwClusterNode → M W (Conn (P := P)))
    (pool_put : Conn (P := P) → W → W) (beyond_copy : bytes → bytes)
    (search_next : M (ScanWorld (P := P) (W := W)) (option ScanRow))
    (p : ScanPlan) (conn : Conn (P := P)) (b : Wbuf) maps (pool : W) (keys : list bytes)
    (at_ : VfdwClusterNode → P) (home : bytes → list ScanRow) (m0 m1 : VfdwSlotMap)
    (st : ClusterState (P := P)) (seed : P) (calls fuel : nat) :
  let ks := until_nul <$> keys in
  sp_strategy p ≠ VFDW_SCAN_KEYSPACE → sp_strategy p ≠ VFDW_SCAN_KNN →
  vfdw_overlay_active b = false →
  vfdw_cluster_map serve (sp_pipeline_batch p) (sp_serverid p) (sp_userid p) (MkCluster maps (set_conversation true conn))
    = (Ok m0, st) →
  quiet_conn seed (cl_conn st) →
  NoDup (sm_nodes m0) → NoDup (sm_nodes m1) →
  (∀ n, n ∈ sm_nodes m0 ++ sm_nodes m1 → served_at serve pool_get at_ n) →
  (∀ n, last_node m0 = Some n → ∃ shards,
     (serve ["CLUSTER"; "SHARDS"] (at_ n)).1 = array_reply shards ∧ load_shards (Some <$> shards) empty_slot_map = Ok m1) →
  keys ≠ [] →
  (∀ k, k ∈ ks → ∃ n, vfdw_cluster_route m0 k = Some n ∧ telling serve p at_ home n k) →
  (∀ k, k ∈ ks → ∃ n, vfdw_cluster_route m1 k = Some n ∧ readable serve (at_ n) p k (home k)) →
  (length (concat (home <$> ks)) < calls)%nat →
  (length (sm_nodes m0) + length (sm_nodes m1) + 2 * length ks + 4 ≤ fuel)%nat →
  ∃ rows, ((vfdw_scan_cluster_setup serve pool_get pool_put true;;; vfdw_scan_set_keys keys;;;
      scan_rows serve pool_get pool_put beyond_copy search_next calls fuel) (open_world p conn b maps pool)).1 = Ok rows ∧
    rows ≡ₚ concat (home <$> ks).
Proof.
  intros ks Hks Hk Hb Hload Hq Hnd0 Hnd1 Hserved Hreload Hne Hr0 Hr1 Hc Hf.
  assert (Hsome : ks ≠ []) by (unfold ks; by destruct keys).
  assert (Hplain : Forall (λ k, occurs NUL k = false) ks).
  { apply Forall_forall. intros k [k' [<- _]]%in_map_iff. apply until_nul_no_nul. }
  assert (Hroute0 : ∀ k, k ∈ ks → is_Some (vfdw_cluster_route m0 k)) by (intros k Hin; destruct (Hr0 k Hin) as (n & ? & _); by exists n).
  assert (Hroute1 : ∀ k, k ∈ ks → is_Some (vfdw_cluster_route m1 k)) by (intros k Hin; destruct (Hr1 k Hin) as (n & ? & _); by exists n).
  assert (Hnodes : sm_nodes m0 ≠ [] ∧ sm_nodes m1 ≠ []).
  { destruct ks as [|k l]; [done|]. split; [apply (routed_some_node m0 k), Hroute0; left|apply (routed_some_node m1 k), Hroute1; left]. }
  set (mv := moves serve beyond_copy p at_ m0 ks). assert (Hmv : ∀ k, k ∈ mv → k ∈ ks) by (intros k; by apply moves_named).
  pose proof (told_by_route serve p at_ home m0 ks Hr0) as Htold0.
  pose proof (read_by_route serve p at_ home m1 mv (λ k Hk, Hr1 k (Hmv k Hk))) as Htold1.
  assert (Hserved0 : ∀ n, n ∈ sm_nodes m0 → served_at serve pool_get at_ n) by (intros n Hn; apply Hserved, elem_of_app; by left).
  assert (Hserved1 : ∀ n, n ∈ sm_nodes m1 → served_at serve pool_get at_ n) by (intros n Hn; apply Hserved, elem_of_app; by right).
  assert (Hload1 : ∀ n c, last_node m0 = Some n → quiet_conn (at_ n) c →
    ∃ c', vfdw_cluster_load serve (sp_pipeline_batch p) c = (Ok m1, c') ∧ quiet_conn (at_ n) c').
  { intros n c Hn Hquiet. destruct (Hreload n Hn) as (shards & Hs & Hm). eapply load_from_peer; [|done..].
    apply Hserved0. by eapply list_elem_of_lookup_2. }
  destruct (stale_begins serve pool_get pool_put p at_ m0 ks Hserved0 conn b maps pool st seed keys eq_refl (proj1 Hnodes) Hb Hload Hq)
    as (w & E & Hbegin & Hpage). rewrite E.
  exists (first_rows serve p at_ home m0 ks ++ second_rows serve beyond_copy p at_ home m0 m1 ks).
  assert (Hperm : first_rows serve p at_ home m0 ks ++ second_rows serve beyond_copy p at_ home m0 m1 ks ≡ₚ concat (home <$> ks)).
  { rewrite <- (pass_rows serve beyond_copy p at_ home m0 ks Hplain Hnd0 Hroute0). f_equiv; [done|].
    change (second_rows serve beyond_copy p at_ home m0 m1 ks ≡ₚ concat (home <$> mv)).
    rewrite <- (pass_rows serve beyond_copy p at_ home m1 mv); [|by eapply plain_moves|done|by auto].
    rewrite nothing_moves; [by rewrite app_nil_r|]. intros n k Hn Hin Ha. by apply Htold1. }
  split; [|done].
  apply (scan_rows_of serve pool_get pool_put beyond_copy search_next p
    (StaleLeft serve beyond_copy p at_ home m0 m1 ks) (λ _, True)); [done| | |by rewrite Hperm].
  - intros w' rows' Hl. by apply (fetch_stale serve pool_get pool_put beyond_copy p Hks at_ home m0 m1 ks Hserved0 Hserved1 Htold0 Htold1 Hsome (proj2 Hnodes) Hload1).
  - left. split_and!; [done..| |done]. unfold second_fuel. fold mv.
    rewrite !load_is_keys by auto. pose proof (moves_few serve beyond_copy p at_ m0 ks Hnd0 Hroute0) as Hfew.
    change (length mv ≤ length ks)%nat in Hfew. lia.
Qed.

(* ---------------------------------------------------------------- *)
(** ** A cluster to run it with *)

#[local] Existing Instance sample_catalog.
#[local] Existing Instance sample_types.
#[local] Existing Instance sample_float4.

Definition low_node : VfdwClusterNode := ClusterNode "one.example" 7001.
Definition high_node : VfdwClusterNode := ClusterNode "10.0.0.2" 7002.

(** Two primaries, each with one of two lists; asked for the other it says where it is. *)
Definition moving_server (c : list bytes) (port : Z) : Reply * Z :=
  (match c with
   | ["CLUSTER"; "SHARDS"] => array_reply (omap id sample_shards)
   | ["LRANGE"; k; "0"; "-1"] =>
       if Bool.eqb (vfdw_val_slot k <? 8192) (port =? 7001) then array_reply [string_reply ("of " +:+ k)]
       else error_reply "MOVED 1 10.0.0.9:7009"
   | _ => error_reply "ERR unknown command"
   end, port).

Definition moving_pool (n : VfdwClusterNode) : M unit (Conn (P := Z)) := mret (cluster_conn (node_port n)).
Definition named_plan : ScanPlan := MkScanPlan list_map VFDW_SCAN_KEYS None 100 2 0 1 10.

(** The map of a time when the high node had everything. *)
Definition stale_map : VfdwSlotMap := SlotMap [high_node] (λ _, 0).
Definition stale_cache : gmap (Z * Z) (option VfdwSlotMap) :=
  <[(sp_serverid named_plan, sp_userid named_plan) := Some stale_map]> ∅.
Definition list_home (k : bytes) : list ScanRow := [list_row k ("of " +:+ k)].

Lemma stale_map_scan_is_complete_witness :
  ∃ rows, ((vfdw_scan_cluster_setup moving_server moving_pool (λ _ w, w) true;;; vfdw_scan_set_keys ["q:4"; "q:6"];;;
      scan_rows moving_server moving_pool (λ _ w, w) id no_cluster_search 4 20)
      (open_world named_plan (cluster_conn 7001) wbuf_empty stale_cache ())).1 = Ok rows ∧
    rows ≡ₚ [list_row "q:4" "of q:4"; list_row "q:6" "of q:6"].
Proof.
  apply (stale_map_scan_is_complete moving_server moving_pool (λ _ w, w) id no_cluster_search named_plan (cluster_conn 7001)
    wbuf_empty stale_cache () ["q:4"; "q:6"] node_port list_home stale_map sample_slot_map
    (MkCluster stale_cache (set_conversation true (cluster_conn 7001))) 7001 4 20).
  - discriminate.
  - discriminate.
  - reflexivity.
  - unfold vfdw_cluster_map, vfdw_cluster_entry, mbind, M_bind. cbn [cl_maps]. unfold stale_cache at 1. by rewrite lookup_insert_eq.
  - by repeat split.
  - repeat constructor. by apply not_elem_of_nil.
  - apply (bool_decide_unpack _). vm_compute. exact I.
  - intros n _. split; [done|]. intros []. eexists _, _. by repeat split.
  - intros n _. exists (omap id sample_shards). split; reflexivity.
  - discriminate.
  - intros k Hk. apply list_elem_of_In in Hk as [<-|[<-|[]]]; exists high_node; split; vm_compute; reflexivity.
  - intros k Hk. apply list_elem_of_In in Hk as [<-|[<-|[]]]; [exists high_node|exists low_node]; repeat split; vm_compute; reflexivity.
  - simpl. lia.
  - simpl. lia.
Defined.

(** The map of a time when no slot was claimed. *)
Definition blank_map : VfdwSlotMap := SlotMap [low_node; high_node] (λ _, -1).
Definition blank_cache : gmap (Z * Z) (option VfdwSlotMap) :=
  <[(sp_serverid named_plan, sp_userid named_plan) := Some blank_map]> ∅.

(** A slot no node claims is asked of every node, and where it is not held the answer
    MOVED has the key asked for again: one key of one row is returned twice, once by the
    node that holds it and once by the pass after the redirect. *)
Theorem unplaced_key_is_returned_twice :
  ((vfdw_scan_cluster_setup moving_server moving_pool (λ _ w, w) true;;; vfdw_scan_set_keys ["q:6"];;;
    scan_rows moving_server moving_pool (λ _ w, w) id no_cluster_search 4 20)
    (open_world named_plan (cluster_conn 7001) wbuf_empty blank_cache ())).1 =
  Ok [list_row "q:6" "of q:6"; list_row "q:6" "of q:6"].
Proof. vm_compute. reflexivity. Qed.
