(* ===== verification/Estimate.v ===== *)
(** How many rows a table has, when the server can say in one command
    (src/vfdw_estimate.c), asked over a connection of the pool. *)
From S2P Require Import Prelude Opcode Option Error Cmd Connection ConnPool TableMap Vec Row ScanCmd.
Local Open Scope Z_scope.

Definition vfdw_estimate_count_verb (type : VfdwTableType) : option bytes :=
  match type with
  | VFDW_TABLE_HASH => Some "HLEN"
  | VFDW_TABLE_LIST => Some "LLEN"
  | VFDW_TABLE_SET => Some "SCARD"
  | VFDW_TABLE_ZSET => Some "ZCARD"
  | VFDW_TABLE_STRING | VFDW_TABLE_VECTOR => None
  end.

Section estimate.
Context {P : Type} (serve : list bytes → P → Reply * P).
Context (garbage : VfdwConnKey → VfdwConn (P := P)) (verify_mbstr : bytes → bool) (encoding : string).
Context (io_connect : bytes → Z → option bytes → result (P * list (option Fault))).
Context (tls_attach : result unit) (tls_reason : option string) (script_text : bytes).
(** The server of the table, the user, the options, the subtransaction. *)
Context (serverid userid : Z) (ct : Catalog) (subid : Z).

(** A batch on the entry a connection was taken in. *)
Definition on_batch_of {A} (k : VfdwConnKey) (m : M (BatchState (P := P)) A) (dflt : A) : M (Pool (P := P)) A := λ w,
  match entries w !! k with
  | None => (Ok dflt, w)
  | Some c =>
      let '(r, s) := m (vfdw_batch_begin (so_pipeline_batch (vc_opts c)) (vc_wire c)) in
      (r, set_entries (<[k := set_socket (vc_open c) (bs_conn s) c]> (entries w)) w)
  end.

Definition count_of (reply : option Reply) : Z :=
  match reply with
  | Some r => if bool_decide (r_type r = VALKEY_REPLY_INTEGER) then r_integer r else -1
  | None => -1
  end.

Definition count_command (verb arg : bytes) : VfdwCmd := vfdw_cmd_add_bytes (vfdw_cmd_add_cstr (vfdw_cmd_init 3) verb) arg.

(** The body of PG_TRY. *)
Definition ask_count (verb arg : bytes) : M (Pool (P := P)) Z :=
  k ← vfdw_get_connection_cluster serve garbage verify_mbstr encoding io_connect tls_attach tls_reason script_text
        serverid userid ct subid;
  count ← on_batch_of k
    (vfdw_batch_add serve (count_command verb arg);;;
     (reply ← vfdw_batch_next serve;
      vfdw_batch_end serve;;;
      mret (count_of reply))) (-1);
  vfdw_release_connection (Some k);;;
  mret count.

(** An error is swallowed. *)
Definition vfdw_estimate_ask (verb arg : bytes) (w : Pool (P := P)) : Z * Pool (P := P) :=
  match ask_count verb arg w with
  | (Ok n, w) => (n, w)
  | (Raise _, w) => (-1, w)
  end.

(** -1 when the table is not one that can be asked. *)
Definition vfdw_estimate_rows (map : VfdwTableMap) (w : Pool (P := P)) : Z * Pool (P := P) :=
  match map_singleton_key map with
  | Some key =>
      if negb (vfdw_scan_is_multirow map) then (1, w)
      else match vfdw_estimate_count_verb (map_tabletype map) with
           | None => (1, w)
           | Some verb => let '(n, w) := vfdw_estimate_ask verb (until_nul key) w in (if bool_decide (0 ≤ n) then n else -1, w)
           end
  | None =>
      match map_keyset map with
      | Some keyset =>
          if negb (vfdw_scan_is_multirow map)
          then let '(n, w) := vfdw_estimate_ask "SCARD" (until_nul keyset) w in (if bool_decide (0 ≤ n) then n else -1, w)
          else (-1, w)
      | None => (-1, w)
      end
  end.
End estimate.

Definition VFDW_DEFAULT_TUPLES : Z := 1000.

(** baserel->tuples of vfdwGetForeignRelSize: [measured] is what ANALYZE left, if
    anything; [estimate] what is asked when it left nothing. *)
Definition vfdwGetForeignRelSize {W} (measured : Z) (estimate : W → Z * W) (w : W) : Z * W :=
  if bool_decide (measured < 0)
  then let '(rows, w) := estimate w in (if bool_decide (0 ≤ rows) then rows else VFDW_DEFAULT_TUPLES, w)
  else (measured, w).
