(* ===== verification/EstimateFacts.v ===== *)
(** What an estimate says of the table it is of (src/vfdw_estimate.c), and where it
    asks the wrong database or keeps its connection. *)
From S2P Require Import Prelude Opcode Option OptionFacts Error Cmd CmdFacts ScriptFacts WriteOp Wbuf Overlay Connection ConnPool.
From S2P Require Import TableMap TableMapFacts Ttl Vec Row ScanCmd RowFacts Val ValFacts Cluster Scan ScanFacts ScanResults Estimate.
Local Open Scope Z_scope.

Section ask.
Context {P : Type} (serve : list bytes → P → Reply * P).
Context (garbage : VfdwConnKey → VfdwConn (P := P)) (verify_mbstr : bytes → bool) (encoding : string).
Context (io_connect : bytes → Z → option bytes → result (P * list (option Fault))).
Context (tls_attach : result unit) (tls_reason : option string) (script_text : bytes).
Context (serverid userid : Z) (ct : Catalog) (subid : Z).

Abbreviation ask := (vfdw_estimate_ask serve garbage verify_mbstr encoding io_connect tls_attach tls_reason script_text serverid userid ct subid).
Abbreviation get_connection := (vfdw_get_connection_cluster serve garbage verify_mbstr encoding io_connect tls_attach tls_reason script_text serverid userid ct subid).

(** An entry that can be handed on: nobody holds it and nothing is on its way. *)
Definition entry_clean (c : VfdwConn (P := P)) : Prop :=
  cn_out (vc_wire c) = [] ∧ cn_in (vc_wire c) = [] ∧ cn_faults (vc_wire c) = [].

(** The entry a connection was given in, quiet and with a peer that stays as it is. *)
Definition connects (w : Pool (P := P)) (peer : P) : Prop :=
  ∃ k w1 c, get_connection w = (Ok k, w1) ∧ entries w1 !! k = Some c ∧ entry_clean c ∧ cn_peer (vc_wire c) = peer.

Lemma ask_answers peer verb arg w :
  (∀ c, (serve c peer).2 = peer) → connects w peer →
  ∃ w' k c', ask verb arg w = (count_of (Some (serve [until_nul verb; arg] peer).1), w') ∧
    entries w' !! k = Some c' ∧ entry_clean c' ∧ vc_leased c' = false ∧ in_conversation c' = false.
Proof.
  intros Hu (k & w1 & c & Eg & Ek & (Ho & Hi & Hf) & Hp). unfold vfdw_estimate_ask, ask_count.
  unfold mbind at 1, M_bind at 1. rewrite Eg. unfold on_batch_of. unfold mbind at 1, M_bind at 1. rewrite Ek.
  set (s0 := vfdw_batch_begin _ _).
  assert (Ho0 : owes serve peer s0 []) by (by apply begin_owes).
  destruct (add_owes serve peer Hu (count_command verb arg) s0 [] Ho0) as (s1 & E1 & Ho1).
  unfold count_command, vfdw_cmd_add_cstr in E1, Ho1. rewrite !add_bytes_args in Ho1. cbn in Ho1.
  destruct (next_owes serve peer s1 _ [] Ho1) as (s2 & E2 & Ho2).
  destruct (drain_owes serve peer (Z.to_nat (vfdw_batch_pending s2)) s2 [] Ho2 (Nat.le_0_l _)) as (s3 & E3 & Ho3).
  unfold mbind, M_bind. unfold count_command, vfdw_cmd_add_cstr. rewrite E1, E2. unfold vfdw_batch_end, mbind, M_bind, get.
  rewrite E3. unfold set_batch, modify, mret, M_ret. cbn [bs_conn bs_batch].
  eexists _, k, _. split; [reflexivity|]. apply owes_nothing in Ho3 as (_ & _ & _ & Hout & Hin & Hfa).
  cbn [set_entries entries cp_pool default id]. rewrite lookup_alter_eq, lookup_insert_eq. split; [reflexivity|].
  split; [|by split]. by split.
Qed.
End ask.

(* ---------------------------------------------------------------- *)
(** ** Against the scan *)

Section rows.
Context `{TypeCatalog} `{PgTypes} `{Float4IO}.
Context (answer : list bytes → Reply) (p : ScanPlan).

Lemma member_rows_length n stride i key reply rows : member_rows answer p n stride i key reply = Ok rows → length rows = n.
Proof.
  revert i rows. induction n as [|n IH]; intros i rows; cbn [member_rows]; [by intros [= <-]|].
  destruct (vfdw_scan_fill _ _ _); [|done]. cbn [mbind result_bind].
  destruct (member_rows answer p n stride (i + stride) key reply) as [l|] eqn:E; [|done]. cbn [mbind result_bind].
  intros [= <-]. simpl. by rewrite (IH _ _ E).
Qed.

Definition collection_type (t : Z) : Prop := t = VALKEY_REPLY_ARRAY ∨ t = VALKEY_REPLY_SET ∨ t = VALKEY_REPLY_MAP.

(** A collection has one row per member, none when it is empty. *)
Lemma collection_rows key stride rows :
  asks_membership p = false → map_hmget (sp_map p) = false → vfdw_scan_is_multirow (sp_map p) = true →
  let reply := answer (value_request p key) in
  collection_type (r_type reply) → vfdw_scan_member_stride (map_tabletype (sp_map p)) reply = Ok stride →
  key_rows answer p key = Ok rows → length rows = member_count reply stride.
Proof.
  intros Hm Hh Hmr reply Ht Hs. unfold key_rows. fold reply. rewrite Hmr.
  assert (Hskip : vfdw_scan_reply_is_skippable reply = false).
  { unfold vfdw_scan_reply_is_skippable, vfdw_cluster_is_redirect, is_error_with, vfdw_reply_has_prefix, vfdw_reply_is_error.
    by destruct Ht as [-> |[-> | ->]]. }
  destruct (vfdw_scan_produces_nothing _ _ _) eqn:Ep.
  - intros [= <-]. unfold vfdw_scan_produces_nothing in Ep. rewrite Hskip, orb_false_r in Ep.
    unfold key_answers in Ep. rewrite Hm in Ep. cbn [sa_member sa_hlen] in Ep.
    rewrite bool_decide_false in Ep by done. cbn [orb] in Ep. unfold vfdw_scan_reply_is_absent in Ep. rewrite Hh in Ep.
    case_bool_decide; [done|]. destruct (_ && _); [done|]. apply bool_decide_eq_true in Ep.
    unfold member_count. rewrite Ep. pose proof (stride_pos _ _ _ Hs). cbn [length]. symmetry. apply Nat.div_small. lia.
  - destruct (vfdw_scan_expect_value _ _); [|done]. cbn [mbind result_bind]. rewrite Hs. cbn [mbind result_bind].
    apply member_rows_length.
Qed.

Lemma single_rows key rows : vfdw_scan_is_multirow (sp_map p) = false → key_rows answer p key = Ok rows → (length rows ≤ 1)%nat.
Proof.
  intros Hmr. unfold key_rows. rewrite Hmr. destruct (vfdw_scan_produces_nothing _ _ _); [intros [= <-]; simpl; lia|].
  destruct (vfdw_scan_expect_value _ _); [|done]. cbn [mbind result_bind]. destruct (vfdw_scan_fill _ _ _); [|done].
  cbn [mbind result_bind]. intros [= <-]. simpl. lia.
Qed.
End rows.

(** C34: the estimate of a table that is one key against its row count, when the
    connection the estimate takes answers like the scan's (the estimate does not
    select the table's database: estimate_asks_another_database).  For a list, set
    or sorted set read member by member, asking for its size over a clean
    connection gives exactly the number of rows a scan of the table then returns,
    when the server's count is the number of members of the reply it answers with,
    and the connection is given back with nothing on its way; any other shape is
    estimated at one row and returns at most one.  The transaction has written
    nothing, and the server's data does not change between the two. *)
Theorem singleton_estimate_is_the_row_count `{TypeCatalog} `{PgTypes} `{Float4IO} {P W : Type}
    (serve : list bytes → P → Reply * P) garbage verify_mbstr encoding io_connect tls_attach tls_reason script_text
    serverid userid ct subid (w : Pool (P := P))
    (pool_get : VfdwClusterNode → M W (Conn (P := P))) (pool_put : Conn (P := P) → W → W) (beyond_copy : bytes → bytes)
    (search_next : M (ScanWorld (P := P) (W := W)) (option ScanRow))
    (p : ScanPlan) (conn : Conn (P := P)) (b : Wbuf) maps (pool : W) (key : bytes) (rows : list ScanRow) (calls fuel : nat) :
  let peer := cn_peer conn in
  let answer c := (serve c peer).1 in
  let map := sp_map p in
  let reply := answer (value_request p (until_nul key)) in
  let estimate := vfdw_estimate_rows serve garbage verify_mbstr encoding io_connect tls_attach tls_reason script_text
                    serverid userid ct subid map w in
  (∀ c, (serve c peer).2 = peer) →
  connects serve garbage verify_mbstr encoding io_connect tls_attach tls_reason script_text serverid userid ct subid w peer →
  cn_out conn = [] → cn_in conn = [] → cn_faults conn = [] → vfdw_overlay_active b = false →
  sp_strategy p = VFDW_SCAN_SINGLETON → map_singleton_key map = Some key → map_hmget map && vfdw_scan_is_multirow map = false →
  (vfdw_scan_is_multirow map = true → ∃ verb stride, vfdw_estimate_count_verb (map_tabletype map) = Some verb ∧
     collection_type (r_type reply) ∧ vfdw_scan_member_stride (map_tabletype map) reply = Ok stride ∧
     answer [verb; until_nul key] = integer_reply (Z.of_nat (member_count reply stride))) →
  readable serve peer p (until_nul key) rows →
  (length rows < calls)%nat → (4 ≤ fuel)%nat →
  ((vfdw_scan_set_keys [key];;; scan_rows serve pool_get pool_put beyond_copy search_next calls fuel)
     (open_world p conn b maps pool)).1 = Ok rows ∧
  (if vfdw_scan_is_multirow map
   then estimate.1 = Z.of_nat (length rows) ∧
     ∃ k c, entries estimate.2 !! k = Some c ∧ entry_clean c ∧ vc_leased c = false ∧ in_conversation c = false
   else estimate.1 = 1 ∧ (length rows ≤ 1)%nat).
Proof.
  intros peer answer map reply estimate Hu Hconn Ho Hi Hf Hb Hst Hkey Hh Hcount Hread Hcalls Hfuel. split.
  - rewrite <- (app_nil_r rows). change (rows ++ []) with (concat [rows]).
    apply (given_keys_scan_is_complete serve peer _ _ _ _ Hu p); try done; try (by rewrite Hst).
    + constructor; [exact Hread|constructor].
    + simpl. by rewrite app_nil_r.
  - destruct Hread as [Hrows _]. unfold estimate, vfdw_estimate_rows. rewrite Hkey.
    destruct (vfdw_scan_is_multirow map) eqn:Hmr; cbn [negb].
    + destruct (Hcount eq_refl) as (verb & stride & Hv & Ht & Hs & Ha). rewrite Hv.
      destruct (ask_answers serve garbage verify_mbstr encoding io_connect tls_attach tls_reason script_text
        serverid userid ct subid peer verb (until_nul key) w Hu Hconn) as (w' & k & c' & E & Hc).
      rewrite E. assert (Hun : until_nul verb = verb).
      { unfold vfdw_estimate_count_verb in Hv. destruct (map_tabletype map); by simplify_eq. }
      rewrite Hun. unfold answer in Ha. rewrite Ha. cbn [count_of integer_reply r_type r_integer].
      rewrite (bool_decide_true (VALKEY_REPLY_INTEGER = VALKEY_REPLY_INTEGER)) by done.
      rewrite bool_decide_true by lia. cbn [fst snd]. split; [|by exists k, c'].
      f_equal. symmetry. apply (collection_rows answer p (until_nul key) stride rows); try done.
      * unfold asks_membership, vfdw_scan_asks_membership. by rewrite Hst, andb_false_r.
      * rewrite andb_true_r in Hh. exact Hh.
    + cbn [fst]. split; [done|]. exact (single_rows answer p (until_nul key) rows Hmr Hrows).
Qed.

(* ---------------------------------------------------------------- *)
(** ** A shelf to count *)

#[local] Existing Instance sample_catalog.
#[local] Existing Instance sample_types.
#[local] Existing Instance sample_float4.

(** A list at one key of database 3. *)
Definition shelf_map : VfdwTableMap :=
  match vfdw_map_build sample_parse_bool 9
    [Attribute "v" TEXTOID (-1) false []] [("tabletype", "list"); ("singleton_key", "q"); ("database", "3")] with
  | Ok m => m
  | Raise _ => sample_map
  end.
Definition shelf_plan : ScanPlan := MkScanPlan shelf_map VFDW_SCAN_SINGLETON None 100 2 0 1 10.

Definition shelf_server (c : list bytes) (n : unit) : Reply * unit :=
  (match c with
   | ["LLEN"; "q"] => integer_reply 2
   | ["LRANGE"; "q"; "0"; "-1"] => array_reply [string_reply "a"; string_reply "b"]
   | _ => status_reply "OK"
   end, n).
Definition blank {P : Type} (p : P) (k : VfdwConnKey) : VfdwConn (P := P) :=
  MkVfdwConn false (MkConn p [] [] false false []) "" 0 default_options false 0 false false 0 false "" VFDW_CAP_UNKNOWN 0 0.
Definition shelf_catalog : Catalog := MkCatalog (Ok default_options) (Ok (UserOptions None None false)) 11 12 false.
Definition at_once {P : Type} (p : P) (faults : list (option Fault)) (h : bytes) (port : Z) (u : option bytes)
    : result (P * list (option Fault)) := Ok (p, faults).

Definition shelf_estimate : Z * Pool (P := unit) :=
  vfdw_estimate_rows shelf_server (blank ()) (λ _, true) "UTF8" (at_once () []) (Ok ()) None "#!lua" 1 10 shelf_catalog 1
    shelf_map (MkPool None 0).
Definition shelf_rows : list ScanRow := [ServerRow [Some (text_datum "a")]; ServerRow [Some (text_datum "b")]].

Lemma singleton_estimate_is_the_row_count_witness :
  vfdw_scan_is_multirow shelf_map = true ∧
  ((vfdw_scan_set_keys ["q"];;; scan_rows shelf_server no_pool (λ _ w, w) id no_search 3 4)
     (open_world shelf_plan list_conn wbuf_empty ∅ ())).1 = Ok shelf_rows ∧
  shelf_estimate.1 = 2.
Proof.
  split; [vm_compute; reflexivity|].
  destruct (singleton_estimate_is_the_row_count shelf_server (blank ()) (λ _, true) "UTF8" (at_once () []) (Ok ()) None "#!lua"
    1 10 shelf_catalog 1 (MkPool None 0) no_pool (λ _ w, w) id no_search shelf_plan list_conn wbuf_empty ∅ () "q" shelf_rows 3 4)
    as [Hs He].
  - reflexivity.
  - eexists _, _, _. split; [vm_compute; reflexivity|]. split; [vm_compute; reflexivity|]. by repeat split.
  - reflexivity.
  - reflexivity.
  - reflexivity.
  - reflexivity.
  - reflexivity.
  - vm_compute. reflexivity.
  - vm_compute. reflexivity.
  - intros _. exists "LLEN", 1%nat. split; [vm_compute; reflexivity|]. split; [left; vm_compute; reflexivity|].
    split; vm_compute; reflexivity.
  - split; vm_compute; reflexivity.
  - simpl. lia.
  - lia.
  - split; [exact Hs|]. vm_compute. reflexivity.
Defined.

(** A server with a list of five in database 3 and of two in database 0; the state is
    the database selected. *)
Definition db_server (c : list bytes) (db : Z) : Reply * Z :=
  match c with
  | ["SELECT"; n] => (status_reply "OK", default db (undec n))
  | ["LLEN"; "q"] => (integer_reply (if bool_decide (db = 3) then 5 else 2), db)
  | _ => (status_reply "OK", db)
  end.

(** The estimate of a table asks whatever database its connection has selected: the
    table names database 3, the scan selects it, the estimate does not. *)
Theorem estimate_asks_another_database :
  to_database (map_options shelf_map) = 3 ∧ (db_server ["LLEN"; "q"] 3).1 = integer_reply 5 ∧
  (vfdw_estimate_rows db_server (blank 0) (λ _, true) "UTF8" (at_once 0 []) (Ok ()) None "#!lua" 1 10 shelf_catalog 1
     shelf_map (MkPool None 0)).1 = 2.
Proof. vm_compute. by repeat split. Qed.

(** The first reply after a connection is set up times out. *)
Definition slow_faults : list (option Fault) :=
  replicate 8 None ++ [Some (MkFault 0 (PgError ERRCODE_CONNECTION_FAILURE "timed out communicating with Valkey"))].
Definition slow_estimate (w : Pool (P := Z)) : Pool (P := Z) :=
  (vfdw_estimate_rows db_server (blank 0) (λ _, true) "UTF8" (at_once 0 slow_faults) (Ok ()) None "#!lua" 1 10 shelf_catalog 1
     shelf_map w).2.

(** An estimate that fails keeps the connection it took: after as many failed plans as
    there are slots, in one transaction, the scan itself gets none. *)
Theorem failed_estimate_keeps_its_connection :
  let w := Nat.iter VFDW_MAX_CONN_SLOTS slow_estimate (MkPool None 0) in
  vfdw_conn_leased_count (slow_estimate (MkPool None 0)) = 1 ∧ vfdw_conn_leased_count w = 32 ∧
  (vfdw_get_connection_cluster db_server (blank 0) (λ _, true) "UTF8" (at_once 0 []) (Ok ()) None "#!lua" 1 10 shelf_catalog 1 w).1
    = Raise vfdw_conn_no_slots.
Proof. vm_compute. by repeat split. Qed.
