(* ===== verification/Analyze.v ===== *)
(** Drawing a sample for ANALYZE (src/vfdw_analyze.c): the scan's own producer, read
    to its end, and reservoir sampling; what the sample is of the table.

    The reservoir of PostgreSQL is a parameter: the next number of rows to skip and
    the next fraction, a rational; the number of the row that goes is the exact
    product rounded down (the code multiplies doubles). *)
From Stdlib Require Import QArith Qround.
From S2P Require Import Prelude Opcode Option OptionFacts Error Cmd CmdFacts WriteOp Wbuf Overlay.
From S2P Require Import TableMap TableMapFacts Ttl Vec Row ScanCmd RowFacts Val ValFacts Cluster ClusterFacts Scan ScanFacts ScanResults.
Local Open Scope Z_scope.

Section sample.
Context `{TypeCatalog} `{PgTypes} `{Float4IO}.
Context {P W : Type} (serve : list bytes → P → Reply * P).
Context (pool_get : VfdwClusterNode → M W (Conn (P := P))) (pool_put : Conn (P := P) → W → W).
Context (beyond_copy : bytes → bytes) (search_next : M (ScanWorld (P := P) (W := W)) (option ScanRow)).
(** ReservoirStateData: reservoir_get_next_S of the rows read and wanted, and
    vfdw_sampler_fract. *)
Context {R : Type} (reservoir_get_next_S : R → Z → Z → Z * R) (vfdw_sampler_fract : R → Q * R).

Definition vfdw_scan_sample_replace (rows : list ScanRow) (targrows : Z) (slot : ScanRow) (rstate : R)
    (samplerows rowstoskip : Z) : result (list ScanRow * R * Z) :=
  let '(rowstoskip, rstate) :=
    if bool_decide (rowstoskip < 0)%Z then reservoir_get_next_S rstate samplerows targrows else (rowstoskip, rstate) in
  if bool_decide (rowstoskip ≤ 0)%Z
  then
    let '(f, rstate) := vfdw_sampler_fract rstate in
    let k := Qfloor (inject_Z targrows * f)%Q in
    if bool_decide (0 ≤ k < Z.of_nat (length rows))%Z
    then Ok (<[Z.to_nat k := slot]> rows, rstate, rowstoskip - 1)
    else Raise (elog_error "no row of the sample has this number")
  else Ok (rows, rstate, rowstoskip - 1).

(** What ANALYZE is given: the sample, and how many rows there are, live and dead. *)
Record Sample := MkSample { sm_rows : list ScanRow; sm_totalrows : Z; sm_totaldeadrows : Z }.

Fixpoint sample_loop (calls fuel : nat) (targrows : Z) (rows : list ScanRow) (rstate : R) (samplerows rowstoskip : Z)
    : M (ScanWorld (P := P) (W := W)) Sample :=
  match calls with
  | O => raise (elog_error "out of fuel")
  | S n =>
      slot ← vfdw_scan_fetch serve pool_get pool_put beyond_copy search_next fuel;
      match slot with
      | None => mret (MkSample rows samplerows 0)
      | Some slot =>
          if bool_decide (Z.of_nat (length rows) < targrows)
          then sample_loop n fuel targrows (rows ++ [slot]) rstate (samplerows + 1) rowstoskip
          else
            replaced ← throw (vfdw_scan_sample_replace rows targrows slot rstate samplerows rowstoskip);
            let '(rows, rstate, rowstoskip) := replaced in
            sample_loop n fuel targrows rows rstate (samplerows + 1) rowstoskip
      end
  end.

(** The number of rows sampled is the length of the sample. *)
Definition vfdw_scan_acquire_sample_rows (calls fuel : nat) (targrows : Z) (rstate : R)
    : M (ScanWorld (P := P) (W := W)) Sample :=
  sample ← sample_loop calls fuel targrows [] rstate 0 (-1);
  vfdw_scan_end serve pool_put;;;
  mret sample.

(* ---------------------------------------------------------------- *)
(** ** What it is a sample of *)

Hypothesis fract_bounds : ∀ r, (0 <= (vfdw_sampler_fract r).1)%Q ∧ ((vfdw_sampler_fract r).1 < 1)%Q.

Lemma fraction_index targrows f :
  0 < targrows → (0 <= f)%Q → (f < 1)%Q → 0 ≤ Qfloor (inject_Z targrows * f)%Q < targrows.
Proof.
  intros Ht Hf0 Hf1. split.
  - change 0 with (Qfloor (inject_Z 0)). apply Qfloor_resp_le. change (inject_Z 0) with 0%Q.
    apply Qmult_le_0_compat; [|done]. change 0%Q with (inject_Z 0). rewrite <- Zle_Qle. lia.
  - rewrite Zlt_Qlt. eapply Qle_lt_trans; [apply Qfloor_le|].
    rewrite <- (Qmult_1_r (inject_Z targrows)) at 2. apply Qmult_lt_l; [|done].
    change 0%Q with (inject_Z 0). by rewrite <- Zlt_Qlt.
Qed.

Lemma insert_submseteq (rows : list ScanRow) i x : (i < length rows)%nat → <[i := x]> rows ⊆+ rows ++ [x].
Proof.
  intros Hi. destruct (lookup_lt_is_Some_2 rows i Hi) as [y Hy].
  rewrite insert_take_drop by done. rewrite <- (take_drop_middle rows i y Hy) at 3.
  rewrite <- app_assoc. apply submseteq_app; [done|]. simpl. rewrite (Permutation_cons_append (drop (S i) rows) x).
  by apply submseteq_cons.
Qed.

(** A full sample takes the row in the place of one it has, or leaves it. *)
Lemma replace_submseteq rows targrows slot rstate samplerows rowstoskip :
  0 < targrows → Z.of_nat (length rows) = targrows →
  ∃ rows' rstate' skip', vfdw_scan_sample_replace rows targrows slot rstate samplerows rowstoskip = Ok (rows', rstate', skip')
    ∧ rows' ⊆+ rows ++ [slot] ∧ length rows' = length rows.
Proof using fract_bounds.
  intros Ht Hlen. unfold vfdw_scan_sample_replace. destruct (if bool_decide (rowstoskip < 0) then _ else _) as [skip r].
  case_bool_decide; [|by eexists _, _, _; split; [reflexivity|]; split; [apply submseteq_inserts_r|]].
  pose proof (fract_bounds r) as [Hf0 Hf1]. destruct (vfdw_sampler_fract r) as [f r'].
  pose proof (fraction_index targrows f Ht Hf0 Hf1). rewrite bool_decide_eq_true_2 by lia.
  eexists _, _, _. split; [reflexivity|]. split; [apply insert_submseteq; lia|apply length_insert].
Qed.

(** What the sample of the rows [seen] is. *)
Definition sample_of (targrows : Z) (seen acc : list ScanRow) : Prop :=
  acc ⊆+ seen ∧ length acc = Nat.min (Z.to_nat targrows) (length seen) ∧
  (Z.of_nat (length seen) ≤ targrows → acc = seen).

Lemma sample_of_more targrows seen acc slot :
  Z.of_nat (length acc) < targrows → sample_of targrows seen acc → sample_of targrows (seen ++ [slot]) (acc ++ [slot]).
Proof.
  intros Hlt (Hsub & Hlen & Heq). unfold sample_of. rewrite !length_app. simpl.
  split; [by apply submseteq_app|]. split; [lia|]. intros. by rewrite Heq by lia.
Qed.

Lemma sample_of_full targrows seen acc acc' slot :
  Z.of_nat (length acc) = targrows → acc' ⊆+ acc ++ [slot] → length acc' = length acc →
  sample_of targrows seen acc → sample_of targrows (seen ++ [slot]) acc'.
Proof.
  intros Hge Hsub' Hlen' (Hsub & Hlen & Heq). unfold sample_of. rewrite !length_app. simpl.
  split; [|split; lia]. etrans; [done|]. by apply submseteq_app.
Qed.

Context (peer : P) (unmoved : ∀ c, (serve c peer).2 = peer) (p : ScanPlan) (plain : sp_strategy p ≠ VFDW_SCAN_KNN).

Lemma sample_loop_left calls fuel targrows (w : ScanWorld) seen acc rstate skip rows :
  0 < targrows → ss_plan (sw_state w) = p → Left serve peer p alone [] 0 fuel w rows → (length rows < calls)%nat →
  sample_of targrows seen acc →
  ∃ sample w', sample_loop calls fuel targrows acc rstate (Z.of_nat (length seen)) skip w = (Ok sample, w') ∧
    sample_of targrows (seen ++ rows) (sm_rows sample) ∧ sm_totalrows sample = Z.of_nat (length (seen ++ rows)) ∧
    sm_totaldeadrows sample = 0 ∧ owes serve peer (sw_batch w') [].
Proof using unmoved plain fract_bounds.
  intros Ht. revert w seen acc rstate skip rows.
  induction calls as [|calls IH]; intros w seen acc rstate skip rows Hp Hl Hc Hs; [lia|].
  cbn [sample_loop]. unfold mbind at 1, M_bind at 1. unfold vfdw_scan_fetch, plan. rewrite gets_bind, Hp.
  rewrite bool_decide_eq_false_2 by done.
  pose proof (fetch_left serve peer pool_get pool_put beyond_copy unmoved p alone [] 0 fuel w rows eq_refl eq_refl Hl) as Hf.
  destruct (fetch_loop serve pool_get pool_put beyond_copy fuel w) as [[[r|]|e] w1]; simpl in Hf; [| |done].
  - destruct Hf as (rows' & -> & Hl'). simpl in Hc.
    assert (Hp1 : ss_plan (sw_state w1) = p).
    { destruct Hl' as (? & ? & ? & ? & _ & Hsc & _). apply (rd_plan _ _ _ _ _ _ (sg_ready _ _ _ _ _ _ _ Hsc)). }
    replace (Z.of_nat (length seen) + 1) with (Z.of_nat (length (seen ++ [r]))) by (rewrite length_app; simpl; lia).
    rewrite (cons_middle r seen rows'), app_assoc. destruct Hs as (Hsub & Hlen & Heq). case_bool_decide as Hlt.
    + apply IH; [done..|lia|]. apply sample_of_more; [done|]. by split_and!.
    + destruct (replace_submseteq acc targrows r rstate (Z.of_nat (length seen)) skip Ht ltac:(lia))
        as (acc' & rstate' & skip' & E & Hsub' & Hlen').
      unfold mbind at 1, M_bind at 1, throw. rewrite E. cbn iota. apply IH; [done..|lia|].
      apply (sample_of_full targrows seen acc); [lia|done..|by split_and!].
  - destruct Hf as [-> Ho]. rewrite app_nil_r. by eexists _, _.
Qed.
End sample.

(** C35: ANALYZE of a table that is the keyspace of one server, whose data does not
    change meanwhile, in a transaction that has written nothing, samples the scan of it: it is told how many rows the
    scan returns - a key SCAN names twice counts twice, as it does in a query -
    and given as many of them as it asked for, or all there are; each row of the
    sample is a row the scan returns, none more often than the scan returns it,
    and a table no larger than the sample is given whole and in order. *)
Theorem analyze_samples_the_table `{TypeCatalog} `{PgTypes} `{Float4IO} {P W R : Type}
    (serve : list bytes → P → Reply * P) (pool_get : VfdwClusterNode → M W (Conn (P := P)))
    (pool_put : Conn (P := P) → W → W) (beyond_copy : bytes → bytes)
    (search_next : M (ScanWorld (P := P) (W := W)) (option ScanRow))
    (reservoir_get_next_S : R → Z → Z → Z * R) (vfdw_sampler_fract : R → Q * R)
    (p : ScanPlan) (conn : Conn (P := P)) (b : Wbuf) maps (pool : W)
    (pages : list (list bytes)) (later : list (list ScanRow)) (targrows : Z) (rstate : R) (calls fuel : nat) :
  let peer := cn_peer conn in
  let answer c := (serve c peer).1 in
  (∀ c, (serve c peer).2 = peer) →
  (∀ r, (0 <= (vfdw_sampler_fract r).1)%Q ∧ ((vfdw_sampler_fract r).1 < 1)%Q) →
  sp_strategy p = VFDW_SCAN_KEYSPACE →
  cn_out conn = [] → cn_in conn = [] → cn_faults conn = [] →
  vfdw_overlay_active b = false →
  Pages answer p "0" pages →
  Forall2 (readable serve peer p) (concat pages) later →
  0 < targrows → (length (concat later) < calls)%nat → (weight pages + 2 ≤ fuel)%nat →
  ∃ sample, (vfdw_scan_acquire_sample_rows serve pool_get pool_put beyond_copy search_next
               reservoir_get_next_S vfdw_sampler_fract calls fuel targrows rstate (open_world p conn b maps pool)).1 = Ok sample
    ∧ sm_rows sample ⊆+ concat later
    ∧ Z.of_nat (length (sm_rows sample)) = Z.min targrows (Z.of_nat (length (concat later)))
    ∧ (Z.of_nat (length (concat later)) ≤ targrows → sm_rows sample = concat later)
    ∧ sm_totalrows sample = Z.of_nat (length (concat later)) ∧ sm_totaldeadrows sample = 0.
Proof.
  intros peer answer Hu Hfr Hk Ho Hi Hf Hb Hpg Hr Ht Hc Hn. unfold vfdw_scan_acquire_sample_rows.
  assert (Hl : Left serve peer p alone [] 0 fuel (open_world p conn b maps pool) (concat later)).
  { apply (scanning_left serve peer p alone [] 0 _ pages); try done. by apply open_scanning. }
  destruct (sample_loop_left serve pool_get pool_put beyond_copy search_next reservoir_get_next_S vfdw_sampler_fract
    Hfr peer Hu p ltac:(by rewrite Hk) calls fuel targrows (open_world p conn b maps pool) [] [] rstate (-1) _ Ht eq_refl Hl Hc)
    as (sample & w' & E & (Hsub & Hlen & Heq) & Htot & Hdead & Howes); [split_and!; [done|simpl; lia|done]|].
  exists sample. unfold mbind at 1, M_bind at 1. change 0 with (Z.of_nat (length (@nil ScanRow))) at 1. rewrite E.
  unfold mbind, M_bind, vfdw_scan_end, on_batch.
  destruct (end_owes serve peer _ _ Howes) as (s1 & E1 & _). unfold mbind, M_bind. rewrite E1.
  cbn [app] in Hlen. split_and!; try done. rewrite Hlen. lia.
Qed.

#[local] Existing Instance sample_catalog.
#[local] Existing Instance sample_types.
#[local] Existing Instance sample_float4.

(** Three rows, a sample of two; the reservoir always skips none and takes the
    first. *)
Lemma analyze_samples_the_table_witness :
  ∃ sample, (vfdw_scan_acquire_sample_rows list_server no_pool (λ _ w, w) id no_search
               (λ r _ _, (0, r)) (λ r : unit, (0%Q, r)) 4 20 2 () (open_world list_plan list_conn wbuf_empty ∅ ())).1 = Ok sample
    ∧ sm_rows sample ⊆+ concat list_rows ∧ Z.of_nat (length (sm_rows sample)) = 2
    ∧ (3 ≤ 2 → sm_rows sample = concat list_rows) ∧ sm_totalrows sample = 3 ∧ sm_totaldeadrows sample = 0.
Proof.
  apply (analyze_samples_the_table list_server no_pool (λ _ w, w) id no_search (λ r _ _, (0, r)) (λ r, (0%Q, r))
    list_plan list_conn wbuf_empty ∅ () list_pages list_rows 2 () 4 20); try reflexivity.
  - intros r. split; [discriminate|reflexivity].
  - exact list_pages_read.
  - exact list_keys_readable.
  - simpl. lia.
  - vm_compute. lia.
Defined.
