(* ===== verification/Probe.v ===== *)
(** The diagnostic entry points that ask a server (src/vfdw_testprobe.c, vfdw_testkeys.c,
    vfdw_testcluster.c, vfdw_test_common.c): one command and its reply as rows, the dump
    of the keys under a prefix, the slot map as ranges.

    A set-returning function returns the list of its rows; an error throws the rows
    away.  The fields of a reply the wrapper itself never reads (the binary value of a
    double, the kind of a verbatim string) are parameters.

    Then the entry points that drive a connection directly (src/vfdw_testfuncs.c): over a
    connection of their own, given an address, through the code of Io, and over the pool,
    given the name of a server.  Formatting a command is libvalkey's, as is the reader,
    which works under the limits its context carries. *)
From S2P Require Import Prelude Slot Opcode Option Error Io Cmd Connection ConnPool Cluster Estimate.
From stdpp Require Import sorting.
Local Open Scope Z_scope.

(* ---------------------------------------------------------------- *)
(** * Asking a server *)

(* ---------------------------------------------------------------- *)
(** ** Who may ask (src/vfdw_test_common.c) *)

(** The lookup of a server by name, which may raise, and the grant on it. *)
Definition vfdw_test_server (lookup : bytes → result Z) (usage : Z → bool) (denied : pg_error) (name : bytes) : result Z :=
  server ← lookup name;
  if usage server then Ok server else Raise denied.

Definition vfdw_test_require_superuser (superuser : bool) : result unit :=
  if superuser then Ok ()
  else Raise (PgError ERRCODE_INSUFFICIENT_PRIVILEGE "must be superuser to open a Valkey connection by address").

(* ---------------------------------------------------------------- *)
(** ** A reply as rows (src/vfdw_testprobe.c) *)

Section rows.
Context {D : Type} (dval : Reply → D) (vtype : Reply → bytes).

Record VfdwProbeCols := ProbeCols {
  pc_type : string; pc_keypart : option bytes; pc_valpart : option bytes; pc_num : option Z; pc_dbl : option D }.

Definition vfdw_probe_is_aggregate (type : Z) : bool :=
  bool_decide (type = VALKEY_REPLY_ARRAY) || bool_decide (type = VALKEY_REPLY_SET) || bool_decide (type = VALKEY_REPLY_MAP)
  || bool_decide (type = VALKEY_REPLY_PUSH) || bool_decide (type = VALKEY_REPLY_ATTR).

Definition nelements (reply : Reply) : nat := length (reply_elements reply).

(** A reply with a child that is present and one that is declared and absent; pointers
    are compared by what they point at. *)
Definition valkey_fdw_test_probe_child_guard : result unit :=
  let child := MkReply VALKEY_REPLY_INTEGER 1 None None in
  let parent := MkReply VALKEY_REPLY_ARRAY 0 None (Some [Some child; None]) in
  c ← vfdw_reply_child parent 0;
  if negb (bool_decide (r_type c = r_type child)) || negb (bool_decide (r_integer c = r_integer child))
  then Raise (elog_error "guard rejected an element that is present")
  else _ ← vfdw_reply_child parent 1; Raise (elog_error "guard admitted a missing element").

Definition vfdw_probe_columns (reply : Reply) : VfdwProbeCols :=
  let t := r_type reply in
  let cols := ProbeCols (vfdw_reply_type_name t) in
  if bool_decide (t = VALKEY_REPLY_INTEGER) then cols None None (Some (r_integer reply)) None
  else if bool_decide (t = VALKEY_REPLY_BOOL) then
    cols None None (Some (if bool_decide (r_integer reply = 0) then 0 else 1)) None
  else if bool_decide (t = VALKEY_REPLY_DOUBLE) then cols None (r_str reply) None (Some (dval reply))
  else if bool_decide (t = VALKEY_REPLY_VERB) then
    cols (Some (until_nul (take_bytes 3 (vtype reply)))) (r_str reply) None None
  else if bool_decide (t = VALKEY_REPLY_STRING) || bool_decide (t = VALKEY_REPLY_STATUS)
          || bool_decide (t = VALKEY_REPLY_ERROR) || bool_decide (t = VALKEY_REPLY_BIGNUM)
  then cols None (r_str reply) None None
  else if bool_decide (t = VALKEY_REPLY_NIL) then cols None None None None
  else if vfdw_probe_is_aggregate t then cols None None (Some (Z.of_nat (nelements reply))) None
  else cols None None None None.

(** A row of the result. *)
Record ProbeRow := MkProbeRow {
  pr_type : string; pr_ordinal : Z; pr_key : option bytes; pr_val : option bytes; pr_num : option Z; pr_dbl : option D }.

Definition vfdw_probe_row (type : string) (ordinal : Z) (cols : VfdwProbeCols) (keypart : option bytes) : ProbeRow :=
  MkProbeRow type ordinal keypart (pc_valpart cols) (pc_num cols) (pc_dbl cols).

(** The loop over the elements, from element [i] and behind row [ordinal]. *)
Fixpoint elements_loop (fuel : nat) (reply : Reply) (pairs : bool) (i : nat) (ordinal : Z) : result (list ProbeRow) :=
  match fuel with
  | O => Ok []
  | S n =>
      if negb (bool_decide (i < nelements reply)%nat) then Ok [] else
      first ← vfdw_reply_child reply i;
      let cols := vfdw_probe_columns first in
      if negb pairs then
        rows ← elements_loop n reply pairs (S i) (ordinal + 1);
        Ok (vfdw_probe_row (pc_type cols) (ordinal + 1) cols (pc_keypart cols) :: rows)
      else
        let keypart := pc_valpart cols in
        second ← vfdw_reply_child reply (S i);
        let cols := vfdw_probe_columns second in
        rows ← elements_loop n reply pairs (S (S i)) (ordinal + 1);
        Ok (vfdw_probe_row (pc_type cols) (ordinal + 1) cols keypart :: rows)
  end.

Definition vfdw_probe_elements (reply : Reply) (pairs : bool) : result (list ProbeRow) :=
  elements_loop (nelements reply) reply pairs 0 0.

Definition vfdw_probe_render (reply : Reply) (pairs : bool) : result (list ProbeRow) :=
  let cols := vfdw_probe_columns reply in
  let aggregate := vfdw_probe_is_aggregate (r_type reply) in
  cols ← (if aggregate && pairs then
            if negb (bool_decide (nelements reply `mod` 2 = 0)%nat)
            then Raise (PgError ERRCODE_FDW_INVALID_DATA_TYPE "a paired reply must have an even number of elements")
            else Ok (ProbeCols "map" (pc_keypart cols) (pc_valpart cols) (Some (Z.of_nat (nelements reply / 2))) (pc_dbl cols))
          else Ok cols);
  rest ← (if aggregate then vfdw_probe_elements reply pairs else Ok []);
  Ok (vfdw_probe_row (pc_type cols) 0 cols (pc_keypart cols) :: rest).
End rows.

Definition null_argument : pg_error := PgError ERRCODE_NULL_VALUE_NOT_ALLOWED "a probe argument must not be NULL".

Fixpoint add_args (elems : list (option bytes)) (cmd : VfdwCmd) : result VfdwCmd :=
  match elems with
  | [] => Ok cmd
  | None :: _ => Raise null_argument
  | Some arg :: rest => add_args rest (vfdw_cmd_add_bytes cmd arg)
  end.

(** The elements of the array of arguments. *)
Definition vfdw_probe_args (elems : list (option bytes)) (cmd : VfdwCmd) : result VfdwCmd :=
  if bool_decide (elems = []) then Raise (PgError ERRCODE_INVALID_PARAMETER_VALUE "a probe needs at least a command verb")
  else add_args elems cmd.

(* ---------------------------------------------------------------- *)
(** ** The key dump (src/vfdw_testkeys.c) *)

Definition VFDW_PROBE_KEY_CAP : Z := 10000.
Definition VFDW_PROBE_TYPE_CHUNK : nat := 256.
Definition VFDW_PROBE_SCAN_COUNT : Z := 1000.

Definition vfdw_probe_keys_add (acc : list bytes) (key : bytes) : result (list bytes) :=
  if bool_decide (VFDW_PROBE_KEY_CAP ≤ Z.of_nat (length acc))
  then Raise (PgError ERRCODE_PROGRAM_LIMIT_EXCEEDED "too many keys match this probe prefix")
  else Ok (acc ++ [key]).

(** memcmp over the shorter length, then the lengths. *)
Fixpoint vfdw_probe_key_cmp (a b : bytes) : comparison :=
  match a, b with
  | EmptyString, EmptyString => Eq
  | EmptyString, String _ _ => Lt
  | String _ _, EmptyString => Gt
  | String x a, String y b => match Z.compare (byte_val x) (byte_val y) with Eq => vfdw_probe_key_cmp a b | c => c end
  end.

Definition key_le (a b : bytes) : Prop := vfdw_probe_key_cmp a b ≠ Gt.

#[global] Instance key_le_dec a b : Decision (key_le a b).
Proof. unfold key_le. destruct (vfdw_probe_key_cmp a b); [left|left|right]; by intros ?. Defined.

(** The keys behind [keys[out]]: each is kept when it differs from the last one kept. *)
Fixpoint compact (last : bytes) (rest : list bytes) : list bytes :=
  match rest with
  | [] => []
  | k :: rest => match vfdw_probe_key_cmp last k with Eq => compact last rest | _ => k :: compact k rest end
  end.

Definition vfdw_probe_keys_dedupe (keys : list bytes) : list bytes :=
  if bool_decide (length keys ≤ 1)%nat then keys
  else match merge_sort key_le keys with [] => [] | k :: rest => k :: compact k rest end.

Definition probe_glob_special (c : ascii) : bool :=
  bool_decide (c = "*"%char) || bool_decide (c = "?"%char) || bool_decide (c = "["%char) || bool_decide (c = "]"%char)
  || bool_decide (c = "\"%char).

Fixpoint escape_prefix (prefix : bytes) : bytes :=
  match prefix with
  | EmptyString => EmptyString
  | String c rest => if probe_glob_special c then String "\" (String c (escape_prefix rest)) else String c (escape_prefix rest)
  end.

Definition vfdw_probe_match (prefix : bytes) : bytes := escape_prefix prefix +:+ "*".

Fixpoint take_page_keys (keys : Reply) (n i : nat) (acc : list bytes) : result (list bytes) :=
  match n with
  | O => Ok acc
  | S n =>
      k ← vfdw_reply_child keys i;
      if negb (bool_decide (r_type k = VALKEY_REPLY_STRING))
      then Raise (PgError ERRCODE_FDW_INVALID_DATA_TYPE "SCAN returned a key that is not a string")
      else acc ← vfdw_probe_keys_add acc (default "" (r_str k)); take_page_keys keys n (S i) acc
  end.

(** The next cursor, if any, and the keys so far. *)
Definition take_scan_page (reply : Reply) (acc : list bytes) : result (option bytes * list bytes) :=
  cur ← vfdw_reply_child reply 0;
  keys ← vfdw_reply_child reply 1;
  if negb (bool_decide (r_type cur = VALKEY_REPLY_STRING)) || negb (vfdw_probe_is_aggregate (r_type keys))
  then Raise (PgError ERRCODE_FDW_INVALID_DATA_TYPE "SCAN did not answer with a cursor and a key list")
  else
    acc ← take_page_keys keys (nelements keys) 0 acc;
    Ok (if bool_decide (default "" (r_str cur) = "0") then None else Some (default "" (r_str cur)), acc).

Section keys.
Context {P : Type} (serve : list bytes → P → Reply * P).
Abbreviation BS := (BatchState (P := P)).

Definition scan_command (cursor match_ : bytes) : VfdwCmd :=
  let cmd := vfdw_cmd_add_cstr (vfdw_cmd_add_cstr (vfdw_cmd_init 6) "SCAN") cursor in
  let cmd := vfdw_cmd_add_bytes (vfdw_cmd_add_cstr cmd "MATCH") match_ in
  vfdw_cmd_add_int (vfdw_cmd_add_cstr cmd "COUNT") VFDW_PROBE_SCAN_COUNT.

Definition vfdw_probe_scan_page (cursor match_ : bytes) (acc : list bytes) : M BS (option bytes * list bytes) :=
  vfdw_batch_add serve (scan_command cursor match_);;;
  (reply ← vfdw_batch_next serve;
   lift (vfdw_reply_expect reply (VFDW_RTYPE VALKEY_REPLY_ARRAY) "SCAN failed");;;
   lift (from_option (λ r, take_scan_page r acc) (Ok (None, acc)) reply)).

(** [do ... while (cursor != NULL)]. *)
Fixpoint scan_loop (fuel : nat) (cursor match_ : bytes) (acc : list bytes) : M BS (list bytes) :=
  match fuel with
  | O => raise (elog_error "out of fuel")
  | S n =>
      page ← vfdw_probe_scan_page cursor match_ acc;
      match page.1 with
      | None => mret page.2
      | Some cursor => scan_loop n cursor match_ page.2
      end
  end.

Fixpoint vfdw_probe_type_queue (cmd : VfdwCmd) (keys : list bytes) : M BS unit :=
  match keys with
  | [] => mret ()
  | key :: rest =>
      let cmd := vfdw_cmd_add_bytes (vfdw_cmd_add_cstr (vfdw_cmd_reset cmd) "TYPE") key in
      vfdw_batch_add serve cmd;;; vfdw_probe_type_queue cmd rest
  end.

Fixpoint vfdw_probe_type_emit (keys : list bytes) : M BS (list (bytes * bytes)) :=
  match keys with
  | [] => mret []
  | key :: rest =>
      reply ← vfdw_batch_next serve;
      lift (vfdw_reply_expect reply (VFDW_RTYPE VALKEY_REPLY_STATUS) "TYPE failed");;;
      (rows ← vfdw_probe_type_emit rest;
       mret ((key, default "" (reply ≫= r_str)) :: rows))
  end.

(** A chunk is queued whole and then read. *)
Fixpoint type_loop (fuel : nat) (keys : list bytes) : M BS (list (bytes * bytes)) :=
  match fuel with
  | O => mret []
  | S n =>
      if bool_decide (keys = []) then mret [] else
      let chunk := take VFDW_PROBE_TYPE_CHUNK keys in
      vfdw_probe_type_queue (vfdw_cmd_init 2) chunk;;;
      (rows ← vfdw_probe_type_emit chunk;
       more ← type_loop n (drop VFDW_PROBE_TYPE_CHUNK keys);
       mret (rows ++ more))
  end.

(** What valkey_fdw_test_keys does between vfdw_batch_begin and vfdw_batch_end. *)
Definition dump_keys (fuel : nat) (prefix : bytes) : M BS (list (bytes * bytes)) :=
  acc ← scan_loop fuel "0" (vfdw_probe_match prefix) [];
  let keys := vfdw_probe_keys_dedupe acc in
  type_loop (length keys) keys.
End keys.

(* ---------------------------------------------------------------- *)
(** ** The slot map as ranges (src/vfdw_testcluster.c) *)

(** The first slot from [i] on that [owner] does not own. *)
Fixpoint run_end (fuel : nat) (map : VfdwSlotMap) (owner i : Z) : Z :=
  match fuel with
  | O => i
  | S n => if bool_decide (i < VFDW_CLUSTER_NSLOTS) && bool_decide (sm_owner map i = owner) then run_end n map owner (i + 1) else i
  end.

Record SlotRange := MkRange { sr_start : Z; sr_end : Z; sr_node : option VfdwClusterNode }.

Fixpoint ranges_loop (fuel : nat) (map : VfdwSlotMap) (i : Z) : list SlotRange :=
  match fuel with
  | O => []
  | S n =>
      if negb (bool_decide (i < VFDW_CLUSTER_NSLOTS)) then [] else
      let owner := sm_owner map i in
      if bool_decide (owner < 0) then ranges_loop n map (i + 1)
      else
        let e := run_end (Z.to_nat (VFDW_CLUSTER_NSLOTS - i)) map owner i in
        MkRange i (e - 1) (sm_nodes map !! Z.to_nat owner) :: ranges_loop n map e
  end.

Definition slot_ranges (map : VfdwSlotMap) : list SlotRange := ranges_loop (Z.to_nat VFDW_CLUSTER_NSLOTS) map 0.

(** Where a command for a key goes. *)
Definition route_row (map : VfdwSlotMap) (key : bytes) : Z * option (bytes * Z) :=
  (vfdw_val_slot key, (λ n, (node_host n, node_port n)) <$> vfdw_cluster_route map key).

(* ---------------------------------------------------------------- *)
(** ** On the pool *)

Section pool.
Context {P : Type} (serve : list bytes → P → Reply * P).
Context (garbage : VfdwConnKey → VfdwConn (P := P)) (verify_mbstr : bytes → bool) (encoding : string).
Context (io_connect : bytes → Z → option bytes → result (P * list (option Fault))).
Context (tls_attach : result unit) (tls_reason : option string) (script_text : bytes).
Context {D : Type} (dval : Reply → D) (vtype : Reply → bytes).
(** The catalog: servers by name and the grant on them, the user mapping, the options. *)
Context (lookup : bytes → result Z) (usage : Z → bool) (denied : pg_error) (mapping : Z → result Z) (catalog : Z → Catalog) (subid : Z).

Abbreviation Pool := (Pool (P := P)).

(** The server named and the user's mapping on it. *)
Definition server_and_user (name : bytes) : result (Z * Z) :=
  server ← vfdw_test_server lookup usage denied name;
  user ← mapping server;
  Ok (server, user).

Definition vfdw_probe_connect (servername : bytes) (database : Z) : M Pool VfdwConnKey :=
  if bool_decide (database < 0) || bool_decide (15 < database)
  then raise (PgError ERRCODE_NUMERIC_VALUE_OUT_OF_RANGE "database must be between 0 and 15")
  else
    su ← lift (server_and_user servername);
    k ← vfdw_get_connection_cluster serve garbage verify_mbstr encoding io_connect tls_attach tls_reason script_text
          su.1 su.2 (catalog su.1) subid;
    on_entry k (vfdw_conn_select_db serve verify_mbstr encoding database) ();;;
    mret k.

Definition vfdw_probe_run (pairs : bool) (servername : option bytes) (database : option Z) (args : option (list (option bytes)))
    : M Pool (list (ProbeRow (D := D))) :=
  match servername, database, args with
  | Some servername, Some database, Some args =>
      k ← vfdw_probe_connect servername database;
      cmd ← lift (vfdw_probe_args args (vfdw_cmd_init 8));
      rows ← on_batch_of k
        (vfdw_batch_add serve cmd;;;
         (reply ← vfdw_batch_next serve;
          match reply with
          | None => raise (PgError ERRCODE_FDW_ERROR "Valkey sent no reply to a probe command")
          | Some reply =>
              rows ← lift (vfdw_probe_render dval vtype reply pairs);
              vfdw_batch_end serve;;; mret rows
          end)) [];
      vfdw_release_connection (Some k);;;
      mret rows
  | _, _, _ => raise null_argument
  end.

Definition valkey_fdw_test_probe := vfdw_probe_run false.
Definition valkey_fdw_test_probe_pairs := vfdw_probe_run true.

Definition valkey_fdw_test_keys (fuel : nat) (servername : option bytes) (database : option Z) (prefix : option bytes)
    : M Pool (list (bytes * bytes)) :=
  match servername, database, prefix with
  | Some servername, Some database, Some prefix =>
      k ← vfdw_probe_connect servername database;
      rows ← on_batch_of k (rows ← dump_keys serve fuel prefix; vfdw_batch_end serve;;; mret rows) [];
      vfdw_release_connection (Some k);;;
      mret rows
  | _, _, _ => raise null_argument
  end.

(** The pool and the cache of slot maps. *)
Record DiagWorld := MkDiag { dg_pool : Pool; dg_maps : gmap (Z * Z) (option VfdwSlotMap) }.

Definition on_diag_pool {A} (m : M Pool A) : M DiagWorld A := λ w,
  let '(r, pool) := m (dg_pool w) in (r, MkDiag pool (dg_maps w)).

(** vfdw_cluster_map on an entry of the pool. *)
Definition entry_cluster_map (k : VfdwConnKey) (server user : Z) : M DiagWorld VfdwSlotMap := λ w,
  match entries (dg_pool w) !! k with
  | None => (Ok empty_slot_map, w)
  | Some c =>
      let '(r, st) := vfdw_cluster_map serve (so_pipeline_batch (vc_opts c)) server user (MkCluster (dg_maps w) (vc_wire c)) in
      (r, MkDiag (set_entries (<[k := set_socket (vc_open c) (cl_conn st) c]> (entries (dg_pool w))) (dg_pool w)) (cl_maps st))
  end.

Definition vfdw_testcluster_map (servername : bytes) : M DiagWorld VfdwSlotMap :=
  su ← lift (server_and_user servername);
  k ← on_diag_pool (vfdw_get_connection_cluster serve garbage verify_mbstr encoding io_connect tls_attach tls_reason script_text
        su.1 su.2 (catalog su.1) subid);
  map ← entry_cluster_map k su.1 su.2;
  on_diag_pool (vfdw_release_connection (Some k));;;
  mret map.

Definition valkey_fdw_test_cluster_map (servername : bytes) : M DiagWorld (list SlotRange) :=
  map ← vfdw_testcluster_map servername; mret (slot_ranges map).

Definition valkey_fdw_test_cluster_route (servername key : bytes) : M DiagWorld (Z * option (bytes * Z)) :=
  map ← vfdw_testcluster_map servername; mret (route_row map key).

(** One node: who it says it is. *)
Definition ask_node (server user : Z) (node : VfdwClusterNode) : M Pool (VfdwClusterNode * bytes) :=
  k ← vfdw_get_connection_node serve garbage verify_mbstr encoding io_connect tls_attach tls_reason script_text
        server user (catalog server) (node_host node) (node_port node) subid;
  id ← on_batch_of k
    (vfdw_batch_add serve (vfdw_cmd_add_cstr (vfdw_cmd_add_cstr (vfdw_cmd_init 2) "CLUSTER") "MYID");;;
     (reply ← vfdw_batch_next serve;
      lift (vfdw_reply_expect reply (Z.lor (VFDW_RTYPE VALKEY_REPLY_STRING) (VFDW_RTYPE VALKEY_REPLY_STATUS))
              "could not ask a cluster node for its id");;;
      vfdw_batch_end serve;;;
      mret (default "" (reply ≫= r_str)))) "";
  vfdw_release_connection (Some k);;;
  mret (node, id).

Fixpoint ask_nodes (server user : Z) (nodes : list VfdwClusterNode) : M Pool (list (VfdwClusterNode * bytes)) :=
  match nodes with
  | [] => mret []
  | node :: rest => row ← ask_node server user node; rows ← ask_nodes server user rest; mret (row :: rows)
  end.

Definition valkey_fdw_test_cluster_nodes (servername : bytes) : M DiagWorld (list (VfdwClusterNode * bytes)) :=
  su ← lift (server_and_user servername);
  map ← vfdw_testcluster_map servername;
  on_diag_pool (ask_nodes su.1 su.2 (sm_nodes map)).
End pool.

(* ---------------------------------------------------------------- *)
(** * Driving a connection *)

(* ---------------------------------------------------------------- *)
(** ** By address *)

Section direct.
Context (valkeyFormatCommandArgv : list bytes → context_error + bytes).
(** The reader under the limits of its context, and the limits it starts with. *)
Context (reader : option (Z * Z) → bytes → ParseResult) (default_limits : Z * Z).
Context (valkeyConnectWithOptions : Address → Z * Z → option Started).
Context (verify_mbstr : bytes → bool) (encoding : string).

Definition vfdw_test_append (argv : list bytes) : Io unit :=
  match valkeyFormatCommandArgv argv with
  | inl e => io_raise (vfdw_error_from_context e "could not queue command for Valkey")
  | inr b => io_modify (λ s, set_output (io_writes s) (io_out s +:+ b) (io_sent s) s)
  end.

Definition vfdw_test_roundtrip (fuel : nat) (limits : option (Z * Z)) (deadline : Z) (argv : list bytes) : Io Reply :=
  vfdw_test_append argv;;;
  vfdw_io_flush fuel deadline;;;
  vfdw_io_get_reply (reader limits) fuel deadline.

(** The body of PG_TRY behind the connect, and PG_FINALLY; a connect that raises has
    closed what it opened and leaves the variable NULL. *)
Definition with_connection {A} (host : bytes) (port connect_ms : Z) (body : Io A) : Io A :=
  vfdw_io_connect valkeyConnectWithOptions host port None connect_ms;;;
  (λ s, match body s with
        | Some (r, s) => (valkeyFree;;; (λ s, Some (r, s))) s
        | None => None
        end).

(** The limits a probe sets. *)
Definition probe_limits : option (Z * Z) := vfdw_io_set_limits (Some default_limits) (16 * 1024 * 1024) (1024 * 1024).

Definition io_lift {A} (r : result A) : Io A := λ s, Some (r, s).

Definition valkey_fdw_test_ping (fuel : nat) (superuser : bool) (host : bytes) (port connect_ms command_ms : Z) : Io bytes :=
  io_lift (vfdw_test_require_superuser superuser);;;
  with_connection host port connect_ms
    (now ← io_gets io_now;
     reply ← vfdw_test_roundtrip fuel probe_limits (vfdw_io_deadline command_ms now) ["PING"];
     if vfdw_reply_is_error (Some reply)
     then io_raise (vfdw_error_from_reply verify_mbstr encoding (Some reply) "PING failed")
     else mret (default "" (r_str reply))).

Definition vfdw_test_set_get (fuel : nat) (limits : option (Z * Z)) (deadline : Z) (key payload : bytes) : Io bytes :=
  _ ← vfdw_test_roundtrip fuel limits deadline ["SET"; until_nul key; payload];
  reply ← vfdw_test_roundtrip fuel limits deadline ["GET"; until_nul key];
  if negb (bool_decide (r_type reply = VALKEY_REPLY_STRING))
  then io_raise (PgError ERRCODE_FDW_ERROR "expected a string reply from GET")
  else mret (default "" (r_str reply)).

Definition valkey_fdw_test_binary (fuel : nat) (superuser : bool) (host : bytes) (port : Z) (payload : bytes) : Io bytes :=
  io_lift (vfdw_test_require_superuser superuser);;;
  with_connection host port 5000
    (now ← io_gets io_now;
     vfdw_test_set_get fuel probe_limits (vfdw_io_deadline 30000 now) "vfdw:test:binary" payload).

Definition valkey_fdw_test_block (fuel : nat) (superuser : bool) (host : bytes) (port block_seconds command_ms : Z) : Io bytes :=
  io_lift (vfdw_test_require_superuser superuser);;;
  with_connection host port 5000
    (now ← io_gets io_now;
     reply ← vfdw_test_roundtrip fuel (Some default_limits) (vfdw_io_deadline command_ms now)
               ["BLPOP"; "vfdw:test:never-pushed"; dec block_seconds];
     mret (if bool_decide (r_type reply = VALKEY_REPLY_NIL) then "timed out on the server" : bytes else "unexpected reply")).
End direct.

Definition valkey_fdw_test_reply_ceiling (superuser : bool) (bytes : Z) (a : AllocState) : result Z * AllocState :=
  match vfdw_test_require_superuser superuser with
  | Raise e => (Raise e, a)
  | Ok _ => (Ok bytes, vfdw_io_set_alloc_ceiling_for_test bytes a)
  end.

(* ---------------------------------------------------------------- *)
(** ** Over a batch *)

Section drill.
Context {P : Type} (serve : list bytes → P → Reply * P).
Abbreviation BS := (BatchState (P := P)).

(** The key of the [i]th command. *)
Definition pipe_key (i : Z) : bytes := "vfdw:test:pipe:" +:+ dec i.

(** The integers from [i] on, [n] of them: the counter of the loops. *)
Fixpoint counting (i : Z) (n : nat) : list Z :=
  match n with
  | O => []
  | S n => i :: counting (i + 1) n
  end.

Definition set_command (cmd : VfdwCmd) (i : Z) : VfdwCmd :=
  vfdw_cmd_add_int (vfdw_cmd_add_cstr (vfdw_cmd_add_cstr (vfdw_cmd_reset cmd) "SET") (pipe_key i)) i.
Definition key_command (verb : bytes) (cmd : VfdwCmd) (i : Z) : VfdwCmd :=
  vfdw_cmd_add_cstr (vfdw_cmd_add_cstr (vfdw_cmd_reset cmd) verb) (pipe_key i).

(** Queueing, the vector used over and over. *)
Fixpoint queue_commands (build : VfdwCmd → Z → VfdwCmd) (js : list Z) (cmd : VfdwCmd) : M BS unit :=
  match js with
  | [] => mret ()
  | i :: rest => let cmd := build cmd i in vfdw_batch_add serve cmd;;; queue_commands build rest cmd
  end.

Definition take_expected (t : Z) (what : string) (_ : Z) : M BS unit :=
  reply ← vfdw_batch_next serve; lift (vfdw_reply_expect reply (VFDW_RTYPE t) what).

Definition vfdw_test_pipeline_set (n : Z) : M BS unit :=
  let js := counting 0 (Z.to_nat n) in
  queue_commands set_command js (vfdw_cmd_init 4);;;
  miter (take_expected VALKEY_REPLY_STATUS "SET failed") js.

(** How many replies carry the value their own request asked for. *)
Fixpoint count_matches (js : list Z) (matched : Z) : M BS Z :=
  match js with
  | [] => mret matched
  | i :: rest =>
      reply ← vfdw_batch_next serve;
      lift (vfdw_reply_expect reply (VFDW_RTYPE VALKEY_REPLY_STRING) "GET failed");;;
      count_matches rest (if bool_decide (reply ≫= r_str = Some (dec i)) then matched + 1 else matched)
  end.

Definition vfdw_test_pipeline_get (n : Z) : M BS Z :=
  let js := counting 0 (Z.to_nat n) in
  queue_commands (key_command "GET") js (vfdw_cmd_init 4);;; count_matches js 0.

Definition vfdw_test_pipeline_del (n : Z) : M BS unit :=
  let js := counting 0 (Z.to_nat n) in
  queue_commands (key_command "DEL") js (vfdw_cmd_init 4);;;
  miter (take_expected VALKEY_REPLY_INTEGER "DEL failed") js.

(** Between vfdw_batch_begin and vfdw_release_connection. *)
Definition pipeline (n : Z) : M BS Z :=
  vfdw_test_pipeline_set n;;;
  (matched ← vfdw_test_pipeline_get n;
   vfdw_test_pipeline_del n;;;
   vfdw_batch_end serve;;;
   mret matched).

Definition poke_command (key : bytes) (value : option bytes) : VfdwCmd :=
  match value with
  | None => vfdw_cmd_add_bytes (vfdw_cmd_add_cstr (vfdw_cmd_init 4) "DEL") key
  | Some value => vfdw_cmd_add_bytes (vfdw_cmd_add_bytes (vfdw_cmd_add_cstr (vfdw_cmd_init 4) "SET") key) value
  end.

Definition poke (key : bytes) (value : option bytes) : M BS Z :=
  vfdw_batch_add serve (poke_command key value);;;
  (reply ← vfdw_batch_next serve;
   lift (vfdw_reply_expect reply (Z.lor (VFDW_RTYPE VALKEY_REPLY_STATUS) (VFDW_RTYPE VALKEY_REPLY_INTEGER)) "poke failed");;;
   vfdw_batch_end serve;;;
   mret (match reply with
         | Some r => if bool_decide (r_type r = VALKEY_REPLY_INTEGER) then r_integer r else 1
         | None => 1
         end)).

Definition ping_command (cmd : VfdwCmd) (_ : Z) : VfdwCmd := vfdw_cmd_add_cstr (vfdw_cmd_reset cmd) "PING".

Definition batch_flushes (n : Z) : M BS Z :=
  queue_commands ping_command (counting 0 (Z.to_nat n)) (vfdw_cmd_init 4);;;
  (flushes ← gets vfdw_batch_flushes;
   vfdw_batch_end serve;;;
   mret flushes).
End drill.

(* ---------------------------------------------------------------- *)
(** ** On the pool *)

Section pool.
Context {P : Type} (serve : list bytes → P → Reply * P).
Context (garbage : VfdwConnKey → VfdwConn (P := P)) (verify_mbstr : bytes → bool) (encoding : string).
Context (io_connect : bytes → Z → option bytes → result (P * list (option Fault))).
Context (tls_attach : result unit) (tls_reason : option string) (script_text : bytes).
Context (lookup : bytes → result Z) (usage : Z → bool) (denied : pg_error) (mapping : Z → result Z) (catalog : Z → Catalog) (subid : Z).

Abbreviation Pool := (Pool (P := P)).

(** vfdw_get_connection for the server and the user's mapping on it. *)
Definition connection_of (su : Z * Z) : M Pool VfdwConnKey :=
  vfdw_get_connection serve garbage verify_mbstr encoding io_connect tls_attach tls_reason script_text
    su.1 su.2 (catalog su.1) subid.

(** A connection, a batch on it and the connection given back. *)
Definition with_batch {A} (su : Z * Z) (m : M (BatchState (P := P)) A) (dflt : A) : M Pool A :=
  k ← connection_of su;
  r ← on_batch_of k m dflt;
  vfdw_release_connection (Some k);;;
  mret r.

Definition depth_ok (n : Z) : result unit :=
  if bool_decide (n < 0) || bool_decide (1000000 < n)
  then Raise (PgError ERRCODE_NUMERIC_VALUE_OUT_OF_RANGE "pipeline depth must be between 0 and 1000000")
  else Ok ().

Definition valkey_fdw_test_pipeline (servername : bytes) (n : Z) : M Pool Z :=
  su ← lift (server_and_user lookup usage denied mapping servername);
  lift (depth_ok n);;;
  with_batch su (pipeline serve n) 0.

Definition valkey_fdw_test_pooled_ping (servername : bytes) : M Pool bytes :=
  su ← lift (server_and_user lookup usage denied mapping servername);
  k ← connection_of su;
  result ← on_entry k
    (modify vfdw_conn_begin;;;
     (reply ← round_trip serve ["PING"];
      (if vfdw_reply_is_error reply
       then raise (vfdw_error_from_reply verify_mbstr encoding reply "PING failed") else mret ());;;
      modify vfdw_conn_end;;;
      mret (default "" (reply ≫= r_str)))) "";
  vfdw_release_connection (Some k);;;
  mret result.

(** Open, opened in all, leased. *)
Definition valkey_fdw_test_pool_stats (w : Pool) : Z * Z * Z :=
  (vfdw_conn_pool_size w, vfdw_conn_open_count w, vfdw_conn_leased_count w).

(** The connection is not given back. *)
Definition valkey_fdw_test_resp3 (servername : bytes) : M Pool bool :=
  su ← lift (server_and_user lookup usage denied mapping servername);
  k ← connection_of su;
  w ← get;
  mret (from_option vfdw_conn_is_resp3 false (entries w !! k)).

Definition valkey_fdw_test_poke (servername key : bytes) (value : option bytes) : M Pool Z :=
  su ← lift (server_and_user lookup usage denied mapping servername);
  with_batch su (poke serve key value) 0.

Definition valkey_fdw_test_batch_flushes (servername : bytes) (n : Z) : M Pool Z :=
  su ← lift (server_and_user lookup usage denied mapping servername);
  lift (depth_ok n);;;
  with_batch su (batch_flushes serve n) 0.
End pool.
