(* ===== verification/Report.v ===== *)
(** The diagnostic entry points that show the state of a backend (src/vfdw_testwbuf.c):
    the write buffer, the ledger, the encoded program, the counters.

    A set-returning function returns the list of its rows.  Fetching the tuple
    descriptor of the result and filling a tuplestore are not modelled.

    Then the entry points over the value layer (src/vfdw_testval.c): one column of a given
    type and role, built as a table would have it, through the conversions a statement
    calls.  An argument that may be NULL is an option; a bytea that is returned is its
    payload.  valkey_fdw_test_val_retain, which tells a copy from a borrowed pointer, is
    not modelled: a value here has no address. *)
From S2P Require Import Prelude Slot Opcode Option WriteOp Ledger Wbuf Overlay Error Cmd Script ScriptEncode Flush TableMap Score Vec.
From S2P Require Import Ttl Row ScanCmd Val.
From stdpp Require Import sorting.
Local Open Scope Z_scope.

(* ---------------------------------------------------------------- *)
(** * The state of a backend *)

(** The cast of an unsigned counter to int64. *)
Definition int64_of_u64 (z : Z) : Z := if bool_decide (z ≤ INT64_MAX) then z else z - 2 ^ 64.

(* ---------------------------------------------------------------- *)
(** ** The write buffer *)

Definition vfdw_testwbuf_kind_name (kind : VfdwOpKind) : string :=
  match kind with
  | VFDW_OP_INSERT => "insert"
  | VFDW_OP_UPDATE => "update"
  | VFDW_OP_DELETE => "delete"
  end.

(** The columns from the server on are NULL when nothing is bound. *)
Record WbufStats := MkWbufStats {
  ws_ops : Z; ws_bytes : Z; ws_generation : Z; ws_bound : bool;
  ws_serverid : option Z; ws_umid : option Z; ws_database : option Z; ws_max_ops : option Z; ws_max_bytes : option Z }.

Definition valkey_fdw_test_wbuf_stats (w : Wbuf) : WbufStats :=
  let unit := wb_unit w in
  let bound {A} (x : A) : option A := if u_bound unit then Some x else None in
  MkWbufStats (vfdw_wbuf_live_ops w) (vfdw_wbuf_alloc_bytes w) (int64_of_u64 (vfdw_wbuf_generation w)) (u_bound unit)
    (bound (u_serverid unit)) (bound (u_umid unit)) (bound (u_database unit)) (bound (u_max_ops unit)) (bound (u_max_bytes unit)).

(** The members of a bitmapset, as bms_next_member walks them. *)
Definition bms_members (s : list Z) : list Z := merge_sort Z.le (remove_dups (filter (λ n, 0 ≤ n) s)).

Section dump.
(** table_open and the descriptor of the relation, and a type's output function. *)
Context (RelationGetDescr : Z → result (list Form_pg_attribute)) (output_text : Z → bytes → bytes).

(** The first attribute that is not dropped, from number [attnum] on. *)
Fixpoint first_attribute (tupdesc : list Form_pg_attribute) (attnum : nat) (tuple : HeapTuple) : option bytes :=
  match tupdesc with
  | [] => None
  | attr :: rest =>
      if attisdropped attr then first_attribute rest (S attnum) tuple
      else output_text (atttypid attr) <$> mjoin (tuple !! attnum)
  end.

Definition vfdw_testwbuf_probe (op : VfdwWriteOp) : result (option bytes) :=
  match op_newtup op with
  | None => Ok None
  | Some tuple => tupdesc ← RelationGetDescr (op_relid op); Ok (first_attribute tupdesc 0 tuple)
  end.

Record WbufDumpRow := MkDumpRow {
  dr_ordinal : Z; dr_relid : Z; dr_kind : string; dr_level : Z; dr_cid : Z; dr_hashslot : Z;
  dr_key : bytes; dr_oldkey : option bytes; dr_member : option bytes; dr_oldmember : option bytes;
  dr_value : option bytes; dr_score : option bytes; dr_nfields : Z; dr_natts : Z; dr_probe : option bytes }.

Definition vfdw_testwbuf_dump_one (op : VfdwWriteOp) (ordinal : Z) : result WbufDumpRow :=
  probe ← vfdw_testwbuf_probe op;
  Ok (MkDumpRow ordinal (op_relid op) (vfdw_testwbuf_kind_name (op_kind op)) (op_level op) (op_cid op) (op_hashslot op)
        (op_key op) (op_oldkey op) (op_member op) (op_oldmember op) (op_value op) (op_score op)
        (Z.of_nat (length (op_fields op))) (from_option (λ t, Z.of_nat (length t)) 0 (op_newtup op)) probe).

Fixpoint dump_loop (ops : list VfdwWriteOp) (ordinal : Z) : result (list WbufDumpRow) :=
  match ops with
  | [] => Ok []
  | op :: rest => row ← vfdw_testwbuf_dump_one op ordinal; rows ← dump_loop rest (ordinal + 1); Ok (row :: rows)
  end.

Definition valkey_fdw_test_wbuf_dump (w : Wbuf) : result (list WbufDumpRow) := dump_loop (live_ops w) 1.
End dump.

(** The operations with their ordinals, from [n] on. *)
Fixpoint ordinals {A} (n : Z) (l : list A) : list (Z * A) :=
  match l with
  | [] => []
  | x :: rest => (n, x) :: ordinals (n + 1) rest
  end.

Definition valkey_fdw_test_wbuf_fields (w : Wbuf) : list (Z * Z * bytes * option bytes) :=
  '(ordinal, op) ← ordinals 1 (live_ops w);
  '(i, arg) ← ordinals 1 (op_fields op);
  [(ordinal, i, wa_name arg, if wa_isnull arg then None else Some (wa_data arg))].

Definition valkey_fdw_test_wbuf_targets (w : Wbuf) : list (Z * string * Z) :=
  '(ordinal, op) ← ordinals 1 (live_ops w);
  attno ← bms_members (op_target_attrs op);
  [(ordinal, vfdw_testwbuf_kind_name (op_kind op), attno)].

(* ---------------------------------------------------------------- *)
(** ** Counters *)

Definition valkey_fdw_test_overlay_stats (w : Wbuf) : Z * Z :=
  let '(rebuilds, extends) := vfdw_overlay_index_stats w in (int64_of_u64 rebuilds, int64_of_u64 extends).

Definition valkey_fdw_test_flush_stats (v : FlushVars) : Z * Z * Z * Z :=
  (int64_of_u64 (vfdw_flush_calls v), int64_of_u64 (vfdw_flush_empty_returns v),
   int64_of_u64 (vfdw_flush_flushes v), int64_of_u64 (vfdw_flush_retries v)).

(* ---------------------------------------------------------------- *)
(** ** The ledger *)

Record LedgerRow := MkLedgerRow {
  lr_plan : Z; lr_key : bytes; lr_ttype : bytes; lr_require : string; lr_state : string;
  lr_kind : string; lr_step : Z; lr_op : string; lr_args : option bytes }.

Fixpoint join_args (args : list bytes) : bytes :=
  match args with
  | [] => ""
  | [a] => a
  | a :: rest => a +:+ "|" +:+ join_args rest
  end.

Definition vfdw_testwbuf_ledger_row (plan : VfdwKeyPlan) (planno : Z) (kind : string) (stepno : Z) (opname : string)
    (step : option VfdwLedgerStep) : LedgerRow :=
  MkLedgerRow planno (kp_key plan) (vfdw_tabletype_name (tabletype_code (kp_ttype plan)))
    (vfdw_ledger_require_name (kp_require plan)) (vfdw_ledger_state_name (kp_state plan)) kind stepno opname
    (match step with
     | Some s => if bool_decide (0 < length (st_args s))%nat then Some (join_args (st_args s)) else None
     | None => None
     end).

Fixpoint step_rows (name : Z → result string) (plan : VfdwKeyPlan) (planno : Z) (kind : string)
    (steps : list VfdwLedgerStep) (n : Z) : result (list LedgerRow) :=
  match steps with
  | [] => Ok []
  | s :: rest =>
      opname ← name (st_op s);
      rows ← step_rows name plan planno kind rest (n + 1);
      Ok (vfdw_testwbuf_ledger_row plan planno kind n opname (Some s) :: rows)
  end.

Definition plan_rows (plan : VfdwKeyPlan) (planno : Z) : result (list LedgerRow) :=
  checks ← step_rows vfdw_ledger_check_name plan planno "check" (kp_checks plan) 1;
  actions ← step_rows vfdw_ledger_action_name plan planno "action" (kp_actions plan) 1;
  Ok ((match kp_checks plan, kp_actions plan with
       | [], [] => [vfdw_testwbuf_ledger_row plan planno "empty" 0 "NONE" None]
       | _, _ => []
       end) ++ checks ++ actions).

Fixpoint ledger_loop (plans : list VfdwKeyPlan) (planno : Z) : result (list LedgerRow) :=
  match plans with
  | [] => Ok []
  | plan :: rest => here ← plan_rows plan planno; rows ← ledger_loop rest (planno + 1); Ok (here ++ rows)
  end.

Definition valkey_fdw_test_ledger (l : Ledger) : result (list LedgerRow) := ledger_loop (lg_plans l) 1.

(* ---------------------------------------------------------------- *)
(** ** The program *)

Definition valkey_fdw_test_script_classify (str : bytes) : string * option bytes :=
  let '(v, detail) := vfdw_script_classify (Some str) in (vfdw_script_verdict_name v, detail).

Fixpoint opcode_rows (kind : string) (name : Z → result string) (ops : list Z) : result (list (string * Z * string)) :=
  match ops with
  | [] => Ok []
  | i :: rest => n ← name i; rows ← opcode_rows kind name rest; Ok ((kind, i, n) :: rows)
  end.

(** 0, ..., n - 1. *)
Definition below (n : Z) : list Z := Z.of_nat <$> seq 0 (Z.to_nat n).

Definition valkey_fdw_test_opcodes : result (list (string * Z * string)) :=
  checks ← opcode_rows "check" vfdw_ledger_check_name (below vfdw_check_op_count);
  actions ← opcode_rows "action" vfdw_ledger_action_name (below vfdw_action_op_count);
  Ok (checks ++ actions).

(** The arguments of the command, the digest under a fixed name. *)
Definition program_row (i : nat) (arg : bytes) : Z * string * bytes :=
  if bool_decide (i = 1%nat) then (1, "<sha1>", "<sha1>") else (Z.of_nat i, "arg", arg).

Definition valkey_fdw_test_script_program (sha1 : bytes) (l : Ledger) : result (list (Z * string * bytes)) :=
  cmd ← vfdw_script_encode sha1 l (vfdw_cmd_init 32);
  Ok (imap program_row (cmd_args cmd)).

(* ---------------------------------------------------------------- *)
(** * The value layer *)

Section probe.
Context `{TypeCatalog} `{PgTypes} `{Float4IO}.

(** memset of the table map; [options] are what vfdw_test_key_options fills in later. *)
Definition zero_options : VfdwTableOptions := TableOptions VFDW_TABLE_STRING None None None None 0 false false.

Record VfdwTestVal := TestVal { tv_col : VfdwColumn; tv_map : VfdwTableMap; tv_rowctx : VfdwRowCtx; tv_vc : VfdwValCtx }.

Definition vfdw_test_val_setup (typid : Z) (kind : VfdwColKind) : result VfdwTestVal :=
  let col := vfdw_map_resolve_type (with_kind kind (with_attnum 1 zero_column)) typid (-1) in
  if bool_decide (kind = VFDW_COL_TTL) && negb (bool_decide (getBaseType typid = INTERVALOID))
  then Raise (PgError ERRCODE_INVALID_PARAMETER_VALUE "ttl columns must be of type interval")
  else
    let map := TableMap 0 [col] (if bool_decide (kind = VFDW_COL_KEY) then 1 else InvalidAttrNumber)
                 0 0 0 zero_options 0 0 false 0 in
    Ok (TestVal col map (RowCtx map [col_typinput col] 0 None) (vfdw_val_ctx_init map)).

Definition vfdw_test_kind (name : bytes) : result VfdwColKind :=
  let name := until_nul name in
  if bool_decide (name = "key") then Ok VFDW_COL_KEY
  else if bool_decide (name = "value") then Ok VFDW_COL_VALUE
  else if bool_decide (name = "field") then Ok VFDW_COL_FIELD
  else if bool_decide (name = "member") then Ok VFDW_COL_MEMBER
  else if bool_decide (name = "score") then Ok VFDW_COL_SCORE
  else if bool_decide (name = "ttl") then Ok VFDW_COL_TTL
  else if bool_decide (name = "distance") then Ok VFDW_COL_DISTANCE
  else if bool_decide (name = "legacy_value") then Ok VFDW_COL_LEGACY_VALUE
  else if bool_decide (name = "dropped") then Ok VFDW_COL_DROPPED
  else Raise (PgError ERRCODE_INVALID_PARAMETER_VALUE "unknown column kind").

Definition valkey_fdw_test_val_out (typid : Z) (d : option Datum) : result (option bytes) :=
  if bool_decide (typid = InvalidOid)
  then Raise (PgError ERRCODE_INVALID_PARAMETER_VALUE "could not determine the argument's type")
  else tv ← vfdw_test_val_setup typid VFDW_COL_VALUE; vfdw_val_render (tv_vc tv) (tv_col tv) d.

Definition valkey_fdw_test_val_roundtrip (payload : option bytes) (typ : option Z) : result (option bytes) :=
  match typ, payload with
  | None, _ => Raise (PgError ERRCODE_NULL_VALUE_NOT_ALLOWED "a target type is required")
  | Some _, None => Ok None
  | Some typ, Some payload =>
      tv ← vfdw_test_val_setup typ VFDW_COL_VALUE;
      d ← vfdw_row_datum_from_bytes (tv_rowctx tv) (tv_col tv) payload;
      vfdw_val_render (tv_vc tv) (tv_col tv) (Some d)
  end.

Definition with_map (f : VfdwTableMap → VfdwTableMap) (tv : VfdwTestVal) : VfdwTestVal :=
  TestVal (tv_col tv) (f (tv_map tv)) (tv_rowctx tv) (tv_vc tv).

Definition with_table_options (o : VfdwTableOptions) (m : VfdwTableMap) : VfdwTableMap :=
  TableMap (map_relid m) (map_cols m) (map_keyattno m) (map_memberattno m) (map_scoreattno m) (map_valueattno m)
    o (map_nfields m) (map_nttl m) (map_hmget m) (map_nreq m).

Definition with_keyattno (n : Z) (m : VfdwTableMap) : VfdwTableMap :=
  TableMap (map_relid m) (map_cols m) n (map_memberattno m) (map_scoreattno m) (map_valueattno m)
    (map_options m) (map_nfields m) (map_nttl m) (map_hmget m) (map_nreq m).

Definition vfdw_test_key_options (keyprefix keyset singleton_key : option bytes) : VfdwTestVal → VfdwTestVal :=
  with_map (with_table_options (TableOptions VFDW_TABLE_STRING (until_nul <$> keyprefix) (until_nul <$> keyset)
    (until_nul <$> singleton_key) None 0 false false)).

(** A NULL has_key_column means there is one. *)
Definition key_probe (keyprefix keyset singleton_key : option bytes) (has_col : bool) : result VfdwTestVal :=
  tv ← vfdw_test_val_setup BYTEAOID VFDW_COL_KEY;
  let tv := vfdw_test_key_options keyprefix keyset singleton_key tv in
  Ok (if has_col then tv else with_map (with_keyattno InvalidAttrNumber) tv).

Definition valkey_fdw_test_build_key (d : option Datum) (keyprefix keyset singleton_key : option bytes)
    (has_key_column : option bool) : result bytes :=
  let has_col := default true has_key_column in
  tv ← key_probe keyprefix keyset singleton_key has_col;
  key ← (if has_col then vfdw_val_from_slot (tv_vc tv) (tv_map tv) (tv_col tv) d
         else vfdw_val_build_key (tv_vc tv) (tv_map tv) None d);
  Ok (default "" key).

Definition valkey_fdw_test_key_why (d : option Datum) (keyprefix keyset singleton_key : option bytes)
    (has_key_column : option bool) : result bytes :=
  let has_col := default true has_key_column in
  tv ← key_probe keyprefix keyset singleton_key has_col;
  '(verdict, _) ← vfdw_val_key_classify (tv_vc tv) (tv_map tv) (if has_col then Some (tv_col tv) else None) d;
  Ok (vfdw_val_key_verdict_name verdict).

Definition valkey_fdw_test_val_slot (payload : option bytes) (typ : option Z) (kind : option bytes)
    (keyprefix keyset singleton_key : option bytes) : result (option bytes) :=
  match typ, kind with
  | Some typ, Some kind =>
      kind ← vfdw_test_kind kind;
      tv ← vfdw_test_val_setup typ kind;
      let tv := vfdw_test_key_options keyprefix keyset singleton_key tv in
      d ← (match payload with
           | Some payload => d ← vfdw_row_datum_from_bytes (tv_rowctx tv) (tv_col tv) payload; Ok (Some d)
           | None => Ok None
           end);
      vfdw_val_from_slot (tv_vc tv) (tv_map tv) (tv_col tv) d
  | _, _ => Raise (PgError ERRCODE_NULL_VALUE_NOT_ALLOWED "a target type and a column kind are required")
  end.

Definition valkey_fdw_test_vec_to_text (s : bytes) : result bytes := vfdw_vec_to_text s "the probe's argument".
Definition valkey_fdw_test_vec_from_text (text : bytes) : result bytes := vfdw_vec_from_text (until_nul text) "the probe's argument".
End probe.

Definition valkey_fdw_test_all_fields_null : result unit := Raise vfdw_val_error_all_fields_null.

Definition valkey_fdw_test_score (score : option bytes) (do_raise : option bool) : result bytes :=
  match score with
  | None => Raise (PgError ERRCODE_NULL_VALUE_NOT_ALLOWED "a score is required")
  | Some s =>
      _ ← (if default false do_raise then vfdw_val_check_score s "(diagnostic)" "(diagnostic)" else Ok ());
      Ok (vfdw_val_score_verdict_name (vfdw_val_score_classify s))
  end.

Definition valkey_fdw_test_crc16 (s : bytes) : Z := vfdw_val_crc16 s.
Definition valkey_fdw_test_keyslot (s : bytes) : Z := vfdw_val_slot s.
Definition valkey_fdw_test_hashtag (s : bytes) : bytes := vfdw_val_hashtag s.
