(* ===== verification/Filter.v ===== *)
(** WHERE clauses compiled into the search's own query language
    (src/vfdw_filter.c): which clauses become a term, how a term with its bound
    is spelled, and how the terms travel in the plan.

    A float8 is NaN, an infinity or a rational; the names of operators, the
    conversions of the four exact types and the digits of float8out are the class
    [FilterCatalog].  A bound arrives evaluated, as the type of its expression
    and its value.

    Planner nodes are modelled as far as the wrapper looks into them, with the helpers
    of nodeFuncs.c it calls and the test of src/vfdw_compat.h; [OtherExpr] is any
    expression the code does not open: its type, the range table indexes of the
    variables in it, and a tag that tells it from others. *)
From Stdlib Require Import QArith.
From S2P Require Import Prelude Opcode Option TableMap.
Local Open Scope Z_scope.

(* ---------------------------------------------------------------- *)
(** ** Planner nodes *)

Definition BOOLOID : Z := 16.
Definition INT2OID : Z := 21.
Definition FLOAT4OID : Z := 700.
Definition FLOAT8OID : Z := 701.
Definition VARCHAROID : Z := 1043.

(** A constant is null when it has no value. *)
Inductive Node `{PgTypes} :=
  | Var (varno varlevelsup varattno vartype : Z)
  | Const (consttype : Z) (constvalue : option Datum)
  | OpExpr (opno opresulttype inputcollid : Z) (args : list Node)
  | ScalarArrayOpExpr (opno : Z) (useOr : bool) (inputcollid : Z) (args : list Node)
  | RestrictInfo (clause : Node)
  | ImplicitCoercion (resulttype : Z) (arg : Node)
  | OtherExpr (tag exprtype : Z) (varnos : list Z).

Section node.
Context `{PgTypes}.

Definition exprType (n : Node) : Z :=
  match n with
  | Var _ _ _ t | Const t _ | OpExpr _ t _ _ | ImplicitCoercion t _ | OtherExpr _ t _ => t
  | ScalarArrayOpExpr _ _ _ _ => BOOLOID
  | RestrictInfo _ => InvalidOid
  end.

(** RelabelType, FuncExpr, CoerceViaIO and the like in COERCE_IMPLICIT_CAST form. *)
Fixpoint strip_implicit_coercions (n : Node) : Node :=
  match n with ImplicitCoercion _ arg => strip_implicit_coercions arg | n => n end.

(** The range table indexes of the variables of this query level. *)
Fixpoint pull_varnos (n : Node) : list Z :=
  match n with
  | Var varno varlevelsup _ _ => if bool_decide (varlevelsup = 0) then [varno] else []
  | Const _ _ => []
  | OpExpr _ _ _ args | ScalarArrayOpExpr _ _ _ args => concat (map pull_varnos args)
  | RestrictInfo clause => pull_varnos clause
  | ImplicitCoercion _ arg => pull_varnos arg
  | OtherExpr _ _ varnos => varnos
  end.

Definition vfdw_var_of_rel (varno varlevelsup relid : Z) : bool :=
  bool_decide (varno = relid) && bool_decide (varlevelsup = 0).
End node.

(* ---------------------------------------------------------------- *)
(** ** Operators and bounds *)

Inductive float8 := F8NaN | F8Inf (negative : bool) | F8 (q : Q).

Class FilterCatalog `{PgTypes} := {
  get_opname : Z → option bytes;
  DatumGetInt16 : Datum → Z;
  DatumGetInt32 : Datum → Z;
  DatumGetFloat4 : Datum → float8;
  DatumGetFloat8 : Datum → float8;
  (* of a finite value *)
  float8out : Q → bytes;
}.

Section filter.
Context `{TypeCatalog} `{PgTypes} `{!FilterCatalog}.

Record VfdwFilterTerm := FilterTerm {
  ft_field : bytes;
  ft_bound : option Node;
  ft_lower : bool;
  ft_exclusive : bool;
  ft_both : bool;
  ft_tag : bool;
}.

Definition vfdw_filter_type_is_exact (typid : Z) : bool :=
  let t := getBaseType typid in
  bool_decide (t = INT2OID) || bool_decide (t = INT4OID) || bool_decide (t = FLOAT4OID) || bool_decide (t = FLOAT8OID).

(** The column of this relation a node is, under its implicit coercions. *)
Definition filter_column (node : Node) (relid : Z) (map : VfdwTableMap) : option VfdwColumn :=
  match strip_implicit_coercions node with
  | Var varno varlevelsup varattno _ =>
      if negb (vfdw_var_of_rel varno varlevelsup relid) then None
      else if bool_decide (varattno < 1) || bool_decide (Z.of_nat (map_natts map) < varattno) then None
      else map_cols map !! Z.to_nat (varattno - 1)
  | _ => None
  end.

Definition vfdw_filter_numeric_field (node : Node) (relid : Z) (map : VfdwTableMap) : option bytes :=
  col ← filter_column node relid map;
  if negb (bool_decide (col_kind col = VFDW_COL_FIELD)) || negb (bool_decide (col_index_type col = VFDW_INDEX_NUMERIC))
  then None
  else if negb (vfdw_filter_type_is_exact (col_typid col)) then None
  else if negb (vfdw_filter_name_is_safe (col_field col)) then None
  else col_field col.

Definition vfdw_filter_tag_field (node : Node) (relid : Z) (map : VfdwTableMap) : option bytes :=
  col ← filter_column node relid map;
  if negb (bool_decide (col_kind col = VFDW_COL_FIELD)) || negb (bool_decide (col_index_type col = VFDW_INDEX_TAG))
  then None
  else if negb (vfdw_filter_name_is_safe (col_field col)) then None
  else col_field col.

Definition vfdw_filter_op_is_equality (opno : Z) : bool := bool_decide (get_opname opno = Some "=").

(** lower, exclusive and both of the operator, from its name. *)
Definition vfdw_filter_op_range (opno : Z) (var_on_left : bool) : option (bool * bool * bool) :=
  name ← get_opname opno;
  if bool_decide (name = "=") then Some (false, false, true)
  else if bool_decide (name = "<") then Some (negb var_on_left, true, false)
  else if bool_decide (name = "<=") then Some (negb var_on_left, false, false)
  else if bool_decide (name = ">") then Some (var_on_left, true, false)
  else if bool_decide (name = ">=") then Some (var_on_left, false, false)
  else None.

(** The field one of the two sides names, the other side and whether the field
    is on the left. *)
Definition filter_sides (field_of : Node → option bytes) (lhs rhs : Node) : option (bytes * Node * bool) :=
  match field_of lhs with
  | Some f => Some (f, rhs, true)
  | None => match field_of rhs with Some f => Some (f, lhs, false) | None => None end
  end.

Definition vfdw_filter_tag_term (relid : Z) (map : VfdwTableMap) (opno : Z) (lhs rhs : Node) : option VfdwFilterTerm :=
  '(field, bound, _) ← filter_sides (λ n, vfdw_filter_tag_field n relid map) lhs rhs;
  if bool_decide (relid ∈ pull_varnos bound) then None
  else if negb (vfdw_filter_op_is_equality opno) then None
  else Some (FilterTerm field (Some bound) false false false true).

Definition vfdw_filter_one (relid : Z) (map : VfdwTableMap) (clause : Node) : option VfdwFilterTerm :=
  match clause with
  | OpExpr opno opresulttype _ [lhs; rhs] =>
      if negb (bool_decide (opresulttype = BOOLOID)) then None
      else
        match filter_sides (λ n, vfdw_filter_numeric_field n relid map) lhs rhs with
        | None => vfdw_filter_tag_term relid map opno lhs rhs
        | Some (field, bound, var_on_left) =>
            if bool_decide (relid ∈ pull_varnos bound) then None
            else if negb (vfdw_filter_type_is_exact (exprType bound)) then None
            else
              '(lower, exclusive, both) ← vfdw_filter_op_range opno var_on_left;
              Some (FilterTerm field (Some bound) lower exclusive both false)
        end
  | _ => None
  end.

(** None is the refusal, with the reason *why. *)
Definition vfdw_filter_compile (relid : Z) (map : VfdwTableMap) (clauses : list Node)
    : option (list VfdwFilterTerm) :=
  mapM (vfdw_filter_one relid map) clauses.

Definition filter_why : string :=
  "a WHERE clause that cannot be compiled into the search itself, and applying it afterwards would remove rows the search already counted towards k".

(* ---------------------------------------------------------------- *)
(** ** Spelling the terms *)

Definition bound_float8 (value : Datum) (typid : Z) : result float8 :=
  let t := getBaseType typid in
  if bool_decide (t = INT2OID) then Ok (F8 (inject_Z (DatumGetInt16 value)))
  else if bool_decide (t = INT4OID) then Ok (F8 (inject_Z (DatumGetInt32 value)))
  else if bool_decide (t = FLOAT4OID) then Ok (DatumGetFloat4 value)
  else if bool_decide (t = FLOAT8OID) then Ok (DatumGetFloat8 value)
  else Raise (elog_error "valkey_fdw: filter bound of unexpected type").

(** None is NaN, which has no spelling. *)
Definition vfdw_filter_bound_text (value : Datum) (typid : Z) : result (option bytes) :=
  f ← bound_float8 value typid;
  Ok (match f with
      | F8NaN => None
      | F8Inf negative => Some (if negative then "-inf" else "+inf")
      | F8 q => Some (float8out q)
      end).

Definition tag_char_is_plain (c : ascii) : bool := name_char_is_safe c || bool_decide (byte_val c = 32).

Fixpoint tag_is_plain (s : bytes) : bool :=
  match s with EmptyString => true | String c r => tag_char_is_plain c && tag_is_plain r end.

(** Always true: a tag that cannot be spelled is not pushed. *)
Definition vfdw_filter_render_tag (term : VfdwFilterTerm) (value : Datum) (typid : Z) : bytes :=
  let text := until_nul (OutputFunctionCall (getTypeOutputInfo typid).1 value) in
  if tag_is_plain text then "@" +:+ ft_field term +:+ ":{" +:+ text +:+ "} " else "".

(** The test of num.data for equality with an infinity. *)
Definition looks_infinite (num : bytes) : bool :=
  match num with
  | String a (String b _) => negb (bool_decide (a = "-"%char)) && bool_decide (b = "i"%char)
  | _ => false
  end.

Definition vfdw_filter_render_range (term : VfdwFilterTerm) (value : Datum) (typid : Z) : result (option bytes) :=
  num ← vfdw_filter_bound_text value typid;
  match num with
  | None => Ok None
  | Some num =>
      if ft_both term && looks_infinite num
      then Raise (PgError ERRCODE_FEATURE_NOT_SUPPORTED "cannot search for a field equal to infinity")
      else
        let excl := if ft_exclusive term then "(" else "" in
        Ok (Some ("@" +:+ ft_field term +:+ ":["
                  +:+ (if ft_both term then num +:+ " " +:+ num
                       else if ft_lower term then excl +:+ num +:+ " +inf"
                       else "-inf " +:+ excl +:+ num)
                  +:+ "] "))
  end.

Definition render_term (term : VfdwFilterTerm) (value : Datum) (typid : Z) : result (option bytes) :=
  if ft_tag term then Ok (Some (vfdw_filter_render_tag term value typid))
  else vfdw_filter_render_range term value typid.

(** The terms and the evaluated bounds are paired by position; None when a bound
    says that no row can match. *)
Fixpoint vfdw_filter_render (terms : list VfdwFilterTerm) (bounds : list (Z * option Datum)) : result (option bytes) :=
  match terms, bounds with
  | term :: terms, (typid, value) :: bounds =>
      match value with
      | None => Ok None
      | Some value =>
          t ← render_term term value typid;
          match t with
          | None => Ok None
          | Some t => rest ← vfdw_filter_render terms bounds; Ok (option_map (String.append t) rest)
          end
      end
  | _, _ => Ok (Some "")
  end.

(* ---------------------------------------------------------------- *)
(** ** The terms in the plan *)

Definition VFDW_FILTER_LOWER : Z := 1.
Definition VFDW_FILTER_EXCLUSIVE : Z := 2.
Definition VFDW_FILTER_BOTH : Z := 4.
Definition VFDW_FILTER_TAG : Z := 8.

Definition filter_flags (term : VfdwFilterTerm) : Z :=
  let flags := 0 in
  let flags := if ft_lower term then Z.lor flags VFDW_FILTER_LOWER else flags in
  let flags := if ft_exclusive term then Z.lor flags VFDW_FILTER_EXCLUSIVE else flags in
  let flags := if ft_both term then Z.lor flags VFDW_FILTER_BOTH else flags in
  if ft_tag term then Z.lor flags VFDW_FILTER_TAG else flags.

Definition has_flag (flags flag : Z) : bool := negb (bool_decide (Z.land flags flag = 0)).

(** What fdw_private carries, and the expressions appended to [bounds]. *)
Definition vfdw_filter_encode (terms : list VfdwFilterTerm) (bounds : list Node) : list (bytes * Z) * list Node :=
  ((λ t, (ft_field t, filter_flags t)) <$> terms, bounds ++ omap ft_bound terms).

Definition vfdw_filter_decode (encoded : list (bytes * Z)) : list VfdwFilterTerm :=
  (λ p : bytes * Z, FilterTerm p.1 None (has_flag p.2 VFDW_FILTER_LOWER) (has_flag p.2 VFDW_FILTER_EXCLUSIVE)
     (has_flag p.2 VFDW_FILTER_BOTH) (has_flag p.2 VFDW_FILTER_TAG)) <$> encoded.

Definition describe_term (term : VfdwFilterTerm) : bytes :=
  let excl := if ft_exclusive term then "(" else "" in
  if ft_tag term then "@" +:+ ft_field term +:+ ":{$}"
  else if ft_both term then "@" +:+ ft_field term +:+ ":[$ $]"
  else if ft_lower term then "@" +:+ ft_field term +:+ ":[" +:+ excl +:+ "$ +inf]"
  else "@" +:+ ft_field term +:+ ":[-inf " +:+ excl +:+ "$]".

Definition vfdw_filter_describe (terms : list VfdwFilterTerm) : bytes :=
  fold_left (λ buf term, buf +:+ (if bool_decide (buf = "") then "" else " ") +:+ describe_term term) terms "".

Definition vfdw_filter_is_exact (terms : list VfdwFilterTerm) : bool := forallb (λ t, negb (ft_tag t)) terms.
End filter.
