(* ===== verification/FilterFacts.v ===== *)
(** The query the compiled terms spell means what the clauses mean
    (src/vfdw_filter.c): read back by a parser of the query language, it matches
    every document whose row the clauses accept, and no other when all terms are
    ranges.  Where it does not is stated too. *)
From Stdlib Require Import QArith.
From S2P Require Import Prelude Opcode Option OptionFacts Error Cmd TableMap TableMapFacts Ttl Vec Row ScanCmd RowFacts ValFacts Filter.
Local Open Scope Z_scope.

(* ---------------------------------------------------------------- *)
(** ** Order on doubles *)

(** PostgreSQL's: NaN equals itself and is greater than anything else. *)
Definition f8_cmp (a b : float8) : comparison :=
  match a, b with
  | F8NaN, F8NaN => Eq
  | F8NaN, _ => Gt
  | _, F8NaN => Lt
  | F8Inf na, F8Inf nb => if bool_decide (na = nb) then Eq else if na then Lt else Gt
  | F8Inf n, F8 _ => if n then Lt else Gt
  | F8 _, F8Inf n => if n then Gt else Lt
  | F8 p, F8 q => Qcompare p q
  end.

Lemma f8_cmp_sym a b : f8_cmp a b = CompOpp (f8_cmp b a).
Proof.
  destruct a as [|[]|p], b as [|[]|q]; try done. simpl. unfold Qcompare. apply Z.compare_antisym.
Qed.

Lemma f8_cmp_eqv a b v : f8_cmp a b = Eq → f8_cmp a v = f8_cmp b v.
Proof.
  destruct a as [|[]|p], b as [|[]|q]; try done. simpl. intros E%Qeq_alt. destruct v as [|[]|r]; try done.
  simpl. by rewrite E.
Qed.

(** What the operator of a name says of two numbers. *)
Definition op_true (name : bytes) (a b : float8) : bool :=
  let c := f8_cmp a b in
  if bool_decide (name = "=") then bool_decide (c = Eq)
  else if bool_decide (name = "<") then bool_decide (c = Lt)
  else if bool_decide (name = "<=") then negb (bool_decide (c = Gt))
  else if bool_decide (name = ">") then bool_decide (c = Gt)
  else if bool_decide (name = ">=") then negb (bool_decide (c = Lt))
  else false.

(* ---------------------------------------------------------------- *)
(** ** The query language *)

(** An end of a range: whether it is excluded, and where it is. *)
Inductive QTerm := QRange (field : bytes) (lo hi : bool * float8) | QTag (field text : bytes).

(** How the server reads the digits of a number and compares tags. *)
Class SearchServer := {
  read_number : bytes → option Q;
  tag_matches : bytes → bytes → bool;
}.

(** float8out prints digits that read back as the number. *)
Class SearchLaws `{PgTypes} `{!FilterCatalog} `{!SearchServer} := {
  read_float8out q : ∃ q', read_number (float8out q) = Some q' ∧ (q' == q)%Q;
  float8out_plain q c : occurs c (float8out q) = true → c ≠ " "%char ∧ c ≠ "]"%char ∧ c ≠ "("%char;
  float8out_finite q : float8out q ≠ "+inf" ∧ float8out q ≠ "-inf" ∧ float8out q ≠ "";
}.

Fixpoint split_at (c : ascii) (s : bytes) : option (bytes * bytes) :=
  match s with
  | EmptyString => None
  | String a r => if decide (a = c) then Some ("", r) else (λ p, (String a p.1, p.2)) <$> split_at c r
  end.

Section grammar.
Context `{!SearchServer}.

Definition parse_number (s : bytes) : option float8 :=
  if bool_decide (s = "+inf") then Some (F8Inf false)
  else if bool_decide (s = "-inf") then Some (F8Inf true)
  else F8 <$> read_number s.

Definition parse_end (s : bytes) : option (bool * float8) :=
  match s with
  | String c r => if decide (c = "("%char) then pair true <$> parse_number r else pair false <$> parse_number s
  | EmptyString => None
  end.

(** One term and the space behind it. *)
Definition parse_term (s : bytes) : option (QTerm * bytes) :=
  match s with
  | String "@" r =>
      '(field, r) ← split_at ":" r;
      match r with
      | String "[" r =>
          '(lo, r) ← split_at " " r;
          '(hi, r) ← split_at "]" r;
          lo ← parse_end lo;
          hi ← parse_end hi;
          match r with String " " r => Some (QRange field lo hi, r) | _ => None end
      | String "{" r =>
          '(text, r) ← split_at "}" r;
          match r with
          | String " " r => if bool_decide (text = "") then None else Some (QTag field text, r)
          | _ => None
          end
      | _ => None
      end
  | _ => None
  end.

Fixpoint parse_terms (fuel : nat) (s : bytes) : option (list QTerm) :=
  match s, fuel with
  | EmptyString, _ => Some []
  | _, O => None
  | _, S n => '(t, r) ← parse_term s; cons t <$> parse_terms n r
  end.

Definition parse_query (s : bytes) : option (list QTerm) := parse_terms (String.length s) s.

(** The number and the text a document holds in a field. *)
Record Document := MkDocument { doc_num : bytes → float8; doc_text : bytes → bytes }.

Definition above (lo : bool * float8) (v : float8) : bool :=
  match f8_cmp lo.2 v with Lt => true | Eq => negb lo.1 | Gt => false end.
Definition below (hi : bool * float8) (v : float8) : bool :=
  match f8_cmp v hi.2 with Lt => true | Eq => negb hi.1 | Gt => false end.

Definition matches (d : Document) (t : QTerm) : bool :=
  match t with
  | QRange field lo hi => above lo (doc_num d field) && below hi (doc_num d field)
  | QTag field text => tag_matches (doc_text d field) text
  end.
End grammar.

(* ---------------------------------------------------------------- *)
(** ** Reading the text back *)

Lemma split_at_app c (a b : bytes) : occurs c a = false → split_at c (a +:+ String c b) = Some (a, b).
Proof.
  induction a as [|x a IH]; simpl_app; simpl; [by rewrite decide_True|].
  rewrite occurs_head, orb_false_iff, bool_decide_eq_false. intros [Hx Ha].
  rewrite decide_False by done. simpl_app. by rewrite IH.
Qed.

Lemma occurs_class (P : ascii → bool) (f : bytes → bool) (c : ascii) (s : bytes) :
  (∀ x r, f (String x r) = P x && f r) → f s = true → P c = false → occurs c s = false.
Proof.
  intros Hf. induction s as [|x s IH]; intros Hs Hc; [done|]. rewrite Hf in Hs. apply andb_prop in Hs as [Hx Hs].
  rewrite occurs_head, IH by done. rewrite bool_decide_false; [done|]. intros ->. congruence.
Qed.

Lemma safe_name_without c s : name_chars_are_safe s = true → name_char_is_safe c = false → occurs c s = false.
Proof. by apply occurs_class. Qed.

Lemma plain_tag_without c s : tag_is_plain s = true → tag_char_is_plain c = false → occurs c s = false.
Proof. by apply occurs_class. Qed.

Section facts.
Context `{TypeCatalog} `{PgTypes} `{!FilterCatalog} `{!SearchServer} `{!SearchLaws}.

(** The text of a number and what the server reads in it. *)
Definition number_text (f : float8) : bytes :=
  match f with F8NaN => "" | F8Inf true => "-inf" | F8Inf false => "+inf" | F8 q => float8out q end.

Lemma number_text_plain f c : occurs c (number_text f) = true → c ≠ " "%char ∧ c ≠ "]"%char ∧ c ≠ "("%char.
Proof. destruct f as [|[]|q]; [done| | |apply float8out_plain]; intros E; repeat split; by intros ->. Qed.

Lemma parse_number_text f : f ≠ F8NaN → ∃ f', parse_number (number_text f) = Some f' ∧ f8_cmp f' f = Eq.
Proof.
  intros Hf. destruct f as [|[]|q]; [done|by eexists..|]. unfold parse_number. simpl.
  destruct (float8out_finite q) as (Hp & Hm & _). rewrite !bool_decide_false by done.
  destruct (read_float8out q) as (q' & -> & Hq). exists (F8 q'). split; [done|]. by apply Qeq_alt.
Qed.

Lemma parse_end_text (ex : bool) f :
  f ≠ F8NaN → ∃ f', parse_end ((if ex then "(" else "") +:+ number_text f) = Some (ex, f') ∧ f8_cmp f' f = Eq.
Proof.
  intros Hf. destruct (parse_number_text f Hf) as (f' & E & He). exists f'. split; [|done].
  destruct ex; [simpl; by rewrite append_empty, E|]. simpl_app. pose proof (number_text_plain f) as Hp.
  destruct (number_text f) as [|c r] eqn:En; [unfold parse_number in E; simpl in E|].
  - destruct f as [|[]|q]; try done. simpl in En.
    by destruct (float8out_finite q) as (_ & _ & []).
  - simpl. destruct (Hp c) as (_ & _ & Hc); [by rewrite occurs_head, bool_decide_true|].
    rewrite decide_False by done. by rewrite E.
Qed.

(** The range a term and its bound stand for. *)
Definition ends_of (term : VfdwFilterTerm) (f : float8) : (bool * float8) * (bool * float8) :=
  if ft_both term then ((false, f), (false, f))
  else if ft_lower term then ((ft_exclusive term, f), (false, F8Inf false))
  else ((false, F8Inf true), (ft_exclusive term, f)).

Definition end_text (e : bool * float8) : bytes := (if e.1 then "(" else "") +:+ number_text e.2.

Lemma end_text_without e c : c = " "%char ∨ c = "]"%char → occurs c (end_text e) = false.
Proof.
  intros Hc. unfold end_text. rewrite occurs_app.
  replace (occurs c (if e.1 then "(" else "")) with false by (destruct e.1; destruct Hc as [-> | ->]; done).
  destruct (occurs c (number_text e.2)) eqn:E; [|done]. apply number_text_plain in E. naive_solver.
Qed.

Definition range_text (field : bytes) (lo hi : bool * float8) : bytes :=
  "@" +:+ field +:+ ":[" +:+ end_text lo +:+ " " +:+ end_text hi +:+ "] ".

Lemma range_text_parses field lo hi :
  name_chars_are_safe field = true → lo.2 ≠ F8NaN → hi.2 ≠ F8NaN →
  ∃ lo' hi', f8_cmp lo' lo.2 = Eq ∧ f8_cmp hi' hi.2 = Eq ∧
    ∀ rest, parse_term (range_text field lo hi +:+ rest) = Some (QRange field (lo.1, lo') (hi.1, hi'), rest).
Proof.
  intros Hf Hlo Hhi. destruct (parse_end_text lo.1 _ Hlo) as (lo' & Elo & Hlo').
  destruct (parse_end_text hi.1 _ Hhi) as (hi' & Ehi & Hhi'). exists lo', hi'. split; [done|]. split; [done|]. intros rest.
  unfold range_text. rewrite !append_assoc. simpl_app. unfold parse_term.
  rewrite split_at_app by (by apply (safe_name_without ":"%char)). cbn [mbind option_bind].
  rewrite split_at_app by (apply end_text_without; auto). cbn [mbind option_bind].
  rewrite split_at_app by (apply end_text_without; auto). cbn [mbind option_bind].
  unfold end_text. rewrite Elo, Ehi. done.
Qed.

Lemma render_range_spec term value typid t :
  vfdw_filter_render_range term value typid = Ok (Some t) →
  ∃ f, bound_float8 value typid = Ok f ∧ f ≠ F8NaN ∧ t = range_text (ft_field term) (ends_of term f).1 (ends_of term f).2.
Proof.
  unfold vfdw_filter_render_range, vfdw_filter_bound_text. destruct (bound_float8 value typid) as [f|]; [|done].
  cbn [mbind result_bind]. intros E. exists f. split; [done|].
  assert (Hf : f ≠ F8NaN) by (by intros ->). split; [done|].
  assert (E' : (if ft_both term && looks_infinite (number_text f) then Raise (PgError ERRCODE_FEATURE_NOT_SUPPORTED "cannot search for a field equal to infinity")
     else Ok (Some ("@" +:+ ft_field term +:+ ":["
                  +:+ (if ft_both term then number_text f +:+ " " +:+ number_text f
                       else if ft_lower term then (if ft_exclusive term then "(" else "") +:+ number_text f +:+ " +inf"
                       else "-inf " +:+ (if ft_exclusive term then "(" else "") +:+ number_text f)
                  +:+ "] "))) = Ok (Some t)) by (by destruct f as [|[]|q]).
  destruct (ft_both term && looks_infinite (number_text f)); [done|]. injection E' as <-.
  unfold range_text, ends_of, end_text. destruct (ft_both term), (ft_lower term); cbn [fst snd];
    simpl_app; rewrite ?append_assoc; done.
Qed.

(* ---------------------------------------------------------------- *)
(** ** What a clause means *)

Lemma above_eqv x a b v : f8_cmp a b = Eq → above (x, a) v = above (x, b) v.
Proof. intros E. unfold above. cbn [fst snd]. by rewrite (f8_cmp_eqv _ _ v E). Qed.

Lemma below_eqv x a b v : f8_cmp a b = Eq → below (x, a) v = below (x, b) v.
Proof. intros E. unfold below. cbn [fst snd]. by rewrite (f8_cmp_sym v a), (f8_cmp_sym v b), (f8_cmp_eqv _ _ v E). Qed.

Lemma above_all v : v ≠ F8NaN → above (false, F8Inf true) v = true.
Proof. by destruct v as [|[]|q]. Qed.
Lemma below_all v : v ≠ F8NaN → below (false, F8Inf false) v = true.
Proof. by destruct v as [|[]|q]. Qed.

(** A range holds the numbers its operator accepts. *)
Lemma range_meaning opno (on_left : bool) (lower exclusive both : bool) field bound tag :
  vfdw_filter_op_range opno on_left = Some (lower, exclusive, both) →
  ∃ name, get_opname opno = Some name ∧ ∀ v f lo hi,
    let ends := ends_of (FilterTerm field bound lower exclusive both tag) f in
    v ≠ F8NaN → f8_cmp lo ends.1.2 = Eq → f8_cmp hi ends.2.2 = Eq →
    above (ends.1.1, lo) v && below (ends.2.1, hi) v = op_true name (if on_left then v else f) (if on_left then f else v).
Proof.
  unfold vfdw_filter_op_range. destruct (get_opname opno) as [name|]; [|done]. cbn [mbind option_bind]. intros E.
  exists name. split; [done|]. intros v f lo hi Hv Hlo Hhi.
  rewrite (above_eqv _ _ _ v Hlo), (below_eqv _ _ _ v Hhi). unfold ends_of. cbn [ft_both ft_lower ft_exclusive].
  repeat (case_bool_decide; [subst name; injection E as <- <- <-; unfold op_true; closed_names;
    destruct on_left; cbn [fst snd negb]; rewrite ?above_all, ?below_all, ?andb_true_r, ?andb_true_l by done;
    unfold above, below; cbn [fst snd]; rewrite ?(f8_cmp_sym v f); by destruct (f8_cmp f v)|]).
  done.
Qed.

Context (relid : Z) (map : VfdwTableMap).

(** A document as a row: a column of this relation is what the index holds of its
    field, anything else is the bound. *)
Definition operand (doc : Document) (bound : float8) (n : Node) : float8 :=
  match filter_column n relid map with
  | Some col => doc_num doc (default "" (col_field col))
  | None => bound
  end.

Definition clause_column (lhs rhs : Node) : option VfdwColumn :=
  match filter_column lhs relid map with Some c => Some c | None => filter_column rhs relid map end.

(** A clause with its evaluated bound holds of a row: the comparison of the two
    numbers, or equality of the two texts on a tag column. *)
Definition clause_holds (doc : Document) (clause : Node) (bound : Z * Datum) : Prop :=
  match clause with
  | OpExpr opno _ _ [lhs; rhs] =>
      match clause_column lhs rhs with
      | Some col =>
          if bool_decide (col_index_type col = VFDW_INDEX_TAG)
          then get_opname opno = Some "=" ∧
               doc_text doc (default "" (col_field col)) = until_nul (OutputFunctionCall (getTypeOutputInfo bound.1).1 bound.2)
          else ∃ name f, get_opname opno = Some name ∧ bound_float8 bound.2 bound.1 = Ok f ∧
               op_true name (operand doc f lhs) (operand doc f rhs) = true
      | None => False
      end
  | _ => False
  end.

Lemma filter_column_varno n col : filter_column n relid map = Some col → relid ∈ pull_varnos n.
Proof.
  unfold filter_column.
  assert (Hs : pull_varnos (strip_implicit_coercions n) = pull_varnos n) by (by induction n).
  rewrite <- Hs. destruct (strip_implicit_coercions n) as [varno lv attno typ| | | | | |]; try done.
  unfold vfdw_var_of_rel. cbn [pull_varnos]. do 2 case_bool_decide; try done. intros _. subst. by apply list_elem_of_singleton.
Qed.

Lemma not_a_column n : relid ∉ pull_varnos n → filter_column n relid map = None.
Proof. intros H4. destruct (filter_column n relid map) eqn:E; [|done]. by apply filter_column_varno in E. Qed.

Lemma numeric_field_column n f :
  vfdw_filter_numeric_field n relid map = Some f →
  ∃ col, filter_column n relid map = Some col ∧ col_field col = Some f ∧ name_chars_are_safe f = true ∧
    col_index_type col = VFDW_INDEX_NUMERIC.
Proof.
  unfold vfdw_filter_numeric_field. destruct (filter_column n relid map) as [col|]; [|done]. cbn [mbind option_bind].
  do 2 case_bool_decide; try done. cbn [negb orb]. destruct (vfdw_filter_type_is_exact _); [|done]. cbn [negb].
  destruct (vfdw_filter_name_is_safe (col_field col)) eqn:Es; [|done]. cbn [negb]. intros Hf. exists col.
  split; [done|]. split; [done|]. split; [|done]. rewrite Hf in Es. by destruct f.
Qed.

Lemma tag_field_column n f :
  vfdw_filter_tag_field n relid map = Some f →
  ∃ col, filter_column n relid map = Some col ∧ col_field col = Some f ∧ name_chars_are_safe f = true ∧
    col_index_type col = VFDW_INDEX_TAG.
Proof.
  unfold vfdw_filter_tag_field. destruct (filter_column n relid map) as [col|]; [|done]. cbn [mbind option_bind].
  do 2 case_bool_decide; try done. cbn [negb orb].
  destruct (vfdw_filter_name_is_safe (col_field col)) eqn:Es; [|done]. cbn [negb]. intros Hf. exists col.
  split; [done|]. split; [done|]. split; [|done]. rewrite Hf in Es. by destruct f.
Qed.

(** What a side that names a field leaves of a clause. *)
Lemma sides_column (field_of : Node → option bytes) lhs rhs f bound (on_left : bool) :
  (∀ n x, field_of n = Some x → ∃ col, filter_column n relid map = Some col ∧ col_field col = Some x) →
  filter_sides field_of lhs rhs = Some (f, bound, on_left) → relid ∉ pull_varnos bound →
  field_of (if on_left then lhs else rhs) = Some f ∧
  ∃ col, clause_column lhs rhs = Some col ∧ filter_column (if on_left then lhs else rhs) relid map = Some col ∧
    col_field col = Some f ∧
    ∀ doc b, (operand doc b lhs, operand doc b rhs) = if on_left then (doc_num doc f, b) else (b, doc_num doc f).
Proof.
  intros Hf Hs Hb. apply not_a_column in Hb. unfold filter_sides in Hs. unfold clause_column, operand.
  destruct (field_of lhs) as [x|] eqn:El.
  - injection Hs as -> -> <-. destruct (Hf _ _ El) as (col & Ec & Ef). split; [done|]. exists col.
    rewrite Ec, Hb, Ef. by repeat split.
  - destruct (field_of rhs) as [x|] eqn:Er; [|done]. injection Hs as -> -> <-.
    destruct (Hf _ _ Er) as (col & Ec & Ef). split; [done|]. exists col. rewrite Hb, Ec, Ef. by repeat split.
Qed.

(** A document whose numbers are numbers. *)
Definition numbered_doc (doc : Document) : Prop := ∀ f, doc_num doc f ≠ F8NaN.

(** The query term a text is, and what it has to do with the clause. *)
Definition means (clause : Node) (bound : Z * Datum) (exact : bool) (t : bytes) (q : QTerm) : Prop :=
  (∀ rest, parse_term (t +:+ rest) = Some (q, rest)) ∧ t ≠ "" ∧
  ∀ doc, numbered_doc doc →
    (clause_holds doc clause bound → matches doc q = true) ∧
    (exact = true → matches doc q = true → clause_holds doc clause bound).

Lemma range_term_means opno coll lhs rhs term value typid t :
  filter_sides (λ n, vfdw_filter_numeric_field n relid map) lhs rhs ≠ None →
  vfdw_filter_one relid map (OpExpr opno BOOLOID coll [lhs; rhs]) = Some term →
  render_term term value typid = Ok (Some t) →
  ∃ q, means (OpExpr opno BOOLOID coll [lhs; rhs]) (typid, value) true t q ∧ ft_tag term = false.
Proof.
  intros Hn. unfold vfdw_filter_one. rewrite bool_decide_true by done. cbn [negb].
  destruct (filter_sides _ lhs rhs) as [[[f bound] on_left]|] eqn:Es; [clear Hn|done].
  case_bool_decide as Hb; [done|]. destruct (vfdw_filter_type_is_exact _); [|done]. cbn [negb].
  destruct (vfdw_filter_op_range opno on_left) as [[[lower ex] both]|] eqn:Eo; [|done]. intros [= <-] Hr.
  unfold render_term in Hr. cbn [ft_tag] in Hr. apply render_range_spec in Hr as (b & Eb & Hnan & ->).
  destruct (range_meaning _ _ _ _ _ f (Some bound) false Eo) as (name & En & Hm). cbn [ft_field].
  apply sides_column in Es as (Ef & col & Hcol & Hside & Hfield & Hop); [| |done].
  2:{ intros n x Hx. apply numeric_field_column in Hx as (c & ? & ? & _). by exists c. }
  destruct (numeric_field_column _ _ Ef) as (col' & Hc' & _ & Hsafe & Hidx). rewrite Hside in Hc'. injection Hc' as <-.
  set (term := FilterTerm f (Some bound) lower ex both false) in *.
  assert (Hends : (ends_of term b).1.2 ≠ F8NaN ∧ (ends_of term b).2.2 ≠ F8NaN).
  { unfold ends_of. destruct (ft_both term), (ft_lower term); done. }
  destruct Hends as [Hlo Hhi].
  destruct (range_text_parses f (ends_of term b).1 (ends_of term b).2 Hsafe Hlo Hhi) as (lo & hi & El & Eh & Hp).
  exists (QRange f ((ends_of term b).1.1, lo) ((ends_of term b).2.1, hi)). split; [split; [done|split; [done|]]|done].
  intros doc Hdoc. specialize (Hm (doc_num doc f) b lo hi (Hdoc f) El Eh). specialize (Hop doc b).
  unfold clause_holds. rewrite Hcol, Hidx, bool_decide_false by done. cbn [matches fst snd]. rewrite Hm.
  assert (Hsame : op_true name (operand doc b lhs) (operand doc b rhs)
    = op_true name (if on_left then doc_num doc f else b) (if on_left then b else doc_num doc f))
    by (destruct on_left; by injection Hop as -> ->).
  rewrite <- Hsame. split.
  - intros (name' & b' & En' & Eb' & Ht). rewrite Eb in Eb'. rewrite En in En'. by simplify_eq.
  - intros _ Ht. by exists name, b.
Qed.

(** A text the index compares as one tag: it is not of length zero, and if the
    wrapper can spell it the index does not separate tags at one of its
    characters, so that a field which holds just this text is matched by it. *)
Definition one_tag (u : bytes) : Prop := u ≠ "" ∧ (tag_is_plain u = true → tag_matches u u = true).

Lemma tag_term_means opno coll lhs rhs term value typid t :
  filter_sides (λ n, vfdw_filter_numeric_field n relid map) lhs rhs = None →
  vfdw_filter_one relid map (OpExpr opno BOOLOID coll [lhs; rhs]) = Some term →
  render_term term value typid = Ok (Some t) →
  one_tag (until_nul (OutputFunctionCall (getTypeOutputInfo typid).1 value)) →
  ft_tag term = true ∧ (t = "" ∨ ∃ q, means (OpExpr opno BOOLOID coll [lhs; rhs]) (typid, value) false t q).
Proof.
  intros Hn. unfold vfdw_filter_one. rewrite bool_decide_true by done. cbn [negb]. rewrite Hn.
  unfold vfdw_filter_tag_term. destruct (filter_sides (λ n, vfdw_filter_tag_field n relid map) lhs rhs) as [[[f bound] on_left]|] eqn:Es; [|by cbn].
  cbn [mbind option_bind]. case_bool_decide as Hb; [done|].
  destruct (vfdw_filter_op_is_equality opno) eqn:Eo; [|done]. intros [= <-] [= <-] [Hne Hself]. split; [done|].
  unfold vfdw_filter_render_tag. cbn [ft_field]. set (text := until_nul _) in *.
  destruct (tag_is_plain text) eqn:Et; [right|by left].
  apply sides_column in Es as (Ef & col & Hcol & Hside & Hfield & _); [| |done].
  2:{ intros n x Hx. apply tag_field_column in Hx as (c & ? & ? & _). by exists c. }
  destruct (tag_field_column _ _ Ef) as (col' & Hc' & Hf' & Hsafe & Hidx).
  rewrite Hside in Hc'. injection Hc' as <-.
  exists (QTag f text). split; [|split; [done|]].
  - intros rest. rewrite !append_assoc. simpl_app. unfold parse_term.
    rewrite split_at_app by (by apply (safe_name_without ":"%char)). cbn [mbind option_bind].
    rewrite split_at_app by (by apply (plain_tag_without "}"%char)). cbn [mbind option_bind].
    by rewrite bool_decide_false.
  - intros doc _. split; [|done]. unfold clause_holds. rewrite Hcol, Hidx, bool_decide_true by done.
    rewrite Hfield. cbn [matches default id fst snd]. intros [_ ->]. by apply Hself.
Qed.

Lemma term_means clause term value typid t :
  vfdw_filter_one relid map clause = Some term → render_term term value typid = Ok (Some t) →
  (ft_tag term = true → one_tag (until_nul (OutputFunctionCall (getTypeOutputInfo typid).1 value))) →
  (t = "" ∧ ft_tag term = true) ∨ ∃ q, means clause (typid, value) (negb (ft_tag term)) t q.
Proof.
  intros Hc Hr Hne. destruct clause as [| |opno rt coll args| | | |]; try done.
  destruct args as [|lhs [|rhs [|]]]; try done.
  destruct (bool_decide (rt = BOOLOID)) eqn:Ert; [apply bool_decide_eq_true in Ert as ->|by simpl in Hc; rewrite Ert in Hc].
  destruct (filter_sides (λ n, vfdw_filter_numeric_field n relid map) lhs rhs) as [p|] eqn:Es.
  - destruct (range_term_means opno coll lhs rhs term value typid t) as (q & Hq & Ht); [congruence|done..|].
    right. exists q. by rewrite Ht.
  - assert (Htag : ft_tag term = true).
    { unfold vfdw_filter_one in Hc. rewrite Es in Hc. unfold vfdw_filter_tag_term in Hc. rewrite bool_decide_true in Hc by done.
      cbn [negb] in Hc. destruct (filter_sides _ lhs rhs) as [[[f bound] b]|]; [|done]. cbn [mbind option_bind] in Hc.
      case_bool_decide; [done|]. destruct (vfdw_filter_op_is_equality opno); [|done]. by injection Hc as <-. }
    destruct (tag_term_means opno coll lhs rhs term value typid t Es Hc Hr (Hne Htag)) as [_ [->|(q & Hq)]]; [by left|].
    right. exists q. by rewrite Htag.
Qed.

Lemma render_cons term terms typid value bounds s :
  vfdw_filter_render (term :: terms) ((typid, Some value) :: bounds) = Ok (Some s) →
  ∃ t rest, render_term term value typid = Ok (Some t) ∧ vfdw_filter_render terms bounds = Ok (Some rest) ∧ s = t +:+ rest.
Proof.
  cbn [vfdw_filter_render]. destruct (render_term term value typid) as [[t|]|]; [|done|done]. cbn [mbind result_bind].
  destruct (vfdw_filter_render terms bounds) as [[rest|]|]; [|done|done]. cbn [mbind result_bind option_map].
  intros [= <-]. by exists t, rest.
Qed.

Lemma parse_terms_app t rest q n :
  t ≠ "" → (∀ r, parse_term (t +:+ r) = Some (q, r)) → (String.length (t +:+ rest) ≤ n)%nat →
  ∃ m, (String.length rest ≤ m)%nat ∧ parse_terms n (t +:+ rest) = cons q <$> parse_terms m rest.
Proof.
  intros Ht Hp Hn. rewrite length_append in Hn. destruct t as [|c t]; [done|]. simpl in Hn.
  destruct n as [|n]; [lia|]. exists n. split; [lia|]. specialize (Hp rest). simpl_app. cbn [parse_terms].
  by rewrite Hp.
Qed.

(** The bounds of a compiled filter, all with a value. *)
Abbreviation evaluated bounds := ((λ p : Z * Datum, (p.1, Some p.2)) <$> bounds).

(** What the tag columns are compared with are single tags to the index. *)
Definition tags_are_single (terms : list VfdwFilterTerm) (bounds : list (Z * Datum)) : Prop :=
  Forall2 (λ term p, ft_tag term = true →
    one_tag (until_nul (OutputFunctionCall (getTypeOutputInfo p.1).1 p.2))) terms bounds.

Lemma query_means_clauses clauses terms bounds s :
  vfdw_filter_compile relid map clauses = Some terms → tags_are_single terms bounds →
  vfdw_filter_render terms (evaluated bounds) = Ok (Some s) →
  ∃ qs, (∀ n, (String.length s ≤ n)%nat → parse_terms n s = Some qs) ∧ ∀ doc, numbered_doc doc →
    (Forall2 (clause_holds doc) clauses bounds → forallb (matches doc) qs = true) ∧
    (vfdw_filter_is_exact terms = true → forallb (matches doc) qs = true → Forall2 (clause_holds doc) clauses bounds).
Proof.
  intros Hc Ht. apply mapM_Some in Hc. revert clauses s Hc.
  induction Ht as [|term [typid value] terms bounds Htag Ht IH]; intros clauses s Hc Hr.
  - apply Forall2_nil_inv_r in Hc as ->. injection Hr as <-. exists []. split; [by intros [|n]|].
    intros doc _. split; [done|]. intros _ _. constructor.
  - apply Forall2_cons_inv_r in Hc as (c & clauses' & Hc1 & Hc & ->). rewrite fmap_cons in Hr.
    apply render_cons in Hr as (t & rest & Hr1 & Hr & ->). destruct (IH _ _ Hc Hr) as (qs & Hp & Hq).
    destruct (term_means _ _ _ _ _ Hc1 Hr1 Htag) as [[-> Hta]|(q & Hm1 & Hne & Hm2)].
    + exists qs. split; [done|]. intros doc Hd. destruct (Hq doc Hd) as [Q1 Q2]. split.
      * intros Hf. apply Forall2_cons_1 in Hf as [_ Hf]. by apply Q1.
      * simpl. by rewrite Hta.
    + exists (q :: qs). split.
      * intros n Hn. destruct (parse_terms_app t rest q n Hne Hm1 Hn) as (m & Hm & ->). by rewrite Hp.
      * intros doc Hd. destruct (Hq doc Hd) as [Q1 Q2]. destruct (Hm2 doc Hd) as [M1 M2]. split.
        { intros Hf. apply Forall2_cons_1 in Hf as [Hf1 Hf]. simpl. by rewrite M1, Q1. }
        simpl. rewrite !andb_true_iff. intros [E1 E2] [F1 F2]. constructor; [by apply M2|by apply Q2].
Qed.
End facts.

(** C26: the query a WHERE clause is compiled into means what the clause means,
    when it has one: when every bound can be rendered (which a NaN cannot) and
    every text a tag column is compared with is a single tag to the index, not
    cut at the index's separator.  The text that is sent then parses as terms of
    the query language, and it matches every document on whose indexed numbers
    and texts all clauses hold; when no term is a tag it matches no other, so the
    k nearest documents of the filter are the k nearest rows of the query.
    Exclusive and infinite ends, operators with the column on either side and
    tags that cannot be spelled are included.  The clauses are about the number
    the index holds, a double, and the bound widened to one, which for a float4
    column need not be the number in the row. *)
Theorem filter_query_means_the_clauses `{TypeCatalog} `{PgTypes} `{!FilterCatalog} `{!SearchServer} `{!SearchLaws}
    relid map clauses terms bounds s :
  vfdw_filter_compile relid map clauses = Some terms → tags_are_single terms bounds →
  vfdw_filter_render terms ((λ p : Z * Datum, (p.1, Some p.2)) <$> bounds) = Ok (Some s) →
  ∃ qs, parse_query s = Some qs ∧ ∀ doc, numbered_doc doc →
    (Forall2 (clause_holds relid map doc) clauses bounds → forallb (matches doc) qs = true) ∧
    (vfdw_filter_is_exact terms = true →
       forallb (matches doc) qs = true → Forall2 (clause_holds relid map doc) clauses bounds).
Proof.
  intros Hc Ht Hr. destruct (query_means_clauses _ _ _ _ _ _ Hc Ht Hr) as (qs & Hp & Hq).
  exists qs. split; [by apply Hp|exact Hq].
Qed.

(* ---------------------------------------------------------------- *)
(** ** A vector table to run it on *)

#[local] Existing Instance sample_types.
#[local] Existing Instance sample_catalog.

(** Fractions printed as a numerator and a denominator, operators by number. *)
#[local] Instance sample_filter : FilterCatalog := {|
  get_opname opno := ["="; "<"; "<="; ">"; ">="; "<->"] !! Z.to_nat opno;
  DatumGetInt16 d := match d with SInt z => z | _ => 0 end;
  DatumGetInt32 d := match d with SInt z => z | _ => 0 end;
  DatumGetFloat4 d := match d with SInt z => F8 (inject_Z z) | _ => F8NaN end;
  DatumGetFloat8 d :=
    match d with
    | SInt z => F8 (inject_Z z)
    | SText b => if bool_decide (b = "-Infinity") then F8Inf true else if bool_decide (b = "Infinity") then F8Inf false else F8NaN
    | _ => F8NaN
    end;
  float8out q := dec (Qnum q) +:+ "/" +:+ dec (Zpos (Qden q));
|}.

#[local] Instance sample_search : SearchServer := {|
  read_number s :=
    '(n, d) ← split_at "/" s; n ← undec n; d ← undec d;
    match d with Zpos d => Some (n # d)%Q | _ => None end;
  tag_matches s t := bool_decide (s = t);
|}.

Lemma dec_char_plain c z : occurs c (dec z) = true → c ≠ " "%char ∧ c ≠ "]"%char ∧ c ≠ "("%char ∧ c ≠ "/"%char ∧ c ≠ "+"%char.
Proof.
  intros [Hd| ->]%dec_chars; [|done]. apply bool_decide_eq_true in Hd.
  split_and!; intros ->; destruct Hd as [Hl Hh]; first [by apply Hl|by apply Hh].
Qed.

#[local] Instance sample_search_laws : SearchLaws.
Proof.
  split.
  - intros [n d]. exists (n # d)%Q. split; [|reflexivity]. cbn [read_number sample_search float8out sample_filter Qnum Qden].
    simpl_app. rewrite split_at_app; [cbn [mbind option_bind]; by rewrite !undec_dec|].
    destruct (occurs "/" (dec n)) eqn:E; [|done]. apply dec_char_plain in E as (_ & _ & _ & [] & _). done.
  - intros q c. cbn [float8out sample_filter]. rewrite !occurs_app, !orb_true_iff. intros [Hc|[Hc|Hc]].
    + by apply dec_char_plain in Hc as (? & ? & ? & _).
    + change "/" with (String "/" "") in Hc. rewrite occurs_head, orb_true_iff, bool_decide_eq_true in Hc.
      destruct Hc as [<-|]; done.
    + by apply dec_char_plain in Hc as (? & ? & ? & _).
  - intros q. cbn [float8out sample_filter].
    assert (Ho : occurs "/" (dec (Qnum q) +:+ "/" +:+ dec (Zpos (Qden q))) = true).
    { rewrite !occurs_app. change (occurs "/" "/") with true. by rewrite orb_true_r. }
    split_and!; intros E; rewrite E in Ho; done.
Defined.

(** Products: an embedding, a price, a colour. *)
Definition shop_tupdesc : list Form_pg_attribute :=
  [Attribute "key" TEXTOID (-1) false [];
   Attribute "price" INT4OID (-1) false [("field", "price"); ("index_type", "numeric")];
   Attribute "colour" TEXTOID (-1) false [("field", "colour"); ("index_type", "tag")];
   Attribute "emb" TEXTOID (-1) false [("field", "emb"); ("index_type", "vector")]].

Definition shop_map : VfdwTableMap :=
  match vfdw_map_build sample_parse_bool 4712 shop_tupdesc [("tabletype", "vector"); ("search_index", "shop")] with
  | Ok m => m
  | Raise _ => TableMap 0 [] 0 0 0 0 default_table_options 0 0 false 0
  end.

(** price >= 10 AND 20 > price AND colour = 'red'. *)
Definition shop_clauses : list Node :=
  [OpExpr 4 BOOLOID 0 [Var 1 0 2 INT4OID; Const INT4OID (Some (SInt 10))];
   OpExpr 3 BOOLOID 0 [Const INT4OID (Some (SInt 20)); Var 1 0 2 INT4OID];
   OpExpr 0 BOOLOID 100 [Var 1 0 3 TEXTOID; Const TEXTOID (Some (SText "red"))]].
Definition shop_bounds : list (Z * Datum) := [(INT4OID, SInt 10); (INT4OID, SInt 20); (TEXTOID, SText "red")].
Definition shop_terms : list VfdwFilterTerm := default [] (vfdw_filter_compile 1 shop_map shop_clauses).

Lemma filter_query_means_the_clauses_witness :
  ∃ s qs, vfdw_filter_render shop_terms ((λ p : Z * Datum, (p.1, Some p.2)) <$> shop_bounds) = Ok (Some s) ∧
    s = "@price:[10/1 +inf] @price:[-inf (20/1] @colour:{red} " ∧ parse_query s = Some qs ∧
    ∀ doc, numbered_doc doc →
      (Forall2 (clause_holds 1 shop_map doc) shop_clauses shop_bounds → forallb (matches doc) qs = true) ∧
      (vfdw_filter_is_exact shop_terms = true →
         forallb (matches doc) qs = true → Forall2 (clause_holds 1 shop_map doc) shop_clauses shop_bounds).
Proof.
  set (s := "@price:[10/1 +inf] @price:[-inf (20/1] @colour:{red} "). 
  destruct (filter_query_means_the_clauses 1 shop_map shop_clauses shop_terms shop_bounds s) as (qs & Hp & Hq).
  - vm_compute. reflexivity.
  - by repeat constructor.
  - vm_compute. reflexivity.
  - exists s, qs. split; [vm_compute; reflexivity|]. split; [reflexivity|]. split; [exact Hp|exact Hq].
Defined.

(* ---------------------------------------------------------------- *)
(** ** Where it does not *)

Definition price8_map : VfdwTableMap :=
  match vfdw_map_build sample_parse_bool 4713
    [Attribute "key" TEXTOID (-1) false [];
     Attribute "price" FLOAT8OID (-1) false [("field", "price"); ("index_type", "numeric")]]
    [("tabletype", "vector"); ("search_index", "shop")] with
  | Ok m => m
  | Raise _ => TableMap 0 [] 0 0 0 0 default_table_options 0 0 false 0
  end.

Definition price_compared (opno : Z) (bound : Datum) : Node :=
  OpExpr opno BOOLOID 0 [Var 1 0 2 FLOAT8OID; Const FLOAT8OID (Some bound)].

(** A bound that is NaN makes the search answer no row at all, but PostgreSQL
    orders NaN above every number, so price < 'NaN' holds of every product. *)
Theorem nan_bound_loses_rows :
  ∃ terms, vfdw_filter_compile 1 price8_map [price_compared 1 (SText "NaN")] = Some terms ∧
    vfdw_filter_render terms [(FLOAT8OID, Some (SText "NaN"))] = Ok None ∧
    ∀ doc, numbered_doc doc → clause_holds 1 price8_map doc (price_compared 1 (SText "NaN")) (FLOAT8OID, SText "NaN").
Proof.
  eexists. split; [vm_compute; reflexivity|]. split; [vm_compute; reflexivity|]. intros doc Hd.
  exists "<", F8NaN. split; [reflexivity|]. split; [reflexivity|].
  specialize (Hd "price"). unfold operand.
  set (c := filter_column (Var 1 0 2 FLOAT8OID) 1 price8_map). vm_compute in c. unfold c.
  set (c' := filter_column (Const FLOAT8OID _) 1 price8_map). vm_compute in c'. unfold c'.
  cbn [col_field default id]. by destruct (doc_num doc "price").
Qed.

(** Equality with an infinity is refused, unless it is the negative one. *)
Theorem negative_infinity_is_not_refused :
  ∃ terms, vfdw_filter_compile 1 price8_map [price_compared 0 (SText "Infinity")] = Some terms ∧
    vfdw_filter_render terms [(FLOAT8OID, Some (SText "Infinity"))] =
      Raise (PgError ERRCODE_FEATURE_NOT_SUPPORTED "cannot search for a field equal to infinity") ∧
    vfdw_filter_render terms [(FLOAT8OID, Some (SText "-Infinity"))] = Ok (Some "@price:[-inf -inf] ").
Proof. eexists. split; [vm_compute; reflexivity|]. vm_compute. by split. Qed.
