(* ===== verification/Knn.v ===== *)
(** Recognising a nearest-neighbour query (src/vfdw_knn.c): the one shape a
    vector table answers, what is missing from the others, and the plan a match
    becomes (vfdw_plan_search of src/vfdw_plan.c).

    [PlannerInfo] holds what the matcher reads of the planner's state; a pathkey
    is its direction and the members of its equivalence class. *)
From S2P Require Import Prelude Opcode Option TableMap ScanCmd Filter.
Local Open Scope Z_scope.

Section knn.
Context `{TypeCatalog} `{PgTypes} `{!FilterCatalog}.

Definition vfdw_knn_operators : list (bytes * bytes) := [("<->", "L2"); ("<=>", "COSINE"); ("<#>", "IP")].

Definition vfdw_knn_metric_for (opno : Z) : option bytes :=
  name ← get_opname opno; snd <$> find (λ p, bool_decide (name = p.1)) vfdw_knn_operators.

Definition vfdw_knn_vector_field (node : Node) (relid : Z) (map : VfdwTableMap) : option bytes :=
  col ← filter_column node relid map;
  if negb (bool_decide (col_kind col = VFDW_COL_FIELD)) || negb (bool_decide (col_index_type col = VFDW_INDEX_VECTOR))
  then None
  else col_field col.

Record PathKey := MkPathKey { pk_is_asc : bool; pk_nulls_first : bool; ec_members : list Node }.

Record PlannerInfo := MkPlannerInfo {
  query_pathkeys : list PathKey;
  is_select : bool;
  (* groupClause, groupingSets, distinctClause, havingQual, window functions,
     aggregates or set operations *)
  consumes_rows : bool;
  (* of this relation *)
  has_joininfo : bool;
  baserestrictinfo : list Node;
  (* the relations of the query that are RELOPT_BASEREL *)
  nbase : Z;
  limit_tuples : Z;
}.

Record VfdwKnnPlan := KnnPlan {
  knn_field : bytes;
  knn_metric : bytes;
  knn_qvec : Node;
  knn_k : Z;
  knn_filter : list VfdwFilterTerm;
}.

Definition INT_MAX : Z := 2 ^ 31 - 1.

(** The field, the metric and the query vector. *)
Definition vfdw_knn_match_opexpr (relid : Z) (map : VfdwTableMap) (expr : Node) : option (bytes * bytes * Node) :=
  match expr with
  | OpExpr opno opresulttype _ [lhs; rhs] =>
      if negb (bool_decide (opresulttype = FLOAT8OID)) then None
      else
        metric ← vfdw_knn_metric_for opno;
        '(field, other, _) ← filter_sides (λ n, vfdw_knn_vector_field n relid map) lhs rhs;
        if bool_decide (relid ∈ pull_varnos other) then None else Some (field, metric, other)
  | _ => None
  end.

(** The first member of the equivalence class that matches. *)
Fixpoint match_members (relid : Z) (map : VfdwTableMap) (members : list Node) : option (bytes * bytes * Node) :=
  match members with
  | [] => None
  | em :: rest =>
      match vfdw_knn_match_opexpr relid map (strip_implicit_coercions em) with
      | Some m => Some m
      | None => match_members relid map rest
      end
  end.

Definition vfdw_knn_match_order (root : PlannerInfo) (relid : Z) (map : VfdwTableMap) : option (bytes * bytes * Node) :=
  match query_pathkeys root with
  | [pk] => if negb (pk_is_asc pk) || pk_nulls_first pk then None else match_members relid map (ec_members pk)
  | _ => None
  end.

Definition vfdw_knn_scan_owns_limit (root : PlannerInfo) : bool :=
  is_select root && negb (consumes_rows root) && negb (has_joininfo root) && bool_decide (nbase root = 1)
  && bool_decide (1 ≤ limit_tuples root ≤ INT_MAX).

Definition restrictinfo_clause (n : Node) : Node := match n with RestrictInfo c => c | n => n end.

Definition vfdw_knn_clauses (root : PlannerInfo) : list Node := restrictinfo_clause <$> baserestrictinfo root.

Definition vfdw_knn_match (root : PlannerInfo) (relid : Z) (map : VfdwTableMap) : option VfdwKnnPlan :=
  if negb (bool_decide (map_tabletype map = VFDW_TABLE_VECTOR)) then None
  else if negb (vfdw_knn_scan_owns_limit root) then None
  else
    '(field, metric, qvec) ← vfdw_knn_match_order root relid map;
    filter ← vfdw_filter_compile relid map (vfdw_knn_clauses root);
    Some (KnnPlan field metric qvec (limit_tuples root) filter).

Definition vfdw_knn_missing (root : PlannerInfo) (relid : Z) (map : VfdwTableMap) : string :=
  match query_pathkeys root, vfdw_knn_match_order root relid map with
  | [], _ => "the query has no ORDER BY, so there is no query vector to search for and no order to return rows in"
  | _, None => "the ORDER BY is not " +:+ quoted "<vector column> <-> <expression>"
               +:+ " ascending, using a column that declares index_type 'vector'"
  | _, Some _ =>
      if has_joininfo root
      then "the query joins this table to another, so the LIMIT bounds the join's output rather than this scan's"
      else match vfdw_filter_compile relid map (vfdw_knn_clauses root) with
           | None => filter_why
           | Some _ =>
               if negb (is_select root) then "only SELECT reads a vector table"
               else if bool_decide (limit_tuples root < 1)
               then "the query has no LIMIT, or its LIMIT is not a constant, so there is no k to search for"
               else "the LIMIT does not bound this scan alone - a join, a grouping or a second table stands between it and the rows the search returns"
           end
  end.

(** The detail of the error is [vfdw_knn_missing]. *)
Definition vfdw_knn_refuse : pg_error :=
  PgError ERRCODE_FEATURE_NOT_SUPPORTED "this query cannot be answered by a vector search".

(** [options] are those of the table's server. *)
Definition vfdw_knn_require_standalone (parse_bool : bytes → option bool) (options : list DefElem) : result unit :=
  o ← vfdw_read_server_options parse_bool options;
  if negb (so_cluster o) then Ok ()
  else Raise (PgError ERRCODE_FEATURE_NOT_SUPPORTED "cannot search a Valkey Cluster").

(** The rows and whether the ordering is the query's, of GetForeignPaths. *)
Definition vfdwKnnPathkeys (parse_bool : bytes → option bool) (options : list DefElem) (root : PlannerInfo)
    (relid : Z) (map : VfdwTableMap) (rows : Z) : result (Z * list PathKey) :=
  if negb (bool_decide (map_tabletype map = VFDW_TABLE_VECTOR)) then Ok (rows, [])
  else
    _ ← vfdw_knn_require_standalone parse_bool options;
    match vfdw_knn_match root relid map with
    | None => Raise vfdw_knn_refuse
    | Some knn => Ok (knn_k knn, query_pathkeys root)
    end.

(* ---------------------------------------------------------------- *)
(** ** The private list of a plan *)

(** fdw_private, with the expressions of fdw_exprs beside it. *)
Record PlanPrivate := MkPrivate {
  priv_strategy : VfdwScanStrategy;
  priv_keys : list bytes;
  priv_pattern : option bytes;
  priv_knn_field : option bytes;
  priv_knn_metric : option bytes;
  priv_knn_k : Z;
  priv_filter : list (bytes * Z);
  priv_exprs : list Node;
}.

Definition vfdw_plan_private (strategy : VfdwScanStrategy) (keys : list bytes) (pattern : option bytes)
    (knn : option VfdwKnnPlan) (filter : list (bytes * Z)) (exprs : list Node) : PlanPrivate :=
  MkPrivate strategy keys pattern (knn_field <$> knn) (knn_metric <$> knn) (from_option knn_k 0 knn) filter exprs.

(** The query vector first, then the bounds. *)
Definition vfdw_plan_search (root : PlannerInfo) (relid : Z) (map : VfdwTableMap) : result PlanPrivate :=
  match vfdw_knn_match root relid map with
  | None => Raise vfdw_knn_refuse
  | Some knn =>
      let '(filter, exprs) := vfdw_filter_encode (knn_filter knn) [knn_qvec knn] in
      Ok (vfdw_plan_private VFDW_SCAN_KNN [] None (Some knn) filter exprs)
  end.
End knn.
