(* ===== verification/SearchInfo.v ===== *)
(** Asking the index what it is (src/vfdw_search_info.c): the pairs of FT.INFO,
    and the checks that the index is the one the query means.  *)
From S2P Require Import Prelude Opcode Error Cmd TableMap Ttl Vec Row Filter.
Local Open Scope Z_scope.

Definition missing_element : pg_error :=
  PgError ERRCODE_FDW_ERROR "a Valkey aggregate reply is missing an element it declared".

Fixpoint info_sub_loop (l : list (option Reply)) (name : bytes) : result (option Reply) :=
  match l with
  | None :: _ :: _ => Raise missing_element
  | Some k :: v :: rest =>
      if bool_decide (r_str k = Some name)
      then match v with Some v => Ok (Some v) | None => Raise missing_element end
      else info_sub_loop rest name
  | _ => Ok None
  end.

Definition vfdw_info_sub (reply : option Reply) (name : bytes) : result (option Reply) :=
  match reply with
  | None => Ok None
  | Some r => if negb (is_aggregate r) then Ok None else info_sub_loop (elements r) name
  end.

Definition vfdw_info_str (reply : option Reply) (name : bytes) : result (option bytes) :=
  match reply with
  | None => Ok None
  | Some r =>
      if negb (is_aggregate r) then Ok None
      else v ← vfdw_scan_hash_lookup r name; Ok (option_map until_nul (v ≫= id))
  end.

Definition vfdw_info_int (reply : option Reply) (name : bytes) : result Z :=
  v ← vfdw_info_sub reply name;
  Ok (match v with
      | Some v => if bool_decide (r_type v = VALKEY_REPLY_INTEGER) then r_integer v else -1
      | None => -1
      end).

Fixpoint find_attribute (attrs : list (option Reply)) (field : bytes) : result (option Reply) :=
  match attrs with
  | [] => Ok None
  | None :: _ => Raise missing_element
  | Some attr :: rest =>
      id ← vfdw_info_str (Some attr) "identifier";
      if bool_decide (id = Some field) then Ok (Some attr) else find_attribute rest field
  end.

Definition vfdw_info_attribute (info : option Reply) (field : bytes) : result (option Reply) :=
  attrs ← vfdw_info_sub info "attributes";
  match attrs with
  | Some a => if negb (bool_decide (r_type a = VALKEY_REPLY_ARRAY)) then Ok None else find_attribute (elements a) field
  | None => Ok None
  end.

Section verify.
Context `{PgTypes}.

(** The part of VfdwKnnScan the plan settles. *)
Record KnnQuery := MkKnnQuery {
  kq_index : bytes;
  kq_field : bytes;
  kq_metric : bytes;
  kq_k : Z;
  kq_terms : list VfdwFilterTerm;
  kq_exact : bool;
}.

Definition vfdw_search_vector_attr (knn : KnnQuery) (info : option Reply) : result (option Reply) :=
  attr ← vfdw_info_attribute info (kq_field knn);
  match attr with
  | None => Raise (PgError ERRCODE_UNDEFINED_COLUMN
                     ("index " +:+ quoted (kq_index knn) +:+ " has no field " +:+ quoted (kq_field knn)))
  | Some attr =>
      type ← vfdw_info_str (Some attr) "type";
      if negb (bool_decide (type = Some "VECTOR"))
      then Raise (PgError ERRCODE_DATATYPE_MISMATCH
                    ("field " +:+ quoted (kq_field knn) +:+ " of index " +:+ quoted (kq_index knn) +:+ " is not a vector"))
      else vfdw_info_sub (Some attr) "index"
  end.

Definition vfdw_search_check_layout (knn : KnnQuery) (idx : option Reply) (qbytes : Z) : result unit :=
  dtype ← vfdw_info_str idx "data_type";
  if negb (bool_decide (dtype = Some "FLOAT32"))
  then Raise (PgError ERRCODE_FEATURE_NOT_SUPPORTED
                ("index " +:+ quoted (kq_index knn) +:+ " stores " +:+ default "unreadable" dtype
                 +:+ " vectors, which this wrapper does not encode"))
  else
    dims ← vfdw_info_int idx "dimensions";
    if bool_decide (0 < dims) && negb (bool_decide (qbytes = u64 (dims * 4)))
    then Raise (PgError ERRCODE_DATATYPE_MISMATCH
                  ("the query vector has " +:+ dec (qbytes / 4) +:+ " dimensions and index "
                   +:+ quoted (kq_index knn) +:+ " has " +:+ dec dims))
    else Ok ().

Definition vfdw_search_verify (knn : KnnQuery) (info : option Reply) (qbytes : Z) : result unit :=
  _ ← (if vfdw_reply_is_error info
       then vfdw_reply_expect info (Z.lor (VFDW_RTYPE VALKEY_REPLY_ARRAY) (VFDW_RTYPE VALKEY_REPLY_MAP)) "FT.INFO"
       else Ok ());
  idx ← vfdw_search_vector_attr knn info;
  metric ← vfdw_info_str idx "distance_metric";
  if negb (bool_decide (metric = Some (kq_metric knn)))
  then Raise (PgError ERRCODE_DATATYPE_MISMATCH
                ("the ORDER BY operator measures " +:+ kq_metric knn +:+ " and index " +:+ quoted (kq_index knn)
                 +:+ " measures " +:+ default "something this wrapper could not read" metric))
  else vfdw_search_check_layout knn idx qbytes.
End verify.
