(* ===== verification/Search.v ===== *)
(** Running a nearest-neighbour search (src/vfdw_search.c): the two commands, the
    rows of the reply, and asking again for more when the query's own quals took
    too many of them away.

    Evaluating an expression and a qual are parameters: [qvec] and [bounds] are
    the query vector and the filter's bounds as types with values, [row_wanted]
    is ExecQual.  The endless loop carries fuel. *)
From S2P Require Import Prelude Opcode Error Cmd TableMap Ttl Vec Row Cluster Filter Knn SearchInfo.
Local Open Scope Z_scope.

Definition VFDW_SEARCH_MAX_K : Z := 65536.

(** The part of VfdwKnnScan that moves. *)
Record KnnPass := MkKnnPass {
  kn_empty : bool;
  kn_reply : option Reply;
  kn_row : nat;
  kn_ran : bool;
  kn_emitted : Z;
  kn_fetched_k : Z;
  kn_returned : Z;
  kn_survivors : Z;
}.

Definition vfdw_search_reset : KnnPass := MkKnnPass false None 0 false 0 0 0 0.

Inductive VfdwRowFate := VFDW_ROW_SKIP | VFDW_ROW_EMIT | VFDW_ROW_DONE.

Section search.
Context `{TypeCatalog} `{PgTypes} `{Float4IO} `{!FilterCatalog}.
Context {P : Type} (serve : list bytes → P → Reply * P).
Abbreviation Slot := (list (option Datum)).
Context (knn : KnnQuery) (rowctx : VfdwRowCtx).
Context (qvec : Z * option Datum) (bounds : list (Z * option Datum)) (row_wanted : Slot → bool).

Record SearchWorld := MkSearchWorld { kw_pass : KnnPass; kw_batch : BatchState (P := P) }.

Definition set_pass (f : KnnPass → KnnPass) : M SearchWorld unit :=
  modify (λ w, MkSearchWorld (f (kw_pass w)) (kw_batch w)).
Definition batch {A} (m : M (BatchState (P := P)) A) : M SearchWorld A := λ w,
  let '(r, b) := m (kw_batch w) in (r, MkSearchWorld (kw_pass w) b).
Definition result_of {A} (r : result A) : M SearchWorld A := λ w, (r, w).

Definition vfdw_search_qvec : result bytes :=
  match qvec.2 with
  | None => Raise (PgError ERRCODE_NULL_VALUE_NOT_ALLOWED "the query vector is NULL")
  | Some v => vfdw_vec_from_text (OutputFunctionCall (getTypeOutputInfo qvec.1).1 v) "the query vector"
  end.

Definition search_query (fetched_k : Z) (q : bytes) : bytes :=
  (if bool_decide (q = "") then "*" else q) +:+ "=>[KNN " +:+ dec fetched_k +:+ " @" +:+ kq_field knn
  +:+ " $q AS " +:+ VFDW_SEARCH_DIST_ALIAS +:+ "]".

(** None when a bound says that no row can match. *)
Definition vfdw_search_add_query (cmd : VfdwCmd) (fetched_k : Z) (qv : bytes) : result (option VfdwCmd) :=
  q ← vfdw_filter_render (kq_terms knn) bounds;
  Ok (match q with
      | None => None
      | Some q =>
          let cmd := vfdw_cmd_add_cstr cmd "FT.SEARCH" in
          let cmd := vfdw_cmd_add_cstr cmd (kq_index knn) in
          let cmd := vfdw_cmd_add_cstr cmd (search_query fetched_k q) in
          let cmd := vfdw_cmd_add_cstr cmd "PARAMS" in
          let cmd := vfdw_cmd_add_cstr cmd "2" in
          let cmd := vfdw_cmd_add_cstr cmd "q" in
          let cmd := vfdw_cmd_add_bytes cmd qv in
          let cmd := vfdw_cmd_add_cstr cmd "DIALECT" in
          Some (vfdw_cmd_add_cstr cmd "2")
      end).

Definition vfdw_search_unsatisfiable (qlen : Z) : M SearchWorld unit :=
  info ← batch (vfdw_batch_next serve);
  result_of (vfdw_search_verify knn info qlen);;;
  set_pass (λ p, MkKnnPass true (kn_reply p) (kn_row p) true (kn_emitted p) (kn_fetched_k p) (kn_returned p) (kn_survivors p)).

Definition info_cmd : VfdwCmd := vfdw_cmd_add_cstr (vfdw_cmd_add_cstr (vfdw_cmd_init 10) "FT.INFO") (kq_index knn).

(** The length of the query vector when there is something to ask. *)
Definition vfdw_search_send : M SearchWorld (option Z) :=
  qv ← result_of vfdw_search_qvec;
  batch (vfdw_batch_add serve info_cmd);;;
  (fetched_k ← gets (λ w, kn_fetched_k (kw_pass w));
   cmd ← result_of (vfdw_search_add_query (vfdw_cmd_reset info_cmd) fetched_k qv);
   match cmd with
   | None => vfdw_search_unsatisfiable (blen qv);;; mret None
   | Some cmd => batch (vfdw_batch_add serve cmd);;; mret (Some (blen qv))
   end).

(** ((elements - 1) / 2) of a size_t, cast to int. *)
Definition rows_returned (n : nat) : Z := int32 (u64 (Z.of_nat n - 1) / 2).

Definition vfdw_search_run : M SearchWorld unit :=
  p ← gets kw_pass;
  if kn_ran p then mret () else
  when (bool_decide (kn_fetched_k p = 0))
    (set_pass (λ p, MkKnnPass (kn_empty p) (kn_reply p) (kn_row p) (kn_ran p) (kn_emitted p) (kq_k knn) (kn_returned p) (kn_survivors p)));;;
  (sent ← vfdw_search_send;
   match sent with
   | None => mret ()
   | Some qlen =>
       info ← batch (vfdw_batch_next serve);
       result_of (vfdw_search_verify knn info qlen);;;
       (reply ← batch (vfdw_batch_next serve);
        set_pass (λ p, MkKnnPass (kn_empty p) reply (kn_row p) (kn_ran p) (kn_emitted p) (kn_fetched_k p) (kn_returned p) (kn_survivors p));;;
        result_of (vfdw_reply_expect reply (Z.lor (VFDW_RTYPE VALKEY_REPLY_ARRAY) (VFDW_RTYPE VALKEY_REPLY_MAP)) "FT.SEARCH");;;
        set_pass (λ p, MkKnnPass (kn_empty p) (kn_reply p) 0 true (kn_emitted p) (kn_fetched_k p)
                         (rows_returned (length (from_option elements [] (kn_reply p)))) (kn_survivors p)))
   end).

Definition vfdw_search_grow : M SearchWorld bool :=
  p ← gets kw_pass;
  if kq_exact knn || bool_decide (kq_k knn ≤ kn_emitted p) then mret false
  else if bool_decide (kn_returned p < kn_fetched_k p) then mret false
  else if bool_decide (VFDW_SEARCH_MAX_K ≤ kn_fetched_k p)
  then raise (PgError ERRCODE_PROGRAM_LIMIT_EXCEEDED
                ("gave up over-fetching a vector search after " +:+ dec (kn_fetched_k p) +:+ " rows"))
  else
    let more := if bool_decide (kn_fetched_k p < VFDW_SEARCH_MAX_K / 2) then kn_fetched_k p * 2 else VFDW_SEARCH_MAX_K in
    set_pass (λ p, MkKnnPass (kn_empty p) (kn_reply p) 0 false (kn_emitted p) more (kn_returned p) 0);;;
    vfdw_search_run;;;
    mret true.

Definition count_survivor (p : KnnPass) : KnnPass :=
  MkKnnPass (kn_empty p) (kn_reply p) (kn_row p) (kn_ran p) (kn_emitted p) (kn_fetched_k p) (kn_returned p) (kn_survivors p + 1).
Definition count_emitted (p : KnnPass) : KnnPass :=
  MkKnnPass (kn_empty p) (kn_reply p) (kn_row p) (kn_ran p) (kn_emitted p + 1) (kn_fetched_k p) (kn_returned p) (kn_survivors p).

(** The slot behind EMIT is the row; behind the others it is empty. *)
Definition vfdw_search_take_row (key fields : Reply) : M SearchWorld (VfdwRowFate * option Slot) :=
  match r_str key with
  | None => mret (VFDW_ROW_SKIP, None)
  | Some k =>
      if negb (bool_decide (r_type fields = VALKEY_REPLY_ARRAY)) then mret (VFDW_ROW_SKIP, None)
      else
        slot ← result_of (vfdw_scan_fill rowctx k fields);
        if negb (row_wanted slot) then mret (VFDW_ROW_SKIP, None)
        else
          set_pass count_survivor;;;
          (p ← gets kw_pass;
           if bool_decide (kn_survivors p ≤ kn_emitted p) then mret (VFDW_ROW_SKIP, None)
           else if bool_decide (kq_k knn ≤ kn_emitted p) then mret (VFDW_ROW_DONE, None)
           else set_pass count_emitted;;; mret (VFDW_ROW_EMIT, Some slot))
  end.

Definition next_row (p : KnnPass) : KnnPass :=
  MkKnnPass (kn_empty p) (kn_reply p) (S (kn_row p)) (kn_ran p) (kn_emitted p) (kn_fetched_k p) (kn_returned p) (kn_survivors p).

Fixpoint search_loop (fuel : nat) : M SearchWorld (option Slot) :=
  match fuel with
  | O => raise (elog_error "out of fuel")
  | S n =>
      p ← gets kw_pass;
      match kn_reply p with
      | None => raise (elog_error "no reply")
      | Some reply =>
          let keyat := (kn_row p * 2 + 1)%nat in
          if bool_decide (length (elements reply) ≤ keyat + 1)%nat then
            more ← vfdw_search_grow;
            if (more : bool) then search_loop n else mret None
          else
            key ← result_of (vfdw_reply_child reply keyat);
            fields ← result_of (vfdw_reply_child reply (keyat + 1));
            set_pass next_row;;;
            ('(fate, slot) ← vfdw_search_take_row key fields;
             match fate with
             | VFDW_ROW_SKIP => search_loop n
             | VFDW_ROW_EMIT | VFDW_ROW_DONE => mret slot
             end)
      end
  end.

Definition vfdw_search_next (fuel : nat) : M SearchWorld (option Slot) :=
  vfdw_search_run;;;
  (p ← gets kw_pass;
   if kn_empty p then mret None else search_loop fuel).

(** The executor's loop: rows until the slot comes back empty. *)
Fixpoint search_rows (calls fuel : nat) : M SearchWorld (list Slot) :=
  match calls with
  | O => raise (elog_error "out of fuel")
  | S n =>
      r ← vfdw_search_next fuel;
      match r with
      | None => mret []
      | Some row => rest ← search_rows n fuel; mret (row :: rest)
      end
  end.
End search.

(** What the plan settled. *)
Definition vfdw_search_adopt `{PgTypes} (map : VfdwTableMap) (priv : PlanPrivate) : KnnQuery :=
  let terms := vfdw_filter_decode (priv_filter priv) in
  MkKnnQuery (default "" (to_search_index (map_options map))) (default "" (priv_knn_field priv))
    (default "" (priv_knn_metric priv)) (priv_knn_k priv) terms (vfdw_filter_is_exact terms).

(** fdw_exprs: the query vector, then the bounds. *)
Definition vfdw_search_init {A} (states : list A) : option (A * list A) :=
  match states with q :: bounds => Some (q, bounds) | [] => None end.
