(* ===== verification/SearchFacts.v ===== *)
(** What a nearest-neighbour search returns (src/vfdw_search.c): whatever the
    number of times it has to ask again, the first k rows of the ranking that
    satisfy the query, each once; and when an index is accepted for a query. *)
From Stdlib Require Import QArith.
From S2P Require Import Prelude Opcode Option OptionFacts Error Cmd CmdFacts ScriptFacts TableMap TableMapFacts Ttl Vec Row.
From S2P Require Import ScanCmd RowFacts ValFacts Cluster Filter FilterFacts Knn SearchInfo Search.
Local Open Scope Z_scope.

Section facts.
Context `{TypeCatalog} `{PgTypes} `{Float4IO} `{!FilterCatalog}.
Context {P : Type} (serve : list bytes → P → Reply * P) (peer : P).
Hypothesis unmoved : ∀ c, (serve c peer).2 = peer.
Abbreviation Slot := (list (option Datum)).
Context (knn : KnnQuery) (rowctx : VfdwRowCtx).
Context (qvec : Z * option Datum) (bounds : list (Z * option Datum)) (row_wanted : Slot → bool).
(** The query vector and the filter as they are sent, and the ranking. *)
Context (qv q : bytes) (info : Reply) (docs : list (bytes * Reply)) (rows : list Slot).

Definition hit_replies (l : list (bytes * Reply)) : list Reply := concat ((λ d : bytes * Reply, [string_reply d.1; d.2]) <$> l).
Definition search_reply (l : list (bytes * Reply)) : Reply :=
  array_reply (integer_reply (Z.of_nat (length l)) :: hit_replies l).

Definition info_words : list bytes := ["FT.INFO"; until_nul (kq_index knn)].
Definition search_words (k : Z) : list bytes :=
  ["FT.SEARCH"; until_nul (kq_index knn); until_nul (search_query knn k q); "PARAMS"; "2"; "q"; qv; "DIALECT"; "2"].

(** A server whose index is the one the query means, that ranks [docs] for it and
    answers a search for k with the first k; the rows are what the documents read
    as. *)
Record Ranks : Prop := {
  rk_qvec : vfdw_search_qvec qvec = Ok qv;
  rk_query : vfdw_filter_render (kq_terms knn) bounds = Ok (Some q);
  rk_info : (serve info_words peer).1 = info;
  rk_verify : vfdw_search_verify knn (Some info) (blen qv) = Ok ();
  rk_search k : 1 ≤ k → (serve (search_words k) peer).1 = search_reply (take (Z.to_nat k) docs);
  rk_rows : Forall2 (λ d row, r_type d.2 = VALKEY_REPLY_ARRAY ∧ vfdw_scan_fill rowctx d.1 d.2 = Ok row) docs rows;
}.

Hypothesis ranks : Ranks.
(** The number of rows of a reply fits an int. *)
Hypothesis few : Z.of_nat (length docs) < 2 ^ 30.
Hypothesis k_pos : 1 ≤ kq_k knn.

Abbreviation wanted l := (filter (λ r, row_wanted r = true) l).
Abbreviation World := (SearchWorld (P := P)).

Hypothesis exact_wanted : kq_exact knn = true → wanted rows = rows.

(* ---------------------------------------------------------------- *)
(** ** One round trip *)

Lemma hit_replies_length l : length (hit_replies l) = (2 * length l)%nat.
Proof. unfold hit_replies. induction l as [|d l IH]; [done|]. rewrite fmap_cons. simpl. lia. Qed.

Lemma hit_replies_lookup l i d :
  l !! i = Some d → hit_replies l !! (2 * i)%nat = Some (string_reply d.1) ∧ hit_replies l !! (2 * i + 1)%nat = Some d.2.
Proof.
  revert l. induction i as [|i IH]; intros [|x l] Hi; try done; [by injection Hi as ->|].
  simpl in Hi. destruct (IH l Hi) as [IH1 IH2]. 
  replace (2 * S i)%nat with (S (S (2 * i))) by lia. replace (S (S (2 * i)) + 1)%nat with (S (S (2 * i + 1))) by lia.
  by split.
Qed.

Lemma rows_returned_hits n : Z.of_nat n < 2 ^ 30 → rows_returned (S (2 * n)) = Z.of_nat n.
Proof.
  unfold rows_returned, u64, int32. intros Hn.
  replace (Z.of_nat (S (2 * n)) - 1) with (Z.of_nat n * 2) by lia.
  rewrite (Z.mod_small (Z.of_nat n * 2)) by lia. rewrite Z.div_mul by lia. rewrite Z.mod_small by lia. lia.
Qed.

Lemma add_query_words k cmd :
  cmd_args cmd = [] → ∃ cmd', vfdw_search_add_query knn bounds cmd k qv = Ok (Some cmd') ∧ cmd_args cmd' = search_words k.
Proof using ranks.
  intros Hc. unfold vfdw_search_add_query. rewrite (rk_query ranks). cbn [mbind result_bind]. eexists. split; [done|].
  unfold vfdw_cmd_add_cstr. rewrite !add_bytes_args, Hc. reflexivity.
Qed.

(** The pass after [i] rows of an answer of [f], [e] rows given away. *)
Definition at_row (i f : nat) (e : Z) : KnnPass :=
  MkKnnPass false (Some (search_reply (take f docs))) i true e (Z.of_nat f) (Z.of_nat (f `min` length docs))
    (Z.of_nat (length (wanted (take i rows)))).

Definition Searching (w : World) (i f : nat) (e : Z) : Prop :=
  kw_pass w = at_row i f e ∧ owes serve peer (kw_batch w) [].

Lemma run_asks (w : World) (f : nat) (e : Z) :
  kn_empty (kw_pass w) = false → kn_ran (kw_pass w) = false → kn_emitted (kw_pass w) = e → kn_survivors (kw_pass w) = 0 →
  Z.of_nat f = (if bool_decide (kn_fetched_k (kw_pass w) = 0) then kq_k knn else kn_fetched_k (kw_pass w)) →
  (1 ≤ f)%nat → owes serve peer (kw_batch w) [] →
  ∃ w', vfdw_search_run serve knn qvec bounds w = (Ok (), w') ∧ Searching w' 0 f e.
Proof using unmoved ranks few.
  destruct w as [[em rep row ran em' fk ret surv] b]. cbn [kw_pass kw_batch kn_empty kn_ran kn_emitted kn_survivors kn_fetched_k].
  intros -> -> -> -> Hf Hf1 Ho. unfold vfdw_search_run. rewrite gets_bind. cbn [kw_pass kn_ran kn_fetched_k].
  set (when' := when _ _). 
  assert (Hw : ∃ r0, when' (MkSearchWorld (MkKnnPass false rep row false e fk ret 0) b)
    = (Ok (), MkSearchWorld (MkKnnPass false rep row false e (Z.of_nat f) r0 0) b)).
  { exists ret. unfold when', when, set_pass, modify. rewrite Hf. by case_bool_decide; subst. }
  destruct Hw as (r0 & Hw). unfold mbind at 1, M_bind at 1. rewrite Hw. clear when' Hw.
  unfold vfdw_search_send, result_of. rewrite (rk_qvec ranks).
  destruct (add_owes serve peer unmoved (info_cmd knn) b [] Ho) as (b1 & E1 & Ho1).
  assert (Hi : cmd_args (info_cmd knn) = info_words).
  { unfold info_cmd, vfdw_cmd_add_cstr. by rewrite !add_bytes_args. }
  rewrite Hi in Ho1. rewrite (rk_info ranks) in Ho1.
  destruct (add_query_words (Z.of_nat f) (vfdw_cmd_reset (info_cmd knn)) eq_refl) as (cmd & Eq & Hcmd).
  destruct (add_owes serve peer unmoved cmd b1 _ Ho1) as (b2 & E2 & Ho2).
  rewrite Hcmd, (rk_search ranks), Nat2Z.id in Ho2 by lia.
  destruct (next_owes serve peer b2 _ _ Ho2) as (b3 & E3 & Ho3).
  destruct (next_owes serve peer b3 _ _ Ho3) as (b4 & E4 & Ho4).
  eexists. split.
  - unfold mbind, M_bind, mret, M_ret, batch, gets, result_of, set_pass, modify. cbn [kw_pass kw_batch kn_fetched_k].
    rewrite E1. cbn [kw_pass kw_batch kn_fetched_k]. rewrite Eq. cbn [kw_pass kw_batch]. rewrite E2. cbn [kw_pass kw_batch].
    rewrite E3. cbn [kw_pass kw_batch]. rewrite (rk_verify ranks). cbn [kw_pass kw_batch]. rewrite E4. cbn [kw_pass kw_batch].
    reflexivity.
  - split; [|exact Ho4]. cbn [kw_pass kn_empty kn_reply kn_row kn_ran kn_emitted kn_fetched_k kn_survivors from_option].
    unfold at_row. f_equal. 
    assert (El : length (elements (search_reply (take f docs))) = S (2 * (f `min` length docs))).
    { unfold search_reply, array_reply, elements. cbn [r_element default id]. rewrite length_fmap. simpl.
      rewrite hit_replies_length, length_take. lia. }
    rewrite El. apply rows_returned_hits. lia.
Qed.

(* ---------------------------------------------------------------- *)
(** ** One row *)

Lemma rows_length : length rows = length docs.
Proof using ranks. symmetry. eapply Forall2_length, (rk_rows ranks). Qed.

Lemma row_at i :
  (i < length docs)%nat → ∃ d row, docs !! i = Some d ∧ rows !! i = Some row ∧
    r_type d.2 = VALKEY_REPLY_ARRAY ∧ vfdw_scan_fill rowctx d.1 d.2 = Ok row.
Proof using ranks.
  intros Hi. destruct (lookup_lt_is_Some_2 docs i Hi) as [d Hd].
  destruct (Forall2_lookup_l _ _ _ _ _ (rk_rows ranks) Hd) as (row & Hr & Ht & Hf). by exists d, row.
Qed.

Lemma reply_row f i d :
  (i < f)%nat → docs !! i = Some d →
  vfdw_reply_child (search_reply (take f docs)) (i * 2 + 1) = Ok (string_reply d.1) ∧
  vfdw_reply_child (search_reply (take f docs)) (i * 2 + 1 + 1) = Ok d.2.
Proof.
  intros Hi Hd. destruct (hit_replies_lookup (take f docs) i d) as [Hk Hv]; [by rewrite lookup_take_lt|].
  unfold vfdw_reply_child, search_reply, array_reply. cbn [r_element mbind option_bind].
  rewrite !list_lookup_fmap. replace (i * 2 + 1)%nat with (S (2 * i)) by lia.
  replace (S (2 * i) + 1)%nat with (S (2 * i + 1)) by lia.
  generalize dependent (2 * i)%nat. intros a Hk Hv. simpl. by rewrite Hk, Hv.
Qed.

Lemma wanted_snoc i row :
  rows !! i = Some row → wanted (take (S i) rows) = wanted (take i rows) ++ (if row_wanted row then [row] else []).
Proof.
  intros Hr. rewrite (take_S_r _ _ _ Hr), list.filter_app, filter_cons, filter_nil.
  destruct (row_wanted row); [by rewrite decide_True|by rewrite decide_False].
Qed.

Lemma wanted_split i : wanted rows = wanted (take i rows) ++ wanted (drop i rows).
Proof. by rewrite <- list.filter_app, take_drop. Qed.

(** What is left of the executor's limit after [e] rows. *)
Definition next_wanted (e : Z) : option Slot :=
  if bool_decide (kq_k knn ≤ e) then None else wanted rows !! Z.to_nat e.

Lemma take_row_fate i f e d row b :
  docs !! i = Some d → rows !! i = Some row → r_type d.2 = VALKEY_REPLY_ARRAY → vfdw_scan_fill rowctx d.1 d.2 = Ok row →
  Z.of_nat (length (wanted (take i rows))) ≤ e → 0 ≤ e ≤ kq_k knn →
  ∃ fate slot e' p', vfdw_search_take_row (P := P) knn rowctx row_wanted (string_reply d.1) d.2
      (MkSearchWorld (next_row (at_row i f e)) b) = (Ok (fate, slot), MkSearchWorld p' b) ∧
    match fate with
    | VFDW_ROW_SKIP => p' = at_row (S i) f e ∧ Z.of_nat (length (wanted (take (S i) rows))) ≤ e
    | VFDW_ROW_EMIT => slot = Some row ∧ slot = next_wanted e ∧ e' = e + 1 ∧ e' ≤ kq_k knn ∧ p' = at_row (S i) f e' ∧
        Z.of_nat (length (wanted (take (S i) rows))) ≤ e'
    | VFDW_ROW_DONE => slot = None ∧ kq_k knn ≤ e
    end.
Proof.
  intros Hd Hr Ht Hf Hs He. unfold vfdw_search_take_row. cbn [r_str string_reply]. rewrite bool_decide_true by done.
  cbn [negb]. unfold result_of. unfold mbind at 1, M_bind at 1. rewrite Hf.
  pose proof (wanted_snoc i row Hr) as Hsn. pose proof (wanted_split (S i)) as Hsp. unfold at_row, next_row. rewrite !Hsn in *.
  destruct (row_wanted row); cbn [negb].
  2:{ rewrite app_nil_r in *. by eexists VFDW_ROW_SKIP, None, 0, _. }
  rewrite length_app in *. cbn [length] in *. unfold set_pass. rewrite modify_bind, gets_bind.
  cbn [kw_pass kw_batch count_survivor kn_empty kn_reply kn_row kn_ran kn_emitted kn_fetched_k kn_returned kn_survivors].
  case_bool_decide as Hse.
  { eexists VFDW_ROW_SKIP, None, 0, _. split; [done|]. unfold count_survivor. cbn.
    split; [f_equal; lia|lia]. }
  case_bool_decide as Hke.
  { by eexists VFDW_ROW_DONE, None, 0, _. }
  eexists VFDW_ROW_EMIT, (Some row), (e + 1), _. rewrite modify_bind. split; [done|]. split; [done|].
  split; [|split; [done|split; [lia|split; [|lia]]]].
  - unfold next_wanted. rewrite bool_decide_false, Hsp, <- app_assoc by lia. cbn [app].
    rewrite list_lookup_middle; [done|lia].
  - unfold count_emitted. cbn. f_equal; lia.
Qed.

(* ---------------------------------------------------------------- *)
(** ** Asking again *)

(** The search gives up: enough documents to reach its limit, too few rows. *)
Definition gave_up (e : pg_error) : Prop :=
  pe_code e = ERRCODE_PROGRAM_LIMIT_EXCEEDED ∧ VFDW_SEARCH_MAX_K ≤ Z.of_nat (length docs).

Lemma at_end w i f e :
  Searching w i f e → (1 ≤ f)%nat → kq_k knn ≤ Z.of_nat f → (kq_exact knn = true → Z.of_nat f = kq_k knn) →
  i = (f `min` length docs)%nat → Z.of_nat (length (wanted (take i rows))) ≤ e →
  (vfdw_search_grow serve knn qvec bounds w = (Ok false, w) ∧ next_wanted e = None) ∨
  (∃ err, vfdw_search_grow serve knn qvec bounds w = (Raise err, w) ∧ gave_up err) ∨
  (kq_exact knn = false ∧ e < kq_k knn ∧ (f ≤ length docs)%nat ∧ ∃ f' w', (f < f')%nat ∧
     vfdw_search_grow serve knn qvec bounds w = (Ok true, w') ∧ Searching w' 0 f' e).
Proof using unmoved ranks few k_pos exact_wanted.
  intros [Hp Ho] Hf Hkf Hex Hi Hs. unfold vfdw_search_grow. rewrite gets_bind, Hp. unfold at_row.
  cbn [kn_emitted kn_returned kn_fetched_k]. unfold next_wanted.
  assert (Hall : (length docs ≤ f)%nat → Z.of_nat (length (wanted rows)) ≤ e).
  { intros Hle. rewrite Nat.min_r in Hi by done. subst i. by rewrite take_ge in Hs by (rewrite rows_length; lia). }
  destruct (kq_exact knn) eqn:Ek; cbn [orb].
  { left. split; [done|]. case_bool_decide as Hke; [done|]. apply lookup_ge_None.
    specialize (Hex eq_refl). specialize (exact_wanted eq_refl).
    assert (Hw : wanted (take i rows) = take i rows).
    { pose proof (wanted_split i) as Hsp. rewrite exact_wanted in Hsp.
      pose proof (length_filter (λ r, row_wanted r = true) (take i rows)) as H5.
      pose proof (length_filter (λ r, row_wanted r = true) (drop i rows)) as H6.
      apply (f_equal length) in Hsp as Hl. rewrite length_app in Hl.
      pose proof (take_drop i rows) as Htd. rewrite <- Htd in Hl at 1. rewrite length_app in Hl.
      rewrite <- Htd in Hsp at 1. apply app_inj_1 in Hsp as [E _]; [done|]. lia. }
    rewrite Hw, length_take, rows_length in Hs. rewrite exact_wanted, rows_length. lia. }
  case_bool_decide as Hke; [by left|].
  case_bool_decide as Hret.
  { left. split; [done|]. apply lookup_ge_None. specialize (Hall ltac:(lia)). lia. }
  case_bool_decide as Hmax.
  { right. left. eexists. split; [done|]. split; [done|lia]. }
  right. right. split; [done|]. split; [lia|]. split; [lia|].
  set (f' := if bool_decide (Z.of_nat f < VFDW_SEARCH_MAX_K / 2) then Z.of_nat f * 2 else VFDW_SEARCH_MAX_K).
  assert (Hf' : Z.of_nat f < f' ≤ VFDW_SEARCH_MAX_K).
  { unfold f', VFDW_SEARCH_MAX_K in *. change (65536 / 2) with 32768. case_bool_decide; lia. }
  unfold set_pass. rewrite modify_bind. rewrite Hp. unfold at_row.
  cbn [kw_pass kw_batch kn_empty kn_reply kn_row kn_ran kn_emitted kn_fetched_k kn_returned kn_survivors].
  edestruct (λ w1 : World, run_asks w1 (Z.to_nat f') e) as (w' & E & Hw');
    [..|exists (Z.to_nat f'), w'; split; [lia|]; split; [|exact Hw']; unfold mbind, M_bind; by rewrite E]; cbn; try done; [|lia].
  rewrite bool_decide_false by lia. lia.
Qed.

(** What is left before the search gives in: the answers still to come and the
    rows of this one. *)
Definition left_over (i f : nat) : nat :=
  ((length docs + 1 - f) * (length docs + 2) + (f `min` length docs - i) + 1)%nat.

Definition Next (fuel : nat) (w : World) (e : Z) : Prop :=
  match search_loop serve knn rowctx qvec bounds row_wanted fuel w with
  | (Raise err, _) => gave_up err
  | (Ok slot, w') => slot = next_wanted e ∧
      (is_Some slot → e + 1 ≤ kq_k knn ∧ ∃ i f, Searching w' i f (e + 1) ∧ (1 ≤ f)%nat ∧ kq_k knn ≤ Z.of_nat f ∧
         (kq_exact knn = true → Z.of_nat f = kq_k knn) ∧ (i ≤ f `min` length docs)%nat ∧
         Z.of_nat (length (wanted (take i rows))) ≤ e + 1)
  end.

Lemma loop_next fuel w i f e :
  (left_over i f ≤ fuel)%nat →
  Searching w i f e → (1 ≤ f)%nat → kq_k knn ≤ Z.of_nat f → (kq_exact knn = true → Z.of_nat f = kq_k knn) →
  (i ≤ f `min` length docs)%nat → Z.of_nat (length (wanted (take i rows))) ≤ e → 0 ≤ e ≤ kq_k knn →
  Next fuel w e.
Proof using unmoved ranks few k_pos exact_wanted.
  unfold left_over.
  revert w i f. induction fuel as [|fuel IH]; intros w i f Hfu Hw Hf Hkf Hex Hi Hs He; [lia|].
  pose proof Hw as [Hp Ho]. unfold Next. cbn [search_loop]. rewrite gets_bind, Hp. cbn [at_row kn_reply kn_row].
  assert (El : length (elements (search_reply (take f docs))) = S (2 * (f `min` length docs))).
  { unfold search_reply, array_reply, elements. cbn [r_element default id]. rewrite length_fmap. simpl.
    rewrite hit_replies_length, length_take. lia. }
  rewrite El. case_bool_decide as Hend.
  - destruct (at_end w i f e Hw Hf Hkf Hex ltac:(lia) Hs) as [[E En]|[(err & E & Hgu)|(Ek & Hek & Hfl & f' & w' & Hlt & E & Hw')]];
      unfold mbind at 1, M_bind at 1; rewrite E.
    + by split; [|intros [? ?]].
    + done.
    + apply (IH w' 0%nat f'); try done; try lia.
      * pose proof (Nat.mul_le_mono_r (length docs + 1 - f' + 1) (length docs + 1 - f) (length docs + 2) ltac:(lia)).
        rewrite Nat.mul_add_distr_r in *. lia.
      * by rewrite Ek.
      * simpl. lia.
  - destruct (row_at i ltac:(lia)) as (d & row & Hd & Hr & Ht & Hfill).
    destruct (reply_row f i d ltac:(lia) Hd) as [Ec1 Ec2].
    unfold result_of. unfold mbind at 1, M_bind at 1. rewrite Ec1. unfold mbind at 1, M_bind at 1. rewrite Ec2.
    unfold set_pass. rewrite modify_bind, Hp.
    destruct (take_row_fate i f e d row (kw_batch w) Hd Hr Ht Hfill Hs He) as (fate & slot & e' & p' & E & Hfate).
    unfold mbind at 1, M_bind at 1. rewrite E. destruct fate.
    + destruct Hfate as [-> Hs']. apply (IH _ (S i) f); try done; lia.
    + destruct Hfate as (-> & En & -> & He' & -> & Hs'). split; [done|]. intros _. split; [done|].
      exists (S i), f. do 4 (split; [done|]). split; [lia|done].
    + destruct Hfate as [-> Hke]. unfold next_wanted. rewrite bool_decide_true by done. by split; [|intros [? ?]].
Qed.

(* ---------------------------------------------------------------- *)
(** ** All rows *)

(** The answer of the query. *)
Definition nearest : list Slot := take (Z.to_nat (kq_k knn)) (wanted rows).

Lemma next_wanted_drop e :
  0 ≤ e → drop (Z.to_nat e) nearest = match next_wanted e with Some r => r :: drop (Z.to_nat (e + 1)) nearest | None => [] end.
Proof.
  intros He. unfold next_wanted, nearest. case_bool_decide as Hk.
  { apply drop_ge. rewrite length_take. lia. }
  replace (Z.to_nat (e + 1)) with (S (Z.to_nat e)) by lia.
  destruct (wanted rows !! Z.to_nat e) as [r|] eqn:E.
  - apply drop_S. by rewrite lookup_take_lt by lia.
  - apply drop_ge. rewrite length_take. apply lookup_ge_None in E. lia.
Qed.

Definition enough_fuel (fuel : nat) : Prop := ((length docs + 2) * (length docs + 2) ≤ fuel)%nat.

Lemma enough_left_over fuel i f : enough_fuel fuel → (1 ≤ f)%nat → (left_over i f ≤ fuel)%nat.
Proof.
  unfold enough_fuel, left_over. intros Hf Hf1.
  pose proof (Nat.mul_le_mono_r (length docs + 1 - f) (length docs) (length docs + 2) ltac:(lia)).
  rewrite Nat.mul_add_distr_r in Hf. lia.
Qed.

Definition answered (r : result (list Slot)) (l : list Slot) : Prop := r = Ok l ∨ ∃ e, r = Raise e ∧ gave_up e.

Lemma search_rows_from calls fuel (w0 w : World) i f e :
  enough_fuel fuel → vfdw_search_run serve knn qvec bounds w0 = (Ok (), w) →
  Searching w i f e → (1 ≤ f)%nat → kq_k knn ≤ Z.of_nat f → (kq_exact knn = true → Z.of_nat f = kq_k knn) →
  (i ≤ f `min` length docs)%nat → Z.of_nat (length (wanted (take i rows))) ≤ e → 0 ≤ e ≤ kq_k knn →
  (length (drop (Z.to_nat e) nearest) < calls)%nat →
  answered (search_rows serve knn rowctx qvec bounds row_wanted calls fuel w0).1 (drop (Z.to_nat e) nearest).
Proof using unmoved ranks few k_pos exact_wanted.
  intros Hfu. revert w0 w i f e.
  induction calls as [|calls IH]; intros w0 w i f e Hrun Hw Hf Hkf Hex Hi Hs He Hc; [lia|].
  cbn [search_rows]. pose proof Hw as [Hp _].
  assert (En : vfdw_search_next serve knn rowctx qvec bounds row_wanted fuel w0 = search_loop serve knn rowctx qvec bounds row_wanted fuel w).
  { unfold vfdw_search_next. unfold mbind at 1, M_bind at 1. by rewrite Hrun, gets_bind, Hp. }
  unfold mbind at 1, M_bind at 1. rewrite En.
  pose proof (loop_next fuel w i f e (enough_left_over fuel i f Hfu Hf) Hw Hf Hkf Hex Hi Hs He) as Hn. unfold Next in Hn.
  destruct (search_loop serve knn rowctx qvec bounds row_wanted fuel w) as [[slot|err] w']; [|by right; exists err].
  destruct Hn as [-> Hn].
  rewrite next_wanted_drop in * by lia. destruct (next_wanted e) as [r|]; [|by left].
  destruct (Hn ltac:(by eexists)) as (He' & i' & f' & Hw' & Hf' & Hkf' & Hex' & Hi' & Hs'). clear Hn.
  destruct (IH w' w' i' f' (e + 1)) as [Er|(err & Er & Hgu)]; try done; try lia.
  - unfold vfdw_search_run. rewrite gets_bind. by rewrite (proj1 Hw').
  - simpl in Hc. lia.
  - left. unfold mbind, M_bind. destruct (search_rows _ _ _ _ _ _ _ _ w') as [[l|] w2]; [|done]. simpl in *. by injection Er as ->.
  - right. exists err. split; [|done]. unfold mbind, M_bind.
    destruct (search_rows _ _ _ _ _ _ _ _ w') as [[l|] w2]; [done|]. simpl in *. by injection Er as ->.
Qed.

(** From a scan that has just begun. *)
Lemma search_rows_ranked calls fuel b :
  enough_fuel fuel → owes serve peer b [] → (length nearest < calls)%nat →
  answered (search_rows serve knn rowctx qvec bounds row_wanted calls fuel (MkSearchWorld vfdw_search_reset b)).1 nearest.
Proof using unmoved ranks few k_pos exact_wanted.
  intros Hfu Ho Hc. set (w0 := MkSearchWorld vfdw_search_reset b).
  destruct (run_asks w0 (Z.to_nat (kq_k knn)) 0) as (w & E & Hw); try done; [cbn; case_bool_decide; lia|lia|].
  apply (search_rows_from calls fuel w0 w 0 (Z.to_nat (kq_k knn)) 0); try done; try lia.
Qed.
End facts.

(* ---------------------------------------------------------------- *)
(** ** From the plan to the rows *)

Section plan.
Context `{TypeCatalog} `{PgTypes} `{!FilterCatalog}.

(** The terms as they come out of the plan: the bounds travel beside them. *)
Definition forget_bound (t : VfdwFilterTerm) : VfdwFilterTerm :=
  FilterTerm (ft_field t) None (ft_lower t) (ft_exclusive t) (ft_both t) (ft_tag t).

Lemma decode_encode terms es : vfdw_filter_decode (vfdw_filter_encode terms es).1 = forget_bound <$> terms.
Proof.
  unfold vfdw_filter_decode, vfdw_filter_encode. cbn [fst]. rewrite <- list_fmap_compose. apply list_fmap_ext.
  intros _ t _. destruct t as [f b l e bo ta]. unfold compose, forget_bound, filter_flags. cbn.
  by destruct l, e, bo, ta.
Qed.

Lemma render_forgets terms bounds : vfdw_filter_render (forget_bound <$> terms) bounds = vfdw_filter_render terms bounds.
Proof.
  revert bounds. induction terms as [|t terms IH]; intros [|[typid [v|]] bounds]; try done.
  rewrite fmap_cons. cbn [vfdw_filter_render]. rewrite IH. done.
Qed.

Lemma exact_forgets terms : vfdw_filter_is_exact (forget_bound <$> terms) = vfdw_filter_is_exact terms.
Proof. unfold vfdw_filter_is_exact. induction terms as [|t terms IH]; [done|].
  rewrite fmap_cons. cbn [forallb]. by rewrite IH. Qed.

Lemma tags_forget `{!SearchServer} terms bounds : tags_are_single (forget_bound <$> terms) bounds ↔ tags_are_single terms bounds.
Proof. unfold tags_are_single. apply Forall2_fmap_l. Qed.

(** What a plan for a search holds. *)
Lemma plan_search_spec root relid map priv :
  vfdw_plan_search root relid map = Ok priv → ∃ terms,
    vfdw_filter_compile relid map (vfdw_knn_clauses root) = Some terms ∧
    kq_terms (vfdw_search_adopt map priv) = forget_bound <$> terms ∧
    kq_exact (vfdw_search_adopt map priv) = vfdw_filter_is_exact terms ∧
    kq_k (vfdw_search_adopt map priv) = limit_tuples root ∧ 1 ≤ limit_tuples root ≤ INT_MAX.
Proof.
  unfold vfdw_plan_search. destruct (vfdw_knn_match root relid map) as [kp|] eqn:Em; [|done].
  destruct (vfdw_filter_encode (knn_filter kp) [knn_qvec kp]) as [filt exprs] eqn:Ee. intros [= <-].
  unfold vfdw_knn_match in Em. case_bool_decide; [|done]. cbn [negb] in Em.
  destruct (vfdw_knn_scan_owns_limit root) eqn:El; [|done]. cbn [negb] in Em.
  destruct (vfdw_knn_match_order root relid map) as [[[f m] qn]|]; [|done]. cbn [mbind option_bind] in Em.
  destruct (vfdw_filter_compile relid map (vfdw_knn_clauses root)) as [terms|]; [|done]. cbn [mbind option_bind] in Em.
  injection Em as <-. exists terms. split; [done|]. unfold vfdw_search_adopt, vfdw_plan_private.
  cbn [kq_terms kq_exact kq_k priv_filter priv_knn_k knn_k from_option knn_filter knn_qvec] in *.
  assert (Hd : vfdw_filter_decode filt = forget_bound <$> terms) by (rewrite <- (decode_encode terms [qn]), Ee; done).
  rewrite Hd, exact_forgets. do 3 (split; [done|]).
  unfold vfdw_knn_scan_owns_limit in El. apply andb_prop in El as [_ El]. by apply bool_decide_eq_true in El.
Qed.

Context `{Float4IO} `{!SearchServer}.

(** A document of the index: its key, its fields in a reply and what the index
    holds of them. *)
Record Entry := MkEntry { en_key : bytes; en_fields : Reply; en_doc : Document }.

(** The documents a filter lets through, in the order of the ranking. *)
Definition hits (qs : list QTerm) (ranking : list Entry) : list (bytes * Reply) :=
  (λ x, (en_key x, en_fields x)) <$> filter (λ x, forallb (matches (en_doc x)) qs = true) ranking.

Lemma hits_rows (row_wanted : list (option Datum) → bool) rowctx (holds : Document → Prop) (exact : bool) qs ranking all :
  (∀ doc, numbered_doc doc → (holds doc → forallb (matches doc) qs = true) ∧ (exact = true → forallb (matches doc) qs = true → holds doc)) →
  Forall2 (λ x row, numbered_doc (en_doc x) ∧ (row_wanted row = true ↔ holds (en_doc x)) ∧
    r_type (en_fields x) = VALKEY_REPLY_ARRAY ∧ vfdw_scan_fill rowctx (en_key x) (en_fields x) = Ok row) ranking all →
  ∃ rows, Forall2 (λ d row, r_type d.2 = VALKEY_REPLY_ARRAY ∧ vfdw_scan_fill rowctx d.1 d.2 = Ok row) (hits qs ranking) rows ∧
    filter (λ r, row_wanted r = true) rows = filter (λ r, row_wanted r = true) all ∧
    (exact = true → filter (λ r, row_wanted r = true) rows = rows).
Proof.
  intros Hm Hall. induction Hall as [|x row ranking all (Hn & Hw & Ht & Hf) Hall (rows & H1' & H2' & H3')]; [by exists []|].
  destruct (Hm _ Hn) as [M1 M2]. unfold hits. rewrite filter_cons.
  case_decide as Hx.
  - exists (row :: rows). rewrite fmap_cons, !filter_cons. split; [by constructor|]. split; [by rewrite H2'|].
    intros He. rewrite decide_True by (by apply Hw, M2). by rewrite H3'.
  - exists rows. rewrite (filter_cons _ row). split; [done|]. split; [|done].
    rewrite decide_False; [done|]. rewrite Hw. naive_solver.
Qed.

End plan.


(* ---------------------------------------------------------------- *)
(** ** When an index is accepted *)

Section info.
Context `{PgTypes}.

(** An aggregate as either protocol spells it. *)
Definition aggregate_reply (resp3 : bool) (l : list Reply) : Reply :=
  MkReply (if resp3 then VALKEY_REPLY_MAP else VALKEY_REPLY_ARRAY) 0 None (Some (Some <$> l)).

Record VectorIndex := MkVectorIndex { vi_dims : Z; vi_metric : bytes; vi_data_type : bytes }.
Record IndexField := MkIndexField { if_name : bytes; if_type : bytes; if_index : option VectorIndex }.

(** The part of FT.INFO's answer that is read, and what comes before it. *)
Definition index_reply (resp3 : bool) (v : VectorIndex) : Reply :=
  aggregate_reply resp3 [string_reply "dimensions"; integer_reply (vi_dims v);
    string_reply "distance_metric"; string_reply (vi_metric v); string_reply "data_type"; string_reply (vi_data_type v)].

Definition field_reply (resp3 : bool) (a : IndexField) : Reply :=
  aggregate_reply resp3
    ([string_reply "identifier"; string_reply (if_name a); string_reply "attribute"; string_reply (if_name a);
      string_reply "type"; string_reply (if_type a)]
     ++ match if_index a with
        | None => []
        | Some v => [string_reply "index"; index_reply resp3 v]
        end).
Definition ft_info (resp3 : bool) (index : bytes) (fields : list IndexField) : Reply :=
  aggregate_reply resp3 [string_reply "index_name"; string_reply index;
    string_reply "attributes"; array_reply (field_reply resp3 <$> fields)].

(** The SQLSTATE an index is refused with. *)
Definition refusal (knn : KnnQuery) (fields : list IndexField) (qbytes : Z) : option sqlstate :=
  match find (λ a, bool_decide (if_name a = kq_field knn)) fields with
  | None => Some ERRCODE_UNDEFINED_COLUMN
  | Some a =>
      if negb (bool_decide (if_type a = "VECTOR")) then Some ERRCODE_DATATYPE_MISMATCH
      else match if_index a with
           | None => Some ERRCODE_DATATYPE_MISMATCH
           | Some v =>
               if negb (bool_decide (vi_metric v = kq_metric knn)) then Some ERRCODE_DATATYPE_MISMATCH
               else if negb (bool_decide (vi_data_type v = "FLOAT32")) then Some ERRCODE_FEATURE_NOT_SUPPORTED
               else if bool_decide (0 < vi_dims v) && negb (bool_decide (qbytes = 4 * vi_dims v))
               then Some ERRCODE_DATATYPE_MISMATCH
               else None
           end
  end.

Definition c_string (s : bytes) : Prop := until_nul s = s.
Definition field_ok (a : IndexField) : Prop :=
  c_string (if_name a) ∧ c_string (if_type a) ∧
  match if_index a with
  | None => True
  | Some v => c_string (vi_metric v) ∧ c_string (vi_data_type v) ∧ vi_dims v < 2 ^ 62
  end.

Lemma bool_decide_Some (x y : bytes) : bool_decide (Some x = Some y) = bool_decide (x = y).
Proof. do 2 case_bool_decide; naive_solver. Qed.

Lemma field_reads resp3 a :
  vfdw_info_str (Some (field_reply resp3 a)) "identifier" = Ok (Some (until_nul (if_name a))) ∧
  vfdw_info_str (Some (field_reply resp3 a)) "type" = Ok (Some (until_nul (if_type a))) ∧
  vfdw_info_sub (Some (field_reply resp3 a)) "index" = Ok (index_reply resp3 <$> if_index a).
Proof. by destruct resp3, a as [n t [v|]]. Qed.

Lemma index_reads resp3 v :
  vfdw_info_str (Some (index_reply resp3 v)) "data_type" = Ok (Some (until_nul (vi_data_type v))) ∧
  vfdw_info_str (Some (index_reply resp3 v)) "distance_metric" = Ok (Some (until_nul (vi_metric v))) ∧
  vfdw_info_int (Some (index_reply resp3 v)) "dimensions" = Ok (vi_dims v).
Proof. by destruct resp3. Qed.

Lemma find_attribute_field resp3 fields field :
  Forall field_ok fields →
  find_attribute (Some <$> (field_reply resp3 <$> fields)) field =
    Ok (field_reply resp3 <$> find (λ a, bool_decide (if_name a = field)) fields).
Proof.
  induction 1 as [|a fields (Hn & _) Hf IH]; [done|]. rewrite !fmap_cons. cbn [find_attribute find].
  destruct (field_reads resp3 a) as (E & _). rewrite E, Hn. cbn [mbind result_bind].
  by do 2 case_bool_decide; simplify_eq.
Qed.

Lemma info_attribute resp3 index fields field :
  Forall field_ok fields →
  vfdw_info_attribute (Some (ft_info resp3 index fields)) field =
    Ok (field_reply resp3 <$> find (λ a, bool_decide (if_name a = field)) fields).
Proof.
  intros Hf. unfold vfdw_info_attribute. 
  assert (E : vfdw_info_sub (Some (ft_info resp3 index fields)) "attributes" = Ok (Some (array_reply (field_reply resp3 <$> fields))))
    by (by destruct resp3).
  rewrite E. cbn [mbind result_bind]. by apply find_attribute_field.
Qed.
End info.

(** C37: an index is accepted for a search exactly when it has the field, as a
    vector of FLOAT32 under the metric of the operator and, where it says how many
    dimensions, of as many as the query vector has; each other index is refused
    with its own SQLSTATE, over either protocol. *)
Theorem index_is_accepted_iff_it_fits `{PgTypes} (resp3 : bool) (index : bytes) (fields : list IndexField) (knn : KnnQuery) (qbytes : Z) :
  Forall field_ok fields →
  match vfdw_search_verify knn (Some (ft_info resp3 index fields)) qbytes with
  | Ok _ => None
  | Raise e => Some (pe_code e)
  end = refusal knn fields qbytes.
Proof.
  intros Hf. unfold vfdw_search_verify.
  assert (E : vfdw_reply_is_error (Some (ft_info resp3 index fields)) = false) by (by destruct resp3).
  rewrite E. clear E. cbn [mbind result_bind]. unfold vfdw_search_vector_attr, refusal. rewrite info_attribute by done.
  cbn [mbind result_bind]. destruct (find _ fields) as [a|] eqn:Ea; [|done]. cbn [fmap option_fmap option_map].
  assert (Ha : field_ok a).
  { rewrite Forall_forall in Hf. apply Hf. by apply find_some in Ea as [? _]. }
  destruct Ha as (_ & Ht & Hi). destruct (field_reads resp3 a) as (_ & -> & ->). cbn [mbind result_bind]. rewrite Ht.
  rewrite bool_decide_Some. case_bool_decide; [cbn [negb]|done]. cbn [mbind result_bind].
  destruct (if_index a) as [v|]; [|done]. destruct Hi as (Hm & Hd & Hn). cbn [fmap option_fmap option_map].
  destruct (index_reads resp3 v) as (E1 & E2 & E3). unfold vfdw_search_check_layout. rewrite E1, E2, E3, Hm, Hd.
  cbn [mbind result_bind]. rewrite !bool_decide_Some. case_bool_decide; [cbn [negb]|done]. case_bool_decide; [cbn [negb]|done].
  case_bool_decide as Hp; [|done]. cbn [andb]. unfold u64. rewrite Z.mod_small by lia.
  by do 2 case_bool_decide; try lia.
Qed.

(* ---------------------------------------------------------------- *)
(** ** A shop to search *)

#[local] Existing Instance sample_types.
#[local] Existing Instance sample_catalog.
#[local] Existing Instance sample_float4.
#[local] Existing Instance sample_filter.
#[local] Existing Instance sample_search.
#[local] Existing Instance sample_search_laws.

(** price >= 10 AND colour = 'r|d' ORDER BY emb <-> '[1,2]' LIMIT 2; the tag
    cannot be spelled. *)
Definition shop_where : list Node :=
  [OpExpr 4 BOOLOID 0 [Var 1 0 2 INT4OID; Const INT4OID (Some (SInt 10))];
   OpExpr 0 BOOLOID 100 [Var 1 0 3 TEXTOID; Const TEXTOID (Some (SText "r|d"))]].
Definition shop_query : PlannerInfo :=
  MkPlannerInfo [MkPathKey true false [OpExpr 5 FLOAT8OID 0 [Var 1 0 4 TEXTOID; Const TEXTOID (Some (SText "[1,2]"))]]]
    true false false (RestrictInfo <$> shop_where) 1 2.
Definition shop_plan : PlanPrivate :=
  match vfdw_plan_search shop_query 1 shop_map with
  | Ok p => p
  | Raise _ => vfdw_plan_private VFDW_SCAN_KNN [] None None [] []
  end.
Definition shop_knn : KnnQuery := vfdw_search_adopt shop_map shop_plan.
Definition shop_where_bounds : list (Z * Datum) := [(INT4OID, SInt 10); (TEXTOID, SText "r|d")].
Definition shop_filter : bytes := "@price:[10/1 +inf] ".
Definition shop_point : bytes :=
  match vfdw_vec_from_text "[1,2]" "the query vector" with Ok b => b | Raise _ => "" end.

Definition shop_fields : list IndexField :=
  [MkIndexField "price" "NUMERIC" None; MkIndexField "colour" "TAG" None;
   MkIndexField "emb" "VECTOR" (Some (MkVectorIndex 2 "L2" "FLOAT32"))].

Definition product (key : bytes) (price : Z) (colour : bytes) : Entry :=
  MkEntry key (array_reply (string_reply <$> ["price"; dec price; "colour"; colour; "emb"; "00000000"]))
    (MkDocument (λ f, F8 (inject_Z (if bool_decide (f = "price") then price else 0)))
                (λ f, if bool_decide (f = "colour") then colour else "")).

(** Nearest first. *)
Definition shop_ranking : list Entry :=
  [product "a" 10 "red"; product "b" 5 "r|d"; product "c" 12 "red"; product "d" 11 "r|d"; product "e" 30 "red";
   product "f" 20 "r|d"; product "g" 40 "r|d"].
Definition shop_row (x : Entry) : list (option Datum) :=
  match vfdw_scan_fill (vfdw_row_ctx_init shop_map) (en_key x) (en_fields x) with Ok r => r | Raise _ => [] end.
Definition shop_wanted (r : list (option Datum)) : bool :=
  match r with
  | [_; Some (SText price); Some (SText colour); _] => bool_decide (10 ≤ default 0 (undec price)) && bool_decide (colour = "r|d")
  | _ => false
  end.

Definition shop_qs : list QTerm := [QRange "price" (false, F8 (10 # 1)) (false, F8Inf false)].
Definition shop_prefix : bytes := shop_filter +:+ "=>[KNN ".

(** The k of a query text. *)
Definition shop_k (query : bytes) : option Z :=
  p ← split_at " " (drop_bytes (String.length shop_prefix) query); undec p.1.

Definition shop_server (c : list bytes) (n : unit) : Reply * unit :=
  (match c with
   | ["FT.INFO"; "shop"] => ft_info true "shop" shop_fields
   | ["FT.SEARCH"; "shop"; query; "PARAMS"; "2"; "q"; _; "DIALECT"; "2"] =>
       match shop_k query with
       | Some k => search_reply (take (Z.to_nat k) (hits shop_qs shop_ranking))
       | None => error_reply "ERR"
       end
   | _ => error_reply "ERR"
   end, n).

Lemma shop_search k : (shop_server (search_words shop_knn shop_point shop_filter k) ()).1 = search_reply (take (Z.to_nat k) (hits shop_qs shop_ranking)).
Proof.
  assert (E : until_nul (search_query shop_knn k shop_filter) = shop_prefix +:+ (dec k +:+ String " " "@emb $q AS __vfdw_distance]")).
  { rewrite until_nul_id; [done|]. unfold search_query. rewrite !occurs_app.
    destruct (occurs NUL (dec k)) eqn:Ek; [|done]. by apply dec_chars in Ek as [?|?]. }
  unfold search_words, shop_server. change (until_nul (kq_index shop_knn)) with "shop". rewrite E. unfold shop_k. cbn [fst].
  rewrite drop_bytes_append, split_at_app; [cbn [mbind option_bind fst]; by rewrite undec_dec|].
  destruct (occurs " " (dec k)) eqn:Ek; [|done]. by apply dec_char_plain in Ek as ([] & _).
Qed.

Lemma op_ge a b : op_true ">=" (F8 (inject_Z a)) (F8 (inject_Z b)) = bool_decide (b ≤ a).
Proof.
  change (negb (bool_decide (Qcompare (inject_Z a) (inject_Z b) = Lt)) = bool_decide (b ≤ a)).
  unfold Qcompare. cbn [Qnum Qden inject_Z]. rewrite !Z.mul_1_r. destruct (Z.compare_spec a b); do 2 case_bool_decide; try done; lia.
Qed.

Lemma Forall2_pair {A B} (R : A → B → Prop) a b x y : Forall2 R [a; b] [x; y] ↔ R a x ∧ R b y.
Proof. split; [|intros [? ?]; by repeat constructor]. intros [? [? _]%Forall2_cons_1]%Forall2_cons_1. by split. Qed.

Lemma shop_clauses_hold key price colour :
  Forall2 (clause_holds 1 shop_map (en_doc (product key price colour))) (vfdw_knn_clauses shop_query) shop_where_bounds ↔
  10 ≤ price ∧ colour = "r|d".
Proof.
  change (vfdw_knn_clauses shop_query) with shop_where. unfold shop_where, shop_where_bounds. rewrite Forall2_pair.
  assert (Hc : filter_column (Const INT4OID (Some (SInt 10))) 1 shop_map = None) by reflexivity.
  assert (Hp : ∃ col, filter_column (Var 1 0 2 INT4OID) 1 shop_map = Some col ∧ col_index_type col = VFDW_INDEX_NUMERIC ∧
    col_field col = Some "price") by (eexists; split; [vm_compute; reflexivity|by split]).
  assert (Ht : ∃ col, filter_column (Var 1 0 3 TEXTOID) 1 shop_map = Some col ∧ col_index_type col = VFDW_INDEX_TAG ∧
    col_field col = Some "colour") by (eexists; split; [vm_compute; reflexivity|by split]).
  destruct Hp as (cp & Ep & Ip & Fp). destruct Ht as (cc & Ec & Ic & Fc).
  unfold clause_holds, clause_column, operand. rewrite Hc, Ep, Ec, Ip, Ic, Fp, Fc.
  rewrite bool_decide_false, bool_decide_true by done. cbn [fst snd default id].
  change (doc_num _ "price") with (F8 (inject_Z price)). change (doc_text _ "colour") with colour. split.
  - intros ((name & f & [= <-] & [= <-] & Hge) & (_ & Hcol)). rewrite op_ge, bool_decide_eq_true in Hge. by split.
  - intros [Hge ->]. split; [|by split]. exists ">=", (F8 (inject_Z 10)). do 2 (split; [done|]).
    by rewrite op_ge, bool_decide_eq_true.
Qed.

Lemma shop_entries : Forall2 (λ x row, numbered_doc (en_doc x) ∧
    (shop_wanted row = true ↔ Forall2 (clause_holds 1 shop_map (en_doc x)) (vfdw_knn_clauses shop_query) shop_where_bounds) ∧
    r_type (en_fields x) = VALKEY_REPLY_ARRAY ∧ vfdw_scan_fill (vfdw_row_ctx_init shop_map) (en_key x) (en_fields x) = Ok row)
  shop_ranking (shop_row <$> shop_ranking).
Proof.
  unfold shop_ranking. rewrite !fmap_cons, fmap_nil.
  repeat (constructor; [split; [done|]; split; [rewrite shop_clauses_hold; vm_compute; naive_solver|by split]|]). constructor.
Qed.

Definition shop_conn : Conn (P := unit) := MkConn () [] [] false false [].
Definition shop_answer : list (list (option Datum)) :=
  (λ p : bytes * bytes, [Some (SText p.1); Some (SText p.2); Some (SText "r|d"); Some (SText "[808464432,808464432]")])
    <$> [("d", "11"); ("f", "20")].


Lemma index_is_accepted_iff_it_fits_witness :
  vfdw_search_verify shop_knn (Some (ft_info true "shop" shop_fields)) 8 = Ok () ∧
  match vfdw_search_verify shop_knn (Some (ft_info false "shop" shop_fields)) 12 with
  | Ok _ => None
  | Raise e => Some (pe_code e)
  end = Some ERRCODE_DATATYPE_MISMATCH.
Proof.
  split; [vm_compute; reflexivity|].
  rewrite (index_is_accepted_iff_it_fits false "shop" shop_fields shop_knn 12); [vm_compute; reflexivity|].
  repeat (constructor; [by repeat split|]). constructor.
Defined.
