(* ===== verification/Plan.v ===== *)
(** The access path of a query (src/vfdw_plan.c, src/vfdw_plan_param.c): which
    restrictions on the key become a list of keys to fetch, a pattern for SCAN
    or a key per outer row, and how a scan adopts that choice
    (src/vfdw_scan_open.c).

    Planner nodes are kept as far as the code looks into them.  What it asks of
    the type cache, of collations and of array and text values is the class
    [QualCatalog]; the equalities the planner derives for the key column are a
    parameter. *)
From S2P Require Import Prelude Opcode Option Error Cmd TableMap Vec Row ScanCmd Wbuf Cluster Scan Filter Knn.
Local Open Scope Z_scope.

Definition OID_TEXT_LIKE_OP : Z := 1209.
Definition VFDW_MAX_KEY_LIST : nat := 1000.

Class QualCatalog `{PgTypes} := {
  (* lookup_type_cache(typ, TYPECACHE_EQ_OPR)->eq_opr *)
  eq_opr : Z → Z;
  get_collation_isdeterministic : Z → bool;
  (* deconstruct_array: its elements, None for a null *)
  deconstruct_array : Datum → list (option Datum);
  (* VARDATA_ANY and VARSIZE_ANY_EXHDR of a text *)
  text_bytes : Datum → bytes;
}.

Section plan.
Context `{TypeCatalog} `{PgTypes} `{!QualCatalog} `{!FilterCatalog}.

(** [relid] is the range table index of the relation being planned. *)
Definition vfdw_is_key_var (relid : Z) (map : VfdwTableMap) (node : Node) : bool :=
  match node with
  | Var varno varlevelsup varattno _ =>
      if negb (vfdw_var_of_rel varno varlevelsup relid) then false
      else if bool_decide (varattno ≤ 0) || bool_decide (Z.of_nat (map_natts map) < varattno) then false
      else bool_decide (varattno = map_keyattno map)
  | _ => false
  end.

Definition vfdw_is_equality (opno vartype : Z) : bool := bool_decide (eq_opr vartype = opno).

Definition vfdw_collation_is_deterministic (collid : Z) : bool :=
  negb (bool_decide (collid ≠ InvalidOid)) || get_collation_isdeterministic collid.

Definition vfdw_key_column_pushable (map : VfdwTableMap) : bool :=
  if bool_decide (map_keyattno map = InvalidAttrNumber) || bool_decide (Z.of_nat (map_natts map) < map_keyattno map)
  then false
  else
    let col := default zero_column (map_cols map !! Z.to_nat (map_keyattno map - 1)) in
    let basetype := getBaseType (col_typid col) in
    bool_decide (basetype = TEXTOID) || bool_decide (basetype = VARCHAROID).

Definition vfdw_key_from_datum (typid : Z) (value : Datum) : bytes :=
  OutputFunctionCall (getTypeOutputInfo typid).1 value.

Definition is_var (n : Node) : bool := match n with Var _ _ _ _ => true | _ => false end.
Definition is_const (n : Node) : bool := match n with Const _ _ => true | _ => false end.

Definition vfdw_keys_from_opexpr (relid : Z) (map : VfdwTableMap) (opno inputcollid : Z) (args : list Node)
    : list bytes :=
  match args with
  | [lhs; rhs] =>
      let '(lhs, rhs) := if is_var rhs && is_const lhs then (rhs, lhs) else (lhs, rhs) in
      if negb (vfdw_is_key_var relid map lhs) then [] else
      match lhs, rhs with
      | Var _ _ _ vartype, Const consttype (Some value) =>
          if negb (bool_decide (consttype = vartype)) then []
          else if negb (vfdw_is_equality opno consttype) then []
          else if negb (vfdw_collation_is_deterministic inputcollid) then []
          else [vfdw_key_from_datum consttype value]
      | _, _ => []
      end
  | _ => []
  end.

Definition vfdw_keys_from_saop (relid : Z) (map : VfdwTableMap) (opno : Z) (useOr : bool) (inputcollid : Z)
    (args : list Node) : list bytes :=
  match useOr, args with
  | true, [lhs; rhs] =>
      if negb (vfdw_is_key_var relid map lhs) then [] else
      match lhs, rhs with
      | Var _ _ _ vartype, Const consttype (Some value) =>
          let elemtype := get_element_type consttype in
          if bool_decide (elemtype = InvalidOid) || negb (bool_decide (elemtype = vartype)) then []
          else if negb (vfdw_is_equality opno elemtype) then []
          else if negb (vfdw_collation_is_deterministic inputcollid) then []
          else if bool_decide (VFDW_MAX_KEY_LIST < length (deconstruct_array value))%nat then []
          else vfdw_key_from_datum elemtype <$> omap id (deconstruct_array value)
      | _, _ => []
      end
  | _, _ => []
  end.

(** The result so far, in order. *)
Fixpoint refine_loop (prefix : option bytes) (keys result : list bytes) : list bytes :=
  match keys with
  | [] => result
  | key :: rest =>
      if negb (from_option (λ p, starts_with p key) true prefix) then refine_loop prefix rest result
      else if bool_decide (key ∈ result) then refine_loop prefix rest result
      else refine_loop prefix rest (result ++ [key])
  end.

Definition vfdw_keys_refine (map : VfdwTableMap) (keys : list bytes) : list bytes :=
  refine_loop (map_keyprefix map) keys [].

Definition strip_restrictinfo (n : Node) : Node := match n with RestrictInfo c => c | n => n end.

Fixpoint find_keys_loop (relid : Z) (map : VfdwTableMap) (clauses : list Node) : option (list bytes) :=
  match clauses with
  | [] => None
  | clause :: rest =>
      let found :=
        match strip_restrictinfo clause with
        | OpExpr opno _ coll args => vfdw_keys_from_opexpr relid map opno coll args
        | ScalarArrayOpExpr opno useOr coll args => vfdw_keys_from_saop relid map opno useOr coll args
        | _ => []
        end in
      if bool_decide (found = []) then find_keys_loop relid map rest else Some (vfdw_keys_refine map found)
  end.

Definition vfdw_plan_find_keys (relid : Z) (map : VfdwTableMap) (clauses : list Node) : option (list bytes) :=
  if negb (vfdw_key_column_pushable map) then None else find_keys_loop relid map clauses.

(* ---------------------------------------------------------------- *)
(** ** LIKE and the pattern of SCAN *)

Definition PERCENT : ascii := "%"%char.
Definition UNDERSCORE : ascii := "_"%char.
Definition BACKSLASH : ascii := "\"%char.

Fixpoint like_prefix_loop (patt : bytes) : bytes :=
  match patt with
  | EmptyString => ""
  | String c rest =>
      if bool_decide (c = PERCENT) || bool_decide (c = UNDERSCORE) then ""
      else if bool_decide (c = BACKSLASH) then
        match rest with
        | EmptyString => ""
        | String d rest => String d (like_prefix_loop rest)
        end
      else String c (like_prefix_loop rest)
  end.

Definition vfdw_like_prefix (patt : bytes) : option bytes :=
  match like_prefix_loop patt with EmptyString => None | p => Some p end.

(** One clause, as the body of the loop treats it. *)
Definition like_prefix_of (relid : Z) (map : VfdwTableMap) (clause : Node) : option bytes :=
  match clause with
  | OpExpr opno _ coll [lhs; rhs] =>
      if negb (bool_decide (opno = OID_TEXT_LIKE_OP)) then None
      else if negb (vfdw_is_key_var relid map lhs) then None
      else match rhs with
           | Const _ (Some value) =>
               if negb (vfdw_collation_is_deterministic coll) then None else vfdw_like_prefix (text_bytes value)
           | _ => None
           end
  | _ => None
  end.

Fixpoint find_like_loop (relid : Z) (map : VfdwTableMap) (clauses : list Node) : option bytes :=
  match clauses with
  | [] => None
  | clause :: rest =>
      match like_prefix_of relid map (strip_restrictinfo clause) with
      | Some p => Some p
      | None => find_like_loop relid map rest
      end
  end.

Definition vfdw_plan_find_like_prefix (relid : Z) (map : VfdwTableMap) (clauses : list Node) : option bytes :=
  if negb (vfdw_key_column_pushable map) then None else find_like_loop relid map clauses.

Definition glob_special (c : ascii) : bool :=
  bool_decide (c = "*"%char) || bool_decide (c = "?"%char) || bool_decide (c = "["%char)
  || bool_decide (c = "]"%char) || bool_decide (c = BACKSLASH).

Fixpoint vfdw_escape_glob (s : bytes) : bytes :=
  match s with
  | EmptyString => ""
  | String c rest =>
      if glob_special c then String BACKSLASH (String c (vfdw_escape_glob rest))
      else String c (vfdw_escape_glob rest)
  end.

Definition vfdw_plan_scan_pattern (map : VfdwTableMap) (like_prefix : option bytes) : option bytes :=
  match map_keyset map with
  | Some _ => None
  | None =>
      let prefix :=
        match like_prefix, map_keyprefix map with
        | Some l, None => Some l
        | Some l, Some p => if starts_with p l then Some l else Some p
        | None, p => p
        end in
      (λ p, vfdw_escape_glob p +:+ "*") <$> prefix
  end.

(* ---------------------------------------------------------------- *)
(** ** A key per outer row (src/vfdw_plan_param.c) *)

(** A clause the planner derives, and the relations it mentions. *)
Record ImpliedClause := MkImplied { ri_clause : Node; ri_relids : gset Z }.

(** The key side first, or nothing. *)
Definition param_sides (relid : Z) (map : VfdwTableMap) (lhs rhs : Node) : option (Node * Node) :=
  let '(lhs, rhs) := if negb (vfdw_is_key_var relid map lhs) then (rhs, lhs) else (lhs, rhs) in
  if negb (vfdw_is_key_var relid map lhs) then None else Some (lhs, rhs).

Fixpoint param_key_loop (relid : Z) (map : VfdwTableMap) (clauses : list ImpliedClause)
    : option (Node * gset Z) :=
  match clauses with
  | [] => None
  | ri :: rest =>
      match ri_clause ri with
      | OpExpr opno _ _ [lhs; rhs] =>
          match param_sides relid map lhs rhs with
          | Some (Var _ _ _ vartype, rhs) =>
              if negb (vfdw_is_equality opno vartype) then param_key_loop relid map rest
              else
                let outer := ri_relids ri ∖ {[relid]} in
                if bool_decide (outer = ∅) then param_key_loop relid map rest else Some (rhs, outer)
          | _ => param_key_loop relid map rest
          end
      | _ => param_key_loop relid map rest
      end
  end.

(** [implied] is what generate_implied_equalities_for_column returns for the
    key column. *)
Definition vfdw_plan_param_key (relid : Z) (map : VfdwTableMap) (implied : list ImpliedClause)
    : option (Node * gset Z) :=
  if negb (vfdw_key_column_pushable map) then None else param_key_loop relid map implied.

(* ---------------------------------------------------------------- *)
(** ** The choice *)

Definition vfdw_plan_param_encode (relid : Z) (map : VfdwTableMap) (implied : list ImpliedClause) : option (list Node) :=
  match vfdw_plan_param_key relid map implied with
  | None => None
  | Some (key, _) => Some [key]
  end.

Definition vfdw_scan_plan (root : PlannerInfo) (relid : Z) (map : VfdwTableMap) (clauses : list Node)
    (implied : list ImpliedClause) (parameterised : bool) : result PlanPrivate :=
  if bool_decide (map_tabletype map = VFDW_TABLE_VECTOR) then vfdw_plan_search root relid map else
  match (if parameterised then vfdw_plan_param_encode relid map implied else None) with
  | Some exprs => Ok (vfdw_plan_private VFDW_SCAN_KEY_PARAM [] None None [] exprs)
  | None =>
      match map_singleton_key map with
      | Some key => Ok (vfdw_plan_private VFDW_SCAN_SINGLETON [key] None None [] [])
      | None =>
          match vfdw_plan_find_keys relid map clauses with
          | Some keys => Ok (vfdw_plan_private VFDW_SCAN_KEYS keys None None [] [])
          | None => Ok (vfdw_plan_private VFDW_SCAN_KEYSPACE []
                          (vfdw_plan_scan_pattern map (vfdw_plan_find_like_prefix relid map clauses)) None [] [])
          end
      end
  end.

End plan.

(* ---------------------------------------------------------------- *)
(** ** The private list *)

(** What stands in fdw_private: NULL is also the empty list. A node that is read as
    another kind, or a position behind the end, is an error here. *)
Inductive PrivNode :=
  | PrivNull
  | PrivInteger (z : Z)
  | PrivString (s : bytes)
  | PrivStrings (l : list bytes)
  | PrivTerms (l : list (bytes * Z)).

Definition priv_strings (l : list bytes) : PrivNode := match l with [] => PrivNull | _ => PrivStrings l end.
Definition priv_string (s : option bytes) : PrivNode := match s with None => PrivNull | Some s => PrivString s end.
Definition priv_terms (l : list (bytes * Z)) : PrivNode := match l with [] => PrivNull | _ => PrivTerms l end.

Definition VFDW_PRIV_STRATEGY : nat := 0.
Definition VFDW_PRIV_KEYS : nat := 1.
Definition VFDW_PRIV_PATTERN : nat := 2.
Definition VFDW_PRIV_KNN_FIELD : nat := 3.
Definition VFDW_PRIV_KNN_METRIC : nat := 4.
Definition VFDW_PRIV_KNN_K : nat := 5.
Definition VFDW_PRIV_KNN_FILTER : nat := 6.

Definition strategy_number (s : VfdwScanStrategy) : Z :=
  match s with
  | VFDW_SCAN_KEYSPACE => 0 | VFDW_SCAN_KEYS => 1 | VFDW_SCAN_SINGLETON => 2
  | VFDW_SCAN_KNN => 3 | VFDW_SCAN_KEY_PARAM => 4
  end.
Definition all_strategies : list VfdwScanStrategy :=
  [VFDW_SCAN_KEYSPACE; VFDW_SCAN_KEYS; VFDW_SCAN_SINGLETON; VFDW_SCAN_KNN; VFDW_SCAN_KEY_PARAM].

(** The list of a plan, slot by slot. *)
Definition plan_list `{PgTypes} (p : PlanPrivate) : list PrivNode :=
  [PrivInteger (strategy_number (priv_strategy p)); priv_strings (priv_keys p); priv_string (priv_pattern p);
   priv_string (priv_knn_field p); priv_string (priv_knn_metric p)]
  ++ [PrivInteger (priv_knn_k p)] ++ [priv_terms (priv_filter p)].

Definition bad_node : pg_error := elog_error "unexpected node in the plan".

Definition list_nth (l : list PrivNode) (n : nat) : result PrivNode :=
  match l !! n with Some x => Ok x | None => Raise bad_node end.
Definition intVal (n : PrivNode) : result Z := match n with PrivInteger z => Ok z | _ => Raise bad_node end.
Definition strVal (n : PrivNode) : result bytes := match n with PrivString s => Ok s | _ => Raise bad_node end.

Definition vfdw_plan_strategy (l : list PrivNode) : result VfdwScanStrategy :=
  n ← list_nth l VFDW_PRIV_STRATEGY;
  z ← intVal n;
  match find (λ s, bool_decide (strategy_number s = z)) all_strategies with
  | Some s => Ok s
  | None => Raise bad_node
  end.

Definition vfdw_plan_keys (l : list PrivNode) : result (list bytes) :=
  n ← list_nth l VFDW_PRIV_KEYS;
  match n with PrivNull => Ok [] | PrivStrings ks => Ok ks | _ => Raise bad_node end.

Definition vfdw_plan_string_at (l : list PrivNode) (slot : nat) : result (option bytes) :=
  n ← list_nth l slot;
  match n with PrivNull => Ok None | _ => s ← strVal n; Ok (Some s) end.

Definition vfdw_plan_pattern (l : list PrivNode) : result (option bytes) := vfdw_plan_string_at l VFDW_PRIV_PATTERN.
Definition vfdw_plan_knn_field (l : list PrivNode) : result (option bytes) := vfdw_plan_string_at l VFDW_PRIV_KNN_FIELD.
Definition vfdw_plan_knn_metric (l : list PrivNode) : result (option bytes) := vfdw_plan_string_at l VFDW_PRIV_KNN_METRIC.
Definition vfdw_plan_knn_k (l : list PrivNode) : result Z := n ← list_nth l VFDW_PRIV_KNN_K; intVal n.

Definition vfdw_plan_knn_filter (l : list PrivNode) : result (list (bytes * Z)) :=
  n ← list_nth l VFDW_PRIV_KNN_FILTER;
  match n with PrivNull => Ok [] | PrivTerms ts => Ok ts | _ => Raise bad_node end.

Definition vfdw_scan_strategy_name (l : list PrivNode) : result bytes :=
  match l with
  | [] => Ok "unknown"
  | _ =>
      s ← vfdw_plan_strategy l;
      match s with
      | VFDW_SCAN_KEYS =>
          keys ← vfdw_plan_keys l;
          Ok (if bool_decide (length keys = 1%nat) then "Key Lookup" else "Key List")
      | VFDW_SCAN_SINGLETON => Ok "Singleton Key"
      | VFDW_SCAN_KNN => Ok "Vector KNN"
      | VFDW_SCAN_KEY_PARAM => Ok "Key Lookup (parameterised)"
      | VFDW_SCAN_KEYSPACE => Ok "Keyspace Scan"
      end
  end.

(* ---------------------------------------------------------------- *)
(** ** The scan takes the plan (src/vfdw_scan_open.c) *)

Definition with_plan (p : ScanPlan) (s : VfdwScanState) : VfdwScanState :=
  ScanState p (ss_cursor s) (ss_page s) (ss_current s) (ss_answers s) (ss_redirect s) (ss_fanout s)
    (ss_overlay s) (ss_counters s).

Definition set_strategy (st : VfdwScanStrategy) (s : VfdwScanState) : VfdwScanState :=
  let p := ss_plan s in
  with_plan (MkScanPlan (sp_map p) st (sp_pattern p) (sp_scan_count p) (sp_pipeline_batch p) (sp_overlay_cid p)
               (sp_serverid p) (sp_userid p)) s.

Definition set_pattern (pat : option bytes) (s : VfdwScanState) : VfdwScanState :=
  let p := ss_plan s in
  with_plan (MkScanPlan (sp_map p) (sp_strategy p) pat (sp_scan_count p) (sp_pipeline_batch p) (sp_overlay_cid p)
               (sp_serverid p) (sp_userid p)) s.

Section adopt.
Context `{PgTypes} {P W : Type}.

(** [search_adopt] is vfdw_search_adopt. *)
Definition vfdw_scan_adopt_plan (search_adopt : list PrivNode → M (ScanWorld (P := P) (W := W)) unit)
    (fdw_private : list PrivNode) : M (ScanWorld (P := P) (W := W)) unit :=
  st ← throw (vfdw_plan_strategy fdw_private);
  set_state (set_strategy st);;;
  match st with
  | VFDW_SCAN_KNN => search_adopt fdw_private
  | VFDW_SCAN_KEY_PARAM => mret ()
  | _ =>
      (if negb (bool_decide (st = VFDW_SCAN_KEYSPACE))
       then keys ← throw (vfdw_plan_keys fdw_private); vfdw_scan_set_keys keys
       else mret ());;;
      (pattern ← throw (vfdw_plan_pattern fdw_private);
       set_state (set_pattern pattern))
  end.
End adopt.
