(* ===== verification/PlanFacts.v ===== *)
(** The access path asks for every key the query can return and for none
    outside the table (src/vfdw_plan.c), and where a parameterised path does not
    (src/vfdw_plan_param.c). *)
From S2P Require Import Prelude Opcode Option OptionFacts Error Cmd Wbuf TableMap TableMapFacts Vec Row ScanCmd.
From S2P Require Import RowFacts Val ValFacts Cluster Scan ScanFacts ScanResults Filter FilterFacts Knn Plan.
Local Open Scope Z_scope.

(* ---------------------------------------------------------------- *)
(** ** SQL LIKE *)

(** A percent sign stands for any bytes, an underscore for the bytes of one
    character, a backslash takes the next byte literally. *)
Inductive Like : bytes → bytes → Prop :=
  | like_end : Like "" ""
  | like_any p a s : Like p s → Like (String PERCENT p) (a +:+ s)
  | like_one p a s : Like p s → Like (String UNDERSCORE p) (a +:+ s)
  | like_escaped c p s : Like p s → Like (String BACKSLASH (String c p)) (String c s)
  | like_literal c p s :
      c ≠ PERCENT → c ≠ UNDERSCORE → c ≠ BACKSLASH → Like p s → Like (String c p) (String c s).

(** Every string a pattern matches starts with the prefix taken from it. *)
Lemma like_prefix_sound p s : Like p s → starts_with (like_prefix_loop p) s = true.
Proof.
  induction 1 as [|p a s _ IH|p a s _ IH|c p s _ IH|c p s H1 H2 H3 _ IH]; try done.
  - change (like_prefix_loop (String BACKSLASH (String c p))) with (String c (like_prefix_loop p)).
    simpl. by rewrite bool_decide_true.
  - cbn [like_prefix_loop]. rewrite !bool_decide_false by done. simpl. by rewrite bool_decide_true.
Qed.

(* ---------------------------------------------------------------- *)
(** ** The server's patterns *)

(** What Valkey documents of the patterns of SCAN MATCH, for the characters the
    wrapper uses: a plain or an escaped character matches itself and a final
    star matches the rest. *)
Class GlobLaws (glob : bytes → bytes → bool) := {
  glob_plain c p s : glob_special c = false →
    glob (String c p) s = match s with EmptyString => false | String d r => bool_decide (c = d) && glob p r end;
  glob_escaped c p s :
    glob (String BACKSLASH (String c p)) s =
      match s with EmptyString => false | String d r => bool_decide (c = d) && glob p r end;
  glob_star s : glob "*" s = true;
}.

(** An escaped literal with a star is a prefix test. *)
Lemma escape_glob_prefix `{GlobLaws glob} p s :
  glob (vfdw_escape_glob p +:+ "*") s = starts_with p s.
Proof.
  revert s. induction p as [|c p IH]; intros s; cbn [vfdw_escape_glob starts_with].
  - simpl_app. by rewrite glob_star.
  - destruct (glob_special c) eqn:E; simpl_app.
    + rewrite glob_escaped. destruct s; [done|]. by rewrite IH.
    + rewrite glob_plain by done. destruct s; [done|]. by rewrite IH.
Qed.

(* ---------------------------------------------------------------- *)
(** ** Lists of keys *)

Lemma refine_loop_elem prefix keys res k :
  k ∈ refine_loop prefix keys res ↔
  k ∈ res ∨ (k ∈ keys ∧ from_option (λ p, starts_with p k) true prefix = true).
Proof.
  revert res. induction keys as [|x keys IH]; intros res; cbn [refine_loop].
  - rewrite elem_of_nil. naive_solver.
  - rewrite elem_of_cons.
    destruct (from_option (λ p, starts_with p x) true prefix) eqn:E; cbn [negb].
    + case_bool_decide as Hx; rewrite IH; [naive_solver|].
      rewrite elem_of_app, list_elem_of_singleton. naive_solver.
    + rewrite IH. split; [naive_solver|]. intros [?|[[->|?] ?]]; [by left|congruence|by right].
Qed.

Lemma refine_loop_nodup prefix keys res : NoDup res → NoDup (refine_loop prefix keys res).
Proof.
  revert res. induction keys as [|x keys IH]; intros res Hn; cbn [refine_loop]; [done|].
  destruct (negb _); [by apply IH|]. case_bool_decide as Hx; [by apply IH|].
  apply IH, list.NoDup_app. split; [done|]. split; [|apply NoDup_singleton].
  intros y Hy ->%list_elem_of_singleton. done.
Qed.

(* ---------------------------------------------------------------- *)
(** ** What the quals mean *)

Section facts.
Context `{TypeCatalog} `{PgTypes} `{!QualCatalog}.
Context (relid : Z) (map : VfdwTableMap).

(** What PostgreSQL documents of the operators on a row whose key column, of
    type text or varchar, holds the key: under a deterministic collation strings
    are equal when their bytes are, ANY is a disjunction over the elements that
    are not null, and LIKE matches its pattern. *)
Class QualMeaning := {
  holds : Node → bytes → Prop;
  holds_restrictinfo c k : holds (RestrictInfo c) k → holds c k;
  holds_equality a b c typ d opno rt coll k :
    vfdw_key_column_pushable map = true → vfdw_is_key_var relid map (Var a b c typ) = true →
    vfdw_is_equality opno typ = true → vfdw_collation_is_deterministic coll = true →
    holds (OpExpr opno rt coll [Var a b c typ; Const typ (Some d)]) k ∨
    holds (OpExpr opno rt coll [Const typ (Some d); Var a b c typ]) k →
    k = vfdw_key_from_datum typ d;
  holds_any a b c typ arrtyp d opno coll k :
    vfdw_key_column_pushable map = true → vfdw_is_key_var relid map (Var a b c typ) = true →
    get_element_type arrtyp = typ →
    vfdw_is_equality opno typ = true → vfdw_collation_is_deterministic coll = true →
    holds (ScalarArrayOpExpr opno true coll [Var a b c typ; Const arrtyp (Some d)]) k →
    ∃ x, Some x ∈ deconstruct_array d ∧ k = vfdw_key_from_datum typ x;
  holds_like a b c typ t d rt coll k :
    vfdw_key_column_pushable map = true → vfdw_is_key_var relid map (Var a b c typ) = true →
    vfdw_collation_is_deterministic coll = true →
    holds (OpExpr OID_TEXT_LIKE_OP rt coll [Var a b c typ; Const t (Some d)]) k →
    Like (text_bytes d) k;
}.
Context `{!QualMeaning}.

Lemma holds_strip c k : holds c k → holds (strip_restrictinfo c) k.
Proof. destruct c; try done. apply holds_restrictinfo. Qed.

(** A clause that names keys is true only of the keys it names. *)
Lemma opexpr_names_keys opno rt coll args k :
  vfdw_key_column_pushable map = true → vfdw_keys_from_opexpr relid map opno coll args ≠ [] →
  holds (OpExpr opno rt coll args) k → k ∈ vfdw_keys_from_opexpr relid map opno coll args.
Proof.
  intros Hp Hf Hh. unfold vfdw_keys_from_opexpr in *.
  destruct args as [|l [|r [|]]]; try done.
  destruct (is_var r && is_const l) eqn:Es.
  - apply andb_true_iff in Es as [Hr Hl]. destruct r; try done. destruct l; try done.
    destruct (vfdw_is_key_var relid map _) eqn:Ek; [|done]. cbn [negb] in *.
    destruct constvalue as [d|]; [|done]. destruct (bool_decide (consttype = vartype)) eqn:Et; [|done].
    apply bool_decide_eq_true in Et as ->. destruct (vfdw_is_equality opno vartype) eqn:Eo; [|done].
    destruct (vfdw_collation_is_deterministic coll) eqn:Ec; [|done]. cbn [negb].
    apply list_elem_of_singleton. eapply holds_equality; eauto.
  - destruct (vfdw_is_key_var relid map l) eqn:Ek; [|done]. cbn [negb] in *.
    destruct l; try done. destruct r; try done.
    destruct constvalue as [d|]; [|done]. destruct (bool_decide (consttype = vartype)) eqn:Et; [|done].
    apply bool_decide_eq_true in Et as ->. destruct (vfdw_is_equality opno vartype) eqn:Eo; [|done].
    destruct (vfdw_collation_is_deterministic coll) eqn:Ec; [|done]. cbn [negb].
    apply list_elem_of_singleton. eapply holds_equality; eauto.
Qed.

Lemma saop_names_keys opno useOr coll args k :
  vfdw_key_column_pushable map = true → vfdw_keys_from_saop relid map opno useOr coll args ≠ [] →
  holds (ScalarArrayOpExpr opno useOr coll args) k → k ∈ vfdw_keys_from_saop relid map opno useOr coll args.
Proof.
  intros Hp Hf Hh. unfold vfdw_keys_from_saop in *. destruct useOr; [|done].
  destruct args as [|l [|r [|]]]; try done.
  destruct (vfdw_is_key_var relid map l) eqn:Ek; [|done]. cbn [negb] in *.
  destruct l; try done. destruct r; try done. destruct constvalue as [d|]; [|done].
  destruct (_ || _) eqn:Et; [done|]. apply orb_false_iff in Et as [_ Et].
  apply negb_false_iff, bool_decide_eq_true in Et.
  destruct (vfdw_is_equality opno _) eqn:Eo; [|done].
  destruct (vfdw_collation_is_deterministic coll) eqn:Ec; [|done]. cbn [negb] in *.
  destruct (bool_decide (VFDW_MAX_KEY_LIST < _)%nat); [done|].
  rewrite Et in Eo |- *.
  destruct (holds_any _ _ _ _ _ _ _ _ _ Hp Ek Et Eo Ec Hh) as (x & Hx & ->).
  apply list_elem_of_fmap. exists x. split; [done|]. apply list_elem_of_omap. by exists (Some x).
Qed.

Definition in_scope (k : bytes) : Prop := from_option (λ p, starts_with p k) true (map_keyprefix map) = true.

Lemma find_keys_sound clauses keys k :
  vfdw_key_column_pushable map = true → Forall (λ c, holds c k) clauses → in_scope k →
  find_keys_loop relid map clauses = Some keys → k ∈ keys.
Proof.
  intros Hp Hh Hs. induction Hh as [|c clauses Hc _ IH]; cbn [find_keys_loop]; [done|].
  case_bool_decide as Hf; [done|]. intros [= <-]. apply refine_loop_elem. right. split; [|done].
  apply holds_strip in Hc. destruct (strip_restrictinfo c); try done.
  - by eapply opexpr_names_keys.
  - by apply saop_names_keys.
Qed.

Lemma find_keys_scope clauses keys :
  find_keys_loop relid map clauses = Some keys → NoDup keys ∧ ∀ k, k ∈ keys → in_scope k.
Proof.
  induction clauses as [|c clauses IH]; cbn [find_keys_loop]; [done|].
  case_bool_decide as Hf; [done|]. intros [= <-]. split; [apply refine_loop_nodup, NoDup_nil_2|].
  intros k [Hk|[_ Hk]]%refine_loop_elem; [by apply not_elem_of_nil in Hk|done].
Qed.

Lemma find_like_sound clauses p k :
  vfdw_key_column_pushable map = true → Forall (λ c, holds c k) clauses →
  find_like_loop relid map clauses = Some p → starts_with p k = true.
Proof.
  intros Hp Hh. induction Hh as [|c clauses Hc _ IH]; cbn [find_like_loop]; [done|].
  destruct (like_prefix_of relid map (strip_restrictinfo c)) as [p'|] eqn:E; [|done]. intros [= ->].
  apply holds_strip in Hc. destruct (strip_restrictinfo c) as [| |opno rt coll args| | | |]; try done. simpl in E.
  destruct args as [|l [|r [|]]]; try done. destruct (bool_decide (opno = OID_TEXT_LIKE_OP)) eqn:Eo; [|done].
  apply bool_decide_eq_true in Eo as ->. cbn [negb] in E.
  destruct (vfdw_is_key_var relid map l) eqn:Ek; [|done]. destruct l; try done. cbn [negb] in E.
  destruct r as [|t [d|]| | | | |]; try done. destruct (vfdw_collation_is_deterministic coll) eqn:Ec; [|done].
  cbn [negb] in E. pose proof (like_prefix_sound _ _ (holds_like _ _ _ _ _ _ _ _ _ Hp Ek Ec Hc)) as Hl.
  unfold vfdw_like_prefix in E. destruct (like_prefix_loop (text_bytes d)); by simplify_eq.
Qed.
End facts.

Arguments holds {_ _ _ relid map _}.

Lemma starts_with_trans a b c : starts_with a b = true → starts_with b c = true → starts_with a c = true.
Proof.
  rewrite !starts_with_spec. intros [r ->] [r' ->]. exists (r +:+ r'). by rewrite append_assoc.
Qed.

(* ---------------------------------------------------------------- *)
(** ** The choice of keys *)

(** The keys a table holds by its own options; a keyset is asked of the server. *)
Definition table_key (map : VfdwTableMap) (k : bytes) : Prop :=
  in_scope map k ∧ ∀ s, map_singleton_key map = Some s → k = s.

(** The keys the scan of a plan looks at. *)
Definition asks `{PgTypes} (glob : bytes → bytes → bool) (priv : PlanPrivate) (k : bytes) : Prop :=
  match priv_strategy priv with
  | VFDW_SCAN_KEYS | VFDW_SCAN_SINGLETON => k ∈ priv_keys priv
  | VFDW_SCAN_KEYSPACE => from_option (λ pat, glob pat k) true (priv_pattern priv) = true
  | _ => False
  end.

Lemma pattern_prefix `{GlobLaws glob} map like k pat :
  vfdw_plan_scan_pattern map like = Some pat →
  glob pat k = true ↔ match like, map_keyprefix map with
                      | Some l, Some p => if starts_with p l then starts_with l k = true else starts_with p k = true
                      | Some l, None => starts_with l k = true
                      | None, Some p => starts_with p k = true
                      | None, None => False
                      end.
Proof.
  unfold vfdw_plan_scan_pattern. destruct (map_keyset map); [done|]. intros E.
  destruct like as [l|], (map_keyprefix map) as [p|]; simpl in E; try done.
  - destruct (starts_with p l); injection E as <-; by rewrite escape_glob_prefix.
  - injection E as <-. by rewrite escape_glob_prefix.
  - injection E as <-. by rewrite escape_glob_prefix.
Qed.

Lemma keyspace_plan_exact `{TypeCatalog} `{PgTypes} `{!QualCatalog} `{!FilterCatalog} `{GlobLaws glob} relid map
    `{!QualMeaning relid map} clauses :
  (map_keyset map = None ∨ map_keyprefix map = None) →
  let pat := vfdw_plan_scan_pattern map (vfdw_plan_find_like_prefix relid map clauses) in
  (∀ k, in_scope map k → Forall (λ c, holds c k) clauses → from_option (λ pat, glob pat k) true pat = true) ∧
  (∀ k, from_option (λ pat, glob pat k) true pat = true → in_scope map k).
Proof.
  intros Hx pat. set (like := vfdw_plan_find_like_prefix relid map clauses) in *. split.
  - intros k Hs Hh. destruct pat as [pt|] eqn:Ep; [|done]. simpl. apply (pattern_prefix _ _ _ _ Ep).
    assert (Hl : ∀ l, like = Some l → starts_with l k = true).
    { intros l. unfold like, vfdw_plan_find_like_prefix.
      destruct (vfdw_key_column_pushable map) eqn:E; [|done]. intros Hl. by eapply find_like_sound. }
    unfold in_scope in Hs. destruct like as [l|], (map_keyprefix map) as [p|] eqn:Epre; simpl in *; eauto.
    + destruct (starts_with p l); eauto.
    + unfold pat, vfdw_plan_scan_pattern in Ep. rewrite Epre in Ep. by destruct (map_keyset map).
  - intros k Hk. unfold in_scope. destruct (map_keyprefix map) as [p|] eqn:Epre; [|done]. simpl.
    destruct pat as [pt|] eqn:Ep; simpl in Hk.
    + apply (pattern_prefix _ _ _ _ Ep) in Hk. rewrite Epre in Hk. destruct like as [l|]; [|done].
      destruct (starts_with p l) eqn:E; [|done]. by eapply starts_with_trans.
    + exfalso. unfold pat, vfdw_plan_scan_pattern in Ep. destruct Hx as [Hx|Hx]; [|congruence].
      rewrite Hx, Epre in Ep. destruct like as [l|]; [|done]. simpl in Ep. by destruct (starts_with p l).
Qed.

(** The access path chosen for a query on one table is exact: the scan it
    describes looks at every key of the table for which all the restrictions
    hold, however many of them became a key list or a pattern, at no key outside
    the table's prefix or singleton key, and at no listed key twice. *)
Lemma plan_asks_the_right_keys `{TypeCatalog} `{PgTypes} `{!QualCatalog} `{!FilterCatalog} `{GlobLaws glob} root relid map
    `{!QualMeaning relid map} clauses implied priv :
  map_tabletype map ≠ VFDW_TABLE_VECTOR →
  (map_keyset map = None ∨ map_keyprefix map = None) →
  (map_singleton_key map = None ∨ map_keyprefix map = None) →
  vfdw_scan_plan root relid map clauses implied false = Ok priv →
  (∀ k, table_key map k → Forall (λ c, holds c k) clauses → asks glob priv k) ∧
  (∀ k, asks glob priv k → table_key map k) ∧ NoDup (priv_keys priv).
Proof.
  intros Ht Hx1 Hx2. unfold vfdw_scan_plan. rewrite bool_decide_eq_false_2 by done.
  destruct (map_singleton_key map) as [s|] eqn:Es.
  { intros [= <-]. destruct Hx2 as [|Hx2]; [done|]. unfold asks, table_key, in_scope. simpl. rewrite Hx2, Es.
    split_and!; [|intros k ->%list_elem_of_singleton; split; [done|]; by intros ? [= ->]|apply NoDup_singleton].
    intros k [_ Hk] _. apply list_elem_of_singleton. by apply Hk. }
  destruct (vfdw_plan_find_keys relid map clauses) as [keys|] eqn:Ek; intros [= <-]; unfold asks, table_key; simpl.
  - unfold vfdw_plan_find_keys in Ek. destruct (vfdw_key_column_pushable map) eqn:Ep; [|done]. cbn [negb] in Ek.
    destruct (find_keys_scope relid map clauses keys Ek) as [Hnd Hsc]. split_and!; [|by split; [apply Hsc|rewrite Es]|done].
    intros k [Hs _] Hh. by eapply find_keys_sound.
  - destruct (keyspace_plan_exact relid map clauses Hx1) as [H1' H2'].
    split_and!; [by intros k [Hs _] Hh; apply H1'|by split; [apply H2'|rewrite Es]|apply NoDup_nil_2].
Qed.

(* ---------------------------------------------------------------- *)
(** ** Operators and patterns to run it with *)

#[local] Existing Instance sample_catalog.
#[local] Existing Instance sample_types.
#[local] Existing Instance sample_float4.

#[local] Existing Instance sample_filter.

#[local] Instance sample_quals : QualCatalog := {|
  eq_opr _ := 98;
  get_collation_isdeterministic c := bool_decide (c = 100);
  deconstruct_array d := match d with SArray l => l | _ => [] end;
  text_bytes d := match d with SText b => b | _ => "" end;
|}.

Definition sample_binary (opno typ : Z) (d : Datum) (k : bytes) : Prop :=
  if bool_decide (opno = 98) then k = vfdw_key_from_datum typ d
  else if bool_decide (opno = OID_TEXT_LIKE_OP) then Like (text_bytes d) k else True.

Fixpoint sample_holds (n : Node) (k : bytes) : Prop :=
  match n with
  | RestrictInfo c => sample_holds c k
  | OpExpr opno _ _ [Var _ _ _ _; Const typ (Some d)] | OpExpr opno _ _ [Const typ (Some d); Var _ _ _ _] =>
      sample_binary opno typ d k
  | ScalarArrayOpExpr _ true _ [Var _ _ _ typ; Const _ (Some d)] =>
      ∃ x, Some x ∈ deconstruct_array d ∧ k = vfdw_key_from_datum typ x
  | _ => True
  end.

Lemma sample_is_equality opno typ : vfdw_is_equality opno typ = true → opno = 98.
Proof. intros H%bool_decide_eq_true. symmetry. exact H. Qed.

#[local] Instance sample_meaning relid map : QualMeaning relid map.
Proof.
  refine {| holds := sample_holds |}.
  - done.
  - intros a b c typ d opno rt coll k _ _ ->%sample_is_equality _ Hh. by destruct Hh.
  - intros a b c typ arrtyp d opno coll k _ _ _ _ _ Hh. exact Hh.
  - intros a b c typ t d rt coll k _ _ _ Hh. exact Hh.
Defined.

Fixpoint sample_glob (p s : bytes) : bool :=
  match p with
  | EmptyString => bool_decide (s = "")
  | String c p' =>
      let one := match s with EmptyString => false | String d r => bool_decide (c = d) && sample_glob p' r end in
      if bool_decide (c = "*"%char) then
        match p' with
        | EmptyString => true
        | _ => (fix rest s := sample_glob p' s || match s with EmptyString => false | String _ r => rest r end) s
        end
      else if bool_decide (c = BACKSLASH) then
        match p' with
        | EmptyString => false
        | String e p'' => match s with EmptyString => false | String d r => bool_decide (e = d) && sample_glob p'' r end
        end
      else if bool_decide (c = "?"%char) then
        match s with EmptyString => false | String _ r => sample_glob p' r end
      else one
  end.

#[local] Instance sample_glob_laws : GlobLaws sample_glob.
Proof.
  split.
  - intros c p s Hc. unfold glob_special in Hc. rewrite !orb_false_iff in Hc. destruct Hc as [[[[H1 H2] H3] H4] H5].
    cbn [sample_glob]. by rewrite H1, H5, H2.
  - intros c p s. done.
  - done.
Qed.

(** SELECT ... WHERE k LIKE 'q:1\_%' on a table with the prefix q:. *)
Definition like_clause : Node :=
  RestrictInfo (OpExpr OID_TEXT_LIKE_OP BOOLOID 100 [Var 1 0 1 TEXTOID; Const TEXTOID (Some (text_datum "q:1\_%"))]).

(** A query without ORDER BY or LIMIT. *)
Definition plain_query : PlannerInfo := MkPlannerInfo [] true false false [] 1 (-1).

Lemma plan_asks_the_right_keys_witness :
  ∃ priv, vfdw_scan_plan plain_query 1 list_map [like_clause] [] false = Ok priv ∧
    priv_pattern priv = Some "q:1_*" ∧ asks sample_glob priv "q:1_x" ∧
    (∀ k, asks sample_glob priv k → table_key list_map k).
Proof.
  eexists. split; [vm_compute; reflexivity|]. split; [reflexivity|].
  match goal with |- asks _ ?p _ ∧ _ =>
    destruct (plan_asks_the_right_keys (glob := sample_glob) plain_query 1 list_map [like_clause] [] p) as (Ha & Hb & _)
  end.
  - vm_compute. discriminate.
  - left. reflexivity.
  - left. reflexivity.
  - vm_compute. reflexivity.
  - split; [|exact Hb]. apply Ha.
    + split; [reflexivity|]. intros s Hs. vm_compute in Hs. discriminate.
    + constructor; [|constructor]. apply (like_literal "q"); [discriminate..|].
      apply (like_literal ":"); [discriminate..|]. apply (like_literal "1"); [discriminate..|].
      apply (like_escaped "_"). apply (like_any "" "x" ""). constructor.
Defined.

(* ---------------------------------------------------------------- *)
(** ** A parameterised path *)

Definition scoped_map (options : list DefElem) : VfdwTableMap :=
  match vfdw_map_build sample_parse_bool 7
    [Attribute "k" TEXTOID (-1) false [("key", "true")]; Attribute "v" TEXTOID (-1) false []]
    (("tabletype", "list") :: options) with
  | Ok m => m
  | Raise _ => sample_map
  end.

Definition scoped_plan (options : list DefElem) : ScanPlan :=
  MkScanPlan (scoped_map options) VFDW_SCAN_KEYSPACE None 100 2 0 1 10.

(** The join clause k = other.k. *)
Definition join_clause : ImpliedClause :=
  MkImplied (OpExpr 98 BOOLOID 100 [Var 1 0 1 TEXTOID; Var 2 0 1 TEXTOID]) {[1; 2]}.

(** Plan the inner side of a nested loop, and run it for one outer row. *)
Definition join_rows (options : list DefElem) (outer : bytes) : result (list ScanRow) :=
  priv ← vfdw_scan_plan plain_query 1 (scoped_map options) [] [join_clause] true;
  ((vfdw_scan_adopt_plan (λ _, mret ()) (plan_list priv);;;
    vfdw_scan_rescan list_server (Some outer);;;
    scan_rows list_server no_pool (λ _ w, w) id no_search 4 20)
   (open_world (scoped_plan options) list_conn wbuf_empty ∅ ())).1.

(** A parameterised path leaves the table: it displaces the key of a singleton
    table and asks a keyset table for no membership (the set is empty on this
    server), so the join returns rows of a key neither table holds, which a scan
    of the singleton table, or of the named key, does not. *)
Theorem parameterised_path_leaves_the_table :
  join_rows [("singleton_key", "q:1")] "q:3" = Ok [list_row "q:3" "c"] ∧
  join_rows [("keyset", "members")] "q:3" = Ok [list_row "q:3" "c"] ∧
  vfdw_scan_asks_membership (scoped_map [("keyset", "members")]) VFDW_SCAN_KEYS = true ∧
  vfdw_scan_asks_membership (scoped_map [("keyset", "members")]) VFDW_SCAN_KEY_PARAM = false.
Proof. vm_compute. repeat split. Qed.
