(* ===== verification/Open.v ===== *)
(** Opening and closing a scan (src/vfdw_scan_open.c): the connection, its database,
    what the table alone determines, the plan, and the search of a vector table
    (src/vfdw_search.c) behind the same producer.

    A scan runs on the pool: the connection it holds is leased in it, and a fan-out
    exchanges it for that of another node. Evaluating an expression and the quals of
    the node are parameters. *)
From S2P Require Import Prelude Opcode Option Error Cmd Connection ConnPool WriteOp Wbuf Overlay.
From S2P Require Import TableMap Ttl Vec Row ScanCmd Cluster Scan Filter Knn SearchInfo Search Plan.
Local Open Scope Z_scope.

Section open.
Context `{TypeCatalog} `{PgTypes} `{Float4IO} `{!FilterCatalog} `{!QualCatalog}.
Context {P : Type} (serve : list bytes → P → Reply * P).
Context (garbage : VfdwConnKey → VfdwConn (P := P)) (verify_mbstr : bytes → bool) (encoding : string).
Context (io_connect : bytes → Z → option bytes → result (P * list (option Fault))).
Context (tls_attach : result unit) (tls_reason : option string) (script_text : bytes).
Context (serverid userid : Z) (ct : Catalog) (subid : Z).
Context (beyond_copy : bytes → bytes).
(** ExecEvalExpr, with the type of the expression; ExecQual. *)
Context (eval : Node → Z * option Datum) (row_wanted : list (option Datum) → bool).

(** The pool, the entry the scan holds, and the search of the scan. *)
Record Lease := MkLease {
  ls_pool : Pool (P := P);
  ls_key : VfdwConnKey;
  ls_knn : option KnnQuery;
  ls_exprs : list Node;
  ls_pass : KnnPass;
}.
Abbreviation World := (ScanWorld (P := P) (W := Lease)).

(** What is left when no scan is open. *)
Record Backend := MkBackend {
  bk_pool : Pool (P := P);
  bk_maps : gmap (Z * Z) (option VfdwSlotMap);
  bk_wbuf : Wbuf;
}.

(** The valkeyContext of an entry, as the scan's batch leaves it. *)
Definition put_wire (k : VfdwConnKey) (conn : Conn (P := P)) (w : Pool (P := P)) : Pool :=
  set_entries (alter (λ c, set_socket (vc_open c) conn c) k (entries w)) w.

Definition lease_put (conn : Conn (P := P)) (l : Lease) : Lease :=
  let pool := (vfdw_release_connection (Some (ls_key l)) (put_wire (ls_key l) conn (ls_pool l))).2 in
  MkLease pool (ls_key l) (ls_knn l) (ls_exprs l) (ls_pass l).

Definition lease_get (node : VfdwClusterNode) : M Lease (Conn (P := P)) := λ l,
  let with_pool pool k := MkLease pool k (ls_knn l) (ls_exprs l) (ls_pass l) in
  match vfdw_get_connection_node serve garbage verify_mbstr encoding io_connect tls_attach tls_reason script_text
          serverid userid ct (node_host node) (node_port node) subid (ls_pool l) with
  | (Raise e, pool) => (Raise e, with_pool pool (ls_key l))
  | (Ok k, pool) =>
      match entries pool !! k with
      | Some c => (Ok (vc_wire c), with_pool pool k)
      | None => (Raise (elog_error "no entry"), with_pool pool (ls_key l))
      end
  end.

Definition backend_of (w : World) : Backend :=
  MkBackend (put_wire (ls_key (sw_pool w)) (bs_conn (sw_batch w)) (ls_pool (sw_pool w))) (sw_maps w) (sw_wbuf w).

(** Code that runs on an open scan; an error leaves only the backend. *)
Definition on_scan (m : M World unit) (w : World) : M Backend World := λ _,
  let '(r, w) := m w in
  match r with Ok _ => (Ok w, backend_of w) | Raise e => (Raise e, backend_of w) end.

Definition on_pool {A} (m : M (Pool (P := P)) A) : M Backend A := λ b,
  let '(r, pool) := m (bk_pool b) in (r, MkBackend pool (bk_maps b) (bk_wbuf b)).

(** The connection, with the database of the table and its expiry commands settled. *)
Definition open_connection (map : VfdwTableMap) : M (Pool (P := P)) VfdwConnKey :=
  k ← vfdw_get_connection_cluster serve garbage verify_mbstr encoding io_connect tls_attach tls_reason script_text
        serverid userid ct subid;
  on_entry k (vfdw_conn_select_db serve verify_mbstr encoding (to_database (map_options map))) ();;;
  when (bool_decide (0 < map_nttl map)%nat) (on_entry k (vfdw_ttl_require serve) ());;;
  mret k.

(** The zeroed state on a connection. *)
Definition first_world (map : VfdwTableMap) (k : VfdwConnKey) (c : VfdwConn (P := P)) (b : Backend) : World :=
  open_world (MkScanPlan map VFDW_SCAN_KEYSPACE None (so_scan_count (vc_opts c)) (so_pipeline_batch (vc_opts c)) 0
                serverid userid)
    (vc_wire c) (bk_wbuf b) (bk_maps b) (MkLease (bk_pool b) k None [] vfdw_search_reset).

(** [built] is vfdw_map_build of the table. *)
Definition vfdw_scan_state_create (built : result VfdwTableMap) : M Backend World :=
  map ← (λ b, (built, b));
  k ← on_pool (open_connection map);
  b ← get;
  match entries (bk_pool b) !! k with
  | None => raise (elog_error "no entry")
  | Some c =>
      on_scan
        (vfdw_scan_cluster_setup serve lease_get lease_put (so_cluster (vc_opts c));;;
         set_state (set_pattern (vfdw_plan_scan_pattern map None));;;
         match map_singleton_key map with
         | Some key => set_state (set_strategy VFDW_SCAN_SINGLETON);;; vfdw_scan_set_keys [key]
         | None => mret ()
         end)
        (first_world map k c b)
  end.

(* ---------------------------------------------------------------- *)
(** ** The search of a scan *)

Definition set_lease_of (f : Lease → Lease) : M World unit :=
  modify (λ w, MkScanWorld (sw_state w) (sw_batch w) (sw_wbuf w) (sw_maps w) (f (sw_pool w))).
Definition set_knn (knn : option KnnQuery) (l : Lease) : Lease :=
  MkLease (ls_pool l) (ls_key l) knn (ls_exprs l) (ls_pass l).
Definition set_exprs (exprs : list Node) (l : Lease) : Lease :=
  MkLease (ls_pool l) (ls_key l) (ls_knn l) exprs (ls_pass l).
Definition with_pass (pass : KnnPass) (l : Lease) : Lease :=
  MkLease (ls_pool l) (ls_key l) (ls_knn l) (ls_exprs l) pass.

(** vfdw_search_adopt, reading the slots of the plan; a NULL cannot be copied. *)
Definition search_adopt (l : list PrivNode) : M World unit :=
  p ← plan;
  field ← throw (vfdw_plan_knn_field l);
  metric ← throw (vfdw_plan_knn_metric l);
  k ← throw (vfdw_plan_knn_k l);
  filter ← throw (vfdw_plan_knn_filter l);
  match to_search_index (map_options (sp_map p)), field, metric with
  | Some _, Some _, Some _ =>
      set_lease_of (set_knn (Some (vfdw_search_adopt (sp_map p)
        (MkPrivate VFDW_SCAN_KNN [] None field metric k filter []))))
  | _, _, _ => raise bad_node
  end.

(** The producer of a vector table, over the batch of the scan. *)
Definition scan_search_next (fuel : nat) : M World (option ScanRow) := λ w,
  match ls_knn (sw_pool w), vfdw_search_init (eval <$> ls_exprs (sw_pool w)) with
  | Some knn, Some (qvec, bounds) =>
      let '(r, s) := vfdw_search_next serve knn (vfdw_row_ctx_init (sp_map (ss_plan (sw_state w)))) qvec bounds row_wanted fuel
                       (MkSearchWorld (ls_pass (sw_pool w)) (sw_batch w)) in
      (match r with Ok slot => Ok (option_map ServerRow slot) | Raise e => Raise e end,
       MkScanWorld (sw_state w) (kw_batch s) (sw_wbuf w) (sw_maps w) (with_pass (kw_pass s) (sw_pool w)))
  | _, _ => (Raise bad_node, w)
  end.

(* ---------------------------------------------------------------- *)
(** ** The callbacks *)

Definition set_overlay_cid (cid : Z) (s : VfdwScanState) : VfdwScanState :=
  let p := ss_plan s in
  with_plan (MkScanPlan (sp_map p) (sp_strategy p) (sp_pattern p) (sp_scan_count p) (sp_pipeline_batch p) cid
               (sp_serverid p) (sp_userid p)) s.

(** The rest of vfdw_scan_begin, on the state: the plan, the expressions it comes
    with and the snapshot. *)
Definition adopt_and_start (fdw_private : list PrivNode) (fdw_exprs : list Node) (curcid : Z) : M World unit :=
  vfdw_scan_adopt_plan search_adopt fdw_private;;;
  (p ← plan;
   (if bool_decide (sp_strategy p = VFDW_SCAN_KNN) || bool_decide (sp_strategy p = VFDW_SCAN_KEY_PARAM)
    then match fdw_exprs with
         | [] => raise bad_node
         | _ => set_lease_of (set_exprs fdw_exprs)
         end
    else mret ());;;
   set_state (set_overlay_cid curcid)).

(** None under EXPLAIN without ANALYZE. *)
Definition vfdw_scan_begin (explain_only : bool) (built : result VfdwTableMap) (curcid : Z)
    (fdw_private : list PrivNode) (fdw_exprs : list Node) : M Backend (option World) :=
  if explain_only then mret None
  else
    w ← vfdw_scan_state_create built;
    w ← on_scan (adopt_and_start fdw_private fdw_exprs curcid) w;
    mret (Some w).

(** The value of the key expression of a parameterised path, as a C string. *)
Definition param_value (l : Lease) : option bytes :=
  match ls_exprs l with
  | key :: _ => (λ d, until_nul (text_bytes d)) <$> (eval key).2
  | [] => None
  end.

(** vfdw_scan_rescan, its search starting over too. *)
Definition scan_rescan : M World unit :=
  l ← gets sw_pool;
  vfdw_scan_rescan serve (param_value l);;;
  set_lease_of (with_pass vfdw_search_reset).

Definition scan_run (calls fuel : nat) : M World (list ScanRow) :=
  scan_rows serve lease_get lease_put beyond_copy (scan_search_next fuel) calls fuel.

Definition vfdw_scan_state_close (w : World) : result unit * Backend :=
  let '(r, w) := vfdw_scan_end serve lease_put w in
  (r, MkBackend (ls_pool (sw_pool w)) (sw_maps w) (sw_wbuf w)).

Definition vfdw_scan_skipped (w : option World) : Z := from_option (λ w, sk_skipped (ss_counters (sw_state w))) 0 w.
Definition vfdw_scan_pages (w : option World) : Z := from_option (λ w, sk_pages (ss_counters (sw_state w))) 0 w.
End open.
