(* ===== verification/OpenFacts.v ===== *)
(** From the planner to the rows: what is written in a plan is what the scan reads
    from it, and a planned scan returns the rows of the keys its restrictions leave
    (src/vfdw_plan.c, src/vfdw_scan_open.c). *)
From S2P Require Import Prelude Opcode Option OptionFacts Error Cmd CmdFacts ScriptFacts Connection ConnPool WriteOp Wbuf Overlay.
From S2P Require Import TableMap TableMapFacts Ttl Vec Row ScanCmd RowFacts Val ValFacts Cluster ClusterFacts Scan ScanFacts ScanResults.
From S2P Require Import EstimateFacts Filter FilterFacts Knn SearchInfo Search Plan PlanFacts Open.
Local Open Scope Z_scope.

(* ---------------------------------------------------------------- *)
(** ** The list of a plan *)

Section plan_list.
Context `{PgTypes} (p : PlanPrivate).

Lemma read_strategy : vfdw_plan_strategy (plan_list p) = Ok (priv_strategy p).
Proof. unfold vfdw_plan_strategy. by destruct p as [[] ? ? ? ? ? ? ?]. Qed.

Lemma read_keys : vfdw_plan_keys (plan_list p) = Ok (priv_keys p).
Proof. by destruct p as [? [|? ?] ? ? ? ? ? ?]. Qed.

Lemma read_pattern : vfdw_plan_pattern (plan_list p) = Ok (priv_pattern p).
Proof. by destruct p as [? ? [?|] ? ? ? ? ?]. Qed.

Lemma read_field : vfdw_plan_knn_field (plan_list p) = Ok (priv_knn_field p).
Proof. by destruct p as [? ? ? [?|] ? ? ? ?]. Qed.

Lemma read_metric : vfdw_plan_knn_metric (plan_list p) = Ok (priv_knn_metric p).
Proof. by destruct p as [? ? ? ? [?|] ? ? ?]. Qed.

Lemma read_k : vfdw_plan_knn_k (plan_list p) = Ok (priv_knn_k p).
Proof. done. Qed.

Lemma read_filter : vfdw_plan_knn_filter (plan_list p) = Ok (priv_filter p).
Proof. by destruct p as [? ? ? ? ? ? [|? ?] ?]. Qed.
End plan_list.

Create Rewrite HintDb plan_list.
#[export] Hint Rewrite @read_strategy @read_keys @read_pattern @read_field @read_metric @read_k @read_filter : plan_list.

(* ---------------------------------------------------------------- *)
(** ** Opening *)

Section opened.
Context `{TypeCatalog} `{PgTypes} `{Float4IO} `{!FilterCatalog} `{!QualCatalog}.
Context {P : Type} (serve : list bytes → P → Reply * P).
Context (garbage : VfdwConnKey → VfdwConn (P := P)) (verify_mbstr : bytes → bool) (encoding : string).
Context (io_connect : bytes → Z → option bytes → result (P * list (option Fault))).
Context (tls_attach : result unit) (tls_reason : option string) (script_text : bytes).
Context (serverid userid : Z) (ct : Catalog) (subid : Z).

Abbreviation connect := (open_connection serve garbage verify_mbstr encoding io_connect tls_attach tls_reason script_text serverid userid ct subid).
Abbreviation begin := (vfdw_scan_begin serve garbage verify_mbstr encoding io_connect tls_attach tls_reason script_text serverid userid ct subid).

(** What the plan, the connection and the snapshot settle. *)
Definition planned (map : VfdwTableMap) (priv : PlanPrivate) (c : VfdwConn (P := P)) (cid : Z) : ScanPlan :=
  MkScanPlan map (priv_strategy priv) (priv_pattern priv) (so_scan_count (vc_opts c)) (so_pipeline_batch (vc_opts c)) cid
    serverid userid.

(** The keys a plan names. *)
Definition named_keys (priv : PlanPrivate) : list bytes :=
  if bool_decide (priv_strategy priv = VFDW_SCAN_KEYSPACE) then [] else until_nul <$> priv_keys priv.

Definition named_world (map : VfdwTableMap) (priv : PlanPrivate) (c : VfdwConn (P := P)) (cid : Z) (b : Backend (P := P))
    (l : Lease (P := P)) : ScanWorld (P := P) (W := Lease (P := P)) :=
  let p := planned map priv c cid in
  MkScanWorld (with_redirect (MkRedirect (named_keys priv) [] 0 false) (fresh_state p))
    (vfdw_batch_begin (sp_pipeline_batch p) (vc_wire c)) (bk_wbuf b) (bk_maps b) l.

Lemma begin_named map priv cid exprs (b : Backend (P := P)) k pool c :
  connect map (bk_pool b) = (Ok k, pool) → entries pool !! k = Some c → so_cluster (vc_opts c) = false →
  priv_strategy priv ≠ VFDW_SCAN_KNN → priv_strategy priv ≠ VFDW_SCAN_KEY_PARAM →
  (priv_strategy priv = VFDW_SCAN_KEYSPACE → map_singleton_key map = None) →
  let w := named_world map priv c cid b (MkLease pool k None [] vfdw_search_reset) in
  begin false (Ok map) cid (plan_list priv) exprs b = (Ok (Some w), backend_of w).
Proof.
  intros Ec Ek Hcl Hk1 Hk2 Hs w. unfold vfdw_scan_begin, vfdw_scan_state_create.
  unfold mbind at 1, M_bind at 1. unfold mbind at 1, M_bind at 1. unfold mbind at 1, M_bind at 1, on_pool. rewrite Ec.
  unfold mbind at 1, M_bind at 1, get. cbn [bk_pool]. rewrite Ek, Hcl.
  set (w0 := first_world _ _ _ _ _ _).
  assert (E1 : (vfdw_scan_cluster_setup serve
      (lease_get serve garbage verify_mbstr encoding io_connect tls_attach tls_reason script_text serverid userid ct subid)
      lease_put false w0) = (Ok false, w0)) by done.
  unfold on_scan. unfold mbind at 1, M_bind at 1. rewrite E1.
  unfold named_world, named_keys, planned in w. unfold adopt_and_start, vfdw_scan_adopt_plan.
  destruct (priv_strategy priv) eqn:Est; try done.
  all: destruct (map_singleton_key map) as [s|] eqn:Esk; try (specialize (Hs eq_refl); discriminate).
  all: unfold mbind, M_bind, throw, set_state, modify, vfdw_scan_set_keys, plan, gets; cbn -[plan_list].
  all: autorewrite with plan_list; rewrite Est; reflexivity.
Qed.

(** The strategies of a table that is not searched and whose path has no parameter. *)
Lemma plain_strategy root relid map clauses implied priv :
  map_tabletype map ≠ VFDW_TABLE_VECTOR → vfdw_scan_plan root relid map clauses implied false = Ok priv →
  priv_strategy priv ≠ VFDW_SCAN_KNN ∧ priv_strategy priv ≠ VFDW_SCAN_KEY_PARAM ∧
  (priv_strategy priv = VFDW_SCAN_KEYSPACE → map_singleton_key map = None).
Proof.
  intros Ht. unfold vfdw_scan_plan. rewrite bool_decide_eq_false_2 by done.
  destruct (map_singleton_key map); [|destruct (vfdw_plan_find_keys relid map clauses)]; by intros [= <-].
Qed.
End opened.

Lemma fmap_until_nul (keys : list bytes) : (∀ k, k ∈ keys → occurs NUL k = false) → until_nul <$> keys = keys.
Proof.
  intros Hk. induction keys as [|k keys IH]; [done|]. rewrite fmap_cons, until_nul_id by (apply Hk; set_solver).
  f_equal. apply IH. set_solver.
Qed.

(** A scan that stands at the beginning of [named_world] returns the rows of the keys
    named, or of the keys the traversal names. *)
Lemma named_world_rows `{TypeCatalog} `{PgTypes} `{Float4IO} {P : Type}
    (serve : list bytes → P → Reply * P) serverid userid pool_get pool_put beyond_copy search_next
    map priv (c : VfdwConn (P := P)) cid (b : Backend (P := P)) (l : Lease (P := P)) (rows_at : bytes → list ScanRow) keys calls fuel :
  let peer := cn_peer (vc_wire c) in
  let p := planned serverid userid map priv c cid in
  (∀ c, (serve c peer).2 = peer) → entry_clean c → vfdw_overlay_active (bk_wbuf b) = false →
  priv_strategy priv ≠ VFDW_SCAN_KNN →
  (∀ k, k ∈ keys → readable serve peer p k (rows_at k)) →
  (if bool_decide (priv_strategy priv = VFDW_SCAN_KEYSPACE)
   then ∃ pages, Pages (λ c, (serve c peer).1) p "0" pages ∧ keys = concat pages ∧ (weight pages + 2 ≤ fuel)%nat
   else keys = until_nul <$> priv_keys priv ∧ (length keys + 3 ≤ fuel)%nat) →
  (length (concat (rows_at <$> keys)) < calls)%nat →
  (scan_rows serve pool_get pool_put beyond_copy search_next calls fuel (named_world serverid userid map priv c cid b l)).1
    = Ok (concat (rows_at <$> keys)).
Proof.
  intros peer p Hu (Ho & Hi & Hf) Hb Hk Hread Hkeys Hcalls.
  assert (Hr : Forall2 (readable serve peer p) keys (rows_at <$> keys)).
  { clear -Hread. induction keys as [|k keys IH]; [constructor|]. rewrite fmap_cons. constructor.
    - apply Hread. set_solver.
    - apply IH. set_solver. }
  case_bool_decide as Hs.
  - destruct Hkeys as (pages & Hpg & -> & Hn). apply (scan_rows_left serve peer _ _ _ _ Hu p alone [] 0); try done.
    apply (scanning_left serve peer p alone [] 0 _ pages); try done.
    assert (E : named_world serverid userid map priv c cid b l = open_world p (vc_wire c) (bk_wbuf b) (bk_maps b) l).
    { unfold named_world, named_keys. by rewrite bool_decide_true. }
    rewrite E. by apply open_scanning.
  - destruct Hkeys as [-> Hn].
    pose proof (given_keys_scan_is_complete serve peer pool_get pool_put beyond_copy search_next Hu p
      (vc_wire c) (bk_wbuf b) (bk_maps b) l (priv_keys priv) (rows_at <$> (until_nul <$> priv_keys priv)) calls fuel) as Hg.
    unfold vfdw_scan_set_keys, set_state in Hg. rewrite modify_bind in Hg.
    unfold named_world, named_keys. rewrite bool_decide_false by done.
    apply Hg; try done. rewrite length_fmap in Hn. exact Hn.
Qed.

(** C21: a query on a table of one server, whose data does not change meanwhile,
    from the planner to its rows, for the
    plans that are not parameterised and the tables that are not a keyset table
    nor a vector table, in a transaction that has written nothing: the plan the
    planner writes is read back and adopted, and the scan it opens comes to an end
    with the rows of certain keys: keys of the table, among them every key that
    has rows and satisfies all the restrictions, none twice when the plan names
    them.  Whatever became a key list, a pattern or nothing, no row that the query
    wants is lost and no key outside the table is read.  A keyspace scan is given
    a traversal that names every key its pattern matches which has rows; a
    parameterised plan can leave the table (parameterised_path_leaves_the_table). *)
Theorem planned_scan_returns_the_rows `{TypeCatalog} `{PgTypes} `{Float4IO} `{!FilterCatalog} `{!QualCatalog} `{GlobLaws glob}
    {P : Type} (serve : list bytes → P → Reply * P) garbage verify_mbstr encoding io_connect tls_attach tls_reason script_text
    serverid userid ct subid beyond_copy eval row_wanted (b : Backend (P := P)) k0 pool (c : VfdwConn (P := P)) curcid
    root relid map `{!QualMeaning relid map} clauses implied priv (rows_at : bytes → list ScanRow) :
  let peer := cn_peer (vc_wire c) in
  let p := planned serverid userid map priv c curcid in
  (∀ c, (serve c peer).2 = peer) →
  open_connection serve garbage verify_mbstr encoding io_connect tls_attach tls_reason script_text serverid userid ct subid
    map (bk_pool b) = (Ok k0, pool) →
  entries pool !! k0 = Some c → entry_clean c → so_cluster (vc_opts c) = false → vfdw_overlay_active (bk_wbuf b) = false →
  map_tabletype map ≠ VFDW_TABLE_VECTOR → map_keyset map = None →
  (map_singleton_key map = None ∨ map_keyprefix map = None) →
  vfdw_scan_plan root relid map clauses implied false = Ok priv →
  (∀ k, k ∈ priv_keys priv → occurs NUL k = false) →
  (∀ k, table_key map k → readable serve peer p k (rows_at k)) →
  (priv_strategy priv = VFDW_SCAN_KEYSPACE → ∃ pages, Pages (λ c, (serve c peer).1) p "0" pages ∧
     (∀ k, k ∈ concat pages → asks glob priv k) ∧ (∀ k, asks glob priv k → rows_at k ≠ [] → k ∈ concat pages)) →
  ∃ keys w b' enough,
    vfdw_scan_begin serve garbage verify_mbstr encoding io_connect tls_attach tls_reason script_text serverid userid ct subid
      false (Ok map) curcid (plan_list priv) (priv_exprs priv) b = (Ok (Some w), b') ∧
    (∀ calls fuel, (enough ≤ calls)%nat → (enough ≤ fuel)%nat →
       (scan_run serve garbage verify_mbstr encoding io_connect tls_attach tls_reason script_text serverid userid ct subid
          beyond_copy eval row_wanted calls fuel w).1 = Ok (concat (rows_at <$> keys))) ∧
    (∀ k, table_key map k → Forall (λ q, holds q k) clauses → rows_at k ≠ [] → k ∈ keys) ∧
    (∀ k, k ∈ keys → table_key map k) ∧
    (priv_strategy priv ≠ VFDW_SCAN_KEYSPACE → NoDup keys).
Proof.
  intros peer p Hu Hc Hk0 Hclean Hcl Hb Ht Hks Hsk Hplan Hnul Hread Hpages.
  destruct (plan_asks_the_right_keys (glob := glob) root relid map clauses implied priv Ht (or_introl Hks) Hsk Hplan)
    as (Hall & Hin & Hnd).
  destruct (plain_strategy _ _ _ _ _ _ Ht Hplan) as (Hn1 & Hn2 & Hn3).
  pose proof (begin_named serve garbage verify_mbstr encoding io_connect tls_attach tls_reason script_text serverid userid ct
    subid map priv curcid (priv_exprs priv) b k0 pool c Hc Hk0 Hcl Hn1 Hn2 Hn3) as Eb.
  assert (Hid : until_nul <$> priv_keys priv = priv_keys priv) by (apply fmap_until_nul; by apply Hnul).
  destruct (decide (priv_strategy priv = VFDW_SCAN_KEYSPACE)) as [Hs|Hs].
  - destruct (Hpages Hs) as (pages & Hpg & Hp1 & Hp2).
    exists (concat pages). eexists _, _, (S (length (concat (rows_at <$> concat pages))) + (weight pages + 2))%nat.
    split; [exact Eb|]. split; [|split; [|split; [|done]]].
    + intros calls fuel Hcalls Hfuel. apply named_world_rows; try done; [| |lia].
      * intros k Hk. by apply Hread, Hin, Hp1.
      * rewrite bool_decide_true by done. exists pages. by split_and!; [..|lia].
    + intros k Hk Hh Hne. apply Hp2; [|done]. by apply Hall.
    + intros k Hk. by apply Hin, Hp1.
  - assert (Hasks : ∀ k, asks glob priv k ↔ k ∈ priv_keys priv) by (unfold asks; by destruct (priv_strategy priv)).
    exists (priv_keys priv). eexists _, _, (S (length (concat (rows_at <$> priv_keys priv))) + (length (priv_keys priv) + 3))%nat.
    split; [exact Eb|]. split; [|split; [|split; [|done]]].
    + intros calls fuel Hcalls Hfuel. apply named_world_rows; try done; [| |lia].
      * intros k Hk. by apply Hread, Hin, Hasks.
      * rewrite bool_decide_false by done. split; [by rewrite Hid|lia].
    + intros k Hk Hh _. by apply Hasks, Hall.
    + intros k Hk. by apply Hin, Hasks.
Qed.

(* ---------------------------------------------------------------- *)
(** ** A query to run *)

#[local] Existing Instance sample_catalog.
#[local] Existing Instance sample_types.
#[local] Existing Instance sample_float4.
#[local] Existing Instance sample_filter.
#[local] Existing Instance sample_quals.
#[local] Existing Instance sample_meaning.
#[local] Existing Instance sample_glob_laws.

(** Two lists under the prefix 1_, and one beside it. *)
Definition members_of (k : bytes) : list bytes :=
  if bool_decide (k = "q:1_a") then ["a"] else if bool_decide (k = "q:1_b") then ["b"; "c"]
  else if bool_decide (k = "q:2_d") then ["d"] else [].
Definition walk_server (c : list bytes) (n : unit) : Reply * unit :=
  (match c with
   | verb :: k :: _ =>
       if bool_decide (verb = "SCAN") then page_reply "0" ["q:1_a"; "q:1_b"]
       else if bool_decide (verb = "LRANGE") then array_reply (string_reply <$> members_of k)
       else status_reply "OK"
   | _ => status_reply "OK"
   end, n).
Definition walk_rows (k : bytes) : list ScanRow := list_row k <$> members_of k.

(** SELECT ... FROM list_map WHERE k LIKE 'q:1\_%'. *)
Definition walk_plan : PlanPrivate :=
  match vfdw_scan_plan plain_query 1 list_map [like_clause] [] false with
  | Ok priv => priv
  | Raise _ => MkPrivate VFDW_SCAN_KEYS [] None None None 0 [] []
  end.
Definition empty_backend : Backend (P := unit) := MkBackend (MkPool None 0) ∅ wbuf_empty.
Definition walk_connect : result VfdwConnKey * Pool (P := unit) :=
  open_connection walk_server (blank ()) (λ _, true) "UTF8" (at_once () []) (Ok ()) None "#!lua" 1 10 shelf_catalog 1
    list_map (bk_pool empty_backend).
Definition walk_key : VfdwConnKey := match walk_connect.1 with Ok k => k | Raise _ => (0, 0, 0) end.
Definition walk_conn : VfdwConn (P := unit) := default (blank () walk_key) (entries walk_connect.2 !! walk_key).

Lemma walk_readable k : readable walk_server () (planned 1 10 list_map walk_plan walk_conn 7) k (walk_rows k).
Proof.
  split.
  - unfold walk_rows.
    assert (E : (walk_server (value_request (planned 1 10 list_map walk_plan walk_conn 7) k) ()).1
                = array_reply (string_reply <$> members_of k)) by reflexivity.
    unfold key_rows, key_answers. rewrite E. unfold members_of. repeat case_bool_decide; try subst k; vm_compute; reflexivity.
  - reflexivity.
Qed.

Lemma planned_scan_returns_the_rows_witness :
  ∃ keys w b' enough,
    vfdw_scan_begin walk_server (blank ()) (λ _, true) "UTF8" (at_once () []) (Ok ()) None "#!lua" 1 10 shelf_catalog 1
      false (Ok list_map) 7 (plan_list walk_plan) (priv_exprs walk_plan) empty_backend = (Ok (Some w), b') ∧
    (∀ calls fuel, (enough ≤ calls)%nat → (enough ≤ fuel)%nat →
       (scan_run walk_server (blank ()) (λ _, true) "UTF8" (at_once () []) (Ok ()) None "#!lua" 1 10 shelf_catalog 1
          id (λ _, (0, None)) (λ _, true) calls fuel w).1 = Ok (concat (walk_rows <$> keys))) ∧
    (∀ k, table_key list_map k → Forall (λ q, holds (QualMeaning := sample_meaning 1 list_map) q k) [like_clause] → walk_rows k ≠ [] → k ∈ keys) ∧
    (∀ k, k ∈ keys → table_key list_map k) ∧
    (priv_strategy walk_plan ≠ VFDW_SCAN_KEYSPACE → NoDup keys).
Proof.
  apply (planned_scan_returns_the_rows (glob := sample_glob) walk_server (blank ()) (λ _, true) "UTF8" (at_once () []) (Ok ()) None
    "#!lua" 1 10 shelf_catalog 1 id (λ _, (0, None)) (λ _, true) empty_backend walk_key walk_connect.2 walk_conn 7
    plain_query 1 list_map [like_clause] [] walk_plan walk_rows).
  - done.
  - vm_compute. reflexivity.
  - vm_compute. reflexivity.
  - by split_and!.
  - reflexivity.
  - reflexivity.
  - vm_compute. discriminate.
  - reflexivity.
  - left. reflexivity.
  - vm_compute. reflexivity.
  - intros k Hk. exfalso. vm_compute in Hk. by inversion Hk.
  - intros k _. apply walk_readable.
  - intros _. exists [["q:1_a"; "q:1_b"]]. split; [apply pages_last; reflexivity|]. split.
    + intros k. cbn [concat app]. rewrite !elem_of_cons, elem_of_nil. intros [-> |[-> |[]]]; reflexivity.
    + intros k Hk Hne. cbn [concat app]. rewrite !elem_of_cons, elem_of_nil. unfold walk_rows, members_of in Hne.
      repeat case_bool_decide; try done; [by left|by right; left|]. subst k. by vm_compute in Hk.
Defined.
