(* ===== verification/Entry.v ===== *)
(** The entry points of the planner, EXPLAIN and ANALYZE (src/valkey_fdw.c): the paths
    offered, the plan made of the one chosen, what EXPLAIN reads from a plan, and the
    option table as SQL sees it.

    Costs and row counts of PostgreSQL are numbers in Q and Z; extracting the clauses
    of restrictions, estimating a parameterised path and the cost of a tuple are
    parameters. *)
From Stdlib Require Import QArith.
From S2P Require Import Prelude Opcode Option Error Cmd TableMap Vec Row ScanCmd Wbuf Cluster Scan Filter Knn Plan.
Local Open Scope Z_scope.

(* ---------------------------------------------------------------- *)
(** ** The option table in SQL *)

Definition vfdw_option_hint (context : OptContext) : bytes :=
  let buf := fold_left (λ buf def,
    if negb (bool_decide (od_context def = context)) then buf
    else buf +:+ (if bool_decide (buf = "") then "" else ", ") +:+ od_name def) vfdw_options "" in
  if bool_decide (buf = "") then "<none>" else buf.

Definition vfdw_option_kind_label (kind : VfdwOptKind) : bytes :=
  match kind with
  | VFDW_OPT_STRING => "string"
  | VFDW_OPT_INT => "integer"
  | VFDW_OPT_BOOL => "boolean"
  | VFDW_OPT_ENUM => "enum"
  | VFDW_OPT_PATH => "path"
  end.

Definition context_label (context : OptContext) : bytes :=
  match context with
  | ForeignServerRelationId => "server"
  | UserMappingRelationId => "user_mapping"
  | ForeignTableRelationId => "table"
  | AttributeRelationId => "column"
  end.

(** name, context, type, default, sensitive, requires_superuser. *)
Definition OptionRow : Type := bytes * bytes * bytes * option bytes * bool * bool.

Definition valkey_fdw_options : list OptionRow :=
  (λ def, (od_name def, context_label (od_context def), vfdw_option_kind_label (od_kind def), od_defval def, od_sensitive def,
           negb (bool_decide (od_priv def = VFDW_OPTPRIV_NONE)))) <$> vfdw_options.

(* ---------------------------------------------------------------- *)
(** ** Paths and plans *)

Section entry.
Context `{TypeCatalog} `{PgTypes} `{!FilterCatalog} `{!QualCatalog}.
Context (parse_bool : bytes → option bool) (extract_actual_clauses : list Node → list Node).
Context (ppi_rows : gset Z → option Z) (cpu_tuple_cost : Q).

Record ForeignPath := MkPath {
  fp_rows : Z;
  fp_startup_cost : Q;
  fp_total_cost : Q;
  fp_pathkeys : list PathKey;
  fp_required_outer : gset Z;
}.

Definition vfdw_plan_param_path (relid : Z) (map : VfdwTableMap) (implied : list ImpliedClause) : list ForeignPath :=
  match vfdw_plan_param_key relid map implied with
  | None => []
  | Some (_, outer) => [MkPath (default 1 (ppi_rows outer)) 1 (1 + cpu_tuple_cost)%Q [] outer]
  end.

(** [options] are those of the server, [rows] the estimate of the relation. *)
Definition vfdwGetForeignPaths (options : list DefElem) (root : PlannerInfo) (relid : Z) (map : VfdwTableMap)
    (implied : list ImpliedClause) (rows : Z) : result (list ForeignPath) :=
  '(rows, pathkeys) ← vfdwKnnPathkeys parse_bool options root relid map rows;
  Ok (MkPath rows 10 (10 + inject_Z rows * cpu_tuple_cost)%Q pathkeys ∅ :: vfdw_plan_param_path relid map implied).

Record ForeignScan := MkForeignScan {
  fs_qual : list Node;
  fs_fdw_exprs : list Node;
  fs_fdw_private : list PrivNode;
}.

(** A path has parameters when it requires other relations. *)
Definition vfdwGetForeignPlan (root : PlannerInfo) (relid : Z) (map : VfdwTableMap) (implied : list ImpliedClause)
    (best_path : ForeignPath) (scan_clauses : list Node) : result ForeignScan :=
  let scan_clauses := extract_actual_clauses scan_clauses in
  priv ← vfdw_scan_plan root relid map scan_clauses implied (bool_decide (fp_required_outer best_path ≠ ∅));
  Ok (MkForeignScan scan_clauses (priv_exprs priv) (plan_list priv)).

(* ---------------------------------------------------------------- *)
(** ** EXPLAIN and ANALYZE *)

(** A property and its text; text that is NULL cannot be printed. *)
Definition explain_text (label : bytes) (value : option bytes) : result (list (bytes * bytes)) :=
  match value with Some v => Ok [(label, v)] | None => Raise bad_node end.
Definition explain_integer (label : bytes) (value : Z) : result (list (bytes * bytes)) := Ok [(label, dec value)].

Definition vfdwExplainKnn (private : list PrivNode) : result (list (bytes * bytes)) :=
  field ← vfdw_plan_knn_field private;
  a ← explain_text "Valkey Search Field" field;
  metric ← vfdw_plan_knn_metric private;
  b ← explain_text "Valkey Search Metric" metric;
  k ← vfdw_plan_knn_k private;
  c ← explain_integer "Valkey Search K" k;
  filter ← vfdw_plan_knn_filter private;
  d ← (if bool_decide (filter = []) then Ok []
       else explain_text "Valkey Search Filter" (Some (vfdw_filter_describe (vfdw_filter_decode filter))));
  Ok (a ++ b ++ c ++ d).

(** [skipped] and [pages] are the counters of the scan, which run under ANALYZE. *)
Definition vfdwExplainForeignScan (analyze : bool) (skipped pages : Z) (private : list PrivNode)
    : result (list (bytes * bytes)) :=
  name ← vfdw_scan_strategy_name private;
  a ← explain_text "Valkey Strategy" (Some name);
  strategy ← vfdw_plan_strategy private;
  b ← match strategy with
      | VFDW_SCAN_KEYSPACE =>
          pattern ← vfdw_plan_pattern private;
          match pattern with Some p => explain_text "Valkey Match" (Some p) | None => Ok [] end
      | VFDW_SCAN_KEYS => keys ← vfdw_plan_keys private; explain_integer "Valkey Keys" (Z.of_nat (length keys))
      | VFDW_SCAN_KNN => vfdwExplainKnn private
      | VFDW_SCAN_SINGLETON | VFDW_SCAN_KEY_PARAM => Ok []
      end;
  c ← (if (analyze : bool) then explain_integer "Valkey Keys Skipped" skipped else Ok []);
  d ← (if (analyze : bool) && bool_decide (strategy = VFDW_SCAN_KEYSPACE)
       then explain_integer "Valkey Scan Round Trips" pages else Ok []);
  Ok (a ++ b ++ c ++ d).
End entry.

(** The pages of the table when it can be sampled. *)
Definition vfdwAnalyzeForeignTable (built : result VfdwTableMap) : result Z :=
  map ← built;
  if bool_decide (map_tabletype map = VFDW_TABLE_VECTOR)
  then Raise (PgError ERRCODE_FEATURE_NOT_SUPPORTED ("cannot ANALYZE a Valkey " +:+ quoted "vector" +:+ " table"))
  else Ok 0.
