(* ===== verification/EntryFacts.v ===== *)
(** What the planner is offered can be planned and explained, and the option table
    shown in SQL is the one that is consulted (src/valkey_fdw.c). *)
From Stdlib Require Import QArith.
From S2P Require Import Prelude Opcode Option OptionFacts Error Cmd TableMap TableMapFacts Vec Row ScanCmd RowFacts Val ValFacts.
From S2P Require Import Cluster Scan ScanResults Filter FilterFacts Knn Plan PlanFacts OpenFacts Entry.
Local Open Scope Z_scope.

(* ---------------------------------------------------------------- *)
(** ** Options *)

Lemma context_label_inj a b : context_label a = context_label b → a = b.
Proof. by destruct a, b. Qed.

Lemma find_option_some name ctx d :
  d ∈ vfdw_options → od_context d = ctx → od_name d = name → is_Some (vfdw_find_option name ctx).
Proof.
  intros Hd Hc Hn. unfold vfdw_find_option.
  destruct (list_find_elem_of (λ d, od_context d = ctx ∧ od_name d = name) vfdw_options d Hd (conj Hc Hn)) as [p ->].
  by eexists.
Qed.

(** The listing shows exactly the options that are accepted. *)
Theorem listed_options_are_accepted name ctx :
  is_Some (vfdw_find_option name ctx) ↔ ∃ row, row ∈ valkey_fdw_options ∧ row.1.1.1.1 = (name, context_label ctx).
Proof.
  split.
  - intros [d (Hin & Hc & Hn)%find_option_in]. eexists. split; [by apply list_elem_of_fmap_2|]. cbn. by rewrite Hn, Hc.
  - intros (row & (d & -> & Hin)%list_elem_of_fmap & E). cbn in E. injection E as En Ec.
    by apply (find_option_some name ctx d Hin), En; apply context_label_inj.
Qed.

(* ---------------------------------------------------------------- *)
(** ** EXPLAIN *)

Section explain.
Context `{TypeCatalog} `{PgTypes} `{!FilterCatalog}.

Definition strategy_name (p : PlanPrivate) : bytes :=
  match priv_strategy p with
  | VFDW_SCAN_KEYSPACE => "Keyspace Scan"
  | VFDW_SCAN_KEYS => if bool_decide (length (priv_keys p) = 1%nat) then "Key Lookup" else "Key List"
  | VFDW_SCAN_SINGLETON => "Singleton Key"
  | VFDW_SCAN_KNN => "Vector KNN"
  | VFDW_SCAN_KEY_PARAM => "Key Lookup (parameterised)"
  end.

Lemma read_name p : vfdw_scan_strategy_name (plan_list p) = Ok (strategy_name p).
Proof.
  unfold vfdw_scan_strategy_name. destruct (plan_list p) as [|n l] eqn:E; [done|]. rewrite <- E, read_strategy.
  cbn [mbind result_bind]. unfold strategy_name. destruct (priv_strategy p); try done. by rewrite read_keys.
Qed.

(** EXPLAIN reads every plan whose search, if it is one, has a field and a metric. *)
Lemma explain_reads analyze skipped pages p :
  (priv_strategy p = VFDW_SCAN_KNN → is_Some (priv_knn_field p) ∧ is_Some (priv_knn_metric p)) →
  ∃ props, vfdwExplainForeignScan analyze skipped pages (plan_list p) = Ok (("Valkey Strategy", strategy_name p) :: props).
Proof.
  intros Hk. unfold vfdwExplainForeignScan, vfdwExplainKnn. rewrite read_name, read_strategy, read_pattern, read_keys,
    read_field, read_metric, read_k, read_filter. cbn [mbind result_bind explain_text].
  destruct (priv_strategy p) eqn:Es.
  1: destruct (priv_pattern p).
  5: destruct (Hk eq_refl) as [[f ->] [m ->]]; destruct (bool_decide (priv_filter p = [])).
  all: destruct analyze; cbn [mbind result_bind explain_text explain_integer andb]; by eexists.
Qed.
End explain.

(* ---------------------------------------------------------------- *)
(** ** Paths *)

(** No other relation, no parameter. *)
Lemma no_param_key `{PgTypes} `{!QualCatalog} `{TypeCatalog} relid map implied :
  Forall (λ ri, ri_relids ri ⊆ {[relid]}) implied → vfdw_plan_param_key relid map implied = None.
Proof.
  intros Hi. unfold vfdw_plan_param_key. destruct (vfdw_key_column_pushable map); [|done]. cbn [negb].
  induction Hi as [|ri implied Hri Hi IH]; [done|]. cbn [param_key_loop].
  assert (E : ri_relids ri ∖ {[relid]} = ∅) by set_solver. rewrite E, (bool_decide_true (∅ = ∅)) by done.
  repeat (case_match; try done).
Qed.

Lemma param_key_outer `{PgTypes} `{!QualCatalog} `{TypeCatalog} relid map implied key outer :
  vfdw_plan_param_key relid map implied = Some (key, outer) → outer ≠ ∅.
Proof.
  unfold vfdw_plan_param_key. destruct (vfdw_key_column_pushable map); [|done]. cbn [negb].
  induction implied as [|ri implied IH]; cbn [param_key_loop]; [done|].
  repeat (case_match; try done). case_bool_decide; [done|]. by intros [= _ <-].
Qed.

(** A search is of a query over one relation. *)
Lemma matched_alone `{TypeCatalog} `{PgTypes} `{!FilterCatalog} root relid map knn :
  vfdw_knn_match root relid map = Some knn → nbase root = 1.
Proof.
  unfold vfdw_knn_match. case_bool_decide; [|done]. cbn [negb]. destruct (vfdw_knn_scan_owns_limit root) eqn:Eo; [|done].
  unfold vfdw_knn_scan_owns_limit in Eo. rewrite !andb_true_iff, !bool_decide_eq_true in Eo. tauto.
Qed.

Lemma searched_plan `{TypeCatalog} `{PgTypes} `{!FilterCatalog} root relid map knn :
  vfdw_knn_match root relid map = Some knn →
  ∃ priv bounds, vfdw_plan_search root relid map = Ok priv ∧ priv_strategy priv = VFDW_SCAN_KNN ∧
    priv_knn_field priv = Some (knn_field knn) ∧ priv_knn_metric priv = Some (knn_metric knn) ∧ priv_knn_k priv = knn_k knn ∧
    priv_exprs priv = knn_qvec knn :: bounds.
Proof. intros E. unfold vfdw_plan_search. rewrite E. by eexists _, _. Qed.

(** A scan that can start, and be explained, on the path it was made of. *)
Definition well_planned `{PgTypes} `{!FilterCatalog} (root : PlannerInfo) (path : ForeignPath) (scan : ForeignScan) : Prop :=
  ∃ strategy, vfdw_plan_strategy (fs_fdw_private scan) = Ok strategy ∧
    (strategy = VFDW_SCAN_KEY_PARAM ↔ fp_required_outer path ≠ ∅) ∧
    match strategy with
    | VFDW_SCAN_KEY_PARAM => ∃ key, fs_fdw_exprs scan = [key]
    | VFDW_SCAN_KNN => ∃ qvec bounds k, fs_fdw_exprs scan = qvec :: bounds ∧ vfdw_plan_knn_k (fs_fdw_private scan) = Ok k ∧
        fp_rows path = k ∧ fp_pathkeys path = query_pathkeys root
    | _ => fs_fdw_exprs scan = [] ∧ fp_pathkeys path = []
    end ∧
    ∀ analyze skipped pages, ∃ name props, vfdw_scan_strategy_name (fs_fdw_private scan) = Ok name ∧
      vfdwExplainForeignScan analyze skipped pages (fs_fdw_private scan) = Ok (("Valkey Strategy", name) :: props).

Section offered.
Context `{TypeCatalog} `{PgTypes} `{!FilterCatalog} `{!QualCatalog} (root : PlannerInfo) (relid : Z) (map : VfdwTableMap).

Lemma search_well_planned rows startup total knn qual :
  vfdw_knn_match root relid map = Some knn → rows = knn_k knn →
  ∃ priv, vfdw_plan_search root relid map = Ok priv ∧
    well_planned root (MkPath rows startup total (query_pathkeys root) ∅) (MkForeignScan qual (priv_exprs priv) (plan_list priv)).
Proof.
  intros Em ->. destruct (searched_plan _ _ _ _ Em) as (priv & bounds & Ep & Es & Ef & Emt & Ek & Ee).
  exists priv. split; [done|]. exists VFDW_SCAN_KNN. cbn [fs_fdw_private fs_fdw_exprs fp_required_outer fp_rows fp_pathkeys].
  split; [by rewrite read_strategy, Es|]. split; [done|]. split.
  - exists (knn_qvec knn), bounds, (knn_k knn). by rewrite read_k, Ek.
  - intros analyze skipped pages. exists (strategy_name priv).
    destruct (explain_reads analyze skipped pages priv) as [props Ex]; [rewrite Ef, Emt; eauto|].
    exists props. by rewrite read_name.
Qed.

(** Any other plan is well planned when it waits for an expression as its path says. *)
Lemma plain_well_planned path qual priv :
  priv_strategy priv ≠ VFDW_SCAN_KNN → fp_pathkeys path = [] →
  (priv_strategy priv = VFDW_SCAN_KEY_PARAM ↔ fp_required_outer path ≠ ∅) →
  (if bool_decide (priv_strategy priv = VFDW_SCAN_KEY_PARAM) then ∃ key, priv_exprs priv = [key] else priv_exprs priv = []) →
  well_planned root path (MkForeignScan qual (priv_exprs priv) (plan_list priv)).
Proof.
  intros Hk Hp Ho He. exists (priv_strategy priv). cbn [fs_fdw_private fs_fdw_exprs]. rewrite read_strategy.
  split; [done|]. split; [done|]. split; [by destruct (priv_strategy priv)|].
  intros analyze skipped pages. exists (strategy_name priv).
  destruct (explain_reads analyze skipped pages priv) as [props Ex]; [done|]. exists props. by rewrite read_name.
Qed.

Lemma scan_plan_well_planned path clauses qual implied :
  map_tabletype map ≠ VFDW_TABLE_VECTOR → fp_pathkeys path = [] →
  (fp_required_outer path ≠ ∅ → is_Some (vfdw_plan_param_key relid map implied)) →
  ∃ priv, vfdw_scan_plan root relid map clauses implied (bool_decide (fp_required_outer path ≠ ∅)) = Ok priv ∧
    well_planned root path (MkForeignScan qual (priv_exprs priv) (plan_list priv)).
Proof.
  intros Ht Hp Ho. unfold vfdw_scan_plan, vfdw_plan_param_encode. rewrite bool_decide_eq_false_2 by done. case_bool_decide as Hb.
  - destruct (Ho Hb) as [[key outer] ->]. eexists. split; [reflexivity|]. apply plain_well_planned; [done..|]. by exists key.
  - destruct (map_singleton_key map); [|destruct (vfdw_plan_find_keys relid map clauses)].
    all: eexists; split; [reflexivity|]; by apply plain_well_planned.
Qed.

(** The paths offered: the scan, and one that requires other relations. *)
Lemma offered_paths parse_bool ppi_rows cpu_tuple_cost options implied rows paths path :
  vfdwGetForeignPaths parse_bool ppi_rows cpu_tuple_cost options root relid map implied rows = Ok paths → path ∈ paths →
  (path = MkPath (fp_rows path) 10 (fp_total_cost path) (fp_pathkeys path) ∅ ∧
     vfdwKnnPathkeys parse_bool options root relid map rows = Ok (fp_rows path, fp_pathkeys path)) ∨
  (fp_pathkeys path = [] ∧ fp_required_outer path ≠ ∅ ∧ is_Some (vfdw_plan_param_key relid map implied)).
Proof.
  unfold vfdwGetForeignPaths. destruct (vfdwKnnPathkeys _ _ _ _ _ _) as [[n keys]|]; [|done]. cbn [mbind result_bind].
  intros [= <-] [-> |Hpath]%elem_of_cons; [by left|]. right. unfold vfdw_plan_param_path in Hpath.
  destruct (vfdw_plan_param_key relid map implied) as [[key outer]|] eqn:Ek; [|by apply elem_of_nil in Hpath].
  apply list_elem_of_singleton in Hpath as ->. split; [done|]. split; [by eapply param_key_outer|by eexists].
Qed.
End offered.

(** C33: whatever path is chosen of those offered, it can be planned: the restrictions
    all stay with the scan; the plan waits for the value of an expression exactly when
    the path requires another relation, and then there is one expression; a search
    has its query vector, is offered at the order it returns and at the number of rows
    it asks for; and EXPLAIN reads the plan without meeting a node of another kind. *)
Theorem offered_path_can_be_planned `{TypeCatalog} `{PgTypes} `{!FilterCatalog} `{!QualCatalog}
    parse_bool extract_actual_clauses ppi_rows cpu_tuple_cost options root relid map implied rows paths path clauses :
  (nbase root = 1 → Forall (λ ri, ri_relids ri ⊆ {[relid]}) implied) →
  vfdwGetForeignPaths parse_bool ppi_rows cpu_tuple_cost options root relid map implied rows = Ok paths → path ∈ paths →
  ∃ scan, vfdwGetForeignPlan extract_actual_clauses root relid map implied path clauses = Ok scan ∧
    fs_qual scan = extract_actual_clauses clauses ∧ well_planned root path scan.
Proof.
  intros Hrel Hpaths Hpath. unfold vfdwGetForeignPlan.
  destruct (offered_paths root relid map _ _ _ _ _ _ _ path Hpaths Hpath) as [[-> Hknn]|(Hpk & Hout & Hsome)];
    cbn [fp_required_outer fp_pathkeys fp_rows fp_startup_cost fp_total_cost] in *.
  - unfold vfdwKnnPathkeys in Hknn. destruct (bool_decide (map_tabletype map = VFDW_TABLE_VECTOR)) eqn:Ev; cbn [negb] in Hknn.
    + unfold vfdw_scan_plan. rewrite Ev. destruct (vfdw_knn_require_standalone _ _); [|done]. cbn [mbind result_bind] in Hknn.
      destruct (vfdw_knn_match root relid map) as [knn|] eqn:Em; [|done]. injection Hknn as Hrows <-.
      destruct (search_well_planned root relid map (fp_rows path) 10 (fp_total_cost path) knn (extract_actual_clauses clauses) Em (eq_sym Hrows))
        as (priv & Ep & Hw). rewrite Ep. by eexists.
    + apply bool_decide_eq_false in Ev. injection Hknn as _ <-.
      destruct (scan_plan_well_planned root relid map (MkPath (fp_rows path) 10 (fp_total_cost path) [] ∅)
        (extract_actual_clauses clauses) (extract_actual_clauses clauses) implied Ev eq_refl) as (priv & Ep & Hw); [done|].
      cbn [fp_required_outer] in Ep. rewrite Ep. by eexists.
  - assert (Ev : map_tabletype map ≠ VFDW_TABLE_VECTOR).
    { intros Ev. unfold vfdwGetForeignPaths, vfdwKnnPathkeys in Hpaths. rewrite bool_decide_true in Hpaths by done. cbn [negb] in Hpaths.
      destruct (vfdw_knn_require_standalone _ _); [|done]. cbn [mbind result_bind] in Hpaths.
      destruct (vfdw_knn_match root relid map) eqn:Em; [|done]. rewrite (no_param_key _ _ _ (Hrel (matched_alone _ _ _ _ Em))) in Hsome.
      by destruct Hsome. }
    destruct (scan_plan_well_planned root relid map path (extract_actual_clauses clauses) (extract_actual_clauses clauses) implied
      Ev Hpk (λ _, Hsome)) as (priv & -> & Hw). by eexists.
Qed.

#[local] Existing Instance sample_catalog.
#[local] Existing Instance sample_types.
#[local] Existing Instance sample_float4.
#[local] Existing Instance sample_filter.
#[local] Existing Instance sample_quals.

(** A join of the table with another relation over its key. *)
Definition join_query : PlannerInfo := MkPlannerInfo [] true false true [] 2 (-1).
Definition join_paths : list ForeignPath :=
  match vfdwGetForeignPaths sample_parse_bool (λ _, Some 1) (1 # 100) [] join_query 1 (scoped_map []) [join_clause] 1000 with
  | Ok l => l
  | Raise _ => []
  end.
Definition join_path : ForeignPath := default (MkPath 0 0 0 [] ∅) (join_paths !! 1%nat).

Lemma offered_path_can_be_planned_witness :
  length join_paths = 2%nat ∧
  ∃ scan, vfdwGetForeignPlan id join_query 1 (scoped_map []) [join_clause] join_path [] = Ok scan ∧
    fs_qual scan = [] ∧ well_planned join_query join_path scan.
Proof.
  split; [vm_compute; reflexivity|].
  apply (offered_path_can_be_planned sample_parse_bool id (λ _, Some 1) (1 # 100) [] join_query 1 (scoped_map []) [join_clause] 1000 join_paths).
  - discriminate.
  - vm_compute. reflexivity.
  - apply list_elem_of_lookup_2 with 1%nat. vm_compute. reflexivity.
Defined.

(** A vector table cannot be sampled, every other one can. *)
Theorem analyze_refuses_search_tables built :
  vfdwAnalyzeForeignTable built = Ok 0 ↔ ∃ map, built = Ok map ∧ map_tabletype map ≠ VFDW_TABLE_VECTOR.
Proof.
  unfold vfdwAnalyzeForeignTable. destruct built as [map|e]; cbn [mbind result_bind]; [|naive_solver].
  case_bool_decide; naive_solver.
Qed.
