(* ===== verification/ProbeFacts.v ===== *)
(** What the diagnostic entry points promise: the dump of a prefix is its keys, the ranges
    of the slot map say what routing does, a paired reply looks the same under both
    protocols (src/vfdw_testkeys.c, vfdw_testcluster.c, vfdw_testprobe.c); the pipeline
    test counts every value when replies are paired with their requests and removes what
    it wrote, the flush count is the depth over pipeline_batch, a call by address leaves
    no socket behind (src/vfdw_testfuncs.c); the ledger is shown step by step, the program
    without the digest that moves, and the rule a key is refused by is the one a write
    raises (src/vfdw_testwbuf.c, vfdw_testval.c). *)
From S2P Require Import Prelude Slot Opcode Option OptionFacts WriteOp Ledger LedgerFacts Wbuf Overlay Error Io Cmd CmdFacts IoFacts Script.
From S2P Require Import ScriptEncode ScriptFacts Flush Connection ConnPool ConnFacts TableMap TableMapFacts Score Vec Ttl Row ScanCmd RowFacts Val Cluster.
From S2P Require Import Scan ScanFacts ScanResults Estimate Probe Report Filter Knn Plan PlanFacts.
From stdpp Require Import sorting list.
Local Open Scope Z_scope.

(* ---------------------------------------------------------------- *)
(** * Asking a server *)

(* ---------------------------------------------------------------- *)
(** ** The order of the keys *)

Definition key_lt (a b : bytes) : Prop := vfdw_probe_key_cmp a b = Lt.

Lemma byte_val_inj x y : byte_val x = byte_val y → x = y.
Proof.
  unfold byte_val. intros E%N2Z.inj. rewrite <- (Ascii.ascii_N_embedding x), <- (Ascii.ascii_N_embedding y). by rewrite E.
Qed.

Lemma cmp_eq a b : vfdw_probe_key_cmp a b = Eq ↔ a = b.
Proof.
  split; [|intros <-; induction a as [|x a IH]; [done|]; cbn; by rewrite Z.compare_refl].
  revert b. induction a as [|x a IH]; intros [|y b]; try done. cbn.
  destruct (Z.compare_spec (byte_val x) (byte_val y)) as [E|?|?]; try done. intros ?%IH. by rewrite (byte_val_inj _ _ E), H.
Qed.

Lemma cmp_antisym a b : vfdw_probe_key_cmp b a = CompOpp (vfdw_probe_key_cmp a b).
Proof.
  revert b. induction a as [|x a IH]; intros [|y b]; try done. cbn.
  rewrite (Z.compare_antisym (byte_val x)). destruct (Z.compare (byte_val x) (byte_val y)); [apply IH|done..].
Qed.

Lemma lt_trans a b c : key_lt a b → key_lt b c → key_lt a c.
Proof.
  unfold key_lt. revert b c. induction a as [|x a IH]; intros [|y b] [|z c]; try done. cbn.
  destruct (Z.compare_spec (byte_val x) (byte_val y)), (Z.compare_spec (byte_val y) (byte_val z)); try done;
    (destruct (Z.compare_spec (byte_val x) (byte_val z)); [|done|]; try lia). apply IH.
Qed.

Lemma le_cases a b : key_le a b ↔ key_lt a b ∨ a = b.
Proof. unfold key_le, key_lt. rewrite <- cmp_eq. destruct (vfdw_probe_key_cmp a b); split; (by intros [?|?]) || tauto. Qed.

#[global] Instance key_le_total : Total key_le.
Proof. intros a b. unfold key_le. rewrite (cmp_antisym a b). destruct (vfdw_probe_key_cmp a b); cbn; [left|left|right]; done. Qed.

#[global] Instance key_le_trans : Transitive key_le.
Proof.
  intros a b c. rewrite !le_cases. intros [Hab| ->] [Hbc| <-]; [left; by apply (lt_trans _ b)|by left|by left|by right].
Qed.

(** What is kept is strictly in order and the same keys. *)
Lemma compact_spec last rest :
  StronglySorted key_le (last :: rest) →
  StronglySorted key_lt (last :: compact last rest) ∧ ∀ k, k ∈ last :: compact last rest ↔ k ∈ last :: rest.
Proof.
  revert last. induction rest as [|x rest IH]; intros last Hs; [split; [repeat constructor|done]|].
  apply StronglySorted_inv in Hs as [Hs Hle]. apply Forall_cons_iff in Hle as [Hx Hle]. cbn [compact].
  destruct (vfdw_probe_key_cmp last x) eqn:Ex; [| |by destruct (Hx Ex)].
  - apply cmp_eq in Ex. subst x. destruct (IH last Hs) as [H1 H2]. split; [done|]. intros k. rewrite H2, !elem_of_cons. tauto.
  - destruct (IH x Hs) as [H1 H2]. split.
    + constructor; [done|]. apply Forall_cons_iff. split; [done|]. apply StronglySorted_inv in H1 as [_ Hlt].
      eapply Forall_impl; [exact Hlt|]. intros y Hy. by apply (lt_trans _ x).
    + intros k. rewrite elem_of_cons, H2, !elem_of_cons. tauto.
Qed.

Lemma dedupe_spec keys :
  StronglySorted key_lt (vfdw_probe_keys_dedupe keys) ∧ ∀ k, k ∈ vfdw_probe_keys_dedupe keys ↔ k ∈ keys.
Proof.
  unfold vfdw_probe_keys_dedupe. case_bool_decide as Hn.
  - destruct keys as [|k [|? ?]]; [by split; [constructor|]|by split; [repeat constructor|]|cbn [length] in Hn; lia].
  - pose proof (StronglySorted_merge_sort key_le keys) as Hs. pose proof (merge_sort_Permutation key_le keys) as Hp.
    destruct (merge_sort key_le keys) as [|k rest]; [apply Permutation_nil in Hp; subst; by split; [constructor|]|].
    destruct (compact_spec k rest Hs) as [H1 H2]. split; [done|]. intros x. by rewrite H2, Hp.
Qed.

(* ---------------------------------------------------------------- *)
(** ** The pattern *)

Lemma match_is_the_scan_pattern prefix : vfdw_probe_match prefix = vfdw_escape_glob prefix +:+ "*".
Proof. reflexivity. Qed.

(* ---------------------------------------------------------------- *)
(** ** The dump *)

Section dump.
Context {P : Type} (serve : list bytes → P → Reply * P) (peer : P).
Hypothesis unmoved : ∀ c, (serve c peer).2 = peer.
Abbreviation answer := (λ c, (serve c peer).1).
Abbreviation owed := (owes serve peer).

(** A traversal of the pattern, from a cursor on. *)
Inductive Traversal (pattern : bytes) : bytes → list (list bytes) → Prop :=
  | tv_last c keys : answer (cmd_args (scan_command c pattern)) = page_reply "0" keys → Traversal pattern c [keys]
  | tv_more c next keys rest :
      answer (cmd_args (scan_command c pattern)) = page_reply next keys → next ≠ "0" →
      Traversal pattern next rest → Traversal pattern c (keys :: rest).

Lemma take_page_keys_all keys ks n acc :
  r_element keys = Some (Some <$> (string_reply <$> ks)) → (n ≤ length ks)%nat → Z.of_nat (length acc + n) ≤ VFDW_PROBE_KEY_CAP →
  take_page_keys keys n (length ks - n) acc = Ok (acc ++ drop (length ks - n) ks).
Proof.
  intros Hk. revert acc. induction n as [|n IH]; intros acc Hn Hcap.
  { cbn [take_page_keys]. by rewrite Nat.sub_0_r, drop_ge, app_nil_r by lia. }
  destruct (lookup_lt_is_Some_2 ks (length ks - S n)) as [k Ek]; [lia|].
  cbn [take_page_keys]. unfold vfdw_reply_child. rewrite Hk. cbn [mbind option_bind]. rewrite !list_lookup_fmap, Ek.
  cbn [fmap option_fmap option_map mbind result_bind]. change (bool_decide (r_type (string_reply k) = VALKEY_REPLY_STRING)) with true.
  cbn [negb]. unfold vfdw_probe_keys_add. rewrite bool_decide_false by lia. cbn [mbind result_bind].
  replace (S (length ks - S n)) with (length ks - n)%nat by lia. rewrite IH; [|lia|rewrite length_app; cbn [length]; lia].
  rewrite <- app_assoc. do 2 f_equal. rewrite (drop_S ks k (length ks - S n)) by done. cbn [app]. do 2 f_equal. lia.
Qed.

Lemma take_scan_page_all next ks acc :
  Z.of_nat (length acc + length ks) ≤ VFDW_PROBE_KEY_CAP →
  take_scan_page (page_reply next ks) acc = Ok (if bool_decide (next = "0") then None else Some next, acc ++ ks).
Proof.
  intros Hcap. unfold take_scan_page.
  change (vfdw_reply_child (page_reply next ks) 0) with (Ok (string_reply next)).
  change (vfdw_reply_child (page_reply next ks) 1) with (Ok (array_reply (string_reply <$> ks))).
  cbn [mbind result_bind]. change (r_type (array_reply _)) with VALKEY_REPLY_ARRAY. change (r_type (string_reply _)) with VALKEY_REPLY_STRING.
  cbn [negb orb bool_decide decide_rel]. 
  assert (En : nelements (array_reply (string_reply <$> ks)) = length ks).
  { unfold nelements, reply_elements. simpl. by rewrite !length_fmap. }
  change (negb (bool_decide (VALKEY_REPLY_STRING = VALKEY_REPLY_STRING)) || negb (vfdw_probe_is_aggregate VALKEY_REPLY_ARRAY)) with false.
  rewrite En. replace 0%nat with (length ks - length ks)%nat at 1 by lia.
  rewrite (take_page_keys_all _ ks) by (done || lia). rewrite Nat.sub_diag, drop_0. reflexivity.
Qed.

Lemma scan_page_reads cursor pattern next ks acc s :
  owed s [] → answer (cmd_args (scan_command cursor pattern)) = page_reply next ks → Z.of_nat (length acc + length ks) ≤ VFDW_PROBE_KEY_CAP →
  ∃ s', vfdw_probe_scan_page serve cursor pattern acc s =
    (Ok (if bool_decide (next = "0") then None else Some next, acc ++ ks), s') ∧ owed s' [].
Proof using unmoved.
  intros Ho Ha Hcap. unfold vfdw_probe_scan_page.
  destruct (add_owes serve peer unmoved (scan_command cursor pattern) s [] Ho) as (s1 & E1 & Ho1). rewrite Ha in Ho1.
  destruct (next_owes serve peer s1 _ [] Ho1) as (s2 & E2 & Ho2). exists s2. split; [|done].
  unfold mbind at 1, M_bind at 1. rewrite E1. unfold mbind at 1, M_bind at 1. rewrite E2.
  change (vfdw_reply_expect (Some (page_reply next ks)) (VFDW_RTYPE VALKEY_REPLY_ARRAY) "SCAN failed") with (Ok ()).
  unfold mbind, M_bind, lift. cbn [from_option]. by rewrite take_scan_page_all.
Qed.

(** The loop collects every page. *)
Lemma scan_loop_collects fuel cursor pattern pages acc s :
  owed s [] → Traversal pattern cursor pages → Z.of_nat (length acc + length (concat pages)) ≤ VFDW_PROBE_KEY_CAP →
  (length pages ≤ fuel)%nat →
  ∃ s', scan_loop serve fuel cursor pattern acc s = (Ok (acc ++ concat pages), s') ∧ owed s' [].
Proof using unmoved.
  intros Ho Ht. revert fuel acc s Ho. induction Ht as [c keys Ha|c next keys rest Ha Hn Ht IH]; intros fuel acc s Ho Hcap Hf;
    destruct fuel as [|fuel]; try (cbn [length] in Hf; lia); cbn [scan_loop concat] in *; rewrite length_app in Hcap; cbn [length] in Hcap.
  - destruct (scan_page_reads c pattern "0" keys acc s Ho Ha ltac:(lia)) as (s1 & E1 & Ho1). exists s1.
    unfold mbind, M_bind. rewrite E1. by rewrite app_nil_r.
  - destruct (scan_page_reads c pattern next keys acc s Ho Ha ltac:(lia)) as (s1 & E1 & Ho1).
    rewrite bool_decide_false in E1 by done. cbn [length] in Hf.
    destruct (IH fuel (acc ++ keys) s1 Ho1 ltac:(rewrite length_app; lia) ltac:(lia)) as (s2 & E2 & Ho2). exists s2.
    unfold mbind at 1, M_bind at 1. rewrite E1. cbn [fst snd]. rewrite E2. by rewrite <- app_assoc.
Qed.

(** What the server says the keys are. *)
Context (type_of : bytes → bytes).
Definition typed (k : bytes) : Prop := answer ["TYPE"; k] = status_reply (type_of k).

Lemma queue_types cmd keys s rs :
  cmd_wf cmd → owed s rs → Forall typed keys →
  ∃ s', vfdw_probe_type_queue serve cmd keys s = (Ok (), s') ∧ owed s' (rs ++ (status_reply ∘ type_of <$> keys)).
Proof using unmoved.
  intros Hc Ho Ht. revert cmd s rs Hc Ho. induction Ht as [|k keys Hk Ht IH]; intros cmd s rs Hc Ho.
  { exists s. by rewrite app_nil_r. }
  cbn [vfdw_probe_type_queue]. destruct (reset_wf cmd Hc) as [W0 A0]. destruct (add_bytes_wf _ (until_nul "TYPE") W0) as [W1 A1].
  destruct (add_bytes_wf _ k W1) as [W2 A2]. rewrite A1, A0 in A2. unfold vfdw_cmd_add_cstr.
  destruct (add_owes serve peer unmoved (vfdw_cmd_add_bytes (vfdw_cmd_add_bytes (vfdw_cmd_reset cmd) (until_nul "TYPE")) k) s rs Ho) as (s1 & E1 & Ho1).
  rewrite A2 in Ho1. change (([] ++ [until_nul "TYPE"]) ++ [k]) with (["TYPE"; k] : list bytes) in Ho1. unfold typed in Hk. rewrite Hk in Ho1.
  destruct (IH _ s1 _ W2 Ho1) as (s2 & E2 & Ho2). exists s2. unfold mbind, M_bind. rewrite E1. split; [done|].
  rewrite fmap_cons. by rewrite <- app_assoc in Ho2.
Qed.

Lemma emit_types keys s rs :
  owed s ((status_reply ∘ type_of <$> keys) ++ rs) →
  ∃ s', vfdw_probe_type_emit serve keys s = (Ok ((λ k, (k, type_of k)) <$> keys), s') ∧ owed s' rs.
Proof.
  revert s. induction keys as [|k keys IH]; intros s Ho; [by exists s|]. rewrite fmap_cons in Ho. cbn [app] in Ho.
  destruct (next_owes serve peer s _ _ Ho) as (s1 & E1 & Ho1). destruct (IH s1 Ho1) as (s2 & E2 & Ho2). exists s2. split; [|done].
  cbn [vfdw_probe_type_emit]. unfold mbind at 1, M_bind at 1. rewrite E1.
  change (vfdw_reply_expect (Some ((status_reply ∘ type_of) k)) (VFDW_RTYPE VALKEY_REPLY_STATUS) "TYPE failed") with (Ok ()).
  unfold mbind, M_bind, lift. by rewrite E2.
Qed.

(** In chunks, whatever the number of keys. *)
Lemma type_loop_reads fuel keys s :
  owed s [] → Forall typed keys → (length keys ≤ fuel)%nat →
  ∃ s', type_loop serve fuel keys s = (Ok ((λ k, (k, type_of k)) <$> keys), s') ∧ owed s' [].
Proof using unmoved.
  revert keys s. induction fuel as [|fuel IH]; intros keys s Ho Ht Hf.
  { destruct keys; [by exists s|cbn [length] in Hf; lia]. }
  cbn [type_loop]. case_bool_decide as Hn; [subst; by exists s|].
  rewrite <- (take_drop VFDW_PROBE_TYPE_CHUNK keys) in Ht. apply Forall_app in Ht as [Ht1 Ht2].
  destruct (queue_types (vfdw_cmd_init 2) _ s [] (cmd_init_wf 2 eq_refl) Ho Ht1) as (s1 & E1 & Ho1).
  cbn [app] in Ho1. rewrite <- (app_nil_r (_ <$> _)) in Ho1. destruct (emit_types _ s1 [] Ho1) as (s2 & E2 & Ho2).
  destruct (IH (drop VFDW_PROBE_TYPE_CHUNK keys) s2 Ho2 Ht2) as (s3 & E3 & Ho3).
  { rewrite length_drop. destruct keys; [done|]. unfold VFDW_PROBE_TYPE_CHUNK. cbn [length] in *. lia. }
  exists s3. split; [|done]. unfold mbind at 1, M_bind at 1. rewrite E1. unfold mbind at 1, M_bind at 1. rewrite E2.
  unfold mbind, M_bind. rewrite E3. rewrite <- fmap_app, take_drop. reflexivity.
Qed.
End dump.

(** The dump of a prefix is the keys under it and nothing else, each once and in byte
    order, with the type the server gives it, however many pages name a key and however
    many chunks the types are asked in; nothing is left on the wire. *)
Theorem dump_is_the_prefix {P : Type} (serve : list bytes → P → Reply * P) (pipeline_batch : Z) (conn : Conn (P := P))
    (glob : bytes → bytes → bool) `{!GlobLaws glob} (held : bytes → Prop) (type_of : bytes → bytes)
    (prefix : bytes) (pages : list (list bytes)) (fuel : nat) :
  let peer := cn_peer conn in
  (∀ c, (serve c peer).2 = peer) → quiet_conn peer conn →
  Traversal serve peer (vfdw_probe_match prefix) "0" pages →
  (∀ k, k ∈ concat pages ↔ held k ∧ glob (vfdw_probe_match prefix) k = true) →
  (∀ k, held k → typed serve peer type_of k) →
  Z.of_nat (length (concat pages)) ≤ VFDW_PROBE_KEY_CAP → (length pages ≤ fuel)%nat →
  ∃ rows s, dump_keys serve fuel prefix (vfdw_batch_begin pipeline_batch conn) = (Ok rows, s) ∧ owes serve peer s [] ∧
    StronglySorted key_lt rows.*1 ∧
    ∀ k t, (k, t) ∈ rows ↔ held k ∧ starts_with prefix k = true ∧ t = type_of k.
Proof.
  intros peer Hu (Hp & Hq1 & Hq2 & Hq3) Ht Hheld Htyped Hcap Hf. pose proof (begin_owes serve peer pipeline_batch conn Hq1 Hq2 Hq3 Hp) as Ho.
  destruct (scan_loop_collects serve peer Hu fuel "0" (vfdw_probe_match prefix) pages [] _ Ho Ht Hcap Hf) as (s1 & E1 & Ho1).
  destruct (dedupe_spec (concat pages)) as [Hs Hin]. set (keys := vfdw_probe_keys_dedupe (concat pages)) in *.
  destruct (type_loop_reads serve peer Hu type_of (length keys) keys s1 Ho1) as (s2 & E2 & Ho2); [|done|].
  { apply List.Forall_forall. intros k Hk%list_elem_of_In. apply Htyped. by apply Hin, Hheld in Hk as [? _]. }
  exists ((λ k, (k, type_of k)) <$> keys), s2. split; [|split; [done|split]].
  - unfold dump_keys, mbind, M_bind. rewrite E1. exact E2.
  - rewrite <- list_fmap_compose. unfold compose. cbn [fst]. by rewrite list_fmap_id.
  - intros k t. rewrite list_elem_of_fmap. split.
    + intros (k' & [= -> ->] & Hk). apply Hin, Hheld in Hk as [? Hg]. rewrite match_is_the_scan_pattern, escape_glob_prefix in Hg. by split_and!.
    + intros (Hk & Hpre & ->). exists k. split; [done|]. apply Hin, Hheld. split; [done|]. by rewrite match_is_the_scan_pattern, escape_glob_prefix.
Qed.

(* ---------------------------------------------------------------- *)
(** ** The slot map as ranges *)

Section ranges.
Context (map : VfdwSlotMap).
Abbreviation N := VFDW_CLUSTER_NSLOTS.
Abbreviation own := (sm_owner map).

Lemma run_end_spec fuel owner i :
  i ≤ N → N - i ≤ Z.of_nat fuel →
  let e := run_end fuel map owner i in
  i ≤ e ≤ N ∧ (∀ s, i ≤ s < e → own s = owner) ∧ (e < N → own e ≠ owner).
Proof.
  cbv zeta. revert i. induction fuel as [|fuel IH]; intros i Hi Hf; cbn [run_end].
  { split; [lia|]. split; intros; lia. }
  destruct (decide (i < N)) as [Hlt|Hge]; [rewrite (bool_decide_true (i < N)) by done|rewrite (bool_decide_false (i < N)) by done];
    cbn [andb]; [|split; [lia|split; intros; lia]].
  case_bool_decide as E2; [|split; [lia|split; [intros; lia|done]]].
  destruct (IH (i + 1) ltac:(lia) ltac:(lia)) as (R1 & R2 & R3). split; [lia|]. split; [|done].
  intros s Hs. destruct (decide (s = i)) as [->|Hne]; [done|]. apply R2. lia.
Qed.

(** A range from slot [i] on: in the keyspace, one owner throughout, as long as it gets. *)
Definition good_range (i : Z) (r : SlotRange) : Prop :=
  i ≤ sr_start r ≤ sr_end r ∧ sr_end r < N ∧ ∃ owner, 0 ≤ owner ∧ sr_node r = sm_nodes map !! Z.to_nat owner ∧
    (∀ s, sr_start r ≤ s ≤ sr_end r → own s = owner) ∧ (sr_end r + 1 < N → own (sr_end r + 1) ≠ owner).

Definition before (r r' : SlotRange) : Prop := sr_end r < sr_start r'.

Lemma ranges_loop_spec fuel i :
  0 ≤ i ≤ N → N - i ≤ Z.of_nat fuel →
  Forall (good_range i) (ranges_loop fuel map i) ∧ StronglySorted before (ranges_loop fuel map i) ∧
  ∀ s, i ≤ s < N → 0 ≤ own s → ∃ r, r ∈ ranges_loop fuel map i ∧ sr_start r ≤ s ≤ sr_end r.
Proof.
  revert i. induction fuel as [|fuel IH]; intros i Hi Hf.
  { split; [constructor|]. split; [constructor|]. intros; lia. }
  cbn [ranges_loop]. destruct (decide (i < N)) as [Hlt|Hge]; [rewrite (bool_decide_true (i < N)) by done|rewrite (bool_decide_false (i < N)) by done]; cbn [negb].
  2:{ split; [constructor|]. split; [constructor|]. intros; lia. }
  case_bool_decide as Ho.
  - destruct (IH (i + 1) ltac:(lia) ltac:(lia)) as (H1 & H2 & H3). split; [|split; [done|]].
    + eapply Forall_impl; [exact H1|]. intros r (? & ? & ?). unfold good_range. split; [lia|done].
    + intros s Hs Hown. destruct (decide (s = i)) as [->|Hne]; [lia|]. apply H3; [lia|done].
  - destruct (run_end_spec (Z.to_nat (N - i)) (own i) i ltac:(lia) ltac:(lia)) as (He & Hrun & Hend).
    set (e := run_end _ _ _ _) in *. assert (Hei : i < e).
    { destruct (decide (i = e)) as [Heq|]; [|lia]. exfalso. apply Hend; [lia|]. by rewrite <- Heq. }
    destruct (IH e ltac:(lia) ltac:(lia)) as (H1 & H2 & H3). split; [|split].
    + apply Forall_cons_iff. split.
      * unfold good_range. cbn [sr_start sr_end sr_node]. split; [lia|]. split; [lia|]. exists (own i). split; [lia|]. split; [done|].
        split; [intros s Hs; apply Hrun; lia|]. replace (e - 1 + 1) with e by lia. exact Hend.
      * eapply Forall_impl; [exact H1|]. intros r (? & ? & ?). unfold good_range. split; [lia|done].
    + constructor; [done|]. eapply Forall_impl; [exact H1|]. intros r (? & _). unfold before. cbn [sr_end]. lia.
    + intros s Hs Hown. destruct (decide (s < e)).
      * eexists. split; [by left|]. cbn [sr_start sr_end]. lia.
      * destruct (H3 s ltac:(lia) Hown) as (r & Hr & ?). exists r. split; [by right|done].
Qed.

Lemma slot_ranges_spec :
  Forall (good_range 0) (slot_ranges map) ∧ StronglySorted before (slot_ranges map) ∧
  ∀ s, 0 ≤ s < N → 0 ≤ own s → ∃ r, r ∈ slot_ranges map ∧ sr_start r ≤ s ≤ sr_end r.
Proof.
  unfold slot_ranges. assert (Hf : N - 0 ≤ Z.of_nat (Z.to_nat N)) by (generalize N; intros; lia).
  assert (Hi : 0 ≤ 0 ≤ N) by (split; discriminate). revert Hf. generalize (Z.to_nat N). intros fuel Hf.
  exact (ranges_loop_spec fuel 0 Hi Hf).
Qed.
End ranges.

(** The ranges of the report are apart from each other and in order, and say of every
    key the node that routing gives it: a slot in no range is one no node claims. *)
Theorem ranges_are_the_routing (map : VfdwSlotMap) :
  StronglySorted before (slot_ranges map) ∧
  ∀ key node, vfdw_cluster_route map key = Some node ↔
    ∃ r, r ∈ slot_ranges map ∧ sr_start r ≤ vfdw_val_slot key ≤ sr_end r ∧ sr_node r = Some node.
Proof.
  destruct (slot_ranges_spec map) as (Hgood & Hs & Hall). split; [exact Hs|].
  intros key node. pose proof (slot_range key) as Hslot. unfold vfdw_cluster_route.
  assert (Hat : ∀ r, r ∈ slot_ranges map → sr_start r ≤ vfdw_val_slot key ≤ sr_end r →
    0 ≤ sm_owner map (vfdw_val_slot key) ∧ sr_node r = sm_nodes map !! Z.to_nat (sm_owner map (vfdw_val_slot key))).
  { intros r Hr Hin. apply list_elem_of_In in Hr. rewrite List.Forall_forall in Hgood. destruct (Hgood r Hr) as (_ & _ & owner & Ho & En & Hown & _).
    by rewrite (Hown _ Hin). }
  split.
  - case_bool_decide as Ho; [done|]. intros E. destruct (Hall _ Hslot ltac:(lia)) as (r & Hr & Hin). exists r.
    split; [done|]. split; [done|]. destruct (Hat r Hr Hin) as [_ ->]. done.
  - intros (r & Hr & Hin & E). destruct (Hat r Hr Hin) as [Ho En]. rewrite bool_decide_false by lia. congruence.
Qed.

(* ---------------------------------------------------------------- *)
(** ** Pairs *)

(** A flat array and a map of the same elements are the same rows when they are rendered
    in pairs, whichever protocol the server speaks. *)
Theorem pairs_hide_the_protocol {D : Type} (dval : Reply → D) (vtype : Reply → bytes) i s i' s' (elements : option (list (option Reply))) :
  vfdw_probe_render dval vtype (MkReply VALKEY_REPLY_ARRAY i s elements) true =
  vfdw_probe_render dval vtype (MkReply VALKEY_REPLY_MAP i' s' elements) true.
Proof.
  assert (E : ∀ fuel j o, elements_loop dval vtype fuel (MkReply VALKEY_REPLY_ARRAY i s elements) true j o =
    elements_loop dval vtype fuel (MkReply VALKEY_REPLY_MAP i' s' elements) true j o).
  { intros fuel. induction fuel as [|fuel IH]; intros j o; [done|]. cbn [elements_loop negb].
    change (nelements (MkReply VALKEY_REPLY_MAP i' s' elements)) with (nelements (MkReply VALKEY_REPLY_ARRAY i s elements)).
    destruct (bool_decide _); [|done]. cbn [negb].
    change (vfdw_reply_child (MkReply VALKEY_REPLY_MAP i' s' elements)) with (vfdw_reply_child (MkReply VALKEY_REPLY_ARRAY i s elements)).
    destruct (vfdw_reply_child _ j); [|done]. cbn [mbind result_bind]. destruct (vfdw_reply_child _ (S j)); [|done]. cbn [mbind result_bind].
    by rewrite IH. }
  unfold vfdw_probe_render, vfdw_probe_elements. cbn [r_type].
  change (nelements (MkReply VALKEY_REPLY_MAP i' s' elements)) with (nelements (MkReply VALKEY_REPLY_ARRAY i s elements)).
  change (vfdw_probe_is_aggregate VALKEY_REPLY_ARRAY) with true. change (vfdw_probe_is_aggregate VALKEY_REPLY_MAP) with true. cbn [andb].
  rewrite E. by destruct (negb _).
Qed.

(* ---------------------------------------------------------------- *)
(** * Driving a connection *)

(* ---------------------------------------------------------------- *)
(** ** A server that is a store *)

(** SET, GET and DEL as documented, on the keys that hold strings. *)
Class StoreLaws {P : Type} (serve : list bytes → P → Reply * P) (view : P → gmap bytes bytes) := {
  store_set k v p : ∃ s p', serve ["SET"; k; v] p = (status_reply s, p') ∧ view p' = <[k := v]> (view p);
  store_get k v p : view p !! k = Some v → ∃ p', serve ["GET"; k] p = (string_reply v, p') ∧ view p' = view p;
  store_del k p : ∃ n p', serve ["DEL"; k] p = (integer_reply n, p') ∧ view p' = delete k (view p);
}.

Section moving.
Context {P : Type} (serve : list bytes → P → Reply * P).

(** Queueing moves the peer the batch will meet. *)
Lemma add_moves cmd p s rs :
  owes serve p s rs → ∃ s', vfdw_batch_add serve cmd s = (Ok (), s') ∧
    owes serve (serve (cmd_args cmd) p).2 s' (rs ++ [(serve (cmd_args cmd) p).1]).
Proof.
  intros (Hc & Ho & Hf). destruct (add_faultless serve cmd s Hf) as (s' & E & Hf').
  destruct (add_spec serve cmd s s' Hc E) as (Hc' & Ho' & _). exists s'. split; [done|]. split; [done|]. split; [|done].
  rewrite Ho', Ho. by destruct (serve (cmd_args cmd) p).
Qed.

Lemma queue_moves build (args : Z → list bytes) js cmd p s rs :
  (∀ c i, cmd_wf c → cmd_wf (build c i) ∧ cmd_args (build c i) = args i) →
  cmd_wf cmd → owes serve p s rs →
  ∃ s', queue_commands serve build js cmd s = (Ok (), s') ∧
    owes serve (deliver serve (args <$> js) p).2 s' (rs ++ (deliver serve (args <$> js) p).1).
Proof.
  intros Hb. revert cmd p s rs. induction js as [|i js IH]; intros cmd p s rs Hc Ho.
  { exists s. split; [done|]. cbn. by rewrite app_nil_r. }
  destruct (Hb cmd i Hc) as [Hw Ha]. destruct (add_moves (build cmd i) p s rs Ho) as (s1 & E1 & Ho1). rewrite Ha in Ho1.
  destruct (IH _ _ s1 _ Hw Ho1) as (s2 & E2 & Ho2). exists s2. cbn [queue_commands]. unfold mbind, M_bind. rewrite E1.
  split; [done|]. rewrite fmap_cons. cbn [deliver]. destruct (serve (args i) p) as [r p1]. cbn [fst snd] in *.
  destruct (deliver serve (args <$> js) p1) as [rs' p2]. cbn [fst snd] in *. by rewrite <- app_assoc in Ho2.
Qed.

Lemma take_expected_owes t what js p s rs1 rs :
  owes serve p s (rs1 ++ rs) → length rs1 = length js →
  Forall (λ r, vfdw_reply_expect (Some r) (VFDW_RTYPE t) what = Ok ()) rs1 →
  ∃ s', miter (take_expected serve t what) js s = (Ok (), s') ∧ owes serve p s' rs.
Proof.
  revert s rs1. induction js as [|i js IH]; intros s [|r rs1] Ho Hl Hr; try done; [by exists s|].
  apply Forall_cons_iff in Hr as [Hr Hrs]. destruct (next_owes serve p s r _ Ho) as (s1 & E1 & Ho1).
  destruct (IH s1 rs1 Ho1 ltac:(cbn [length] in Hl; lia) Hrs) as (s2 & E2 & Ho2). exists s2. split; [|done].
  assert (E : take_expected serve t what i s = (Ok (), s1)).
  { unfold take_expected, mbind, M_bind, lift. by rewrite E1, Hr. }
  cbn [miter]. unfold mbind, M_bind. rewrite E. exact E2.
Qed.

Lemma count_matches_owes js m p s :
  owes serve p s ((λ i, string_reply (dec i)) <$> js) →
  ∃ s', count_matches serve js m s = (Ok (m + Z.of_nat (length js)), s') ∧ owes serve p s' [].
Proof.
  revert m s. induction js as [|i js IH]; intros m s Ho.
  { exists s. split; [|done]. cbn. by rewrite Z.add_0_r. }
  rewrite fmap_cons in Ho. destruct (next_owes serve p s _ _ Ho) as (s1 & E1 & Ho1). destruct (IH (m + 1) s1 Ho1) as (s2 & E2 & Ho2).
  exists s2. split; [|done]. cbn [count_matches]. unfold mbind, M_bind, lift. rewrite E1.
  change (vfdw_reply_expect (Some (string_reply (dec i))) (VFDW_RTYPE VALKEY_REPLY_STRING) "GET failed") with (Ok ()).
  cbn [r_str string_reply option_bind]. rewrite bool_decide_true by done. rewrite E2. cbn [length]. by rewrite Nat2Z.inj_succ, <- Z.add_assoc, Z.add_1_l.
Qed.
End moving.

(* ---------------------------------------------------------------- *)
(** ** The commands of the pipeline test *)

Lemma dec_no_nul z : occurs NUL (dec z) = false.
Proof. destruct (occurs NUL (dec z)) eqn:E; [|done]. by apply dec_chars in E as [?|?]. Qed.

Lemma pipe_key_cstr i : until_nul (pipe_key i) = pipe_key i.
Proof. apply until_nul_id. unfold pipe_key. by rewrite occurs_app, dec_no_nul. Qed.

Lemma append_inj_l (p a b : bytes) : p +:+ a = p +:+ b → a = b.
Proof. induction p as [|c p IH]; simpl_app; [done|]. intros [= ?]. by apply IH. Qed.

#[global] Instance pipe_key_inj : Inj (=) (=) pipe_key.
Proof. intros i j E. by apply append_inj_l, dec_inj in E. Qed.

Lemma elem_of_counting i n j : j ∈ counting i n ↔ i ≤ j < i + Z.of_nat n.
Proof.
  revert i. induction n as [|n IH]; intros i; cbn [counting]; [rewrite elem_of_nil; lia|].
  rewrite elem_of_cons, IH. lia.
Qed.

Lemma length_counting i n : length (counting i n) = n.
Proof. revert i. induction n as [|n IH]; intros i; cbn [counting length]; [done|by rewrite IH]. Qed.

Lemma set_command_args c i : cmd_wf c → cmd_wf (set_command c i) ∧ cmd_args (set_command c i) = ["SET"; pipe_key i; dec i].
Proof.
  intros Hc. unfold set_command, vfdw_cmd_add_cstr, vfdw_cmd_add_int. rewrite pipe_key_cstr.
  destruct (reset_wf c Hc) as [W0 A0]. destruct (add_bytes_wf _ (until_nul "SET") W0) as [W1 A1].
  destruct (add_bytes_wf _ (pipe_key i) W1) as [W2 A2]. destruct (add_bytes_wf _ (dec i) W2) as [W3 A3].
  split; [done|]. by rewrite A3, A2, A1, A0.
Qed.

Lemma key_command_args verb c i :
  until_nul verb = verb → cmd_wf c → cmd_wf (key_command verb c i) ∧ cmd_args (key_command verb c i) = [verb; pipe_key i].
Proof.
  intros Hv Hc. unfold key_command, vfdw_cmd_add_cstr. rewrite pipe_key_cstr, Hv.
  destruct (reset_wf c Hc) as [W0 A0]. destruct (add_bytes_wf _ verb W0) as [W1 A1].
  destruct (add_bytes_wf _ (pipe_key i) W1) as [W2 A2]. split; [done|]. by rewrite A2, A1, A0.
Qed.

Section store.
Context {P : Type} (serve : list bytes → P → Reply * P) (view : P → gmap bytes bytes) `{!StoreLaws serve view}.

Definition after_sets (js : list Z) (m : gmap bytes bytes) : gmap bytes bytes := foldl (λ m i, <[pipe_key i := dec i]> m) m js.
Definition after_dels (js : list Z) (m : gmap bytes bytes) : gmap bytes bytes := foldl (λ m i, delete (pipe_key i) m) m js.

Lemma deliver_sets js p :
  let d := deliver serve ((λ i, ["SET"; pipe_key i; dec i]) <$> js) p in
  Forall (λ r, vfdw_reply_expect (Some r) (VFDW_RTYPE VALKEY_REPLY_STATUS) "SET failed" = Ok ()) d.1 ∧
  view d.2 = after_sets js (view p).
Proof using All.
  revert p. induction js as [|i js IH]; intros p; [split; [constructor|done]|]. rewrite fmap_cons. cbn [deliver].
  destruct (store_set (pipe_key i) (dec i) p) as (s & p1 & -> & E). destruct (IH p1) as [F1 F2].
  destruct (deliver serve _ p1) as [rs p2]. cbn [fst snd] in *. split; [constructor; [done|exact F1]|].
  rewrite F2, E. reflexivity.
Qed.

Lemma deliver_gets js p :
  (∀ i, i ∈ js → view p !! pipe_key i = Some (dec i)) →
  let d := deliver serve ((λ i, ["GET"; pipe_key i]) <$> js) p in
  d.1 = (λ i, string_reply (dec i)) <$> js ∧ view d.2 = view p.
Proof using All.
  revert p. induction js as [|i js IH]; intros p Hv; [done|]. rewrite !fmap_cons. cbn [deliver].
  destruct (store_get (pipe_key i) (dec i) p) as (p1 & -> & E); [apply Hv; by left|].
  destruct (IH p1) as [F1 F2]; [intros j Hj; rewrite E; apply Hv; by right|].
  destruct (deliver serve _ p1) as [rs p2]. cbn [fst snd] in *. by rewrite F1, F2.
Qed.

Lemma deliver_dels js p :
  let d := deliver serve ((λ i, ["DEL"; pipe_key i]) <$> js) p in
  Forall (λ r, vfdw_reply_expect (Some r) (VFDW_RTYPE VALKEY_REPLY_INTEGER) "DEL failed" = Ok ()) d.1 ∧
  view d.2 = after_dels js (view p).
Proof using All.
  revert p. induction js as [|i js IH]; intros p; [split; [constructor|done]|]. rewrite fmap_cons. cbn [deliver].
  destruct (store_del (pipe_key i) p) as (n & p1 & -> & E). destruct (IH p1) as [F1 F2].
  destruct (deliver serve _ p1) as [rs p2]. cbn [fst snd] in *. split; [constructor; [done|exact F1]|].
  rewrite F2, E. reflexivity.
Qed.

Lemma after_sets_at js m i : i ∈ js → after_sets js m !! pipe_key i = Some (dec i).
Proof using Type.
  revert m. induction js as [|j js IH] using rev_ind; intros m; [by intros ?%elem_of_nil|]. unfold after_sets. rewrite foldl_snoc.
  intros [Hi| ->%list_elem_of_singleton]%elem_of_app; [|apply lookup_insert_eq].
  destruct (decide (i = j)) as [->|Hne]; [apply lookup_insert_eq|]. rewrite lookup_insert_ne by (intros E; by apply (inj pipe_key) in E). by apply IH.
Qed.

(** Setting and removing the same keys leaves the others as they were. *)
Lemma after_both js m k :
  after_dels js (after_sets js m) !! k = if decide (k ∈ pipe_key <$> js) then None else m !! k.
Proof using Type.
  assert (Hd : ∀ m, after_dels js m !! k = if decide (k ∈ pipe_key <$> js) then None else m !! k).
  { clear m. induction js as [|j js' IH] using rev_ind; intros m; [done|]. unfold after_dels. rewrite foldl_snoc, fmap_app, lookup_delete.
    fold (after_dels js' m). rewrite IH. destruct (decide (pipe_key j = k)) as [<-|Hj].
    - rewrite decide_True by (apply elem_of_app; right; by apply list_elem_of_singleton). done.
    - destruct (decide (k ∈ pipe_key <$> js')) as [Hk|Hk].
      + rewrite decide_True by (apply elem_of_app; by left). done.
      + rewrite decide_False by (intros [?|E%list_elem_of_singleton]%elem_of_app; [done|]; by apply Hj). done. }
  rewrite Hd. case_decide as Hk; [done|]. clear Hd. induction js as [|j js' IH] using rev_ind; [done|].
  unfold after_sets. rewrite foldl_snoc. rewrite fmap_app, elem_of_app in Hk.
  rewrite lookup_insert_ne; [apply IH; tauto|]. intros E. apply Hk. right. rewrite <- E. by apply list_elem_of_singleton.
Qed.
End store.

(* ---------------------------------------------------------------- *)
(** ** Properties *)

(** Over a connection that owes nothing and does not fail, to a server that is a store,
    the pipeline test counts every one of its values, whatever pipeline_batch cuts the
    commands into: each GET is answered with the value of its own SET.  It leaves nothing
    on the wire, and every key it did not write as it was. *)
Theorem pipeline_counts_every_value {P : Type} (serve : list bytes → P → Reply * P) (view : P → gmap bytes bytes)
    `{!StoreLaws serve view} (pipeline_batch n : Z) (conn : Conn (P := P)) :
  0 ≤ n → cn_out conn = [] → cn_in conn = [] → cn_faults conn = [] →
  ∃ s p, pipeline serve n (vfdw_batch_begin pipeline_batch conn) = (Ok n, s) ∧ owes serve p s [] ∧
    ∀ k, view p !! k = if decide (k ∈ pipe_key <$> counting 0 (Z.to_nat n)) then None else view (cn_peer conn) !! k.
Proof.
  intros Hn Ho Hi Hf. set (js := counting 0 (Z.to_nat n)). set (p0 := cn_peer conn).
  pose proof (begin_owes serve p0 pipeline_batch conn Ho Hi Hf eq_refl) as Q0. set (s0 := vfdw_batch_begin pipeline_batch conn) in *.
  destruct (queue_moves serve set_command _ js (vfdw_cmd_init 4) p0 s0 [] set_command_args (cmd_init_wf 4 eq_refl) Q0) as (s1 & E1 & Q1).
  destruct (deliver_sets serve view js p0) as [R1 V1]. set (d1 := deliver serve ((λ i, ["SET"; pipe_key i; dec i]) <$> js) p0) in *.
  destruct (take_expected_owes serve VALKEY_REPLY_STATUS "SET failed" js d1.2 s1 d1.1 []) as (s2 & E2 & Q2);
    [by rewrite app_nil_r|unfold d1; by rewrite deliver_length, length_fmap|done|].
  destruct (queue_moves serve (key_command "GET") _ js (vfdw_cmd_init 4) d1.2 s2 [] (λ c i, key_command_args "GET" c i eq_refl)
    (cmd_init_wf 4 eq_refl) Q2) as (s3 & E3 & Q3).
  destruct (deliver_gets serve view js d1.2) as [R2 V2]; [intros i Hj; rewrite V1; by apply after_sets_at|].
  set (d2 := deliver serve ((λ i, ["GET"; pipe_key i]) <$> js) d1.2) in *. cbn [app] in Q3. rewrite R2 in Q3.
  destruct (count_matches_owes serve js 0 d2.2 s3 Q3) as (s4 & E4 & Q4).
  destruct (queue_moves serve (key_command "DEL") _ js (vfdw_cmd_init 4) d2.2 s4 [] (λ c i, key_command_args "DEL" c i eq_refl)
    (cmd_init_wf 4 eq_refl) Q4) as (s5 & E5 & Q5).
  destruct (deliver_dels serve view js d2.2) as [R3 V3]. set (d3 := deliver serve ((λ i, ["DEL"; pipe_key i]) <$> js) d2.2) in *.
  destruct (take_expected_owes serve VALKEY_REPLY_INTEGER "DEL failed" js d3.2 s5 d3.1 []) as (s6 & E6 & Q6);
    [by rewrite app_nil_r|unfold d3; by rewrite deliver_length, length_fmap|done|].
  destruct (end_owes serve d3.2 s6 [] Q6) as (s7 & E7 & Q7). exists s7, d3.2. split; [|split; [done|]].
  - assert (EC : 0 + Z.of_nat (length js) = n) by (unfold js; rewrite length_counting; lia). rewrite EC in E4.
    unfold pipeline, vfdw_test_pipeline_set, vfdw_test_pipeline_get, vfdw_test_pipeline_del. fold js.
    unfold mbind, M_bind. by rewrite E1, E2, E3, E4, E5, E6, E7.
  - intros k. rewrite V3, V2, V1. apply after_both.
Qed.

(** A store that is its view. *)
Definition shelf (cmd : list bytes) (m : gmap bytes bytes) : Reply * gmap bytes bytes :=
  match cmd with
  | [verb; k; v] => (status_reply "OK", if bool_decide (verb = "SET") then <[k := v]> m else m)
  | [verb; k] =>
      if bool_decide (verb = "GET") then (from_option string_reply (MkReply VALKEY_REPLY_NIL 0 None None) (m !! k), m)
      else if bool_decide (verb = "DEL") then (integer_reply (if decide (is_Some (m !! k)) then 1 else 0), delete k m)
      else (error_reply "ERR", m)
  | _ => (error_reply "ERR", m)
  end.

#[local] Instance shelf_laws : StoreLaws shelf (λ m, m).
Proof.
  split.
  - intros k v m. by exists "OK", (<[k := v]> m).
  - intros k v m E. exists m. cbn. by rewrite E.
  - intros k m. by eexists _, _.
Qed.

Definition shelf_conn : Conn (P := gmap bytes bytes) := MkConn {["other" := "kept"]} [] [] false false [].

(** Five values over batches of two. *)
Lemma pipeline_counts_every_value_witness :
  ∃ s p, pipeline shelf 5 (vfdw_batch_begin 2 shelf_conn) = (Ok 5, s) ∧ owes shelf p s [] ∧
    ∀ k, p !! k = if decide (k ∈ pipe_key <$> counting 0 5) then None else cn_peer shelf_conn !! k.
Proof. exact (pipeline_counts_every_value shelf (λ m, m) 2 5 shelf_conn ltac:(lia) eq_refl eq_refl eq_refl). Defined.

(** One poke: the write, and the server's answer to it. *)
Theorem poke_writes_one_key {P : Type} (serve : list bytes → P → Reply * P) (view : P → gmap bytes bytes)
    `{!StoreLaws serve view} (pipeline_batch : Z) (conn : Conn (P := P)) (key : bytes) (value : option bytes) :
  cn_out conn = [] → cn_in conn = [] → cn_faults conn = [] →
  ∃ answer s p, poke serve key value (vfdw_batch_begin pipeline_batch conn) = (Ok answer, s) ∧ owes serve p s [] ∧
    view p = partial_alter (λ _, value) key (view (cn_peer conn)) ∧ (is_Some value → answer = 1).
Proof.
  intros Ho Hi Hf. set (p0 := cn_peer conn). pose proof (begin_owes serve p0 pipeline_batch conn Ho Hi Hf eq_refl) as Q0.
  set (s0 := vfdw_batch_begin pipeline_batch conn) in *.
  destruct (add_moves serve (poke_command key value) p0 s0 [] Q0) as (s1 & E1 & Q1).
  assert (Ha : ∃ r p, serve (cmd_args (poke_command key value)) p0 = (r, p) ∧ view p = partial_alter (λ _, value) key (view p0) ∧
    vfdw_reply_expect (Some r) (Z.lor (VFDW_RTYPE VALKEY_REPLY_STATUS) (VFDW_RTYPE VALKEY_REPLY_INTEGER)) "poke failed" = Ok () ∧
    (is_Some value → bool_decide (r_type r = VALKEY_REPLY_INTEGER) = false)).
  { destruct value as [v|].
    - destruct (store_set key v p0) as (x & p & E & V). exists (status_reply x), p. change (cmd_args _) with ["SET"; key; v]. by rewrite E.
    - destruct (store_del key p0) as (x & p & E & V). exists (integer_reply x), p. change (cmd_args _) with ["DEL"; key]. rewrite E.
      split; [done|]. split; [exact V|]. split; [done|]. by intros [? ?]. }
  destruct Ha as (r & p & Ea & Hv & Hx & Hi1). rewrite Ea in Q1. cbn [fst snd app] in Q1.
  destruct (next_owes serve p s1 r [] Q1) as (s2 & E2 & Q2). destruct (end_owes serve p s2 [] Q2) as (s3 & E3 & Q3).
  eexists _, s3, p. split; [|split; [done|split; [done|]]].
  - unfold poke, mbind, M_bind, lift. rewrite E1, E2, Hx, E3. reflexivity.
  - intros Hs. by rewrite (Hi1 Hs).
Qed.

(* ---------------------------------------------------------------- *)
(** ** What pipeline_batch decides *)

Section flushes.
Context {P : Type} (serve : list bytes → P → Reply * P).

(** Flushes and the rest: [sent] commands were queued since the batch began. *)
Definition pushed (m sent : Z) (s : BatchState (P := P)) : Prop :=
  b_max_inflight (bs_batch s) = m ∧ b_queued (bs_batch s) < m ∧ 0 ≤ b_queued (bs_batch s) ∧
  b_flushes (bs_batch s) * m + b_queued (bs_batch s) = sent.

Lemma add_pushed m sent cmd s :
  0 < m → faultless s → pushed m sent s →
  ∃ s', vfdw_batch_add serve cmd s = (Ok (), s') ∧ faultless s' ∧ pushed m (sent + 1) s'.
Proof.
  intros Hm Hf (<- & Hq & Hq0 & Hs). unfold faultless in Hf. unfold vfdw_batch_add, vfdw_batch_flush, set_batch.
  unfold mbind at 1. unfold M_bind at 1, on_conn at 1, wire_append. rewrite Hf. simpl.
  rewrite modify_bind, gets_bind. cbn [bs_batch b_max_inflight b_queued]. case_bool_decide as Hfull.
  - unfold when. rewrite gets_bind. cbn [bs_batch b_queued]. rewrite bool_decide_false by lia.
    unfold mbind, M_bind, on_conn, wire_flush. cbn [bs_conn set_wire cn_faults cn_out cn_peer]. cbn [head].
    destruct (deliver serve (cn_out (bs_conn s) ++ [cmd_args cmd]) (cn_peer (bs_conn s))) as [rs p].
    eexists. split; [reflexivity|]. split; [reflexivity|]. unfold pushed. cbn. split; [done|]. nia.
  - eexists. split; [reflexivity|]. split; [reflexivity|]. unfold pushed. cbn. split; [done|]. lia.
Qed.

Lemma queue_pushed build m js cmd sent s :
  0 < m → faultless s → pushed m sent s →
  ∃ s', queue_commands serve build js cmd s = (Ok (), s') ∧ faultless s' ∧ pushed m (sent + Z.of_nat (length js)) s'.
Proof.
  intros Hm. revert cmd sent s. induction js as [|i js IH]; intros cmd sent s Hf Hp.
  { exists s. cbn. by rewrite Z.add_0_r. }
  destruct (add_pushed m sent (build cmd i) s Hm Hf Hp) as (s1 & E1 & Hf1 & Hp1). destruct (IH (build cmd i) _ s1 Hf1 Hp1) as (s2 & E2 & Hf2 & Hp2).
  exists s2. cbn [queue_commands]. unfold mbind, M_bind. rewrite E1. split; [exact E2|]. split; [done|].
  cbn [length]. by replace (sent + Z.of_nat (S (length js))) with (sent + 1 + Z.of_nat (length js)) by lia.
Qed.
End flushes.

(** Queueing commands on a batch pushes the buffer out once for every pipeline_batch of
    them, and not for the rest. *)
Theorem flushes_are_depth_over_batch {P : Type} (serve : list bytes → P → Reply * P) (pipeline_batch n : Z) (conn : Conn (P := P)) :
  0 < pipeline_batch → 0 ≤ n → cn_faults conn = [] →
  ∃ s, queue_commands serve ping_command (counting 0 (Z.to_nat n)) (vfdw_cmd_init 4) (vfdw_batch_begin pipeline_batch conn) = (Ok (), s) ∧
    vfdw_batch_flushes s = n / pipeline_batch.
Proof.
  intros Hm Hn Hf. destruct (queue_pushed serve ping_command pipeline_batch (counting 0 (Z.to_nat n)) (vfdw_cmd_init 4) 0
    (vfdw_batch_begin pipeline_batch conn) Hm Hf) as (s & E & _ & (_ & Hq & Hq0 & Hs)); [split; [done|cbn; lia]|].
  exists s. split; [done|]. rewrite length_counting, Z2Nat.id in Hs by done. unfold vfdw_batch_flushes.
  apply (Z.div_unique _ _ _ (b_queued (bs_batch s))); lia.
Qed.

(* ---------------------------------------------------------------- *)
(** ** By address *)

Definition keeps_live {A} (m : Io A) : Prop := ∀ s r s', m s = Some (r, s') → io_live s' = io_live s.

Lemma keeps_bind {A B} (m : Io A) (f : A → Io B) : keeps_live m → (∀ a, keeps_live (f a)) → keeps_live (m ≫= f).
Proof.
  intros Hm Hf s r s' (r1 & s1 & E1 & E)%io_bind_some. apply Hm in E1. destruct r1 as [a|e]; [|by destruct E as [-> ->]].
  by rewrite (Hf a _ _ _ E).
Qed.

Lemma keeps_wait deadline : keeps_live (vfdw_io_wait deadline).
Proof. intros s r s' E. by destruct (wait_spec _ _ _ _ E) as ((_ & _ & _ & _ & _ & ?) & _). Qed.

Lemma keeps_flush fuel deadline : keeps_live (vfdw_io_flush fuel deadline).
Proof.
  induction fuel as [|n IH]; [done|]. apply keeps_bind.
  - intros s r s' E. unfold valkeyBufferWrite in E. case_bool_decide; [by simplify_eq|]. by destruct (io_writes s) as [|[]]; simplify_eq.
  - intros [e|[|]]; [by intros s r s' [= <- <-]|by intros s r s' [= <- <-]|]. apply keeps_bind; [apply keeps_wait|]. intros _. exact IH.
Qed.

Lemma keeps_get_reply parse fuel deadline : keeps_live (vfdw_io_get_reply parse fuel deadline).
Proof.
  induction fuel as [|n IH]; [done|]. apply keeps_bind.
  - intros s r s' E. unfold valkeyGetReplyFromReader in E. by destruct (parse (io_in s)); simplify_eq.
  - intros [e|[r|]]; [by intros s r s' [= <- <-]|by intros s r' s' [= <- <-]|]. apply keeps_bind; [apply keeps_wait|]. intros _. apply keeps_bind.
    + intros s r s' E. unfold valkeyBufferRead in E. by destruct (io_reads s) as [|[]]; simplify_eq.
    + intros [e|]; [by intros s r s' [= <- <-]|exact IH].
Qed.

Lemma keeps_roundtrip format reader fuel limits deadline argv : keeps_live (vfdw_test_roundtrip format reader fuel limits deadline argv).
Proof.
  apply keeps_bind; [|intros _; apply keeps_bind; [apply keeps_flush|intros _; apply keeps_get_reply]].
  intros s r s' E. unfold vfdw_test_append in E. destruct (format argv); by injection E as <- <-.
Qed.

(** A raise inside the block closes the socket too. *)
Lemma with_connection_keeps {A} connect host port ms (body : Io A) :
  keeps_live body → keeps_live (with_connection connect host port ms body).
Proof.
  intros Hb s r s' (r1 & s1 & E1 & E)%io_bind_some. apply connect_owns_or_frees in E1.
  destruct r1 as [o|e]; [|destruct E as [-> ->]; done]. destruct E1 as [_ Hl].
  destruct (body s1) as [[r2 s2]|] eqn:E2; [|done]. apply Hb in E2.
  unfold valkeyFree, io_modify, mbind, Io_bind in E. injection E as <- <-. cbn. lia.
Qed.

(** The three calls that take an address: when one of them returns or raises, no context
    of its own is left open, whatever the server, the network or the user does. *)
Theorem calls_by_address_leave_no_socket format reader default_limits connect verify_mbstr encoding fuel su host port a b payload :
  keeps_live (valkey_fdw_test_ping format reader default_limits connect verify_mbstr encoding fuel su host port a b) ∧
  keeps_live (valkey_fdw_test_binary format reader default_limits connect fuel su host port payload) ∧
  keeps_live (valkey_fdw_test_block format reader default_limits connect fuel su host port a b).
Proof.
  assert (Hl : ∀ r : result unit, keeps_live (io_lift r)) by (intros r s r' s' [= <- <-]; done).
  assert (Hg : keeps_live (io_gets io_now)) by (intros s r s' [= <- <-]; done).
  split; [|split]; (apply keeps_bind; [apply Hl|intros _; apply with_connection_keeps, keeps_bind; [exact Hg|intros now]]).
  - apply keeps_bind; [apply keeps_roundtrip|]. intros reply. destruct (vfdw_reply_is_error _); by intros s r s' [= <- <-].
  - apply keeps_bind; [apply keeps_roundtrip|]. intros _. apply keeps_bind; [apply keeps_roundtrip|].
    intros reply. destruct (negb _); by intros s r s' [= <- <-].
  - apply keeps_bind; [apply keeps_roundtrip|]. by intros reply s r s' [= <- <-].
Qed.

(* ---------------------------------------------------------------- *)
(** ** A connection that is not given back *)

(** One call of valkey_fdw_test_resp3 on the sample server. *)
Definition ask_protocol (w : Pool (P := nat)) : result bool * Pool :=
  valkey_fdw_test_resp3 SamplePool.nod SamplePool.zeroed (λ _, true) "UTF8" SamplePool.reachable (Ok ()) None "#!lua"
    (λ _, Ok 1) (λ _, true) (elog_error "denied") (λ _, Ok 10) (λ _, SamplePool.catalog) 1 "srv" w.

(** Every call leases another slot and keeps it: the thirty-third call of a transaction
    is refused for too many scans. *)
Theorem protocol_call_keeps_its_lease :
  let w := Nat.iter VFDW_MAX_CONN_SLOTS (λ w, (ask_protocol w).2) (MkPool None 0) in
  vfdw_conn_leased_count w = 32 ∧ (ask_protocol w).1 = Raise vfdw_conn_no_slots.
Proof. split; vm_compute; reflexivity. Qed.

(* ---------------------------------------------------------------- *)
(** * Reports *)

Lemma ordinals_lookup {A} n (l : list A) i x : (i, x) ∈ ordinals n l ↔ n ≤ i ∧ l !! Z.to_nat (i - n) = Some x.
Proof.
  revert n. induction l as [|y l IH]; intros n; cbn [ordinals]; [rewrite elem_of_nil, lookup_nil; naive_solver|].
  rewrite elem_of_cons, IH. split.
  - intros [[= -> ->]|[Hn E]]; [rewrite Z.sub_diag; by split; [lia|]|]. split; [lia|].
    replace (Z.to_nat (i - n)) with (S (Z.to_nat (i - (n + 1)))) by lia. exact E.
  - intros [Hn E]. destruct (decide (i = n)) as [->|Hne].
    + rewrite Z.sub_diag in E. injection E as ->. by left.
    + right. split; [lia|]. replace (Z.to_nat (i - n)) with (S (Z.to_nat (i - (n + 1)))) in E by lia. exact E.
Qed.

(* ---------------------------------------------------------------- *)
(** ** The buffer *)

Lemma elem_of_bms s n : n ∈ bms_members s ↔ n ∈ s ∧ 0 ≤ n.
Proof. unfold bms_members. rewrite merge_sort_Permutation, elem_of_remove_dups, list_elem_of_filter. tauto. Qed.

(** The targets shown are those of the operations in the buffer, each once per operation
    and in the order of the columns. *)
Theorem targets_are_the_operations (w : Wbuf) (ordinal : Z) (kind : string) (attno : Z) :
  (ordinal, kind, attno) ∈ valkey_fdw_test_wbuf_targets w ↔
  ∃ op, 1 ≤ ordinal ∧ live_ops w !! Z.to_nat (ordinal - 1) = Some op ∧
    kind = vfdw_testwbuf_kind_name (op_kind op) ∧ attno ∈ op_target_attrs op ∧ 0 ≤ attno.
Proof.
  unfold valkey_fdw_test_wbuf_targets. rewrite list_elem_of_bind. split.
  - intros ([o op] & Hin & [Ho E]%ordinals_lookup). apply list_elem_of_bind in Hin as (a & [= -> -> ->]%list_elem_of_singleton & [Ha Hp]%elem_of_bms).
    by exists op.
  - intros (op & Ho & E & -> & Ha & Hp). exists (ordinal, op). split; [|by apply ordinals_lookup].
    apply list_elem_of_bind. exists attno. split; [by apply list_elem_of_singleton|by apply elem_of_bms].
Qed.

(* ---------------------------------------------------------------- *)
(** ** The ledger *)

Definition step_named (name : Z → result string) (s : VfdwLedgerStep) : Prop := ∃ n, name (st_op s) = Ok n.

(** What a row shows of a step. *)
Definition shows (name : Z → result string) (r : LedgerRow) (ns : Z * VfdwLedgerStep) : Prop :=
  lr_step r = ns.1 ∧ name (st_op ns.2) = Ok (lr_op r) ∧
  lr_args r = (if bool_decide (0 < length (st_args ns.2))%nat then Some (join_args (st_args ns.2)) else None).

Definition row_of (plan : VfdwKeyPlan) (planno : Z) (kind : string) (r : LedgerRow) : Prop :=
  lr_plan r = planno ∧ lr_kind r = kind ∧ lr_key r = kp_key plan.

Lemma step_rows_shown name plan planno kind steps n :
  Forall (step_named name) steps →
  ∃ rows, step_rows name plan planno kind steps n = Ok rows ∧ Forall (row_of plan planno kind) rows ∧
    Forall2 (shows name) rows (ordinals n steps).
Proof.
  intros Hs. revert n. induction Hs as [|s steps [opname E] _ IH]; intros n; [by exists []|].
  destruct (IH (n + 1)) as (rows & E1 & H1 & H2). cbn [step_rows ordinals]. rewrite E. cbn [mbind result_bind]. rewrite E1.
  eexists. split; [reflexivity|]. split; [by constructor|]. constructor; [|done]. by split_and!.
Qed.

Lemma code_name names op : 0 ≤ op < Z.of_nat (length names) → ∃ n : string, names !! Z.to_nat op = Some n.
Proof. intros Ho. apply lookup_lt_is_Some. lia. Qed.

Lemma check_named s : check_ok s → step_named vfdw_ledger_check_name s.
Proof. intros (c & E & _). unfold step_named. rewrite E. destruct c; by eexists. Qed.
Lemma action_named s : action_ok s → step_named vfdw_ledger_action_name s.
Proof. intros (a & E & _). unfold step_named. rewrite E. destruct a; by eexists. Qed.

Lemma plan_checks_ok k : plan_shape k → Forall check_ok (kp_checks k) ∧ kp_checks k ≠ [].
Proof.
  intros ((rest & E & Hr) & _). rewrite E. split; [|done]. constructor; [by exists VFDW_CHK_TYPE_OK|].
  apply Forall_app. split; [|by eapply Forall_impl; [exact Hr|intros s [? _]]].
  destruct (kp_require k); repeat constructor; [by exists VFDW_CHK_KEY_ABSENT|by exists VFDW_CHK_KEY_PRESENT].
Qed.

(** Of one plan: its checks, then its actions. *)
Definition plan_shown (plan : VfdwKeyPlan) (planno : Z) (rows : list LedgerRow) : Prop :=
  ∃ checks actions, rows = checks ++ actions ∧
    Forall (row_of plan planno "check") checks ∧ Forall2 (shows vfdw_ledger_check_name) checks (ordinals 1 (kp_checks plan)) ∧
    Forall (row_of plan planno "action") actions ∧ Forall2 (shows vfdw_ledger_action_name) actions (ordinals 1 (kp_actions plan)).

Lemma plan_rows_shown plan planno : plan_shape plan → ∃ rows, plan_rows plan planno = Ok rows ∧ plan_shown plan planno rows.
Proof.
  intros Hp. destruct (plan_checks_ok plan Hp) as [Hc Hne]. destruct Hp as (_ & Ha & _).
  destruct (step_rows_shown vfdw_ledger_check_name plan planno "check" (kp_checks plan) 1) as (cs & E1 & C1 & C2);
    [by eapply Forall_impl; [exact Hc|apply check_named]|].
  destruct (step_rows_shown vfdw_ledger_action_name plan planno "action" (kp_actions plan) 1) as (acts & E2 & A1 & A2);
    [by eapply Forall_impl; [exact Ha|apply action_named]|].
  exists (cs ++ acts). split; [|by exists cs, acts]. unfold plan_rows. rewrite E1. cbn [mbind result_bind]. rewrite E2.
  cbn [mbind result_bind]. by destruct (kp_checks plan).
Qed.

(** The report of a well-formed ledger raises nothing and shows every plan, in the order
    the keys were touched: its checks and then its actions, each step once, ordinals in
    its order, under the name of its opcode and with its arguments.  The row for a plan
    without steps is never needed: every plan has its type check. *)
Theorem report_is_the_ledger (l : Ledger) :
  ledger_ok l →
  ∃ rows, valkey_fdw_test_ledger l = Ok (concat rows) ∧
    Forall2 (λ part ip, plan_shown ip.2 ip.1 part) rows (ordinals 1 (lg_plans l)).
Proof.
  intros Hl. assert (Hp : Forall plan_shape (lg_plans l)).
  { destruct Hl as [(_ & _ & _ & -> & _)|(_ & _ & _ & H)]; [constructor|]. apply Forall_lookup. intros p k E. by destruct (H p k E). }
  unfold valkey_fdw_test_ledger. generalize 1. induction Hp as [|plan plans Hplan _ IH]; intros n; [by exists []|].
  destruct (plan_rows_shown plan n Hplan) as (here & E & Hs). destruct (IH (n + 1)) as (rows & E1 & H1).
  exists (here :: rows). cbn [ledger_loop ordinals concat]. rewrite E. cbn [mbind result_bind]. rewrite E1. split; [done|]. by constructor.
Qed.

Lemma report_is_the_ledger_witness :
  ∃ rows, valkey_fdw_test_ledger sample_ledger = Ok (concat rows) ∧
    Forall2 (λ part ip, plan_shown ip.2 ip.1 part) rows (ordinals 1 (lg_plans sample_ledger)).
Proof. apply report_is_the_ledger. exact sample_ledger_ok. Defined.

(* ---------------------------------------------------------------- *)
(** ** The program and its opcodes *)

(** The recorded program does not depend on the digest, only on the ledger: it has one
    row per argument, the one that holds the digest under a fixed name. *)
Theorem program_hides_the_digest (l : Ledger) :
  ledger_ok l → ∃ rows, ∀ sha1, valkey_fdw_test_script_program sha1 l = Ok rows.
Proof.
  intros Hl. exists (imap program_row (["EVALSHA"; "<sha1>"; dec (kt_nkeys (declared l))] ++ kt_keys (declared l) ++ wire_argv l)).
  intros sha1. unfold valkey_fdw_test_script_program. destruct (encode_wire sha1 l (vfdw_cmd_init 32) Hl) as (cmd & E & Ea).
  rewrite E. cbn [mbind result_bind]. rewrite Ea. reflexivity.
Qed.

(** Every opcode is listed, under its number and name, and no two of a kind share a name. *)
Theorem opcodes_are_listed :
  ∃ rows, valkey_fdw_test_opcodes = Ok rows ∧
    (∀ c, ∃ n, ("check", check_code c, n) ∈ rows) ∧ (∀ a, ∃ n, ("action", action_code a, n) ∈ rows) ∧ NoDup ((λ r, (r.1.1, r.2)) <$> rows).
Proof.
  eexists. split; [vm_compute; reflexivity|]. split; [|split].
  - intros []; eexists; repeat first [apply list_elem_of_here | apply list_elem_of_further].
  - intros []; eexists; repeat first [apply list_elem_of_here | apply list_elem_of_further].
  - match goal with |- ?P => apply (bool_decide_eq_true P) end. vm_compute. reflexivity.
Qed.

(* ---------------------------------------------------------------- *)
(** ** Keys *)

(** The rule that is named is the rule that is raised: building a key succeeds exactly
    when the verdict is ok, and otherwise raises the error of the verdict. *)
Theorem key_why_is_the_rule_raised `{TypeCatalog} `{PgTypes} (d : option Datum) (keyprefix keyset singleton_key : option bytes) (has_col : option bool) :
  match valkey_fdw_test_key_why d keyprefix keyset singleton_key has_col with
  | Raise e => valkey_fdw_test_build_key d keyprefix keyset singleton_key has_col = Raise e
  | Ok name => ∃ v, name = vfdw_val_key_verdict_name v ∧
      match valkey_fdw_test_build_key d keyprefix keyset singleton_key has_col with
      | Ok _ => v = VFDW_KEY_OK
      | Raise e => v ≠ VFDW_KEY_OK ∧ e = vfdw_val_key_error v
      end
  end.
Proof.
  unfold valkey_fdw_test_key_why, valkey_fdw_test_build_key. destruct (key_probe _ _ _ _) as [tv|e] eqn:E; [|done]. cbn [mbind result_bind].
  assert (Hk : col_kind (tv_col tv) = VFDW_COL_KEY).
  { unfold key_probe, vfdw_test_val_setup in E. cbn in E. destruct (default true has_col); injection E as <-; cbn;
      unfold vfdw_map_resolve_type; destruct (getTypeInputInfo _), (getTypeOutputInfo _); reflexivity. }
  assert (Hb : (if default true has_col then vfdw_val_from_slot (tv_vc tv) (tv_map tv) (tv_col tv) d else vfdw_val_build_key (tv_vc tv) (tv_map tv) None d)
    = vfdw_val_build_key (tv_vc tv) (tv_map tv) (if default true has_col then Some (tv_col tv) else None) d).
  { destruct (default true has_col); [|done]. unfold vfdw_val_from_slot. by rewrite Hk. }
  rewrite Hb. unfold vfdw_val_build_key. destruct (vfdw_val_key_classify _ _ _ _) as [[v out]|e]; [|done]. cbn [mbind result_bind].
  exists v. split; [done|]. case_bool_decide; by cbn [mbind result_bind].
Qed.
