(* ===== verification/Tls.v ===== *)
(** Setting up TLS on a connected socket (src/vfdw_tls.c): the context, the identity the
    peer has to prove, who owns the objects of OpenSSL on every path, and the reason a
    certificate was rejected.

    OpenSSL and libvalkey are the parameter [openssl]: whether a call succeeds and what
    it leaves in the error queue. What a call that succeeds does is written to the
    objects here. *)
From S2P Require Import Prelude Option Error.
Local Open Scope Z_scope.

Definition VFDW_TLS_VERIFY_FULL : Z := 0.
Definition VFDW_TLS_VERIFY_CA : Z := 1.
Definition VFDW_TLS_VERIFY_NONE : Z := 2.

(** X509_V_*, those that are told apart. *)
Inductive X509Result :=
  | X509_V_OK
  | X509_V_ERR_HOSTNAME_MISMATCH | X509_V_ERR_IP_ADDRESS_MISMATCH
  | X509_V_ERR_CERT_HAS_EXPIRED | X509_V_ERR_CERT_NOT_YET_VALID
  | X509_V_ERR_DEPTH_ZERO_SELF_SIGNED_CERT | X509_V_ERR_SELF_SIGNED_CERT_IN_CHAIN
  | X509_V_ERR_UNABLE_TO_GET_ISSUER_CERT | X509_V_ERR_UNABLE_TO_GET_ISSUER_CERT_LOCALLY
  | X509_V_ERR_UNABLE_TO_VERIFY_LEAF_SIGNATURE
  | X509_V_ERR_OTHER (n : Z).

#[global] Instance X509Result_eq_dec : EqDecision X509Result.
Proof. solve_decision. Defined.

Inductive TrustStore := TrustNothing | TrustFile (f : bytes) | TrustSystem.

Record SslCtx := MkSslCtx {
  cx_tls12_floor : bool;
  cx_trust : TrustStore;
  cx_cert : option bytes;
  cx_key : option bytes;
  (* SSL_VERIFY_PEER and the callback *)
  cx_verify_peer : bool;
}.

Inductive PeerName := DnsName (h : bytes) | IpAddress (h : bytes).

Record Ssl := MkSsl {
  sl_ctx : SslCtx;
  sl_server_name : option bytes;
  sl_pinned : option PeerName;
  sl_partial_wildcards : bool;
}.

(** [tl_ctx] and [tl_ssl] are the references this code holds, [tl_attached] the session
    the connection owns. *)
Record Tls := MkTls {
  vfdw_openssl_ready : bool;
  vfdw_tls_verify_error : X509Result;
  tl_queue : list bytes;
  tl_ctx : option SslCtx;
  tl_ssl : option Ssl;
  tl_attached : option Ssl;
}.

Definition set_ready (t : Tls) : Tls :=
  MkTls true (vfdw_tls_verify_error t) (tl_queue t) (tl_ctx t) (tl_ssl t) (tl_attached t).
Definition set_verify_error (e : X509Result) (t : Tls) : Tls :=
  MkTls (vfdw_openssl_ready t) e (tl_queue t) (tl_ctx t) (tl_ssl t) (tl_attached t).
Definition set_queue (q : list bytes) (t : Tls) : Tls :=
  MkTls (vfdw_openssl_ready t) (vfdw_tls_verify_error t) q (tl_ctx t) (tl_ssl t) (tl_attached t).
Definition set_ctx (c : option SslCtx) (t : Tls) : Tls :=
  MkTls (vfdw_openssl_ready t) (vfdw_tls_verify_error t) (tl_queue t) c (tl_ssl t) (tl_attached t).
Definition set_ssl (s : option Ssl) (t : Tls) : Tls :=
  MkTls (vfdw_openssl_ready t) (vfdw_tls_verify_error t) (tl_queue t) (tl_ctx t) s (tl_attached t).
(** The connection takes the session over. *)
Definition hand_over (t : Tls) : Tls :=
  MkTls (vfdw_openssl_ready t) (vfdw_tls_verify_error t) (tl_queue t) (tl_ctx t) None (tl_ssl t).
Definition change_ctx (f : SslCtx → SslCtx) (t : Tls) : Tls := set_ctx (f <$> tl_ctx t) t.
Definition change_ssl (f : Ssl → Ssl) (t : Tls) : Tls := set_ssl (f <$> tl_ssl t) t.

Inductive SslCall :=
  | valkeyInitOpenSSL
  | SSL_CTX_new | SSL_CTX_set_min_proto_version
  | SSL_CTX_load_verify_locations (f : bytes) | SSL_CTX_set_default_verify_paths
  | SSL_CTX_use_certificate_chain_file (f : bytes) | SSL_CTX_use_PrivateKey_file (f : bytes) | SSL_CTX_check_private_key
  | SSL_new
  | SSL_set_tlsext_host_name (h : bytes)
  | X509_VERIFY_PARAM_set1_ip_asc (h : bytes) | X509_VERIFY_PARAM_set1_host (h : bytes)
  | valkeyInitiateTLS.

Section tls.
Context (openssl : SslCall → bool * list bytes).
(** inet_pton for AF_INET and AF_INET6. *)
Context (inet_pton4 inet_pton6 : bytes → bool).

(** A call, and what it does when it succeeds. *)
Definition ssl_call (c : SslCall) (effect : Tls → Tls) : M Tls bool := λ t,
  let t := set_queue (tl_queue t ++ (openssl c).2) t in
  (Ok (openssl c).1, if (openssl c).1 then effect t else t).

(* ---------------------------------------------------------------- *)
(** ** The reason of a rejection *)

(** [error] is what X509_STORE_CTX_get_error answers. *)
Definition vfdw_tls_verify_cb (preverify_ok : bool) (error : X509Result) (t : Tls) : bool * Tls :=
  (preverify_ok,
   if negb preverify_ok && bool_decide (vfdw_tls_verify_error t = X509_V_OK) then set_verify_error error t else t).

Inductive VerifyHint := HintName | HintValidity | HintAnchor | HintGeneral.

Definition vfdw_tls_verify_hint (err : X509Result) : VerifyHint :=
  match err with
  | X509_V_ERR_HOSTNAME_MISMATCH | X509_V_ERR_IP_ADDRESS_MISMATCH => HintName
  | X509_V_ERR_CERT_HAS_EXPIRED | X509_V_ERR_CERT_NOT_YET_VALID => HintValidity
  | X509_V_ERR_DEPTH_ZERO_SELF_SIGNED_CERT | X509_V_ERR_SELF_SIGNED_CERT_IN_CHAIN
  | X509_V_ERR_UNABLE_TO_GET_ISSUER_CERT | X509_V_ERR_UNABLE_TO_GET_ISSUER_CERT_LOCALLY
  | X509_V_ERR_UNABLE_TO_VERIFY_LEAF_SIGNATURE => HintAnchor
  | X509_V_OK | X509_V_ERR_OTHER _ => HintGeneral
  end.

(** The reason, which is taken, and the hint that fits it. *)
Definition vfdw_tls_verify_reason (t : Tls) : option X509Result * VerifyHint * Tls :=
  let err := vfdw_tls_verify_error t in
  (if bool_decide (err = X509_V_OK) then None else Some err, vfdw_tls_verify_hint err, set_verify_error X509_V_OK t).

(** The oldest error of the queue, which is emptied. *)
Definition vfdw_tls_take_error (t : Tls) : option bytes * Tls :=
  match tl_queue t with
  | [] => (None, t)
  | e :: _ => (Some e, set_queue [] t)
  end.

(** The text goes into the detail. *)
Definition vfdw_tls_last_error (t : Tls) : bytes * Tls :=
  let '(reason, t) := vfdw_tls_take_error t in (default "no OpenSSL error was recorded" reason, t).

(** [ssl] and [ctx]: whether the caller passes the object on to be freed. *)
Definition vfdw_tls_fail {A} (ssl ctx : bool) (what : string) : M Tls A := λ t,
  let '(_, t) := vfdw_tls_last_error t in
  let t := if ssl then set_ssl None t else t in
  let t := if ctx then set_ctx None t else t in
  (Raise (PgError ERRCODE_CONNECTION_FAILURE what), t).

(* ---------------------------------------------------------------- *)
(** ** Set-up *)

Definition vfdw_is_ip_literal (host : bytes) : bool := inet_pton4 host || inet_pton6 host.

(** A call that has to succeed. *)
Definition must (c : SslCall) (effect : Tls → Tls) (ssl ctx : bool) (what : string) : M Tls unit :=
  ok ← ssl_call c effect;
  if (ok : bool) then mret () else vfdw_tls_fail ssl ctx what.

Definition set_trust (s : TrustStore) (c : SslCtx) : SslCtx :=
  MkSslCtx (cx_tls12_floor c) s (cx_cert c) (cx_key c) (cx_verify_peer c).
Definition set_cert (f : bytes) (c : SslCtx) : SslCtx :=
  MkSslCtx (cx_tls12_floor c) (cx_trust c) (Some f) (cx_key c) (cx_verify_peer c).
Definition set_key (f : bytes) (c : SslCtx) : SslCtx :=
  MkSslCtx (cx_tls12_floor c) (cx_trust c) (cx_cert c) (Some f) (cx_verify_peer c).
Definition set_floor (c : SslCtx) : SslCtx := MkSslCtx true (cx_trust c) (cx_cert c) (cx_key c) (cx_verify_peer c).
Definition set_verify (b : bool) (c : SslCtx) : SslCtx :=
  MkSslCtx (cx_tls12_floor c) (cx_trust c) (cx_cert c) (cx_key c) b.

Definition load_trust (opts : VfdwServerOptions) : M Tls unit :=
  match so_tls_ca_file opts with
  | Some f => must (SSL_CTX_load_verify_locations f) (change_ctx (set_trust (TrustFile f))) false true
                "could not load the CA certificate file"
  | None =>
      if bool_decide (so_tls_verify opts ≠ VFDW_TLS_VERIFY_NONE)
      then must SSL_CTX_set_default_verify_paths (change_ctx (set_trust TrustSystem)) false true "could not load the system CA store"
      else mret ()
  end.

Definition load_client (opts : VfdwServerOptions) : M Tls unit :=
  match so_tls_cert_file opts with
  | None => mret ()
  | Some cert =>
      must (SSL_CTX_use_certificate_chain_file cert) (change_ctx (set_cert cert)) false true "could not load the client certificate";;;
      match so_tls_key_file opts with
      | None =>
          modify (set_ctx None);;;
          raise (PgError ERRCODE_INVALID_PARAMETER_VALUE "tls_cert_file requires tls_key_file")
      | Some key =>
          must (SSL_CTX_use_PrivateKey_file key) (change_ctx (set_key key)) false true "could not load the client private key";;;
          must SSL_CTX_check_private_key id false true "the client private key does not match the certificate"
      end
  end.

Definition vfdw_tls_make_context (opts : VfdwServerOptions) : M Tls unit :=
  must SSL_CTX_new (set_ctx (Some (MkSslCtx false TrustNothing None None false))) false false "could not create a TLS context";;;
  must SSL_CTX_set_min_proto_version (change_ctx set_floor) false true "could not set the minimum TLS version";;;
  load_trust opts;;;
  load_client opts;;;
  modify (change_ctx (set_verify (negb (bool_decide (so_tls_verify opts = VFDW_TLS_VERIFY_NONE))))).

Definition set_server_name (h : bytes) (s : Ssl) : Ssl := MkSsl (sl_ctx s) (Some h) (sl_pinned s) (sl_partial_wildcards s).
Definition set_pinned (n : PeerName) (s : Ssl) : Ssl := MkSsl (sl_ctx s) (sl_server_name s) (Some n) (sl_partial_wildcards s).
Definition no_partial_wildcards (s : Ssl) : Ssl := MkSsl (sl_ctx s) (sl_server_name s) (sl_pinned s) false.

Definition peer_name (opts : VfdwServerOptions) : bytes := default (so_host opts) (so_tls_sni opts).

(** The context is no longer this code's to free. *)
Definition vfdw_tls_set_identity (opts : VfdwServerOptions) : M Tls unit :=
  let name := peer_name opts in
  (if negb (vfdw_is_ip_literal name)
   then must (SSL_set_tlsext_host_name name) (change_ssl (set_server_name name)) true false "could not set the TLS server name"
   else mret ());;;
  if bool_decide (so_tls_verify opts ≠ VFDW_TLS_VERIFY_FULL) then mret ()
  else
    modify (change_ssl no_partial_wildcards);;;
    (if vfdw_is_ip_literal name
     then must (X509_VERIFY_PARAM_set1_ip_asc name) (change_ssl (set_pinned (IpAddress name))) true false
            "could not enable TLS hostname verification"
     else must (X509_VERIFY_PARAM_set1_host name) (change_ssl (set_pinned (DnsName name))) true false
            "could not enable TLS hostname verification").

(** SSL_new takes a reference to the context. *)
Definition new_session (t : Tls) : Tls := set_ssl ((λ c, MkSsl c None None true) <$> tl_ctx t) t.

Definition vfdw_tls_attach (opts : VfdwServerOptions) : M Tls unit :=
  ready ← gets vfdw_openssl_ready;
  (if negb ready
   then ok ← ssl_call valkeyInitOpenSSL id;
        if (ok : bool) then modify set_ready else raise (PgError ERRCODE_CONNECTION_FAILURE "could not initialise OpenSSL")
   else mret ());;;
  modify (set_queue []);;;
  modify (set_verify_error X509_V_OK);;;
  vfdw_tls_make_context opts;;;
  must SSL_new new_session false true "could not create a TLS session";;;
  modify (set_ctx None);;;
  vfdw_tls_set_identity opts;;;
  (ok ← ssl_call valkeyInitiateTLS hand_over;
   if (ok : bool) then mret ()
   else
     modify (set_ssl None);;;
     raise (PgError ERRCODE_CONNECTION_FAILURE "TLS handshake with Valkey failed")).
End tls.
