(* ===== verification/TlsFacts.v ===== *)
(** TLS set-up: whatever OpenSSL answers, a connection has a session configured as the
    options say or none, and nothing is left unfreed; the reason of a rejection is that
    of the handshake it is reported for (src/vfdw_tls.c). *)
From S2P Require Import Prelude Option Error Tls.
Local Open Scope Z_scope.

Section facts.
Context (openssl : SslCall → bool * list bytes) (inet_pton4 inet_pton6 : bytes → bool).

(** What counts of a state: the objects and the recorded reason. *)
Record View := MkView { v_ctx : option SslCtx; v_ssl : option Ssl; v_attached : option Ssl; v_error : X509Result }.
Definition view (t : Tls) : View := MkView (tl_ctx t) (tl_ssl t) (tl_attached t) (vfdw_tls_verify_error t).

(** From every state seen as [v]: seen as [v'] after success, as [e] after a raise. *)
Definition leads {A} (v : View) (m : M Tls A) (v' : View) (e : View → Prop) : Prop :=
  ∀ t, view t = v → match m t with (Ok _, t') => view t' = v' | (Raise _, t') => e (view t') end.

Lemma leads_bind {A B} v (m : M Tls A) v1 (f : A → M Tls B) v2 e :
  leads v m v1 e → (∀ a, leads v1 (f a) v2 e) → leads v (m ≫= f) v2 e.
Proof.
  intros Hm Hf t Ht. unfold mbind, M_bind. specialize (Hm t Ht). destruct (m t) as [[a|err] t']; [|done].
  by apply Hf.
Qed.

Lemma leads_ret {A} v (a : A) e : leads v (mret a) v e.
Proof. by intros t Ht. Qed.

Lemma leads_modify v f v' e : (∀ t, view t = v → view (f t) = v') → leads v (modify f) v' e.
Proof. intros Hf t Ht. by apply Hf. Qed.

Definition freed (ssl ctx : bool) (v : View) : View :=
  MkView (if ctx then None else v_ctx v) (if ssl then None else v_ssl v) (v_attached v) (v_error v).

Lemma view_fail {A} ssl ctx what t : ∃ err t', vfdw_tls_fail (A := A) ssl ctx what t = (Raise err, t') ∧ view t' = freed ssl ctx (view t).
Proof.
  unfold vfdw_tls_fail, vfdw_tls_last_error, vfdw_tls_take_error. destruct (tl_queue t); by destruct ssl, ctx; eexists _, _.
Qed.

Lemma leads_must v c effect ssl ctx what v' (e : View → Prop) :
  (∀ t, view t = v → view (effect t) = v') → e (freed ssl ctx v) → leads v (must openssl c effect ssl ctx what) v' e.
Proof.
  intros Heff He t Ht. unfold must, ssl_call, mbind, M_bind. destruct (openssl c).1.
  - cbn. by apply Heff.
  - destruct (view_fail (A := unit) ssl ctx what (set_queue (tl_queue t ++ (openssl c).2) t)) as (err & t' & -> & ->).
    change (view (set_queue _ t)) with (view t). by rewrite Ht.
Qed.

Lemma view_set_ctx c' t c s a e : view t = MkView c s a e → view (set_ctx c' t) = MkView c' s a e.
Proof. unfold view. cbn. by intros [= _ -> -> ->]. Qed.

Lemma view_set_ssl s' t c s a e : view t = MkView c s a e → view (set_ssl s' t) = MkView c s' a e.
Proof. unfold view. cbn. by intros [= -> _ -> ->]. Qed.

Lemma view_change_ctx f t c s a e :
  view t = MkView (Some c) s a e → view (change_ctx f t) = MkView (Some (f c)) s a e.
Proof. unfold view, change_ctx. cbn. by intros [= -> -> -> ->]. Qed.

Lemma view_change_ssl f t c s a e :
  view t = MkView c (Some s) a e → view (change_ssl f t) = MkView c (Some (f s)) a e.
Proof. unfold view, change_ssl. cbn. by intros [= -> -> -> ->]. Qed.

(* ---------------------------------------------------------------- *)
(** ** What a session is configured to be *)

Definition configured_trust (opts : VfdwServerOptions) : TrustStore :=
  match so_tls_ca_file opts with
  | Some f => TrustFile f
  | None => if bool_decide (so_tls_verify opts = VFDW_TLS_VERIFY_NONE) then TrustNothing else TrustSystem
  end.

Definition configured_name (opts : VfdwServerOptions) : PeerName :=
  if vfdw_is_ip_literal inet_pton4 inet_pton6 (peer_name opts) then IpAddress (peer_name opts) else DnsName (peer_name opts).

(** TLS 1.2 at least, the trust the options name, the client's certificate with its
    key, the peer verified unless that is turned off, its name pinned under full. *)
Definition configured (opts : VfdwServerOptions) : Ssl :=
  let full := bool_decide (so_tls_verify opts = VFDW_TLS_VERIFY_FULL) in
  MkSsl
    (MkSslCtx true (configured_trust opts) (so_tls_cert_file opts) (so_tls_cert_file opts ≫= λ _, so_tls_key_file opts)
       (negb (bool_decide (so_tls_verify opts = VFDW_TLS_VERIFY_NONE))))
    (match configured_name opts with DnsName h => Some h | IpAddress _ => None end)
    (if full then Some (configured_name opts) else None) (negb full).

(** Nothing held, and the connection as it was. *)
Definition clean (a : option Ssl) (v : View) : Prop := v_ctx v = None ∧ v_ssl v = None ∧ v_attached v = a.

Lemma make_context_leads opts a :
  leads (MkView None None a X509_V_OK) (vfdw_tls_make_context openssl opts)
    (MkView (Some (sl_ctx (configured opts))) None a X509_V_OK) (clean a).
Proof.
  unfold vfdw_tls_make_context, load_trust, load_client.
  set (trust := configured_trust opts). set (key := so_tls_cert_file opts ≫= λ _, so_tls_key_file opts).
  apply (leads_bind _ _ (MkView (Some (MkSslCtx false TrustNothing None None false)) None a X509_V_OK)).
  { apply leads_must; [|done]. intros t Ht. by eapply view_set_ctx. }
  intros _. apply (leads_bind _ _ (MkView (Some (MkSslCtx true TrustNothing None None false)) None a X509_V_OK)).
  { apply leads_must; [|done]. intros t Ht. exact (view_change_ctx _ _ _ _ _ _ Ht). }
  intros _. apply (leads_bind _ _ (MkView (Some (MkSslCtx true trust None None false)) None a X509_V_OK)).
  { unfold trust, configured_trust. destruct (so_tls_ca_file opts) as [f|].
    - apply leads_must; [|done]. intros t Ht. exact (view_change_ctx _ _ _ _ _ _ Ht).
    - do 2 case_bool_decide; try done; [|apply leads_ret].
      apply leads_must; [|done]. intros t Ht. exact (view_change_ctx _ _ _ _ _ _ Ht). }
  intros _. apply (leads_bind _ _ (MkView (Some (MkSslCtx true trust (so_tls_cert_file opts) key false)) None a X509_V_OK)).
  { unfold key. destruct (so_tls_cert_file opts) as [cert|]; [|apply leads_ret]. cbn [mbind option_bind].
    apply (leads_bind _ _ (MkView (Some (MkSslCtx true trust (Some cert) None false)) None a X509_V_OK)).
    { apply leads_must; [|done]. intros t Ht. exact (view_change_ctx _ _ _ _ _ _ Ht). }
    intros _. destruct (so_tls_key_file opts) as [k|].
    - apply (leads_bind _ _ (MkView (Some (MkSslCtx true trust (Some cert) (Some k) false)) None a X509_V_OK)).
      { apply leads_must; [|done]. intros t Ht. exact (view_change_ctx _ _ _ _ _ _ Ht). }
      intros _. by apply leads_must.
    - intros t Ht. injection Ht as _ Es Ea _. by split_and!. }
  intros _. apply leads_modify. intros t Ht. exact (view_change_ctx _ _ _ _ _ _ Ht).
Qed.

Lemma set_identity_leads opts c a :
  leads (MkView None (Some (MkSsl c None None true)) a X509_V_OK) (vfdw_tls_set_identity openssl inet_pton4 inet_pton6 opts)
    (MkView None (Some (MkSsl c (sl_server_name (configured opts)) (sl_pinned (configured opts))
       (sl_partial_wildcards (configured opts)))) a X509_V_OK) (clean a).
Proof.
  unfold vfdw_tls_set_identity. cbn [configured sl_server_name sl_pinned sl_partial_wildcards].
  unfold configured_name. set (name := peer_name opts). set (ip := vfdw_is_ip_literal inet_pton4 inet_pton6 name).
  apply (leads_bind _ _ (MkView None (Some (MkSsl c (if ip then None else Some name) None true)) a X509_V_OK)).
  { destruct ip; cbn [negb]; [apply leads_ret|]. apply leads_must; [|done].
    intros t Ht. exact (view_change_ssl _ _ _ _ _ _ Ht). }
  intros _. assert (Esni : (match (if ip then IpAddress name else DnsName name) with DnsName h => Some h | IpAddress _ => None end)
    = (if ip then None else Some name)) by (by destruct ip). rewrite Esni.
  destruct (bool_decide (so_tls_verify opts = VFDW_TLS_VERIFY_FULL)) eqn:Ef.
  - apply bool_decide_eq_true in Ef. rewrite bool_decide_false by naive_solver. cbn [negb].
    apply (leads_bind _ _ (MkView None (Some (MkSsl c (if ip then None else Some name) None false)) a X509_V_OK)).
    { apply leads_modify. intros t Ht. exact (view_change_ssl _ _ _ _ _ _ Ht). }
    intros _. destruct ip; (apply leads_must; [|done]); intros t Ht; exact (view_change_ssl _ _ _ _ _ _ Ht).
  - apply bool_decide_eq_false in Ef. rewrite bool_decide_true by done. apply leads_ret.
Qed.
End facts.

(** C12: whatever OpenSSL answers to each call, setting up TLS either hands the
    connection a session that is configured as the options say (TLS 1.2 at least, the
    trust they name, the client's certificate only with its key, the peer verified
    unless that is turned off, and under full its name or address pinned without
    partial wildcards), or raises and leaves the connection as it was; either way it
    keeps no context and no session, and no reason of an earlier handshake. *)
Theorem tls_attach_configures_or_frees openssl inet_pton4 inet_pton6 (opts : VfdwServerOptions) (t : Tls) :
  tl_ctx t = None → tl_ssl t = None →
  match vfdw_tls_attach openssl inet_pton4 inet_pton6 opts t with
  | (Ok _, t') => tl_attached t' = Some (configured inet_pton4 inet_pton6 opts) ∧ tl_ctx t' = None ∧ tl_ssl t' = None ∧
      vfdw_tls_verify_error t' = X509_V_OK
  | (Raise _, t') => tl_attached t' = tl_attached t ∧ tl_ctx t' = None ∧ tl_ssl t' = None
  end.
Proof.
  intros Hc Hs. set (a := tl_attached t).
  assert (Hl : leads (view t) (vfdw_tls_attach openssl inet_pton4 inet_pton6 opts)
    (MkView None None (Some (configured inet_pton4 inet_pton6 opts)) X509_V_OK) (clean a)).
  { assert (Ev : view t = MkView None None a (vfdw_tls_verify_error t)) by (unfold view; by rewrite Hc, Hs).
    rewrite Ev. unfold vfdw_tls_attach. apply (leads_bind _ _ (MkView None None a (vfdw_tls_verify_error t))); [by intros u Hu|]. intros ready.
    apply (leads_bind _ _ (MkView None None a (vfdw_tls_verify_error t))).
    { destruct ready; cbn [negb]; [apply leads_ret|]. intros u Hu. unfold ssl_call, mbind, M_bind.
      destruct (openssl valkeyInitOpenSSL).1; cbn; [exact Hu|]. injection Hu as E1 E2 E3 _. by split_and!. }
    intros _. apply (leads_bind _ _ (MkView None None a (vfdw_tls_verify_error t))); [by apply leads_modify|].
    intros _. apply (leads_bind _ _ (MkView None None a X509_V_OK)).
    { apply leads_modify. intros u Hu. injection Hu as E1 E2 E3 _. unfold view. cbn. by rewrite E1, E2, E3. }
    intros _. eapply leads_bind; [apply (make_context_leads openssl inet_pton4 inet_pton6)|intros _].
    set (c := sl_ctx _). apply (leads_bind _ _ (MkView (Some c) (Some (MkSsl c None None true)) a X509_V_OK)).
    { apply leads_must; [|done]. intros u Hu. unfold new_session. assert (E : tl_ctx u = Some c) by (by injection Hu as -> _).
      rewrite E. by eapply view_set_ssl. }
    intros _. apply (leads_bind _ _ (MkView None (Some (MkSsl c None None true)) a X509_V_OK)).
    { apply leads_modify. intros u Hu. by eapply view_set_ctx. }
    intros _. eapply leads_bind; [apply set_identity_leads|intros _]. intros u Hu.
    unfold ssl_call, mbind, M_bind. injection Hu as E1 E2 E3 E4. destruct (openssl valkeyInitiateTLS).1; cbn.
    - unfold view. cbn. by rewrite E1, E2, E4.
    - by split_and!. }
  specialize (Hl t eq_refl). destruct (vfdw_tls_attach openssl inet_pton4 inet_pton6 opts t) as [[?|?] t'].
  - by injection Hl as -> -> -> ->.
  - destruct Hl as (Hl1 & Hl2 & Hl3). cbn in *. by split_and!.
Qed.

(** A certificate of which the file with the key cannot be read. *)
Definition refusing (c : SslCall) : bool * list bytes :=
  match c with SSL_CTX_use_PrivateKey_file _ => (false, ["error:0200100D:Permission denied"]) | _ => (true, []) end.
Definition dotted (h : bytes) : bool := bool_decide (h = "10.0.0.1").
Definition tls_options (host : bytes) (cert key : option bytes) : VfdwServerOptions :=
  match vfdw_server_defaults with
  | Ok o => ServerOptions host (so_port o) None false false true None cert key None VFDW_TLS_VERIFY_FULL
              (so_connect_timeout_ms o) (so_command_timeout_ms o) (so_pipeline_batch o) (so_scan_count o) (so_max_reply_elements o)
              (so_reader_buffer_bytes o) (so_write_max_ops o) (so_write_max_bytes o) (so_write_retry_count o)
  | Raise _ => ServerOptions host 0 None false false true None cert key None VFDW_TLS_VERIFY_FULL 0 0 0 0 0 0 0 0 0
  end.
Definition no_tls : Tls := MkTls false X509_V_OK [] None None None.

(** A session for an address, and a set-up that fails half way. *)
Lemma tls_attach_configures_or_frees_witness :
  (∃ t, vfdw_tls_attach (λ _, (true, [])) dotted (λ _, false) (tls_options "10.0.0.1" None None) no_tls = (Ok (), t) ∧
     tl_attached t = Some (MkSsl (MkSslCtx true TrustSystem None None true) None (Some (IpAddress "10.0.0.1")) false) ∧
     tl_ctx t = None ∧ tl_ssl t = None) ∧
  (∃ e t, vfdw_tls_attach refusing dotted (λ _, false) (tls_options "db" (Some "/c") (Some "/k")) no_tls = (Raise e, t) ∧
     tl_attached t = None ∧ tl_ctx t = None ∧ tl_ssl t = None).
Proof.
  split.
  - pose proof (tls_attach_configures_or_frees (λ _, (true, [])) dotted (λ _, false) (tls_options "10.0.0.1" None None) no_tls
      eq_refl eq_refl) as Ht.
    eexists. split; [vm_compute; reflexivity|]. vm_compute in Ht |- *. destruct Ht as (H1 & H2 & H3 & _). by split_and!.
  - pose proof (tls_attach_configures_or_frees refusing dotted (λ _, false) (tls_options "db" (Some "/c") (Some "/k")) no_tls
      eq_refl eq_refl) as Ht.
    eexists _, _. split; [vm_compute; reflexivity|]. vm_compute in Ht |- *. exact Ht.
Defined.

(** The callback runs once for every certificate looked at. *)
Definition handshake (answers : list (bool * X509Result)) (t : Tls) : Tls :=
  fold_left (λ t a, (vfdw_tls_verify_cb a.1 a.2 t).2) answers t.

(** The reason reported is the first rejection of the handshake, none when there was
    none, and it is reported once. *)
Theorem reason_is_the_first_rejection answers t :
  vfdw_tls_verify_error t = X509_V_OK → Forall (λ a, a.1 = false → a.2 ≠ X509_V_OK) answers →
  let '(reason, _, t') := vfdw_tls_verify_reason (handshake answers t) in
  reason = snd <$> find (λ a, negb a.1) answers ∧ (vfdw_tls_verify_reason t').1.1 = None.
Proof.
  intros Ht Ha. assert (E : vfdw_tls_verify_error (handshake answers t)
    = default X509_V_OK (snd <$> find (λ a : bool * X509Result, negb a.1) answers)).
  { unfold handshake. revert t Ht. induction answers as [|[ok err] answers IH]; intros t Ht; [done|].
    apply Forall_cons_iff in Ha as [Hok Ha]. cbn [fold_left find fst snd]. destruct ok; cbn [negb andb vfdw_tls_verify_cb snd].
    - by apply IH.
    - rewrite bool_decide_true by done. cbn [fmap option_fmap option_map default id snd]. specialize (Hok eq_refl).
      cbn [snd] in Hok. clear -Hok. set (s := set_verify_error err t). assert (Es : vfdw_tls_verify_error s = err) by done. clearbody s.
      revert s Es. induction answers as [|[ok err'] answers IH]; intros s Es; [done|]. cbn [fold_left]. apply IH.
      unfold vfdw_tls_verify_cb. cbn [snd]. rewrite Es, bool_decide_false by done. by rewrite andb_false_r. }
  unfold vfdw_tls_verify_reason. rewrite E. split; [|done].
  destruct (find _ answers) as [[ok err]|] eqn:Ef; cbn; [|done].
  apply find_some in Ef as [Hin Hok]. rewrite Forall_forall in Ha. specialize (Ha _ Hin). cbn in *.
  rewrite bool_decide_false; [done|]. apply Ha. by destruct ok.
Qed.
