(* ===== verification/Writable.v ===== *)
(** Which writes a table accepts and how the others are refused
    (src/vfdw_writable.c, src/vfdw_refuse.c).

    The mask is decided from the catalog alone, without building the map; a
    column's options are those of its attribute, a dropped one's included.
    Details and hints of a refusal are kept as the reason it has. *)
From S2P Require Import Prelude Opcode Option TableMap.
Local Open Scope Z_scope.

Inductive CmdType := CMD_UPDATE | CMD_INSERT | CMD_DELETE.

#[global] Instance CmdType_eq_dec : EqDecision CmdType.
Proof. solve_decision. Defined.

(** nodes.h. *)
Definition cmd_code (c : CmdType) : Z :=
  match c with CMD_UPDATE => 2 | CMD_INSERT => 3 | CMD_DELETE => 4 end.

Record VfdwWritability := Writability {
  w_tabletype : bytes;
  w_readonly : bool;
  w_legacy : bool;
  w_search_index : bool;
  w_keyopts : Z;
}.

Section writable.
Context (parse_bool : bytes → option bool).

Definition says_true (value : bytes) : bool := match parse_bool value with Some b => b | None => false end.

Definition read_writability_option (w : VfdwWritability) (elem : DefElem) : VfdwWritability :=
  let '(name, value) := elem in
  if bool_decide (name = "tabletype")
  then Writability value (w_readonly w) (w_legacy w) (w_search_index w) (w_keyopts w)
  else if bool_decide (name = "search_index")
  then Writability (w_tabletype w) (w_readonly w) (w_legacy w) true (w_keyopts w)
  else if bool_decide (name = "readonly")
  then Writability (w_tabletype w) (w_readonly w || says_true value) (w_legacy w) (w_search_index w) (w_keyopts w)
  else if bool_decide (name = "legacy_value")
  then Writability (w_tabletype w) (w_readonly w) (w_legacy w || says_true value) (w_search_index w) (w_keyopts w)
  else if bool_decide (name = "singleton_key") || bool_decide (name = "keyprefix") || bool_decide (name = "keyset")
  then Writability (w_tabletype w) (w_readonly w) (w_legacy w) (w_search_index w) (w_keyopts w + 1)
  else w.

Definition vfdw_map_read_writability (options : list DefElem) : VfdwWritability :=
  fold_left read_writability_option options (Writability "string" false false false 0).

Definition is_distance_option (elem : DefElem) : bool :=
  bool_decide (elem.1 = "distance") && says_true elem.2.

(** The attributes of the relation, in order of their numbers. *)
Definition vfdw_map_has_distance_column (tupdesc : list Form_pg_attribute) : bool :=
  existsb (λ a, existsb is_distance_option (attfdwoptions a)) tupdesc.

Inductive WriteBlock :=
  | BlockReadonly | BlockPackedZset | BlockVector | BlockSearchIndex | BlockKeyOptions | BlockDistance
  | BlockListUpdate.

#[global] Instance WriteBlock_eq_dec : EqDecision WriteBlock.
Proof. solve_decision. Defined.

Definition vfdw_map_write_block (tupdesc : list Form_pg_attribute) (w : VfdwWritability) : option WriteBlock :=
  if w_readonly w then Some BlockReadonly
  else if w_legacy w && bool_decide (w_tabletype w = "zset") then Some BlockPackedZset
  else if bool_decide (w_tabletype w = "vector") then Some BlockVector
  else if w_search_index w then Some BlockSearchIndex
  else if bool_decide (1 < w_keyopts w) then Some BlockKeyOptions
  else if vfdw_map_has_distance_column tupdesc then Some BlockDistance
  else None.

Definition mask_of (cmds : list CmdType) : Z :=
  fold_left (λ m c, Z.lor m (Z.shiftl 1 (cmd_code c))) cmds 0.

Definition vfdw_map_writability (tupdesc : list Form_pg_attribute) (options : list DefElem)
    : Z * option WriteBlock :=
  let w := vfdw_map_read_writability options in
  match vfdw_map_write_block tupdesc w with
  | Some why => (0, Some why)
  | None =>
      if bool_decide (w_tabletype w = "list") && negb (w_legacy w)
      then (mask_of [CMD_INSERT; CMD_DELETE], Some BlockListUpdate)
      else (mask_of [CMD_INSERT; CMD_UPDATE; CMD_DELETE], None)
  end.

Definition vfdw_map_writability_for_relid (tupdesc : list Form_pg_attribute) (options : list DefElem) : Z :=
  (vfdw_map_writability tupdesc options).1.

(* ---------------------------------------------------------------- *)
(** ** Refusals (src/vfdw_refuse.c) *)

Definition verb (operation : CmdType) : string :=
  match operation with CMD_INSERT => "insert into" | CMD_DELETE => "delete from" | CMD_UPDATE => "update" end.

Definition vfdw_refuse_unwritable (tupdesc : list Form_pg_attribute) (options : list DefElem)
    (map : VfdwTableMap) (operation : CmdType) : result unit :=
  if to_readonly (map_options map)
  then Raise (PgError ERRCODE_READ_ONLY_SQL_TRANSACTION "foreign table is declared read-only")
  else
    let '(mask, _) := vfdw_map_writability tupdesc options in
    if bool_decide (Z.land mask (Z.shiftl 1 (cmd_code operation)) = 0)
    then Raise (PgError ERRCODE_FEATURE_NOT_SUPPORTED
                  ("cannot " +:+ verb operation +:+ " a Valkey "
                   +:+ quoted (vfdw_tabletype_name (tabletype_code (map_tabletype map))) +:+ " table"))
    else Ok ().

Definition vfdw_refuse_on_conflict (onconflict : bool) : result unit :=
  if negb onconflict then Ok ()
  else Raise (PgError ERRCODE_FEATURE_NOT_SUPPORTED
                "INSERT ... ON CONFLICT is not supported on Valkey foreign tables").

Definition vfdw_refuse_no_write_program : pg_error :=
  PgError ERRCODE_FEATURE_NOT_SUPPORTED
    "cannot write through a Valkey server that will not load the write program".

Definition vfdw_refuse_prefer_replica : pg_error :=
  PgError ERRCODE_READ_ONLY_SQL_TRANSACTION
    "cannot write through a Valkey server declared prefer_replica".

Definition vfdw_refuse_no_modify_state : pg_error :=
  elog_error "valkey_fdw: a modify callback was reached with no state".
End writable.
