(* ===== verification/Modify.v ===== *)
(** The modify callbacks (src/vfdw_modify.c, vfdw_render.c, vfdw_rowid.c,
    vfdw_copy.c): planning a write, rendering a row into an operation, the row
    identity of an UPDATE or DELETE, and the insert, update, delete and batch
    callbacks over the write buffer.

    A slot is one datum or NULL per attribute; copying it into the buffer
    (ExecCopySlotHeapTuple), the arrays of a packed column and attgenerated are
    parameters.  [wbytes] and [rbytes] are what the allocator charges for the
    record and for the rendered row. *)
From S2P Require Import Prelude Slot Opcode Option OptionFacts Error Cmd WriteOp Ledger Wbuf WritePath.
From S2P Require Import Connection ConnPool TableMap Ttl ScanCmd Score Val Writable.
Local Open Scope Z_scope.

Class PgArrays `{PgTypes} := {
  ARR_NDIM : Datum → Z;
  (* deconstruct_array, None for a null element *)
  arr_elements : Datum → list (option Datum);
}.

(* ---------------------------------------------------------------- *)
(** ** Row identity (src/vfdw_rowid.c) *)

Record VfdwRowId := RowId { rid_want_key : bool; rid_keyattno : Z; rid_want_member : bool; rid_memberattno : Z }.

Definition is_collection (t : VfdwTableType) : bool :=
  match t with VFDW_TABLE_LIST | VFDW_TABLE_SET | VFDW_TABLE_ZSET => true | _ => false end.

Definition vfdw_rowid_shape (map : VfdwTableMap) : result VfdwRowId :=
  let singleton := bool_decide (is_Some (map_singleton_key map)) in
  let want_key := negb singleton in
  let want_member := if map_legacy_value map then false else is_collection (map_tabletype map) in
  if want_key && bool_decide (map_keyattno map = InvalidAttrNumber)
  then Raise (elog_error "valkey_fdw: table has no key column to identify rows by")
  else if want_member && bool_decide (map_memberattno map = InvalidAttrNumber)
  then Raise (elog_error "valkey_fdw: table has no member column to identify rows by")
  else Ok (RowId want_key (map_keyattno map) want_member (map_memberattno map)).

Definition vfdw_rowid_junk_name (role : bytes) (attno : Z) : bytes := "vfdw_" +:+ role +:+ "_a" +:+ dec attno.

(** The junk columns an UPDATE or DELETE adds to its target list. *)
Definition vfdw_rowid_add_update_targets (parse_bool : bytes → option bool) (tupdesc : list Form_pg_attribute)
    (options : list DefElem) (map : VfdwTableMap) (operation : CmdType) : result (list bytes) :=
  _ ← vfdw_refuse_unwritable parse_bool tupdesc options map operation;
  rowid ← vfdw_rowid_shape map;
  Ok ((if rid_want_key rowid then [vfdw_rowid_junk_name "key" (rid_keyattno rowid)] else [])
      ++ (if rid_want_member rowid then [vfdw_rowid_junk_name "member" (rid_memberattno rowid)] else [])
      ++ (if bool_decide (operation = CMD_DELETE) then ["wholerow"] else [])).

(** A target list is the names of its entries; a junk column is found by name. *)
Fixpoint find_junk (tlist : list (option bytes)) (resno : Z) (name : bytes) : Z :=
  match tlist with
  | [] => InvalidAttrNumber
  | e :: rest => if bool_decide (e = Some name) then resno else find_junk rest (resno + 1) name
  end.

Definition ExecFindJunkAttributeInTlist (tlist : list (option bytes)) (name : bytes) : Z := find_junk tlist 1 name.

Definition vfdw_rowid_find_wholerow (tlist : list (option bytes)) : Z := ExecFindJunkAttributeInTlist tlist "wholerow".

Definition vfdw_rowid_find (tlist : list (option bytes)) (name : bytes) : result Z :=
  if bool_decide (name = "") then Ok InvalidAttrNumber
  else
    let attno := ExecFindJunkAttributeInTlist tlist name in
    if bool_decide (attno = InvalidAttrNumber) then Raise (elog_error "could not find junk column") else Ok attno.

Definition vfdw_rowid_resolve (tlist : list (option bytes)) (junk_names : bytes * bytes) : result (Z * Z) :=
  key ← vfdw_rowid_find tlist junk_names.1;
  member ← vfdw_rowid_find tlist junk_names.2;
  Ok (key, member).

(* ---------------------------------------------------------------- *)
(** ** PlanForeignModify *)

Definition vfdw_modify_junk_names (map : VfdwTableMap) (operation : CmdType) : result (bytes * bytes) :=
  if bool_decide (operation = CMD_INSERT) then Ok ("", "")
  else
    rowid ← vfdw_rowid_shape map;
    Ok (if rid_want_key rowid then vfdw_rowid_junk_name "key" (rid_keyattno rowid) else "",
        if rid_want_member rowid then vfdw_rowid_junk_name "member" (rid_memberattno rowid) else "").

(** [updated] are the assigned attributes of an UPDATE; a whole-row reference is
    not positive. *)
Definition vfdw_modify_target_attrs (attgenerated : Z → bool) (updated : list Z)
    (tupdesc : list Form_pg_attribute) (operation : CmdType) : list Z :=
  if bool_decide (operation = CMD_UPDATE) then filter (λ a, 0 < a) updated
  else
    omap (λ p : nat * Form_pg_attribute,
      let attno := Z.of_nat p.1 + 1 in
      if attisdropped p.2 || attgenerated attno then None else Some attno) (imap pair tupdesc).

Record ModifyPrivate := MkModifyPrivate {
  mp_junk_names : bytes * bytes;
  mp_target_attrs : list Z;
  mp_tabletype : VfdwTableType;
  mp_keysource : bytes;
}.

Definition vfdw_modify_plan (parse_bool : bytes → option bool) (attgenerated : Z → bool) (updated : list Z)
    (tupdesc : list Form_pg_attribute) (options : list DefElem) (map : VfdwTableMap)
    (operation : CmdType) (onconflict : bool) : result ModifyPrivate :=
  _ ← vfdw_refuse_unwritable parse_bool tupdesc options map operation;
  _ ← vfdw_refuse_on_conflict onconflict;
  junk ← vfdw_modify_junk_names map operation;
  Ok (MkModifyPrivate junk (vfdw_modify_target_attrs attgenerated updated tupdesc operation) (map_tabletype map)
        (match map_singleton_key map with Some _ => "singleton_key" | None => "key column" end)).

(** What EXPLAIN says of a write; no plan for one that was not planned. *)
Definition vfdw_modify_explain (fdw_private : option ModifyPrivate) (verbose : bool) : list (bytes * bytes) :=
  match fdw_private with
  | None => []
  | Some priv =>
      [("Valkey Write", "deferred, one atomic unit, flushed at commit");
       ("Valkey Table Type", vfdw_tabletype_name (tabletype_code (mp_tabletype priv)));
       ("Valkey Key Source", mp_keysource priv)]
      ++ (if negb verbose then [] else
            (let '(keyname, membername) := mp_junk_names priv in
             (if bool_decide (keyname = "") then [] else [("Valkey Row Identity", keyname)])
             ++ (if bool_decide (membername = "") then [] else [("Valkey Row Identity Member", membername)])))
  end.

(* ---------------------------------------------------------------- *)
(** ** The statement's state *)

Section modify.
Context `{PgTypes} `{!PgArrays}.
Abbreviation Slot := (list (option Datum)).
(** ExecCopySlotHeapTuple. *)
Context (copy_slot : list (option Datum) → HeapTuple).

Record VfdwModifyState := ModifyState {
  ms_map : VfdwTableMap;
  ms_operation : CmdType;
  ms_vc : VfdwValCtx;
  ms_junk_key : Z;
  ms_junk_member : Z;
  ms_junk_wholerow : Z;
  ms_target_attnos : list Z;
}.

(** None when only explaining. *)
Definition vfdw_modify_begin (parse_bool : bytes → option bool) (tupdesc : list Form_pg_attribute)
    (options : list DefElem) (map : VfdwTableMap) (operation : CmdType) (tlist : list (option bytes))
    (priv : ModifyPrivate) (explain_only : bool) : result (option VfdwModifyState) :=
  if explain_only then Ok None
  else
    _ ← vfdw_refuse_unwritable parse_bool tupdesc options map operation;
    '(key, member) ← vfdw_rowid_resolve tlist (mp_junk_names priv);
    Ok (Some (ModifyState map operation (vfdw_val_ctx_init map) key member (vfdw_rowid_find_wholerow tlist)
                (mp_target_attrs priv))).

(** COPY and tuple routing: no plan, every live attribute assigned. *)
Definition vfdw_modify_begin_insert (parse_bool : bytes → option bool) (tupdesc : list Form_pg_attribute)
    (options : list DefElem) (map : VfdwTableMap) : result VfdwModifyState :=
  _ ← vfdw_refuse_unwritable parse_bool tupdesc options map CMD_INSERT;
  Ok (ModifyState map CMD_INSERT (vfdw_val_ctx_init map) InvalidAttrNumber InvalidAttrNumber InvalidAttrNumber
        (filter (λ a, a ≠ InvalidAttrNumber) (col_attnum <$> map_cols map))).

(** The state ends with the statement; the buffer does not. *)
Definition vfdw_modify_end (st : option VfdwModifyState) : option VfdwModifyState :=
  match st with None => None | Some _ => None end.
Definition vfdw_modify_end_insert (st : option VfdwModifyState) : option VfdwModifyState :=
  match st with None => None | Some _ => None end.

Definition slot_getattr (slot : Slot) (attnum : Z) : option Datum := default None (slot !! Z.to_nat (attnum - 1)).

Definition column_at (map : VfdwTableMap) (attnum : Z) : VfdwColumn :=
  default zero_column (map_cols map !! Z.to_nat (attnum - 1)).

(* ---------------------------------------------------------------- *)
(** ** Rendering (src/vfdw_render.c and the row part of src/vfdw_modify.c) *)

Definition vfdw_modify_render_key (st : VfdwModifyState) (slot : Slot) : result bytes :=
  let map := ms_map st in
  let '(col, d) := if bool_decide (map_keyattno map = InvalidAttrNumber) then (None, None)
                   else (Some (column_at map (map_keyattno map)), slot_getattr slot (map_keyattno map)) in
  v ← vfdw_val_build_key (ms_vc st) map col d;
  Ok (default "" v).

Definition render_role (st : VfdwModifyState) (slot : Slot) (attno : Z) : result (option bytes) :=
  if bool_decide (attno = InvalidAttrNumber) then Ok None
  else
    v ← vfdw_val_from_slot (ms_vc st) (ms_map st) (column_at (ms_map st) attno) (slot_getattr slot attno);
    Ok (Some (default "" v)).

Definition vfdw_modify_render_score (st : VfdwModifyState) (slot : Slot) : result (option bytes) :=
  render_role st slot (map_scoreattno (ms_map st)).
Definition vfdw_modify_render_member (st : VfdwModifyState) (slot : Slot) : result (option bytes) :=
  render_role st slot (map_memberattno (ms_map st)).

(** The argument of one field or ttl column. *)
Definition render_arg (st : VfdwModifyState) (slot : Slot) (col : VfdwColumn) : result VfdwWriteArg :=
  v ← vfdw_val_from_slot (ms_vc st) (ms_map st) col (slot_getattr slot (col_attnum col));
  Ok (WriteArg (default "" (col_field col)) (bool_decide (v = None)) (default "" v)).

(** The columns of one kind, in order. *)
Fixpoint render_args (st : VfdwModifyState) (slot : Slot) (kind : VfdwColKind) (cols : list VfdwColumn)
    : result (list VfdwWriteArg) :=
  match cols with
  | [] => Ok []
  | col :: rest =>
      if negb (bool_decide (col_kind col = kind)) then render_args st slot kind rest
      else
        a ← render_arg st slot col;
        args ← render_args st slot kind rest;
        Ok (a :: args)
  end.

Definition vfdw_modify_render_fields (st : VfdwModifyState) (kind : VfdwOpKind) (slot : Slot)
    : result (list VfdwWriteArg) :=
  let map := ms_map st in
  if bool_decide (map_nfields map = 0%nat) then Ok []
  else
    args ← render_args st slot VFDW_COL_FIELD (map_cols map);
    if forallb wa_isnull args && bool_decide (kind = VFDW_OP_INSERT) then Raise vfdw_val_error_all_fields_null
    else Ok args.

Definition vfdw_modify_render_ttls (st : VfdwModifyState) (slot : Slot) : result (list VfdwWriteArg) :=
  let map := ms_map st in
  if bool_decide (map_nttl map = 0%nat) then Ok [] else render_args st slot VFDW_COL_TTL (map_cols map).

Fixpoint check_position_loop (st : VfdwModifyState) (slot : Slot) (cols : list VfdwColumn) : result unit :=
  match cols with
  | [] => Ok ()
  | col :: rest =>
      if negb (bool_decide (col_kind col = VFDW_COL_POSITION)) then check_position_loop st slot rest
      else
        _ ← vfdw_val_from_slot (ms_vc st) (ms_map st) col (slot_getattr slot (col_attnum col));
        check_position_loop st slot rest
  end.

Definition vfdw_modify_check_position (st : VfdwModifyState) (slot : Slot) : result unit :=
  check_position_loop st slot (map_cols (ms_map st)).

Definition vfdw_modify_packed_column (map : VfdwTableMap) : option VfdwColumn :=
  find (λ c, bool_decide (col_kind c = VFDW_COL_LEGACY_VALUE)) (map_cols map).

Definition vfdw_modify_pack_element (st : VfdwModifyState) (e : VfdwPackedElem) (elem : option Datum) : result bytes :=
  match elem with
  | None => Raise (PgError ERRCODE_NULL_VALUE_NOT_ALLOWED "a packed value may not contain NULL elements")
  | Some d => v ← vfdw_val_render (ms_vc st) (pk_col e) (Some d); Ok (default "" v)
  end.

Definition vfdw_modify_check_pairs (map : VfdwTableMap) (n : nat) : result unit :=
  if negb (bool_decide (map_tabletype map = VFDW_TABLE_HASH)) || Nat.even n then Ok ()
  else Raise (PgError ERRCODE_INVALID_PARAMETER_VALUE "a packed hash needs an even number of elements").

Fixpoint pack_elements (st : VfdwModifyState) (e : VfdwPackedElem) (elems : list (option Datum)) : result (list bytes) :=
  match elems with
  | [] => Ok []
  | x :: rest =>
      b ← vfdw_modify_pack_element st e x;
      bs ← pack_elements st e rest;
      Ok (b :: bs)
  end.

(** What a row says besides its identity. *)
Record Payload := MkPayload {
  py_value : option bytes;
  py_fields : list VfdwWriteArg;
  py_ttls : list VfdwWriteArg;
  py_packed : list bytes;
}.

(** has_value with no value behind it is the value of length zero. *)
Definition vfdw_modify_render_packed (st : VfdwModifyState) (slot : Slot) : result Payload :=
  let map := ms_map st in
  match vfdw_modify_packed_column map with
  | None => Ok (MkPayload None [] [] [])
  | Some col =>
      match slot_getattr slot (col_attnum col), col_packed col with
      | None, _ => Ok (MkPayload (Some "") [] [] [])
      | Some d, Some e =>
          if bool_decide (1 < ARR_NDIM d)
          then Raise (PgError ERRCODE_INVALID_PARAMETER_VALUE "a packed value must be a one-dimensional array")
          else
            args ← pack_elements st e (arr_elements d);
            _ ← vfdw_modify_check_pairs map (length (arr_elements d));
            Ok (MkPayload (Some "") [] [] args)
      | Some _, None => Raise (elog_error "packed column without an element type")
      end
  end.

Definition vfdw_modify_render_payload (st : VfdwModifyState) (kind : VfdwOpKind) (slot : Slot) : result Payload :=
  let map := ms_map st in
  if map_legacy_value map then vfdw_modify_render_packed st slot
  else if bool_decide (map_tabletype map = VFDW_TABLE_HASH) then
    fields ← vfdw_modify_render_fields st kind slot;
    ttls ← vfdw_modify_render_ttls st slot;
    Ok (MkPayload None fields ttls [])
  else
    _ ← vfdw_modify_check_position st slot;
    v ← render_role st slot (map_valueattno map);
    Ok (MkPayload v [] [] []).

(** The operation with its identity and payload; hashslot, level and command id
    are filled by the row step. *)
Definition vfdw_modify_op_begin (st : VfdwModifyState) (kind : VfdwOpKind) (key : bytes)
    (oldkey member oldmember score : option bytes) (py : Payload) (tup : option HeapTuple) : VfdwWriteOp :=
  let map := ms_map st in
  WriteOp None None kind (map_relid map) (map_tabletype map) 0 0 0 key oldkey member oldmember (py_value py) score
    (py_fields py) (py_ttls py) (py_packed py) (map_legacy_value map) tup (ms_target_attnos st) (map_keyset map).

(* ---------------------------------------------------------------- *)
(** ** ExecForeignInsert, Update, Delete *)

Definition render_insert (st : VfdwModifyState) (slot : Slot) : result VfdwWriteOp :=
  key ← vfdw_modify_render_key st slot;
  score ← vfdw_modify_render_score st slot;
  member ← vfdw_modify_render_member st slot;
  py ← vfdw_modify_render_payload st VFDW_OP_INSERT slot;
  Ok (vfdw_modify_op_begin st VFDW_OP_INSERT key None member None score py (Some (copy_slot slot))).

Definition vfdw_modify_insert (st : option VfdwModifyState) (slot : Slot) (wbytes rbytes nest cid : Z) : M Wbuf unit :=
  match st with
  | None => raise vfdw_refuse_no_modify_state
  | Some st => vfdw_modify_row (render_insert st slot) wbytes rbytes nest cid
  end.

Definition vfdw_rowid_read (planSlot : Slot) (junkattno : Z) : result Datum :=
  match slot_getattr planSlot junkattno with
  | None => Raise (elog_error "valkey_fdw: row identity column is null")
  | Some d => Ok d
  end.

(** The bytes of an identity column. *)
Definition render_junk (st : VfdwModifyState) (planSlot : Slot) (junkattno attno : Z) : result bytes :=
  d ← vfdw_rowid_read planSlot junkattno;
  v ← vfdw_val_render (ms_vc st) (column_at (ms_map st) attno) (Some d);
  Ok (default "" v).

(** The old key and the old member; [key] is the new key. *)
Definition vfdw_modify_read_old (st : VfdwModifyState) (planSlot : Slot) (key : bytes)
    : result (bytes * option bytes) :=
  oldkey ← (if bool_decide (ms_junk_key st = InvalidAttrNumber) then Ok key
            else render_junk st planSlot (ms_junk_key st) (map_keyattno (ms_map st)));
  if bool_decide (ms_junk_member st = InvalidAttrNumber) then Ok (oldkey, None)
  else
    m ← render_junk st planSlot (ms_junk_member st) (map_memberattno (ms_map st));
    Ok (oldkey, Some m).

Definition render_update (st : VfdwModifyState) (slot planSlot : Slot) : result VfdwWriteOp :=
  key ← vfdw_modify_render_key st slot;
  score ← vfdw_modify_render_score st slot;
  member ← vfdw_modify_render_member st slot;
  py ← vfdw_modify_render_payload st VFDW_OP_UPDATE slot;
  '(oldkey, oldmember) ← vfdw_modify_read_old st planSlot key;
  Ok (vfdw_modify_op_begin st VFDW_OP_UPDATE key (Some oldkey) member oldmember score py (Some (copy_slot slot))).

Definition vfdw_modify_update (st : option VfdwModifyState) (slot planSlot : Slot) (wbytes rbytes nest cid : Z)
    : M Wbuf unit :=
  match st with
  | None => raise vfdw_refuse_no_modify_state
  | Some st =>
      if bool_decide (map_tabletype (ms_map st) = VFDW_TABLE_LIST) && negb (map_legacy_value (ms_map st))
      then raise (elog_error "valkey_fdw: UPDATE reached the list write path")
      else vfdw_modify_row (render_update st slot planSlot) wbytes rbytes nest cid
  end.

Definition render_delete (st : VfdwModifyState) (planSlot : Slot) : result VfdwWriteOp :=
  let map := ms_map st in
  key ← (if bool_decide (ms_junk_key st = InvalidAttrNumber)
         then v ← vfdw_val_build_key (ms_vc st) map None None; Ok (default "" v)
         else render_junk st planSlot (ms_junk_key st) (map_keyattno map));
  member ← (if bool_decide (ms_junk_member st = InvalidAttrNumber) then Ok None
            else m ← render_junk st planSlot (ms_junk_member st) (map_memberattno map); Ok (Some m));
  Ok (vfdw_modify_op_begin st VFDW_OP_DELETE key None member None None (MkPayload None [] [] []) None).

(** The deleted row as RETURNING sees it: [whole] is the wholerow datum. *)
Definition vfdw_modify_fill_deleted (st : VfdwModifyState) (slot : Slot) (whole : option Slot) : Slot :=
  if bool_decide (ms_junk_wholerow st = InvalidAttrNumber) then slot
  else match whole with
       | None => slot
       | Some old => take (length slot) (old ++ replicate (length slot) None)
       end.

Definition vfdw_modify_delete (st : option VfdwModifyState) (slot planSlot : Slot) (whole : option Slot)
    (wbytes rbytes nest cid : Z) : M Wbuf Slot :=
  match st with
  | None => raise vfdw_refuse_no_modify_state
  | Some st =>
      vfdw_modify_row (render_delete st planSlot) wbytes rbytes nest cid;;;
      mret (vfdw_modify_fill_deleted st slot whole)
  end.

Definition vfdw_modify_batch_size (returning trig_after_row trig_before_row : bool) : Z :=
  if returning || trig_after_row || trig_before_row then 1 else 100.

(** Each row with what the allocator charges for it. *)
Definition vfdw_modify_batch_insert (st : option VfdwModifyState) (slots : list (Slot * (Z * Z))) (nest cid : Z)
    : M Wbuf unit :=
  miter (λ s : Slot * (Z * Z), vfdw_modify_insert st s.1 s.2.1 s.2.2 nest cid) slots.
End modify.

(* ---------------------------------------------------------------- *)
(** ** The connection a statement tries (vfdw_modify_connect) *)

Section connect.
Context {P : Type} (serve : list bytes → P → Reply * P).

(** The buffer and the connection cache. *)
Record ModifyWorld := MkModifyWorld { mw_wbuf : Wbuf; mw_pool : Pool (P := P) }.

Definition on_mw_pool {A} (m : M (Pool (P := P)) A) : M ModifyWorld A := λ w,
  let '(r, p) := m (mw_pool w) in (r, MkModifyWorld (mw_wbuf w) p).
Definition on_mw_wbuf {A} (m : M Wbuf A) : M ModifyWorld A := λ w,
  let '(r, b) := m (mw_wbuf w) in (r, MkModifyWorld b (mw_pool w)).

(** [acquire] is vfdw_get_connection_cluster for the table's server and the
    current user; [serverid], [umid] and [userid] are theirs. *)
Definition vfdw_modify_connect (acquire : M (Pool (P := P)) VfdwConnKey) (keeper serverid umid userid nest : Z)
    (map : VfdwTableMap) : M ModifyWorld unit :=
  k ← on_mw_pool acquire;
  c ← gets (λ w, entries (mw_pool w) !! k);
  match c with
  | None => raise (elog_error "dangling connection")
  | Some c =>
      let opts := vc_opts c in
      when (so_prefer_replica opts) (raise vfdw_refuse_prefer_replica);;;
      (match vfdw_conn_write_refusal c with
       | Some _ => raise vfdw_refuse_no_write_program
       | None => mret ()
       end);;;
      when (bool_decide (0 < map_nttl map)%nat) (on_mw_pool (on_entry k (vfdw_ttl_require serve) ()));;;
      on_mw_wbuf (vfdw_wbuf_bind keeper serverid umid userid (to_database (map_options map))
                    (so_write_max_ops opts) (so_write_max_bytes opts) nest);;;
      on_mw_pool (vfdw_release_connection (Some k))
  end.
End connect.
