(* ===== verification/ModifyFacts.v ===== *)
(** A row that is inserted is the row that is read (src/vfdw_render.c against
    src/vfdw_row.c). *)
From S2P Require Import Prelude Slot Opcode Option OptionFacts Error Cmd CmdFacts WriteOp Ledger Wbuf WritePath.
From S2P Require Import TableMap TableMapFacts Ttl Vec Row ScanCmd RowFacts Score Val ValFacts Writable Modify.
Local Open Scope Z_scope.

(* ---------------------------------------------------------------- *)
(** ** The row of a hash *)

(** The hash a command that sets the fields leaves on a key that was absent. *)
Definition hash_of (args : list VfdwWriteArg) (f : bytes) : option bytes :=
  match find (λ a, bool_decide (wa_name a = f)) args with
  | Some a => if wa_isnull a then None else Some (wa_data a)
  | None => None
  end.

Lemma hash_of_elem args a :
  NoDup (wa_name <$> args) → a ∈ args → hash_of args (wa_name a) = if wa_isnull a then None else Some (wa_data a).
Proof.
  unfold hash_of. induction args as [|x args IH]; intros Hn Ha; [by apply not_elem_of_nil in Ha|].
  rewrite fmap_cons in Hn. apply list.NoDup_cons in Hn as [Hx Hn]. cbn [find].
  apply elem_of_cons in Ha as [->|Ha].
  - by rewrite bool_decide_true.
  - rewrite bool_decide_false; [by apply IH|]. intros E. apply Hx. rewrite E. by apply list_elem_of_fmap_2.
Qed.

Lemma plain_kinds k :
  k ∈ [VFDW_COL_KEY; VFDW_COL_FIELD; VFDW_COL_DROPPED] →
  k = VFDW_COL_KEY ∨ k = VFDW_COL_FIELD ∨ k = VFDW_COL_DROPPED.
Proof. rewrite !elem_of_cons. intros [?|[?|[?|H%not_elem_of_nil]]]; [by left|by right; left|by right; right|done]. Qed.

Lemma mapM_pointwise {A B} (f : A → result B) (l : list A) (r : list B) :
  length r = length l → (∀ i a b, l !! i = Some a → r !! i = Some b → f a = Ok b) → mapM f l = Ok r.
Proof.
  revert r. induction l as [|a l IH]; intros [|b r] Hl Hf; try done. cbn [mapM].
  rewrite (Hf 0%nat a b) by done. cbn [mbind result_bind]. rewrite (IH r); [done|by injection Hl|].
  intros i. apply (Hf (S i)).
Qed.

Section facts.
Context `{TypeCatalog} `{PgTypes} `{!PgArrays} `{Float4IO}.
Context (copy_slot : list (option Datum) → HeapTuple).

Lemma render_args_elem st slot kind cols args c :
  render_args st slot kind cols = Ok args → c ∈ cols → col_kind c = kind →
  ∃ w, vfdw_val_from_slot (ms_vc st) (ms_map st) c (slot_getattr slot (col_attnum c)) = Ok w ∧
    WriteArg (default "" (col_field c)) (bool_decide (w = None)) (default "" w) ∈ args.
Proof.
  revert args. induction cols as [|x cols IH]; intros args E Hc Hk; [by apply not_elem_of_nil in Hc|].
  cbn [render_args] in E. apply elem_of_cons in Hc as [->|Hc].
  - rewrite bool_decide_true in E by done. cbn [negb] in E. unfold render_arg in E.
    destruct (vfdw_val_from_slot _ _ x _) as [w|]; [|done]. simpl in E.
    destruct (render_args st slot kind cols); [|done]. injection E as <-. exists w. split; [done|].
    apply elem_of_cons. by left.
  - destruct (negb _); [by apply IH|]. destruct (render_arg st slot x); [|done]. simpl in E.
    destruct (render_args st slot kind cols) as [as'|]; [|done]. injection E as <-.
    destruct (IH as' eq_refl Hc Hk) as (w & Hw & Ha). exists w. split; [done|]. apply elem_of_cons. by right.
Qed.

Lemma render_fields_names st slot cols args :
  (∀ c, c ∈ cols → col_kind c ≠ VFDW_COL_TTL) → render_args st slot VFDW_COL_FIELD cols = Ok args →
  wa_name <$> args = default "" <$> asked_fields cols.
Proof.
  revert args. induction cols as [|x cols IH]; intros args Ht E; [by injection E as <-|].
  assert (Hx : col_kind x ≠ VFDW_COL_TTL) by (apply Ht, elem_of_cons; by left).
  assert (Ht' : ∀ c, c ∈ cols → col_kind c ≠ VFDW_COL_TTL) by (intros c Hc; apply Ht, elem_of_cons; by right).
  cbn [render_args] in E. rewrite asked_fields_cons. rewrite (bool_decide_false _ Hx), orb_false_r.
  destruct (bool_decide (col_kind x = VFDW_COL_FIELD)); cbn [negb] in E; [|by apply IH].
  unfold render_arg in E. destruct (vfdw_val_from_slot _ _ x _); [|done]. simpl in E.
  destruct (render_args st slot VFDW_COL_FIELD cols) as [as'|]; [|done]. injection E as <-.
  rewrite !fmap_cons. f_equal. by apply IH.
Qed.

(** What an accepted INSERT into a hash table rendered. *)
Lemma render_insert_hash st slot op :
  map_legacy_value (ms_map st) = false → map_tabletype (ms_map st) = VFDW_TABLE_HASH →
  (0 < map_nfields (ms_map st))%nat → render_insert copy_slot st slot = Ok op →
  vfdw_modify_render_key st slot = Ok (op_key op) ∧
  render_args st slot VFDW_COL_FIELD (map_cols (ms_map st)) = Ok (op_fields op).
Proof.
  intros Hl Ht Hn. unfold render_insert.
  destruct (vfdw_modify_render_key st slot) as [key|]; [|done]. cbn [mbind result_bind].
  destruct (vfdw_modify_render_score st slot) as [score|]; [|done]. cbn [mbind result_bind].
  destruct (vfdw_modify_render_member st slot) as [member|]; [|done]. cbn [mbind result_bind].
  unfold vfdw_modify_render_payload. rewrite Hl, bool_decide_true by done.
  unfold vfdw_modify_render_fields. rewrite bool_decide_false by lia.
  destruct (render_args st slot VFDW_COL_FIELD (map_cols (ms_map st))) as [args|]; [|done]. cbn [mbind result_bind].
  destruct (forallb wa_isnull args && _); [done|]. cbn [mbind result_bind].
  destruct (vfdw_modify_render_ttls st slot); [|done]. cbn [mbind result_bind]. by intros [= <-].
Qed.

Lemma render_key_column tupdesc st slot key i c d :
  map_wf tupdesc (ms_map st) → map_cols (ms_map st) !! i = Some c → col_kind c = VFDW_COL_KEY →
  slot !! i = Some (Some d) → vfdw_modify_render_key st slot = Ok key →
  vfdw_val_from_slot (ms_vc st) (ms_map st) c (Some d) = Ok (Some key).
Proof.
  intros Hwf Hc Hk Hs E. unfold vfdw_modify_render_key in E.
  assert (Ha : map_keyattno (ms_map st) = Z.of_nat i + 1).
  { assert (Hi : (col_kind <$> map_cols (ms_map st)) !! i = Some VFDW_COL_KEY) by (by rewrite list_lookup_fmap, Hc; simpl; rewrite Hk).
    destruct (wf_key _ _ Hwf) as [[_ Hno]|(j & -> & _ & Hj)].
    - by apply list_elem_of_lookup_2 in Hi.
    - by rewrite (Hj i Hi). }
  rewrite Ha in E. rewrite bool_decide_false in E by (unfold InvalidAttrNumber; lia).
  unfold column_at, slot_getattr in E. replace (Z.to_nat (Z.of_nat i + 1 - 1)) with i in E by lia.
  rewrite Hc, Hs in E. simpl in E. unfold vfdw_val_from_slot. rewrite Hk.
  destruct (vfdw_val_build_key _ _ (Some c) (Some d)) as [v|] eqn:Ev; [|done]. simpl in E. injection E as <-.
  destruct (written_key_in_scope _ _ _ _ _ Ev) as (k & -> & _). done.
Qed.
End facts.

(** C27: a row inserted into a hash table of key and field columns and scanned
    afterwards is the same row: the key and the fields the insert callback
    renders, set on a key that was absent and fetched with the commands of the
    scan, fill the slot with exactly the values inserted, NULL fields and dropped
    columns included.  It is about the layout of the table that reads back: no ttl
    or packed column, no field an index stores as a vector
    (vector_field_of_hash_does_not_read_back), no two columns on one field, and
    values that survive their own type's output and input. *)
Theorem inserted_hash_row_reads_back `{TypeCatalog} `{PgTypes} `{!PgArrays} `{Float4IO}
    copy_slot tupdesc st slot op c0 :
  let m := ms_map st in
  map_wf tupdesc m → ms_vc st = vfdw_val_ctx_init m →
  map_tabletype m = VFDW_TABLE_HASH → map_hmget m = true → map_legacy_value m = false →
  (0 < map_nfields m)%nat → cmd_wf c0 →
  NoDup (default "" <$> asked_fields (map_cols m)) →
  (∀ c, c ∈ map_cols m → col_kind c ∈ [VFDW_COL_KEY; VFDW_COL_FIELD; VFDW_COL_DROPPED] ∧
     col_packed c = None ∧ (col_is_binary c = true ∨ col_index_type c ≠ VFDW_INDEX_VECTOR)) →
  length slot = length (map_cols m) →
  (∀ i c d, map_cols m !! i = Some c → slot !! i = Some d →
     (col_kind c = VFDW_COL_DROPPED → d = None) ∧ (col_kind c = VFDW_COL_KEY → is_Some d) ∧
     ∀ x, d = Some x → round_trips c x) →
  render_insert copy_slot st slot = Ok op →
  vfdw_scan_fill (vfdw_row_ctx_init m) (op_key op)
    (hash_server (λ k, if bool_decide (k = op_key op) then hash_of (op_fields op) else λ _, None) (λ _ _, -2)
       (cmd_args (vfdw_scan_value_command m c0 (op_key op)))) = Ok slot.
Proof.
  intros m Hwf Hvc Ht Hh Hl Hn Hc0 Hnd Hcols Hlen Hslot Hr.
  destruct (render_insert_hash copy_slot st slot op Hl Ht Hn Hr) as [Hkey Hargs].
  rewrite (fill_cells _ tupdesc) by done. cbn [rc_map].
  rewrite hmget_command_args by done. rewrite hash_server_hmget, bool_decide_true by done.
  assert (Hnames : wa_name <$> op_fields op = default "" <$> asked_fields (map_cols m)).
  { apply (render_fields_names st slot); [|done]. intros c Hc E. destruct (Hcols c Hc) as [Hk _].
    apply plain_kinds in Hk. rewrite E in Hk. by destruct Hk as [|[|]]. }
  apply mapM_pointwise; [done|]. intros i c d Hc Hd.
  assert (Hin : c ∈ map_cols m) by (by eapply list_elem_of_lookup_2).
  destruct (Hcols c Hin) as (Hk & Hp & Hv). destruct (Hslot i c d Hc Hd) as (Hdr & Hks & Hrt).
  apply plain_kinds in Hk. unfold column_cell.
  destruct (col_kind c) eqn:Ek; try (exfalso; by destruct Hk as [|[|]]); clear Hk.
  - by rewrite (Hdr eq_refl).
  - destruct (Hks eq_refl) as [x ->].
    eapply written_cell; try done; [rewrite Ek; by apply list_elem_of_lookup_2 with 0%nat|].
    rewrite <- Hvc. by eapply render_key_column.
  - destruct (wf_named _ _ Hwf c Hin) as [f Hf]; [by left|].
    rewrite (field_cell_hmget (vfdw_row_ctx_init m) tupdesc c _ f) by done.
    destruct (render_args_elem st slot _ _ _ c Hargs Hin Ek) as (w & Hw & Ha).
    apply hash_of_elem in Ha; [|by rewrite Hnames]. simpl in Ha. rewrite Hf in Ha. simpl in Ha. rewrite Ha.
    assert (Hat : slot_getattr slot (col_attnum c) = d).
    { destruct (lookup_lt_is_Some_2 tupdesc i) as [a Hai].
      { rewrite <- (wf_width _ _ Hwf). by eapply lookup_lt_Some. }
      pose proof (wf_source _ _ Hwf i a c Hai Hc) as Hs. destruct (attisdropped a).
      - destruct Hs. congruence.
      - destruct Hs as [-> _]. unfold slot_getattr. replace (Z.to_nat (Z.of_nat i + 1 - 1)) with i by lia.
        by rewrite Hd. }
    rewrite Hat, Hvc in Hw.
    assert (E : (if bool_decide (w = None) then None else Some (default "" w)) = w) by (by destruct w).
    rewrite E. eapply written_cell; try done; [rewrite Ek; by apply list_elem_of_lookup_2 with 4%nat|by rewrite Ek].
Qed.

#[local] Existing Instance sample_types.
#[local] Existing Instance sample_catalog.
#[local] Existing Instance sample_float4.
#[local] Instance sample_arrays : PgArrays := {|
  ARR_NDIM _ := 1;
  arr_elements d := match d with SArray l => l | _ => [] end;
|}.

(** A hash table with a dropped column between its two fields. *)
Definition people_tupdesc : list Form_pg_attribute :=
  [Attribute "key" TEXTOID (-1) false [];
   Attribute "name" TEXTOID (-1) false [("field", "name")];
   Attribute "gone" TEXTOID (-1) true [];
   Attribute "mail" TEXTOID (-1) false [("field", "mail")]].

Definition people_options : list DefElem := [("tabletype", "hash"); ("keyprefix", "u:")].

Definition people_map : VfdwTableMap :=
  match vfdw_map_build sample_parse_bool 4711 people_tupdesc people_options with
  | Ok m => m
  | Raise _ => TableMap 0 [] 0 0 0 0 default_table_options 0 0 false 0
  end.

Definition people_state : VfdwModifyState :=
  ModifyState people_map CMD_INSERT (vfdw_val_ctx_init people_map) 0 0 0 [1; 2; 4].
Definition people_slot : list (option Datum) := [Some (text_datum "u:1"); Some (text_datum "ada"); None; None].
Definition people_copy (_ : list (option Datum)) : HeapTuple := [Some "u:1"; Some "ada"; None; None].
Definition people_op : VfdwWriteOp :=
  vfdw_modify_op_begin people_state VFDW_OP_INSERT "u:1" None None None None
    (MkPayload None [WriteArg "name" false "ada"; WriteArg "mail" true ""] [] []) (Some (people_copy people_slot)).

Lemma people_map_wf : map_wf people_tupdesc people_map.
Proof. apply (map_build_wf sample_parse_bool 4711 _ people_options). reflexivity. Qed.

Lemma people_columns c :
  c ∈ map_cols people_map →
  col_kind c ∈ [VFDW_COL_KEY; VFDW_COL_FIELD; VFDW_COL_DROPPED] ∧
  col_packed c = None ∧ (col_is_binary c = true ∨ col_index_type c ≠ VFDW_INDEX_VECTOR).
Proof.
  intros Hc. set (P c := bool_decide (col_kind c ∈ [VFDW_COL_KEY; VFDW_COL_FIELD; VFDW_COL_DROPPED]) &&
    bool_decide (col_packed c = None ∧ col_index_type c = VFDW_INDEX_NONE)).
  assert (H : forallb P (map_cols people_map) = true) by reflexivity.
  rewrite forallb_forall in H. apply list_elem_of_In, H, andb_prop in Hc as [H1 H2].
  apply bool_decide_eq_true in H1. apply bool_decide_eq_true in H2 as [? E]. rewrite E.
  split; [done|]. split; [done|]. by right.
Qed.

Lemma people_values i c d :
  map_cols people_map !! i = Some c → people_slot !! i = Some d →
  (col_kind c = VFDW_COL_DROPPED → d = None) ∧ (col_kind c = VFDW_COL_KEY → is_Some d) ∧
  ∀ x, d = Some x → round_trips c x.
Proof.
  destruct i as [|[|[|[|i]]]]; intros Hc Hd; cbv in Hc; try done; injection Hc as <-; injection Hd as <-;
    (split; [done|]; split; [done|]; intros x Hx; try discriminate; injection Hx as <-;
     by apply sample_text_round_trips).
Qed.

Lemma inserted_hash_row_reads_back_witness :
  render_insert people_copy people_state people_slot = Ok people_op ∧
  vfdw_scan_fill (vfdw_row_ctx_init people_map) "u:1"
    (hash_server (λ k, if bool_decide (k = "u:1") then hash_of (op_fields people_op) else λ _, None) (λ _ _, -2)
       (cmd_args (vfdw_scan_value_command people_map (vfdw_cmd_init 4) "u:1"))) = Ok people_slot.
Proof.
  split; [reflexivity|].
  apply (inserted_hash_row_reads_back people_copy people_tupdesc people_state people_slot people_op (vfdw_cmd_init 4));
    [exact people_map_wf|reflexivity|reflexivity|reflexivity|reflexivity| | | |
     exact people_columns|reflexivity|exact people_values|reflexivity].
  - vm_compute. lia.
  - unfold cmd_wf, cmd_argc. simpl. lia.
  - apply (bool_decide_unpack (NoDup (default "" <$> asked_fields (map_cols people_map)))). reflexivity.
Defined.
