(* ===== verification/WritableFacts.v ===== *)
(** The write mask, decided from the catalog alone, says of a table whose map is
    built what the map says (src/vfdw_writable.c against src/vfdw_map.c), and an
    admitted write has an identity to act on (src/vfdw_rowid.c). *)
From S2P Require Import Prelude Opcode Option OptionFacts.
From S2P Require Import TableMap TableMapFacts ScanCmd Writable Modify.
Local Open Scope Z_scope.

(** The table options that name keys. *)
Definition key_options (o : VfdwTableOptions) : Z :=
  Z.b2z (bool_decide (is_Some (to_singleton_key o))) + Z.b2z (bool_decide (is_Some (to_keyprefix o)))
  + Z.b2z (bool_decide (is_Some (to_keyset o))).

(** The two readings of the same options. *)
Definition agree (w : VfdwWritability) (o : VfdwTableOptions) : Prop :=
  w = Writability (vfdw_tabletype_name (tabletype_code (to_tabletype o))) (to_readonly o) (to_legacy_value o)
        (bool_decide (is_Some (to_search_index o))) (key_options o).

(** An option still to come has its default. *)
Definition unread (names : list bytes) (o : VfdwTableOptions) : Prop :=
  ("readonly" ∈ names → to_readonly o = false) ∧ ("legacy_value" ∈ names → to_legacy_value o = false) ∧
  ("singleton_key" ∈ names → to_singleton_key o = None) ∧ ("keyprefix" ∈ names → to_keyprefix o = None) ∧
  ("keyset" ∈ names → to_keyset o = None).

Lemma unread_tail name names o o' :
  unread (name :: names) o → name ∉ names →
  (name ≠ "readonly" → to_readonly o' = to_readonly o) → (name ≠ "legacy_value" → to_legacy_value o' = to_legacy_value o) →
  (name ≠ "singleton_key" → to_singleton_key o' = to_singleton_key o) →
  (name ≠ "keyprefix" → to_keyprefix o' = to_keyprefix o) → (name ≠ "keyset" → to_keyset o' = to_keyset o) →
  unread names o'.
Proof.
  intros (U1 & U2 & U3 & U4 & U5) Hn E1 E2 E3 E4 E5. setoid_rewrite elem_of_cons in U1.
  setoid_rewrite elem_of_cons in U2. setoid_rewrite elem_of_cons in U3. setoid_rewrite elem_of_cons in U4.
  setoid_rewrite elem_of_cons in U5.
  split; [|split; [|split; [|split]]]; intros H;
    [rewrite E1|rewrite E2|rewrite E3|rewrite E4|rewrite E5]; auto; by intros ->.
Qed.

Lemma index_of_tabletype v i :
  index_of v vfdw_tabletype_values = Some i → vfdw_tabletype_name (tabletype_code (tabletype_of_code i)) = v.
Proof.
  unfold vfdw_tabletype_values. cbn [index_of].
  repeat (case_bool_decide; [intros [= <-]; assumption|]); intros; discriminate.
Qed.

Section facts.
Context (parse_bool : bytes → option bool).

Lemma parse_bool_ok def v b : vfdw_parse_bool parse_bool def v = Ok b → says_true parse_bool v = b.
Proof. unfold vfdw_parse_bool, says_true. destruct (parse_bool v); [by intros [= <-]|done]. Qed.

(** An option the table context does not know changes neither reading. *)
Lemma unknown_option_ignored name v w :
  vfdw_find_option name ForeignTableRelationId = None → read_writability_option parse_bool w (name, v) = w.
Proof.
  intros Hf. unfold read_writability_option.
  repeat (rewrite bool_decide_false by (intros ->; vm_compute in Hf; discriminate Hf)). done.
Qed.

Lemma read_option_agrees name v names def w o o' :
  vfdw_find_option name ForeignTableRelationId = Some def → name ∉ names → unread (name :: names) o → agree w o →
  read_table_option parse_bool def v o = Ok o' →
  agree (read_writability_option parse_bool w (name, v)) o' ∧ unread names o'.
Proof.
  intros Hf Hn Hu -> Hr. apply find_option_in in Hf as (Hd & Hc & Hname).
  assert (Hself : name ∈ name :: names) by (apply elem_of_cons; by left).
  pose proof Hu as (U1 & U2 & U3 & U4 & U5).
  destruct o as [t kp ks sk si db lv ro]. cbn in U1, U2, U3, U4, U5.
  each_option Hd; try (cbn in Hc; discriminate Hc); cbn in Hname; subst name;
    unfold read_table_option in Hr; cbn [od_name] in Hr; revert Hr; closed_names;
    unfold read_writability_option; closed_names.
  all: match goal with
    | |- context [vfdw_parse_enum ?d ?x] =>
        unfold vfdw_parse_enum; destruct (index_of x _) as [i|] eqn:Ei; [|done];
        apply index_of_tabletype in Ei; cbn [mbind result_bind]; intros [= <-]
    | |- context [vfdw_parse_bool parse_bool ?d ?x] =>
        destruct (vfdw_parse_bool parse_bool d x) eqn:Eb; [|done]; apply parse_bool_ok in Eb;
        cbn [mbind result_bind]; intros [= <-]
    | |- context [vfdw_parse_int ?d ?x] =>
        destruct (vfdw_parse_int d x); [|done]; cbn [mbind result_bind]; intros [= <-]
    | |- _ => intros [= <-]
    end.
  all: (split; [|by apply (unread_tail _ _ _ _ Hu Hn); intros ?]).
  all: try (rewrite (U1 Hself)); try (rewrite (U2 Hself)); try (rewrite (U3 Hself));
    try (rewrite (U4 Hself)); try (rewrite (U5 Hself)).
  all: unfold agree; cbn; rewrite ?Eb, ?Ei; try done.
  all: f_equal; unfold key_options; cbn; lia.
Qed.

Lemma read_options_agree options w o o' :
  NoDup options.*1 → unread options.*1 o → agree w o → read_table_options parse_bool options o = Ok o' →
  agree (fold_left (read_writability_option parse_bool) options w) o'.
Proof.
  revert w o. induction options as [|[name v] options IH]; intros w o Hn Hu Ha Hr; cbn [fold_left read_table_options] in Hr |- *; [by injection Hr as <-|].
  rewrite fmap_cons in Hn, Hu. apply list.NoDup_cons in Hn as [Hx Hn]. cbn [fst] in Hx, Hu.
  destruct (vfdw_find_option name ForeignTableRelationId) as [def|] eqn:Ef.
  - destruct (read_table_option parse_bool def v o) as [o1|] eqn:E; [|done]. cbn [mbind result_bind] in Hr.
    destruct (read_option_agrees _ _ _ _ _ _ _ Ef Hx Hu Ha E) as [Ha1 Hu1]. by eapply IH.
  - cbn [mbind result_bind] in Hr. rewrite (unknown_option_ignored name v) by done. eapply IH; try done.
    by eapply unread_tail.
Qed.

Lemma readings_agree options o :
  NoDup options.*1 → vfdw_map_read_table_options parse_bool options = Ok o →
  agree (vfdw_map_read_writability parse_bool options) o ∧ key_options o ≤ 1.
Proof.
  intros Hn. unfold vfdw_map_read_table_options.
  destruct (read_table_options parse_bool options default_table_options) as [o1|] eqn:E; [|done].
  cbn [mbind result_bind]. destruct (vfdw_map_check_table_options o1) as [[]|] eqn:Ec; [|done].
  intros [= <-]. split.
  - apply (read_options_agree options _ default_table_options); [done| |reflexivity|done].
    unfold unread; cbn; auto 10.
  - unfold vfdw_map_check_table_options in Ec. unfold key_options.
    destruct (to_singleton_key o1), (to_keyprefix o1), (to_keyset o1); cbn in Ec |- *; first [done|lia].
Qed.

(** What the map says of a write; nothing here reads the options again. *)
Definition map_writable (m : VfdwTableMap) (operation : CmdType) : Prop :=
  to_readonly (map_options m) = false ∧ map_tabletype m ≠ VFDW_TABLE_VECTOR ∧
  ¬ (map_tabletype m = VFDW_TABLE_ZSET ∧ map_legacy_value m = true) ∧ to_search_index (map_options m) = None ∧
  (∀ c, c ∈ map_cols m → col_kind c ≠ VFDW_COL_DISTANCE) ∧
  ¬ (operation = CMD_UPDATE ∧ map_tabletype m = VFDW_TABLE_LIST ∧ map_legacy_value m = false).

Lemma tabletype_name_eq t u :
  bool_decide (vfdw_tabletype_name (tabletype_code t) = vfdw_tabletype_name (tabletype_code u)) = bool_decide (t = u).
Proof. by destruct t, u. Qed.

Lemma refusal_agrees tupdesc options o m op :
  map_options m = o → agree (vfdw_map_read_writability parse_bool options) o → key_options o ≤ 1 →
  (to_tabletype o ≠ VFDW_TABLE_VECTOR → vfdw_map_has_distance_column parse_bool tupdesc = false) →
  (∀ c, c ∈ map_cols m → col_kind c = VFDW_COL_DISTANCE → to_tabletype o = VFDW_TABLE_VECTOR) →
  vfdw_refuse_unwritable parse_bool tupdesc options m op = Ok () ↔ map_writable m op.
Proof.
  intros Ho Ha Hk Hd Hc. unfold vfdw_refuse_unwritable, map_writable, map_tabletype, map_legacy_value. rewrite Ho.
  unfold agree in Ha. unfold vfdw_map_writability, vfdw_map_write_block. cbv zeta. rewrite Ha. cbn [w_readonly w_legacy w_tabletype w_search_index w_keyopts].
  pose proof (tabletype_name_eq (to_tabletype o)) as Ht.
  change "zset" with (vfdw_tabletype_name (tabletype_code VFDW_TABLE_ZSET)).
  change "vector" with (vfdw_tabletype_name (tabletype_code VFDW_TABLE_VECTOR)).
  change "list" with (vfdw_tabletype_name (tabletype_code VFDW_TABLE_LIST)).
  rewrite !Ht. rewrite (bool_decide_false (1 < key_options o)) by lia.
  destruct (to_readonly o); [split; [done|by intros [? _]]|].
  destruct (decide (to_tabletype o = VFDW_TABLE_VECTOR)) as [Ev|Ev].
  { rewrite Ev, andb_false_r, bool_decide_true by done. cbn. split; [done|]. naive_solver. }
  rewrite (Hd Ev). assert (Hn : ∀ c, c ∈ map_cols m → col_kind c ≠ VFDW_COL_DISTANCE).
  { intros c Hin E. by apply Ev, (Hc c). }
  clear Hd Hc. destruct (to_search_index o), (to_legacy_value o), (to_tabletype o), op;
    cbn; vm_compute (Z.land _ _); naive_solver.
Qed.

(* ---------------------------------------------------------------- *)
(** ** Distance columns *)

Definition asks_distance (a : Form_pg_attribute) : Prop :=
  ∃ v, ("distance", v) ∈ attfdwoptions a ∧ parse_bool v = Some true.

Lemma has_distance_spec tupdesc :
  vfdw_map_has_distance_column parse_bool tupdesc = true ↔ ∃ a, a ∈ tupdesc ∧ asks_distance a.
Proof.
  unfold vfdw_map_has_distance_column, asks_distance. rewrite existsb_exists. setoid_rewrite existsb_exists.
  unfold is_distance_option, says_true. split.
  - intros (a & Ha & [name v] & Hv & Hd). apply list_elem_of_In in Ha, Hv. exists a. split; [done|]. exists v.
    apply andb_prop in Hd as [Hn Hb]. apply bool_decide_eq_true in Hn. cbn in Hn, Hb. subst name. split; [done|].
    by destruct (parse_bool v) as [[]|].
  - intros (a & Ha & v & Hv & Hb). exists a. apply list_elem_of_In in Ha, Hv. split; [done|]. exists ("distance", v).
    split; [done|]. cbn. by rewrite Hb.
Qed.

Lemma option_keeps_distance def v c c' :
  od_name def ≠ "distance" → read_column_option parse_bool def v c = Ok c' → is_distance c' = is_distance c.
Proof.
  intros Hn. destruct c as [k m s t p d f it]. unfold read_column_option. rewrite (bool_decide_false (_ = "distance")) by done.
  repeat (case_bool_decide; [lazymatch goal with
      | |- context [vfdw_parse_bool _ _ _] => destruct (vfdw_parse_bool parse_bool def v); cbn; [by intros [= <-]|done]
      | |- context [vfdw_map_index_type _ _] => destruct (vfdw_map_index_type def v); cbn; [by intros [= <-]|done]
      | |- _ => by intros [= <-]
      end|]). by intros [= <-].
Qed.

Lemma claims_keep_distance options c c' :
  "distance" ∉ options.*1 → read_column_claims parse_bool options c = Ok c' → is_distance c' = is_distance c.
Proof.
  revert c. induction options as [|[name v] options IH]; intros c Hn; cbn [read_column_claims]; [by intros [= <-]|].
  rewrite fmap_cons in Hn. apply not_elem_of_cons in Hn as [Hx Hn]. cbn in Hx.
  destruct (vfdw_find_option name AttributeRelationId) as [def|] eqn:Ef; [|cbn; by apply IH].
  apply find_option_in in Ef as (_ & _ & Hname).
  destruct (read_column_option parse_bool def v c) as [c1|] eqn:E; [|done]. cbn. intros Hr.
  rewrite (IH c1 Hn Hr). eapply option_keeps_distance; [|exact E]. congruence.
Qed.

Lemma claims_distance options v c c' :
  NoDup options.*1 → ("distance", v) ∈ options → parse_bool v = Some true →
  read_column_claims parse_bool options c = Ok c' → is_distance c' = true.
Proof.
  revert c. induction options as [|[name v'] options IH]; intros c Hnd Hin Hv; cbn [read_column_claims]; [by apply not_elem_of_nil in Hin|].
  rewrite fmap_cons in Hnd. apply list.NoDup_cons in Hnd as [Hx Hnd]. cbn in Hx.
  apply elem_of_cons in Hin as [[= <- <-]|Hin].
  - destruct (vfdw_find_option "distance" AttributeRelationId) as [def|] eqn:Ef; [|vm_compute in Ef; discriminate].
    apply find_option_in in Ef as (_ & _ & Hname). destruct c as [k m s t p d f it].
    unfold read_column_option. rewrite Hname. closed_names. unfold vfdw_parse_bool. rewrite Hv. cbn [mbind result_bind].
    intros Hr. by rewrite (claims_keep_distance _ _ _ Hx Hr).
  - destruct (match vfdw_find_option name AttributeRelationId with None => _ | Some _ => _ end) as [c1|]; [|done].
    cbn. by apply IH.
Qed.
End facts.

Lemma built_options `{TypeCatalog} parse_bool relid tupdesc options m :
  vfdw_map_build parse_bool relid tupdesc options = Ok m →
  vfdw_map_read_table_options parse_bool options = Ok (map_options m).
Proof.
  unfold vfdw_map_build. destruct (vfdw_map_read_table_options parse_bool options) as [o|]; [|done]. cbn [mbind result_bind].
  destruct (build_columns _ _ _) as [c|]; [|done]. cbn [mbind result_bind].
  destruct (vfdw_map_assign_defaults _ _ _) as [[c1 k]|]; [|done]. cbn [mbind result_bind].
  destruct (vfdw_map_check_types _ _ _) as [[[c2 nf] nt]|]; [|done]. cbn [mbind result_bind].
  destruct (vfdw_map_resolve_packed _ _) as [c3|]; [|done]. cbn [mbind result_bind].
  destruct (vfdw_map_index_roles _) as [[[a b] c4]|]; [|done]. cbn [mbind result_bind].
  destruct (vfdw_map_plan_hash_fetch _ _ _) as [[c5 h] n]. by intros [= <-].
Qed.

Lemma shape_ok tupdesc m :
  map_wf tupdesc m → (is_collection (map_tabletype m) = true → map_legacy_value m = false → map_memberattno m ≠ 0) →
  is_ok (vfdw_rowid_shape m) = true.
Proof.
  intros Hwf Hm. pose proof (wf_keyed _ _ Hwf) as Hk. unfold vfdw_rowid_shape, map_singleton_key.
  destruct (to_singleton_key (map_options m)) as [s|]; cbn [negb andb]; rewrite ?bool_decide_true by done; cbn.
  - destruct (map_legacy_value m); [done|]. destruct (is_collection _); [|done]. by rewrite bool_decide_false by auto.
  - rewrite bool_decide_false by auto.
    destruct (map_legacy_value m); [done|]. destruct (is_collection _); [|done]. by rewrite bool_decide_false by auto.
Qed.

Section distance.
Context `{TypeCatalog} (parse_bool : bytes → option bool).

(** A live column that asks for a distance is one. *)
Lemma build_column_distance i a c :
  attisdropped a = false → NoDup (attfdwoptions a).*1 → asks_distance parse_bool a →
  build_column parse_bool i a = Ok c → col_kind c = VFDW_COL_DISTANCE.
Proof.
  intros Hl Hn (v & Hv & Hb). unfold build_column. rewrite Hl. unfold vfdw_map_read_column_options.
  destruct (read_column_claims parse_bool _ _) as [cl|] eqn:E; [|done]. cbn.
  apply (claims_distance _ _ _ _ _ Hn Hv Hb) in E. unfold vfdw_map_check_single_source.
  case_bool_decide as Hc; [done|]. cbn. intros [= <-]. unfold with_options. cbn.
  unfold claim_count in Hc. unfold claimed_kind. rewrite E in *.
  destruct (bool_decide (is_Some (cl_field cl))), (is_key cl), (is_ttl cl), (is_position cl), (is_member cl), (is_score cl); cbn in Hc |- *; try lia; done.
Qed.

Lemma build_columns_at tupdesc n cols i a c :
  build_columns parse_bool n tupdesc = Ok cols → tupdesc !! i = Some a → cols !! i = Some c →
  build_column parse_bool (n + i) a = Ok c.
Proof.
  revert n cols i. induction tupdesc as [|x td IH]; intros n cols i; cbn [build_columns]; [done|].
  destruct (build_column parse_bool n x) as [c0|] eqn:E; [|done]. cbn [mbind result_bind].
  destruct (build_columns parse_bool (S n) td) as [r|] eqn:Er; [|done]. intros [= <-]. destruct i as [|i]; cbn.
  - intros [= <-] [= <-]. by rewrite Nat.add_0_r.
  - rewrite Nat.add_succ_r. by apply (IH (S n) r i).
Qed.

Definition keeps_kinds (cols cols' : list VfdwColumn) : Prop :=
  ∀ i k, (col_kind <$> cols) !! i = Some k → k ≠ VFDW_COL_DROPPED → (col_kind <$> cols') !! i = Some k.

Lemma claimed_keeps k i cols cols' : claimed k i cols cols' → keeps_kinds cols cols'.
Proof.
  intros Hc j k' Hj Hk. destruct (claimed_kinds _ _ _ _ Hc) as [Hi ->].
  rewrite list_lookup_insert_ne; [done|]. intros ->. congruence.
Qed.

Lemma assign_defaults_keeps o tupdesc cols cols' key :
  to_legacy_value o = false → numbered cols →
  vfdw_map_assign_defaults o tupdesc cols = Ok (cols', key) → keeps_kinds cols cols'.
Proof.
  intros Hl Hn. unfold vfdw_map_assign_defaults.
  destruct (vfdw_map_survey cols) as [[[k u] f]|] eqn:Es; simpl; [|done].
  destruct (survey_ok _ _ _ _ Hn Es) as (_ & Hu & Hf). rewrite Hl.
  assert (Hr : ∀ c1 u1 c2 u2, vfdw_map_assign_remaining (to_tabletype o) c1 u1 = (c2, u2) → keeps_kinds c1 c2).
  { intros c1 u1 c2 u2. unfold vfdw_map_assign_remaining. destruct (_ || _); [by intros [= <- _] ? ?|].
    destruct (claim_first _ c1) as [r|] eqn:E; intros [= <- _]; [|by intros ? ?].
    apply claim_first_claimed in E as [i Hc]. by eapply claimed_keeps. }
  assert (Hend : ∀ c1 k1 u1, keeps_kinds cols c1 →
    (let '(c2, u2) := vfdw_map_assign_remaining (to_tabletype o) c1 u1 in
     if bool_decide (0 < u2) then Raise (vfdw_map_report_unsourced c2 tupdesc u2) else Ok (c2, k1)) = Ok (cols', key) →
    keeps_kinds cols cols').
  { intros c1 k1 u1 H1. destruct (vfdw_map_assign_remaining _ c1 u1) as [c2 u2] eqn:E.
    case_bool_decide; [done|]. intros [= <- _]. intros i kd Hi Hk. apply (Hr _ _ _ _ E); [by apply H1|done]. }
  destruct (to_singleton_key o); [by apply (Hend cols k u); intros ? ?|].
  unfold vfdw_map_assign_key, InvalidAttrNumber. destruct (bool_decide (k = 0) && bool_decide (0 < u)) eqn:E0.
  - apply andb_prop in E0 as [_ Ep]. apply bool_decide_eq_true in Ep.
    destruct Hf as [[? _]|(i & c & Hi & Hc & ->)]; [lia|]. rewrite bool_decide_false by lia. cbn [mbind result_bind].
    apply Hend. replace (Z.to_nat (Z.of_nat i + 1 - 1)) with i by lia.
    eapply claimed_keeps. by eapply (alter_claimed VFDW_COL_KEY cols i c).
  - destruct (bool_decide (k = 0)); [done|]. cbn [mbind result_bind]. by apply Hend; intros ? ?.
Qed.

Lemma check_types_distance type cols tupdesc nf nt r c :
  check_types_loop type cols tupdesc nf nt = Ok r → c ∈ cols → col_kind c = VFDW_COL_DISTANCE →
  type = VFDW_TABLE_VECTOR.
Proof.
  revert tupdesc nf nt r. induction cols as [|col cols IH]; intros td nf nt r Hr Hc Hk; [by apply not_elem_of_nil in Hc|].
  cbn [check_types_loop] in Hr.
  destruct (vfdw_map_column_conflict type nf nt col) as [[[why col'] nf1] nt1] eqn:E. destruct why; [done|].
  destruct (check_types_loop type cols _ nf1 nt1) as [p|] eqn:El; [|done].
  apply elem_of_cons in Hc as [<-|Hc]; [|by eapply IH].
  unfold vfdw_map_column_conflict in E. rewrite Hk in E. case_bool_decide; [done|discriminate E].
Qed.

Lemma resolve_packed_view legacy cols cols' :
  vfdw_map_resolve_packed legacy cols = Ok cols' → view <$> cols' = view <$> cols.
Proof.
  unfold vfdw_map_resolve_packed. destruct legacy; simpl; [|by intros [= <-]].
  destruct (cols !! _) as [col|]; [|by intros [= <-]]. destruct (packed_elem col); simpl; [|done]. intros [= <-].
  apply list_eq; intros i. rewrite !list_lookup_fmap, list_lookup_alter.
  case_decide; [|done]. subst. by destruct (cols !! _).
Qed.

(** A distance is a column of a vector table, and where no dropped column asks for
    one, nor a column of a packed table, whose options are not looked at, no
    other table has a column that asks for one. *)
Lemma built_distance relid tupdesc options m :
  vfdw_map_build parse_bool relid tupdesc options = Ok m →
  (∀ c, c ∈ map_cols m → col_kind c = VFDW_COL_DISTANCE → map_tabletype m = VFDW_TABLE_VECTOR) ∧
  ((∀ a, a ∈ tupdesc → NoDup (attfdwoptions a).*1 ∧
      (attisdropped a = true ∨ map_legacy_value m = true → ¬ asks_distance parse_bool a)) →
   map_tabletype m ≠ VFDW_TABLE_VECTOR → vfdw_map_has_distance_column parse_bool tupdesc = false).
Proof.
  intros Hm. unfold vfdw_map_build in Hm.
  destruct (vfdw_map_read_table_options _ _) as [o|]; [|done]. cbn [mbind result_bind] in Hm.
  destruct (build_columns _ _ _) as [c|] eqn:Eb; [|done]. cbn [mbind result_bind] in Hm.
  destruct (vfdw_map_assign_defaults _ _ _) as [[c1 k]|] eqn:Ea; [|done]. cbn [mbind result_bind] in Hm.
  destruct (vfdw_map_check_types _ _ _) as [[[c2 nf] nt]|] eqn:Ec; [|done]. cbn [mbind result_bind] in Hm.
  destruct (vfdw_map_resolve_packed _ _) as [c3|] eqn:Ep; [|done]. cbn [mbind result_bind] in Hm.
  destruct (vfdw_map_index_roles _) as [[[a b] c4]|]; [|done]. cbn [mbind result_bind] in Hm.
  destruct (vfdw_map_plan_hash_fetch _ _ _) as [[c5 h] n] eqn:Ef. injection Hm as <-.
  unfold map_tabletype, map_legacy_value. cbn [map_options map_cols] in *. unfold vfdw_map_check_types in Ec.
  split.
  - intros col Hc Hk. assert (Hks : col_kind <$> c5 = col_kind <$> c1).
    { apply check_types_ok in Ec as (Hv & _). apply resolve_packed_view in Ep.
      apply plan_fetch_ok in Ef as (Hkp & _). apply view_kinds.
      assert (Hv5 : view <$> c5 = view <$> c3) by by apply (fmap_weaken kept (λ x, x.1.1)).
      congruence. }
    assert (Hin : VFDW_COL_DISTANCE ∈ col_kind <$> c1).
    { rewrite <- Hks, <- Hk. by apply list_elem_of_fmap_2. }
    apply list_elem_of_fmap in Hin as (d & Hd & Hin). by eapply check_types_distance.
  - intros Hcols Hne. apply not_true_iff_false. intros (att & Hin & Hd)%has_distance_spec.
    destruct (Hcols att Hin) as [Hnd Hex].
    destruct (attisdropped att) eqn:El; [by apply Hex; [left|]|].
    destruct (to_legacy_value o) eqn:Elg; [by apply Hex; [right|]|].
    apply list_elem_of_lookup in Hin as [i Hi]. apply Hne.
    destruct (build_columns_ok _ _ _ _ Eb) as (Hlen & _).
    destruct (lookup_lt_is_Some_2 c i) as [col Hcol]; [rewrite Hlen; by eapply lookup_lt_Some|].
    assert (Hkind : col_kind col = VFDW_COL_DISTANCE).
    { eapply build_column_distance; [exact El|done|done|]. by eapply build_columns_at. }
    apply (assign_defaults_keeps _ _ _ _ _ Elg (build_columns_numbered _ _ _ Eb)) in Ea.
    specialize (Ea i VFDW_COL_DISTANCE). rewrite !list_lookup_fmap, Hcol in Ea. cbn in Ea. rewrite Hkind in Ea.
    specialize (Ea eq_refl ltac:(done)). apply fmap_Some in Ea as (d & Hd1 & Hd2).
    eapply check_types_distance; [exact Ec|by eapply list_elem_of_lookup_2|done].
Qed.
End distance.

(** C30: the write mask agrees with the map.  The planner decides what may be
    written from the option text alone, without building the map; on every table
    whose map is built a write is admitted exactly when the map says it may be:
    not readonly, not a vector or search table, not a packed zset, no distance
    column, and no UPDATE of a list.  That is for the columns the map is built
    from: the text of a dropped column and of the columns of a packed table is
    read by the mask and not by the map, and one that asks for a distance is
    refused for it (unread_distance_blocks_writes).  A write that is admitted has
    its row identity, so the internal errors of the row identity are reached only
    by a collection table that has no member column.  No option is given twice. *)
Theorem write_mask_agrees_with_map `{TypeCatalog} parse_bool relid tupdesc options m op :
  NoDup options.*1 → vfdw_map_build parse_bool relid tupdesc options = Ok m →
  (∀ a, a ∈ tupdesc → NoDup (attfdwoptions a).*1 ∧
     (attisdropped a = true ∨ map_legacy_value m = true → ¬ asks_distance parse_bool a)) →
  (vfdw_refuse_unwritable parse_bool tupdesc options m op = Ok () ↔ map_writable m op) ∧
  (is_ok (vfdw_rowid_shape m) = true ∨
   (is_collection (map_tabletype m) = true ∧ map_legacy_value m = false ∧ map_memberattno m = 0)).
Proof.
  intros Hn Hm Hcols. destruct (readings_agree _ _ _ Hn (built_options _ _ _ _ _ Hm)) as [Ha Hk]. split.
  - destruct (built_distance _ _ _ _ _ Hm) as [Hd1 Hd2]. eapply refusal_agrees; [done..|by apply Hd2|exact Hd1].
  - apply map_build_wf in Hm. destruct (is_collection (map_tabletype m)) eqn:Ec; [|left; eapply shape_ok; [done|intros; congruence]].
    destruct (map_legacy_value m) eqn:El; [left; eapply shape_ok; [done|intros; congruence]|].
    destruct (decide (map_memberattno m = 0)); [by right|left]. by eapply shape_ok.
Qed.

#[local] Existing Instance sample_catalog.

(** A hash with a lifetime: rows may be inserted, updated and deleted. *)
Definition held_tupdesc : list Form_pg_attribute :=
  [Attribute "key" TEXTOID (-1) false []; Attribute "name" TEXTOID (-1) false [("field", "name")];
   Attribute "left" INTERVALOID (-1) false [("ttl", "true"); ("field", "name")]].
Definition held_options : list DefElem := [("tabletype", "hash"); ("keyprefix", "h:")].
Definition held_map : result VfdwTableMap := vfdw_map_build sample_parse_bool 7 held_tupdesc held_options.

Lemma write_mask_agrees_with_map_witness :
  ∃ m, held_map = Ok m ∧
  (vfdw_refuse_unwritable sample_parse_bool held_tupdesc held_options m CMD_DELETE = Ok () ↔ map_writable m CMD_DELETE) ∧
  vfdw_refuse_unwritable sample_parse_bool held_tupdesc held_options m CMD_DELETE = Ok ().
Proof.
  destruct held_map as [m|] eqn:E; [|vm_compute in E; discriminate E].
  exists m. split; [reflexivity|]. split.
  - apply (write_mask_agrees_with_map sample_parse_bool 7 held_tupdesc held_options m CMD_DELETE); [|exact E|].
    + apply (bool_decide_unpack (NoDup held_options.*1)). reflexivity.
    + intros a Ha. split.
      * unfold held_tupdesc in Ha. rewrite !elem_of_cons, elem_of_nil in Ha.
        destruct Ha as [->|[->|[->|[]]]]; by apply (bool_decide_unpack (NoDup _)).
      * intros _ (v & Hv & _). unfold held_tupdesc in Ha. rewrite !elem_of_cons, elem_of_nil in Ha.
        destruct Ha as [->|[->|[->|[]]]]; cbn in Hv; rewrite ?elem_of_cons, elem_of_nil in Hv; naive_solver.
  - vm_compute in E. injection E as <-. reflexivity.
Defined.

(** Two tables whose map has no distance column and which the map says may be
    written: a hash with a dropped column that asked for a distance, and a packed
    hash whose value column asks for one, which the map does not look at.  Both
    are read; every write of them is refused. *)
Theorem unread_distance_blocks_writes :
  let asks := [("distance", "true")] in
  let dropped := [Attribute "key" TEXTOID (-1) false []; Attribute "name" TEXTOID (-1) false [("field", "name")];
                  Attribute "gone" TEXTOID (-1) true asks] in
  let packed := [Attribute "key" TEXTOID (-1) false []; Attribute "value" 1009 (-1) false asks] in
  ∀ tupdesc options, (tupdesc, options) ∈ [(dropped, [("tabletype", "hash")]);
                                          (packed, [("tabletype", "hash"); ("legacy_value", "true")])] →
  ∃ m, vfdw_map_build sample_parse_bool 7 tupdesc options = Ok m ∧ map_writable m CMD_INSERT ∧
    is_ok (vfdw_refuse_unwritable sample_parse_bool tupdesc options m CMD_INSERT) = false.
Proof.
  intros asks dropped packed tupdesc options Hin. rewrite !elem_of_cons, elem_of_nil in Hin.
  destruct Hin as [[= -> ->]|[[= -> ->]|[]]];
    (eexists; split; [vm_compute; reflexivity|]; split; [|vm_compute; reflexivity]);
    (split; [reflexivity|split; [discriminate|split; [intros [E _]; discriminate E|split; [reflexivity|split]]]]);
    first [intros (_ & E & _); discriminate E|intros c; cbn [map_cols]; rewrite !elem_of_cons, elem_of_nil];
    (intros Hc; repeat destruct Hc as [->|Hc]; first [discriminate|done]).
Qed.

(** A set without a member column has a map and admits writes, and its DELETE is
    an internal error. *)
Theorem collection_without_member_has_no_identity :
  ∃ m, vfdw_map_build sample_parse_bool 7 [Attribute "key" TEXTOID (-1) false []] [("tabletype", "set")] = Ok m ∧
    vfdw_refuse_unwritable sample_parse_bool [Attribute "key" TEXTOID (-1) false []] [("tabletype", "set")] m CMD_DELETE = Ok () ∧
    vfdw_rowid_shape m = Raise (elog_error "valkey_fdw: table has no member column to identify rows by").
Proof. eexists. split; [vm_compute; reflexivity|]. vm_compute. by split. Qed.

(** EXPLAIN VERBOSE names the row identity the planner was asked to carry: the junk
    columns of the plan, in order, and behind them only the whole row of a DELETE. *)
Theorem explained_identity_is_carried parse_bool attgenerated updated tupdesc options map operation onconflict priv targets :
  operation ≠ CMD_INSERT →
  vfdw_modify_plan parse_bool attgenerated updated tupdesc options map operation onconflict = Ok priv →
  vfdw_rowid_add_update_targets parse_bool tupdesc options map operation = Ok targets →
  targets = drop 3 (vfdw_modify_explain (Some priv) true).*2 ++ (if bool_decide (operation = CMD_DELETE) then ["wholerow"] else []).
Proof.
  intros Hop Hplan Htargets. unfold vfdw_modify_plan, vfdw_modify_junk_names in Hplan. unfold vfdw_rowid_add_update_targets in Htargets.
  rewrite bool_decide_false in Hplan by done.
  destruct (vfdw_refuse_unwritable parse_bool tupdesc options map operation); [|done].
  destruct (vfdw_rowid_shape map) as [r|]; [|by destruct (vfdw_refuse_on_conflict onconflict)].
  destruct (vfdw_refuse_on_conflict onconflict); [|done]. cbn in Hplan, Htargets. injection Hplan as <-. injection Htargets as <-.
  rewrite app_assoc. f_equal. destruct r as [[] k [] m]; cbn; rewrite ?bool_decide_false by done; reflexivity.
Qed.
